(* ===== verification/_CoqProject ===== *)
-Q . S2P
Prelude.v
BitmapModel.v
HashTableModel.v
TableModel.v
LockModel.v
TxModel.v
FileSystemModel.v
FsDataModel.v
KvMessageModel.v
KvServerModel.v
KvClientModel.v
FsMessageModel.v
FsServerModel.v
FsClientModel.v
FsSystemModel.v
SwitchModel.v
VisibilityModel.v
KvSystemModel.v
QpModel.v
QpDeviceModel.v
QpCreditModel.v
QpWaitModel.v
QpRecvModel.v
RpcModel.v
SecondaryModel.v
SecondaryNodeModel.v
SecondaryLoopModel.v
SecondaryClientModel.v
SecondarySystemModel.v
RpcClientModel.v
CableModel.v
CableCoroModel.v
CableSystemModel.v
CableClientModel.v
Sha256Model.v
NoOrderModel.v
KvLoopModel.v
PerfModel.v
AgentModel.v
