(* ===== verification/Prelude.v ===== *)
(** * SwitchDelta: verification development

    SwitchDelta is a key-value store (apps/kv) and a file system (apps/fs) whose
    writes become visible in a programmable switch before the index knows them.
    A write is appended to the value log of a data node; on its way back the
    reply claims the slot of its key in the switch, which multicasts it to the
    client, whose write is done, and to the index node, which applies it in the
    background and frees the slot with its acknowledgement.  Reads are answered
    by the slot when it holds their key and by the index node otherwise.

    ** The files

    - [Prelude]: faults and the error monad ([outcome], [let!]), machine words
      ([wrap], [in_width]), arrays with bounds ([load], [store]), memcpy
      ([blit]), bit lemmas, the hint database swd.
    - [BitmapModel], Module [Bitmap]: apps/fs/src/bitmap.cc.  The class
      [PositionSet] is what it promises to the hash table.
    - [HashTableModel], Module [HashTable]: apps/fs/src/hashtable.cc, proved
      against [PositionSet]; SHA-256 is a parameter.
    - [TableModel], Module [Table]: apps/fs/include/table.h, proved against
      [PositionSet].
    - [LockModel], Module [Lock]: apps/fs/src/lock.cc.
    - [TxModel], Modules [MemPool] and [Tx]: mempool.cc and TxManager.cc.
    - [FileSystemModel], Module [FileSystem]: storage.cc and filesystem.cc on top of
      them, with its refinement to a map from path hashes to nodes.
    - [FsDataModel], Module [FsData]: theorems on the data path of the file system.
    - [FsMessageModel], Module [FsMessage]: pkt.h, the paths and config() of fs.cc.
    - [FsServerModel], Module [FsServer]: server_batch_CPC of fsrpc.h, its five cases,
      the batch of updates and stack_mkdir.
    - [FsClientModel], Module [FsClient]: nrfsRead and nrfsWrite of octopus_client.cc
      as state machines.
    - [FsSystemModel], Module [FsSystem]: client, index node and data node composed.
    - [KvMessageModel], Module [KvMessage]: RawKvMsg, the digests of a key, log
      ids, the choice of threads and config() of apps/kv/kv.cc.
    - [KvServerModel], Module [KvServer]: SampleLog, include/timestamp.h,
      server_process_msg and server_batch_CPC of kv.cc.  Masstree is the
      interface [IndexOps] with the laws [IndexLaws].
    - [KvClientModel], Module [KvClient]: get_index, put_index, get_value,
      put_value, kv_test and the flow control of kv.cc; a coroutine is a state
      machine that suspends in post_appended_smsg.
    - [SwitchModel], Module [Switch]: p4src/SwitchDelta/p4_fw.p4 with
      src/visible_fw.p4 and the entries of py_fw.py.
    - [VisibilityModel], Module [Visibility]: the protocol of clients, switch
      and nodes with one constructor per packet, its specification (an atomic
      register per key) and the forward simulation between them.
    - [KvSystemModel], Module [KvSystem]: the composition of the modelled
      functions, and its refinement to [Visibility].
    - [QpModel], Module [Qp]: the data and the send side of rdma/struct/qp_info.h.
      The verbs are the interface [Verbs], their documented behaviour the laws
      [VerbsLaws] and [VerbsProgress].
    - [QpDeviceModel], Module [QpDevice]: a device that satisfies them.
    - [QpCreditModel], Module [QpCredit]: the invariant of the send side.
    - [QpWaitModel], Module [QpWait]: when its waits end.
    - [QpRecvModel], Module [QpRecv]: the receive buffers of qp_info.h.
    - [RpcModel], Module [Rpc]: one turn of run_server_CPC of rpc/rpc.h.
    - [SecondaryModel], Module [Secondary]: the nodes of apps/kv/secondary_index.cc
      with include/index_wrapper.h, proved against the interfaces [CuckooLaws] (rows)
      and [StringIndexLaws] (index).
    - [SecondaryNodeModel], Module [SecondaryNode]: theorems on the single handlers.
    - [SecondaryLoopModel], Module [SecondaryLoop]: its server loop with the queue of
      updates and the batches of deletions.
    - [SecondaryClientModel], Module [SecondaryClient]: its client coroutines.
    - [SecondarySystemModel], Module [SecondarySystem]: the three composed.
    - [RpcClientModel], Module [RpcClient]: run_client_CPC and client_worker of rpc/rpc.h
      for any application, with a rule for a turn of the loop.
    - [CableModel], Module [Cable]: the cable cache of apps/kv/kv_cable_cache.cc, its
      client coroutine (an application of [RpcClient]) and the request handler.
    - [CableCoroModel], Module [CableCoro]: the invariant of the client: what every
      coroutine waits for.
    - [CableSystemModel], Module [CableSystem]: client, data node and the messages
      between them.
    - [CableClientModel], Module [CableClient]: kv_test and cworker_new_request_index of
      kv_cable_cache.cc, the coroutines that go through the index, and their flow control.
    - [Sha256Model], Module [Sha256]: apps/fs/src/sha256.cc and the algorithm of FIPS
      180-4.
    - [NoOrderModel], Module [NoOrder]: apps/kv/no_order.cc, its server that answers in
      batches, its two-step client, and the system of both.
    - [KvLoopModel], Module [KvLoop]: the loops of run_client_CPC with the coroutines of
      kv.cc on all client threads, composed with switch and nodes; it implements
      [KvSystem].
    - [PerfModel], Module [Perf]: tools/perfv2.h, the counters and histograms every
      application reports to, and the lines made of them.

    ** State and operations

    A C++ object is a Record with its members; a method is a Definition from the
    object to an [outcome] of its result and the new object.  [Fault OutOfBounds]
    is an access outside an array, [Fault ProcessExit] a failed assert or a call
    of exit(), [Fault Diverges] a loop that used up its fuel.  Integers are Z with
    [wrap w] where a w-bit operation can overflow; bytes are Z below 256.
    Pointers that may be null are options.  A message is [KvMessage.RawKvMsg] with
    the bytes behind the struct as its payload; a handler gets the stale content
    of its send buffer as an argument.

    ** The theorems

    - The store: linearizability of the whole system and absence of failures
      ([kv_linearizable], [kv_never_fails]; writes, reads of the index, and reads with
      their value), the same with the client loops in place of free clients
      ([loops_linearizable], [loops_never_fail]), in which every coroutine that is not
      done waits for a packet under way to it ([no_coroutine_lost]), the value path ([value_roundtrip],
      [append_then_read], [log_ring]), batches ([batch_applies_newest],
      [batch_never_overflows]), timestamps ([timestamp_next]), the switch
      ([switch_refines_slots]), keys, log ids and routing ([key_identity],
      [logid_roundtrip], [index_route_consistent], [magic_changes],
      [get_size_bounds], [test_type_mix]).
    - Containers of the file system: the bitmap is a set
      ([bitmap_refines_set], [bitmap_findFree_least]), the hash table and the tables
      are finite maps ([hashtable_refines_map], [hashtable_counts],
      [hashtable_construct_empty], [table_refines_map]), the table of blocks is a
      ring ([table_block_ring]).
    - The file system: while tables and log have room, its metadata is a map from path
      hashes to nodes ([filesystem_refines_namespace], [mkfs_root]); paths
      ([correct_normalizes]); opening makes a path ([open_creates_path]); writes are
      laid out, copied and recorded ([extent_plan_covers], [append_copies_block],
      [meta_write_extents]) and read back ([fs_append_then_read]); client runs end and
      cover their range ([read_covers_range], [write_covers_range]); what a client
      writes it reads ([fs_write_then_read]); updates of the switch are applied in
      order of arrival ([multicasts_in_order]); the lock word excludes and never sticks
      ([lock_excludes], [lock_progress]); the log and the memory map
      ([local_tx_isolated], [flush_covers], [mempool_layout]).
    - The queue pairs: credits add up ([send_credits_exact]), a send buffer is never
      overwritten ([send_buffer_private]), posting hands over the pending messages
      ([post_sends_pending]), waits end ([get_send_msg_returns]) but for one case
      ([get_send_msg_stuck]); counting finds a message and keeps it
      ([recv_finds_message], [recv_buffer_kept]); the server loop answers every request
      and stays live ([server_turn_returns]).
    - The secondary index: clients and nodes composed never fail and reads by value
      return exactly the rows that have it ([secondary_never_fails],
      [secondary_reads_exact]); deferring updates is invisible but for time
      ([read_first_equivalent]); replaced rows are reported without overflow
      ([del_queue_bounded]), in vain ([deletions_only_block]); the index finds up to ten
      entries of a value ([index_lookup_complete]).
    - The cable cache: coroutines that share replies neither fail nor wait for a
      message that is not under way ([cable_never_fails], [cable_no_request_lost]);
      the writes of cworker_new_request_index are read back
      ([cable_index_roundtrip]), those of kv_test are not indexed
      ([cable_write_unindexed]).
    - no_order.cc: clients and servers never fail ([no_order_never_fails]), background
      requests are bounded ([background_bounded]), and a batch larger than the number of
      coroutines is never answered ([large_batch_starves]).
    - The report: every request is shown once, in the epoch it falls into
      ([epochs_reported]), percentiles are those of the new samples but for a neighbouring
      position, and p999 for the case without a smaller sample ([percentiles_reported]);
      reporting waits for every configured thread ([wait_for_every_thread]).
    - SHA-256: any cutting of a message gives the digest of FIPS 180-4
      ([sha256_refines_fips]).
    - What the code does not do: [append_drops_last_extent], [fs_log_entry_zero] and
      [first_write_lost] for the file system; [flow_control_slot] and
      [switch_counters_idle] show that the throttle of kv.cc never engages;
      [logid_overflow], [batch_key0_lost], [comt_skips_second_read] and
      [index_route_differs] are runs in which the code misbehaves; so are
      [coalesced_write_lost], [written_value_stale] and [sixteenth_coroutine] for the
      cable cache.

    ** Fuel

    Chains of the hash table are traversed with the number of items plus one,
    which the invariant shows to be enough; the loop of the timestamp generator
    gets 2, since of two consecutive counter values only one has 31 zero bits;
    the search of config() gets 6, the number of classes.  The loops over the 12
    blocks of a message and the 64 extents of a file get 13 and 65: they leave the
    array before.  stack_mkdir gets the length of the path plus one, reposting receive
    batches 64, their number; both are proved to be enough.  The rounds of a client
    ([run_coro]) are bounded by the blocks of its range.  Polling has no bound of its
    own: its theorems hold for every fuel from some point on ([halts], [returns]), or
    for every fuel when the code waits forever.  The loop of sha256_update ends when the
    fuel exceeds the length, its padding loops get 65.  The loop over the followers of a
    request of the cable cache gets 64, the number of coroutines, which its invariant
    shows to be enough.

    ** Not modelled

    Masstree and its coroutine build (comt, cbmt), the SHA-256 of Crypto++ (a parameter of the hash table), the verbs (an interface)
    and the set-up of devices, connections and the exchange of addresses, multi-packet
    and shared receives beyond their definitions, experimental completion queues, the
    scheduling of coroutines in run_client_CPC for the clients other than those of kv.cc
    and of the cable cache (they are state machines that take steps in any order),
    threads and their mutexes (each operation runs under the object's lock or on its
    own thread), the reports inside the applications' operations, the generators of keys
    and operations (inputs), the benchmark driver of the file system,
    batch_Index_moti.cc (no_order.cc with one server), and sort_batch, which nothing calls.  The secondary index is composed without the switch: its
    reply to a write does not carry what the index node reads of a multicast
    ([multicast_indexes_version]).  The client of kv.cc writes from the buffer it reads
    values into; the model keeps the buffer fixed.  The theorems on its loops take at most
    8 threads per server, for which no counter of a port is one of a thread.  The doubles
    of the report are exact numbers.  The network neither loses nor duplicates
    packets. *)

From Stdlib Require Export ZArith Lia.
From stdpp Require Export base gmap list list_numbers.

#[global] Open Scope Z_scope.

Ltac Zify.zify_post_hook ::= Z.to_euclidean_division_equations.

(** ** Outcomes of C++ code

    A C++ function either returns, or it does something after which the
    program has no defined continuation.  [fault] names those events. *)
Inductive fault :=
  | OutOfBounds      (* access outside an array *)
  | NullDeref        (* dereference of a null pointer *)
  | UseAfterFree     (* access to a freed heap cell *)
  | LockHeld         (* waits on a lock that nobody will release *)
  | ProcessExit      (* exit() or a failed assert() *)
  | Diverges.        (* a loop that never terminates / fuel exhausted *)

Inductive outcome (A : Type) :=
  | Done (a : A)
  | Fault (f : fault).
Arguments Done {A} a.
Arguments Fault {A} f.

#[export] Instance fault_eq_dec : EqDecision fault.
Proof. solve_decision. Defined.

#[export] Instance outcome_eq_dec {A} `{EqDecision A} : EqDecision (outcome A).
Proof. solve_decision. Defined.

Definition obind {A B} (c : outcome A) (k : A -> outcome B) : outcome B :=
  match c with
  | Done a => k a
  | Fault f => Fault f
  end.

Declare Scope outcome_scope.
Notation "'let!' x ':=' c 'in' k" := (obind c (fun x => k))
  (at level 10, x pattern, c at level 100, k at level 200) : outcome_scope.
#[global] Open Scope outcome_scope.

Definition of_option {A} (f : fault) (o : option A) : outcome A :=
  match o with
  | Some a => Done a
  | None => Fault f
  end.

Lemma obind_done {A B} (a : A) (k : A -> outcome B) : obind (Done a) k = k a.
Proof. reflexivity. Qed.

Lemma obind_inv {A B} (c : outcome A) (k : A -> outcome B) b :
  obind c k = Done b -> exists a, c = Done a /\ k a = Done b.
Proof. destruct c; simpl; [eauto|discriminate]. Qed.

(** ** Machine integers: values in Z with the wrap-around written out. *)
Definition wrap (w x : Z) : Z := x mod 2 ^ w.
Definition in_width (w x : Z) : Prop := 0 <= x < 2 ^ w.

#[global] Arguments wrap : simpl never.
#[global] Arguments in_width : simpl never.

Lemma wrap_small w x : in_width w x -> wrap w x = x.
Proof. unfold wrap, in_width. apply Z.mod_small. Qed.

Lemma wrap_range w x : 0 <= w -> in_width w (wrap w x).
Proof.
  intros Hw. unfold in_width, wrap.
  apply Z.mod_pos_bound, Z.pow_pos_nonneg; lia.
Qed.

Lemma wrap_wrap w x : 0 <= w -> wrap w (wrap w x) = wrap w x.
Proof. intros; apply wrap_small, wrap_range; done. Qed.

Lemma wrap_land w x : 0 <= w -> wrap w x = Z.land x (Z.ones w).
Proof. intros. unfold wrap. symmetry. by apply Z.land_ones. Qed.

(** Conversion to a signed integer of [w] bits. *)
Definition signed (w x : Z) : Z :=
  let r := x mod 2 ^ w in if r <? 2 ^ (w - 1) then r else r - 2 ^ w.

#[global] Arguments signed : simpl never.

Lemma signed_small w x : 0 < w -> - 2 ^ (w - 1) <= x < 2 ^ (w - 1) -> signed w x = x.
Proof.
  intros Hw Hx. unfold signed.
  assert (E : 2 ^ w = 2 * 2 ^ (w - 1)).
  { replace w with (Z.succ (w - 1)) at 1 by lia. rewrite Z.pow_succ_r; lia. }
  destruct (Z.lt_ge_cases x 0).
  - rewrite <- (Z.mod_unique x (2 ^ w) (-1) (x + 2 ^ w)) by lia.
    rewrite (proj2 (Z.ltb_ge _ _)) by lia. lia.
  - rewrite Z.mod_small by lia. rewrite (proj2 (Z.ltb_lt _ _)) by lia. done.
Qed.

(** ALIGNMENT_XB and ADD_ROUND of tools/size_def.h *)
Definition ALIGNMENT_XB (x b : Z) : Z := (x + (b - 1)) / b * b.
Definition ADD_ROUND (x n : Z) : Z := (x + 1) mod n.

#[global] Arguments ALIGNMENT_XB : simpl never.
#[global] Arguments ADD_ROUND : simpl never.

Lemma alignment_ge x b : 0 < b -> x <= ALIGNMENT_XB x b < x + b.
Proof. unfold ALIGNMENT_XB. intros. nia. Qed.

Lemma alignment_divides x b : 0 < b -> ALIGNMENT_XB x b mod b = 0.
Proof. unfold ALIGNMENT_XB. intros. apply Z.mod_mul. lia. Qed.

(** ** Arrays indexed by machine integers *)
Section zarray.
Context {A : Type}.
Implicit Types (l : list A) (i j : Z) (x : A).

Definition zlen l : Z := Z.of_nat (length l).
Definition zget l i : option A :=
  if decide (0 <= i) then l !! Z.to_nat i else None.
Definition zset l i x : list A :=
  if decide (0 <= i) then <[Z.to_nat i := x]> l else l.

(** Checked load and store: outside the array is a fault. *)
Definition load l i : outcome A := of_option OutOfBounds (zget l i).
Definition store l i x : outcome (list A) :=
  if decide (0 <= i < zlen l) then Done (zset l i x) else Fault OutOfBounds.

Lemma zget_is_Some l i : 0 <= i < zlen l -> exists x, zget l i = Some x.
Proof.
  unfold zget, zlen. intros H. rewrite decide_True by lia.
  apply lookup_lt_is_Some. lia.
Qed.

Lemma zget_Some_range l i x : zget l i = Some x -> 0 <= i < zlen l.
Proof.
  unfold zget, zlen. case_decide; [|done].
  intros H1%lookup_lt_Some. lia.
Qed.

Lemma zlen_zset l i x : zlen (zset l i x) = zlen l.
Proof. unfold zlen, zset. case_decide; [by rewrite length_insert|done]. Qed.

Lemma zlen_cons x l : zlen (x :: l) = zlen l + 1.
Proof. unfold zlen. rewrite length_cons. lia. Qed.

Lemma zlen_nonneg l : 0 <= zlen l.
Proof. unfold zlen. lia. Qed.

Lemma zget_zset_eq l i x : 0 <= i < zlen l -> zget (zset l i x) i = Some x.
Proof.
  unfold zget, zset, zlen. intros. rewrite !decide_True by lia.
  apply list_lookup_insert_eq. lia.
Qed.

Lemma zget_zset_ne l i j x : i <> j -> zget (zset l i x) j = zget l j.
Proof.
  unfold zget, zset. intros. repeat case_decide; try done.
  apply list_lookup_insert_ne. lia.
Qed.

Lemma zset_zset l i x y : zset (zset l i x) i y = zset l i y.
Proof. unfold zset. case_decide; [|done]. apply list_insert_insert_eq. Qed.

Lemma load_in_range l i x : zget l i = Some x -> load l i = Done x.
Proof. unfold load. by intros ->. Qed.

Lemma store_in_range l i x : 0 <= i < zlen l -> store l i x = Done (zset l i x).
Proof. unfold store. intros. by rewrite decide_True. Qed.

Lemma store_out l i x : ~ (0 <= i < zlen l) -> store l i x = Fault OutOfBounds.
Proof. unfold store. intros. by rewrite decide_False. Qed.

Lemma load_out l i : ~ (0 <= i < zlen l) -> load l i = Fault OutOfBounds.
Proof.
  unfold load. intros. destruct (zget l i) eqn:E; [|done].
  apply zget_Some_range in E. lia.
Qed.

(** Storing behind the first [i] elements. *)
Lemma take_zset_snoc l i x :
  0 <= i < zlen l -> take (Z.to_nat (i + 1)) (zset l i x) = take (Z.to_nat i) l ++ [x].
Proof.
  unfold zset, zlen. intros. rewrite decide_True by lia.
  replace (Z.to_nat (i + 1)) with (S (Z.to_nat i)) by lia.
  rewrite (take_S_r _ _ x) by (apply list_lookup_insert_eq; lia). by rewrite take_insert_ge.
Qed.
End zarray.

Lemma Forall_zset {A} (P : A -> Prop) l i x :
  Forall P l -> P x -> Forall P (zset l i x).
Proof. unfold zset. case_decide; [apply Forall_insert|done]. Qed.

Lemma Forall_zget {A} (P : A -> Prop) l i x :
  Forall P l -> zget l i = Some x -> P x.
Proof.
  unfold zget. case_decide; [|done]. intros.
  by eapply Forall_lookup_1.
Qed.

Lemma zlen_replicated {A} (k : Z) (x : A) : 0 <= k -> zlen (replicate (Z.to_nat k) x) = k.
Proof. intros. unfold zlen. rewrite length_replicate. lia. Qed.

Lemma zget_replicated {A} (k : Z) (x : A) i : 0 <= i < k -> zget (replicate (Z.to_nat k) x) i = Some x.
Proof. intros. unfold zget. rewrite decide_True by lia. apply lookup_replicate. split; [done|lia]. Qed.

(** ** memcpy into a buffer *)
Section blit.
Context {A : Type}.
Implicit Types (buf bs : list A) (off n i : nat).

Definition blit buf off bs : list A := take off buf ++ bs ++ drop (off + length bs) buf.

Lemma blit_length buf off bs :
  (off + length bs <= length buf)%nat -> length (blit buf off bs) = length buf.
Proof. intros H. unfold blit. rewrite !length_app, length_take, length_drop. lia. Qed.

Lemma blit_lookup buf off bs i :
  (off + length bs <= length buf)%nat ->
  blit buf off bs !! i =
    if decide (off <= i < off + length bs)%nat then bs !! (i - off)%nat else buf !! i.
Proof.
  intros H. unfold blit.
  destruct (decide (i < off)%nat) as [Hlt|Hge].
  - rewrite decide_False by lia.
    rewrite lookup_app_l by (rewrite length_take; lia).
    by rewrite lookup_take_lt.
  - rewrite lookup_app_r by (rewrite length_take; lia).
    rewrite length_take, Nat.min_l by lia. case_decide.
    + rewrite lookup_app_l by lia. done.
    + rewrite lookup_app_r by lia. rewrite lookup_drop. f_equal. lia.
Qed.

(** The written region reads back, and a disjoint region is unchanged. *)
Lemma blit_slice_eq buf off bs :
  (off + length bs <= length buf)%nat -> take (length bs) (drop off (blit buf off bs)) = bs.
Proof.
  intros H. unfold blit. rewrite drop_app_ge by (rewrite length_take; lia).
  rewrite length_take, Nat.min_l, Nat.sub_diag by lia. simpl.
  rewrite drop_0, take_app_le, take_ge by lia. done.
Qed.

Lemma take_blit buf bs n : n = length bs -> take n (blit buf 0 bs) = bs.
Proof. intros ->. unfold blit. rewrite take_0, app_nil_l. by rewrite take_app_length. Qed.

Lemma blit_slice_ne buf off bs off' n :
  (off + length bs <= length buf)%nat ->
  (off' + n <= off \/ off + length bs <= off')%nat ->
  take n (drop off' (blit buf off bs)) = take n (drop off' buf).
Proof.
  intros H Hd. apply list_eq. intros i. rewrite !lookup_take.
  case_decide; [|done]. rewrite !lookup_drop, blit_lookup by done.
  rewrite decide_False by lia. done.
Qed.
End blit.
#[global] Arguments blit : simpl never.

(** ** Bits of a word *)
Lemma land_bit_ne_0 b k :
  0 <= k -> (Z.land b (Z.shiftl 1 k) <> 0 <-> Z.testbit b k = true).
Proof.
  intros Hk.
  assert (E : Z.land b (Z.shiftl 1 k) =
              if Z.testbit b k then Z.shiftl 1 k else 0).
  { apply Z.bits_inj'. intros n Hn.
    rewrite Z.land_spec, Z.shiftl_1_l, Z.pow2_bits_eqb by lia.
    destruct (Z.eqb_spec k n) as [<-|Hne].
    - destruct (Z.testbit b k); simpl.
      + by rewrite Z.pow2_bits_true by lia.
      + by rewrite Z.bits_0.
    - rewrite andb_false_r. destruct (Z.testbit b k).
      + by rewrite Z.pow2_bits_false by lia.
      + by rewrite Z.bits_0. }
  rewrite E. destruct (Z.testbit b k).
  - rewrite Z.shiftl_1_l. split; [done|intros _].
    assert (0 < 2 ^ k) by (apply Z.pow_pos_nonneg; lia). lia.
  - done.
Qed.

Lemma lor_bit b k n :
  0 <= k -> 0 <= n ->
  Z.testbit (Z.lor b (Z.shiftl 1 k)) n = (k =? n) || Z.testbit b n.
Proof.
  intros. rewrite Z.lor_spec, Z.shiftl_1_l, Z.pow2_bits_eqb by lia.
  apply orb_comm.
Qed.

Lemma land_lnot_bit b k n :
  0 <= k -> 0 <= n ->
  Z.testbit (Z.land b (Z.lnot (Z.shiftl 1 k))) n =
  negb (k =? n) && Z.testbit b n.
Proof.
  intros. rewrite Z.land_spec, Z.lnot_spec, Z.shiftl_1_l, Z.pow2_bits_eqb by lia.
  apply andb_comm.
Qed.

Lemma in_width_testbit w x :
  0 <= w -> 0 <= x -> (forall n, w <= n -> Z.testbit x n = false) -> in_width w x.
Proof.
  intros Hw Hx Hb. unfold in_width. split; [done|].
  replace x with (x mod 2 ^ w).
  - apply Z.mod_pos_bound, Z.pow_pos_nonneg; lia.
  - apply Z.bits_inj'. intros n Hn.
    destruct (Z.ltb_spec n w) as [Hlt|Hge].
    + by rewrite Z.mod_pow2_bits_low.
    + rewrite Z.mod_pow2_bits_high by lia. by rewrite Hb.
Qed.

Lemma testbit_in_width w x n : in_width w x -> w <= n -> Z.testbit x n = false.
Proof.
  intros [H0 H1] Hn. destruct (Z.eq_dec x 0) as [->|Hx]; [apply Z.bits_0|].
  destruct (Z.ltb_spec w 0).
  { rewrite Z.pow_neg_r in H1 by lia. lia. }
  apply Z.bits_above_log2; [lia|].
  apply Z.log2_lt_pow2; [lia|].
  apply Z.lt_le_trans with (2 ^ w); [lia|apply Z.pow_le_mono_r; lia].
Qed.

Lemma leb_and a b c d : a <= b -> c <= d -> (a <=? b) && (c <=? d) = true.
Proof. intros. rewrite andb_true_iff, !Z.leb_le. done. Qed.

(** ** Automation *)
Create HintDb swd.
Create Rewrite HintDb swd.
#[export] Hint Rewrite @zlen_zset @obind_done : swd.
#[export] Hint Resolve wrap_small wrap_range Forall_zset : swd.

(** Splits the [if decide]s and boolean tests of the goal. *)
Ltac cases :=
  repeat first
    [ progress simplify_eq/=
    | case_decide
    | match goal with
      | |- context [if ?b then _ else _] =>
          lazymatch type of b with bool => destruct b eqn:? end
      end ].

(** Turns boolean comparisons in the context into propositions for lia. *)
Ltac zbool :=
  repeat match goal with
  | H : (_ =? _) = true |- _ => apply Z.eqb_eq in H
  | H : (_ =? _) = false |- _ => apply Z.eqb_neq in H
  | H : (_ <? _) = true |- _ => apply Z.ltb_lt in H
  | H : (_ <? _) = false |- _ => apply Z.ltb_ge in H
  | H : (_ <=? _) = true |- _ => apply Z.leb_le in H
  | H : (_ <=? _) = false |- _ => apply Z.leb_gt in H
  | H : andb _ _ = true |- _ => apply andb_true_iff in H; destruct H
  | H : orb _ _ = false |- _ => apply orb_false_iff in H; destruct H
  | H : negb _ = true |- _ => apply negb_true_iff in H
  | H : negb _ = false |- _ => apply negb_false_iff in H
  end.

(** Removes the wrap-arounds of the goal that do not happen, innermost first. *)
Ltac unwrap :=
  repeat match goal with
  | |- context [wrap ?w ?x] =>
      lazymatch x with context [wrap _ _] => fail | _ => idtac end;
      rewrite (wrap_small w x) by (unfold in_width; lia)
  end.

(** ** Sums *)
Definition zsum (l : list Z) : Z := foldr Z.add 0 l.

Lemma zsum_app l1 l2 : zsum (l1 ++ l2) = zsum l1 + zsum l2.
Proof. unfold zsum. induction l1 as [|a l1 IH]; simpl; [done|]. lia. Qed.

Lemma zsum_nonneg l : Forall (fun d => 0 <= d) l -> 0 <= zsum l.
Proof. unfold zsum. induction 1; simpl; lia. Qed.
