(* ===== verification/BitmapModel.v ===== *)
(** * apps/fs/src/bitmap.cc: the bitmap of allocated positions

    [Module Bitmap] models class Bitmap.  A pointer argument that the code
    compares with NULL is an [option]: [None] is the null pointer and
    [Some v] a pointer to a cell holding [v].  The abstraction of a bitmap is
    the finite set [occupied] of the positions whose bit is set; the theorems
    show that every operation is the set operation it stands for and that the
    counter varCountFree counts the complement. *)

From S2P Require Import Prelude.

Module Bitmap.

Record t := mk {
  bytes : list Z;          (* uint8_t *bytes *)
  varCountFree : Z;        (* uint64_t *)
  varCountTotal : Z        (* uint64_t *)
}.

(** 1 << (7 - offset) *)
Definition mask (offset : Z) : Z := Z.shiftl 1 (7 - offset).

Definition bit_set (byte offset : Z) : bool :=
  bool_decide (Z.land byte (mask offset) <> 0).

Definition get (b : t) (pos : Z) (status : option bool)
    : outcome (bool * option bool) :=
  match status with
  | Some _ =>
      if pos <? varCountTotal b then
        let index := pos / 8 in
        let offset := pos mod 8 in
        let! byte := load (bytes b) index in
        if bit_set byte offset then Done (true, Some true)
        else Done (true, Some false)
      else Done (false, status)
  | None => Done (false, None)
  end.

Definition set (b : t) (pos : Z) : outcome (bool * t) :=
  if pos <? varCountTotal b then
    let index := pos / 8 in
    let offset := pos mod 8 in
    let! byte := load (bytes b) index in
    if bit_set byte offset then Done (true, b)
    else
      let! bytes' := store (bytes b) index (wrap 8 (Z.lor byte (mask offset))) in
      Done (true, mk bytes' (wrap 64 (varCountFree b - 1)) (varCountTotal b))
  else Done (false, b).

Definition clear (b : t) (pos : Z) : outcome (bool * t) :=
  if pos <? varCountTotal b then
    let index := pos / 8 in
    let offset := pos mod 8 in
    let! byte := load (bytes b) index in
    if bit_set byte offset then
      let! bytes' :=
        store (bytes b) index (wrap 8 (Z.land byte (Z.lnot (mask offset)))) in
      Done (true, mk bytes' (wrap 64 (varCountFree b + 1)) (varCountTotal b))
    else Done (true, b)
  else Done (false, b).

(** The inner loop of findFree: the first cleared offset of a byte. *)
Fixpoint first_clear (byte : Z) (offsets : list Z) : option Z :=
  match offsets with
  | [] => None
  | o :: offsets' => if bit_set byte o then first_clear byte offsets' else Some o
  end.

(** for (int offset = 0; offset <= 7; offset++) *)
Definition offsets : list Z := seqZ 0 8.

(** The outer loop; [index] is an unsigned int, so the position it computes
    wraps at 32 bits. *)
Fixpoint search (bs : list Z) (indices : list Z) : outcome (option Z) :=
  match indices with
  | [] => Done None
  | i :: indices' =>
      let! byte := load bs i in
      match first_clear byte offsets with
      | Some o => Done (Some (wrap 32 (i * 8 + o)))
      | None => search bs indices'
      end
  end.

(** The loop bound varCountTotal / 8 is 64 bits wide and the loop counter 32:
    a larger bound is never reached. *)
Definition loop_indices (total : Z) : list Z := seqZ 0 (Z.min (total / 8) (2 ^ 32)).
Definition loop_ends (total : Z) : bool := total / 8 <? 2 ^ 32.

Definition findFree (b : t) (pos : option Z) : outcome (bool * option Z) :=
  match pos with
  | Some _ =>
      if 0 <? varCountFree b then
        let! r := search (bytes b) (loop_indices (varCountTotal b)) in
        match r with
        | Some p => Done (true, Some p)
        | None =>
            if loop_ends (varCountTotal b) then Done (false, pos)
            else Fault Diverges
        end
      else Done (false, pos)
  | None => Done (false, None)
  end.

Definition countFree (b : t) : Z := varCountFree b.
Definition countTotal (b : t) : Z := varCountTotal b.

(** The two nested loops of the constructor. *)
Definition clear_in_byte (byte : Z) : Z :=
  zlen (filter (fun o => bit_set byte o = false) offsets).

Fixpoint count_clear (bs : list Z) (indices : list Z) (acc : Z) : outcome Z :=
  match indices with
  | [] => Done acc
  | i :: indices' =>
      let! byte := load bs i in
      count_clear bs indices' (wrap 64 (acc + clear_in_byte byte))
  end.

(** [buffer = None] is the null pointer; otherwise the bytes found there. *)
Definition construct (count : Z) (buffer : option (list Z)) : outcome t :=
  if count mod 8 =? 0 then
    match buffer with
    | Some bs =>
        let! free := count_clear bs (loop_indices count) 0 in
        if loop_ends count then Done (mk bs free count) else Fault Diverges
    | None => Fault ProcessExit
    end
  else Fault ProcessExit.

(** ** Abstraction: the set of occupied positions *)

Definition bit (b : t) (pos : Z) : bool :=
  match zget (bytes b) (pos / 8) with
  | Some byte => Z.testbit byte (7 - pos mod 8)
  | None => false
  end.

Definition occupied (b : t) : gset Z :=
  list_to_set (filter (fun p => bit b p = true) (seqZ 0 (varCountTotal b))).

Record wf (b : t) : Prop := {
  wf_total : 0 <= varCountTotal b <= 2 ^ 32;
  wf_aligned : varCountTotal b mod 8 = 0;
  wf_len : zlen (bytes b) = varCountTotal b / 8;
  wf_bytes : Forall (in_width 8) (bytes b);
  wf_free : varCountFree b = varCountTotal b - Z.of_nat (size (occupied b))
}.

Lemma bit_set_spec byte o :
  0 <= o < 8 -> bit_set byte o = Z.testbit byte (7 - o).
Proof.
  intros Ho. unfold bit_set, mask.
  pose proof (land_bit_ne_0 byte (7 - o) ltac:(lia)) as E.
  case_bool_decide as H.
  - symmetry. by apply E.
  - symmetry. apply not_true_iff_false. intros HE. by apply E in HE.
Qed.

Lemma elem_of_occupied b p :
  p ∈ occupied b <-> 0 <= p < varCountTotal b /\ bit b p = true.
Proof.
  unfold occupied. rewrite elem_of_list_to_set, list_elem_of_filter, elem_of_seqZ.
  intuition lia.
Qed.

(** Zeroed bytes are the empty set. *)
Lemma occupied_zero b : Forall (eq 0) (bytes b) -> occupied b = ∅.
Proof.
  intros Hz. apply set_eq. intros p. rewrite elem_of_occupied.
  unfold bit. destruct (zget _ _) eqn:E; [|set_solver].
  rewrite <- (Forall_zget _ _ _ _ Hz E), Z.bits_0. set_solver.
Qed.

Lemma size_occupied_le b :
  0 <= varCountTotal b -> Z.of_nat (size (occupied b)) <= varCountTotal b.
Proof.
  intros H. unfold occupied.
  rewrite size_list_to_set by (apply NoDup_filter, NoDup_seqZ).
  pose proof (length_filter (fun p => bit b p = true) (seqZ 0 (varCountTotal b))) as L.
  rewrite length_seqZ in L. lia.
Qed.

Lemma load_byte b p :
  wf b -> 0 <= p < varCountTotal b ->
  exists byte, zget (bytes b) (p / 8) = Some byte /\
    load (bytes b) (p / 8) = Done byte /\ in_width 8 byte /\
    bit_set byte (p mod 8) = bit b p.
Proof.
  intros W Hp. destruct (zget_is_Some (bytes b) (p / 8)) as [byte Hb].
  { rewrite (wf_len _ W). pose proof (wf_aligned _ W). lia. }
  exists byte. split; [done|]. split; [by apply load_in_range|].
  split; [eapply Forall_zget; [apply W|done]|].
  rewrite bit_set_spec by lia. unfold bit. by rewrite Hb.
Qed.

Lemma same_position p q : p / 8 = q / 8 -> p mod 8 = q mod 8 -> p = q.
Proof. lia. Qed.

(** Replacing the byte of position [p] by one that differs in that bit only. *)
Lemma bit_update b p byte byte' v free :
  0 <= p < varCountTotal b -> zget (bytes b) (p / 8) = Some byte ->
  (forall n, 0 <= n < 8 ->
     Z.testbit byte' n = if n =? 7 - p mod 8 then v else Z.testbit byte n) ->
  forall q, bit (mk (zset (bytes b) (p / 8) byte') free (varCountTotal b)) q =
       if q =? p then v else bit b q.
Proof.
  intros Hp Hb Hbits q. unfold bit; simpl.
  destruct (Z.eq_dec (p / 8) (q / 8)) as [E|E].
  - rewrite <- E, Hb, zget_zset_eq by (by eapply zget_Some_range).
    rewrite Hbits by lia.
    destruct (Z.eqb_spec q p) as [->|Hne].
    + by rewrite Z.eqb_refl.
    + destruct (Z.eqb_spec (7 - q mod 8) (7 - p mod 8)); [lia|done].
  - rewrite zget_zset_ne by done.
    destruct (Z.eqb_spec q p) as [->|Hne]; [lia|done].
Qed.

Lemma occupied_update b b' p v :
  varCountTotal b' = varCountTotal b -> 0 <= p < varCountTotal b ->
  (forall q, bit b' q = if q =? p then v else bit b q) ->
  occupied b' = if v then {[p]} ∪ occupied b else occupied b ∖ {[p]}.
Proof.
  intros Ht Hp Hb. apply set_eq. intros q.
  rewrite elem_of_occupied, Ht, Hb.
  destruct v.
  - rewrite elem_of_union, elem_of_singleton, elem_of_occupied.
    destruct (Z.eqb_spec q p); naive_solver.
  - rewrite elem_of_difference, elem_of_singleton, elem_of_occupied.
    destruct (Z.eqb_spec q p); naive_solver.
Qed.

Lemma mask_bits_lor byte o n :
  0 <= o < 8 -> 0 <= n < 8 ->
  Z.testbit (wrap 8 (Z.lor byte (mask o))) n =
  if n =? 7 - o then true else Z.testbit byte n.
Proof.
  intros Ho Hn. unfold wrap, mask. rewrite Z.mod_pow2_bits_low by lia.
  rewrite lor_bit by lia. rewrite Z.eqb_sym. by destruct (n =? 7 - o).
Qed.

Lemma mask_bits_clear byte o n :
  0 <= o < 8 -> 0 <= n < 8 ->
  Z.testbit (wrap 8 (Z.land byte (Z.lnot (mask o)))) n =
  if n =? 7 - o then false else Z.testbit byte n.
Proof.
  intros Ho Hn. unfold wrap, mask. rewrite Z.mod_pow2_bits_low by lia.
  rewrite land_lnot_bit by lia. rewrite Z.eqb_sym. by destruct (n =? 7 - o).
Qed.

(** A store of byte [byte'] at [p] keeps the bitmap well formed. *)
Lemma wf_update b p byte byte' v :
  wf b -> 0 <= p < varCountTotal b -> zget (bytes b) (p / 8) = Some byte ->
  in_width 8 byte' -> bit b p = negb v ->
  (forall n, 0 <= n < 8 ->
     Z.testbit byte' n = if n =? 7 - p mod 8 then v else Z.testbit byte n) ->
  let b' := mk (zset (bytes b) (p / 8) byte')
               (wrap 64 (varCountFree b + if v then -1 else 1)) (varCountTotal b) in
  wf b' /\ occupied b' = if v then {[p]} ∪ occupied b else occupied b ∖ {[p]}.
Proof.
  intros W Hp Hb Hw Hv Hbits b'.
  assert (Hocc : occupied b' = if v then {[p]} ∪ occupied b else occupied b ∖ {[p]}).
  { apply (occupied_update b b' p v); [done|done|].
    by apply (bit_update b p byte). }
  split; [|done]. pose proof (wf_total _ W) as Ht.
  pose proof (wf_free _ W) as Hf.
  pose proof (size_occupied_le b ltac:(lia)) as L.
  pose proof (size_occupied_le b' ltac:(simpl; lia)) as L'. simpl in L'.
  assert (Hsize : Z.of_nat (size (occupied b')) =
                  Z.of_nat (size (occupied b)) + if v then 1 else -1).
  { rewrite Hocc. destruct v.
    - rewrite size_union, size_singleton; [lia|].
      apply disjoint_singleton_l. rewrite elem_of_occupied, Hv. naive_solver.
    - assert (p ∈ occupied b) by (rewrite elem_of_occupied, Hv; done).
      rewrite size_difference, size_singleton by set_solver.
      assert (size (occupied b) <> 0%nat); [|lia].
      intros Hz%size_empty_inv. set_solver. }
  split; simpl; [done|apply W| | |].
  - rewrite zlen_zset. apply W.
  - apply Forall_zset; [apply W|done].
  - rewrite Hsize, wrap_small; unfold in_width; destruct v; lia.
Qed.

(** [get] reads membership in the occupied set; positions outside the bitmap
    are refused and leave the status cell alone. *)
Lemma get_spec b p s :
  wf b -> 0 <= p ->
  get b p (Some s) =
    Done (if p <? varCountTotal b
          then (true, Some (bool_decide (p ∈ occupied b)))
          else (false, Some s)).
Proof.
  intros W Hp. unfold get. destruct (p <? varCountTotal b) eqn:E; [|done].
  zbool. destruct (load_byte b p W) as (byte & Hb & -> & _ & Hbit); [lia|].
  simpl. rewrite Hbit.
  assert (Hd : bool_decide (p ∈ occupied b) = bit b p).
  { destruct (bit b p) eqn:Eb;
      [apply bool_decide_eq_true|apply bool_decide_eq_false];
      rewrite elem_of_occupied, Eb; naive_solver lia. }
  rewrite Hd. by destruct (bit b p).
Qed.

Lemma set_spec b p :
  wf b -> 0 <= p < varCountTotal b ->
  exists b', set b p = Done (true, b') /\ wf b' /\
    varCountTotal b' = varCountTotal b /\ occupied b' = {[p]} ∪ occupied b.
Proof.
  intros W Hp. unfold set. rewrite (proj2 (Z.ltb_lt _ _)) by lia.
  destruct (load_byte b p W) as (byte & Hb & -> & Hw & Hbit); [lia|].
  simpl. rewrite Hbit. destruct (bit b p) eqn:Eb.
  - exists b. assert (p ∈ occupied b) by (by apply elem_of_occupied).
    split_and!; [done|done|done|set_solver].
  - rewrite store_in_range by (by eapply zget_Some_range). simpl.
    eexists. split; [done|].
    destruct (wf_update b p byte (wrap 8 (Z.lor byte (mask (p mod 8)))) true)
      as [W' Ho]; try done.
    { apply wrap_range. lia. }
    { intros n Hn. rewrite mask_bits_lor by lia. done. }
Qed.

Lemma clear_spec b p :
  wf b -> 0 <= p < varCountTotal b ->
  exists b', clear b p = Done (true, b') /\ wf b' /\
    varCountTotal b' = varCountTotal b /\ occupied b' = occupied b ∖ {[p]}.
Proof.
  intros W Hp. unfold clear. rewrite (proj2 (Z.ltb_lt _ _)) by lia.
  destruct (load_byte b p W) as (byte & Hb & -> & Hw & Hbit); [lia|].
  simpl. rewrite Hbit. destruct (bit b p) eqn:Eb.
  - rewrite store_in_range by (by eapply zget_Some_range). simpl.
    eexists. split; [done|].
    destruct (wf_update b p byte (wrap 8 (Z.land byte (Z.lnot (mask (p mod 8))))) false)
      as [W' Ho]; try done.
    { apply wrap_range. lia. }
    { intros n Hn. rewrite mask_bits_clear by lia. done. }
  - exists b.
    assert (p ∉ occupied b) by (rewrite elem_of_occupied, Eb; naive_solver).
    split_and!; [done|done|done|set_solver].
Qed.

Lemma set_out b p : varCountTotal b <= p -> set b p = Done (false, b).
Proof. intros. unfold set. by rewrite (proj2 (Z.ltb_ge _ _)) by lia. Qed.

Lemma clear_out b p : varCountTotal b <= p -> clear b p = Done (false, b).
Proof. intros. unfold clear. by rewrite (proj2 (Z.ltb_ge _ _)) by lia. Qed.

(** *** findFree: the least free position *)

Lemma first_clear_spec byte offs :
  Forall (fun o => 0 <= o < 8) offs ->
  match first_clear byte offs with
  | Some o => exists l r, offs = l ++ o :: r /\ Z.testbit byte (7 - o) = false /\
                Forall (fun o' => Z.testbit byte (7 - o') = true) l
  | None => Forall (fun o' => Z.testbit byte (7 - o') = true) offs
  end.
Proof.
  induction 1 as [|o offs Ho _ IH]; simpl; [constructor|].
  rewrite bit_set_spec by done.
  destruct (Z.testbit byte (7 - o)) eqn:E.
  - destruct (first_clear byte offs).
    + destruct IH as (l & r & -> & Hz & Hl).
      exists (o :: l), r. split; [done|]. split; [done|]. by constructor.
    + by constructor.
  - exists [], offs. done.
Qed.

Lemma seqZ_prefix m n l x r :
  seqZ m n = l ++ x :: r -> m <= x < m + n /\ (forall y, m <= y < x -> y ∈ l).
Proof.
  intros E.
  assert (Hx : seqZ m n !! length l = Some x)
    by (rewrite E, lookup_app_r, Nat.sub_diag by lia; done).
  apply lookup_seqZ in Hx as [-> Hx]. split; [lia|]. intros y Hy.
  apply list_elem_of_lookup. exists (Z.to_nat (y - m)).
  rewrite <- (lookup_app_l _ (m + Z.of_nat (length l) :: r)) by lia.
  rewrite <- E. apply lookup_seqZ. lia.
Qed.

(** The byte loop finds the least cleared position at or after [8 * i]. *)
Lemma search_spec b i n :
  wf b -> 0 <= i -> 0 <= n -> i + n <= varCountTotal b / 8 ->
  match search (bytes b) (seqZ i n) with
  | Done (Some p) => 8 * i <= p < 8 * (i + n) /\ bit b p = false /\
                     (forall q, 8 * i <= q < p -> bit b q = true)
  | Done None => forall q, 8 * i <= q < 8 * (i + n) -> bit b q = true
  | Fault _ => False
  end.
Proof.
  intros W Hi Hn. revert i Hi. pattern n. apply natlike_ind; [| |done]; clear n Hn.
  { intros i Hi H. simpl. intros. lia. }
  intros n Hn IH i Hi H. rewrite seqZ_cons by lia. cbn [search].
  destruct (load_byte b (8 * i) W) as (byte & Hb & Hl & _ & _); [lia|].
  replace (8 * i / 8) with i in * by lia. rewrite Hl, obind_done.
  assert (Hbit : forall o, 0 <= o < 8 -> bit b (8 * i + o) = Z.testbit byte (7 - o)).
  { intros o Ho. unfold bit.
    replace ((8 * i + o) / 8) with i by lia. rewrite Hb. f_equal. lia. }
  pose proof (first_clear_spec byte offsets) as F.
  destruct (first_clear byte offsets) as [o|].
  - destruct F as (l & r & E & Hz & Hall).
    { apply Forall_forall. intros x Hx%elem_of_seqZ. lia. }
    apply seqZ_prefix in E as [Ho Hpre].
    pose proof (wf_total _ W) as Ht.
    rewrite wrap_small by (unfold in_width; lia).
    replace (i * 8 + o) with (8 * i + o) by lia.
    split; [lia|]. split; [by rewrite Hbit by lia|].
    intros q Hq. replace q with (8 * i + (q - 8 * i)) by lia.
    rewrite Hbit by lia. rewrite Forall_forall in Hall. apply Hall, Hpre. lia.
  - assert (Hall : Forall (fun o' => Z.testbit byte (7 - o') = true) offsets).
    { apply F, Forall_forall. intros x Hx%elem_of_seqZ. lia. }
    assert (Hbyte : forall q, 8 * i <= q < 8 * i + 8 -> bit b q = true).
    { intros q Hq. replace q with (8 * i + (q - 8 * i)) by lia.
      rewrite Hbit by lia. rewrite Forall_forall in Hall.
      apply Hall, elem_of_seqZ. lia. }
    specialize (IH (Z.succ i) ltac:(lia) ltac:(lia)).
    rewrite Z.pred_succ in *.
    destruct (search (bytes b) (seqZ (Z.succ i) n)) as [[p|]|]; [|intros|done].
    + destruct IH as (Hp & Hz & Hlt). split; [lia|]. split; [done|].
      intros q Hq. destruct (Z.lt_ge_cases q (8 * i + 8)); [apply Hbyte; lia|apply Hlt; lia].
    + destruct (Z.lt_ge_cases q (8 * i + 8)); [apply Hbyte; lia|apply IH; lia].
Qed.

Lemma loop_full total :
  0 <= total <= 2 ^ 32 -> loop_indices total = seqZ 0 (total / 8) /\ loop_ends total = true.
Proof.
  intros H. unfold loop_indices, loop_ends. split; [f_equal; lia|].
  apply Z.ltb_lt. lia.
Qed.

(** *** The constructor counts the free bits *)

Definition clear_positions (bs : list Z) (m n : Z) : list Z :=
  filter (fun p => bit (mk bs 0 0) p = false) (seqZ m n).

Lemma bit_bytes b p : bit b p = bit (mk (bytes b) 0 0) p.
Proof. reflexivity. Qed.

Lemma filter_fmap_length {A B} (f : A -> B) (P : B -> Prop) (Q : A -> Prop)
    `{forall x, Decision (P x)} `{forall x, Decision (Q x)} (l : list A) :
  Forall (fun a => P (f a) <-> Q a) l ->
  length (filter P (f <$> l)) = length (filter Q l).
Proof.
  induction 1 as [|a l Ha _ IH]; [done|].
  rewrite fmap_cons, !filter_cons. repeat case_decide; simpl; tauto || lia.
Qed.

Lemma filter_shift (P Q : Z -> Prop)
    `{forall x, Decision (P x)} `{forall x, Decision (Q x)} m k n :
  (forall o, k <= o < k + n -> P (m + o) <-> Q o) ->
  length (filter P (seqZ (m + k) n)) = length (filter Q (seqZ k n)).
Proof.
  intros HPQ. rewrite <- fmap_add_seqZ. apply filter_fmap_length, Forall_forall.
  intros o Ho%elem_of_seqZ. apply HPQ. lia.
Qed.

Lemma clear_in_byte_positions bs i byte :
  0 <= i -> zget bs i = Some byte ->
  clear_in_byte byte = zlen (clear_positions bs (8 * i) 8).
Proof.
  intros Hi Hb. unfold clear_in_byte, offsets, clear_positions, zlen. f_equal.
  replace (8 * i) with (8 * i + 0) by lia. symmetry. apply filter_shift.
  intros o Ho. rewrite bit_set_spec by lia. unfold bit; simpl.
  replace ((8 * i + o) / 8) with i by lia. rewrite Hb.
  replace ((8 * i + o) mod 8) with o by lia. done.
Qed.

Lemma count_clear_spec bs i n acc :
  0 <= i -> 0 <= n -> i + n <= zlen bs -> 0 <= acc <= 8 * i -> 8 * (i + n) < 2 ^ 64 ->
  count_clear bs (seqZ i n) acc =
    Done (acc + zlen (clear_positions bs (8 * i) (8 * n))).
Proof.
  intros Hi Hn. revert i acc Hi. pattern n. apply natlike_ind; [| |done]; clear n Hn.
  { intros i acc Hi _ _ _. simpl. unfold zlen; simpl. f_equal; lia. }
  intros n Hn IH i acc Hi H Ha Hmax. rewrite seqZ_cons by lia. simpl.
  destruct (zget_is_Some bs i) as [byte Hb]; [lia|].
  rewrite (load_in_range _ _ _ Hb). simpl.
  pose proof (clear_in_byte_positions bs i byte Hi Hb) as Ec.
  assert (Hc : 0 <= clear_in_byte byte <= 8).
  { rewrite Ec. unfold zlen, clear_positions.
    match goal with |- context [length (filter ?P ?l)] =>
      pose proof (length_filter P l) as L end.
    rewrite length_seqZ in L. lia. }
  rewrite wrap_small by (unfold in_width; lia).
  rewrite Z.pred_succ, IH by lia.
  f_equal. rewrite Ec. unfold clear_positions.
  replace (8 * Z.succ n) with (8 + 8 * n) by lia.
  rewrite seqZ_app, filter_app by lia. unfold zlen.
  rewrite length_app. replace (8 * Z.succ i) with (8 * i + 8) by lia. lia.
Qed.

(** Free positions are the complement of the occupied ones. *)
Lemma clear_positions_size b :
  0 <= varCountTotal b ->
  zlen (clear_positions (bytes b) 0 (varCountTotal b)) =
    varCountTotal b - Z.of_nat (size (occupied b)).
Proof.
  intros Ht.
  assert (Hsz : size (occupied b) =
                length (filter (fun p => ~ bit b p = false) (seqZ 0 (varCountTotal b)))).
  { unfold occupied. rewrite size_list_to_set by (apply NoDup_filter, NoDup_seqZ).
    f_equal. apply list_filter_iff. intros x. destruct (bit b x); naive_solver. }
  pose proof (filter_app_complement (fun p => bit b p = false)
                (seqZ 0 (varCountTotal b))) as P.
  apply Permutation_length in P. rewrite length_app, length_seqZ in P.
  unfold zlen, clear_positions. rewrite Hsz.
  assert (E : filter (fun p => bit (mk (bytes b) 0 0) p = false) (seqZ 0 (varCountTotal b))
        = filter (fun p => bit b p = false) (seqZ 0 (varCountTotal b))) by reflexivity.
  rewrite E. lia.
Qed.

Lemma construct_spec count bs :
  0 <= count <= 2 ^ 32 -> count mod 8 = 0 -> zlen bs = count / 8 ->
  Forall (in_width 8) bs ->
  exists b, construct count (Some bs) = Done b /\ wf b /\
    bytes b = bs /\ varCountTotal b = count.
Proof.
  intros Hc Ha Hl Hb. unfold construct. rewrite Ha. simpl.
  destruct (loop_full count Hc) as [-> ->].
  rewrite count_clear_spec by lia. simpl.
  eexists. split; [done|]. split_and!; [|done|done].
  split; [done|done|done|done|].
  pose proof (clear_positions_size (mk bs 0 count) ltac:(simpl; lia)) as E.
  simpl in *. replace (8 * (count / 8)) with count by lia.
  etrans; [exact E|]. done.
Qed.

(** ** Theorems *)

(** C38. Class Bitmap implements a finite set of positions: on a well-formed
    bitmap, get answers membership, set and clear insert and remove the
    position, positions past the end are refused without a change, the
    counter stays the size of the complement, and no access leaves the byte
    array. *)
Theorem bitmap_refines_set (b : t) (p : Z) (s : bool) :
  wf b -> 0 <= p ->
  get b p (Some s) =
    Done (if p <? countTotal b then (true, Some (bool_decide (p ∈ occupied b)))
          else (false, Some s)) /\
  (exists b', set b p = Done (p <? countTotal b, b') /\ wf b' /\
     countTotal b' = countTotal b /\
     occupied b' = (if p <? countTotal b then {[p]} ∪ occupied b else occupied b) /\
     countFree b' = countTotal b - Z.of_nat (size (occupied b'))) /\
  (exists b', clear b p = Done (p <? countTotal b, b') /\ wf b' /\
     countTotal b' = countTotal b /\
     occupied b' = (if p <? countTotal b then occupied b ∖ {[p]} else occupied b) /\
     countFree b' = countTotal b - Z.of_nat (size (occupied b'))).
Proof.
  intros W Hp. unfold countTotal, countFree. split; [by apply get_spec|].
  destruct (p <? varCountTotal b) eqn:E; zbool; split.
  - destruct (set_spec b p W) as (b' & H & W' & Ht & Ho); [lia|].
    exists b'. split_and!; try done. rewrite <- Ht. apply W'.
  - destruct (clear_spec b p W) as (b' & H & W' & Ht & Ho); [lia|].
    exists b'. split_and!; try done. rewrite <- Ht. apply W'.
  - exists b. rewrite set_out by lia. split_and!; try done. apply W.
  - exists b. rewrite clear_out by lia. split_and!; try done. apply W.
Qed.

Definition sample : t := mk [Z.shiftl 1 7; 3] 13 16.

Lemma sample_wf : wf sample.
Proof.
  split; [vm_compute; split; discriminate|done|done| |vm_compute; done].
  repeat constructor; vm_compute; done.
Defined.

Lemma bitmap_refines_set_witness :
  exists b', set sample 5 = Done (true, b') /\ 5 ∈ occupied b'.
Proof.
  destruct (bitmap_refines_set sample 5 false sample_wf ltac:(lia))
    as (_ & (b' & H & _ & _ & Ho & _) & _).
  exists b'. split; [exact H|]. rewrite Ho. set_solver.
Defined.

(** findFree returns the least position that is not occupied, and fails
    exactly when the bitmap is full; it always terminates. *)
Theorem bitmap_findFree_least (b : t) (s : Z) :
  wf b ->
  (exists p, findFree b (Some s) = Done (true, Some p) /\
     0 <= p < countTotal b /\ p ∉ occupied b /\
     forall q, 0 <= q < p -> q ∈ occupied b) \/
  (findFree b (Some s) = Done (false, Some s) /\
     forall q, 0 <= q < countTotal b -> q ∈ occupied b).
Proof.
  intros W. unfold findFree, countTotal. pose proof (wf_total _ W) as Ht.
  pose proof (wf_aligned _ W) as Ha.
  destruct (loop_full _ Ht) as [-> ->].
  pose proof (search_spec b 0 (varCountTotal b / 8) W) as S.
  assert (Hin : forall q, 0 <= q < varCountTotal b -> bit b q = true -> q ∈ occupied b)
    by (intros; by apply elem_of_occupied).
  destruct (0 <? varCountFree b) eqn:E.
  - destruct (search (bytes b) (seqZ 0 (varCountTotal b / 8))) as [[p|]|];
      [| |exfalso; lia]; simpl.
    + destruct S as (Hp & Hz & Hlt); [lia..|]. left. exists p.
      split; [done|]. split; [lia|]. split.
      * rewrite elem_of_occupied, Hz. naive_solver.
      * intros q Hq. apply Hin; [lia|]. apply Hlt. lia.
    + right. split; [done|]. intros q Hq. apply Hin; [done|]. apply S; lia.
  - zbool. right. split; [done|].
    rewrite (wf_free _ W) in E.
    assert (Hall : clear_positions (bytes b) 0 (varCountTotal b) = []).
    { apply nil_length_inv.
      pose proof (clear_positions_size b ltac:(lia)) as H. unfold zlen in H. lia. }
    intros q Hq. apply Hin; [done|]. destruct (bit b q) eqn:Eq; [done|].
    exfalso. apply (not_elem_of_nil q). rewrite <- Hall.
    apply list_elem_of_filter. split; [by rewrite <- bit_bytes|].
    apply elem_of_seqZ. lia.
Qed.

Lemma bitmap_findFree_least_witness :
  findFree sample (Some 0) = Done (true, Some 1).
Proof.
  destruct (bitmap_findFree_least sample 0 sample_wf) as [(p & H & _)|[H _]].
  - rewrite H. vm_compute in H. exact (eq_sym H).
  - vm_compute in H. discriminate.
Defined.

End Bitmap.

(** ** What the tables rely on

    HashTable and Table use a bitmap only through get, set, clear and the two
    counters.  [PositionSet] states what they may assume of it; class Bitmap is
    the instance. *)
Class BitmapOps (B : Type) := {
  bm_get : B -> Z -> option bool -> outcome (bool * option bool);
  bm_set : B -> Z -> outcome (bool * B);
  bm_clear : B -> Z -> outcome (bool * B);
  bm_countFree : B -> Z;
  bm_countTotal : B -> Z
}.

Class PositionSet (B : Type) `{BitmapOps B} := {
  bm_ok : B -> Prop;
  bm_occupied : B -> gset Z;
  bm_total_range b : bm_ok b -> 0 <= bm_countTotal b <= 2 ^ 32;
  bm_occupied_range b p : p ∈ bm_occupied b -> 0 <= p < bm_countTotal b;
  bm_free_law b : bm_ok b ->
    bm_countFree b = bm_countTotal b - Z.of_nat (size (bm_occupied b));
  bm_get_law b p s : bm_ok b -> 0 <= p ->
    bm_get b p (Some s) =
      Done (if p <? bm_countTotal b then (true, Some (bool_decide (p ∈ bm_occupied b)))
            else (false, Some s));
  bm_set_law b p : bm_ok b -> 0 <= p < bm_countTotal b ->
    exists b', bm_set b p = Done (true, b') /\ bm_ok b' /\
      bm_countTotal b' = bm_countTotal b /\ bm_occupied b' = {[p]} ∪ bm_occupied b;
  bm_clear_law b p : bm_ok b -> 0 <= p < bm_countTotal b ->
    exists b', bm_clear b p = Done (true, b') /\ bm_ok b' /\
      bm_countTotal b' = bm_countTotal b /\ bm_occupied b' = bm_occupied b ∖ {[p]};
  bm_set_out b p : bm_countTotal b <= p -> bm_set b p = Done (false, b);
  bm_clear_out b p : bm_countTotal b <= p -> bm_clear b p = Done (false, b)
}.

#[export] Instance bitmap_ops : BitmapOps Bitmap.t := {
  bm_get := Bitmap.get;
  bm_set := Bitmap.set;
  bm_clear := Bitmap.clear;
  bm_countFree := Bitmap.countFree;
  bm_countTotal := Bitmap.countTotal
}.

#[export] Instance bitmap_position_set : PositionSet Bitmap.t.
Proof.
  refine {| bm_ok := Bitmap.wf; bm_occupied := Bitmap.occupied |}.
  - intros b W. apply W.
  - intros b p Hp%Bitmap.elem_of_occupied. apply Hp.
  - intros b W. apply W.
  - exact Bitmap.get_spec.
  - exact Bitmap.set_spec.
  - exact Bitmap.clear_spec.
  - exact Bitmap.set_out.
  - exact Bitmap.clear_out.
Defined.
