(* ===== verification/HashTableModel.v ===== *)
(** * apps/fs/src/hashtable.cc: the index from path hashes to metadata slots

    [Module HashTable] models class HashTable: an array of 2^20 bucket heads,
    an array of chained items linked by indices (0 means no item), a bitmap of
    the chained items in use and the chain of free positions.  The bitmap is
    used through [PositionSet] only.  SHA-256 (Crypto++) is a parameter.  The
    abstraction is a finite map from unique hashes to (indexMeta, isDirectory).
    Every operation holds mutexBitmapChainedItems from its first access to its
    return on every path, so each is one atomic step. *)

From S2P Require Import Prelude BitmapModel.

Module HashTable.

Definition HASH_ADDRESS_BITS : Z := 20.
Definition HASH_ITEMS_COUNT : Z := Z.shiftl 1 HASH_ADDRESS_BITS.

Record UniqueHash := mkUniqueHash { value0 : Z; value1 : Z; value2 : Z; value3 : Z }.
Record HashItem := mkHashItem { key : Z; indexHead : Z }.
Record ChainedItem := mkChainedItem {
  indexNext : Z; indexMeta : Z; isDirectory : bool; hashUnique : UniqueHash }.

#[global] Instance UniqueHash_eq_dec : EqDecision UniqueHash.
Proof. solve_decision. Defined.
#[global] Instance UniqueHash_countable : Countable UniqueHash.
Proof.
  refine (inj_countable'
    (fun h => (value0 h, value1 h, value2 h, value3 h))
    (fun '(a, b, c, d) => mkUniqueHash a b c d) _).
  by intros [].
Defined.

(** getAddressHash(UniqueHash * ) *)
Definition getAddressHash (h : UniqueHash) : Z := Z.land (value0 h) 1048575.

(** The two functions on a character buffer call SHA-256. *)
Section digest.
Context (CalculateDigest : list Z -> UniqueHash).

Definition getUniqueHash (buf : list Z) : UniqueHash := CalculateDigest buf.
Definition getAddressHash_buf (buf : list Z) : Z :=
  let sha256_buf := CalculateDigest buf in
  Z.land (value0 sha256_buf) 1048575.
End digest.

Section ops.
Context {B : Type} `{PositionSet B}.

Record t := mk {
  bitmapChainedItems : B;
  itemsHash : gmap Z HashItem;      (* a missing entry is a zeroed one *)
  itemsChained : list ChainedItem;
  headFreeBit : list Z              (* the chain of free positions *)
}.

Definition hash_item (s : t) (a : Z) : HashItem :=
  default (mkHashItem 0 0) (itemsHash s !! a).
Definition head_of (s : t) (a : Z) : Z := indexHead (hash_item s a).

Definition set_head (s : t) (a i : Z) : t :=
  mk (bitmapChainedItems s)
     (<[a := mkHashItem (key (hash_item s a)) i]> (itemsHash s))
     (itemsChained s) (headFreeBit s).

Definition set_items (s : t) (items : list ChainedItem) : t :=
  mk (bitmapChainedItems s) (itemsHash s) items (headFreeBit s).

Definition with_next (it : ChainedItem) (n : Z) : ChainedItem :=
  mkChainedItem n (indexMeta it) (isDirectory it) (hashUnique it).
Definition with_meta (it : ChainedItem) (m : Z) (d : bool) : ChainedItem :=
  mkChainedItem (indexNext it) m d (hashUnique it).

(** The traversal loop of get, put and del: stops at the item whose unique
    hash matches (memcmp), or at index 0.  Returns found, indexBeforeCurrent
    and indexCurrent.  The do-while loops are entered with a nonzero index,
    where they agree with this loop. *)
Fixpoint traverse (fuel : nat) (items : list ChainedItem) (h : UniqueHash)
    (indexBefore indexCurrent : Z) : outcome (bool * Z * Z) :=
  if indexCurrent =? 0 then Done (false, indexBefore, 0)
  else
    match fuel with
    | O => Fault Diverges
    | S fuel' =>
        let! it := load items indexCurrent in
        if decide (hashUnique it = h) then Done (true, indexBefore, indexCurrent)
        else traverse fuel' items h indexCurrent (indexNext it)
    end.

(** No chain is longer than the item array. *)
Definition chain_fuel (s : t) : nat := length (itemsChained s).

(** get(UniqueHash *, ...): the out-parameters are cells. *)
Definition get_at (s : t) (a : Z) (h : UniqueHash) (cells : Z * bool)
    : outcome (bool * (Z * bool)) :=
  let indexHead := head_of s a in
  if indexHead =? 0 then Done (false, cells)
  else
    let! (found, _, cur) := traverse (chain_fuel s) (itemsChained s) h 0 indexHead in
    if (found : bool) then
      let! it := load (itemsChained s) cur in
      Done (true, (indexMeta it, isDirectory it))
    else Done (false, cells).

Definition get (s : t) (hp : option UniqueHash) (mp : option Z) (dp : option bool)
    : outcome (bool * option (Z * bool)) :=
  match hp, mp, dp with
  | Some h, Some m0, Some d0 =>
      let! r := get_at s (getAddressHash h) h (m0, d0) in
      Done (r.1, Some r.2)
  | _, _, _ => Done (false, None)
  end.

(** Takes the first free position, sets its bit and fills the item in: the
    part that both branches of put share. *)
Definition new_item (s : t) (h : UniqueHash) (m : Z) (d : bool)
    : outcome (option Z * t) :=
  match headFreeBit s with
  | [] => Done (None, s)
  | index :: rest =>
      let! (ok, bm) := bm_set (bitmapChainedItems s) index in
      if (ok : bool) then
        let! items := store (itemsChained s) index (mkChainedItem 0 m d h) in
        Done (Some index, mk bm (itemsHash s) items rest)
      else Done (None, mk bm (itemsHash s) (itemsChained s) rest)
  end.

Definition put_at (s : t) (a : Z) (h : UniqueHash) (m : Z) (d : bool)
    : outcome (bool * t) :=
  let indexHead := head_of s a in
  if indexHead =? 0 then
    let! (r, s1) := new_item s h m d in
    match r with
    | Some index => Done (true, set_head s1 a index)
    | None => Done (false, s1)
    end
  else
    let! (found, before, cur) :=
      traverse (chain_fuel s) (itemsChained s) h 0 indexHead in
    if (found : bool) then
      let! it := load (itemsChained s) cur in
      let! items := store (itemsChained s) cur (with_meta it m d) in
      Done (true, set_items s items)
    else
      let! (r, s1) := new_item s h m d in
      match r with
      | Some index =>
          let! it := load (itemsChained s1) before in
          let! items := store (itemsChained s1) before (with_next it index) in
          Done (true, set_items s1 items)
      | None => Done (false, s1)
      end.

Definition put (s : t) (hp : option UniqueHash) (m : Z) (d : bool)
    : outcome (bool * t) :=
  match hp with
  | Some h => put_at s (getAddressHash h) h m d
  | None => Done (false, s)
  end.

(** Clears the bit of a removed item and pushes its position on the chain
    of free positions. *)
Definition release (s : t) (index : Z) : outcome (bool * t) :=
  let! (ok, bm) := bm_clear (bitmapChainedItems s) index in
  if (ok : bool) then
    Done (true, mk bm (itemsHash s) (itemsChained s) (index :: headFreeBit s))
  else Done (false, mk bm (itemsHash s) (itemsChained s) (headFreeBit s)).

Definition del_at (s : t) (a : Z) (h : UniqueHash) : outcome (bool * t) :=
  let indexHead := head_of s a in
  if indexHead =? 0 then Done (false, s)
  else
    let! hd := load (itemsChained s) indexHead in
    if decide (hashUnique hd = h) then
      let! (ok, s1) := release s indexHead in
      if (ok : bool) then Done (true, set_head s1 a (indexNext hd))
      else Done (false, s1)
    else
      let! (found, before, cur) :=
        traverse (chain_fuel s) (itemsChained s) h indexHead (indexNext hd) in
      if (found : bool) then
        let! (ok, s1) := release s cur in
        if (ok : bool) then
          let! it := load (itemsChained s1) cur in
          let! prev := load (itemsChained s1) before in
          let! items := store (itemsChained s1) before (with_next prev (indexNext it)) in
          Done (true, set_items s1 items)
        else Done (false, s1)
      else Done (true, s).

Definition del (s : t) (hp : option UniqueHash) : outcome (bool * t) :=
  match hp with
  | Some h => del_at s (getAddressHash h) h
  | None => Done (false, s)
  end.

(** The variants on a path; [None] is the null pointer and a path is the
    bytes before its terminating zero, so strlen is the length. *)
Definition get_path (CalculateDigest : list Z -> UniqueHash)
    (s : t) (path : option (list Z)) (mp : option Z) (dp : option bool)
    : outcome (bool * option (Z * bool)) :=
  match path, mp, dp with
  | Some p, Some m0, Some d0 =>
      let h := getUniqueHash CalculateDigest p in
      let! r := get_at s (getAddressHash h) h (m0, d0) in
      Done (r.1, Some r.2)
  | _, _, _ => Done (false, None)
  end.

Definition put_path (CalculateDigest : list Z -> UniqueHash)
    (s : t) (path : option (list Z)) (m : Z) (d : bool) : outcome (bool * t) :=
  match path with
  | Some p =>
      put_at s (getAddressHash_buf CalculateDigest p)
             (getUniqueHash CalculateDigest p) m d
  | None => Done (false, s)
  end.

Definition del_path (CalculateDigest : list Z -> UniqueHash)
    (s : t) (path : option (list Z)) : outcome (bool * t) :=
  match path with
  | Some p =>
      del_at s (getAddressHash_buf CalculateDigest p) (getUniqueHash CalculateDigest p)
  | None => Done (false, s)
  end.

(** *** Counters *)

Definition buckets : list Z := seqZ 0 HASH_ITEMS_COUNT.

Definition getSavedHashItemsCount (s : t) : Z :=
  foldl (fun count i => if head_of s i =? 0 then count else wrap 64 (count + 1))
        0 buckets.

Definition getSavedChainedItemsCount (s : t) : Z :=
  wrap 64 (bm_countTotal (bitmapChainedItems s)
           - bm_countFree (bitmapChainedItems s) - 1).

Definition getTotalHashItemsCount (s : t) : Z := HASH_ITEMS_COUNT.

Definition getTotalChainedItemsCount (s : t) : Z :=
  wrap 64 (bm_countTotal (bitmapChainedItems s) - 1).

(** The do-while loop of getMaxLengthOfChain, entered with a nonzero index. *)
Fixpoint chain_length (fuel : nat) (items : list ChainedItem) (cur length : Z)
    : outcome Z :=
  if cur =? 0 then Done length
  else
    match fuel with
    | O => Fault Diverges
    | S fuel' =>
        let! it := load items cur in
        chain_length fuel' items (indexNext it) (wrap 64 (length + 1))
    end.

Fixpoint max_chain (s : t) (bs : list Z) (max : Z) : outcome Z :=
  match bs with
  | [] => Done max
  | i :: bs' =>
      let! length := chain_length (chain_fuel s) (itemsChained s) (head_of s i) 0 in
      max_chain s bs' (if max <? length then length else max)
  end.

Definition getMaxLengthOfChain (s : t) : outcome Z := max_chain s buckets 0.
End ops.
Arguments t B : clear implicits.

(** The constructor: [heads], [bits] and [items] are the three regions of the
    buffer.  The chain of free positions is built by pushing 1, 2, ... *)
Definition construct (buffer : option (gmap Z HashItem * list Z * list ChainedItem))
    (count : Z) : outcome (t Bitmap.t) :=
  match buffer with
  | None => Fault ProcessExit
  | Some (heads, bits, items) =>
      let! bm := Bitmap.construct count (Some bits) in
      let! (ok, bm1) := Bitmap.set bm 0 in
      if (ok : bool) then
        Done (mk bm1 heads items
                 (foldl (fun free i => i :: free) []
                        (seqZ 1 (Bitmap.countTotal bm1 - 1))))
      else Fault ProcessExit
  end.

(** ** Invariant and abstraction *)

Definition entry (items : list ChainedItem) (i : Z) : option (UniqueHash * (Z * bool)) :=
  (fun it => (hashUnique it, (indexMeta it, isDirectory it))) <$> zget items i.
Definition next_of (items : list ChainedItem) (i : Z) : option Z :=
  indexNext <$> zget items i.

(** The indices met from [from] until [to]. *)
Fixpoint seg (items : list ChainedItem) (from : Z) (l : list Z) (to : Z) : Prop :=
  match l with
  | [] => from = to
  | i :: l' => from = i /\ i <> 0 /\
      exists n, next_of items i = Some n /\ seg items n l' to
  end.

Definition misses (items : list ChainedItem) (h : UniqueHash) (l : list Z) : Prop :=
  Forall (fun i => fst <$> entry items i <> Some h) l.

Lemma next_of_is_Some items i n : next_of items i = Some n ->
  exists it, zget items i = Some it /\ indexNext it = n.
Proof. unfold next_of. intros (it & -> & ->)%fmap_Some_1. eauto. Qed.

Lemma entry_is_Some items i h v : entry items i = Some (h, v) ->
  exists it, zget items i = Some it /\ hashUnique it = h /\
    (indexMeta it, isDirectory it) = v.
Proof. unfold entry. intros (it & -> & E)%fmap_Some_1. naive_solver. Qed.

Lemma seg_app items a l1 l2 c :
  seg items a (l1 ++ l2) c <-> exists b, seg items a l1 b /\ seg items b l2 c.
Proof.
  revert a. induction l1 as [|i l1 IH]; intros a; simpl; [naive_solver|].
  setoid_rewrite IH. naive_solver.
Qed.

Lemma seg_frame items items' a l c :
  (forall i, i ∈ l -> next_of items' i = next_of items i) ->
  seg items a l c -> seg items' a l c.
Proof.
  revert a. induction l as [|i l IH]; intros a Hf; simpl; [done|].
  intros (-> & Hi & n & Hn & Hs). split; [done|]. split; [done|].
  exists n. rewrite Hf by set_solver. split; [done|]. apply IH; set_solver.
Qed.

Lemma seg_in_range items a l c i :
  seg items a l c -> i ∈ l -> i <> 0 /\ 0 <= i < zlen items.
Proof.
  revert a. induction l as [|j l IH]; intros a; simpl; [set_solver|].
  intros (-> & Hj & n & (it & Hg & _)%next_of_is_Some & Hs) [->|Hi]%elem_of_cons; [|eauto].
  split; [done|]. by eapply zget_Some_range.
Qed.

Lemma seg_zero items l c : seg items 0 l c -> c = 0 -> l = [].
Proof. destruct l; simpl; [done|]. intros (<- & ? & _). lia. Qed.

Lemma seg_nonzero items a l : seg items a l 0 -> a <> 0 -> exists l', l = a :: l'.
Proof. destruct l; simpl; [lia|]. intros (<- & _) _. eauto. Qed.

(** The traversal stops at the first item of the chain that matches. *)
Lemma traverse_found fuel items h before cur l i v :
  seg items cur l i -> misses items h l -> i <> 0 -> entry items i = Some (h, v) ->
  (length l < fuel)%nat ->
  traverse fuel items h before cur = Done (true, default before (last l), i).
Proof.
  intros Hs Hm Hi He. revert fuel before cur Hs.
  induction Hm as [|j l Hj Hm IH]; intros fuel before cur; simpl.
  - intros -> Hf. destruct fuel; [lia|]. simpl.
    rewrite (proj2 (Z.eqb_neq i 0)) by done.
    destruct (entry_is_Some _ _ _ _ He) as (it & Hg & Hh & _).
    rewrite (load_in_range _ _ _ Hg). simpl. by rewrite decide_True.
  - intros (-> & Hj0 & n & (it & Hg & <-)%next_of_is_Some & Hs) Hf.
    destruct fuel; [lia|]. simpl. rewrite (proj2 (Z.eqb_neq j 0)) by done.
    rewrite (load_in_range _ _ _ Hg). simpl. rewrite decide_False.
    + rewrite IH by (done || lia). rewrite last_cons. by destruct (last l).
    + intros E. apply Hj. unfold entry. rewrite Hg. simpl. by rewrite E.
Qed.

Lemma traverse_missing fuel items h before cur l :
  seg items cur l 0 -> misses items h l -> (length l <= fuel)%nat ->
  traverse fuel items h before cur = Done (false, default before (last l), 0).
Proof.
  intros Hs Hm. revert fuel before cur Hs.
  induction Hm as [|j l Hj Hm IH]; intros fuel before cur; simpl.
  - intros -> _. by destruct fuel.
  - intros (-> & Hj0 & n & (it & Hg & <-)%next_of_is_Some & Hs) Hf.
    destruct fuel; [lia|]. simpl. rewrite (proj2 (Z.eqb_neq j 0)) by done.
    rewrite (load_in_range _ _ _ Hg). simpl. rewrite decide_False.
    + rewrite IH by (done || lia). rewrite last_cons. by destruct (last l).
    + intros E. apply Hj. unfold entry. rewrite Hg. simpl. by rewrite E.
Qed.

Lemma chain_length_spec fuel items cur l acc :
  seg items cur l 0 -> (length l <= fuel)%nat -> 0 <= acc -> acc + zlen l < 2 ^ 64 ->
  chain_length fuel items cur acc = Done (acc + zlen l).
Proof.
  revert fuel cur acc. induction l as [|j l IH]; intros fuel cur acc Hs Hf Ha Hb.
  - simpl in Hs. subst cur. destruct fuel; simpl; apply (f_equal Done); unfold zlen; simpl; lia.
  - destruct Hs as (-> & Hj0 & n & (it & Hg & <-)%next_of_is_Some & Hs).
    rewrite length_cons in Hf. rewrite zlen_cons in *. pose proof (zlen_nonneg l).
    destruct fuel; [lia|]. simpl. rewrite (proj2 (Z.eqb_neq j 0)) by done.
    rewrite (load_in_range _ _ _ Hg). simpl.
    rewrite wrap_small by (unfold in_width; lia).
    rewrite IH by (done || lia). apply (f_equal Done). lia.
Qed.

Lemma elem_of_buckets a : a ∈ buckets <-> 0 <= a < HASH_ITEMS_COUNT.
Proof. unfold buckets. rewrite elem_of_seqZ, Z.add_0_l. reflexivity. Qed.

Lemma misses_split items h l :
  misses items h l \/
  exists l1 i l2 v, l = l1 ++ i :: l2 /\ misses items h l1 /\ entry items i = Some (h, v).
Proof.
  induction l as [|j l IH]; [by left; constructor|].
  destruct (entry items j) as [[h' v]|] eqn:E.
  2:{ destruct IH as [IH|(l1 & i & l2 & v & -> & Hm & He)].
      - left. constructor; [by rewrite E|done].
      - right. exists (j :: l1), i, l2, v. split_and!; [done| |done].
        constructor; [by rewrite E|done]. }
  destruct (decide (h' = h)) as [->|Hne].
  { right. exists [], j, l, v. split_and!; [done|constructor|done]. }
  destruct IH as [IH|(l1 & i & l2 & w & -> & Hm & He)].
  - left. constructor; [rewrite E; naive_solver|done].
  - right. exists (j :: l1), i, l2, w. split_and!; [done| |done].
    constructor; [rewrite E; naive_solver|done].
Qed.

Section model.
Context {B : Type} `{PositionSet B} (cap : Z).

(** [models s C m]: the table has [cap] chained items, bucket [a] holds the
    chain [C a] and the table maps [h] to [v] exactly when [m] does. *)
Record models (s : t B) (C : Z -> list Z) (m : gmap UniqueHash (Z * bool)) : Prop := {
  mo_ok : bm_ok (bitmapChainedItems s);
  mo_len : zlen (itemsChained s) = bm_countTotal (bitmapChainedItems s);
  mo_seg a : seg (itemsChained s) (head_of s a) (C a) 0;
  mo_nodup a : NoDup (C a);
  mo_addr a i h v : i ∈ C a -> entry (itemsChained s) i = Some (h, v) ->
    getAddressHash h = a;
  mo_inj a i j h v w : i ∈ C a -> j ∈ C a ->
    entry (itemsChained s) i = Some (h, v) ->
    entry (itemsChained s) j = Some (h, w) -> i = j;
  mo_map h v : m !! h = Some v <->
    exists i, i ∈ C (getAddressHash h) /\ entry (itemsChained s) i = Some (h, v);
  mo_occ p : p ∈ bm_occupied (bitmapChainedItems s) <-> p = 0 \/ exists a, p ∈ C a;
  mo_free p : p ∈ headFreeBit s <->
    0 < p < bm_countTotal (bitmapChainedItems s) /\
    p ∉ bm_occupied (bitmapChainedItems s);
  mo_free_nodup : NoDup (headFreeBit s);
  mo_size : size (bm_occupied (bitmapChainedItems s)) = S (size m);
  mo_total : bm_countTotal (bitmapChainedItems s) = cap
}.

Lemma chain_in_range s C m a i :
  models s C m -> i ∈ C a -> i <> 0 /\ 0 <= i < zlen (itemsChained s).
Proof. intros M. eapply seg_in_range, M. Qed.

Lemma chain_entry s C m a i : models s C m -> i ∈ C a ->
  exists h v, entry (itemsChained s) i = Some (h, v) /\ getAddressHash h = a.
Proof.
  intros M Hi. destruct (zget_is_Some (itemsChained s) i) as [it Hit].
  { by eapply chain_in_range. }
  exists (hashUnique it), (indexMeta it, isDirectory it).
  assert (E : entry (itemsChained s) i = Some (hashUnique it, (indexMeta it, isDirectory it)))
    by (unfold entry; by rewrite Hit).
  split; [done|]. by eapply mo_addr.
Qed.

Lemma chain_fits s C m a : models s C m -> (length (C a) <= chain_fuel s)%nat.
Proof.
  intros M. unfold chain_fuel.
  assert (Hsub : C a ⊆+ seqZ 0 (zlen (itemsChained s))).
  { apply NoDup_submseteq; [by eapply mo_nodup|]. intros x Hx.
    apply elem_of_seqZ. destruct (chain_in_range _ _ _ _ _ M Hx). lia. }
  apply submseteq_length in Hsub. rewrite length_seqZ in Hsub.
  unfold zlen in Hsub. lia.
Qed.

(** Looking [h] up in its chain decides whether it is in the map. *)
Lemma misses_lookup s C m h :
  models s C m -> misses (itemsChained s) h (C (getAddressHash h)) -> m !! h = None.
Proof.
  intros M Hm. destruct (m !! h) as [v|] eqn:E; [|done]. exfalso.
  apply (mo_map _ _ _ M) in E as (i & Hi & He). unfold misses in Hm.
  rewrite Forall_forall in Hm. apply (Hm i Hi). by rewrite He.
Qed.

Lemma found_lookup s C m h i v :
  models s C m -> i ∈ C (getAddressHash h) ->
  entry (itemsChained s) i = Some (h, v) -> m !! h = Some v.
Proof. intros M Hi He. apply (mo_map _ _ _ M). eauto. Qed.

(** *** The three ways a table changes *)

Lemma models_update s C m h v w i items' :
  models s C m -> i ∈ C (getAddressHash h) ->
  entry (itemsChained s) i = Some (h, v) ->
  zlen items' = zlen (itemsChained s) ->
  (forall j, next_of items' j = next_of (itemsChained s) j) ->
  entry items' i = Some (h, w) ->
  (forall j, j <> i -> entry items' j = entry (itemsChained s) j) ->
  models (set_items s items') C (<[h := w]> m).
Proof.
  intros M Hi He Hlen Hnext Hei Hej.
  assert (Hold : forall j h' u, entry items' j = Some (h', u) ->
            exists u', entry (itemsChained s) j = Some (h', u')).
  { intros j h' u Hj. destruct (decide (j = i)) as [->|Hne].
    - exists v. congruence.
    - exists u. by rewrite <- Hej. }
  destruct M as [Mok Mlen Mseg Mnd Maddr Minj Mmap Mocc Mfree Mfnd Msize Mtot].
  split; simpl; try done.
  - by rewrite Hlen.
  - intros a. eapply seg_frame; [|apply Mseg]. eauto.
  - intros a j h' u Hj Hju. destruct (Hold _ _ _ Hju) as [u' Hu']. eauto.
  - intros a j k h' u u' Hj Hk Hju Hku.
    destruct (Hold _ _ _ Hju) as [? ?], (Hold _ _ _ Hku) as [? ?]. eauto.
  - intros h' u. rewrite lookup_insert_Some, Mmap. split.
    + intros [[<- <-]|(Hne & j & Hj & Hju)]; [eauto|].
      exists j. split; [done|]. rewrite Hej; [done|]. intros ->. congruence.
    + intros (j & Hj & Hju). destruct (decide (j = i)) as [->|Hne].
      * left. rewrite Hei in Hju. by simplify_eq.
      * right. rewrite Hej in Hju by done. split; [|eauto].
        intros ->. by eapply Hne, Minj.
  - rewrite map_size_insert_Some; [done|]. exists v. apply Mmap. eauto.
Qed.

(** The chain map with bucket [a] replaced. *)
Definition with_chain (C : Z -> list Z) (a : Z) (l : list Z) : Z -> list Z :=
  fun a' => if decide (a' = a) then l else C a'.

Lemma with_chain_eq C a l : with_chain C a l a = l.
Proof. unfold with_chain. by rewrite decide_True. Qed.
Lemma with_chain_ne C a l a' : a' <> a -> with_chain C a l a' = C a'.
Proof. unfold with_chain. intros. by rewrite decide_False. Qed.

Lemma elem_of_with_chain C a l a' i :
  i ∈ with_chain C a l a' <-> (a' = a /\ i ∈ l) \/ (a' <> a /\ i ∈ C a').
Proof. unfold with_chain. case_decide; naive_solver. Qed.

Lemma models_insert s C m h v i rest s' :
  models s C m -> m !! h = None -> headFreeBit s = i :: rest ->
  bm_ok (bitmapChainedItems s') ->
  bm_countTotal (bitmapChainedItems s') = bm_countTotal (bitmapChainedItems s) ->
  bm_occupied (bitmapChainedItems s') = {[i]} ∪ bm_occupied (bitmapChainedItems s) ->
  headFreeBit s' = rest ->
  zlen (itemsChained s') = zlen (itemsChained s) ->
  let C' := with_chain C (getAddressHash h) (C (getAddressHash h) ++ [i]) in
  (forall a, seg (itemsChained s') (head_of s' a) (C' a) 0) ->
  entry (itemsChained s') i = Some (h, v) ->
  (forall j, j <> i -> entry (itemsChained s') j = entry (itemsChained s) j) ->
  models s' C' (<[h := v]> m).
Proof.
  intros M Hnone Hfree Hok Htot Hocc Hrest Hlen C' Hseg Hei Hej.
  destruct M as [Mok Mlen Mseg Mnd Maddr Minj Mmap Mocc Mfree Mfnd Msize Mtot].
  assert (Hi : 0 < i < bm_countTotal (bitmapChainedItems s) /\
               i ∉ bm_occupied (bitmapChainedItems s))
    by (apply Mfree; rewrite Hfree; set_solver).
  assert (Hnew : forall a, i ∉ C a).
  { intros a Ha. apply (proj2 Hi). apply Mocc. eauto. }
  assert (HC : forall a j, j ∈ C' a <-> j ∈ C a \/ (a = getAddressHash h /\ j = i)).
  { intros a j. unfold C'. rewrite elem_of_with_chain. set_unfold.
    destruct (decide (a = getAddressHash h)); naive_solver. }
  assert (Hcase : forall a j h' u, j ∈ C' a -> entry (itemsChained s') j = Some (h', u) ->
            (j = i /\ a = getAddressHash h /\ h' = h /\ u = v) \/
            (j <> i /\ j ∈ C a /\ entry (itemsChained s) j = Some (h', u))).
  { intros a j h' u [Hj|[-> ->]]%HC Hju.
    - right. assert (j <> i) by (intros ->; by eapply Hnew).
      rewrite Hej in Hju by done. done.
    - left. rewrite Hei in Hju. by simplify_eq. }
  assert (Hno : forall j u, j ∈ C (getAddressHash h) ->
                  entry (itemsChained s) j <> Some (h, u)).
  { intros j u Hj Hju. assert (m !! h = Some u) by (apply Mmap; eauto). congruence. }
  split; try done.
  - by rewrite Hlen, Htot.
  - intros a. unfold C', with_chain. case_decide; [|done]. apply NoDup_app.
    split; [done|]. split; [|apply NoDup_singleton]. set_solver.
  - intros a j h' u Hj Hju. destruct (Hcase _ _ _ _ Hj Hju); naive_solver.
  - intros a j k h' u u' Hj Hk Hju Hku.
    destruct (Hcase _ _ _ _ Hj Hju) as [(-> & -> & -> & ->)|(? & Hj' & Hju')],
             (Hcase _ _ _ _ Hk Hku) as [(-> & ? & ? & ?)|(? & Hk' & Hku')];
      subst; try done.
    + by destruct (Hno k u').
    + by destruct (Hno j u).
    + by eapply Minj.
  - intros h' u. rewrite lookup_insert_Some, Mmap. split.
    + intros [[<- <-]|(Hne & j & Hj & Hju)].
      * exists i. split; [apply HC; by right|done].
      * exists j. split; [apply HC; by left|]. rewrite Hej; [done|].
        intros ->. by eapply Hnew.
    + intros (j & Hj & Hju).
      destruct (Hcase _ _ _ _ Hj Hju) as [(-> & ? & -> & ->)|(? & Hj' & Hju')]; [by left|].
      right. split; [|eauto]. intros ->. by eapply Hno.
  - intros p. rewrite Hocc, elem_of_union, elem_of_singleton, Mocc.
    setoid_rewrite HC. naive_solver.
  - intros p. rewrite Hrest, Htot, Hocc. rewrite not_elem_of_union, not_elem_of_singleton.
    pose proof (Mfree p) as Fp. rewrite Hfree in Fp, Mfnd.
    apply NoDup_cons in Mfnd as [? _]. set_solver.
  - rewrite Hrest. rewrite Hfree in Mfnd. by apply NoDup_cons in Mfnd as [_ ?].
  - rewrite Hocc, size_union, size_singleton, Msize, map_size_insert_None by set_solver.
    done.
  - congruence.
Qed.

Lemma models_delete s C m h v l1 i l2 s' :
  models s C m -> C (getAddressHash h) = l1 ++ i :: l2 ->
  entry (itemsChained s) i = Some (h, v) ->
  bm_ok (bitmapChainedItems s') ->
  bm_countTotal (bitmapChainedItems s') = bm_countTotal (bitmapChainedItems s) ->
  bm_occupied (bitmapChainedItems s') = bm_occupied (bitmapChainedItems s) ∖ {[i]} ->
  headFreeBit s' = i :: headFreeBit s ->
  zlen (itemsChained s') = zlen (itemsChained s) ->
  let C' := with_chain C (getAddressHash h) (l1 ++ l2) in
  (forall a, seg (itemsChained s') (head_of s' a) (C' a) 0) ->
  (forall j, entry (itemsChained s') j = entry (itemsChained s) j) ->
  models s' C' (delete h m).
Proof.
  intros M Hch Hei Hok Htot Hocc Hfree Hlen C' Hseg Hent.
  pose proof (chain_in_range s C m (getAddressHash h) i M ltac:(rewrite Hch; set_solver))
    as [Hi0 Hir].
  destruct M as [Mok Mlen Mseg Mnd Maddr Minj Mmap Mocc Mfree Mfnd Msize Mtot].
  assert (Hnd := Mnd (getAddressHash h)). rewrite Hch in Hnd.
  apply NoDup_app in Hnd as (Hnd1 & Hdis & Hnd2). apply NoDup_cons in Hnd2 as [Hi2 Hnd2].
  assert (Hi1 : i ∉ l1) by set_solver.
  assert (HC : forall a j, j ∈ C' a <-> j ∈ C a /\ j <> i).
  { intros a j. unfold C'. rewrite elem_of_with_chain.
    destruct (decide (a = getAddressHash h)) as [->|Hne].
    - rewrite Hch. set_solver.
    - split; [|naive_solver]. intros [[? _]|[_ Hj]]; [done|]. split; [done|].
      intros ->. apply Hne. by rewrite <- (Maddr _ _ _ _ Hj Hei). }
  split; try done.
  - by rewrite Hlen, Htot.
  - intros a. unfold C', with_chain. case_decide; [|done].
    apply NoDup_app. set_solver.
  - intros a j h' u [Hj _]%HC. rewrite Hent. eauto.
  - intros a j k h' u u' [Hj _]%HC [Hk _]%HC. rewrite !Hent. eauto.
  - intros h' u. rewrite lookup_delete_Some, Mmap. setoid_rewrite HC. setoid_rewrite Hent.
    split.
    + intros (Hne & j & Hj & Hju). exists j. split_and!; try done.
      intros ->. apply Hne. rewrite Hei in Hju. by simplify_eq.
    + intros (j & (Hj & Hne) & Hju). split; [|eauto].
      intros <-. apply Hne. eapply (Minj (getAddressHash h)); [done| |done|done].
      rewrite Hch. set_solver.
  - intros p. rewrite Hocc, elem_of_difference, elem_of_singleton, Mocc.
    setoid_rewrite HC. naive_solver.
  - intros p. rewrite Hfree, Htot, Hocc, elem_of_cons, Mfree.
    rewrite not_elem_of_difference, elem_of_singleton.
    destruct (decide (p = i)) as [->|]; [|naive_solver].
    split; [|by left]. intros _. split; [lia|by right].
  - rewrite Hfree. apply NoDup_cons. split; [|done]. rewrite Mfree. intros [_ []].
    apply Mocc. right. exists (getAddressHash h). rewrite Hch. set_solver.
  - assert (Hin : i ∈ bm_occupied (bitmapChainedItems s)).
    { apply Mocc. right. exists (getAddressHash h). rewrite Hch. set_solver. }
    assert (Hm : m !! h = Some v) by (apply Mmap; exists i; rewrite Hch; set_solver).
    rewrite Hocc, size_difference, size_singleton, Msize by set_solver.
    rewrite map_size_delete_Some by (by eexists).
    assert (size m <> 0%nat); [|lia].
    intros Hz%map_size_empty_iff. subst. by rewrite lookup_empty in Hm.
  - congruence.
Qed.

(** *** The operations *)

Lemma get_at_spec s C m h cells :
  models s C m ->
  get_at s (getAddressHash h) h cells =
    Done (match m !! h with Some v => (true, v) | None => (false, cells) end).
Proof.
  intros M. unfold get_at. pose proof (mo_seg _ _ _ M (getAddressHash h)) as Hs.
  pose proof (chain_fits _ _ _ (getAddressHash h) M) as Hf.
  destruct (Z.eqb_spec (head_of s (getAddressHash h)) 0) as [E|E].
  { rewrite E in Hs. apply seg_zero in Hs; [|done].
    rewrite (misses_lookup _ _ _ h M); [done|]. rewrite Hs. constructor. }
  destruct (misses_split (itemsChained s) h (C (getAddressHash h)))
    as [Hm|(l1 & i & l2 & v & Hc & Hm & He)].
  - rewrite (traverse_missing _ _ _ _ _ (C (getAddressHash h))) by done. simpl.
    by rewrite (misses_lookup _ _ _ h M).
  - assert (Hi : i ∈ C (getAddressHash h)) by (rewrite Hc; set_solver).
    rewrite Hc in Hs, Hf. rewrite length_app, length_cons in Hf.
    apply seg_app in Hs as (b & Hs1 & -> & Hi0 & _).
    rewrite (traverse_found _ _ _ _ _ l1 i v) by (done || lia). simpl.
    destruct (entry_is_Some _ _ _ _ He) as (it & Hg & _ & Hv).
    rewrite (load_in_range _ _ _ Hg). simpl.
    by rewrite (found_lookup _ _ _ _ _ _ M Hi He), Hv.
Qed.

Lemma new_item_spec s C m h mi d :
  models s C m ->
  (headFreeBit s = [] /\ new_item s h mi d = Done (None, s)) \/
  exists i rest bm,
    headFreeBit s = i :: rest /\ 0 < i < zlen (itemsChained s) /\ (forall a, i ∉ C a) /\
    new_item s h mi d =
      Done (Some i, mk bm (itemsHash s)
              (zset (itemsChained s) i (mkChainedItem 0 mi d h)) rest) /\
    bm_ok bm /\ bm_countTotal bm = bm_countTotal (bitmapChainedItems s) /\
    bm_occupied bm = {[i]} ∪ bm_occupied (bitmapChainedItems s).
Proof.
  intros M. unfold new_item. destruct (headFreeBit s) as [|i rest] eqn:Hf; [by left|].
  right. assert (Hi : i ∈ headFreeBit s) by (rewrite Hf; set_solver).
  apply (mo_free _ _ _ M) in Hi as [Hr Hno].
  destruct (bm_set_law (bitmapChainedItems s) i) as (bm & Hset & Hok & Ht & Ho);
    [apply M|lia|].
  exists i, rest, bm. rewrite Hset. simpl.
  rewrite (mo_len _ _ _ M). rewrite store_in_range by (rewrite (mo_len _ _ _ M); lia).
  split_and!; try done; try lia.
  intros a Ha. apply Hno, (mo_occ _ _ _ M). eauto.
Qed.

Lemma entry_zset_ne items i j it : j <> i -> entry (zset items i it) j = entry items j.
Proof. intros. unfold entry. by rewrite zget_zset_ne. Qed.
Lemma next_zset_ne items i j it : j <> i -> next_of (zset items i it) j = next_of items j.
Proof. intros. unfold next_of. by rewrite zget_zset_ne. Qed.
Lemma entry_zset_eq items i it : 0 <= i < zlen items ->
  entry (zset items i it) i = Some (hashUnique it, (indexMeta it, isDirectory it)).
Proof. intros. unfold entry. by rewrite zget_zset_eq. Qed.
Lemma next_zset_eq items i it : 0 <= i < zlen items ->
  next_of (zset items i it) i = Some (indexNext it).
Proof. intros. unfold next_of. by rewrite zget_zset_eq. Qed.

(** Storing an item back with another next index keeps every entry. *)
Lemma entry_with_next items b it n j :
  zget items b = Some it -> entry (zset items b (with_next it n)) j = entry items j.
Proof.
  intros Hb. destruct (decide (j = b)) as [->|Hne]; [|by apply entry_zset_ne].
  rewrite entry_zset_eq by (by eapply zget_Some_range). unfold entry. by rewrite Hb.
Qed.

(** Redirecting the last item of a segment. *)
Lemma seg_relink items from l b old to it :
  seg items from (l ++ [b]) old -> b ∉ l -> zget items b = Some it ->
  seg (zset items b (with_next it to)) from (l ++ [b]) to.
Proof.
  intros Hs Hb Hg. apply seg_app in Hs as (c & Hs & -> & Hb0 & _).
  apply seg_app. exists b. split.
  - eapply seg_frame; [|exact Hs]. intros i Hi. apply next_zset_ne. set_solver.
  - simpl. split_and!; [done|done|]. exists to.
    rewrite next_zset_eq by (by eapply zget_Some_range). done.
Qed.

Lemma head_set_head (s : t B) a i a' :
  head_of (set_head s a i) a' = if decide (a' = a) then i else head_of s a'.
Proof.
  unfold head_of, hash_item, set_head; simpl. case_decide as E.
  - subst. by rewrite lookup_insert_eq.
  - by rewrite lookup_insert_ne.
Qed.

(** put on a hash that is present updates its item in place. *)
Lemma put_present s C m h mi d l1 i l2 v :
  models s C m -> C (getAddressHash h) = l1 ++ i :: l2 ->
  misses (itemsChained s) h l1 -> entry (itemsChained s) i = Some (h, v) ->
  exists s', put_at s (getAddressHash h) h mi d = Done (true, s') /\
    models s' C (<[h := (mi, d)]> m).
Proof.
  intros M Hc Hm He. unfold put_at.
  pose proof (mo_seg _ _ _ M (getAddressHash h)) as Hs.
  pose proof (chain_fits _ _ _ (getAddressHash h) M) as Hf.
  assert (Hi : i ∈ C (getAddressHash h)) by (rewrite Hc; set_solver).
  rewrite Hc in Hs, Hf. rewrite length_app, length_cons in Hf.
  apply seg_app in Hs as (b & Hs1 & -> & Hi0 & _).
  destruct (Z.eqb_spec (head_of s (getAddressHash h)) 0) as [E|E].
  { rewrite E in Hs1. destruct l1; simpl in Hs1; naive_solver. }
  rewrite (traverse_found _ _ _ _ _ l1 i v) by (done || lia). simpl.
  destruct (entry_is_Some _ _ _ _ He) as (it & Hg & Hh & Hv).
  rewrite (load_in_range _ _ _ Hg). simpl.
  pose proof (zget_Some_range _ _ _ Hg) as Hr.
  rewrite store_in_range by done. simpl. eexists. split; [done|].
  eapply (models_update s C m h v); try done.
  - apply zlen_zset.
  - intros j. destruct (decide (j = i)) as [->|]; [|by apply next_zset_ne].
    rewrite next_zset_eq by done. unfold next_of. by rewrite Hg.
  - rewrite entry_zset_eq by done. by rewrite <- Hh.
  - intros j Hj. by apply entry_zset_ne.
Qed.

(** A fresh item does not disturb the chains. *)
Lemma seg_fresh s C m i it :
  models s C m -> (forall a, i ∉ C a) ->
  forall a, seg (zset (itemsChained s) i it) (head_of s a) (C a) 0.
Proof.
  intros M Hfresh a. eapply seg_frame; [|apply (mo_seg _ _ _ M)].
  intros j Hj. apply next_zset_ne. intros ->. by eapply Hfresh.
Qed.

(** Appending the fresh item [i] after the last item [b] of its bucket. *)
Lemma seg_append s C m h i b l it1 itb :
  models s C m -> (forall a, i ∉ C a) -> C (getAddressHash h) = l ++ [b] ->
  0 < i < zlen (itemsChained s) -> indexNext it1 = 0 ->
  let items1 := zset (itemsChained s) i it1 in
  zget items1 b = Some itb ->
  forall a, seg (zset items1 b (with_next itb i)) (head_of s a)
    (with_chain C (getAddressHash h) (C (getAddressHash h) ++ [i]) a) 0.
Proof.
  intros M Hfresh Hb Hi Hn items1 Hgb a.
  assert (HbC : b ∈ C (getAddressHash h)) by (rewrite Hb; set_solver).
  assert (Hbi : b <> i) by (intros ->; by eapply Hfresh).
  pose proof (seg_fresh s C m i it1 M Hfresh) as Hkeep.
  unfold with_chain. case_decide as Ea.
  - subst a. rewrite Hb. apply seg_app. exists i. split.
    + eapply seg_relink; [rewrite <- Hb; apply Hkeep| |done].
      pose proof (mo_nodup _ _ _ M (getAddressHash h)) as Hnd. rewrite Hb in Hnd.
      apply NoDup_app in Hnd as (_ & Hd & _). set_solver.
    + simpl. split_and!; [done|lia|]. exists 0.
      rewrite next_zset_ne by congruence. unfold items1.
      rewrite next_zset_eq by lia. by rewrite Hn.
  - eapply seg_frame; [|apply Hkeep]. intros j Hj. apply next_zset_ne.
    intros ->. apply Ea.
    destruct (chain_entry _ _ _ _ _ M Hj) as (h1 & v1 & He1 & <-).
    by rewrite (mo_addr _ _ _ M _ _ _ _ HbC He1).
Qed.

(** put on a hash that is absent. *)
Lemma put_absent s C m h mi d :
  models s C m -> misses (itemsChained s) h (C (getAddressHash h)) ->
  if decide (headFreeBit s <> []) then
    exists s' C', put_at s (getAddressHash h) h mi d = Done (true, s') /\
      models s' C' (<[h := (mi, d)]> m)
  else put_at s (getAddressHash h) h mi d = Done (false, s).
Proof.
  intros M Hm. unfold put_at. set (a := getAddressHash h).
  pose proof (mo_seg _ _ _ M a) as Hs. pose proof (chain_fits _ _ _ a M) as Hf.
  pose proof (misses_lookup _ _ _ h M Hm) as Hnone.
  destruct (new_item_spec s C m h mi d M)
    as [[Hfree ->]|(i & rest & bm & Hfree & Hi & Hfresh & -> & Hok & Ht & Ho)].
  { rewrite decide_False by (rewrite Hfree; intros []; done).
    destruct (Z.eqb_spec (head_of s a) 0) as [E|E]; [done|].
    by rewrite (traverse_missing _ _ _ _ _ (C a)) by done. }
  rewrite decide_True by (by rewrite Hfree).
  destruct (Z.eqb_spec (head_of s a) 0) as [E|E]; simpl.
  - rewrite E in Hs. apply seg_zero in Hs; [|done].
    eexists _, _. split; [done|].
    apply (models_insert s C m h (mi, d) i rest); try done; simpl.
    + apply zlen_zset.
    + intros a'. rewrite head_set_head. fold a. unfold with_chain.
      case_decide; [|exact (seg_fresh s C m i _ M Hfresh a')]. rewrite Hs. simpl.
      split_and!; [done|lia|]. rewrite next_zset_eq by lia. eauto.
    + rewrite entry_zset_eq by lia. done.
    + intros j Hj. by apply entry_zset_ne.
  - rewrite (traverse_missing _ _ _ _ _ (C a)) by done. simpl.
    destruct (seg_nonzero _ _ _ Hs E) as [l0 Hl].
    destruct (exists_last (l := C a)) as (l & b & Hb); [by rewrite Hl|].
    rewrite Hb, last_snoc. simpl.
    assert (HbC : b ∈ C a) by (rewrite Hb; set_solver).
    destruct (chain_in_range _ _ _ _ _ M HbC) as [_ Hbr].
    destruct (zget_is_Some (zset (itemsChained s) i (mkChainedItem 0 mi d h)) b)
      as [itb Hgb]; [by rewrite zlen_zset|].
    rewrite (load_in_range _ _ _ Hgb). simpl.
    rewrite store_in_range by (by eapply zget_Some_range). simpl.
    eexists _, _. split; [done|].
    apply (models_insert s C m h (mi, d) i rest); try done; simpl.
    + rewrite zlen_zset. apply zlen_zset.
    + exact (seg_append s C m h i b l (mkChainedItem 0 mi d h) itb M Hfresh Hb Hi eq_refl Hgb).
    + rewrite entry_with_next by done. rewrite entry_zset_eq by lia. done.
    + intros j Hj. rewrite entry_with_next by done. by apply entry_zset_ne.
Qed.

Lemma put_at_spec s C m h mi d :
  models s C m ->
  if decide (is_Some (m !! h) \/ headFreeBit s <> []) then
    exists s' C', put_at s (getAddressHash h) h mi d = Done (true, s') /\
      models s' C' (<[h := (mi, d)]> m)
  else put_at s (getAddressHash h) h mi d = Done (false, s).
Proof.
  intros M.
  destruct (misses_split (itemsChained s) h (C (getAddressHash h)))
    as [Hm|(l1 & i & l2 & v & Hc & Hm & He)].
  - pose proof (put_absent s C m h mi d M Hm) as P.
    pose proof (misses_lookup _ _ _ h M Hm) as Hn.
    destruct (decide (headFreeBit s <> [])) as [D|D].
    + rewrite decide_True by (by right). done.
    + rewrite decide_False; [done|]. rewrite Hn. intros [[]|]; done.
  - rewrite decide_True.
    + destruct (put_present s C m h mi d l1 i l2 v M Hc Hm He) as (s' & ? & ?). eauto.
    + left. exists v. eapply found_lookup; [done| |done]. rewrite Hc. set_solver.
Qed.

Lemma release_spec s C m a i :
  models s C m -> i ∈ C a ->
  exists bm, release s i =
      Done (true, mk bm (itemsHash s) (itemsChained s) (i :: headFreeBit s)) /\
    bm_ok bm /\ bm_countTotal bm = bm_countTotal (bitmapChainedItems s) /\
    bm_occupied bm = bm_occupied (bitmapChainedItems s) ∖ {[i]}.
Proof.
  intros M Hi. destruct (chain_in_range _ _ _ _ _ M Hi) as [_ Hr].
  rewrite (mo_len _ _ _ M) in Hr.
  destruct (bm_clear_law (bitmapChainedItems s) i) as (bm & Hc & ? & ? & ?);
    [apply M|done|].
  exists bm. unfold release. by rewrite Hc.
Qed.

(** Unlinking the item [i] that follows [b]. *)
Lemma seg_unlink items from l b i l' itb iti :
  seg items from (l ++ b :: i :: l') 0 -> NoDup (l ++ b :: i :: l') ->
  zget items b = Some itb -> zget items i = Some iti ->
  seg (zset items b (with_next itb (indexNext iti))) from (l ++ b :: l') 0.
Proof.
  intros Hs Hnd Hb Hi.
  apply NoDup_app in Hnd as (_ & Hd & [Hb' _]%NoDup_cons).
  assert (Hbl : b ∉ l) by (intros ?; eapply Hd; set_solver).
  apply seg_app in Hs as (c & Hs1 & -> & Hb0 & n & Hn & -> & Hi0 & k & Hk & Hs2).
  apply seg_app. exists b. split.
  - eapply seg_frame; [|exact Hs1]. intros j Hj. apply next_zset_ne. set_solver.
  - simpl. split_and!; [done|done|]. exists k.
    rewrite next_zset_eq by (by eapply zget_Some_range). simpl.
    unfold next_of in Hk. rewrite Hi in Hk. split; [done|].
    eapply seg_frame; [|exact Hs2]. intros j Hj. apply next_zset_ne. set_solver.
Qed.

(** del of an item that is not the head of its bucket. *)
Lemma del_middle s C m h l1 i l2 v (P : bool -> Prop) :
  models s C m ->
  C (getAddressHash h) = head_of s (getAddressHash h) :: l1 ++ i :: l2 ->
  entry (itemsChained s) i = Some (h, v) ->
  (forall r, r = true -> P r) ->
  exists r s' C',
    (let! (ok, s1) := release s i in
     if (ok : bool) then
       let! it := load (itemsChained s1) i in
       let! prev := load (itemsChained s1)
         (default (head_of s (getAddressHash h)) (last l1)) in
       let! items := store (itemsChained s1)
         (default (head_of s (getAddressHash h)) (last l1))
         (with_next prev (indexNext it)) in
       Done (true, set_items s1 items)
     else Done (false, s1)) = Done (r, s') /\
    models s' C' (delete h m) /\ P r.
Proof.
  intros M Hc He HP. set (a := getAddressHash h) in *.
  assert (Hsplit : exists l, head_of s a :: l1 = l ++ [default (head_of s a) (last l1)]).
  { destruct (exists_last (l := head_of s a :: l1)) as (l & b & Hb); [done|].
    exists l. rewrite Hb. do 2 f_equal.
    assert (Hl : last (head_of s a :: l1) = Some b) by (by rewrite Hb, last_snoc).
    rewrite last_cons in Hl. destruct (last l1); by simplify_eq/=. }
  destruct Hsplit as [l Hl]. set (b := default (head_of s a) (last l1)) in *.
  assert (Hcb : C a = l ++ b :: i :: l2).
  { rewrite Hc, app_comm_cons, Hl, <- app_assoc. done. }
  assert (HiC : i ∈ C a) by (rewrite Hcb; set_solver).
  assert (HbC : b ∈ C a) by (rewrite Hcb; set_solver).
  destruct (release_spec s C m a i M HiC) as (bm & -> & Hok & Ht & Ho). simpl.
  destruct (entry_is_Some _ _ _ _ He) as (iti & Hgi & _ & _).
  rewrite (load_in_range _ _ _ Hgi). simpl.
  destruct (chain_in_range _ _ _ _ _ M HbC) as [_ Hbr].
  destruct (zget_is_Some (itemsChained s) b Hbr) as [itb Hgb].
  rewrite (load_in_range _ _ _ Hgb). simpl.
  rewrite store_in_range by done. simpl.
  eexists true, _, _. split; [done|]. split; [|by apply HP].
  eapply (models_delete s C m h v (l ++ [b]) i l2); try done; simpl.
  + fold a. by rewrite Hcb, <- app_assoc.
  + apply zlen_zset.
  + intros a'. fold a. unfold with_chain. rewrite <- app_assoc. simpl. case_decide as Ea.
    * subst a'. eapply seg_unlink; [| |done|done]; rewrite <- Hcb;
        [apply (mo_seg _ _ _ M)|apply (mo_nodup _ _ _ M)].
    * eapply seg_frame; [|apply (mo_seg _ _ _ M)]. intros j Hj. apply next_zset_ne.
      intros ->. apply Ea.
      destruct (chain_entry _ _ _ _ _ M Hj) as (h1 & v1 & He1 & <-).
      by rewrite (mo_addr _ _ _ M _ _ _ _ HbC He1).
  + intros j. by rewrite entry_with_next.
Qed.

Lemma del_at_spec s C m h :
  models s C m ->
  exists r s' C', del_at s (getAddressHash h) h = Done (r, s') /\
    models s' C' (delete h m) /\
    (r = false <-> forall h', is_Some (m !! h') -> getAddressHash h' <> getAddressHash h).
Proof.
  intros M. unfold del_at. set (a := getAddressHash h).
  pose proof (mo_seg _ _ _ M a) as Hs. pose proof (chain_fits _ _ _ a M) as Hf.
  destruct (Z.eqb_spec (head_of s a) 0) as [E|E].
  { rewrite E in Hs. apply seg_zero in Hs; [|done].
    assert (Hn : forall h', is_Some (m !! h') -> getAddressHash h' <> a).
    { intros h' [v (i & Hi & _)%(mo_map _ _ _ M)] Ha. rewrite Ha, Hs in Hi. set_solver. }
    exists false, s, C. split_and!; [done| |done].
    rewrite delete_id; [done|]. destruct (m !! h) eqn:Eh; [|done].
    exfalso. by apply (Hn h). }
  destruct (seg_nonzero _ _ _ Hs E) as [tl Hc]. rewrite Hc in Hs, Hf.
  assert (Hhd : head_of s a ∈ C a) by (rewrite Hc; set_solver).
  assert (Hne : exists h', is_Some (m !! h') /\ getAddressHash h' = a).
  { destruct (chain_entry _ _ _ _ _ M Hhd) as (h' & v & He & Ha).
    exists h'. split; [|done]. exists v. eapply found_lookup; [done| |done]. by rewrite Ha. }
  destruct Hs as (_ & _ & n & (hd & Hg & <-)%next_of_is_Some & Hs).
  rewrite (load_in_range _ _ _ Hg). simpl. simpl in Hf.
  assert (Hr : forall r : bool, r = true ->
    (r = false <-> forall h', is_Some (m !! h') -> getAddressHash h' <> a)).
  { intros r ->. split; [done|]. intros Hall. destruct Hne as (h' & ? & ?).
    by destruct (Hall h'). }
  case_decide as D.
  - (* the head item matches *)
    assert (He : entry (itemsChained s) (head_of s a) = Some (h, (indexMeta hd, isDirectory hd)))
      by (unfold entry; by rewrite Hg, <- D).
    destruct (release_spec s C m a _ M Hhd) as (bm & -> & Hok & Ht & Ho). simpl.
    eexists true, _, _. split; [done|]. split; [|by apply Hr].
    eapply (models_delete s C m h _ [] (head_of s a) tl); try done; simpl.
    intros a'. rewrite head_set_head. fold a. unfold with_chain.
    case_decide; [done|]. apply (mo_seg _ _ _ M).
  - assert (Hmh : fst <$> entry (itemsChained s) (head_of s a) <> Some h)
      by (unfold entry; rewrite Hg; naive_solver).
    destruct (misses_split (itemsChained s) h tl)
      as [Hm|(l1 & i & l2 & v & -> & Hm & He)].
    + rewrite (traverse_missing _ _ _ _ _ tl) by (done || lia). simpl.
      exists true, s, C. split_and!; [done| |by apply Hr].
      rewrite delete_id; [done|]. apply (misses_lookup _ _ _ _ M). fold a.
      rewrite Hc. by constructor.
    + rewrite length_app, length_cons in Hf.
      apply seg_app in Hs as (c & Hs1 & -> & Hi0 & Hs2).
      rewrite (traverse_found _ _ _ _ _ l1 i v) by (done || lia). simpl.
      exact (del_middle s C m h l1 i l2 v _ M Hc He Hr).
Qed.

(** *** Capacity *)

Lemma free_count s C m :
  models s C m ->
  zlen (headFreeBit s) + Z.of_nat (size m) + 1 = bm_countTotal (bitmapChainedItems s).
Proof.
  intros M. set (total := bm_countTotal (bitmapChainedItems s)).
  pose proof (bm_total_range (bitmapChainedItems s) (mo_ok _ _ _ M)) as Ht. fold total in Ht.
  assert (E : list_to_set (seqZ 0 total) =@{gset Z}
              list_to_set (headFreeBit s) ∪ bm_occupied (bitmapChainedItems s)).
  { apply set_eq. intros p. rewrite elem_of_union, !elem_of_list_to_set, elem_of_seqZ.
    rewrite (mo_free _ _ _ M). fold total.
    pose proof (mo_occ _ _ _ M 0) as [_ H0'].
    destruct (decide (p ∈ bm_occupied (bitmapChainedItems s))) as [Hp|Hp].
    - pose proof (bm_occupied_range _ _ Hp). naive_solver lia.
    - split; [|intros [[? _]|?]; [lia|done]]. intros. left. split; [|done].
      assert (p <> 0); [|lia]. intros ->. apply Hp, H0'. by left. }
  assert (Hd : (list_to_set (headFreeBit s) : gset Z) ## bm_occupied (bitmapChainedItems s)).
  { intros p Hp%elem_of_list_to_set. by apply (mo_free _ _ _ M) in Hp as [_ ?]. }
  apply (f_equal size) in E. rewrite size_union, (mo_size _ _ _ M) in E by done.
  rewrite !size_list_to_set, length_seqZ in E by (apply NoDup_seqZ || apply (mo_free_nodup _ _ _ M)).
  unfold zlen. lia.
Qed.

Lemma max_chain_spec s C m bs acc :
  models s C m -> 0 <= acc ->
  exists n, max_chain s bs acc = Done n /\ acc <= n /\
    (forall a, a ∈ bs -> zlen (C a) <= n) /\
    (n = acc \/ exists a, a ∈ bs /\ zlen (C a) = n).
Proof.
  intros M. revert acc. induction bs as [|a bs IH]; intros acc Ha; simpl.
  { exists acc. split_and!; [done|lia|set_solver|by left]. }
  pose proof (chain_fits _ _ _ a M) as Hf.
  pose proof (bm_total_range (bitmapChainedItems s) (mo_ok _ _ _ M)) as Hr.
  rewrite <- (mo_len _ _ _ M) in Hr. unfold chain_fuel, zlen in Hr, Hf.
  rewrite (chain_length_spec _ _ _ (C a));
    [|apply (mo_seg _ _ _ M)|done|lia|unfold zlen; lia].
  simpl. pose proof (zlen_nonneg (C a)).
  destruct (IH (if acc <? zlen (C a) then zlen (C a) else acc)) as (n & Hn & Hge & Hall & Hex).
  { destruct (acc <? zlen (C a)); lia. }
  exists n. split; [done|].
  destruct (acc <? zlen (C a)) eqn:E; zbool.
  - split_and!; [lia| |].
    + intros a' [->|?]%elem_of_cons; auto.
    + destruct Hex as [->|(a' & ? & ?)]; right; [exists a|exists a']; set_solver.
  - split_and!; [done| |].
    + intros a' [->|?]%elem_of_cons; [lia|auto].
    + destruct Hex as [->|(a' & ? & ?)]; [by left|right]. exists a'. set_solver.
Qed.

(** ** Theorems *)

(** The operations on a table and their specification on a finite map with
    room for [cap - 1] keys. *)
Inductive op := OGet (h : UniqueHash) | OPut (h : UniqueHash) (m : Z) (d : bool)
              | ODel (h : UniqueHash).
Inductive res := RGet (found : bool) (v : Z * bool) | RBool (b : bool).

Definition exec (s : t B) (o : op) : outcome (res * t B) :=
  match o with
  | OGet h =>
      let! (found, cells) := get s (Some h) (Some 0) (Some false) in
      Done (RGet found (default (0, false) cells), s)
  | OPut h m d => let! (r, s') := put s (Some h) m d in Done (RBool r, s')
  | ODel h => let! (r, s') := del s (Some h) in Done (RBool r, s')
  end.

Fixpoint run (s : t B) (ops : list op) : outcome (list res * t B) :=
  match ops with
  | [] => Done ([], s)
  | o :: ops' =>
      let! (r, s1) := exec s o in
      let! (rs, s2) := run s1 ops' in
      Done (r :: rs, s2)
  end.

Definition bucket_used (m : gmap UniqueHash (Z * bool)) (h : UniqueHash) : bool :=
  existsb (fun e => getAddressHash e.1 =? getAddressHash h) (map_to_list m).

Definition map_exec (m : gmap UniqueHash (Z * bool)) (o : op)
    : res * gmap UniqueHash (Z * bool) :=
  match o with
  | OGet h => (match m !! h with Some v => RGet true v | None => RGet false (0, false) end, m)
  | OPut h i d =>
      if decide (is_Some (m !! h) \/ Z.of_nat (size m) < cap - 1)
      then (RBool true, <[h := (i, d)]> m) else (RBool false, m)
  | ODel h => (RBool (bucket_used m h), delete h m)
  end.

Fixpoint map_run (m : gmap UniqueHash (Z * bool)) (ops : list op)
    : list res * gmap UniqueHash (Z * bool) :=
  match ops with
  | [] => ([], m)
  | o :: ops' =>
      let (r, m1) := map_exec m o in
      let (rs, m2) := map_run m1 ops' in
      (r :: rs, m2)
  end.

Definition represents (s : t B) (m : gmap UniqueHash (Z * bool)) : Prop :=
  exists C, models s C m.

Lemma bucket_used_spec m h r :
  (r = false <-> forall h', is_Some (m !! h') -> getAddressHash h' <> getAddressHash h) ->
  bucket_used m h = r.
Proof.
  intros Hr. unfold bucket_used. destruct r.
  - apply existsb_exists.
    assert (Hn : ~ Forall (fun e => getAddressHash e.1 <> getAddressHash h) (map_to_list m)).
    { intros Hf. apply Bool.diff_true_false, Hr. intros h' [v Hv].
      rewrite Forall_forall in Hf. by apply (Hf (h', v)), elem_of_map_to_list. }
    apply not_Forall_Exists in Hn; [|apply _].
    apply Exists_exists in Hn as ([h' v] & Hin & Hx). exists (h', v).
    split; [by apply list_elem_of_In|]. apply Z.eqb_eq. simpl in *.
    destruct (Z.eq_dec (getAddressHash h') (getAddressHash h)); [done|by destruct Hx].
  - apply not_true_iff_false. intros ([h' v] & Hin & Hx%Z.eqb_eq)%existsb_exists.
    apply list_elem_of_In, elem_of_map_to_list in Hin.
    by eapply (proj1 Hr eq_refl h').
Qed.

Lemma exec_refines s m o :
  represents s m ->
  exists s', exec s o = Done ((map_exec m o).1, s') /\ represents s' (map_exec m o).2.
Proof.
  intros [C M]. destruct o as [h|h i d|h]; simpl.
  - unfold get. rewrite (get_at_spec s C m h _ M). simpl.
    exists s. split; [by destruct (m !! h)|]. by exists C.
  - pose proof (put_at_spec s C m h i d M) as P.
    pose proof (free_count s C m M) as F. rewrite (mo_total _ _ _ M) in F.
    assert (E : headFreeBit s <> [] <-> Z.of_nat (size m) < cap - 1).
    { destruct (headFreeBit s); [unfold zlen in F; simpl in F; naive_solver lia|].
      rewrite zlen_cons in F. pose proof (zlen_nonneg l). split; [lia|done]. }
    destruct (decide (is_Some (m !! h) \/ headFreeBit s <> [])) as [D|D];
      rewrite E in D.
    + rewrite decide_True by done. destruct P as (s' & C' & -> & M'). simpl.
      exists s'. split; [done|]. by exists C'.
    + rewrite decide_False by done. rewrite P. simpl. exists s. split; [done|].
      by exists C.
  - destruct (del_at_spec s C m h M) as (r & s' & C' & -> & M' & Hr). simpl.
    exists s'. rewrite (bucket_used_spec m h r Hr). split; [done|]. by exists C'.
Qed.

(** C21. Class HashTable refines a bounded finite map: on every sequence of
    get, put and del the table returns what the map returns (put fails only
    when the key is new and all cap - 1 items are in use, del is false only
    when no key of that bucket is present), never faults, terminates, and
    still represents the map afterwards. *)
Theorem hashtable_refines_map (s : t B) (m : gmap UniqueHash (Z * bool)) (ops : list op) :
  represents s m ->
  exists s', run s ops = Done ((map_run m ops).1, s') /\
    represents s' (map_run m ops).2.
Proof.
  revert s m. induction ops as [|o ops IH]; intros s m R; simpl; [eauto|].
  destruct (exec_refines s m o R) as (s1 & -> & R1).
  destruct (map_exec m o) as [r m1]; simpl in *.
  destruct (IH _ _ R1) as (s2 & -> & R2).
  destruct (map_run m1 ops) as [rs m2]; simpl in *. eauto.
Qed.

Lemma saved_spec s C m :
  models s C m ->
  getSavedChainedItemsCount s = Z.of_nat (size m) /\ getTotalChainedItemsCount s = cap - 1.
Proof.
  intros M. pose proof (mo_size _ _ _ M) as Hsz. pose proof (mo_total _ _ _ M) as Ht.
  pose proof (bm_total_range (bitmapChainedItems s) (mo_ok _ _ _ M)) as Hr.
  pose proof (bm_free_law (bitmapChainedItems s) (mo_ok _ _ _ M)) as Hf.
  pose proof (free_count s C m M) as Hc. pose proof (zlen_nonneg (headFreeBit s)).
  unfold getSavedChainedItemsCount, getTotalChainedItemsCount. rewrite Hf, Hsz, Ht.
  rewrite !wrap_small by (unfold in_width; lia). lia.
Qed.

(** The counters: getSavedChainedItemsCount is the number of keys,
    getTotalChainedItemsCount the capacity, and getMaxLengthOfChain ends
    with a length that some bucket's chain has and none exceeds. *)
Theorem hashtable_counts s C m :
  models s C m ->
  getSavedChainedItemsCount s = Z.of_nat (size m) /\
  getTotalChainedItemsCount s = cap - 1 /\
  exists n, getMaxLengthOfChain s = Done n /\
    (forall a, 0 <= a < HASH_ITEMS_COUNT -> zlen (C a) <= n) /\
    (n = 0 \/ exists a, 0 <= a < HASH_ITEMS_COUNT /\ zlen (C a) = n).
Proof.
  intros M. destruct (saved_spec s C m M) as [Hs Ht]. split_and!; [done..|].
  unfold getMaxLengthOfChain.
  destruct (max_chain_spec s C m buckets 0 M ltac:(lia)) as (n & Hn & Hge & Hall & Hex).
  exists n. split; [done|]. split.
  - intros a Ha. apply Hall, elem_of_buckets, Ha.
  - destruct Hex as [Hz|(a & Ha & He)]; [left; exact Hz|right].
    exists a. split; [apply elem_of_buckets, Ha|exact He].
Qed.
End model.

Lemma foldl_push (l acc : list Z) : foldl (fun free i => i :: free) acc l = reverse l ++ acc.
Proof.
  revert acc. induction l as [|x l IH]; intros acc; simpl; [done|].
  by rewrite IH, reverse_cons, <- app_assoc.
Qed.

Lemma construct_represents heads bits items count :
  0 < count <= 2 ^ 32 -> count mod 8 = 0 ->
  (forall a it, heads !! a = Some it -> indexHead it = 0) ->
  zlen bits = count / 8 -> Forall (eq 0) bits -> zlen items = count ->
  exists s, construct (Some (heads, bits, items)) count = Done s /\
    represents count s ∅ /\ getTotalChainedItemsCount s = count - 1.
Proof.
  intros Hc H8 Hh Hbl Hb Hi. unfold construct.
  destruct (Bitmap.construct_spec count bits) as (b & -> & W & Hbytes & Ht); try done.
  { lia. } { eapply Forall_impl; [exact Hb|]. intros x <-. done. }
  simpl. destruct (Bitmap.set_spec b 0 W) as (b1 & -> & W1 & Ht1 & Ho1); [lia|]. simpl.
  rewrite (Bitmap.occupied_zero b) in Ho1 by (by rewrite Hbytes).
  eexists. split; [done|]. unfold getTotalChainedItemsCount; simpl. unfold Bitmap.countTotal.
  rewrite Ht1, Ht. split; [|apply wrap_small; unfold in_width; lia].
  exists (fun _ => []). rewrite foldl_push, app_nil_r.
  assert (Hocc : forall p, p ∈ Bitmap.occupied b1 <-> p = 0) by (rewrite Ho1; set_solver).
  split; simpl; unfold Bitmap.countTotal; try rewrite Ht1, Ht; try done.
  - intros a. unfold head_of, hash_item. simpl. destruct (heads !! a) eqn:E; simpl; eauto.
  - intros. constructor.
  - set_solver.
  - set_solver.
  - intros h v. rewrite lookup_empty. set_solver.
  - intros p. rewrite Hocc. set_solver.
  - intros p. rewrite elem_of_reverse, elem_of_seqZ, Hocc. lia.
  - rewrite reverse_Permutation. apply NoDup_seqZ.
  - rewrite Ho1. done.
Qed.

(** On a zeroed buffer whose count is a positive multiple of eight, the
    constructor succeeds and the table is the empty map with count - 1 usable
    items. *)
Theorem hashtable_construct_empty heads bits items count :
  0 < count <= 2 ^ 32 -> count mod 8 = 0 ->
  (forall a it, heads !! a = Some it -> indexHead it = 0) ->
  zlen bits = count / 8 -> Forall (eq 0) bits -> zlen items = count ->
  exists s, construct (Some (heads, bits, items)) count = Done s /\
    represents count s ∅ /\ getTotalChainedItemsCount s = count - 1.
Proof. apply construct_represents. Qed.

(** *** A concrete table of eight items; buckets of [h1] and [h2] collide. *)
Definition h1 : UniqueHash := mkUniqueHash 1 2 3 4.
Definition h2 : UniqueHash := mkUniqueHash 1048577 2 3 4.
Definition blank : ChainedItem := mkChainedItem 0 0 false (mkUniqueHash 0 0 0 0).
Definition sample : t Bitmap.t :=
  mk (Bitmap.mk [128] 7 8) ∅ (replicate 8 blank) [7; 6; 5; 4; 3; 2; 1].

Lemma sample_constructed : construct (Some (∅, [0], replicate 8 blank)) 8 = Done sample.
Proof. vm_compute. reflexivity. Qed.

Lemma hashtable_construct_empty_witness :
  exists s, construct (Some (∅, [0], replicate 8 blank)) 8 = Done s /\
    getTotalChainedItemsCount s = 7.
Proof.
  destruct (hashtable_construct_empty ∅ [0] (replicate 8 blank) 8)
    as (s & Hs & _ & Hn); try done; try lia.
  { repeat constructor. }
  exists s. split; [exact Hs|exact Hn].
Defined.

Lemma sample_represents : represents 8 sample ∅.
Proof.
  destruct (construct_represents ∅ [0] (replicate 8 blank) 8)
    as (s & Hs & R & _); try done; try lia.
  { repeat constructor. }
  rewrite sample_constructed in Hs. injection Hs as <-. exact R.
Qed.

Lemma hashtable_refines_map_witness :
  exists s', run sample [OPut h1 5 false; OPut h2 9 true; OGet h1; ODel h1; OGet h1; OGet h2]
    = Done ([RBool true; RBool true; RGet true (5, false); RBool true;
             RGet false (0, false); RGet true (9, true)], s').
Proof.
  destruct (hashtable_refines_map 8 sample ∅
    [OPut h1 5 false; OPut h2 9 true; OGet h1; ODel h1; OGet h1; OGet h2]
    sample_represents) as (s' & H & _).
  exists s'. etrans; [exact H|]. vm_compute. reflexivity.
Defined.

Lemma hashtable_counts_witness :
  exists C, models 8 sample C ∅ /\ getSavedChainedItemsCount sample = 0.
Proof.
  destruct sample_represents as [C M]. exists C. split; [exact M|].
  exact (proj1 (hashtable_counts 8 sample C ∅ M)).
Defined.

(** The functions on a path are those on the path's unique hash, whatever
    SHA-256 computes. *)
Lemma path_is_hash (CalculateDigest : list Z -> UniqueHash) {B} `{PositionSet B}
    (s : t B) p m d m0 d0 :
  get_path CalculateDigest s (Some p) m0 d0 = get s (Some (CalculateDigest p)) m0 d0 /\
  put_path CalculateDigest s (Some p) m d = put s (Some (CalculateDigest p)) m d /\
  del_path CalculateDigest s (Some p) = del s (Some (CalculateDigest p)).
Proof. split_and!; reflexivity. Qed.
End HashTable.
