(* ===== verification/TableModel.v ===== *)
(** * apps/fs/include/table.h: tables of fixed-size items

    [Module Table] models class Table<T>: an array of items, a bitmap of the
    occupied positions and a linked chain of FreeBit cells.  The cells live in a
    heap, so that free() and dangling pointers are visible: the constructor
    links the last cell back to the first, create(index) pops a cell without
    freeing it and create(index, item) frees it.  The mutex is a flag: create
    returns without unlocking it when the chain is empty.

    [table_refines_map] is the contract of the tables of metadata, which use
    create(index, item), get, put and remove; [table_block_ring] that of the
    table of blocks, which uses create(index) only. *)

From S2P Require Import Prelude BitmapModel.

Module Table.

(** FreeBit; address 0 is NULL. *)
Record FreeBit := mkFree { position : Z; nextFreeBit : Z }.

Section ops.
Context {B : Type} `{PositionSet B} {T : Type}.

Record t := mk {
  bitmapItems : B;
  items : list T;
  headFreeBit : Z;
  heap : gmap Z FreeBit;       (* the allocated cells, by address *)
  brk : Z;                     (* the next address malloc returns *)
  mutexBitmapItems : bool      (* held *)
}.

Definition with_head (s : t) (h : Z) : t :=
  mk (bitmapItems s) (items s) h (heap s) (brk s) (mutexBitmapItems s).
Definition with_heap (s : t) (h : gmap Z FreeBit) : t :=
  mk (bitmapItems s) (items s) (headFreeBit s) h (brk s) (mutexBitmapItems s).
Definition with_bitmap (s : t) (b : B) : t :=
  mk b (items s) (headFreeBit s) (heap s) (brk s) (mutexBitmapItems s).
Definition with_items (s : t) (l : list T) : t :=
  mk (bitmapItems s) l (headFreeBit s) (heap s) (brk s) (mutexBitmapItems s).
Definition hold (s : t) : t :=
  mk (bitmapItems s) (items s) (headFreeBit s) (heap s) (brk s) true.

Definition deref (s : t) (p : Z) : outcome FreeBit :=
  if p =? 0 then Fault NullDeref else of_option UseAfterFree (heap s !! p).

(** mutexBitmapItems.lock() ... unlock() around a body. *)
Definition locked {A} (s : t) (body : t -> outcome A) : outcome A :=
  if mutexBitmapItems s then Fault LockHeld else body s.

(** create(index); [None] is a null pointer, the second result *index. *)
Definition create_index (s : t) (index : option Z) : outcome (bool * option Z * t) :=
  match index with
  | None => Done (false, None, s)
  | Some _ =>
      locked s (fun s =>
        if headFreeBit s =? 0 then Done (false, index, hold s)
        else
          let! cell := deref s (headFreeBit s) in
          let s1 := with_head s (nextFreeBit cell) in
          let! (ok, bm) := bm_set (bitmapItems s1) (position cell) in
          Done (ok, Some (position cell), with_bitmap s1 bm))
  end.

(** create(index, item) *)
Definition create (s : t) (index : option Z) (item : option T)
    : outcome (bool * option Z * t) :=
  match index, item with
  | Some _, Some v =>
      locked s (fun s =>
        if headFreeBit s =? 0 then Done (false, index, hold s)
        else
          let! cell := deref s (headFreeBit s) in
          let s1 := with_head s (nextFreeBit cell) in
          let s2 := with_heap s1 (delete (headFreeBit s) (heap s1)) in
          let! (ok, bm) := bm_set (bitmapItems s2) (position cell) in
          let s3 := with_bitmap s2 bm in
          if (ok : bool) then
            let! l := store (items s3) (position cell) v in
            Done (true, Some (position cell), with_items s3 l)
          else Done (false, Some (position cell), s3))
  | _, _ => Done (false, index, s)
  end.

(** The check every access makes: the bit of [index] is there and set. *)
Definition occupied (s : t) (index : Z) : outcome bool :=
  let! (ok, status) := bm_get (bitmapItems s) index (Some false) in
  Done (ok && default false status).

(** get(index, item): the buffer *item before and after. *)
Definition get (s : t) (index : Z) (item : option T) : outcome (bool * option T) :=
  match item with
  | None => Done (false, None)
  | Some _ =>
      locked s (fun s =>
        let! b := occupied s index in
        if (b : bool) then let! v := load (items s) index in Done (true, Some v)
        else Done (false, item))
  end.

(** get(index, item, address): an address is the index of the item it points to. *)
Definition get_address (s : t) (index : Z) (item : option T) (address : Z)
    : outcome (bool * option T * Z) :=
  match item with
  | None => Done (false, None, address)
  | Some _ =>
      locked s (fun s =>
        let! b := occupied s index in
        if (b : bool) then let! v := load (items s) index in Done (true, Some v, index)
        else Done (false, item, address))
  end.

(** put(index, item) *)
Definition put (s : t) (index : Z) (item : option T) : outcome (bool * t) :=
  match item with
  | None => Done (false, s)
  | Some v =>
      locked s (fun s =>
        let! b := occupied s index in
        if (b : bool) then
          let! l := store (items s) index v in Done (true, with_items s l)
        else Done (false, s))
  end.

(** put(index, item, address) only reports the address. *)
Definition put_address (s : t) (index : Z) (item : option T) (address : Z)
    : outcome (bool * Z) :=
  locked s (fun s =>
    let! b := occupied s index in
    if (b : bool) then Done (true, index) else Done (false, address)).

Definition remove (s : t) (index : Z) : outcome (bool * t) :=
  locked s (fun s =>
    let! b := occupied s index in
    if (b : bool) then
      let! (ok, bm) := bm_clear (bitmapItems s) index in
      if (ok : bool) then
        Done (true, mk bm (items s) (brk s)
                (<[brk s := mkFree index (headFreeBit s)]> (heap s)) (brk s + 1)
                (mutexBitmapItems s))
      else Done (false, with_bitmap s bm)
    else Done (false, s)).

Definition countSavedItems (s : t) : Z :=
  wrap 64 (bm_countTotal (bitmapItems s) - bm_countFree (bitmapItems s)).
Definition countTotalItems (s : t) : Z := bm_countTotal (bitmapItems s).
End ops.
Arguments t B T : clear implicits.

(** *** The constructor *)

(** The chain under construction: headFreeBit, the cells, the next address and
    the_last. *)
Record chain_state := mkChain {
  c_head : Z; c_heap : gmap Z FreeBit; c_brk : Z; c_last : Z
}.

(** The body of the two loops for byte [index] and bit [offset] of the buffer. *)
Definition visit (buffer : list Z) (p : Z) (c : chain_state) : outcome chain_state :=
  let index := p / 8 in
  let offset := p mod 8 in
  let! byte := load buffer index in
  if Z.land byte (Z.shiftl 1 (7 - offset)) =? 0 then
    let a := c_brk c in
    Done (mkChain a (<[a := mkFree p (c_head c)]> (c_heap c)) (a + 1)
            (if c_last c =? 0 then a else c_last c))
  else Done c.

Fixpoint build (buffer : list Z) (ps : list Z) (c : chain_state) : outcome chain_state :=
  match ps with
  | [] => Done c
  | p :: ps' => let! c' := visit buffer p c in build buffer ps' c'
  end.

(** for (int index = count / 8 - 1; index >= 0; index--)
      for (int offset = 7; offset >= 0; offset--) *)
Definition scan (count : Z) : list Z :=
  reverse (seqZ 0 (8 * (signed 32 (count / 8 - 1) + 1))).

(** if (the_last != nullptr) the_last->nextFreeBit = headFreeBit; *)
Definition close (c : chain_state) : gmap Z FreeBit :=
  if c_last c =? 0 then c_heap c
  else alter (fun cell => mkFree (position cell) (c_head c)) (c_last c) (c_heap c).

(** [decode] reads an item of [sizeof_T] bytes from memory. *)
Definition construct {T} (sizeof_T : Z) (decode : list Z -> T) (buffer : option (list Z))
    (count : Z) : outcome (t Bitmap.t T) :=
  match buffer with
  | None => Fault ProcessExit
  | Some bytes =>
      if negb (count mod 8 =? 0) then Fault ProcessExit
      else
        let! bm := Bitmap.construct count
          (Some (take (Z.to_nat (count / 8)) (drop (Z.to_nat (count * sizeof_T)) bytes))) in
        let! c := build bytes (scan count) (mkChain 0 ∅ 1 0) in
        Done (mk bm
          ((fun i => decode (take (Z.to_nat sizeof_T) (drop (Z.to_nat (i * sizeof_T)) bytes)))
             <$> seqZ 0 count)
          (c_head c) (close c) (c_brk c) false)
  end.

Definition sizeBufferUsed (sizeof_T count : Z) : Z := wrap 64 (count / 8 + count * sizeof_T).

(** ** Abstraction: a finite map from positions to items *)

(** The cells from address [a] until address [d] hold the positions [ps]. *)
Fixpoint chain (h : gmap Z FreeBit) (a : Z) (ps : list Z) (d : Z) : Prop :=
  match ps with
  | [] => a = d
  | p :: ps' => a <> 0 /\ exists n, h !! a = Some (mkFree p n) /\ chain h n ps' d
  end.

(** A cell whose position is not in the chain does not matter to it. *)
Lemma chain_delete h a ps d b q n :
  h !! b = Some (mkFree q n) -> q ∉ ps -> chain h a ps d -> chain (delete b h) a ps d.
Proof.
  intros Hb. revert a. induction ps as [|p ps IH]; intros a Hq; [done|].
  intros (Ha & n' & Hc & Hch). split; [done|]. exists n'.
  apply not_elem_of_cons in Hq as [Hne Hq]. split; [|auto].
  rewrite lookup_delete_ne; [done|]. intros ->. congruence.
Qed.

Lemma chain_insert h a ps d b c :
  h !! b = None -> chain h a ps d -> chain (<[b := c]> h) a ps d.
Proof.
  intros Hb. revert a. induction ps as [|p ps IH]; intros a; [done|].
  intros (Ha & n' & Hc & Hch). split; [done|]. exists n'. split; [|auto].
  rewrite lookup_insert_ne; [done|]. intros ->. congruence.
Qed.

Section model.
Context {B : Type} `{PositionSet B} {T : Type} (cap : Z).

(** The chain ends in the address [d] of the first cell of all, which is freed
    as soon as an item has been created. *)
Record represents (s : t B T) (m : gmap Z T) : Prop := {
  re_mutex : mutexBitmapItems s = false;
  re_ok : bm_ok (bitmapItems s);
  re_total : bm_countTotal (bitmapItems s) = cap;
  re_cap : 0 < cap;
  re_len : zlen (items s) = cap;
  re_dom : bm_occupied (bitmapItems s) = dom m;
  re_items i v : m !! i = Some v -> zget (items s) i = Some v;
  re_brk : 0 < brk s /\ forall a, brk s <= a -> heap s !! a = None;
  re_chain : exists fr d,
    chain (heap s) (headFreeBit s) fr d /\ NoDup fr /\
    (forall p, p ∈ fr <-> 0 <= p < cap /\ m !! p = None) /\
    0 < d < brk s /\ (heap s !! d = None \/ m = ∅ /\ d = headFreeBit s)
}.

Lemma represents_range s m i v : represents s m -> m !! i = Some v -> 0 <= i < cap.
Proof.
  intros R Hi. rewrite <- (re_total _ _ R). apply bm_occupied_range.
  rewrite (re_dom _ _ R). by apply elem_of_dom_2 in Hi.
Qed.

Lemma occupied_spec s m i :
  represents s m -> 0 <= i ->
  occupied s i = Done (bool_decide (is_Some (m !! i))).
Proof.
  intros R Hi. unfold occupied. rewrite bm_get_law by (apply R || done).
  rewrite (re_dom _ _ R), (re_total _ _ R).
  destruct (Z.ltb_spec i cap) as [Hc|Hc]; cbn.
  - f_equal. apply bool_decide_ext. apply elem_of_dom.
  - rewrite bool_decide_eq_false_2; [done|].
    intros [v Hv]. pose proof (represents_range _ _ _ _ R Hv). lia.
Qed.

(** All positions are taken exactly when the map has [cap] entries. *)
Lemma full_size s m fr :
  represents s m -> NoDup fr -> (forall p, p ∈ fr <-> 0 <= p < cap /\ m !! p = None) ->
  Z.of_nat (size m) + zlen fr = cap.
Proof.
  intros R Hnd Hfr.
  assert (E : (list_to_set (seqZ 0 cap) : gset Z) = dom m ∪ list_to_set fr).
  { apply set_eq. intros p. rewrite elem_of_union, !elem_of_list_to_set, elem_of_seqZ, Hfr.
    split.
    - intros Hp. destruct (m !! p) as [v|] eqn:E; [left; by apply elem_of_dom_2 in E|right].
      split; [lia|done].
    - intros [Hp|[Hp _]]; [|lia]. apply elem_of_dom in Hp as [v Hv].
      pose proof (represents_range _ _ _ _ R Hv). lia. }
  apply (f_equal size) in E. rewrite size_union in E.
  - rewrite !size_list_to_set in E by (apply NoDup_seqZ || done).
    rewrite size_dom, length_seqZ in E. pose proof (re_cap _ _ R). unfold zlen. lia.
  - intros p Hp Hq. apply elem_of_dom in Hp as [v Hv]. apply elem_of_list_to_set in Hq.
    apply Hfr in Hq as [_ Hn]. congruence.
Qed.

(** ** The operations *)

Lemma table_get_spec s m i x :
  represents s m -> 0 <= i ->
  get s i (Some x) = Done (match m !! i with Some v => (true, Some v) | None => (false, Some x) end).
Proof.
  intros R Hi. unfold get, locked. rewrite (re_mutex _ _ R), (occupied_spec _ _ _ R Hi). cbn.
  destruct (m !! i) as [v|] eqn:E; [|done].
  rewrite (bool_decide_eq_true_2 (is_Some (Some v))) by eauto.
  by rewrite (load_in_range _ _ _ (re_items _ _ R _ _ E)).
Qed.

(** Overwriting an item in place, through put or through its address. *)
Lemma represents_store s m i v w :
  represents s m -> m !! i = Some w ->
  represents (with_items s (zset (items s) i v)) (<[i := v]> m).
Proof.
  intros R E. pose proof (represents_range _ _ _ _ R E) as Hr.
  destruct R as [R1 R2 R3 R4 R5 R6 R7 R8 (fr & d & Hc & Hn & Hf & Hd & Hx)].
  split; cbn; try done.
  - by rewrite zlen_zset.
  - rewrite dom_insert_L. rewrite R6. apply elem_of_dom_2 in E. set_solver.
  - intros j u. destruct (decide (j = i)) as [->|Hne].
    + rewrite lookup_insert_eq, zget_zset_eq by (rewrite R5; done). done.
    + rewrite lookup_insert_ne, zget_zset_ne by done. apply R7.
  - exists fr, d. split_and!; try done; try lia.
    + intros p. rewrite Hf. destruct (decide (p = i)) as [->|Hne].
      * rewrite lookup_insert_eq, E. naive_solver.
      * by rewrite lookup_insert_ne.
    + destruct Hx as [Hx|[-> Hx]]; [by left|]. by rewrite lookup_empty in E.
Qed.

Lemma put_spec s m i v :
  represents s m -> 0 <= i ->
  match m !! i with
  | Some _ => exists s', put s i (Some v) = Done (true, s') /\ represents s' (<[i := v]> m)
  | None => put s i (Some v) = Done (false, s)
  end.
Proof.
  intros R Hi. unfold put, locked. rewrite (re_mutex _ _ R), (occupied_spec _ _ _ R Hi). cbn.
  destruct (m !! i) as [w|] eqn:E; [|done].
  rewrite (bool_decide_eq_true_2 (is_Some (Some w))) by eauto.
  pose proof (represents_range _ _ _ _ R E) as Hr.
  rewrite store_in_range by (rewrite (re_len _ _ R); done).
  eexists. split; [reflexivity|]. by eapply represents_store.
Qed.

Lemma get_address_spec s m i x a v :
  represents s m -> m !! i = Some v ->
  get_address s i (Some x) a = Done (true, Some v, i).
Proof.
  intros R E. pose proof (represents_range _ _ _ _ R E) as Hr.
  unfold get_address, locked. rewrite (re_mutex _ _ R), (occupied_spec _ _ _ R) by lia. cbn.
  rewrite E, (bool_decide_eq_true_2 (is_Some (Some v))) by eauto.
  by rewrite (load_in_range _ _ _ (re_items _ _ R _ _ E)).
Qed.

Lemma remove_spec s m i :
  represents s m -> 0 <= i ->
  match m !! i with
  | Some _ => exists s', remove s i = Done (true, s') /\ represents s' (delete i m)
  | None => remove s i = Done (false, s)
  end.
Proof.
  intros R Hi. unfold remove, locked. rewrite (re_mutex _ _ R), (occupied_spec _ _ _ R Hi). cbn.
  destruct (m !! i) as [w|] eqn:E; [|done].
  rewrite (bool_decide_eq_true_2 (is_Some (Some w))) by eauto.
  pose proof (represents_range _ _ _ _ R E) as Hr.
  destruct (bm_clear_law (bitmapItems s) i) as (bm & -> & Hok & Ht & Ho);
    [apply R|rewrite (re_total _ _ R); done|].
  eexists. split; [reflexivity|]. destruct R as [R1 R2 R3 R4 R5 R6 R7 [Rb Rh] (fr & d & Hc & Hn & Hf & Hd & Hx)].
  split; cbn; try done; [congruence|..].
  - by rewrite Ho, R6, dom_delete_L.
  - intros j u Hj. apply lookup_delete_Some in Hj as [_ Hj]. auto.
  - split; [lia|]. intros a Ha. rewrite lookup_insert_ne by lia. apply Rh. lia.
  - exists (i :: fr), d. split_and!; [split; [lia|]| | |lia|lia|].
    + exists (headFreeBit s). rewrite lookup_insert_eq. split; [done|].
      apply chain_insert; [apply Rh; lia|done].
    + constructor; [|done]. rewrite Hf. naive_solver.
    + intros p. rewrite elem_of_cons, Hf. destruct (decide (p = i)) as [->|Hne].
      * rewrite lookup_delete_eq. naive_solver.
      * rewrite lookup_delete_ne by done. naive_solver.
    + left. rewrite lookup_insert_ne by lia. destruct Hx as [Hx|[-> _]]; [done|].
      by rewrite lookup_empty in E.
Qed.

(** A full table has lost its chain: create follows the dangling pointer. *)
Lemma create_spec s m x v :
  represents s m ->
  if bool_decide (Z.of_nat (size m) = cap)
  then create s (Some x) (Some v) = Fault UseAfterFree
  else exists p s', create s (Some x) (Some v) = Done (true, Some p, s') /\
    0 <= p < cap /\ m !! p = None /\ represents s' (<[p := v]> m).
Proof.
  intros R. pose proof R as [R1 R2 R3 R4 R5 R6 R7 [Rb Rh] (fr & d & Hc & Hn & Hf & Hd & Hx)].
  pose proof (full_size _ _ _ R Hn Hf) as Hsz.
  unfold create, locked, deref. rewrite R1.
  destruct fr as [|p fr].
  - rewrite bool_decide_eq_true_2 by (unfold zlen in Hsz; simpl in Hsz; lia).
    cbn in Hc. rewrite Hc, (proj2 (Z.eqb_neq d 0)) by lia.
    destruct Hx as [-> |[-> _]]; [done|]. rewrite map_size_empty in Hsz.
    unfold zlen in Hsz. simpl in Hsz. lia.
  - rewrite bool_decide_eq_false_2 by (unfold zlen in Hsz; simpl in Hsz; lia).
    destruct Hc as (Ha & n & Hcell & Hch).
    rewrite (proj2 (Z.eqb_neq (headFreeBit s) 0)), Hcell by done. cbn.
    destruct (proj1 (Hf p)) as [Hp Hmp]; [by left|].
    destruct (bm_set_law (bitmapItems s) p) as (bm & -> & Hok & Ht & Ho); [done|rewrite R3; done|].
    cbn. rewrite store_in_range by (rewrite R5; done). cbn.
    apply NoDup_cons in Hn as [Hpn Hn].
    eexists p, _. split_and!; [reflexivity|lia|lia|done|].
    split; cbn; try done; [congruence|by rewrite zlen_zset|..].
    + rewrite Ho, R6, dom_insert_L. set_solver.
    + intros j u. destruct (decide (j = p)) as [->|Hne].
      * rewrite lookup_insert_eq, zget_zset_eq by (rewrite R5; done). done.
      * rewrite lookup_insert_ne, zget_zset_ne by done. apply R7.
    + split; [done|]. intros a Hle. rewrite lookup_delete_None. auto.
    + exists fr, d. split_and!; try lia; try done.
      * by eapply chain_delete.
      * intros q. specialize (Hf q). rewrite elem_of_cons in Hf.
        destruct (decide (q = p)) as [->|Hne].
        -- rewrite lookup_insert_eq. naive_solver.
        -- rewrite lookup_insert_ne by done. naive_solver.
      * left. rewrite lookup_delete_None. destruct Hx as [Hx|[_ ->]]; auto.
Qed.
End model.

(** ** The chain the constructor builds on a zeroed buffer *)

(** After the positions from [cap - 1] down to [j]: cell [a] holds [cap - a]. *)
Record built (cap j : Z) (c : chain_state) : Prop := {
  bu_head : c_head c = if j =? cap then 0 else cap - j;
  bu_brk : c_brk c = cap - j + 1;
  bu_last : c_last c = if j =? cap then 0 else 1;
  bu_heap a : c_heap c !! a =
    if decide (1 <= a <= cap - j) then Some (mkFree (cap - a) (a - 1)) else None
}.

Lemma visit_zero cap j buffer c :
  0 <= j < cap -> zget buffer (j / 8) = Some 0 -> built cap (j + 1) c ->
  exists c', visit buffer j c = Done c' /\ built cap j c'.
Proof.
  intros Hj Hb [Hh Hr Hl Hp]. unfold visit. rewrite (load_in_range _ _ _ Hb). cbn.
  eexists. split; [reflexivity|].
  split; cbn; rewrite ?(proj2 (Z.eqb_neq j cap)) by lia; [lia|lia|..].
  - rewrite Hl. destruct (Z.eqb_spec (j + 1) cap); [cbn|done]. lia.
  - intros a. rewrite Hr, Hh. destruct (decide (a = cap - (j + 1) + 1)) as [->|Hne].
    + rewrite lookup_insert_eq, decide_True by lia. do 2 f_equal; [lia|].
      destruct (Z.eqb_spec (j + 1) cap); lia.
    + rewrite lookup_insert_ne, Hp by done. apply decide_ext. lia.
Qed.

Lemma build_zero cap n buffer c :
  Z.of_nat n <= cap -> (forall j, 0 <= j < Z.of_nat n -> zget buffer (j / 8) = Some 0) ->
  built cap (Z.of_nat n) c ->
  exists c', build buffer (reverse (seqZ 0 (Z.of_nat n))) c = Done c' /\ built cap 0 c'.
Proof.
  revert c. induction n as [|n IH]; intros c Hn Hz Hb; [by exists c|].
  replace (seqZ 0 (Z.of_nat (S n))) with (seqZ 0 (Z.of_nat n) ++ [Z.of_nat n]).
  2:{ rewrite Nat2Z.inj_succ. unfold Z.succ. rewrite seqZ_app by lia. by rewrite (seqZ_cons (0 + Z.of_nat n)) by lia. }
  rewrite reverse_snoc. cbn [build].
  destruct (visit_zero cap (Z.of_nat n) buffer c) as (c1 & -> & Hb1).
  - lia.
  - apply Hz. lia.
  - by replace (Z.of_nat n + 1) with (Z.of_nat (S n)) by lia.
  - cbn. apply IH; [lia| |done]. intros j Hj. apply Hz. lia.
Qed.

(** The chain is closed to a ring: the cell of [p] leads to that of [p + 1]. *)
Definition ring_cells (cap : Z) (h : gmap Z FreeBit) : Prop :=
  forall p, 0 <= p < cap -> h !! (cap - p) = Some (mkFree p (cap - (p + 1) mod cap)).

Lemma close_ring cap c : 0 < cap -> built cap 0 c -> ring_cells cap (close c).
Proof.
  intros Hc [Hh _ Hl Hp] p Hr. unfold close. rewrite Hl, (proj2 (Z.eqb_neq 0 cap)) by lia. cbn.
  rewrite Hh, (proj2 (Z.eqb_neq 0 cap)) by lia.
  destruct (decide (p = cap - 1)) as [->|Hne].
  - replace (cap - (cap - 1)) with 1 by lia. rewrite lookup_alter_eq, Hp, decide_True by lia. cbn.
    do 2 f_equal. replace (cap - 1 + 1) with cap by lia. rewrite Z_mod_same_full. lia.
  - rewrite lookup_alter_ne, Hp, decide_True by lia. do 2 f_equal; [lia|].
    rewrite Z.mod_small by lia. lia.
Qed.

Lemma close_outside cap c a : 0 < cap -> built cap 0 c -> cap < a -> close c !! a = None.
Proof.
  intros Hc [_ _ Hl Hp] Ha. unfold close. rewrite Hl, (proj2 (Z.eqb_neq 0 cap)) by lia. cbn.
  rewrite lookup_alter_ne, Hp, decide_False by lia. done.
Qed.

(** A ring is a chain of all positions from 0 that ends where it starts. *)
Lemma ring_chain cap h n :
  0 < cap -> ring_cells cap h -> Z.of_nat n <= cap ->
  chain h (cap - (cap - Z.of_nat n) mod cap) (seqZ (cap - Z.of_nat n) (Z.of_nat n)) cap.
Proof.
  intros Hc Hr. induction n as [|n IH]; intros Hn.
  - change (cap - (cap - 0) mod cap = cap). rewrite Z.sub_0_r, Z_mod_same_full. lia.
  - rewrite seqZ_cons by lia. cbn [chain].
    rewrite (Z.mod_small (cap - Z.of_nat (S n)) cap) by lia.
    split; [lia|]. eexists. split; [apply Hr; lia|].
    replace (cap - Z.of_nat (S n) + 1) with (cap - Z.of_nat n) by lia.
    replace (Z.succ (cap - Z.of_nat (S n))) with (cap - Z.of_nat n) by lia.
    replace (Z.pred (Z.of_nat (S n))) with (Z.of_nat n) by lia. apply IH. lia.
Qed.

(** ** The table of blocks: create(index) alone *)

(** The table after [k] calls of create(index). *)
Record ring {T} (cap k : Z) (s : t Bitmap.t T) : Prop := {
  ri_mutex : mutexBitmapItems s = false;
  ri_ok : bm_ok (bitmapItems s);
  ri_total : bm_countTotal (bitmapItems s) = cap;
  ri_head : headFreeBit s = cap - k mod cap;
  ri_cells : ring_cells cap (heap s)
}.

Lemma ring_step {T} cap k (s : t Bitmap.t T) x :
  0 < cap -> 0 <= k -> ring cap k s ->
  exists s', create_index s (Some x) = Done (true, Some (k mod cap), s') /\
    ring cap (k + 1) s' /\ items s' = items s.
Proof.
  intros Hc Hk [Hm Ho Ht Hh Hr]. unfold create_index, locked, deref. rewrite Hm.
  pose proof (Z.mod_pos_bound k cap Hc) as Hb.
  rewrite (proj2 (Z.eqb_neq (headFreeBit s) 0)) by lia.
  rewrite Hh, (Hr (k mod cap)) by lia. cbn.
  destruct (bm_set_law (bitmapItems s) (k mod cap)) as (bm & Hset & Hok & Ht' & _); [done|lia|].
  cbn in Hset. rewrite Hset. cbn.
  eexists. split; [reflexivity|]. split; [|done].
  split; cbn; try done; [cbn in Ht', Ht; congruence|].
  rewrite Zplus_mod_idemp_l. done.
Qed.

Fixpoint create_blocks {T} (n : nat) (s : t Bitmap.t T) : outcome (list Z * t Bitmap.t T) :=
  match n with
  | O => Done ([], s)
  | S n' =>
      let! (ok, index, s1) := create_index s (Some 0) in
      let! (rest, s2) := create_blocks n' s1 in
      Done ((if (ok : bool) then default 0 index else -1) :: rest, s2)
  end.

Lemma create_blocks_spec {T} cap n k (s : t Bitmap.t T) :
  0 < cap -> 0 <= k -> ring cap k s ->
  exists s', create_blocks n s =
    Done ((fun i => i mod cap) <$> seqZ k (Z.of_nat n), s') /\ ring cap (k + Z.of_nat n) s'.
Proof.
  intros Hc. revert k s. induction n as [|n IH]; intros k s Hk Hr.
  - exists s. cbn. split; [done|]. by rewrite Z.add_0_r.
  - destruct (ring_step cap k s 0 Hc Hk Hr) as (s1 & Hs & Hr1 & _).
    destruct (IH (k + 1) s1 ltac:(lia) Hr1) as (s2 & Hs2 & Hr2).
    exists s2. cbn [create_blocks]. rewrite Hs. cbn. rewrite Hs2. cbn.
    rewrite (seqZ_cons k) by lia. cbn.
    replace (Z.succ k) with (k + 1) by lia.
    replace (Z.pred (Z.of_nat (S n))) with (Z.of_nat n) by lia. split; [done|].
    by replace (k + Z.of_nat (S n)) with (k + 1 + Z.of_nat n) by lia.
Qed.

(** ** The constructor *)

Lemma construct_zero {T} sizeof_T (decode : list Z -> T) bytes count :
  0 < count <= 2 ^ 31 -> count mod 8 = 0 -> 0 < sizeof_T ->
  count * sizeof_T + count / 8 <= zlen bytes -> Forall (eq 0) bytes ->
  exists s, construct sizeof_T decode (Some bytes) count = Done s /\
    represents count s ∅ /\ ring count 0 s.
Proof.
  intros Hc H8 Hs Hl Hz. unfold construct. rewrite H8. cbn -[Bitmap.construct].
  set (bits := take (Z.to_nat (count / 8)) (drop (Z.to_nat (count * sizeof_T)) bytes)).
  assert (Hbits : Forall (eq 0) bits) by (by apply Forall_take, Forall_drop).
  destruct (Bitmap.construct_spec count bits) as (bm & -> & Hok & Hb & Ht);
    [lia|done| |eapply Forall_impl; [exact Hbits|intros ? <-; unfold in_width; lia]|].
  { unfold bits, zlen in *. rewrite length_take, length_drop. nia. }
  cbn. unfold scan. rewrite signed_small by lia.
  replace (8 * (count / 8 - 1 + 1)) with (Z.of_nat (Z.to_nat count)) by lia.
  destruct (build_zero count (Z.to_nat count) bytes (mkChain 0 ∅ 1 0)) as (c & -> & Hbu).
  - lia.
  - intros j Hj. assert (Hr : 0 <= j / 8 < zlen bytes) by nia.
    destruct (zget_is_Some _ _ Hr) as [b E]. rewrite E. f_equal. symmetry.
    exact (Forall_zget _ _ _ _ Hz E).
  - replace (Z.of_nat (Z.to_nat count)) with count by lia.
    split; cbn; rewrite ?Z.eqb_refl; try lia. intros a. rewrite lookup_empty, decide_False by lia. done.
  - cbn. eexists. split; [reflexivity|].
    pose proof (close_ring count c ltac:(lia) Hbu) as Hring.
    assert (Hhead : c_head c = count).
    { rewrite (bu_head _ _ _ Hbu), (proj2 (Z.eqb_neq 0 count)) by lia. lia. }
    assert (Hocc : Bitmap.occupied bm = ∅) by (apply Bitmap.occupied_zero; by rewrite Hb).
    split; (split; cbn; try done; try lia).
    + unfold zlen. rewrite length_fmap, length_seqZ. lia.
    + rewrite (bu_brk _ _ _ Hbu). split; [lia|]. intros a Ha.
      apply (close_outside count); [lia|done|lia].
    + exists (seqZ 0 count), count. rewrite Hhead, (bu_brk _ _ _ Hbu). split_and!; try lia.
      * pose proof (ring_chain count (close c) (Z.to_nat count) ltac:(lia) Hring ltac:(lia)) as Hch.
        replace (Z.of_nat (Z.to_nat count)) with count in Hch by lia.
        by rewrite Z.sub_diag, Z.mod_0_l, Z.sub_0_r in Hch by lia.
      * apply NoDup_seqZ.
      * intros p. rewrite elem_of_seqZ, lookup_empty. split; [intros; split; [lia|done]|lia].
      * by right.
    + rewrite Hhead, Z.mod_0_l by lia. lia.
Qed.

(** ** Theorems *)

Lemma count_saved {B} `{PositionSet B} {T} cap (s : t B T) m :
  represents cap s m -> countSavedItems s = Z.of_nat (size m).
Proof.
  intros R. unfold countSavedItems.
  rewrite bm_free_law by apply R. rewrite (re_dom _ _ _ R), size_dom.
  pose proof (bm_total_range _ (re_ok _ _ _ R)) as Ht. rewrite (re_total _ _ _ R) in *.
  replace (cap - (cap - Z.of_nat (size m))) with (Z.of_nat (size m)) by lia.
  destruct (re_chain _ _ _ R) as (fr & d & _ & Hn & Hf & _).
  pose proof (full_size _ _ _ _ R Hn Hf). pose proof (zlen_nonneg fr).
  apply wrap_small. unfold in_width. lia.
Qed.

(** C37. The tables of metadata implement a finite map from positions to items: a
    create with an item takes a fresh position below the capacity, get, put and
    remove answer and change the item of a position exactly when it is there,
    and the count of saved items is the size of the map.  On a full table,
    create does not report failure but follows the pointer to the freed first
    cell, since the constructor has closed the chain to a ring. *)
Theorem table_refines_map {B} `{PositionSet B} {T} cap (s : t B T) m :
  represents cap s m ->
  (forall x v,
    if bool_decide (Z.of_nat (size m) = cap)
    then create s (Some x) (Some v) = Fault UseAfterFree
    else exists p s', create s (Some x) (Some v) = Done (true, Some p, s') /\
      0 <= p < cap /\ m !! p = None /\ represents cap s' (<[p := v]> m)) /\
  (forall i x, 0 <= i ->
    get s i (Some x) =
      Done (match m !! i with Some v => (true, Some v) | None => (false, Some x) end)) /\
  (forall i v, 0 <= i ->
    match m !! i with
    | Some _ => exists s', put s i (Some v) = Done (true, s') /\ represents cap s' (<[i := v]> m)
    | None => put s i (Some v) = Done (false, s)
    end) /\
  (forall i, 0 <= i ->
    match m !! i with
    | Some _ => exists s', remove s i = Done (true, s') /\ represents cap s' (delete i m)
    | None => remove s i = Done (false, s)
    end) /\
  countSavedItems s = Z.of_nat (size m).
Proof.
  intros R. split_and!; intros.
  - by apply create_spec.
  - by apply (table_get_spec cap).
  - by apply put_spec.
  - by apply remove_spec.
  - by apply (count_saved cap).
Qed.

(** A table constructed on a zeroed buffer is empty, and as a table of blocks,
    of which only create(index) is called, it is an endless ring: the n-th call
    succeeds with position n modulo the capacity, whether or not that position
    is still in use. *)
Theorem table_block_ring {T} sizeof_T (decode : list Z -> T) bytes count :
  0 < count <= 2 ^ 31 -> count mod 8 = 0 -> 0 < sizeof_T ->
  zlen bytes = count * sizeof_T + count / 8 -> Forall (eq 0) bytes ->
  exists s, construct sizeof_T decode (Some bytes) count = Done s /\ represents count s ∅ /\
    forall n, exists s',
      create_blocks n s = Done ((fun i => i mod count) <$> seqZ 0 (Z.of_nat n), s').
Proof.
  intros Hc H8 Hs Hl Hz.
  destruct (construct_zero sizeof_T decode bytes count Hc H8 Hs ltac:(lia) Hz) as (s & Hs' & R & Ri).
  exists s. split_and!; [done..|]. intros n.
  destruct (create_blocks_spec count n 0 s ltac:(lia) ltac:(lia) Ri) as (s' & E & _). eauto.
Qed.

Definition sample_bytes : list Z := replicate 9 0.

Lemma sample_zero : Forall (eq 0) sample_bytes.
Proof. unfold sample_bytes. by repeat constructor. Qed.

Lemma table_block_ring_witness :
  exists s s', construct 1 (default 0 ∘ head) (Some sample_bytes) 8 = Done s /\
    create_blocks 10 s = Done ([0; 1; 2; 3; 4; 5; 6; 7; 0; 1], s').
Proof.
  destruct (table_block_ring 1 (default 0 ∘ head) sample_bytes 8 ltac:(lia) eq_refl ltac:(lia)
    eq_refl sample_zero) as (s & Hs & _ & Hn).
  destruct (Hn 10%nat) as [s' E]. exists s, s'. split; [exact Hs|exact E].
Defined.

Lemma table_refines_map_witness :
  exists (s : t Bitmap.t Z) p s', create s (Some 0) (Some 5) = Done (true, Some p, s').
Proof.
  destruct (construct_zero 1 (default 0 ∘ head) sample_bytes 8 ltac:(lia) eq_refl ltac:(lia)
    ltac:(done) sample_zero) as (s & _ & R & _).
  destruct (table_refines_map 8 s ∅ R) as [Hc _].
  destruct (Hc 0 5) as (p & s' & E & _). exists s, p, s'. exact E.
Defined.

(** The constructor looks for free positions in the bytes of the items: a table
    with an empty bitmap whose first item is not zero gets no free position at
    all, its create fails with the mutex held, and the next call never returns. *)
Lemma construct_scans_items :
  exists s, construct 1 (default 0 ∘ head) (Some (255 :: replicate 8 0)) 8 = Done s /\
    countSavedItems s = 0 /\ create_index s (Some 0) = Done (false, Some 0, hold s) /\
    get (hold s) 0 (Some 0) = Fault LockHeld.
Proof. eexists. split; [vm_compute; reflexivity|]. by split_and!. Qed.
End Table.
