(* ===== verification/LockModel.v ===== *)
(** * apps/fs/src/lock.cc: the reader-writer lock in a 64-bit word

    [Module Lock] models class LockService on one lock word: the upper half holds
    the key of a writer, the lower half counts the readers, those that wait
    included.  Each atomic builtin is one step; a spinning loop is a step that is
    enabled when its condition holds.  Threads interleave arbitrarily.

    The word is little-endian, so the 32-bit store at LockAddress + 4 in
    WriteUnlock clears the upper half. *)

From S2P Require Import Prelude.

Module Lock.

(** ** The operations on the word *)

Definition upper (w : Z) : Z := Z.shiftr w 32.

(** key = ((NodeID << 16) + ID) << 32 *)
Definition lock_key (NodeID ID : Z) : Z :=
  wrap 64 (Z.shiftl (wrap 64 (Z.shiftl NodeID 16 + ID)) 32).

(** ID = __sync_fetch_and_add(&WriteID, 1ULL) on a uint16_t. *)
Definition next_id (WriteID : Z) : Z * Z := (WriteID, wrap 16 (WriteID + 1)).

Definition compare_and_swap (w old new : Z) : bool * Z :=
  if w =? old then (true, new) else (false, w).

(** WriteLock's loop body. *)
Definition try_write (w key : Z) : bool * Z := compare_and_swap w 0 key.

(** *(uint32_t * )(LockAddress + 4) = 0 *)
Definition write_unlock (w : Z) : Z := Z.land w (Z.ones 32).

(** ReadLock up to its loop: the new word, and whether the lock is taken. *)
Definition read_enter (w : Z) : bool * Z := (upper w =? 0, wrap 64 (w + 1)).

(** The loop: the compare-and-swap of 0 by 0 on the upper half. *)
Definition read_retry (w : Z) : bool := upper w =? 0.

Definition read_unlock (w : Z) : Z := wrap 64 (w - 1).

(** ** Threads *)

Inductive pc :=
  | Idle
  | WantWrite (key : Z)      (* in WriteLock's loop *)
  | Writing (key : Z)
  | WantRead                 (* in ReadLock's loop *)
  | Reading.

#[export] Instance pc_eq_dec : EqDecision pc.
Proof. solve_decision. Defined.

Record state := mkState { word : Z; WriteID : Z; threads : gmap nat pc }.

(** [node t] is the NodeID thread [t] locks with. *)
Inductive step (node : nat -> Z) : state -> state -> Prop :=
  | st_write_lock w i th t :
      th !! t = Some Idle ->
      step node (mkState w i th)
        (mkState w (next_id i).2 (<[t := WantWrite (lock_key (node t) (next_id i).1)]> th))
  | st_write_take w i th t k w' :
      th !! t = Some (WantWrite k) -> try_write w k = (true, w') ->
      step node (mkState w i th) (mkState w' i (<[t := Writing k]> th))
  | st_write_unlock w i th t k :
      th !! t = Some (Writing k) ->
      step node (mkState w i th) (mkState (write_unlock w) i (<[t := Idle]> th))
  | st_read_lock w i th t ok w' :
      th !! t = Some Idle -> read_enter w = (ok, w') ->
      step node (mkState w i th)
        (mkState w' i (<[t := if (ok : bool) then Reading else WantRead]> th))
  | st_read_take w i th t :
      th !! t = Some WantRead -> read_retry w = true ->
      step node (mkState w i th) (mkState w i (<[t := Reading]> th))
  | st_read_unlock w i th t :
      th !! t = Some Reading ->
      step node (mkState w i th) (mkState (read_unlock w) i (<[t := Idle]> th)).

Inductive reachable (node : nat -> Z) (s0 : state) : state -> Prop :=
  | re_refl : reachable node s0 s0
  | re_step s s' : reachable node s0 s -> step node s s' -> reachable node s0 s'.

(** [n] threads, all idle, on a zeroed word. *)
Definition initial (n : nat) (i : Z) : state :=
  mkState 0 i (list_to_map ((fun t => (t, Idle)) <$> seq 0 n)).

(** ** The invariant *)

Definition is_reader (p : pc) : bool :=
  match p with WantRead | Reading => true | _ => false end.

Definition readers (th : gmap nat pc) : gmap nat pc :=
  filter (fun e => is_reader e.2 = true) th.

Definition wants (p : pc) : option Z :=
  match p with WantWrite k | Writing k => Some k | _ => None end.

Record inv (s : state) : Prop := {
  in_count : Z.of_nat (size (threads s)) < 2 ^ 32;
  in_id : in_width 16 (WriteID s);
  in_keys t p k : threads s !! t = Some p -> wants p = Some k ->
    0 < k < 2 ^ 64 /\ k mod 2 ^ 32 = 0;
  in_word : exists key,
    word s = key + Z.of_nat (size (readers (threads s))) /\ key mod 2 ^ 32 = 0 /\
    0 <= key < 2 ^ 64 /\
    ((key = 0 /\ forall t k, threads s !! t <> Some (Writing k)) \/
     (key <> 0 /\ exists t, threads s !! t = Some (Writing key) /\
        (forall t' k, threads s !! t' = Some (Writing k) -> t' = t) /\
        forall t', threads s !! t' <> Some Reading))
}.

(** How a thread's move changes the number of readers. *)
Lemma readers_split th t p :
  th !! t = Some p ->
  Z.of_nat (size (readers th)) = Z.of_nat (size (readers (delete t th))) + Z.b2z (is_reader p).
Proof.
  intros Ht. rewrite <- (insert_delete_id th t p Ht) at 1. unfold readers.
  destruct (is_reader p) eqn:Ep.
  - rewrite map_filter_insert_True by done. rewrite map_size_insert_None; [cbn; lia|].
    apply map_lookup_filter_None. left. apply lookup_delete_eq.
  - rewrite map_filter_insert_False by (cbn; congruence).
    rewrite (delete_id (delete t th)) by apply lookup_delete_eq. cbn. lia.
Qed.

Lemma readers_insert th t p q :
  th !! t = Some p ->
  Z.of_nat (size (readers (<[t := q]> th))) =
    Z.of_nat (size (readers th)) + Z.b2z (is_reader q) - Z.b2z (is_reader p).
Proof.
  intros Ht. rewrite (readers_split th t p Ht).
  rewrite (readers_split (<[t := q]> th) t q) by apply lookup_insert_eq.
  rewrite delete_insert_eq. lia.
Qed.

Lemma readers_le th : (size (readers th) <= size th)%nat.
Proof. apply map_subseteq_size, map_filter_subseteq. Qed.

Lemma readers_pos th t p : th !! t = Some p -> is_reader p = true -> (0 < size (readers th))%nat.
Proof.
  intros Ht Hp. assert (E : readers th !! t = Some p) by (by apply map_lookup_filter_Some).
  destruct (size (readers th)) eqn:Es; [|lia].
  apply map_size_empty_inv in Es. rewrite Es in E. by rewrite lookup_empty in E.
Qed.

Lemma upper_word key n :
  key mod 2 ^ 32 = 0 -> 0 <= n < 2 ^ 32 -> upper (key + n) = key / 2 ^ 32.
Proof. intros Hk Hn. unfold upper. rewrite Z.shiftr_div_pow2 by lia. lia. Qed.

Lemma upper_zero key n :
  key mod 2 ^ 32 = 0 -> 0 <= key -> 0 <= n < 2 ^ 32 -> (upper (key + n) =? 0) = true <-> key = 0.
Proof. intros Hk H0 Hn. rewrite upper_word by done. rewrite Z.eqb_eq. lia. Qed.

Lemma unlock_word key n :
  key mod 2 ^ 32 = 0 -> 0 <= n < 2 ^ 32 -> write_unlock (key + n) = n.
Proof. intros Hk Hn. unfold write_unlock. rewrite Z.land_ones by lia. lia. Qed.

Lemma lock_key_ok NodeID ID :
  0 < NodeID < 2 ^ 16 -> 0 <= ID < 2 ^ 16 ->
  0 < lock_key NodeID ID < 2 ^ 64 /\ lock_key NodeID ID mod 2 ^ 32 = 0.
Proof.
  intros Hn Hi. unfold lock_key. rewrite !Z.shiftl_mul_pow2 by lia.
  rewrite (wrap_small 64 (NodeID * 2 ^ 16 + ID)) by (unfold in_width; lia).
  rewrite wrap_small by (unfold in_width; lia). lia.
Qed.

Lemma key_bound key : 0 <= key < 2 ^ 64 -> key mod 2 ^ 32 = 0 -> key <= 2 ^ 64 - 2 ^ 32.
Proof. intros. lia. Qed.

Lemma word_small key n :
  0 <= key < 2 ^ 64 -> key mod 2 ^ 32 = 0 -> 0 <= n < 2 ^ 32 -> wrap 64 (key + n) = key + n.
Proof.
  intros Hk Hm Hn. pose proof (key_bound _ Hk Hm) as Hb. clear Hm.
  apply wrap_small. unfold in_width. lia.
Qed.

Section proofs.
Context (node : nat -> Z).
Hypothesis node_ok : forall t, 0 < node t < 2 ^ 16.

Lemma count_insert (th : gmap nat pc) t p q :
  th !! t = Some p -> size (<[t := q]> th) = size th.
Proof. intros Ht. by rewrite map_size_insert, Ht. Qed.

Lemma keys_insert (th : gmap nat pc) t p q :
  (forall t p k, th !! t = Some p -> wants p = Some k -> 0 < k < 2 ^ 64 /\ k mod 2 ^ 32 = 0) ->
  (forall k, wants q = Some k -> 0 < k < 2 ^ 64 /\ k mod 2 ^ 32 = 0) ->
  th !! t = Some p ->
  forall t' p' k, <[t := q]> th !! t' = Some p' -> wants p' = Some k ->
    0 < k < 2 ^ 64 /\ k mod 2 ^ 32 = 0.
Proof.
  intros Hk Hq Ht t' p' k H'. destruct (decide (t' = t)) as [->|Hne].
  - rewrite lookup_insert_eq in H'. simplify_eq. auto.
  - rewrite lookup_insert_ne in H' by done. eauto.
Qed.

(** What a move of thread [t] to [q] needs when the writer stays. *)
Lemma same_writer (th : gmap nat pc) t q key :
  (forall k, th !! t <> Some (Writing k)) -> (forall k, q <> Writing k) ->
  (q = Reading -> key = 0) ->
  ((key = 0 /\ forall t k, th !! t <> Some (Writing k)) \/
   (key <> 0 /\ exists t0, th !! t0 = Some (Writing key) /\
      (forall t' k, th !! t' = Some (Writing k) -> t' = t0) /\
      forall t', th !! t' <> Some Reading)) ->
  ((key = 0 /\ forall t' k, <[t := q]> th !! t' <> Some (Writing k)) \/
   (key <> 0 /\ exists t0, <[t := q]> th !! t0 = Some (Writing key) /\
      (forall t' k, <[t := q]> th !! t' = Some (Writing k) -> t' = t0) /\
      forall t', <[t := q]> th !! t' <> Some Reading)).
Proof.
  intros Ht Hq Hr [[-> Hn]|[Hk (t0 & H0 & Hu & Hrd)]]; [left|right]; (split; [done|]).
  - intros t' k. destruct (decide (t' = t)) as [->|Hne].
    + rewrite lookup_insert_eq. intros ?. simplify_eq. by eapply Hq.
    + by rewrite lookup_insert_ne.
  - exists t0. assert (t0 <> t) by (intros ->; by eapply Ht).
    rewrite lookup_insert_ne by done. split_and!; [done|..].
    + intros t' k. destruct (decide (t' = t)) as [->|Hne].
      * rewrite lookup_insert_eq. intros ?. simplify_eq. exfalso. by eapply Hq.
      * rewrite lookup_insert_ne by done. apply Hu.
    + intros t'. destruct (decide (t' = t)) as [->|Hne].
      * rewrite lookup_insert_eq. intros ?. simplify_eq. auto.
      * by rewrite lookup_insert_ne.
Qed.

Lemma inv_step s s' : inv s -> step node s s' -> inv s'.
Proof.
  intros [Hc Hi Hk (key & Hw & Hm & Hr & Hx)] Hst.
  destruct Hst as [w i th t Ht|w i th t k w' Ht Hcas|w i th t k Ht|w i th t ok w' Ht He
    |w i th t Ht Hrt|w i th t Ht]; cbn in *;
    assert (Hle := readers_le th);
    assert (Hsz : 0 <= Z.of_nat (size (readers th)) < 2 ^ 32) by lia; clear Hle;
    (split; cbn; [by erewrite count_insert by done| | |]).
  all: try exact Hi.
  - unfold in_width. apply wrap_range. lia.
  - eapply keys_insert; [exact Hk| |exact Ht]. intros k [= <-]. by apply lock_key_ok.
  - exists key. rewrite (readers_insert th t Idle _ Ht). cbn. split_and!; [clear -Hw; lia|done|apply Hr|apply Hr|].
    apply same_writer; try done; congruence.
  - eapply keys_insert; [exact Hk| |exact Ht]. intros k' [= <-]. by eapply Hk.
  - unfold try_write, compare_and_swap in Hcas. destruct (Z.eqb_spec w 0) as [->|]; [|done].
    injection Hcas as <-. destruct (Hk _ _ k Ht eq_refl) as [Hk0 Hkm].
    assert (key = 0 /\ size (readers th) = 0%nat) as [-> Hz] by lia.
    destruct Hx as [[_ Hx]|[? _]]; [|done].
    exists k. rewrite (readers_insert th t _ _ Ht). cbn. split_and!; try lia. right.
    split; [lia|]. exists t. rewrite lookup_insert_eq. split_and!; [done|..].
    + intros t' k'. destruct (decide (t' = t)) as [->|Hne]; [done|].
      rewrite lookup_insert_ne by done. intros E. by destruct (Hx t' k').
    + intros t'. destruct (decide (t' = t)) as [->|Hne]; [by rewrite lookup_insert_eq|].
      rewrite lookup_insert_ne by done. intros E.
      pose proof (readers_pos th t' _ E eq_refl). lia.
  - eapply keys_insert; [exact Hk| |exact Ht]. done.
  - destruct Hx as [[_ Hx]|[_ (t0 & H0 & Hu & Hrd)]]; [by destruct (Hx _ _ Ht)|].
    pose proof (Hu _ _ Ht) as <-.
    exists 0. rewrite (readers_insert th t _ _ Ht). cbn. rewrite Hw, (unlock_word key _ Hm Hsz).
    split_and!; [lia|done|done|done|]. left. split; [done|]. intros t' k'.
    destruct (decide (t' = t)) as [->|Hne]; [by rewrite lookup_insert_eq|].
    rewrite lookup_insert_ne by done. intros E. by apply Hne, (Hu _ k').
  - eapply keys_insert; [exact Hk| |exact Ht]. by destruct ok.
  - pose proof (f_equal fst He) as Hok. pose proof (f_equal snd He) as Hw'. clear He.
    unfold read_enter in *. cbn [fst snd] in *. subst w'. exists key.
    pose proof (readers_insert th t _ (if ok then Reading else WantRead) Ht) as Hs.
    assert (Z.b2z (is_reader (if ok then Reading else WantRead)) = 1) as E by (by destruct ok).
    rewrite E in Hs. cbn in Hs. rewrite Hs.
    pose proof (readers_le (<[t := if ok then Reading else WantRead]> th)) as Hl.
    rewrite (count_insert _ _ _ _ Ht) in Hl.
    rewrite Hw in Hok |- *. rewrite <- Z.add_assoc, word_small; [|done|done|clear Hr Hm; lia].
    split_and!; [lia|done|apply Hr|apply Hr|]. apply same_writer; try (destruct ok; done); try congruence.
    destruct ok; [|done]. intros _. by apply (upper_zero key (Z.of_nat (size (readers th)))); [|apply Hr| |].
  - eapply keys_insert; [exact Hk| |exact Ht]. done.
  - exists key. rewrite (readers_insert th t _ _ Ht). cbn. split_and!; [clear -Hw; lia|done|apply Hr|apply Hr|].
    apply same_writer; try done; try congruence. intros _. unfold read_retry in Hrt.
    rewrite Hw in Hrt. by apply (upper_zero key (Z.of_nat (size (readers th)))); [|apply Hr| |].
  - eapply keys_insert; [exact Hk| |exact Ht]. done.
  - exists key. rewrite (readers_insert th t _ _ Ht). cbn.
    pose proof (readers_pos th t _ Ht eq_refl) as Hpos. unfold read_unlock. rewrite Hw.
    replace (key + Z.of_nat (size (readers th)) - 1)
      with (key + (Z.of_nat (size (readers th)) - 1)) by (clear; lia).
    rewrite word_small; [|done|done|clear Hr Hm; lia].
    split_and!; [clear; lia|done|apply Hr|apply Hr|]. apply same_writer; try done; congruence.
Qed.

Lemma lock_initial_inv n i :
  Z.of_nat n < 2 ^ 32 -> in_width 16 i -> inv (initial n i).
Proof.
  intros Hn Hi. unfold initial.
  assert (Hidle : forall t p, list_to_map (M := gmap nat pc) ((fun t => (t, Idle)) <$> seq 0 n) !! t = Some p ->
            p = Idle).
  { intros t p Ht. apply elem_of_list_to_map_2 in Ht.
    apply list_elem_of_fmap in Ht as (t' & [= _ ->] & _). done. }
  assert (Hsz : size (list_to_map (M := gmap nat pc) ((fun t => (t, Idle)) <$> seq 0 n)) = n).
  { rewrite map_size_list_to_map; [by rewrite length_fmap, length_seq|].
    rewrite <- list_fmap_compose. cbn. rewrite list_fmap_id. apply NoDup_seq. }
  split; cbn; [by rewrite Hsz|done| |].
  - intros t p k Ht. rewrite (Hidle _ _ Ht). done.
  - exists 0. assert (Hr : readers (list_to_map ((fun t => (t, Idle)) <$> seq 0 n)) = ∅).
    { apply map_empty. intros t. apply map_lookup_filter_None. right.
      intros p Ht. by rewrite (Hidle _ _ Ht). }
    rewrite Hr, map_size_empty. split_and!; try done. left. split; [done|].
    intros t k Ht. by apply Hidle in Ht.
Qed.

Lemma reachable_inv n i s :
  Z.of_nat n < 2 ^ 32 -> in_width 16 i -> reachable node (initial n i) s -> inv s.
Proof.
  intros Hn Hi Hr. induction Hr; [by apply lock_initial_inv|by eapply inv_step].
Qed.


(** The lock never deadlocks: in every reachable state in which some thread is
    in an operation, a thread that holds the lock can release it, or one that
    waits can take it. *)
Theorem lock_progress n i s t p :
  Z.of_nat n < 2 ^ 32 -> in_width 16 i -> reachable node (initial n i) s ->
  threads s !! t = Some p -> p <> Idle ->
  exists t' p' s', threads s !! t' = Some p' /\ p' <> Idle /\ step node s s' /\
    threads s' !! t' <> Some p'.
Proof.
  intros Hn Hi Hr Ht Hp. destruct (reachable_inv _ _ _ Hn Hi Hr) as [Hc _ Hk (key & Hw & Hm & Hb & Hx)].
  destruct s as [w id th]; cbn in *. pose proof (readers_le th) as Hle.
  destruct Hx as [[-> Hx]|[_ (t0 & H0 & _)]].
  2:{ exists t0, (Writing key), (mkState (write_unlock w) id (<[t0 := Idle]> th)); cbn.
      rewrite lookup_insert_eq. split_and!; try done. by eapply st_write_unlock. }
  destruct p as [|k|k| |]; [done| |by destruct (Hx t k)| |].
  - destruct (decide (readers th = ∅)) as [E|E].
    + exists t, (WantWrite k), (mkState k id (<[t := Writing k]> th)); cbn.
      rewrite lookup_insert_eq. split_and!; try done. eapply st_write_take; [done|].
      rewrite E, map_size_empty in Hw. by rewrite Hw.
    + apply map_choose in E as (t1 & p1 & E). apply map_lookup_filter_Some in E as [E Ep].
      destruct p1; try done.
      * exists t1, WantRead, (mkState w id (<[t1 := Reading]> th)); cbn.
        rewrite lookup_insert_eq. split_and!; try done. apply st_read_take; [done|].
        unfold read_retry. rewrite Hw. by apply (upper_zero 0 (Z.of_nat (size (readers th)))); [|lia..|].
      * exists t1, Reading, (mkState (read_unlock w) id (<[t1 := Idle]> th)); cbn.
        rewrite lookup_insert_eq. split_and!; try done. by apply st_read_unlock.
  - exists t, WantRead, (mkState w id (<[t := Reading]> th)); cbn.
    rewrite lookup_insert_eq. split_and!; try done. apply st_read_take; [done|].
    unfold read_retry. rewrite Hw. by apply (upper_zero 0 (Z.of_nat (size (readers th)))); [|lia..|].
  - exists t, Reading, (mkState (read_unlock w) id (<[t := Idle]> th)); cbn.
    rewrite lookup_insert_eq. split_and!; try done. by apply st_read_unlock.
Qed.
End proofs.

Lemma sample_nodes_ok : forall t : nat, 0 < (fun _ : nat => 1) t < 2 ^ 16.
Proof. intros t. lia. Qed.

(** Thread 0 takes the lock for writing, thread 1 then waits for reading. *)
Definition sample_state : state :=
  mkState (lock_key 1 7 + 1) 8 (<[1%nat := WantRead]> (<[0%nat := Writing (lock_key 1 7)]>
    (<[0%nat := WantWrite (lock_key 1 7)]> (threads (initial 2 7))))).

Lemma sample_reachable : reachable (fun _ => 1) (initial 2 7) sample_state.
Proof.
  eapply re_step; [eapply re_step; [eapply re_step; [apply re_refl|]|]|].
  - apply (st_write_lock _ 0 7 _ 0%nat). reflexivity.
  - eapply (st_write_take _ _ _ _ 0%nat (lock_key 1 7)); reflexivity.
  - change (mkState ?w ?i ?th) with (mkState w i th).
    apply (st_read_lock _ _ _ _ 1%nat false); reflexivity.
Qed.


Lemma lock_progress_witness :
  exists t' p' s', threads sample_state !! t' = Some p' /\ p' <> Idle /\
    step (fun _ => 1) sample_state s' /\ threads s' !! t' <> Some p'.
Proof.
  exact (lock_progress (fun _ => 1) sample_nodes_ok 2 7 sample_state 1%nat WantRead ltac:(lia)
    ltac:(unfold in_width; lia) sample_reachable eq_refl ltac:(discriminate)).
Defined.
End Lock.
