(* ===== verification/TxModel.v ===== *)
(** * apps/fs/src/TxManager.cc and mempool.cc: the log and the memory map

    [Module MemPool] models the addresses class MemoryManager deals out.
    [Module Tx] models the transaction manager: the local log is an array of
    4096-byte entries, the distributed log one of 11-byte entries, each filled in
    the order of TxLocalBegin and TxDistributedBegin.  An access behind the end
    of a log is [Fault OutOfBounds].  FlushData is the list of addresses it
    flushes. *)

From S2P Require Import Prelude.

Module MemPool.

Definition CLIENT_MESSAGE_SIZE : Z := 4096.
Definition MAX_CLIENT_NUMBER : Z := 1024.
Definition SERVER_MASSAGE_SIZE : Z := CLIENT_MESSAGE_SIZE.
Definition SERVER_MASSAGE_NUM : Z := 8.
Definition METADATA_SIZE : Z := 1024 * 1024 * 1024.
Definition LOCALLOGSIZE : Z := 40 * 1024 * 1024.
Definition DISTRIBUTEDLOGSIZE : Z := 1024 * 1024.

(** [DMFSTotalSize] is None until the constructor sets it; [th2id] holds the
    entries of the unordered_map. *)
Record t := mk {
  ServerCount : Z;
  MemoryBaseAddress : Z;
  ClientBaseAddress : Z;
  ServerSendBaseAddress : Z;
  ServerRecvBaseAddress : Z;
  MetadataBaseAddress : Z;
  DataBaseAddress : Z;
  DMFSTotalSize : option Z;
  LocalLogAddress : Z;
  DistributedLogAddress : Z;
  th2id : gmap Z Z
}.

(** The size given to malloc is [total] plus the two logs. *)
Definition total (servers DataSize : Z) : Z :=
  let data := wrap 64 (wrap 64 (wrap 64 (wrap 64 DataSize * 1024) * 1024) * 1024) in
  wrap 64 (wrap 64 (wrap 64 (data + METADATA_SIZE) + CLIENT_MESSAGE_SIZE * MAX_CLIENT_NUMBER)
           + wrap 64 (SERVER_MASSAGE_SIZE * SERVER_MASSAGE_NUM * servers)).

(** [shmptr] is what malloc returns when no address is given. *)
Definition construct (shmptr mm servers DataSize : Z) : t :=
  let base := if mm =? 0 then shmptr else mm in
  let size := if mm =? 0 then Some (total servers DataSize) else None in
  let messages := wrap 64 (SERVER_MASSAGE_SIZE * SERVER_MASSAGE_NUM * servers) in
  let send := wrap 64 (base + CLIENT_MESSAGE_SIZE * MAX_CLIENT_NUMBER) in
  let recv := wrap 64 (send + messages) in
  let meta := wrap 64 (recv + messages) in
  let data := wrap 64 (recv + METADATA_SIZE) in
  let local := wrap 64 (wrap 64 (wrap 64 DataSize * (1024 * 1024 * 1024)) + data) in
  mk servers base base send recv meta data size local (wrap 64 (local + LOCALLOGSIZE)) ∅.

Definition getDmfsBaseAddress (m : t) : Z := MemoryBaseAddress m.
Definition getMetadataBaseAddress (m : t) : Z := MetadataBaseAddress m.
Definition getDataAddress (m : t) : Z := DataBaseAddress m.

(** gettid_octopus() is the argument [tid]; operator[] adds a missing entry. *)
Definition getServerSendAddress (m : t) (tid NodeID : Z) : Z * Z * t :=
  let offset := default 0 (th2id m !! tid) in
  let buffer := wrap 64 (ServerSendBaseAddress m
      + (NodeID - 1) * SERVER_MASSAGE_SIZE * SERVER_MASSAGE_NUM
      + wrap 64 offset * SERVER_MASSAGE_SIZE) in
  (wrap 64 offset, buffer,
   mk (ServerCount m) (MemoryBaseAddress m) (ClientBaseAddress m) (ServerSendBaseAddress m)
      (ServerRecvBaseAddress m) (MetadataBaseAddress m) (DataBaseAddress m) (DMFSTotalSize m)
      (LocalLogAddress m) (DistributedLogAddress m) (<[tid := offset]> (th2id m))).

Definition getServerRecvAddress (m : t) (NodeID offset : Z) : Z :=
  wrap 64 (ServerRecvBaseAddress m
    + (NodeID - 1) * SERVER_MASSAGE_SIZE * SERVER_MASSAGE_NUM + offset * SERVER_MASSAGE_SIZE).

Definition getClientMessageAddress (m : t) (NodeID : Z) : Z :=
  wrap 64 (ClientBaseAddress m + wrap 64 (NodeID - ServerCount m - 1) * CLIENT_MESSAGE_SIZE).

Definition setID (m : t) (tid ID : Z) : t :=
  mk (ServerCount m) (MemoryBaseAddress m) (ClientBaseAddress m) (ServerSendBaseAddress m)
     (ServerRecvBaseAddress m) (MetadataBaseAddress m) (DataBaseAddress m) (DMFSTotalSize m)
     (LocalLogAddress m) (DistributedLogAddress m) (<[tid := ID]> (th2id m)).

(** The slots are disjoint: the one of pair (n, i) starts at slot (n - 1) * 8 + i. *)
Definition slot (n i : Z) : Z := (n - 1) * SERVER_MASSAGE_NUM + i.

Lemma total_eq servers DataSize :
  1 <= servers <= 2 ^ 15 -> 0 <= DataSize < 2 ^ 31 ->
  total servers DataSize = DataSize * 2 ^ 30 + 2 ^ 30 + 2 ^ 22 + servers * 2 ^ 15.
Proof.
  intros Hs Hd. unfold total, METADATA_SIZE, CLIENT_MESSAGE_SIZE, MAX_CLIENT_NUMBER,
    SERVER_MASSAGE_SIZE, SERVER_MASSAGE_NUM, CLIENT_MESSAGE_SIZE.
  unwrap. lia.
Qed.

(** The addresses without their wrap-around. *)
Lemma construct_eq base servers DataSize :
  0 < base -> 1 <= servers <= 2 ^ 15 -> 0 <= DataSize < 2 ^ 31 ->
  base + total servers DataSize + LOCALLOGSIZE + DISTRIBUTEDLOGSIZE < 2 ^ 64 ->
  let send := base + 2 ^ 22 in
  let recv := send + servers * 2 ^ 15 in
  let data := recv + 2 ^ 30 in
  construct base 0 servers DataSize =
    mk servers base base send recv (recv + servers * 2 ^ 15) data
       (Some (total servers DataSize)) (data + DataSize * 2 ^ 30)
       (data + DataSize * 2 ^ 30 + LOCALLOGSIZE) ∅.
Proof.
  intros Hb Hs Hd Hsum. rewrite total_eq in Hsum by done. unfold LOCALLOGSIZE, DISTRIBUTEDLOGSIZE in *.
  cbv zeta. unfold construct, METADATA_SIZE, CLIENT_MESSAGE_SIZE, MAX_CLIENT_NUMBER,
    SERVER_MASSAGE_SIZE, SERVER_MASSAGE_NUM, CLIENT_MESSAGE_SIZE, LOCALLOGSIZE.
  rewrite (proj2 (Z.eqb_eq 0 0)) by done. unwrap. f_equal; lia.
Qed.

(** The memory map: in one allocation of total + logs bytes, the message
    slots of clients and servers, the data and the two logs lie one behind the
    other and end exactly with the allocation; a client's slot, and a thread's
    send and receive slot for a server, are the slots of their numbers.  The
    metadata area that is left between the receive slots and the data is
    METADATA_SIZE less the size of the receive slots. *)
Theorem mempool_layout base servers DataSize m :
  0 < base -> 1 <= servers <= 2 ^ 15 -> 0 <= DataSize < 2 ^ 31 ->
  base + total servers DataSize + LOCALLOGSIZE + DISTRIBUTEDLOGSIZE < 2 ^ 64 ->
  m = construct base 0 servers DataSize ->
  getDmfsBaseAddress m = base /\
  (forall c, 1 <= c <= MAX_CLIENT_NUMBER ->
     getClientMessageAddress m (servers + c) = base + (c - 1) * CLIENT_MESSAGE_SIZE) /\
  base + MAX_CLIENT_NUMBER * CLIENT_MESSAGE_SIZE = ServerSendBaseAddress m /\
  (forall n tid i, 1 <= n <= servers -> 0 <= i < SERVER_MASSAGE_NUM ->
     (getServerSendAddress (setID m tid i) tid n).1 =
       (i, ServerSendBaseAddress m + slot n i * SERVER_MASSAGE_SIZE) /\
     getServerRecvAddress m n i = ServerRecvBaseAddress m + slot n i * SERVER_MASSAGE_SIZE) /\
  ServerSendBaseAddress m + slot (servers + 1) 0 * SERVER_MASSAGE_SIZE = ServerRecvBaseAddress m /\
  ServerRecvBaseAddress m + slot (servers + 1) 0 * SERVER_MASSAGE_SIZE = getMetadataBaseAddress m /\
  getDataAddress m - getMetadataBaseAddress m =
    METADATA_SIZE - servers * SERVER_MASSAGE_NUM * SERVER_MASSAGE_SIZE /\
  getDataAddress m + DataSize * 2 ^ 30 = LocalLogAddress m /\
  LocalLogAddress m + LOCALLOGSIZE = DistributedLogAddress m /\
  DistributedLogAddress m + DISTRIBUTEDLOGSIZE =
    base + total servers DataSize + LOCALLOGSIZE + DISTRIBUTEDLOGSIZE.
Proof.
  intros Hb Hs Hd Hsum ->. rewrite construct_eq by done.
  rewrite total_eq in * by done. unfold slot, getDmfsBaseAddress, getClientMessageAddress,
    getServerSendAddress, getServerRecvAddress, getMetadataBaseAddress, getDataAddress, setID,
    LOCALLOGSIZE, DISTRIBUTEDLOGSIZE, METADATA_SIZE, MAX_CLIENT_NUMBER, SERVER_MASSAGE_SIZE,
    SERVER_MASSAGE_NUM, CLIENT_MESSAGE_SIZE in *. cbn -[Z.mul Z.add Z.pow].
  split_and!; try lia.
  - intros c Hc. unwrap. lia.
  - intros n tid i Hn Hi. rewrite lookup_insert_eq. cbn [default from_option]. change (id i) with i.
    unwrap. split; [f_equal|]; lia.
Qed.

Lemma mempool_layout_witness :
  getServerRecvAddress (construct 4096 0 1 9) 1 3 = 4096 + 2 ^ 22 + 2 ^ 15 + 3 * 4096 /\
  getDataAddress (construct 4096 0 1 9) + 9 * 2 ^ 30 = LocalLogAddress (construct 4096 0 1 9).
Proof.
  destruct (mempool_layout 4096 1 9 (construct 4096 0 1 9)) as (_ & _ & Hsend & Hslot & Hrecv & _ & _ & Hlog & _).
  - lia.
  - lia.
  - lia.
  - reflexivity.
  - reflexivity.
  - split; [|exact Hlog].
    destruct (Hslot 1 0 3 ltac:(lia) ltac:(unfold SERVER_MASSAGE_NUM; lia)) as [_ E].
    rewrite E, <- Hrecv, <- Hsend. reflexivity.
Defined.
End MemPool.

Module Tx.

Definition CACHELINE_SIZE : Z := 64.
Definition LOCALLOGSIZE : Z := 40 * 1024 * 1024.
Definition DISTRIBUTEDLOGSIZE : Z := 1024 * 1024.

(** ** FlushData *)

(** for (i = 0; i < size; i += CACHELINE_SIZE) with a 32-bit i. *)
Fixpoint flush_from (fuel : nat) (address size i : Z) : outcome (list Z) :=
  if i <? size then
    match fuel with
    | O => Fault Diverges
    | S fuel' =>
        let! rest := flush_from fuel' address size (wrap 32 (i + CACHELINE_SIZE)) in
        Done (wrap 64 (address + i) :: rest)
    end
  else Done [].

Definition FlushData (fuel : nat) (address size : Z) : outcome (list Z) :=
  let size' := wrap 64 (size + Z.land address (CACHELINE_SIZE - 1)) in
  flush_from fuel address size' 0.

(** clflush writes back the line an address lies in. *)
Definition line (a : Z) : Z := a / CACHELINE_SIZE.

(** ** The logs *)

Record DistributedLogEntry := mkDist {
  d_TxID : Z; d_begin : bool; d_prepare : bool; d_commit : bool
}.
Record LocalLogEntry := mkLocal {
  TxID : Z; begin : bool; logData : list Z; commit : bool
}.
Definition logData_size : Z := 4086.
Definition sizeof_LocalLogEntry : Z := 8 + 1 + logData_size + 1.
Definition sizeof_DistributedLogEntry : Z := 8 + 1 + 1 + 1.

Record t := mk {
  localLog : list LocalLogEntry;
  distributedLog : list DistributedLogEntry;
  LocalLogIndex : Z;
  DistributedLogIndex : Z
}.

Definition zero_local : LocalLogEntry :=
  mkLocal 0 false (replicate (Z.to_nat logData_size) 0) false.
Definition zero_dist : DistributedLogEntry := mkDist 0 false false false.

(** The constructor on zeroed memory of the given numbers of entries. *)
Definition construct (locals dists : nat) : t :=
  mk (replicate locals zero_local) (replicate dists zero_dist) 0 0.

(** The entries the memory map leaves room for. *)
Definition local_entries : Z := LOCALLOGSIZE / sizeof_LocalLogEntry.
Definition distributed_entries : Z := DISTRIBUTEDLOGSIZE / sizeof_DistributedLogEntry.

Definition with_local (s : t) (l : list LocalLogEntry) : t :=
  mk l (distributedLog s) (LocalLogIndex s) (DistributedLogIndex s).
Definition with_dist (s : t) (l : list DistributedLogEntry) : t :=
  mk (localLog s) l (LocalLogIndex s) (DistributedLogIndex s).

Definition TxLocalBegin (s : t) : outcome (Z * t) :=
  let i := LocalLogIndex s in
  let! e := load (localLog s) i in
  let! l := store (localLog s) i (mkLocal i true (logData e) (commit e)) in
  Done (i, mk l (distributedLog s) (wrap 64 (i + 1)) (DistributedLogIndex s)).

Definition TxWriteData (s : t) (id : Z) (buffer : list Z) : outcome t :=
  let! e := load (localLog s) id in
  if zlen buffer <=? logData_size then
    let! l := store (localLog s) id
      (mkLocal (TxID e) (begin e) (blit (logData e) 0 buffer) (commit e)) in
    Done (with_local s l)
  else Fault OutOfBounds.

Definition TxLocalCommit (s : t) (id : Z) (action : bool) : outcome t :=
  let! e := load (localLog s) id in
  let! l := store (localLog s) id (mkLocal (TxID e) (begin e) (logData e) action) in
  Done (with_local s l).

Definition TxDistributedBegin (s : t) : outcome (Z * t) :=
  let i := DistributedLogIndex s in
  let! e := load (distributedLog s) i in
  let! l := store (distributedLog s) i (mkDist i true (d_prepare e) (d_commit e)) in
  Done (i, mk (localLog s) l (LocalLogIndex s) (wrap 64 (i + 1))).

Definition TxDistributedPrepare (s : t) (id : Z) (action : bool) : outcome t :=
  let! e := load (distributedLog s) id in
  let! l := store (distributedLog s) id (mkDist (d_TxID e) (d_begin e) action (d_commit e)) in
  Done (with_dist s l).

Definition TxDistributedCommit (s : t) (id : Z) (action : bool) : outcome t :=
  let! e := load (distributedLog s) id in
  let! l := store (distributedLog s) id (mkDist (d_TxID e) (d_begin e) (d_prepare e) action) in
  Done (with_dist s l).

(** A local transaction and a distributed one, as the protocol runs them. *)
Definition local_tx (s : t) (data : list Z) (action : bool) : outcome (Z * t) :=
  let! (id, s1) := TxLocalBegin s in
  let! s2 := TxWriteData s1 id data in
  let! s3 := TxLocalCommit s2 id action in
  Done (id, s3).

Definition distributed_tx (s : t) (prepare action : bool) : outcome (Z * t) :=
  let! (id, s1) := TxDistributedBegin s in
  let! s2 := TxDistributedPrepare s1 id prepare in
  let! s3 := TxDistributedCommit s2 id action in
  Done (id, s3).

(** ** Lemmas *)

Lemma local_tx_spec s data action e :
  zget (localLog s) (LocalLogIndex s) = Some e -> LocalLogIndex s < 2 ^ 64 - 1 ->
  zlen data <= logData_size ->
  local_tx s data action =
    Done (LocalLogIndex s,
          mk (zset (localLog s) (LocalLogIndex s)
                (mkLocal (LocalLogIndex s) true (blit (logData e) 0 data) action))
             (distributedLog s) (LocalLogIndex s + 1) (DistributedLogIndex s)).
Proof.
  intros He Hi Hd. pose proof (zget_Some_range _ _ _ He) as Hr.
  unfold local_tx, TxLocalBegin, TxWriteData, TxLocalCommit, with_local.
  rewrite (load_in_range _ _ _ He). cbn. rewrite store_in_range by done. cbn.
  rewrite (load_in_range _ _ _ (zget_zset_eq _ _ _ Hr)). cbn.
  rewrite (proj2 (Z.leb_le _ _) Hd). rewrite store_in_range by (by rewrite zlen_zset). cbn.
  rewrite zset_zset, (load_in_range _ _ _ (zget_zset_eq _ _ _ Hr)). cbn.
  rewrite store_in_range by (by rewrite zlen_zset). cbn.
  rewrite zset_zset, wrap_small by (unfold in_width; lia). done.
Qed.

Lemma flush_from_spec fuel address size i :
  0 <= i -> i mod 64 = 0 -> 0 <= size <= 2 ^ 31 -> 0 <= address -> address + size < 2 ^ 64 ->
  size <= i + 64 * Z.of_nat fuel -> i <= size + 63 ->
  exists l, flush_from fuel address size i = Done l /\
    forall k, 0 <= k -> i + 64 * k < size -> address + (i + 64 * k) ∈ l.
Proof.
  revert i. induction fuel as [|fuel IH]; intros i Hi Hm Hs Ha Hb Hf Hle; cbn.
  - rewrite (proj2 (Z.ltb_ge _ _)) by lia. exists []. split; [done|]. lia.
  - destruct (Z.ltb_spec i size) as [Hlt|Hge].
    + rewrite (wrap_small 32) by (unfold in_width, CACHELINE_SIZE; lia). unfold CACHELINE_SIZE.
      destruct (IH (i + 64)) as (l & -> & Hl); try lia. cbn.
      eexists. split; [reflexivity|]. intros k Hk Hkb.
      rewrite wrap_small by (unfold in_width; lia).
      destruct (decide (k = 0)) as [->|Hne]; [rewrite Z.mul_0_r, Z.add_0_r; by left|right].
      replace (i + 64 * k) with (i + 64 + 64 * (k - 1)) by lia. apply Hl; lia.
    + exists []. split; [done|]. lia.
Qed.

(** ** Theorems *)

(** FlushData covers its range: with fuel for one step per cache line it
    ends, and every byte of [address, address + size) lies in a line that is
    flushed, whatever the alignment of the address. *)
Theorem flush_covers address size :
  0 <= address -> 0 <= size <= 2 ^ 31 - 64 -> address + size + 64 < 2 ^ 64 ->
  exists l, FlushData (Z.to_nat (size / 64 + 2)) address size = Done l /\
    forall b, address <= b < address + size -> exists a, a ∈ l /\ line a = line b.
Proof.
  intros Ha Hs Hb. unfold FlushData. change (CACHELINE_SIZE - 1) with (Z.ones 6).
  rewrite Z.land_ones by lia. change (2 ^ 6) with 64.
  rewrite wrap_small by (unfold in_width; lia).
  destruct (flush_from_spec (Z.to_nat (size / 64 + 2)) address (size + address mod 64) 0)
    as (l & -> & Hl); try lia.
  exists l. split; [done|]. intros b Hr.
  set (k := (b - (address - address mod 64)) / 64).
  assert (Hk : 0 <= k) by (unfold k; lia).
  exists (address + (0 + 64 * k)). split; [apply Hl; [done|unfold k; lia]|].
  unfold line, CACHELINE_SIZE, k. lia.
Qed.

Lemma flush_covers_witness :
  exists l, FlushData 4 4000 130 = Done l /\ exists a, a ∈ l /\ line a = line 4129.
Proof.
  destruct (flush_covers 4000 130) as (l & H & Hl); [lia..|].
  exists l. split; [exact H|]. apply Hl. lia.
Defined.

(** A local transaction gets the next entry of the log to itself: its id is
    the index of that entry, which ends up with the id, the data and the
    decision, and no other entry changes; once the index has reached the end of
    the log, beginning a transaction leaves the log's memory. *)
Theorem local_tx_isolated s data action :
  0 <= LocalLogIndex s -> zlen (localLog s) < 2 ^ 64 -> zlen data <= logData_size ->
  Forall (fun e => zlen (logData e) = logData_size) (localLog s) ->
  if LocalLogIndex s <? zlen (localLog s) then
    exists s', local_tx s data action = Done (LocalLogIndex s, s') /\
      LocalLogIndex s' = LocalLogIndex s + 1 /\
      (exists e, zget (localLog s') (LocalLogIndex s) = Some e /\ TxID e = LocalLogIndex s /\
         begin e = true /\ commit e = action /\ take (length data) (logData e) = data /\
         zlen (logData e) = logData_size) /\
      (forall i, i <> LocalLogIndex s -> zget (localLog s') i = zget (localLog s) i) /\
      distributedLog s' = distributedLog s
  else TxLocalBegin s = Fault OutOfBounds.
Proof.
  intros Hi Hl Hd Hall. destruct (Z.ltb_spec (LocalLogIndex s) (zlen (localLog s))) as [Hlt|Hge].
  - destruct (zget_is_Some (localLog s) (LocalLogIndex s)) as [e He]; [lia|].
    pose proof (Forall_zget _ _ _ _ Hall He) as Hle.
    eexists. split; [apply (local_tx_spec s data action e He); [lia|done]|]. cbn.
    split_and!; try done.
    + eexists. rewrite zget_zset_eq by lia. split_and!; try done; cbn.
      * by rewrite take_blit.
      * unfold zlen in *. rewrite blit_length by lia. done.
    + intros i Hne. by rewrite zget_zset_ne.
  - unfold TxLocalBegin. by rewrite load_out by lia.
Qed.

Lemma local_tx_isolated_witness :
  exists s', local_tx (construct 2 2) [7; 8] true = Done (0, s') /\ LocalLogIndex s' = 1.
Proof.
  destruct (local_tx_isolated (construct 2 2) [7; 8] true) as (s' & H & Hi & _).
  - cbn. lia.
  - vm_compute. reflexivity.
  - vm_compute. discriminate.
  - cbn. constructor; [reflexivity|constructor; [reflexivity|constructor]].
  - exists s'. split; [exact H|exact Hi].
Defined.
End Tx.
