(* ===== verification/FileSystemModel.v ===== *)
(** * apps/fs/src/filesystem.cc and storage.cc: the file system of a node

    [Module FileSystem] models classes Storage and FileSystem on top of the
    hash table, the tables, the lock word and the transaction log.  The lock word
    of a bucket is the member key of its hash item.  A file system operation runs
    alone: waiting for a lock that is taken is [Fault LockHeld].  A path is the
    list of its characters without the terminating zero; [None] is a null
    pointer.  What an operation finds in its uninitialised local variables is the
    argument [locals].  The blocks are used through their addresses only, so the
    table of blocks has items of type unit and [data] holds the bytes, addressed
    from DataBaseAddress.

    The abstract file system is a finite map from path hashes to nodes. *)

From S2P Require Import Prelude BitmapModel HashTableModel TableModel LockModel TxModel.

Module FileSystem.

Definition MAX_MESSAGE_BLOCK_COUNT : Z := 12.
Definition MAX_FILE_EXTENT_COUNT : Z := 64.
Definition BLOCK_SIZE : Z := 4 * 1024.
Definition MAX_FILE_NAME_LENGTH : Z := 50.
Definition MAX_DIRECTORY_COUNT : Z := 32.
Definition NULLBLCOK_ID : Z := 2 ^ 64 - 1.

(** ** Data *)

Record FileMetaTuple := mkExtent {
  hashNode : Z; indexExtentStartBlock : Z; countExtentBlock : Z
}.
Record FileMeta := mkFileMeta {
  timeLastModified : Z; count : Z; size : Z; tuple : list FileMetaTuple
}.
Record DirectoryMetaTuple := mkName { names : list Z; isDirectories : bool }.
Record DirectoryMeta := mkDirectoryMeta { d_count : Z; d_tuple : list DirectoryMetaTuple }.

Record file_pos_tuple := mkPos { p_offset : Z; p_size : Z }.
Record file_pos_info := mkPosInfo { p_len : Z; p_tuple : list file_pos_tuple }.
Record file_extent_info := mkExtentInfo {
  e_timeLastModified : Z; e_len : Z; e_tuple : list Z    (* block_id *)
}.

(** Uninitialised locals, and the clock. *)
Record locals := mkLocals {
  now : Z; l_index : Z; l_isDirectory : bool; l_name : list Z;
  l_file : FileMeta; l_dir : DirectoryMeta
}.

(** The metas of a new file and a new directory; the tuples stay uninitialised. *)
Definition new_file (l : locals) : FileMeta := mkFileMeta (now l) 0 0 (tuple (l_file l)).
Definition new_dir (l : locals) : DirectoryMeta := mkDirectoryMeta 0 (d_tuple (l_dir l)).

(** A DirectoryMeta in memory: 1640 bytes. *)
Definition le_bytes (n x : Z) : list Z := (fun i => wrap 8 (Z.shiftr x (8 * i))) <$> seqZ 0 n.
Definition encode_name (e : DirectoryMetaTuple) : list Z :=
  names e ++ [if isDirectories e then 1 else 0].
Definition encode_DirectoryMeta (m : DirectoryMeta) : list Z :=
  le_bytes 8 (d_count m) ++ mjoin (encode_name <$> d_tuple m).

Section ops.
Context {B : Type} `{PositionSet B}.
Context (CalculateDigest : list Z -> HashTable.UniqueHash).
Context (DmfsBaseAddress : Z).

Record t := mk {
  hashtable : HashTable.t B;
  tableFileMeta : Table.t B FileMeta;
  tableDirectoryMeta : Table.t B DirectoryMeta;
  tableBlock : Table.t B unit;
  countNode : Z;
  hashLocalNode : Z;
  WriteID : Z;                 (* of the lock service *)
  tx : Tx.t;                   (* the server's transaction manager *)
  data : list Z
}.

Definition with_hashtable (s : t) (h : HashTable.t B) : t :=
  mk h (tableFileMeta s) (tableDirectoryMeta s) (tableBlock s) (countNode s)
     (hashLocalNode s) (WriteID s) (tx s) (data s).
Definition with_files (s : t) (f : Table.t B FileMeta) : t :=
  mk (hashtable s) f (tableDirectoryMeta s) (tableBlock s) (countNode s)
     (hashLocalNode s) (WriteID s) (tx s) (data s).
Definition with_dirs (s : t) (d : Table.t B DirectoryMeta) : t :=
  mk (hashtable s) (tableFileMeta s) d (tableBlock s) (countNode s)
     (hashLocalNode s) (WriteID s) (tx s) (data s).
Definition with_blocks (s : t) (b : Table.t B unit) : t :=
  mk (hashtable s) (tableFileMeta s) (tableDirectoryMeta s) b (countNode s)
     (hashLocalNode s) (WriteID s) (tx s) (data s).
Definition with_local_node (s : t) (n : Z) : t :=
  mk (hashtable s) (tableFileMeta s) (tableDirectoryMeta s) (tableBlock s) (countNode s)
     n (WriteID s) (tx s) (data s).
Definition with_WriteID (s : t) (i : Z) : t :=
  mk (hashtable s) (tableFileMeta s) (tableDirectoryMeta s) (tableBlock s) (countNode s)
     (hashLocalNode s) i (tx s) (data s).
Definition with_tx (s : t) (x : Tx.t) : t :=
  mk (hashtable s) (tableFileMeta s) (tableDirectoryMeta s) (tableBlock s) (countNode s)
     (hashLocalNode s) (WriteID s) x (data s).
Definition with_data (s : t) (d : list Z) : t :=
  mk (hashtable s) (tableFileMeta s) (tableDirectoryMeta s) (tableBlock s) (countNode s)
     (hashLocalNode s) (WriteID s) (tx s) d.

(** Storage::getNodeHash *)
Definition getNodeHash (s : t) (h : HashTable.UniqueHash) : Z :=
  HashTable.value3 h mod countNode s + 1.

Definition checkLocal (s : t) (node : Z) : bool := node =? hashLocalNode s.

(** ** Transactions; Dotx is true *)

Definition TxLocalBegin (s : t) : outcome (Z * t) :=
  let! (_, x) := Tx.TxLocalBegin (tx s) in Done (0, with_tx s x).
Definition TxWriteData (s : t) (TxID : Z) (bytes : list Z) : outcome t :=
  let! x := Tx.TxWriteData (tx s) TxID bytes in Done (with_tx s x).
Definition TxLocalCommit (s : t) (TxID : Z) (action : bool) : outcome t :=
  let! x := Tx.TxLocalCommit (tx s) TxID action in Done (with_tx s x).
Definition TxDistributedBegin (s : t) : outcome (Z * t) :=
  let! (id, x) := Tx.TxDistributedBegin (tx s) in Done (id, with_tx s x).
Definition TxDistributedPrepare (s : t) (TxID : Z) (action : bool) : outcome t :=
  let! x := Tx.TxDistributedPrepare (tx s) TxID action in Done (with_tx s x).
Definition TxDistributedCommit (s : t) (TxID : Z) (action : bool) : outcome t :=
  let! x := Tx.TxDistributedCommit (tx s) TxID action in Done (with_tx s x).

(** ** Locks of hash items *)

Definition lock_word (s : t) (a : Z) : Z := HashTable.key (HashTable.hash_item (hashtable s) a).

Definition set_lock_word (s : t) (a w : Z) : t :=
  let h := hashtable s in
  with_hashtable s
    (HashTable.mk (HashTable.bitmapChainedItems h)
       (<[a := HashTable.mkHashItem w (HashTable.head_of h a)]> (HashTable.itemsHash h))
       (HashTable.itemsChained h) (HashTable.headFreeBit h)).

Definition lockWriteHashItem (s : t) (node a : Z) : outcome (Z * t) :=
  let (ID, WriteID') := Lock.next_id (WriteID s) in
  let key := Lock.lock_key (wrap 16 node) ID in
  match Lock.try_write (lock_word s a) key with
  | (true, w) => Done (key, set_lock_word (with_WriteID s WriteID') a w)
  | (false, _) => Fault LockHeld
  end.

Definition unlockWriteHashItem (s : t) (a : Z) : t :=
  set_lock_word s a (Lock.write_unlock (lock_word s a)).

Definition lockReadHashItem (s : t) (node a : Z) : outcome t :=
  match Lock.read_enter (lock_word s a) with
  | (true, w) => Done (set_lock_word s a w)
  | (false, w) =>
      if Lock.read_retry w then Done (set_lock_word s a w) else Fault LockHeld
  end.

Definition unlockReadHashItem (s : t) (a : Z) : t :=
  set_lock_word s a (Lock.read_unlock (lock_word s a)).

(** ** Paths *)

Definition slash : Z := 47.

(** for (int i = lengthPath - 1; i >= 0; i--) if (path[i] == '/') break; *)
Fixpoint last_slash (path : list Z) (n : nat) : option nat :=
  match n with
  | O => None
  | S i => if decide (path !! i = Some slash) then Some i else last_slash path i
  end.

(** The result and the string in the buffer [parent]. *)
Definition getParentDirectory (path parent : option (list Z)) : bool * option (list Z) :=
  match path, parent with
  | Some p, Some _ =>
      if decide (p = [slash]) then (false, Some p)
      else
        match last_slash p (length p) with
        | None => (false, Some p)
        | Some i => (true, Some (if decide (i = 0%nat) then [slash] else take i p))
        end
  | _, _ => (false, parent)
  end.

Definition getNameFromPath (path name : option (list Z)) : bool * option (list Z) :=
  match path, name with
  | Some p, Some _ =>
      if decide (p = [slash]) then (false, name)
      else
        match last_slash p (length p) with
        | None => (false, name)
        | Some i => (true, Some (drop (i + 1) p))
        end
  | _, _ => (false, name)
  end.

(** ** Directories *)

(** The lookup of a path: found, and the cells indexMeta and isDirectory. *)
Definition lookup_meta (s : t) (h : HashTable.UniqueHash) (cells : Z * bool)
    : outcome (bool * (Z * bool)) :=
  let! (found, r) := HashTable.get (hashtable s) (Some h) (Some cells.1) (Some cells.2) in
  Done (found, default cells r).

(** The out-parameters are the buffers *meta, *hashAddress, *metaAddress and
    *parentNodeID. *)
Definition readDirectoryMeta (l : locals) (s : t) (path : option (list Z))
    (meta : DirectoryMeta) (out : Z * Z * Z)
    : outcome (bool * DirectoryMeta * (Z * Z * Z) * t) :=
  match path with
  | None => Done (false, meta, out, s)
  | Some p =>
      let h := HashTable.getUniqueHash CalculateDigest p in
      let node := getNodeHash s h in
      let a := HashTable.getAddressHash h in
      let nodeID := wrap 16 node in
      if checkLocal s node then
        let! s1 := lockReadHashItem s node a in
        let! (found, cells) := lookup_meta s1 h (l_index l, l_isDirectory l) in
        let! (result, meta', address) :=
          (if negb found then Done (false, meta, out.1.2)
           else if negb cells.2 then Done (false, meta, out.1.2)
           else
             let! (ok, item, address) :=
               Table.get_address (tableDirectoryMeta s1) cells.1 (Some meta) out.1.2 in
             Done (ok, default meta item,
                   if ok : bool then wrap 64 (address - DmfsBaseAddress) else address)) in
        Done (result, meta', (a, address, nodeID), unlockReadHashItem s1 a)
      else Done (false, meta, (a, out.1.2, nodeID), s)
  end.

(** imm and SendBuffer are computed and not used; the memcpy overwrites the item
    in place. *)
Definition updateRemoteMeta (s : t) (meta : DirectoryMeta) (parentMetaAddress : Z) : outcome t :=
  let RemoteBuffer := parentMetaAddress in
  let! items := store (Table.items (tableDirectoryMeta s))
                  (wrap 64 (RemoteBuffer + DmfsBaseAddress)) meta in
  Done (with_dirs s (Table.with_items (tableDirectoryMeta s) items)).

(** parentMeta.count++; strcpy(tuple[count - 1].names, name); isDirectories = d *)
Definition add_name (m : DirectoryMeta) (name : list Z) (d : bool) : outcome DirectoryMeta :=
  let c := wrap 64 (d_count m + 1) in
  let i := wrap 64 (c - 1) in
  let! e := load (d_tuple m) i in
  if zlen name + 1 <=? MAX_FILE_NAME_LENGTH then
    let! tuple' := store (d_tuple m) i (mkName (blit (names e) 0 (name ++ [0])) d) in
    Done (mkDirectoryMeta c tuple')
  else Fault OutOfBounds.

(** The part mknodcd and mkdircd share: lock, parent, commit and unlock around
    [body], which gets the parent's meta, its address, the name and the id of the
    local transaction. *)
Definition with_parent (l : locals) (s : t) (path : option (list Z))
    (body : t -> HashTable.UniqueHash -> DirectoryMeta -> Z -> list Z -> Z -> outcome (bool * t))
    : outcome (bool * t) :=
  match path with
  | None => Done (false, s)
  | Some p =>
      let h := HashTable.getUniqueHash CalculateDigest p in
      let node := getNodeHash s h in
      let a := HashTable.getAddressHash h in
      if checkLocal s node then
        let! (key, s1) := lockWriteHashItem s node a in
        let! (LocalTxID, s2) := TxLocalBegin s1 in
        let parent := (getParentDirectory path (Some (l_name l))).2 in
        let name := default [] (getNameFromPath path (Some (l_name l))).2 in
        let! (ok, parentMeta, out, s3) :=
          readDirectoryMeta l s2 parent (l_dir l) (l_index l, l_index l, l_index l) in
        let! (result, s4) :=
          (if negb ok then Done (false, s3)
           else body s3 h parentMeta out.1.2 name LocalTxID) in
        let! s5 := TxLocalCommit s4 LocalTxID result in
        Done (result, unlockWriteHashItem s5 a)
      else Done (false, s)
  end.

Definition mknodcd (l : locals) (s : t) (path : option (list Z)) : outcome (bool * t) :=
  with_parent l s path (fun s h parentMeta parentMetaAddress name LocalTxID =>
    let! (found, cells) := lookup_meta s h (l_index l, l_isDirectory l) in
    if (found : bool) then Done (false, s)
    else
      let! parentMeta' := add_name parentMeta name cells.2 in
      let metaFile := new_file l in
      let! s1 := TxWriteData s LocalTxID (encode_DirectoryMeta parentMeta') in
      let! (ok, index, files) :=
        Table.create (tableFileMeta s1) (Some (l_index l)) (Some metaFile) in
      let s2 := with_files s1 files in
      if negb ok then Done (false, s2)
      else
        let! (ok2, ht) :=
          HashTable.put (hashtable s2) (Some h) (default (l_index l) index) false in
        Done (ok2, with_hashtable s2 ht)).

Definition mkdircd (l : locals) (s : t) (path : option (list Z)) : outcome (bool * t) :=
  with_parent l s path (fun s h parentMeta parentMetaAddress name LocalTxID =>
    let! (found, cells) := lookup_meta s h (l_index l, l_isDirectory l) in
    if (found : bool) then Done (false, s)
    else
      let! parentMeta' := add_name parentMeta name true in
      let metaDirectory := new_dir l in
      let! s1 := TxWriteData s LocalTxID (encode_DirectoryMeta parentMeta') in
      let! s2 := updateRemoteMeta s1 parentMeta' parentMetaAddress in
      let! (ok, index, dirs) :=
        Table.create (tableDirectoryMeta s2) (Some (l_index l)) (Some metaDirectory) in
      let s3 := with_dirs s2 dirs in
      if negb ok then Done (false, s3)
      else
        let! (ok2, ht) :=
          HashTable.put (hashtable s3) (Some h) (default (l_index l) index) true in
        Done (ok2, with_hashtable s3 ht)).

(** A lookup under the read lock of its bucket; [body] gets the cells. *)
Definition under_read_lock {A} (l : locals) (s : t) (p : list Z) (remote : A)
    (body : t -> bool -> Z * bool -> outcome A) : outcome (A * t) :=
  let h := HashTable.getUniqueHash CalculateDigest p in
  let node := getNodeHash s h in
  let a := HashTable.getAddressHash h in
  if checkLocal s node then
    let! s1 := lockReadHashItem s node a in
    let! (found, cells) := lookup_meta s1 h (l_index l, l_isDirectory l) in
    let! r := body s1 found cells in
    Done (r, unlockReadHashItem s1 a)
  else Done (remote, s).

Definition access (l : locals) (s : t) (path : option (list Z)) : outcome (bool * t) :=
  match path with
  | None => Done (false, s)
  | Some p => under_read_lock l s p false (fun _ found _ => Done found)
  end.

Definition getattr (l : locals) (s : t) (path : option (list Z)) (attribute : option FileMeta)
    : outcome (bool * option FileMeta * t) :=
  match path, attribute with
  | Some p, Some att =>
      under_read_lock l s p (false, Some att) (fun s found cells =>
        if negb found then Done (false, Some att)
        else if negb cells.2 then
          Table.get (tableFileMeta s) cells.1 (Some att)
        else
          Done (true, Some (mkFileMeta (timeLastModified att) MAX_FILE_EXTENT_COUNT
                              (size att) (tuple att))))
  | _, _ => Done (false, attribute, s)
  end.

Definition rootInitialize (l : locals) (s : t) (LocalNode : Z) : outcome t :=
  let s := with_local_node s LocalNode in
  let h := HashTable.getUniqueHash CalculateDigest [slash] in
  if getNodeHash s h =? hashLocalNode s then
    let metaDirectory := new_dir l in
    let! (ok, index, dirs) :=
      Table.create (tableDirectoryMeta s) (Some (l_index l)) (Some metaDirectory) in
    if negb ok then Fault ProcessExit
    else
      let! (ok2, ht) := HashTable.put_path CalculateDigest (hashtable s) (Some [slash])
                          (default (l_index l) index) true in
      if negb ok2 then Fault ProcessExit
      else Done (with_hashtable (with_dirs s dirs) ht)
  else Done s.

(** ** Data blocks *)

(** memcpy between two ranges of the blocks. *)
Definition memcpy (d : list Z) (dst src n : Z) : outcome (list Z) :=
  if (0 <=? dst) && (dst + n <=? zlen d) && (0 <=? src) && (src + n <=? zlen d) then
    Done (blit d (Z.to_nat dst) (take (Z.to_nat n) (drop (Z.to_nat src) d)))
  else Fault OutOfBounds.

Definition set_pos (fpi : file_pos_info) (i offset size : Z) : outcome file_pos_info :=
  let! l := store (p_tuple fpi) i (mkPos offset size) in Done (mkPosInfo (p_len fpi) l).

(** fei_out->tuple[i].block_id = index, a uint32_t. *)
Definition set_block (fei : file_extent_info) (i index : Z) : outcome file_extent_info :=
  let! l := store (e_tuple fei) i (wrap 32 index) in
  Done (mkExtentInfo (e_timeLastModified fei) (e_len fei) l).

(** tuple[i].block_id != NULLBLCOK_ID: the uint32_t is extended to 64 bits. *)
Definition has_block (block_id : Z) : bool := negb (block_id =? NULLBLCOK_ID).

(** tuple[i].block_id * BLOCK_SIZE, a product of two 32-bit integers. *)
Definition block_address (block_id : Z) : Z := wrap 32 (block_id * BLOCK_SIZE).

Definition create_block (s : t) (index : Z) : outcome (bool * Z * t) :=
  let! (ok, r, b) := Table.create_index (tableBlock s) (Some index) in
  Done (ok, default index r, with_blocks s b).

(** The branch countExtraBlock == 1. *)
Definition write_only_block (l : locals) (s : t) (size offset : Z) (fpi : file_pos_info)
    (fei_in : option file_extent_info) (fei_out : file_extent_info)
    : outcome (bool * file_pos_info * file_extent_info * t) :=
  let! (ok, index, s1) := create_block s (l_index l) in
  if negb ok then Done (false, fpi, fei_out, s1)
  else
    let! fei_out' := set_block fei_out 0 index in
    let! fpi' := set_pos fpi 0 (wrap 64 (index * BLOCK_SIZE + offset mod BLOCK_SIZE)) size in
    if size =? BLOCK_SIZE then Done (true, fpi', fei_out', s1)
    else
      let! fei := of_option NullDeref fei_in in
      let! block_id := load (e_tuple fei) 0 in
      if has_block block_id then
        let! d := memcpy (data s1) (wrap 64 (index * BLOCK_SIZE)) (block_address block_id)
                    BLOCK_SIZE in
        Done (true, fpi', fei_out', with_data s1 d)
      else Done (true, fpi', fei_out', s1).

(** The body of the loop for block [i]. *)
Definition write_block (l : locals) (s : t) (size offset : Z) (fpi : file_pos_info)
    (fei_in : option file_extent_info) (fei_out : file_extent_info) (n i : Z)
    : outcome (bool * file_pos_info * file_extent_info * t) :=
  let! (ok, index, s1) := create_block s (l_index l) in
  if negb ok then Done (false, fpi, fei_out, s1)
  else
    let! fei_out' := set_block fei_out i index in
    let! fpi1 := set_pos fpi i (wrap 64 (index * BLOCK_SIZE)) BLOCK_SIZE in
    let! (fpi2, s2) :=
      (if (i =? 0) && negb (offset mod BLOCK_SIZE =? 0) then
         let! fpi' := set_pos fpi1 0 (wrap 64 (index * BLOCK_SIZE + offset mod BLOCK_SIZE))
                        (BLOCK_SIZE - offset mod BLOCK_SIZE) in
         match fei_in with
         | None => Done (fpi', s1)
         | Some fei =>
             let! block_id := load (e_tuple fei) i in
             if has_block block_id then
               let! d := memcpy (data s1) (wrap 64 (index * BLOCK_SIZE))
                           (block_address block_id) (offset mod BLOCK_SIZE) in
               Done (fpi', with_data s1 d)
             else Done (fpi', s1)
         end
       else Done (fpi1, s1)) in
    let rest := wrap 64 (offset + size) mod BLOCK_SIZE in
    let! (fpi3, s3) :=
      (if (i =? n - 1) && negb (rest =? 0) then
         let! p := load (p_tuple fpi2) i in
         let! fpi' := set_pos fpi2 i (p_offset p) rest in
         match fei_in with
         | None => Done (fpi', s2)
         | Some fei =>
             let! block_id := load (e_tuple fei) i in
             if has_block block_id then
               let! p0 := load (p_tuple fpi') 0 in
               let! d := memcpy (data s2) (wrap 64 (p_offset p0 + rest))
                           (wrap 64 (block_address block_id + rest)) (BLOCK_SIZE - rest) in
               Done (fpi', with_data s2 d)
             else Done (fpi', s2)
         end
       else Done (fpi2, s2)) in
    Done (true, fpi3, fei_out', s3).

(** The loop from block [i]; it leaves the arrays before the fuel is used up. *)
Fixpoint write_blocks (fuel : nat) (l : locals) (s : t) (size offset : Z) (fpi : file_pos_info)
    (fei_in : option file_extent_info) (fei_out : file_extent_info) (n i : Z)
    : outcome (bool * file_pos_info * file_extent_info * t) :=
  if i <? n then
    match fuel with
    | O => Fault Diverges
    | S fuel' =>
        let! (ok, fpi', fei_out', s') := write_block l s size offset fpi fei_in fei_out n i in
        if negb ok then Done (false, fpi', fei_out', s')
        else write_blocks fuel' l s' size offset fpi' fei_in fei_out' n (i + 1)
    end
  else Done (true, fpi, fei_out, s).

Definition loop_fuel : nat := 13.

Definition extentWrite (l : locals) (s : t) (path : option (list Z)) (size offset : Z)
    (fpi : option file_pos_info) (fei_in : option file_extent_info)
    (fei_out : file_extent_info)
    : outcome (bool * option file_pos_info * file_extent_info * t) :=
  match path, fpi with
  | Some _, Some fpi0 =>
      if (wrap 64 (2 ^ 64 - 1 - offset) <? size) || (size =? 0) then
        Done (false, fpi, fei_out, s)
      else
        let countExtraBlock :=
          wrap 64 (wrap 64 (offset + size - 1) / BLOCK_SIZE - offset / BLOCK_SIZE + 1) in
        let fpi1 := mkPosInfo (wrap 32 countExtraBlock) (p_tuple fpi0) in
        let fei1 := mkExtentInfo (e_timeLastModified fei_out) countExtraBlock (e_tuple fei_out) in
        let! (ok, fpi', fei', s') :=
          (if countExtraBlock =? 1 then write_only_block l s size offset fpi1 fei_in fei1
           else write_blocks loop_fuel l s size offset fpi1 fei_in fei1 countExtraBlock 0) in
        Done (ok, Some fpi', fei', s')
  | _, _ => Done (false, fpi, fei_out, s)
  end.

(** The body of extentRead's loop; every block is taken from tuple[0]. *)
Definition read_block (size offset : Z) (fei : file_extent_info) (fpi : file_pos_info) (i : Z)
    : outcome file_pos_info :=
  let! block_id := load (e_tuple fei) 0 in
  let! fpi1 := set_pos fpi i (block_address block_id) BLOCK_SIZE in
  let! fpi2 :=
    (if (i =? 0) && negb (offset mod BLOCK_SIZE =? 0) then
       set_pos fpi1 0 (wrap 64 (block_address block_id + offset mod BLOCK_SIZE))
         (BLOCK_SIZE - offset mod BLOCK_SIZE)
     else Done fpi1) in
  let rest := wrap 64 (offset + size) mod BLOCK_SIZE in
  if (i =? e_len fei - 1) && negb (rest =? 0) then
    let! p := load (p_tuple fpi2) i in set_pos fpi2 i (p_offset p) rest
  else Done fpi2.

Fixpoint read_blocks (fuel : nat) (size offset : Z) (fei : file_extent_info)
    (fpi : file_pos_info) (i : Z) : outcome file_pos_info :=
  if i <? e_len fei then
    match fuel with
    | O => Fault Diverges
    | S fuel' =>
        let! fpi' := read_block size offset fei fpi i in
        read_blocks fuel' size offset fei fpi' (i + 1)
    end
  else Done fpi.

Definition extentRead (size offset : Z) (fei : file_extent_info) (fpi : file_pos_info)
    : outcome (bool * file_pos_info) :=
  let! fpi' := read_blocks loop_fuel size offset fei fpi 0 in Done (true, fpi').

(** ** Extents *)

Definition set_count (m : FileMeta) (c : Z) : FileMeta :=
  mkFileMeta (timeLastModified m) c (size m) (tuple m).
Definition set_size (m : FileMeta) (sz : Z) : FileMeta :=
  mkFileMeta (timeLastModified m) (count m) sz (tuple m).
Definition set_time (m : FileMeta) (x : Z) : FileMeta :=
  mkFileMeta x (count m) (size m) (tuple m).
Definition set_tuple (m : FileMeta) (l : list FileMetaTuple) : FileMeta :=
  mkFileMeta (timeLastModified m) (count m) (size m) l.

Definition extent_fuel : nat := 65.

(** for (i = metaFile->count - 1; i < bound; i++) tuple[i].countExtentBlock = 0; *)
Fixpoint clear_extents (fuel : nat) (l : list FileMetaTuple) (bound i : Z)
    : outcome (list FileMetaTuple) :=
  if i <? bound then
    match fuel with
    | O => Fault Diverges
    | S fuel' =>
        let! e := load l i in
        let! l' := store l i (mkExtent (hashNode e) (indexExtentStartBlock e) 0) in
        clear_extents fuel' l' bound (wrap 64 (i + 1))
    end
  else Done l.

(** for (i = 0; i < fei->len; i++) tuple[i + begin_id] = (block_id, 1); *)
Fixpoint set_extents (fuel : nat) (l : list FileMetaTuple) (fei : file_extent_info)
    (begin_id i : Z) : outcome (list FileMetaTuple) :=
  if i <? e_len fei then
    match fuel with
    | O => Fault Diverges
    | S fuel' =>
        let! b := load (e_tuple fei) i in
        let! e := load l (wrap 64 (i + begin_id)) in
        let! l' := store l (wrap 64 (i + begin_id)) (mkExtent (hashNode e) b 1) in
        set_extents fuel' l' fei begin_id (i + 1)
    end
  else Done l.

(** The changes extentMetaWrite makes to *metaFile. *)
Definition meta_write (m : FileMeta) (sz offset : Z) (fei : file_extent_info)
    : outcome FileMeta :=
  let stop := wrap 64 (offset + sz) in
  let m1 :=
    if (size m =? 0) || ((size m - 1) / BLOCK_SIZE <? (stop - 1) / BLOCK_SIZE)
    then set_size m stop
    else set_size m (if size m <? stop then stop else size m) in
  let begin_id := offset / BLOCK_SIZE in
  let last := wrap 64 (begin_id + e_len fei) in
  let! l1 := clear_extents extent_fuel (tuple m1) (wrap 64 (last - 1)) (wrap 64 (count m1 - 1)) in
  let m2 := set_tuple m1 l1 in
  let m3 := if count m2 <? last then set_count m2 last else m2 in
  let! l2 := set_extents loop_fuel (tuple m3) fei begin_id 0 in
  let m4 := set_tuple m3 l2 in
  Done (if timeLastModified m4 <? e_timeLastModified fei
        then set_time m4 (e_timeLastModified fei) else m4).

(** The write lock is taken whether or not the node is local. *)
Definition extentMetaWrite (l : locals) (s : t) (path : option (list Z)) (sz offset : Z)
    (fei : option file_extent_info) : outcome (bool * t) :=
  match path, fei with
  | Some p, Some fei =>
      let h := HashTable.getUniqueHash CalculateDigest p in
      let node := getNodeHash s h in
      let a := HashTable.getAddressHash h in
      let! (key, s1) := lockWriteHashItem s node a in
      let! (found, cells) := lookup_meta s1 h (l_index l, l_isDirectory l) in
      let! (result, m) :=
        (if negb found then Done (false, l_file l)
         else if cells.2 : bool then Done (false, l_file l)
         else
           let! (ok, m) := Table.get (tableFileMeta s1) cells.1 (Some (l_file l)) in
           if negb ok then Done (false, l_file l)
           else if (wrap 64 (2 ^ 64 - 1 - offset) <? sz) || (sz =? 0) then Done (false, l_file l)
           else
             let! m' := meta_write (default (l_file l) m) sz offset fei in Done (true, m')) in
      let! s2 :=
        (if result : bool then
           let! (_, f) := Table.put (tableFileMeta s1) cells.1 (Some m) in
           Done (with_files s1 f)
         else Done s1) in
      Done (result, unlockWriteHashItem s2 a)
  | _, _ => Done (false, s)
  end.
End ops.
Arguments t B : clear implicits.

(** *** The constructors *)

Definition sizeof_HashItem : Z := 16.
Definition sizeof_ChainedItem : Z := 56.
Definition sizeof_FileMeta : Z := 24 + MAX_FILE_EXTENT_COUNT * 16.
Definition sizeof_DirectoryMeta : Z := 8 + MAX_DIRECTORY_COUNT * (MAX_FILE_NAME_LENGTH + 1).

Definition le_value (bytes : list Z) : Z := foldr (fun b acc => b + 256 * acc) 0 bytes.

(** The field of [n] bytes at offset [o]. *)
Definition field (bytes : list Z) (o n : Z) : Z :=
  le_value (take (Z.to_nat n) (drop (Z.to_nat o) bytes)).

Definition decode_FileMeta (bytes : list Z) : FileMeta :=
  mkFileMeta (field bytes 0 8) (field bytes 8 8) (field bytes 16 8)
    ((fun i => mkExtent (field bytes (24 + 16 * i) 8) (field bytes (32 + 16 * i) 4)
                 (field bytes (36 + 16 * i) 4)) <$> seqZ 0 MAX_FILE_EXTENT_COUNT).

Definition decode_DirectoryMeta (bytes : list Z) : DirectoryMeta :=
  mkDirectoryMeta (field bytes 0 8)
    ((fun i => mkName (take 50 (drop (Z.to_nat (8 + 51 * i)) bytes))
                 (negb (field bytes (58 + 51 * i) 1 =? 0))) <$> seqZ 0 MAX_DIRECTORY_COUNT).

(** The buffer of the metadata: the three regions of the hash table and the
    bytes behind them, where the two tables follow each other. *)
Record buffer := mkBuffer {
  b_heads : gmap Z HashTable.HashItem; b_bits : list Z;
  b_chained : list HashTable.ChainedItem; b_rest : list Z
}.

(** FileSystem::FileSystem with Storage::Storage.  The member hashLocalNode, the
    WriteID of the lock service and the server's transaction manager are not set
    here. *)
Definition construct (buf : option buffer) (bufferBlock : option (list Z))
    (countFile countDirectory countBlock countNode hashLocalNode : Z)
    (hashLocalNode0 WriteID0 : Z) (tx0 : Tx.t) : outcome (t Bitmap.t) :=
  match buf, bufferBlock with
  | Some b, Some blocks =>
      if (countFile =? 0) || (countDirectory =? 0) || (countBlock =? 0) || (countNode =? 0)
         || (hashLocalNode <? 1) || (countNode <? hashLocalNode)
      then Fault ProcessExit
      else
        let! ht := HashTable.construct (Some (b_heads b, b_bits b, b_chained b))
                     (wrap 64 (countDirectory + countFile)) in
        let! files := Table.construct sizeof_FileMeta decode_FileMeta (Some (b_rest b)) countFile in
        let! dirs := Table.construct sizeof_DirectoryMeta decode_DirectoryMeta
          (Some (drop (Z.to_nat (Table.sizeBufferUsed sizeof_FileMeta countFile)) (b_rest b)))
          countDirectory in
        let! table := Table.construct BLOCK_SIZE (fun _ => tt) (Some blocks) countBlock in
        Done (mk ht files dirs table countNode hashLocalNode0 WriteID0 tx0
                (take (Z.to_nat (countBlock * BLOCK_SIZE)) blocks))
  | _, _ => Fault ProcessExit
  end.
(** ** Abstraction: a finite map from path hashes to nodes *)

Inductive node := File (m : FileMeta) | Dir (m : DirectoryMeta).

Notation UniqueHash := HashTable.UniqueHash.

(** What the tables hold for the pair (index, isDirectory) of the hash table. *)
Definition meta_of (files : gmap Z FileMeta) (dirs : gmap Z DirectoryMeta) (v : Z * bool)
    : option node :=
  if v.2 then Dir <$> dirs !! v.1 else File <$> files !! v.1.

(** Every entry of the hash table has a meta of its own. *)
Record linked (ns : gmap UniqueHash node) (m : gmap UniqueHash (Z * bool))
    (files : gmap Z FileMeta) (dirs : gmap Z DirectoryMeta) : Prop := {
  li_ns h : ns !! h = m !! h ≫= meta_of files dirs;
  li_some h v : m !! h = Some v -> is_Some (meta_of files dirs v);
  li_all v : is_Some (meta_of files dirs v) -> exists h, m !! h = Some v;
  li_inj h h' v : m !! h = Some v -> m !! h' = Some v -> h = h'
}.

Lemma meta_insert_file files dirs i f v :
  meta_of (<[i := f]> files) dirs v =
    if decide (v = (i, false)) then Some (File f) else meta_of files dirs v.
Proof.
  destruct v as [j [|]]; unfold meta_of; simpl; [by case_decide|].
  case_decide as E; [simplify_eq; by rewrite lookup_insert_eq|].
  rewrite lookup_insert_ne; [done|]. intros ->. done.
Qed.

Lemma meta_insert_dir files dirs i d v :
  meta_of files (<[i := d]> dirs) v =
    if decide (v = (i, true)) then Some (Dir d) else meta_of files dirs v.
Proof.
  destruct v as [j [|]]; unfold meta_of; simpl; [|by case_decide].
  case_decide as E; [simplify_eq; by rewrite lookup_insert_eq|].
  rewrite lookup_insert_ne; [done|]. intros ->. done.
Qed.

(** A new entry with a new meta [v], and a change of the meta of one entry;
    [files'] and [dirs'] differ from [files] and [dirs] in [v] only. *)
Lemma linked_new ns m files dirs files' dirs' h v n :
  linked ns m files dirs -> m !! h = None -> meta_of files dirs v = None ->
  (forall w, meta_of files' dirs' w = if decide (w = v) then Some n else meta_of files dirs w) ->
  linked (<[h := n]> ns) (<[h := v]> m) files' dirs'.
Proof.
  intros [Hn Hs Ha Hj] Hh Hv Ho.
  assert (Hfresh : forall h', m !! h' <> Some v).
  { intros h' E. apply Hs in E as [x E]. by rewrite Hv in E. }
  split.
  - intros h'. destruct (decide (h' = h)) as [->|Hne].
    + rewrite !lookup_insert_eq. simpl. by rewrite Ho, decide_True.
    + rewrite !lookup_insert_ne by done. rewrite Hn.
      destruct (m !! h') as [w|] eqn:E; [|done]. simpl. rewrite Ho, decide_False; [done|].
      intros ->. by destruct (Hfresh h').
  - intros h' w. rewrite Ho. case_decide; [eauto|]. rewrite lookup_insert_Some.
    intros [[_ <-]|[_ E]]; [done|eauto].
  - intros w. rewrite Ho. case_decide as Ew.
    + subst w. exists h. by rewrite lookup_insert_eq.
    + intros [h' Hw]%Ha. exists h'. rewrite lookup_insert_ne; [done|]. intros ->. naive_solver.
  - intros a b w. rewrite !lookup_insert_Some. naive_solver.
Qed.

Lemma linked_update ns m files dirs files' dirs' h v n :
  linked ns m files dirs -> m !! h = Some v ->
  (forall w, meta_of files' dirs' w = if decide (w = v) then Some n else meta_of files dirs w) ->
  linked (<[h := n]> ns) m files' dirs'.
Proof.
  intros [Hn Hs Ha Hj] Hh Ho. split; [..|done].
  - intros h'. destruct (decide (h' = h)) as [->|Hne].
    + rewrite lookup_insert_eq, Hh. simpl. by rewrite Ho, decide_True.
    + rewrite lookup_insert_ne by done. rewrite Hn. destruct (m !! h') as [w|] eqn:E; [|done]. simpl.
      rewrite Ho, decide_False; [done|]. intros ->. destruct Hne. eauto.
  - intros h' w Hw. rewrite Ho. case_decide; eauto.
  - intros w. rewrite Ho. case_decide as Ew; [subst w; eauto|apply Ha].
Qed.

Lemma linked_empty : linked ∅ ∅ ∅ ∅.
Proof.
  split; [done|intros h v; by rewrite lookup_empty| |intros h h' v; by rewrite lookup_empty].
  intros [i [|]]; unfold meta_of; cbn; rewrite lookup_empty; by intros [].
Qed.

Lemma size_by_map {K} `{Countable K} {A V} (l : gmap K A) (m : gmap UniqueHash V) (f : V -> K) :
  (forall i, is_Some (l !! i) -> exists h v, m !! h = Some v /\ f v = i) ->
  (base.size l <= base.size m)%nat.
Proof.
  intros Hl. rewrite <- !length_map_to_list.
  rewrite <- (length_fmap fst (map_to_list l)), <- (length_fmap (f ∘ snd) (map_to_list m)).
  apply submseteq_length, NoDup_submseteq; [apply NoDup_fst_map_to_list|].
  intros i ([i' x] & -> & Hi%elem_of_map_to_list)%list_elem_of_fmap. cbn.
  destruct (Hl i' (ex_intro _ _ Hi)) as (h & v & Hv & <-).
  apply list_elem_of_fmap. exists (h, v). split; [done|]. by apply elem_of_map_to_list.
Qed.

Lemma linked_sizes ns m files dirs :
  linked ns m files dirs ->
  base.size m = base.size ns /\ (base.size files <= base.size ns)%nat /\ (base.size dirs <= base.size ns)%nat.
Proof.
  intros L. assert (E : base.size m = base.size ns).
  { rewrite <- !size_dom. f_equal. apply set_eq. intros h. rewrite !elem_of_dom, (li_ns _ _ _ _ L).
    split.
    - intros [v E]. rewrite E. cbn. by eapply li_some.
    - destruct (m !! h); cbn; [eauto|]. by intros []. }
  split; [done|]. rewrite <- E. split; apply (size_by_map _ _ fst).
  - intros i Hi. destruct (li_all _ _ _ _ L (i, false)) as [h Hh]; [|eauto].
    unfold meta_of. cbn. by destruct Hi as [x ->].
  - intros i Hi. destruct (li_all _ _ _ _ L (i, true)) as [h Hh]; [|eauto].
    unfold meta_of. cbn. by destruct Hi as [x ->].
Qed.

(** ** What a state represents *)

Section model.
Context {B : Type} `{PositionSet B}.
Context (CalculateDigest : list Z -> UniqueHash) (DmfsBaseAddress : Z).
Context (capH capF capD : Z) (nodes me : Z).

(** A DirectoryMeta as the compiler lays it out. *)
Definition dir_ok (d : DirectoryMeta) : Prop :=
  in_width 64 (d_count d) /\ zlen (d_tuple d) = MAX_DIRECTORY_COUNT /\
  Forall (fun e => zlen (names e) = MAX_FILE_NAME_LENGTH) (d_tuple d).

#[export] Instance dir_ok_dec d : Decision (dir_ok d).
Proof. unfold dir_ok, in_width. apply _. Defined.

(** The three maps of a state.  [W] gives the lock words; outside the operations
    they are 0. *)
Record rep (s : t B) (m : gmap UniqueHash (Z * bool)) (files : gmap Z FileMeta)
    (dirs : gmap Z DirectoryMeta) (W : Z -> Z) : Prop := {
  rp_hash : HashTable.represents capH (hashtable s) m;
  rp_files : Table.represents capF (tableFileMeta s) files;
  rp_dirs : Table.represents capD (tableDirectoryMeta s) dirs;
  rp_words a : lock_word s a = W a;
  rp_id : in_width 16 (WriteID s);
  rp_node : 0 < nodes < 2 ^ 16 /\ countNode s = nodes /\ hashLocalNode s = me;
  rp_log : 0 < zlen (Tx.localLog (tx s)) < 2 ^ 63 /\ 0 <= Tx.LocalLogIndex (tx s) /\
    Forall (fun e => zlen (Tx.logData e) = Tx.logData_size) (Tx.localLog (tx s));
  rp_dir_ok i d : dirs !! i = Some d -> dir_ok d;
  rp_capD : capD < 2 ^ 63
}.

Definition represents (s : t B) (ns : gmap UniqueHash node) : Prop :=
  exists m files dirs, rep s m files dirs (fun _ => 0) /\ linked ns m files dirs.

(** *** Lock words *)

Lemma models_heads (h h' : HashTable.t B) C m :
  HashTable.bitmapChainedItems h' = HashTable.bitmapChainedItems h ->
  HashTable.itemsChained h' = HashTable.itemsChained h ->
  HashTable.headFreeBit h' = HashTable.headFreeBit h ->
  (forall a, HashTable.head_of h' a = HashTable.head_of h a) ->
  HashTable.models capH h C m -> HashTable.models capH h' C m.
Proof. intros Eb Ei Ef Eh []. split; rewrite ?Eb, ?Ei, ?Ef; try done. intros a. by rewrite Eh. Qed.

Lemma lock_word_set (s : t B) a w b :
  lock_word (set_lock_word s a w) b = if decide (b = a) then w else lock_word s b.
Proof.
  unfold lock_word, set_lock_word, HashTable.hash_item. simpl. case_decide as E.
  - subst. by rewrite lookup_insert_eq.
  - by rewrite lookup_insert_ne.
Qed.

Lemma head_set_lock_word (s : t B) a w b :
  HashTable.head_of (hashtable (set_lock_word s a w)) b = HashTable.head_of (hashtable s) b.
Proof.
  unfold set_lock_word, HashTable.head_of, HashTable.hash_item. simpl.
  destruct (decide (b = a)) as [->|Hne]; [by rewrite lookup_insert_eq|by rewrite lookup_insert_ne].
Qed.

Lemma rep_set_word s m files dirs W W' a w :
  rep s m files dirs W -> (forall b, W' b = if decide (b = a) then w else W b) ->
  rep (set_lock_word s a w) m files dirs W'.
Proof.
  intros [[C M] Rf Rd Hw Hi Hl Hd] E. split; try done.
  - exists C. eapply models_heads; [..|exact M]; try done. intros b. apply head_set_lock_word.
  - intros b. rewrite lock_word_set, E. by case_decide.
Qed.

Lemma node_range s m files dirs W h :
  rep s m files dirs W -> 0 < wrap 16 (getNodeHash s h) < 2 ^ 16.
Proof.
  intros R. pose proof (rp_node _ _ _ _ _ R) as (Hn & Hc & _). unfold getNodeHash. rewrite Hc.
  pose proof (Z.mod_pos_bound (HashTable.value3 h) nodes ltac:(lia)) as Hb.
  rewrite wrap_small by (unfold in_width; lia). lia.
Qed.

Definition write_key (s : t B) (h : UniqueHash) : Z :=
  Lock.lock_key (wrap 16 (getNodeHash s h)) (WriteID s).

Lemma lock_write_spec s m files dirs h a :
  rep s m files dirs (fun _ => 0) ->
  exists s', lockWriteHashItem s (getNodeHash s h) a = Done (write_key s h, s') /\
    rep s' m files dirs (fun b => if decide (b = a) then write_key s h else 0) /\
    s' = set_lock_word (with_WriteID s (wrap 16 (WriteID s + 1))) a (write_key s h).
Proof.
  intros R. unfold lockWriteHashItem, Lock.next_id, Lock.try_write, Lock.compare_and_swap.
  rewrite (rp_words _ _ _ _ _ R). cbn. eexists. split_and!; [reflexivity| |reflexivity].
  eapply rep_set_word; [|done]. destruct R. split; try done. cbn. apply wrap_range. lia.
Qed.

Lemma lock_read_spec s m files dirs W n a :
  rep s m files dirs W -> W a = 0 ->
  lockReadHashItem s n a = Done (set_lock_word s a 1).
Proof.
  intros R Ha. unfold lockReadHashItem. by rewrite (rp_words _ _ _ _ _ R), Ha.
Qed.

Definition unread (s : t B) (a : Z) : t B := unlockReadHashItem (set_lock_word s a 1) a.

Lemma rep_unread s m files dirs W a :
  rep s m files dirs W -> W a = 0 -> rep (unread s a) m files dirs W.
Proof.
  intros R Ha. unfold unread, unlockReadHashItem.
  eapply (rep_set_word _ _ _ _ (fun b => if decide (b = a) then 1 else W b)).
  - by eapply rep_set_word.
  - intros b. rewrite lock_word_set, (decide_True (P := a = a)) by done.
    destruct (decide (b = a)) as [->|]; [by rewrite Ha|done].
Qed.

Lemma rep_write_unlock s s0 m files dirs h a :
  rep s m files dirs (fun b => if decide (b = a) then write_key s0 h else 0) ->
  0 < wrap 16 (getNodeHash s0 h) < 2 ^ 16 -> in_width 16 (WriteID s0) ->
  rep (unlockWriteHashItem s a) m files dirs (fun _ => 0).
Proof.
  intros R Hn Hi. unfold unlockWriteHashItem. eapply rep_set_word; [exact R|].
  intros b. rewrite (rp_words _ _ _ _ _ R). case_decide; [|done].
  rewrite decide_True by done. destruct (Lock.lock_key_ok _ _ Hn Hi) as [_ Hk].
  unfold write_key. rewrite <- (Z.add_0_r (Lock.lock_key _ _)). by rewrite Lock.unlock_word by lia.
Qed.

(** *** The hash table *)

Lemma lookup_meta_spec (s : t B) m h cells :
  HashTable.represents capH (hashtable s) m ->
  lookup_meta s h cells =
    Done (match m !! h with Some v => (true, v) | None => (false, cells) end).
Proof.
  intros [C M]. unfold lookup_meta, HashTable.get. rewrite (HashTable.get_at_spec _ _ _ _ h _ M).
  simpl. destruct (m !! h); [done|]. by destruct cells.
Qed.

Lemma new_item_heads (h : HashTable.t B) k i d r h' :
  HashTable.new_item h k i d = Done (r, h') -> HashTable.itemsHash h' = HashTable.itemsHash h.
Proof.
  unfold HashTable.new_item. destruct (HashTable.headFreeBit h) as [|p rest]; [by intros [= _ <-]|].
  intros ([[|] bm] & _ & E)%obind_inv; [|by simplify_eq].
  apply obind_inv in E as (items & _ & E). by simplify_eq.
Qed.

Lemma put_keys (h : HashTable.t B) k i d r h' a :
  HashTable.put h (Some k) i d = Done (r, h') ->
  HashTable.key (HashTable.hash_item h' a) = HashTable.key (HashTable.hash_item h a).
Proof.
  unfold HashTable.put, HashTable.put_at. case_match.
  - intros ([o h1] & E1%new_item_heads & E)%obind_inv.
    destruct o as [p|]; simplify_eq; unfold HashTable.hash_item; simpl; [|by rewrite E1].
    destruct (decide (a = HashTable.getAddressHash k)) as [->|Hne].
    + rewrite lookup_insert_eq. simpl. unfold HashTable.hash_item. by rewrite E1.
    + rewrite lookup_insert_ne by done. by rewrite E1.
  - intros ([[[|] b] c] & _ & E)%obind_inv.
    + apply obind_inv in E as (it & _ & E). apply obind_inv in E as (items & _ & E). by simplify_eq.
    + apply obind_inv in E as ([o h1] & E1%new_item_heads & E).
      destruct o as [p|]; [|simplify_eq; unfold HashTable.hash_item; by rewrite E1].
      apply obind_inv in E as (it & _ & E). apply obind_inv in E as (items & _ & E).
      simplify_eq. unfold HashTable.hash_item. simpl. by rewrite E1.
Qed.

Lemma put_new_spec (ht : HashTable.t B) m h i d :
  HashTable.represents capH ht m -> m !! h = None ->
  HashTable.getSavedChainedItemsCount ht < HashTable.getTotalChainedItemsCount ht ->
  exists ht', HashTable.put ht (Some h) i d = Done (true, ht') /\
    HashTable.represents capH ht' (<[h := (i, d)]> m) /\
    forall a, HashTable.key (HashTable.hash_item ht' a) = HashTable.key (HashTable.hash_item ht a).
Proof.
  intros R Hm Hroom. pose proof R as [C M].
  assert (Hsz : Z.of_nat (base.size m) < capH - 1).
  { destruct (HashTable.saved_spec _ _ _ _ M) as [Hs Ht]. lia. }
  destruct (HashTable.exec_refines capH ht m (HashTable.OPut h i d) R) as (ht' & E & R').
  cbn -[HashTable.put] in E, R'. rewrite decide_True in E, R' by (by right).
  apply obind_inv in E as ([r ht1] & E & E'). cbn in E', R'. injection E' as -> ->.
  exists ht'. split_and!; [done..|]. intros a. by eapply put_keys.
Qed.

(** *** The transaction log *)

Lemma rep_tx s m files dirs W e i l n :
  rep s m files dirs W -> zget (Tx.localLog (tx s)) i = Some e ->
  zlen (Tx.logData l) = zlen (Tx.logData e) -> 0 <= n ->
  rep (with_tx s (Tx.mk (zset (Tx.localLog (tx s)) i l) (Tx.distributedLog (tx s)) n
                    (Tx.DistributedLogIndex (tx s)))) m files dirs W.
Proof.
  intros [] He Hl Hn. split; try done. destruct rp_log0 as (Hz & Hi & Hf).
  cbn. rewrite zlen_zset. split_and!; try done; try lia. apply Forall_zset; [done|].
  rewrite Hl. by apply (Forall_zget _ _ _ _ Hf He).
Qed.

Definition log_room (s : t B) : bool := Tx.LocalLogIndex (tx s) <? zlen (Tx.localLog (tx s)).

Lemma tx_begin_spec s m files dirs W :
  rep s m files dirs W ->
  if log_room s then exists x, TxLocalBegin s = Done (0, with_tx s x) /\ rep (with_tx s x) m files dirs W
  else TxLocalBegin s = Fault OutOfBounds.
Proof.
  intros R. pose proof (rp_log _ _ _ _ _ R) as (Hz & Hi & _).
  unfold log_room, TxLocalBegin, Tx.TxLocalBegin. destruct (Z.ltb_spec (Tx.LocalLogIndex (tx s)) (zlen (Tx.localLog (tx s)))).
  - destruct (zget_is_Some (Tx.localLog (tx s)) (Tx.LocalLogIndex (tx s))) as [e He]; [lia|].
    rewrite (load_in_range _ _ _ He). cbn. rewrite store_in_range by lia. cbn.
    eexists. split; [reflexivity|]. eapply rep_tx; [done|exact He|done|apply wrap_range; lia].
  - by rewrite load_out by lia.
Qed.

Lemma tx_write_spec s m files dirs W bytes :
  rep s m files dirs W -> zlen bytes <= Tx.logData_size ->
  exists x, TxWriteData s 0 bytes = Done (with_tx s x) /\ rep (with_tx s x) m files dirs W.
Proof.
  intros R Hb. pose proof (rp_log _ _ _ _ _ R) as (Hz & Hi & Hf). unfold TxWriteData, Tx.TxWriteData.
  destruct (zget_is_Some (Tx.localLog (tx s)) 0) as [e He]; [lia|].
  rewrite (load_in_range _ _ _ He). cbn. rewrite (proj2 (Z.leb_le _ _) Hb), store_in_range by lia. cbn.
  eexists. split; [reflexivity|]. eapply rep_tx; [done|exact He| |done]. cbn.
  pose proof (Forall_zget _ _ _ _ Hf He) as Hl. cbn in Hl. unfold zlen in *.
  rewrite blit_length; [done|]. lia.
Qed.

Lemma tx_commit_spec s m files dirs W b :
  rep s m files dirs W ->
  exists x, TxLocalCommit s 0 b = Done (with_tx s x) /\ rep (with_tx s x) m files dirs W.
Proof.
  intros R. pose proof (rp_log _ _ _ _ _ R) as (Hz & Hi & Hf). unfold TxLocalCommit, Tx.TxLocalCommit.
  destruct (zget_is_Some (Tx.localLog (tx s)) 0) as [e He]; [lia|].
  rewrite (load_in_range _ _ _ He). cbn. rewrite store_in_range by lia. cbn.
  eexists. split; [reflexivity|]. by eapply rep_tx.
Qed.

(** *** Directories *)

Lemma encode_dir_len d : dir_ok d -> zlen (encode_DirectoryMeta d) = sizeof_DirectoryMeta.
Proof.
  intros (_ & Hl & Hf). unfold encode_DirectoryMeta, le_bytes. unfold zlen in *.
  rewrite length_app, length_fmap, length_seqZ, length_join.
  assert (E : sum_list (length <$> (encode_name <$> d_tuple d)) = (length (d_tuple d) * 51)%nat).
  { clear Hl. induction (d_tuple d) as [|e l IH]; [done|].
    apply Forall_cons in Hf as [He Hf]. unfold encode_name in *. cbn.
    rewrite length_app. cbn. rewrite (IH Hf). unfold zlen, MAX_FILE_NAME_LENGTH in He. lia. }
  rewrite E. unfold sizeof_DirectoryMeta, MAX_DIRECTORY_COUNT, MAX_FILE_NAME_LENGTH in *. lia.
Qed.

Lemma add_name_spec d name b :
  dir_ok d ->
  if (d_count d <? MAX_DIRECTORY_COUNT) && (zlen name <? MAX_FILE_NAME_LENGTH)
  then exists d', add_name d name b = Done d' /\ dir_ok d' /\ d_count d' = d_count d + 1
  else add_name d name b = Fault OutOfBounds.
Proof.
  intros (Hc & Hl & Hf). unfold add_name.
  replace (wrap 64 (wrap 64 (d_count d + 1) - 1)) with (d_count d).
  2:{ unfold wrap. rewrite Zminus_mod_idemp_l. rewrite Z.add_simpl_r. symmetry. by apply Z.mod_small. }
  destruct (Z.ltb_spec (d_count d) MAX_DIRECTORY_COUNT) as [Hlt|Hge].
  2:{ rewrite load_out; [done|]. lia. }
  assert (Hr : 0 <= d_count d < zlen (d_tuple d)) by (rewrite Hl; split; [apply Hc|done]).
  destruct (zget_is_Some _ _ Hr) as [e He].
  rewrite (load_in_range _ _ _ He). cbn [obind].
  pose proof (Forall_zget _ _ _ _ Hf He) as Hn. cbn in Hn.
  destruct (Z.ltb_spec (zlen name) MAX_FILE_NAME_LENGTH) as [Hlt'|Hge].
  2:{ rewrite (proj2 (Z.leb_gt _ _)) by lia. done. }
  rewrite (proj2 (Z.leb_le _ _)) by lia. rewrite store_in_range by done. cbn [obind andb].
  unfold MAX_DIRECTORY_COUNT in Hlt.
  rewrite wrap_small by (unfold in_width in *; lia).
  eexists. split_and!; [reflexivity| |done]. split_and!; cbn.
  - unfold in_width in *. lia.
  - by rewrite zlen_zset.
  - apply Forall_zset; [done|]. cbn. unfold zlen in *. rewrite blit_length; [done|].
    rewrite length_app. cbn. lia.
Qed.

Notation hash := (HashTable.getUniqueHash CalculateDigest).
Notation address := HashTable.getAddressHash.

Definition is_local (h : UniqueHash) : bool := HashTable.value3 h mod nodes + 1 =? me.

Lemma is_local_spec s m files dirs W h :
  rep s m files dirs W -> checkLocal s (getNodeHash s h) = is_local h.
Proof.
  intros R. pose proof (rp_node _ _ _ _ _ R) as (_ & E1 & E2).
  unfold checkLocal, getNodeHash, is_local. by rewrite E1, E2.
Qed.

(** The directory a path names, as this node sees it. *)
Definition dir_at (ns : gmap UniqueHash node) (h : UniqueHash) : option DirectoryMeta :=
  if is_local h then
    match ns !! h with Some (Dir d) => Some d | _ => None end
  else None.

Lemma readDirectoryMeta_spec l s ns m files dirs W q meta out :
  rep s m files dirs W -> linked ns m files dirs ->
  (is_local (hash q) = true -> W (address (hash q)) = 0) ->
  exists ok meta' out' s',
    readDirectoryMeta CalculateDigest DmfsBaseAddress l s (Some q) meta out =
      Done (ok, meta', out', s') /\
    (s' = s \/ s' = unread s (address (hash q))) /\ rep s' m files dirs W /\
    match dir_at ns (hash q) with
    | Some d => ok = true /\ meta' = d /\ exists i, m !! hash q = Some (i, true) /\
        dirs !! i = Some d /\ out'.1.2 = wrap 64 (i - DmfsBaseAddress)
    | None => ok = false
    end.
Proof.
  intros R L Hw. unfold readDirectoryMeta, dir_at. rewrite (is_local_spec _ _ _ _ _ _ R).
  destruct (is_local (hash q)) eqn:El.
  2:{ eexists _, _, _, s. split_and!; [reflexivity|by left|done|done]. }
  specialize (Hw eq_refl). rewrite (lock_read_spec _ _ _ _ _ _ _ R Hw). cbn [obind].
  assert (R1 : rep (set_lock_word s (address (hash q)) 1) m files dirs
    (fun b => if decide (b = address (hash q)) then 1 else W b)) by by eapply rep_set_word.
  rewrite (lookup_meta_spec _ _ (hash q) _ (rp_hash _ _ _ _ _ R1)). cbn [obind].
  rewrite (li_ns _ _ _ _ L). pose proof (li_some _ _ _ _ L (hash q)) as Hs.
  assert (R2 := rep_unread _ _ _ _ _ _ R Hw).
  destruct (m !! hash q) as [[i [|]]|] eqn:E; cbn [negb fst snd].
  - destruct (Hs _ eq_refl) as [n Hn]. unfold meta_of in *. cbn in Hn.
    destruct (dirs !! i) as [d|] eqn:Ed; [|done].
    rewrite (Table.get_address_spec _ _ _ _ meta out.1.2 _ (rp_dirs _ _ _ _ _ R1) Ed). cbn.
    rewrite Ed. cbn.
    eexists _, _, _, _. split_and!; [reflexivity|by right|done|done|done|]. eauto.
  - destruct (Hs _ eq_refl) as [n Hn]. unfold meta_of in *. cbn in *.
    destruct (files !! i) as [f|]; [|done]. cbn.
    eexists _, _, _, _. split_and!; [reflexivity|by right|done|done].
  - cbn. eexists _, _, _, _. split_and!; [reflexivity|by right|done|done].
Qed.

Lemma readDirectoryMeta_locked l s m files dirs W q meta out :
  rep s m files dirs W -> is_local (hash q) = true ->
  0 < W (address (hash q)) < 2 ^ 64 /\ W (address (hash q)) mod 2 ^ 32 = 0 ->
  readDirectoryMeta CalculateDigest DmfsBaseAddress l s (Some q) meta out = Fault LockHeld.
Proof.
  intros R El [Hw Hm]. unfold readDirectoryMeta. rewrite (is_local_spec _ _ _ _ _ _ R), El.
  unfold lockReadHashItem, Lock.read_enter, Lock.read_retry. rewrite (rp_words _ _ _ _ _ R).
  rewrite Lock.word_small by lia. rewrite <- (Z.add_0_r (W _)) at 1. rewrite !Lock.upper_word by lia.
  rewrite (proj2 (Z.eqb_neq _ _)) by lia. done.
Qed.

(** The capacities mknodcd and mkdircd rely on. *)
Definition room (s : t B) : bool :=
  (Table.countSavedItems (tableFileMeta s) <? Table.countTotalItems (tableFileMeta s)) &&
  (Table.countSavedItems (tableDirectoryMeta s) <? Table.countTotalItems (tableDirectoryMeta s)) &&
  (HashTable.getSavedChainedItemsCount (hashtable s)
     <? HashTable.getTotalChainedItemsCount (hashtable s)).

(** The parent of a path and its last name. *)
Definition parent_of (p : list Z) : list Z :=
  default [] (getParentDirectory (Some p) (Some [])).2.
Definition name_of (l : locals) (p : list Z) : list Z :=
  default [] (getNameFromPath (Some p) (Some (l_name l))).2.

Lemma parent_of_eq p x : (getParentDirectory (Some p) (Some x)).2 = Some (parent_of p).
Proof. unfold parent_of, getParentDirectory. repeat case_match; done. Qed.

(** What mknodcd and mkdircd do around [k], which gets the parent. *)
Definition abs_with_parent (ns : gmap UniqueHash node) (p : list Z)
    (k : UniqueHash -> DirectoryMeta -> outcome (bool * gmap UniqueHash node))
    : outcome (bool * gmap UniqueHash node) :=
  let h := hash p in
  let hp := hash (parent_of p) in
  if negb (is_local h) then Done (false, ns)
  else if is_local hp && (address hp =? address h) then Fault LockHeld
  else
    match dir_at ns hp with
    | Some d => k hp d
    | None => Done (false, ns)
    end.

(** Running [s] from [s0] does what [r] says. *)
Definition simulates {A} (s : t B -> outcome (A * t B))
    (r : outcome (A * gmap UniqueHash node)) (s0 : t B) (W : Z -> Z) : Prop :=
  match r with
  | Done (b, ns') => exists s' m' files' dirs', s s0 = Done (b, s') /\
      rep s' m' files' dirs' W /\ linked ns' m' files' dirs'
  | Fault f => s s0 = Fault f
  end.

Lemma with_parent_spec l s ns m files dirs p k body :
  rep s m files dirs (fun _ => 0) -> linked ns m files dirs -> log_room s = true ->
  (forall s3 W hp d i, rep s3 m files dirs W -> room s3 = room s -> hp = hash (parent_of p) ->
     m !! hp = Some (i, true) -> dirs !! i = Some d ->
     simulates (fun s3 => body s3 (hash p) d (wrap 64 (i - DmfsBaseAddress)) (name_of l p) 0)
       (k hp d) s3 W) ->
  simulates (fun s => with_parent CalculateDigest DmfsBaseAddress l s (Some p) body)
    (abs_with_parent ns p k) s (fun _ => 0).
Proof.
  intros R L Hlog Hbody. unfold simulates at 1, with_parent, abs_with_parent.
  rewrite (is_local_spec _ _ _ _ _ _ R).
  destruct (is_local (hash p)) eqn:El; cbn [negb].
  2:{ exists s, m, files, dirs. done. }
  set (a := address (hash p)).
  destruct (lock_write_spec s m files dirs (hash p) a R) as (s1 & -> & R1 & E1). cbn [obind].
  pose proof (tx_begin_spec _ _ _ _ _ R1) as T.
  replace (log_room s1) with (log_room s) in T by by rewrite E1.
  rewrite Hlog in T. destruct T as (x & -> & R2). cbn [obind].
  rewrite parent_of_eq. fold (name_of l p).
  pose proof (node_range _ _ _ _ _ (hash p) R) as Hn.
  pose proof (rp_id _ _ _ _ _ R) as Hi.
  destruct (Lock.lock_key_ok _ _ Hn Hi) as [Hk0 Hk]. fold (write_key s (hash p)) in Hk0, Hk.
  destruct (is_local (hash (parent_of p)) && (address (hash (parent_of p)) =? a)) eqn:Ed.
  { apply andb_true_iff in Ed as [Elp Ea%Z.eqb_eq].
    erewrite readDirectoryMeta_locked; [done|exact R2|done|].
    rewrite Ea, decide_True by done. done. }
  destruct (readDirectoryMeta_spec l _ ns m files dirs _ (parent_of p) (l_dir l)
    (l_index l, l_index l, l_index l) R2 L) as (ok & d & out & s3 & -> & Hs3 & R3 & Hdir).
  { intros Elp. rewrite decide_False; [done|]. intros Ea. rewrite Elp, Ea, Z.eqb_refl in Ed. done. }
  cbn [obind]. assert (Hroom : room s3 = room s) by (destruct Hs3 as [->| ->]; rewrite E1; done).
  set (s0 := s) in *.
  assert (Hend : forall s4 m' files' dirs' b,
    rep s4 m' files' dirs' (fun b => if decide (b = a) then write_key s0 (hash p) else 0) ->
    exists s5, (let! s5 := TxLocalCommit s4 0 b in Done (b, unlockWriteHashItem s5 a)) = Done (b, s5) /\
      rep s5 m' files' dirs' (fun _ => 0)).
  { intros s4 m' files' dirs' b R4. destruct (tx_commit_spec _ _ _ _ _ b R4) as (x4 & -> & R5).
    cbn. eexists. split; [reflexivity|]. by eapply rep_write_unlock. }
  destruct (dir_at ns (hash (parent_of p))) as [d'|].
  - destruct Hdir as (-> & -> & i & Hm & Hd & ->). cbn [negb].
    specialize (Hbody s3 _ _ _ i R3 Hroom eq_refl Hm Hd).
    unfold simulates in Hbody. destruct (k _ _) as [[b ns']|f].
    + destruct Hbody as (s4 & m' & files' & dirs' & -> & R4 & L4). cbn [obind].
      destruct (Hend _ _ _ _ b R4) as (s5 & -> & R5). eauto 10.
    + by rewrite Hbody.
  - subst ok. cbn [negb obind]. destruct (Hend _ _ _ _ false R3) as (s5 & -> & R5).
    eauto 10.
Qed.

Lemma create_room {T} cap (tb : Table.t B T) tm x v :
  Table.represents cap tb tm -> Table.countSavedItems tb < Table.countTotalItems tb ->
  exists p tb', Table.create tb (Some x) (Some v) = Done (true, Some p, tb') /\
    tm !! p = None /\ Table.represents cap tb' (<[p := v]> tm).
Proof.
  intros R Hroom. rewrite (Table.count_saved _ _ _ R) in Hroom.
  pose proof (Table.re_total _ _ _ R) as Ht. unfold Table.countTotalItems in Hroom.
  pose proof (Table.create_spec _ _ _ x v R) as C.
  rewrite bool_decide_eq_false_2 in C by lia. destruct C as (p & tb' & E & _ & Hp & R').
  eauto 10.
Qed.

Lemma room_spec (s : t B) :
  room s = true ->
  Table.countSavedItems (tableFileMeta s) < Table.countTotalItems (tableFileMeta s) /\
  Table.countSavedItems (tableDirectoryMeta s) < Table.countTotalItems (tableDirectoryMeta s) /\
  HashTable.getSavedChainedItemsCount (hashtable s) <
    HashTable.getTotalChainedItemsCount (hashtable s).
Proof. unfold room. rewrite !andb_true_iff, !Z.ltb_lt. tauto. Qed.

(** A new entry: the hash table gets the key of a meta already in its table. *)
Lemma put_meta_spec s ns m files dirs files' dirs' W h i b n :
  rep s m files' dirs' W -> linked ns m files dirs ->
  HashTable.getSavedChainedItemsCount (hashtable s) <
    HashTable.getTotalChainedItemsCount (hashtable s) ->
  m !! h = None -> meta_of files dirs (i, b) = None ->
  (forall w, meta_of files' dirs' w =
     if decide (w = (i, b)) then Some n else meta_of files dirs w) ->
  exists ht, HashTable.put (hashtable s) (Some h) i b = Done (true, ht) /\
    rep (with_hashtable s ht) (<[h := (i, b)]> m) files' dirs' W /\
    linked (<[h := n]> ns) (<[h := (i, b)]> m) files' dirs'.
Proof.
  intros R L Hroom Hm Hv Ho.
  destruct (put_new_spec _ _ h i b (rp_hash _ _ _ _ _ R) Hm Hroom) as (ht & E & Rh & Hkeys).
  exists ht. split_and!; [done| |by eapply linked_new].
  destruct R. split; try done.
  intros a. rewrite <- rp_words0. apply Hkeys.
Qed.

Definition abs_mknod (l : locals) (ns : gmap UniqueHash node) (p : list Z) :=
  abs_with_parent ns p (fun _ d =>
    match ns !! hash p with
    | Some _ => Done (false, ns)
    | None =>
        let! _ := add_name d (name_of l p) (l_isDirectory l) in
        Done (true, <[hash p := File (new_file l)]> ns)
    end).

Definition abs_mkdir (l : locals) (ns : gmap UniqueHash node) (p : list Z) :=
  abs_with_parent ns p (fun hp d =>
    match ns !! hash p with
    | Some _ => Done (false, ns)
    | None =>
        let! d' := add_name d (name_of l p) true in
        Done (true, <[hash p := Dir (new_dir l)]> (<[hp := Dir d']> ns))
    end).

(** The lookup of the new path: it exists, or the name is added. *)
Lemma lookup_new s ns m files dirs W h cells :
  rep s m files dirs W -> linked ns m files dirs ->
  match ns !! h with
  | Some _ => exists v, lookup_meta s h cells = Done (true, v)
  | None => m !! h = None /\ lookup_meta s h cells = Done (false, cells)
  end.
Proof.
  intros R L. rewrite (lookup_meta_spec _ _ h cells (rp_hash _ _ _ _ _ R)), (li_ns _ _ _ _ L).
  destruct (m !! h) as [v|] eqn:E; cbn; [|done].
  destruct (li_some _ _ _ _ L _ _ E) as [n ->]. eauto.
Qed.

Lemma mknod_spec l s ns m files dirs p :
  rep s m files dirs (fun _ => 0) -> linked ns m files dirs ->
  log_room s = true -> room s = true ->
  simulates (fun s => mknodcd CalculateDigest DmfsBaseAddress l s (Some p))
    (abs_mknod l ns p) s (fun _ => 0).
Proof.
  intros R L Hlog Hroom. apply (with_parent_spec _ _ _ m files dirs); [done..|].
  intros s3 W hp d i R3 Hroom3 -> Hm Hd. rewrite Hroom in Hroom3.
  apply room_spec in Hroom3 as (Hf & _ & Hh). unfold simulates.
  pose proof (lookup_new _ _ _ _ _ _ (hash p) (l_index l, l_isDirectory l) R3 L) as Hl.
  destruct (ns !! hash p) as [n|].
  { destruct Hl as [v ->]. eauto 10. }
  destruct Hl as [Hnone ->]. cbn [obind fst snd].
  pose proof (add_name_spec d (name_of l p) (l_isDirectory l) (rp_dir_ok _ _ _ _ _ R3 _ _ Hd)) as Ha.
  destruct (_ && _); [|by rewrite Ha]. destruct Ha as (d' & -> & Hd' & _). cbn [obind].
  destruct (tx_write_spec _ _ _ _ _ (encode_DirectoryMeta d') R3) as (x & -> & R4).
  { rewrite encode_dir_len by done. done. }
  cbn [obind]. destruct (create_room _ _ _ (l_index l) (new_file l) (rp_files _ _ _ _ _ R4))
    as (j & tb & -> & Hj & Rt); [done|]. cbn [obind negb default from_option id].
  assert (R5 : rep (with_files (with_tx s3 x) tb) m (<[j := new_file l]> files) dirs W)
    by (destruct R4; split; done).
  destruct (put_meta_spec _ ns m files dirs _ _ W (hash p) j false (File (new_file l)) R5 L Hh Hnone)
    as (ht & -> & R6 & L6); [unfold meta_of; cbn; by rewrite Hj|intros w; apply meta_insert_file|].
  cbn [obind]. eauto 10.
Qed.

Lemma remote_address i : 0 <= i < 2 ^ 64 ->
  wrap 64 (wrap 64 (i - DmfsBaseAddress) + DmfsBaseAddress) = i.
Proof.
  intros Hi. unfold wrap. rewrite Zplus_mod_idemp_l, Z.sub_add. by apply Z.mod_small.
Qed.

Lemma new_dir_ok l : dir_ok (l_dir l) -> dir_ok (new_dir l).
Proof. intros (? & ? & ?). split_and!; done. Qed.

(** The parent's listing is overwritten in place. *)
Lemma updateRemoteMeta_spec s ns m files dirs W hp i d d' :
  rep s m files dirs W -> linked ns m files dirs ->
  m !! hp = Some (i, true) -> dirs !! i = Some d -> dir_ok d' ->
  exists tb, updateRemoteMeta DmfsBaseAddress s d' (wrap 64 (i - DmfsBaseAddress)) =
      Done (with_dirs s tb) /\
    Table.bitmapItems tb = Table.bitmapItems (tableDirectoryMeta s) /\
    rep (with_dirs s tb) m files (<[i := d']> dirs) W /\
    linked (<[hp := Dir d']> ns) m files (<[i := d']> dirs).
Proof.
  intros R L Hm Hd Hd'. unfold updateRemoteMeta.
  pose proof (Table.represents_range _ _ _ _ _ (rp_dirs _ _ _ _ _ R) Hd) as Hr.
  pose proof (rp_capD _ _ _ _ _ R). rewrite remote_address by lia.
  rewrite store_in_range by (rewrite (Table.re_len _ _ _ (rp_dirs _ _ _ _ _ R)); done). cbn [obind].
  eexists. split_and!; [reflexivity|reflexivity| |].
  - pose proof (Table.represents_store _ _ _ _ d' _ (rp_dirs _ _ _ _ _ R) Hd) as Rt.
    destruct R. split; try done. intros j e. rewrite lookup_insert_Some. naive_solver.
  - eapply linked_update; [done|done|]. intros w. apply meta_insert_dir.
Qed.

Lemma mkdir_spec l s ns m files dirs p :
  rep s m files dirs (fun _ => 0) -> linked ns m files dirs -> dir_ok (l_dir l) ->
  log_room s = true -> room s = true ->
  simulates (fun s => mkdircd CalculateDigest DmfsBaseAddress l s (Some p))
    (abs_mkdir l ns p) s (fun _ => 0).
Proof.
  intros R L Hok Hlog Hroom. apply (with_parent_spec _ _ _ m files dirs); [done..|].
  intros s3 W hp d i R3 Hroom3 -> Hm Hd. rewrite Hroom in Hroom3.
  apply room_spec in Hroom3 as (_ & Hdr & Hh). unfold simulates.
  pose proof (lookup_new _ _ _ _ _ _ (hash p) (l_index l, l_isDirectory l) R3 L) as Hl.
  destruct (ns !! hash p) as [n|].
  { destruct Hl as [v ->]. eauto 10. }
  destruct Hl as [Hnone ->]. cbn [obind fst snd].
  pose proof (add_name_spec d (name_of l p) true (rp_dir_ok _ _ _ _ _ R3 _ _ Hd)) as Ha.
  destruct (_ && _); [|by rewrite Ha]. destruct Ha as (d' & -> & Hd' & _). cbn [obind].
  destruct (tx_write_spec _ _ _ _ _ (encode_DirectoryMeta d') R3) as (x & -> & R4).
  { rewrite encode_dir_len by done. done. }
  cbn [obind].
  destruct (updateRemoteMeta_spec _ ns _ _ _ _ _ _ _ d' R4 L Hm Hd Hd') as (tb1 & -> & Hb & R5 & L5).
  cbn [obind]. destruct (create_room _ _ _ (l_index l) (new_dir l) (rp_dirs _ _ _ _ _ R5))
    as (j & tb & -> & Hj & Rt).
  { cbn. unfold Table.countSavedItems, Table.countTotalItems in *. by rewrite Hb. }
  cbn [obind negb default from_option id].
  assert (R6 : rep (with_dirs (with_dirs (with_tx s3 x) tb1) tb) m files (<[j := new_dir l]> (<[i := d']> dirs)) W).
  { destruct R5. split; try done. intros i' e. rewrite lookup_insert_Some.
    intros [[_ <-]|[_ ?]]; [by apply new_dir_ok|eauto]. }
  destruct (put_meta_spec _ _ m files _ _ _ W (hash p) j true (Dir (new_dir l)) R6 L5 Hh Hnone)
    as (ht & -> & R7 & L7); [unfold meta_of; cbn; by rewrite Hj|intros w; apply meta_insert_dir|].
  cbn [obind]. eauto 10.
Qed.

(** *** Lookups and extents *)

Lemma under_read_lock_spec {A} l s ns m files dirs p (remote : A) body r :
  rep s m files dirs (fun _ => 0) -> linked ns m files dirs ->
  (forall s1, rep s1 m files dirs (fun b => if decide (b = address (hash p)) then 1 else 0) ->
     body s1 (bool_decide (is_Some (ns !! hash p)))
       (default (l_index l, l_isDirectory l) (m !! hash p)) = Done r) ->
  simulates (fun s => under_read_lock CalculateDigest l s p remote body)
    (Done (if is_local (hash p) then r else remote, ns)) s (fun _ => 0).
Proof.
  intros R L Hb. unfold simulates, under_read_lock. rewrite (is_local_spec _ _ _ _ _ _ R).
  destruct (is_local (hash p)); [|by eauto 10].
  rewrite (lock_read_spec _ _ _ _ _ _ _ R eq_refl). cbn [obind].
  assert (R1 : rep (set_lock_word s (address (hash p)) 1) m files dirs
    (fun b => if decide (b = address (hash p)) then 1 else 0)) by by eapply rep_set_word.
  specialize (Hb _ R1).
  pose proof (lookup_new _ _ _ _ _ _ (hash p) (l_index l, l_isDirectory l) R1 L) as Hl.
  assert (E : lookup_meta (set_lock_word s (address (hash p)) 1) (hash p) (l_index l, l_isDirectory l) =
    Done (bool_decide (is_Some (ns !! hash p)),
          default (l_index l, l_isDirectory l) (m !! hash p))).
  { rewrite (lookup_meta_spec _ _ _ _ (rp_hash _ _ _ _ _ R1)) in *.
    destruct (ns !! hash p); destruct (m !! hash p); naive_solver. }
  rewrite E. cbn [obind]. rewrite Hb. cbn [obind].
  exists (unread s (address (hash p))), m, files, dirs. split_and!; [done|by apply rep_unread|done].
Qed.

Lemma access_spec l s ns m files dirs p :
  rep s m files dirs (fun _ => 0) -> linked ns m files dirs ->
  simulates (fun s => access CalculateDigest l s (Some p))
    (Done (is_local (hash p) && bool_decide (is_Some (ns !! hash p)), ns)) s (fun _ => 0).
Proof.
  intros R L. pose proof (under_read_lock_spec l s ns m files dirs p false
    (fun _ found _ => Done found) _ R L (fun s1 _ => eq_refl)) as Hs.
  unfold access. by destruct (is_local (hash p)).
Qed.

(** A directory is reported as a file with 64 extents. *)
Definition attributes (n : node) (att : FileMeta) : FileMeta :=
  match n with
  | File m => m
  | Dir _ => mkFileMeta (timeLastModified att) MAX_FILE_EXTENT_COUNT (size att) (tuple att)
  end.

Definition abs_getattr (ns : gmap UniqueHash node) (p : list Z) (att : FileMeta)
    : bool * option FileMeta :=
  if is_local (hash p) then
    match ns !! hash p with
    | Some n => (true, Some (attributes n att))
    | None => (false, Some att)
    end
  else (false, Some att).

Lemma getattr_spec l s ns m files dirs p att :
  rep s m files dirs (fun _ => 0) -> linked ns m files dirs ->
  simulates (fun s => getattr CalculateDigest l s (Some p) (Some att))
    (Done (abs_getattr ns p att, ns)) s (fun _ => 0).
Proof.
  intros R L. unfold getattr, abs_getattr.
  apply (under_read_lock_spec l s ns m files dirs); [done..|].
  intros s1 R1. rewrite (li_ns _ _ _ _ L). pose proof (li_some _ _ _ _ L (hash p)) as Hs.
  destruct (m !! hash p) as [[i [|]]|]; [| |done]; destruct (Hs _ eq_refl) as [n Hn];
    cbn [mbind option_bind default from_option id fst snd negb]; rewrite Hn;
    unfold meta_of in Hn; cbn [fst snd] in Hn.
  - destruct (dirs !! i); simplify_eq/=. done.
  - destruct (files !! i) as [f|] eqn:Ef; [|done]. injection Hn as <-.
    pose proof (Table.represents_range _ _ _ _ _ (rp_files _ _ _ _ _ R) Ef).
    rewrite bool_decide_eq_true_2 by eauto. cbn [negb].
    by rewrite (Table.table_get_spec _ _ _ _ _ (rp_files _ _ _ _ _ R1)), Ef by lia.
Qed.

Definition abs_extents (ns : gmap UniqueHash node) (p : list Z) (sz offset : Z)
    (fei : file_extent_info) : outcome (bool * gmap UniqueHash node) :=
  match ns !! hash p with
  | Some (File m) =>
      if (wrap 64 (2 ^ 64 - 1 - offset) <? sz) || (sz =? 0) then Done (false, ns)
      else
        let! m' := meta_write m sz offset fei in
        Done (true, <[hash p := File m']> ns)
  | _ => Done (false, ns)
  end.

Lemma extentMetaWrite_spec l s ns m files dirs p sz offset fei :
  rep s m files dirs (fun _ => 0) -> linked ns m files dirs ->
  simulates (fun s => extentMetaWrite CalculateDigest l s (Some p) sz offset (Some fei))
    (abs_extents ns p sz offset fei) s (fun _ => 0).
Proof.
  intros R L. unfold simulates, extentMetaWrite, abs_extents.
  set (a := address (hash p)).
  destruct (lock_write_spec s m files dirs (hash p) a R) as (s1 & -> & R1 & _). cbn [obind].
  assert (Hend : forall s2 files',
    rep s2 m files' dirs (fun b => if decide (b = a) then write_key s (hash p) else 0) ->
    rep (unlockWriteHashItem s2 a) m files' dirs (fun _ => 0)).
  { intros s2 files' R2. eapply rep_write_unlock; [exact R2| |apply (rp_id _ _ _ _ _ R)].
    apply (node_range _ _ _ _ _ _ R). }
  rewrite (lookup_meta_spec _ _ _ _ (rp_hash _ _ _ _ _ R1)), (li_ns _ _ _ _ L). cbn [obind].
  pose proof (li_some _ _ _ _ L (hash p)) as Hs.
  destruct (m !! hash p) as [[i [|]]|] eqn:E; cbn [negb fst snd mbind option_bind].
  - destruct (Hs _ eq_refl) as [n Hn]. unfold meta_of in *. cbn in Hn |- *.
    destruct (dirs !! i); [|done]. cbn. eauto 10.
  - destruct (Hs _ eq_refl) as [n Hn]. unfold meta_of in *. cbn [fst snd] in Hn |- *.
    destruct (files !! i) as [f|] eqn:Ef; [|done]. cbn [fmap option_fmap option_map].
    pose proof (Table.represents_range _ _ _ _ _ (rp_files _ _ _ _ _ R) Ef) as Hr.
    rewrite (Table.table_get_spec _ _ _ _ _ (rp_files _ _ _ _ _ R1)), Ef by lia. cbn [obind negb].
    destruct (_ || _); [cbn; by eauto 10|]. cbn [default from_option id].
    destruct (meta_write f sz offset fei) as [f'|e]; [|done]. cbn [obind].
    pose proof (Table.put_spec _ _ _ i f' (rp_files _ _ _ _ _ R1) ltac:(lia)) as P.
    rewrite Ef in P. destruct P as (tb & -> & Rt). cbn [obind].
    eexists _, m, _, dirs. split_and!; [reflexivity| |].
    + apply Hend. destruct R1. split; done.
    + eapply linked_update; [done|done|]. intros w. apply meta_insert_file.
  - cbn. eauto 10.
Qed.

(** ** Theorems *)

Inductive op :=
  | OAccess (l : locals) (p : list Z)
  | OGetattr (l : locals) (p : list Z) (att : FileMeta)
  | OMknod (l : locals) (p : list Z)
  | OMkdir (l : locals) (p : list Z)
  | OExtents (l : locals) (p : list Z) (sz offset : Z) (fei : file_extent_info).
Inductive res := RBool (b : bool) | RAttr (r : bool * option FileMeta).

Definition as_bool {X} (c : outcome (bool * X)) : outcome (res * X) :=
  let! (b, x) := c in Done (RBool b, x).
Definition as_attr {X} (c : outcome (bool * option FileMeta * X)) : outcome (res * X) :=
  let! (r, x) := c in Done (RAttr r, x).

Definition exec (s : t B) (o : op) : outcome (res * t B) :=
  match o with
  | OAccess l p => as_bool (access CalculateDigest l s (Some p))
  | OGetattr l p att => as_attr (getattr CalculateDigest l s (Some p) (Some att))
  | OMknod l p => as_bool (mknodcd CalculateDigest DmfsBaseAddress l s (Some p))
  | OMkdir l p => as_bool (mkdircd CalculateDigest DmfsBaseAddress l s (Some p))
  | OExtents l p sz offset fei =>
      as_bool (extentMetaWrite CalculateDigest l s (Some p) sz offset (Some fei))
  end.

Definition abs_exec (ns : gmap UniqueHash node) (o : op) : outcome (res * gmap UniqueHash node) :=
  match o with
  | OAccess _ p => Done (RBool (is_local (hash p) && bool_decide (is_Some (ns !! hash p))), ns)
  | OGetattr _ p att => Done (RAttr (abs_getattr ns p att), ns)
  | OMknod l p => as_bool (abs_mknod l ns p)
  | OMkdir l p => as_bool (abs_mkdir l ns p)
  | OExtents _ p sz offset fei => as_bool (abs_extents ns p sz offset fei)
  end.

Fixpoint run (s : t B) (ops : list op) : outcome (list res * t B) :=
  match ops with
  | [] => Done ([], s)
  | o :: ops' =>
      let! (r, s1) := exec s o in
      let! (rs, s2) := run s1 ops' in
      Done (r :: rs, s2)
  end.

Fixpoint abs_run (ns : gmap UniqueHash node) (ops : list op)
    : outcome (list res * gmap UniqueHash node) :=
  match ops with
  | [] => Done ([], ns)
  | o :: ops' =>
      let! (r, ns1) := abs_exec ns o in
      let! (rs, ns2) := abs_run ns1 ops' in
      Done (r :: rs, ns2)
  end.

(** *** Resources: an operation uses at most one log entry and adds at most one node *)

Definition log_left (s : t B) : Z := zlen (Tx.localLog (tx s)) - Tx.LocalLogIndex (tx s).

Definition has_room (s : t B) (ns : gmap UniqueHash node) (n : Z) : Prop :=
  n <= log_left s /\ Z.of_nat (base.size ns) + n <= capF /\ Z.of_nat (base.size ns) + n <= capD /\
  Z.of_nat (base.size ns) + n <= capH - 1.

Definition garbage_ok (o : op) : bool :=
  match o with OMkdir l _ => bool_decide (dir_ok (l_dir l)) | _ => true end.

Lemma rep_room s ns m files dirs W n :
  rep s m files dirs W -> linked ns m files dirs -> has_room s ns n -> 0 < n ->
  log_room s = true /\ room s = true.
Proof.
  intros R L (Hl & Hf & Hd & Hh) Hn. destruct (linked_sizes _ _ _ _ L) as (Em & Ef & Ed).
  split; [unfold log_left in Hl; apply Z.ltb_lt; lia|]. unfold room, Table.countTotalItems.
  rewrite (Table.count_saved _ _ _ (rp_files _ _ _ _ _ R)),
    (Table.count_saved _ _ _ (rp_dirs _ _ _ _ _ R)),
    (Table.re_total _ _ _ (rp_files _ _ _ _ _ R)), (Table.re_total _ _ _ (rp_dirs _ _ _ _ _ R)).
  destruct (rp_hash _ _ _ _ _ R) as [C M]. destruct (HashTable.saved_spec _ _ _ _ M) as [-> ->].
  rewrite !andb_true_iff, !Z.ltb_lt. lia.
Qed.

(** Inverts a call that returned. *)
Ltac obinv :=
  repeat match goal with
  | H : obind _ _ = Done _ |- _ =>
      let E := fresh "E" in apply obind_inv in H as (? & E & H)
  | H : (let (_, _) := ?x in _) = Done _ |- _ => destruct x
  | H : (if ?b then _ else _) = Done _ |- _ => destruct b eqn:?
  | H : match ?x with _ => _ end = Done _ |- _ => destruct x eqn:?
  | H : Done _ = Done _ |- _ => simplify_eq
  | H : Fault _ = Done _ |- _ => discriminate H
  end.

Lemma store_zlen {A} (l : list A) i x l' : store l i x = Done l' -> zlen l' = zlen l.
Proof. unfold store. case_decide; [|done]. intros [= <-]. apply zlen_zset. Qed.

Lemma begin_log s i s' :
  TxLocalBegin s = Done (i, s') -> log_left s - 1 <= log_left s'.
Proof.
  unfold TxLocalBegin, Tx.TxLocalBegin, log_left. intros Hx. obinv. simplify_eq/=.
  match goal with E : load _ _ = Done _ |- _ =>
    unfold load in E; destruct (zget _ _) eqn:Eg; [|done]; apply zget_Some_range in Eg end.
  match goal with E : store _ _ _ = Done _ |- _ => apply store_zlen in E; rewrite E end.
  assert (wrap 64 (Tx.LocalLogIndex (tx s) + 1) <= Tx.LocalLogIndex (tx s) + 1)
    by (unfold wrap; apply Z.mod_le; lia). lia.
Qed.

Lemma write_log s i bs s' : TxWriteData s i bs = Done s' -> log_left s' = log_left s.
Proof.
  unfold TxWriteData, Tx.TxWriteData, log_left. intros Hx. obinv. simplify_eq/=.
  by match goal with E : store _ _ _ = Done _ |- _ => apply store_zlen in E; rewrite E end.
Qed.

Lemma commit_log s i b s' : TxLocalCommit s i b = Done s' -> log_left s' = log_left s.
Proof.
  unfold TxLocalCommit, Tx.TxLocalCommit, log_left. intros Hx. obinv. simplify_eq/=.
  by match goal with E : store _ _ _ = Done _ |- _ => apply store_zlen in E; rewrite E end.
Qed.

Lemma put_log_same s ht : log_left (with_hashtable s ht) = log_left s.
Proof. done. Qed.

Lemma lock_logs s :
  (forall node a k s', lockWriteHashItem s node a = Done (k, s') -> log_left s' = log_left s) /\
  (forall node a s', lockReadHashItem s node a = Done s' -> log_left s' = log_left s).
Proof.
  split; intros *; unfold lockWriteHashItem, lockReadHashItem; intros; obinv; by simplify_eq/=.
Qed.

Lemma readDirectoryMeta_log l s path meta out r s' :
  readDirectoryMeta CalculateDigest DmfsBaseAddress l s path meta out = Done (r, s') ->
  log_left s' = log_left s.
Proof.
  unfold readDirectoryMeta. intros Hx. destruct path; [|by simplify_eq/=].
  destruct (checkLocal _ _); [|by simplify_eq/=].
  apply obind_inv in Hx as (s1 & E1%lock_logs & Hx). by obinv.
Qed.

Lemma with_parent_log l s path body b s' :
  (forall s1 h d a nm id b1 s2, body s1 h d a nm id = Done (b1, s2) -> log_left s2 = log_left s1) ->
  with_parent CalculateDigest DmfsBaseAddress l s path body = Done (b, s') ->
  log_left s - 1 <= log_left s'.
Proof.
  intros Hb. unfold with_parent. destruct path as [p|]; [|intros; simplify_eq; lia].
  destruct (checkLocal _ _); [|intros; simplify_eq; lia]. intros Hx.
  apply obind_inv in Hx as ([k s1] & E1%lock_logs & Hx).
  apply obind_inv in Hx as ([i s2] & E2%begin_log & Hx).
  apply obind_inv in Hx as ([[[ok d] out] s3] & E3%readDirectoryMeta_log & Hx).
  apply obind_inv in Hx as ([r s4] & E4 & Hx).
  apply obind_inv in Hx as (s5 & E5%commit_log & Hx). simplify_eq/=.
  change (log_left (unlockWriteHashItem ?x ?a)) with (log_left x).
  assert (log_left s4 = log_left s3) by (destruct ok; cbn in E4; [by eapply Hb|by simplify_eq]). lia.
Qed.

Lemma updateRemoteMeta_log s d a s' :
  updateRemoteMeta DmfsBaseAddress s d a = Done s' -> log_left s' = log_left s.
Proof. unfold updateRemoteMeta. intros. obinv. by simplify_eq/=. Qed.

Lemma exec_log s o r s' : exec s o = Done (r, s') -> log_left s - 1 <= log_left s'.
Proof.
  destruct o as [l p|l p att|l p|l p|l p sz offset fei]; cbn [exec];
    unfold as_bool, as_attr; intros Hx; apply obind_inv in Hx as ([x s1] & E & Hx);
    injection Hx as _ <-.
  - unfold access, under_read_lock in E. destruct (checkLocal _ _); [|simplify_eq; lia].
    apply obind_inv in E as (s2 & E1%lock_logs & E). obinv.
    change (log_left (unlockReadHashItem ?x ?a)) with (log_left x). lia.
  - unfold getattr, under_read_lock in E. destruct (checkLocal _ _); [|simplify_eq; lia].
    apply obind_inv in E as (s2 & E1%lock_logs & E). obinv. 
    all: change (log_left (unlockReadHashItem ?x ?a)) with (log_left x); lia.
  - revert E. apply with_parent_log. intros s2 h d a nm id b1 s3 Hb. cbv zeta in Hb. obinv; try done.
    all: match goal with E : TxWriteData _ _ _ = Done _ |- _ => by apply write_log in E end.
  - revert E. apply with_parent_log. intros s2 h d a nm id b1 s3 Hb. cbv zeta in Hb. obinv; try done.
    all: match goal with E : TxWriteData _ _ _ = Done _, E' : updateRemoteMeta _ _ _ _ = Done _ |- _ =>
      apply write_log in E; apply updateRemoteMeta_log in E'; unfold log_left in *; cbn in *; lia end.
  - unfold extentMetaWrite in E. apply obind_inv in E as ([k s2] & E1%lock_logs & E).
    apply obind_inv in E as ([found cells] & _ & E). apply obind_inv in E as ([b f] & _ & E).
    apply obind_inv in E as (s3 & E3 & E). injection E as _ <-.
    change (log_left (unlockWriteHashItem ?x ?a)) with (log_left x).
    assert (log_left s3 = log_left s2) by (destruct b; obinv; done). lia.
Qed.

Lemma size_insert_le (ns : gmap UniqueHash node) h n :
  (base.size (<[h := n]> ns) <= S (base.size ns))%nat.
Proof. rewrite map_size_insert. destruct (ns !! h); cbn; lia. Qed.

Lemma size_update (ns : gmap UniqueHash node) h n :
  is_Some (ns !! h) -> base.size (<[h := n]> ns) = base.size ns.
Proof. intros [x Hx]. by rewrite map_size_insert, Hx. Qed.

Lemma abs_exec_size ns o r ns' :
  abs_exec ns o = Done (r, ns') -> (base.size ns' <= S (base.size ns))%nat.
Proof.
  destruct o as [l p|l p att|l p|l p|l p sz offset fei]; cbn [abs_exec];
    unfold as_bool, abs_mknod, abs_mkdir, abs_with_parent, abs_extents; intros Hx.
  1,2: simplify_eq; lia.
  - obinv; simplify_eq/=; try lia. apply size_insert_le.
  - obinv; simplify_eq/=; try lia. etrans; [apply size_insert_le|]. rewrite size_update; [done|].
    match goal with E : dir_at _ _ = Some _ |- _ => unfold dir_at in E; repeat case_match; naive_solver end.
  - obinv; simplify_eq/=; try lia. rewrite size_update by eauto. lia.
Qed.

Lemma simulates_represents {A} f s ns' (x : A) :
  simulates f (Done (x, ns')) s (fun _ => 0) -> exists s', f s = Done (x, s') /\ represents s' ns'.
Proof.
  intros (s' & m & files & dirs & E & R & L). exists s'. split; [done|]. by exists m, files, dirs.
Qed.

Lemma fs_exec_refines s ns o n :
  represents s ns -> 0 <= n -> has_room s ns (n + 1) -> garbage_ok o = true ->
  match abs_exec ns o with
  | Done (r, ns') => exists s', exec s o = Done (r, s') /\ represents s' ns' /\ has_room s' ns' n
  | Fault f => exec s o = Fault f
  end.
Proof.
  intros (m & files & dirs & R & L) Hn Hroom Hok.
  destruct (rep_room _ _ _ _ _ _ _ R L Hroom ltac:(lia)) as [Hlog Hr].
  assert (Hend : match abs_exec ns o with
    | Done (r, ns') => exists s', exec s o = Done (r, s') /\ represents s' ns'
    | Fault f => exec s o = Fault f
    end).
  { destruct o as [l p|l p att|l p|l p|l p sz offset fei];
      cbn [abs_exec exec]; unfold as_bool, as_attr.
    - destruct (simulates_represents _ _ _ _ (access_spec l s ns m files dirs p R L)) as (s' & -> & ?).
      cbn. eauto.
    - destruct (simulates_represents _ _ _ _ (getattr_spec l s ns m files dirs p att R L))
        as (s' & -> & ?). cbn. eauto.
    - pose proof (mknod_spec l s ns m files dirs p R L Hlog Hr) as S.
      destruct (abs_mknod l ns p) as [[b ns']|f]; [|by rewrite S].
      apply simulates_represents in S as (s' & -> & ?). cbn. eauto.
    - apply bool_decide_eq_true in Hok.
      pose proof (mkdir_spec l s ns m files dirs p R L Hok Hlog Hr) as S.
      destruct (abs_mkdir l ns p) as [[b ns']|f]; [|by rewrite S].
      apply simulates_represents in S as (s' & -> & ?). cbn. eauto.
    - pose proof (extentMetaWrite_spec l s ns m files dirs p sz offset fei R L) as S.
      destruct (abs_extents ns p sz offset fei) as [[b ns']|f]; [|by rewrite S].
      apply simulates_represents in S as (s' & -> & ?). cbn. eauto. }
  destruct (abs_exec ns o) as [[r ns']|f] eqn:Ea; [|done]. destruct Hend as (s' & E & R').
  exists s'. split_and!; [done..|]. pose proof (exec_log _ _ _ _ E) as Hl.
  pose proof (abs_exec_size _ _ _ _ Ea) as Hs. destruct Hroom as (? & ? & ? & ?).
  split_and!; lia.
Qed.

(** C19. The metadata operations of a node refine a finite map from path hashes to
    nodes: when tables, hash table and log have room for a new node per operation,
    every sequence of access, getattr, mknodcd, mkdircd and extentMetaWrite returns
    what the map returns and ends in a state that represents the map's, with every
    lock released; and when the map faults (a path in the bucket of its own parent
    waits for itself, a 33rd name or a name of 50 characters is written behind its
    array, an extent behind the 64th) the code faults the same way. *)
Theorem filesystem_refines_namespace s ns ops :
  represents s ns -> has_room s ns (zlen ops) -> forallb garbage_ok ops = true ->
  match abs_run ns ops with
  | Done (rs, ns') => exists s', run s ops = Done (rs, s') /\ represents s' ns'
  | Fault f => run s ops = Fault f
  end.
Proof.
  revert s ns. induction ops as [|o ops IH]; intros s ns R; cbn [abs_run run forallb]; [eauto|].
  rewrite zlen_cons. intros Hroom [Ho Hrest]%andb_true_iff. pose proof (zlen_nonneg ops).
  pose proof (fs_exec_refines s ns o (zlen ops) R ltac:(lia) Hroom Ho) as E.
  destruct (abs_exec ns o) as [[r ns1]|f]; [|by rewrite E].
  destruct E as (s1 & E & R1 & Hroom1). rewrite E. cbn [obind].
  specialize (IH s1 ns1 R1 Hroom1 Hrest). destruct (abs_run ns1 ops) as [[rs ns2]|f]; cbn [obind].
  - destruct IH as (s2 & -> & R2). cbn. eauto.
  - by rewrite IH.
Qed.

(** *** The transaction log of the file system *)

(** The wrapper drops the id of the transaction it begins and returns 0. *)
Definition fs_tx (s : t B) (bytes : list Z) (action : bool) : outcome (Z * t B) :=
  let! (id, s1) := TxLocalBegin s in
  let! s2 := TxWriteData s1 id bytes in
  let! s3 := TxLocalCommit s2 id action in
  Done (id, s3).

End model.

(** ** A new file system *)

(** Zeroed buffers of the sizes the constructors assume. *)
Record zeroed (b : buffer) (blocks : list Z) (countFile countDirectory countBlock : Z) : Prop := {
  z_heads a it : b_heads b !! a = Some it -> it = HashTable.mkHashItem 0 0;
  z_bits : zlen (b_bits b) = (countDirectory + countFile) / 8 /\ Forall (eq 0) (b_bits b);
  z_chained : zlen (b_chained b) = countDirectory + countFile;
  z_rest : countFile * sizeof_FileMeta + countFile / 8 +
    (countDirectory * sizeof_DirectoryMeta + countDirectory / 8) <= zlen (b_rest b) /\
    Forall (eq 0) (b_rest b);
  z_blocks : countBlock * BLOCK_SIZE + countBlock / 8 <= zlen blocks /\ Forall (eq 0) blocks;
  z_file : 0 < countFile < 2 ^ 31 /\ countFile mod 8 = 0;
  z_dir : 0 < countDirectory < 2 ^ 31 /\ countDirectory mod 8 = 0;
  z_block : 0 < countBlock < 2 ^ 31 /\ countBlock mod 8 = 0
}.

Definition tx_ok (x : Tx.t) : Prop :=
  0 < zlen (Tx.localLog x) < 2 ^ 63 /\ 0 <= Tx.LocalLogIndex x /\
  Forall (fun e => zlen (Tx.logData e) = Tx.logData_size) (Tx.localLog x).

Section start.
Context (CalculateDigest : list Z -> UniqueHash) (countFile countDirectory countBlock nodes : Z).
Notation rep := (rep (countDirectory + countFile) countFile countDirectory nodes).

Lemma storage_spec b blocks hashLocalNode node0 id tx0 :
  zeroed b blocks countFile countDirectory countBlock ->
  1 <= hashLocalNode <= nodes -> nodes < 2 ^ 16 -> in_width 16 id -> tx_ok tx0 ->
  exists s, construct (Some b) (Some blocks) countFile countDirectory countBlock nodes
      hashLocalNode node0 id tx0 = Done s /\
    rep node0 s ∅ ∅ ∅ (fun _ => 0) /\ HashTable.getTotalChainedItemsCount (hashtable s) > 0.
Proof.
  intros [Hh [Hbl Hb] Hc [Hrl Hr] [Hkl Hk] [Hf Hf8] [Hd Hd8] [Hn Hn8]] Hme Hnodes Hid Htx.
  unfold sizeof_FileMeta, sizeof_DirectoryMeta, BLOCK_SIZE, MAX_FILE_EXTENT_COUNT,
    MAX_DIRECTORY_COUNT, MAX_FILE_NAME_LENGTH in *.
  unfold construct.
  replace (_ || _) with false.
  2:{ symmetry. rewrite !orb_false_iff, !Z.eqb_neq, !Z.ltb_ge. lia. }
  rewrite wrap_small by (unfold in_width; lia).
  destruct (HashTable.construct_represents (b_heads b) (b_bits b) (b_chained b)
    (countDirectory + countFile)) as (ht & Eht & Rh & Ht);
    [lia|lia|by intros a it ->%Hh|done..|].
  rewrite Eht. cbn [obind].
  destruct (Table.construct_zero sizeof_FileMeta decode_FileMeta (b_rest b) countFile)
    as (tf & -> & Rf & _); [lia|done|done|unfold sizeof_FileMeta, MAX_FILE_EXTENT_COUNT; lia|done|].
  cbn [obind].
  destruct (Table.construct_zero sizeof_DirectoryMeta decode_DirectoryMeta
    (drop (Z.to_nat (Table.sizeBufferUsed sizeof_FileMeta countFile)) (b_rest b)) countDirectory)
    as (td & -> & Rd & _); [lia|done|done| |by apply Forall_drop|].
  { unfold Table.sizeBufferUsed, sizeof_FileMeta, sizeof_DirectoryMeta, MAX_FILE_EXTENT_COUNT,
      MAX_DIRECTORY_COUNT, MAX_FILE_NAME_LENGTH.
    rewrite wrap_small by (unfold in_width; lia). unfold zlen in *. rewrite length_drop. lia. }
  cbn [obind].
  destruct (Table.construct_zero BLOCK_SIZE (fun _ => tt) blocks countBlock)
    as (tb & -> & _ & _); [lia|done|done|unfold BLOCK_SIZE; lia|done|].
  cbn [obind]. eexists. split; [reflexivity|]. split; [|cbn; lia].
  split; cbn; try done; try lia.
  intros a. unfold lock_word, HashTable.hash_item. cbn.
  assert (E : HashTable.itemsHash ht = b_heads b).
  { unfold HashTable.construct in Eht. apply obind_inv in Eht as (bm & _ & Eht).
    apply obind_inv in Eht as ([[|] bm'] & _ & Eht); by simplify_eq/=. }
  rewrite E. destruct (b_heads b !! a) as [it|] eqn:Ea; [|done]. by rewrite (Hh _ _ Ea).
Qed.

Notation root := (HashTable.getUniqueHash CalculateDigest [slash]).
Notation represents := (represents (countDirectory + countFile) countFile countDirectory nodes).

Lemma root_spec l b blocks hashLocalNode node0 wid tx0 me :
  zeroed b blocks countFile countDirectory countBlock -> dir_ok (l_dir l) ->
  1 <= hashLocalNode <= nodes -> nodes < 2 ^ 16 -> in_width 16 wid -> tx_ok tx0 ->
  exists s0 s, construct (Some b) (Some blocks) countFile countDirectory countBlock nodes
      hashLocalNode node0 wid tx0 = Done s0 /\
    rootInitialize CalculateDigest l s0 me = Done s /\
    represents me s (if is_local nodes me root then {[ root := Dir (new_dir l) ]} else ∅).
Proof.
  intros Hz Hl Hn Hn' Hid Htx.
  destruct (storage_spec b blocks hashLocalNode node0 wid tx0 Hz Hn Hn' Hid Htx)
    as (s0 & E & R0 & Htot).
  exists s0. rewrite E. assert (R : rep me (with_local_node s0 me) ∅ ∅ ∅ (fun _ => 0))
    by (destruct R0; split; naive_solver).
  pose proof linked_empty as L.
  unfold rootInitialize.
  change (getNodeHash (with_local_node s0 me) root =? _)
    with (checkLocal (with_local_node s0 me) (getNodeHash (with_local_node s0 me) root)).
  rewrite (is_local_spec _ _ _ _ _ _ _ _ _ _ root R).
  destruct (is_local nodes me root).
  2:{ eexists. split_and!; [reflexivity|reflexivity|]. unfold FileSystem.represents. eauto 10. }
  assert (Hc : forall P, (0 < countDirectory -> P) -> P) by (intros P HP; apply HP; apply Hz).
  apply Hc. clear Hc. intros Hd.
  destruct (create_room countDirectory (tableDirectoryMeta (with_local_node s0 me)) ∅ (l_index l) (new_dir l)
    (rp_dirs _ _ _ _ _ _ _ _ _ _ R)) as (p & tb & -> & _ & Rt).
  { rewrite (Table.count_saved _ _ _ (rp_dirs _ _ _ _ _ _ _ _ _ _ R)), map_size_empty.
    unfold Table.countTotalItems. rewrite (Table.re_total _ _ _ (rp_dirs _ _ _ _ _ _ _ _ _ _ R)). done. }
  cbn [obind negb default from_option id].
  assert (R1 : rep me (with_dirs (with_local_node s0 me) tb) ∅ ∅ (<[p := new_dir l]> ∅) (fun _ => 0)).
  { destruct R. split; try done. intros i d. rewrite lookup_insert_Some, lookup_empty.
    intros [[_ <-]|[_ ?]]; [by apply new_dir_ok|done]. }
  destruct (put_meta_spec _ _ _ _ _ _ ∅ ∅ ∅ ∅ ∅ (<[p := new_dir l]> ∅) (fun _ => 0) root p true
    (Dir (new_dir l)) R1 L) as (ht & Eput & R2 & L2); try done.
  { destruct (rp_hash _ _ _ _ _ _ _ _ _ _ R1) as [C M].
    destruct (HashTable.saved_spec _ _ _ _ M) as [Hs _].
    rewrite Hs, map_size_empty. cbn. cbn in Htot. lia. }
  { intros w. apply meta_insert_dir. }
  assert (E1 : HashTable.put_path CalculateDigest (hashtable (with_local_node s0 me)) (Some [slash]) p true =
    Done (true, ht)) by exact Eput.
  rewrite E1. cbn [obind negb]. eexists. split_and!; [reflexivity|reflexivity|].
  exists (<[root := (p, true)]> ∅), ∅, (<[p := new_dir l]> ∅). split; [done|].
  by rewrite insert_empty in L2.
Qed.

(** C39. A new file system is well-formed: on zeroed buffers the constructors succeed,
    and rootInitialize then makes a file system whose only node is the empty root
    directory on the node the hash of the path / belongs to, and an empty one on
    the others. *)
Theorem mkfs_root l b blocks hashLocalNode node0 wid tx0 me :
  zeroed b blocks countFile countDirectory countBlock -> dir_ok (l_dir l) ->
  1 <= hashLocalNode <= nodes -> nodes < 2 ^ 16 -> in_width 16 wid -> tx_ok tx0 ->
  exists s0 s, construct (Some b) (Some blocks) countFile countDirectory countBlock nodes
      hashLocalNode node0 wid tx0 = Done s0 /\
    rootInitialize CalculateDigest l s0 me = Done s /\
    represents me s (if is_local nodes me root then {[ root := Dir (new_dir l) ]} else ∅).
Proof. apply root_spec. Qed.
End start.

(** *** A small file system: sixteen files and directories, eight blocks *)

Definition sample_digest (bytes : list Z) : UniqueHash :=
  let v := foldl (fun acc b => wrap 64 (acc * 31 + b)) 7 bytes in
  HashTable.mkUniqueHash v 0 0 v.
Definition sample_buffer : buffer :=
  mkBuffer ∅ (replicate 4 0) (replicate 32 HashTable.blank) (replicate 43012 0).
Definition sample_blocks : list Z := replicate 32769 0.
Definition sample_locals : locals :=
  mkLocals 5 0 false [] (mkFileMeta 0 0 0 (replicate 64 (mkExtent 0 0 0)))
    (mkDirectoryMeta 0 (replicate 32 (mkName (replicate 50 0) false))).

Definition sample_fs : outcome (t Bitmap.t) :=
  let! s := construct (Some sample_buffer) (Some sample_blocks) 16 16 8 1 1 0 7 (Tx.construct 16 16) in
  rootInitialize sample_digest sample_locals s 1.

Lemma sample_zeroed : zeroed sample_buffer sample_blocks 16 16 8.
Proof.
  split; try done.
  - split; [done|]. by apply Forall_replicate.
  - split; [vm_compute; done|]. by apply Forall_replicate.
  - split; [vm_compute; done|]. by apply Forall_replicate.
Qed.

Lemma sample_dir_ok : dir_ok (l_dir sample_locals).
Proof.
  split; [done|]. split; [done|]. by apply Forall_replicate.
Qed.

Lemma sample_tx_ok : tx_ok (Tx.construct 16 16).
Proof. split; [done|]. split; [done|]. by apply Forall_replicate. Qed.

Lemma sample_root_local : is_local 1 1 (sample_digest [slash]) = true.
Proof. vm_compute. reflexivity. Qed.

Lemma mkfs_root_witness :
  exists s, sample_fs = Done s /\
    represents 32 16 16 1 1 s {[ sample_digest [slash] := Dir (new_dir sample_locals) ]}.
Proof.
  destruct (mkfs_root sample_digest 16 16 8 1 sample_locals sample_buffer sample_blocks 1 0 7
    (Tx.construct 16 16) 1 sample_zeroed sample_dir_ok) as (s0 & s & E0 & E & R).
  - lia.
  - lia.
  - split; lia.
  - exact sample_tx_ok.
  - exists s. unfold HashTable.getUniqueHash in R. rewrite sample_root_local in R.
    split; [unfold sample_fs; rewrite E0; exact E|exact R].
Defined.

Lemma sample_fs_represents :
  exists s, sample_fs = Done s /\
    represents 32 16 16 1 1 s {[ sample_digest [slash] := Dir (new_dir sample_locals) ]}.
Proof.
  destruct (root_spec sample_digest 16 16 8 1 sample_locals sample_buffer sample_blocks 1 0 7
    (Tx.construct 16 16) 1 sample_zeroed sample_dir_ok) as (s0 & s & E0 & E & R);
    [lia|lia|split; lia|exact sample_tx_ok|].
  exists s. unfold HashTable.getUniqueHash in R. rewrite sample_root_local in R.
  split; [unfold sample_fs; rewrite E0; exact E|exact R].
Qed.

(** mkdir /d, mknod /d/f, access /d/f *)
Definition sample_ops : list op :=
  [OMkdir sample_locals [47; 100]; OMknod sample_locals [47; 100; 47; 102];
   OAccess sample_locals [47; 100; 47; 102]; OAccess sample_locals [47; 102]].

Lemma sample_log s : sample_fs = Done s -> log_left s = 16.
Proof.
  intros E. assert (H : match sample_fs with Done s => log_left s =? 16 | _ => false end = true)
    by (vm_compute; reflexivity).
  rewrite E in H. by apply Z.eqb_eq.
Qed.

Lemma sample_has_room s n :
  sample_fs = Done s -> n <= 15 ->
  has_room 32 16 16 s {[ sample_digest [slash] := Dir (new_dir sample_locals) ]} n.
Proof.
  intros E Hn. unfold has_room. rewrite (sample_log s E), map_size_singleton. lia.
Qed.

Lemma sample_garbage : forallb garbage_ok sample_ops = true.
Proof. vm_compute. reflexivity. Qed.
Lemma sample_len : zlen sample_ops <= 15.
Proof. vm_compute. discriminate. Qed.

Lemma filesystem_refines_namespace_witness :
  exists s s', sample_fs = Done s /\
    run sample_digest 4096 s sample_ops =
      Done ([RBool true; RBool true; RBool true; RBool false], s').
Proof.
  destruct sample_fs_represents as (s & E & R).
  pose proof (filesystem_refines_namespace sample_digest 4096 32 16 16 1 1 s _ sample_ops R
    (sample_has_room s _ E sample_len) sample_garbage) as T.
  match type of T with match ?c with _ => _ end =>
    assert (Hc : match c with Done (rs, _) => rs = [RBool true; RBool true; RBool true; RBool false]
                 | Fault _ => False end) by (vm_compute; reflexivity);
    destruct c as [[rs ns']|]; [|destruct Hc] end.
  destruct T as (s' & Hrun & _). exists s, s'. split; [exact E|]. rewrite Hrun, Hc. reflexivity.
Defined.

Lemma rep_with_tx {B} `{PositionSet B} capH capF capD nodes me (s : t B) m files dirs W x :
  rep capH capF capD nodes me s m files dirs W -> tx_ok x ->
  rep capH capF capD nodes me (with_tx s x) m files dirs W.
Proof. intros [] Hx. by split. Qed.

(** Every local transaction of the file system is logged in entry 0: the
    transaction that begins entry n leaves the data and the commit mark of entry
    n as they were and overwrites those of entry 0, whose id is not touched. *)
Theorem fs_log_entry_zero {B} `{PositionSet B} capH capF capD nodes me (s : t B) m files dirs W bytes action n e e0 :
  rep capH capF capD nodes me s m files dirs W -> n = Tx.LocalLogIndex (tx s) -> n <> 0 -> zlen bytes <= Tx.logData_size ->
  zget (Tx.localLog (tx s)) n = Some e -> zget (Tx.localLog (tx s)) 0 = Some e0 ->
  exists s', fs_tx s bytes action = Done (0, s') /\
    zget (Tx.localLog (tx s')) n = Some (Tx.mkLocal n true (Tx.logData e) (Tx.commit e)) /\
    zget (Tx.localLog (tx s')) 0 =
      Some (Tx.mkLocal (Tx.TxID e0) (Tx.begin e0) (blit (Tx.logData e0) 0 bytes) action).
Proof.
  intros R -> Hn Hb He H0'. pose proof (rp_log _ _ _ _ _ _ _ _ _ _ R) as ([Hz Hz'] & Hi & Hf).
  pose proof (zget_Some_range _ _ _ He) as Hr.
  unfold fs_tx, TxLocalBegin, TxWriteData, TxLocalCommit, Tx.TxLocalBegin, Tx.TxWriteData,
    Tx.TxLocalCommit, Tx.with_local, with_tx.
  rewrite (load_in_range _ _ _ He). cbn [obind]. rewrite store_in_range by done. cbn [obind tx Tx.localLog].
  rewrite (load_in_range _ 0 e0) by (by rewrite zget_zset_ne). cbn [obind].
  rewrite (proj2 (Z.leb_le _ _) Hb), store_in_range by (rewrite zlen_zset; lia). cbn [obind tx Tx.localLog].
  erewrite (load_in_range _ 0) by (apply zget_zset_eq; rewrite zlen_zset; lia). cbn [obind].
  rewrite store_in_range by (rewrite !zlen_zset; lia). cbn [obind tx Tx.localLog].
  eexists. split; [reflexivity|]. cbn [tx Tx.localLog]. split.
  - rewrite !(zget_zset_ne _ 0) by done. by rewrite zget_zset_eq.
  - rewrite zget_zset_eq by (rewrite !zlen_zset; lia). done.
Qed.

Lemma fs_log_entry_zero_witness :
  exists (s s' : t Bitmap.t), Tx.LocalLogIndex (tx s) = 1 /\ fs_tx s [9] true = Done (0, s') /\
    Tx.commit <$> zget (Tx.localLog (tx s')) 0 = Some true /\
    Tx.commit <$> zget (Tx.localLog (tx s')) 1 = Some false.
Proof.
  destruct sample_fs_represents as (s & _ & m & files & dirs & R & _).
  set (x := Tx.mk (replicate 2 Tx.zero_local) [] 1 0).
  assert (Hx : tx_ok x) by (split; [done|]; split; [done|]; by apply Forall_replicate).
  destruct (fs_log_entry_zero 32 16 16 1 1 (with_tx s x) m files dirs (fun _ => 0) [9] true 1
    Tx.zero_local Tx.zero_local) as (s' & E & E1 & E0).
  - apply rep_with_tx; [exact R|exact Hx].
  - reflexivity.
  - discriminate.
  - vm_compute. discriminate.
  - reflexivity.
  - reflexivity.
  - exists (with_tx s x), s'. split; [reflexivity|]. split; [exact E|]. rewrite E0, E1. split; reflexivity.
Defined.
End FileSystem.
