(* ===== verification/FsDataModel.v ===== *)
(** * apps/fs/src/filesystem.cc: block allocation and extents

    Theorems about the data path of [FileSystem]: extentWrite allocates fresh
    blocks from the ring of [Table], copies what a partial write keeps of the old
    blocks and tells the caller where the new bytes go; extentMetaWrite records the
    blocks in the file's meta. *)

From S2P Require Import Prelude BitmapModel HashTableModel TableModel TxModel FileSystemModel.

Module FsData.

Import FileSystem.

(** ** The extents of a file *)

Definition cleared (e : FileMetaTuple) : FileMetaTuple :=
  mkExtent (hashNode e) (indexExtentStartBlock e) 0.
Definition placed (b : Z) (e : FileMetaTuple) : FileMetaTuple := mkExtent (hashNode e) b 1.

Lemma clear_extents_spec fuel l bound i :
  0 <= i -> bound <= zlen l < 2 ^ 63 -> bound - i <= Z.of_nat fuel ->
  exists l', clear_extents fuel l bound i = Done l' /\ zlen l' = zlen l /\
    forall j, zget l' j =
      if decide (i <= j < bound) then cleared <$> zget l j else zget l j.
Proof.
  revert l i. induction fuel as [|fuel IH]; intros l i Hi Hb Hf; cbn.
  - rewrite (proj2 (Z.ltb_ge _ _)) by lia. exists l. split_and!; [done..|].
    intros j. by rewrite decide_False by lia.
  - destruct (Z.ltb_spec i bound) as [Hlt|Hge].
    2:{ exists l. split_and!; [done..|]. intros j. by rewrite decide_False by lia. }
    destruct (zget_is_Some l i) as [e He]; [lia|].
    rewrite (load_in_range _ _ _ He). cbn [obind]. rewrite store_in_range by lia. cbn [obind].
    rewrite wrap_small by (unfold in_width; lia). fold (cleared e).
    destruct (IH (zset l i (cleared e)) (i + 1)) as (l' & -> & Hl & Hj);
      [lia|by rewrite zlen_zset|lia|].
    exists l'. split_and!; [done|by rewrite Hl, zlen_zset|]. intros j. rewrite Hj.
    destruct (decide (j = i)) as [->|Hne].
    + rewrite decide_False, decide_True by lia. rewrite zget_zset_eq, He by lia. done.
    + rewrite zget_zset_ne by done. repeat case_decide; done || lia.
Qed.

Lemma set_extents_spec fuel l fei begin_id i :
  0 <= i <= e_len fei -> 0 <= begin_id -> begin_id + e_len fei <= zlen l < 2 ^ 63 ->
  e_len fei <= zlen (e_tuple fei) -> e_len fei - i <= Z.of_nat fuel ->
  exists l', set_extents fuel l fei begin_id i = Done l' /\ zlen l' = zlen l /\
    forall j, zget l' j =
      if decide (begin_id + i <= j < begin_id + e_len fei)
      then b ← zget (e_tuple fei) (j - begin_id); placed b <$> zget l j
      else zget l j.
Proof.
  revert l i. induction fuel as [|fuel IH]; intros l i Hi Hb Hl Ht Hf; cbn.
  - rewrite (proj2 (Z.ltb_ge _ _)) by lia. exists l. split_and!; [done..|].
    intros j. by rewrite decide_False by lia.
  - destruct (Z.ltb_spec i (e_len fei)) as [Hlt|Hge].
    2:{ exists l. split_and!; [done..|]. intros j. by rewrite decide_False by lia. }
    rewrite wrap_small by (unfold in_width; lia).
    destruct (zget_is_Some (e_tuple fei) i) as [b Eb]; [lia|].
    destruct (zget_is_Some l (i + begin_id)) as [e He]; [lia|].
    rewrite (load_in_range _ _ _ Eb), (load_in_range _ _ _ He). cbn [obind].
    rewrite store_in_range by lia. cbn [obind]. fold (placed b e).
    destruct (IH (zset l (i + begin_id) (placed b e)) (i + 1)) as (l' & -> & Hl' & Hj);
      [lia|lia|by rewrite zlen_zset|done|lia|].
    exists l'. split_and!; [done|by rewrite Hl', zlen_zset|]. intros j. rewrite Hj.
    destruct (decide (j = i + begin_id)) as [->|Hne].
    + rewrite decide_False, decide_True by lia. rewrite zget_zset_eq, He by lia.
      replace (i + begin_id - begin_id) with i by lia. by rewrite Eb.
    + rewrite zget_zset_ne by done. repeat case_decide; done || lia.
Qed.

Definition file_ok (m : FileMeta) : Prop :=
  zlen (tuple m) = MAX_FILE_EXTENT_COUNT /\ 0 <= count m <= MAX_FILE_EXTENT_COUNT /\
  in_width 64 (size m).

(** The block [i] of a file after writing the blocks [fei] from block [first]. *)
Definition extent_after (m : FileMeta) (fei : file_extent_info) (first i : Z)
    : option FileMetaTuple :=
  if decide (first <= i < first + e_len fei) then
    b ← zget (e_tuple fei) (i - first); placed b <$> zget (tuple m) i
  else if decide (0 < count m /\ count m - 1 <= i < first + e_len fei - 1) then
    cleared <$> zget (tuple m) i
  else zget (tuple m) i.

(** A write ends inside the 64 extents of a file. *)
Lemma meta_write_spec m sz offset fei :
  let first := offset / BLOCK_SIZE in
  file_ok m -> 0 < sz -> 0 <= offset -> offset + sz < 2 ^ 64 ->
  0 < e_len fei <= MAX_MESSAGE_BLOCK_COUNT -> e_len fei <= zlen (e_tuple fei) ->
  first + e_len fei <= MAX_FILE_EXTENT_COUNT ->
  exists m', meta_write m sz offset fei = Done m' /\ file_ok m' /\
    size m' = Z.max (size m) (offset + sz) /\
    count m' = Z.max (count m) (first + e_len fei) /\
    timeLastModified m' = Z.max (timeLastModified m) (e_timeLastModified fei) /\
    forall i, zget (tuple m') i = extent_after m fei first i.
Proof.
  intros first (Ht & Hc & Hs) Hsz Ho Hsum He Hte Hfit.
  unfold MAX_FILE_EXTENT_COUNT, MAX_MESSAGE_BLOCK_COUNT in *.
  assert (Hf : 0 <= first) by (unfold first, BLOCK_SIZE; lia).
  unfold meta_write. fold first.
  rewrite (wrap_small 64 (offset + sz)), (wrap_small 64 (first + e_len fei)),
    (wrap_small 64 (first + e_len fei - 1)) by (unfold in_width; lia).
  set (m1 := if _ || _ then _ else _).
  assert (H1 : m1 = set_size m (Z.max (size m) (offset + sz))).
  { unfold m1. destruct (Z.eqb_spec (size m) 0) as [->|]; cbn [orb].
    - f_equal. lia.
    - destruct (Z.ltb_spec ((size m - 1) / BLOCK_SIZE) ((offset + sz - 1) / BLOCK_SIZE)).
      + f_equal. unfold BLOCK_SIZE in *. lia.
      + f_equal. destruct (Z.ltb_spec (size m) (offset + sz)); lia. }
  rewrite H1. clear m1 H1. cbn [tuple set_size count].
  assert (Hclear : exists l1, clear_extents extent_fuel (tuple m) (first + e_len fei - 1)
      (wrap 64 (count m - 1)) = Done l1 /\ zlen l1 = 64 /\
    forall j, zget l1 j =
      if decide (0 < count m /\ count m - 1 <= j < first + e_len fei - 1)
      then cleared <$> zget (tuple m) j else zget (tuple m) j).
  { destruct (decide (count m = 0)) as [E|E].
    - rewrite E. exists (tuple m). split_and!; [|done|].
      + change (wrap 64 (0 - 1)) with (2 ^ 64 - 1). unfold extent_fuel. cbn [clear_extents].
        by rewrite (proj2 (Z.ltb_ge _ _)) by lia.
      + intros j. by rewrite decide_False by lia.
    - rewrite wrap_small by (unfold in_width; lia).
      destruct (clear_extents_spec extent_fuel (tuple m) (first + e_len fei - 1) (count m - 1))
        as (l1 & -> & Hl & Hj); [lia|lia|unfold extent_fuel; lia|].
      exists l1. split_and!; [done|by rewrite Hl|]. intros j. rewrite Hj.
      repeat case_decide; done || lia. }
  destruct Hclear as (l1 & -> & Hl1 & Hj1). cbn [obind].
  set (m3 := if _ <? _ then _ else _).
  assert (H3 : tuple m3 = l1 /\ count m3 = Z.max (count m) (first + e_len fei) /\
    size m3 = Z.max (size m) (offset + sz) /\ timeLastModified m3 = timeLastModified m).
  { unfold m3. cbn. destruct (Z.ltb_spec (count m) (first + e_len fei)); cbn; split_and!; done || lia. }
  destruct H3 as (E3 & Ec3 & Es3 & Et3). rewrite E3.
  destruct (set_extents_spec loop_fuel l1 fei first 0) as (l2 & -> & Hl2 & Hj2);
    [lia|lia|lia|done|unfold loop_fuel; lia|]. cbn [obind].
  eexists. split; [reflexivity|].
  set (m4 := if _ <? _ then _ else _).
  assert (H4 : tuple m4 = l2 /\ count m4 = count m3 /\ size m4 = size m3 /\
    timeLastModified m4 = Z.max (timeLastModified m) (e_timeLastModified fei)).
  { unfold m4. cbn. rewrite Et3.
    destruct (Z.ltb_spec (timeLastModified m) (e_timeLastModified fei)); cbn; split_and!; done || lia. }
  destruct H4 as (E4 & Ec4 & Es4 & Et4). unfold file_ok, MAX_FILE_EXTENT_COUNT.
  rewrite E4, Ec4, Es4, Et4, Ec3, Es3, Hl2, Hl1. unfold in_width in *. split_and!; try done; try lia.
  intros i. rewrite Hj2. unfold extent_after. rewrite Z.add_0_r, Hj1.
  destruct (zget (e_tuple fei) (i - first)), (zget (tuple m) i); cbn; by repeat case_decide.
Qed.

(** ** The blocks of a write *)

Notation BS := BLOCK_SIZE.

(** Piece [i] of the request [offset, offset + size): its part in block [i] of
    the file, counted from the first block it touches. *)
Definition piece_start (offset i : Z) : Z := Z.max offset ((offset / BS + i) * BS).
Definition piece_stop (offset size i : Z) : Z :=
  Z.min (offset + size) ((offset / BS + i + 1) * BS).
Definition blocks_of (offset size : Z) : Z := (offset + size - 1) / BS - offset / BS + 1.

(** The write leaves part of its first or last block alone. *)
Definition partial (offset size : Z) : Prop := offset mod BS <> 0 \/ (offset + size) mod BS <> 0.

(** Where the piece goes when the file block is stored in block [b]. *)
Definition piece (b offset size i : Z) : file_pos_tuple :=
  mkPos (b * BS + piece_start offset i mod BS) (piece_stop offset size i - piece_start offset i).

Lemma memcpy_in d dst src n :
  0 <= dst -> dst + n <= zlen d -> 0 <= src -> src + n <= zlen d -> 0 <= n ->
  exists d', memcpy d dst src n = Done d' /\ zlen d' = zlen d /\
    d' = blit d (Z.to_nat dst) (take (Z.to_nat n) (drop (Z.to_nat src) d)).
Proof.
  intros. unfold memcpy. rewrite !(proj2 (Z.leb_le _ _)) by done. eexists. split; [reflexivity|].
  split; [|done]. unfold zlen in *. rewrite blit_length; [done|].
  rewrite length_take, length_drop. lia.
Qed.

Section write.
Context (l : locals) (cap size offset : Z) (fei : file_extent_info).
Hypothesis cap_ok : 0 < cap /\ cap * BS < 2 ^ 63.
Hypothesis request_ok : 0 < size /\ 0 <= offset /\ offset + size < 2 ^ 64.
Notation n := (blocks_of offset size).
Hypothesis n_ok : n <= MAX_MESSAGE_BLOCK_COUNT.
Hypothesis fei_ok : zlen (e_tuple fei) = MAX_MESSAGE_BLOCK_COUNT.
(** A write that leaves part of a block alone names old blocks of the data area. *)
Hypothesis old_ok : partial offset size ->
  Forall (fun b => 0 <= b < 2 ^ 32 /\ block_address b + BS <= cap * BS) (e_tuple fei).

(** After [k] allocations. *)
Record blocks_ok (k : Z) (s : t Bitmap.t) : Prop := {
  bo_ring : Table.ring cap k (tableBlock s);
  bo_data : zlen (data s) = cap * BS
}.

Lemma create_block_spec k s x :
  0 <= k -> blocks_ok k s ->
  exists s', create_block s x = Done (true, k mod cap, s') /\ blocks_ok (k + 1) s' /\
    data s' = data s /\ s' = with_blocks s (tableBlock s').
Proof.
  intros Hk [Hr Hd]. unfold create_block.
  destruct (Table.ring_step cap k (tableBlock s) x ltac:(lia) Hk Hr) as (b & -> & Hr' & _).
  cbn. eexists. split_and!; [reflexivity| |done|done]. by split.
Qed.

Lemma old_block i : 0 <= i < 12 ->
  exists b, zget (e_tuple fei) i = Some b /\
    (partial offset size ->
     has_block b = true /\ 0 <= block_address b /\ block_address b + BS <= cap * BS).
Proof.
  intros Hi. destruct (zget_is_Some (e_tuple fei) i) as [b Eb].
  { rewrite fei_ok. unfold MAX_MESSAGE_BLOCK_COUNT. lia. }
  exists b. split; [done|]. intros Hpart.
  pose proof (Forall_zget _ _ _ _ (old_ok Hpart) Eb) as [Hb Ha]. cbn in Hb, Ha.
  split_and!; [|apply wrap_range; lia|done].
  unfold has_block, NULLBLCOK_ID. by rewrite (proj2 (Z.eqb_neq _ _)) by lia.
Qed.

Lemma blocks_data k s d : blocks_ok k s -> zlen d = zlen (data s) -> blocks_ok k (with_data s d).
Proof. intros [Hr Hd] E. split; [done|]. cbn. by rewrite E. Qed.

Definition head_piece (b i : Z) : file_pos_tuple :=
  if (i =? 0) && negb (offset mod BS =? 0)
  then mkPos (b * BS + offset mod BS) (BS - offset mod BS) else mkPos (b * BS) BS.

(** The two cases of the loop's body make the piece. *)
Lemma piece_cases b i :
  2 <= n -> 0 <= i < n ->
  piece b offset size i =
    if (i =? n - 1) && negb ((offset + size) mod BS =? 0)
    then mkPos (p_offset (head_piece b i)) ((offset + size) mod BS) else head_piece b i.
Proof.
  unfold piece, head_piece, piece_start, piece_stop, blocks_of, BLOCK_SIZE. intros Hn Hi.
  destruct (Z.eqb_spec i 0) as [->|Hi0]; destruct (Z.eqb_spec (offset mod (4 * 1024)) 0) as [Eo|Eo];
    cbn [andb negb p_offset];
    match goal with |- context [?i =? ?m] => destruct (Z.eqb_spec i m) end;
    destruct (Z.eqb_spec ((offset + size) mod (4 * 1024)) 0) as [Er|Er];
    cbn [andb negb p_offset]; f_equal; lia.
Qed.

Definition set_piece (fpi : file_pos_info) (i : Z) (p : file_pos_tuple) : file_pos_info :=
  mkPosInfo (p_len fpi) (zset (p_tuple fpi) i p).
Definition set_id (fo : file_extent_info) (i b : Z) : file_extent_info :=
  mkExtentInfo (e_timeLastModified fo) (e_len fo) (zset (e_tuple fo) i (wrap 32 b)).

Lemma set_pos_eq fpi i o sz : 0 <= i < zlen (p_tuple fpi) ->
  set_pos fpi i o sz = Done (set_piece fpi i (mkPos o sz)).
Proof. intros Hi. unfold set_pos. by rewrite store_in_range. Qed.

Lemma set_piece_twice fpi i p q : set_piece (set_piece fpi i p) i q = set_piece fpi i q.
Proof. unfold set_piece. cbn. by rewrite zset_zset. Qed.

Lemma block_fits b c : 0 <= b < c -> 0 <= b * BS /\ b * BS + BS <= c * BS.
Proof. unfold BLOCK_SIZE. lia. Qed.

Lemma first_fits b c o :
  0 <= b < c -> b + 1 < c \/ o = 0 -> 0 <= o < BS ->
  0 <= b * BS /\ b * BS + o + BS <= c * BS.
Proof. unfold BLOCK_SIZE. lia. Qed.

(** [k0] allocations happened before the first block of the request; the copy of
    the last block's tail starts in the first block. *)
Lemma write_block_spec k0 s fpi fo i :
  let b := (k0 + i) mod cap in
  2 <= n -> 0 <= i < n -> 0 <= k0 -> blocks_ok (k0 + i) s ->
  k0 mod cap + 1 < cap \/ offset mod BS = 0 ->
  zlen (p_tuple fpi) = MAX_MESSAGE_BLOCK_COUNT -> zlen (e_tuple fo) = MAX_MESSAGE_BLOCK_COUNT ->
  (0 < i -> zget (p_tuple fpi) 0 = Some (piece (k0 mod cap) offset size 0)) ->
  exists s', write_block l s size offset fpi (Some fei) fo n i =
      Done (true, set_piece fpi i (piece b offset size i), set_id fo i b, s') /\
    blocks_ok (k0 + i + 1) s'.
Proof.
  intros b Hn Hi Hk Hok Hroom Hp Ho H0. unfold MAX_MESSAGE_BLOCK_COUNT in *.
  pose proof (Z.mod_pos_bound (k0 + i) cap ltac:(lia)) as Hb. fold b in Hb.
  pose proof (Z.mod_pos_bound k0 cap ltac:(lia)) as Hb0.
  assert (Hmod : 0 <= offset mod BS < BS) by (apply Z.mod_pos_bound; done).
  assert (Hrest : 0 <= (offset + size) mod BS < BS) by (apply Z.mod_pos_bound; done).
  set (rest := (offset + size) mod BS) in *.
  assert (HbBS : 0 <= b * BS /\ b * BS + BS <= cap * BS) by (by apply block_fits).
  assert (H0BS : 0 <= k0 mod cap * BS /\ k0 mod cap * BS + offset mod BS + BS <= cap * BS).
  { by apply first_fits. }
  unfold write_block. destruct (create_block_spec (k0 + i) s (l_index l) ltac:(lia) Hok)
    as (s1 & -> & Hok1 & _ & _). fold b. cbn [obind negb].
  unfold set_block. rewrite store_in_range by lia. cbn [obind]. fold (set_id fo i b).
  rewrite set_pos_eq by lia. cbn [obind].
  rewrite (wrap_small 64 (b * BS)) by (unfold in_width; lia).
  destruct (old_block i ltac:(lia)) as (id & Eid & Hold).
  assert (Hhead : exists s2, (if (i =? 0) && negb (offset mod BS =? 0) then
      let! fpi' := set_pos (set_piece fpi i (mkPos (b * BS) BS)) 0 (wrap 64 (b * BS + offset mod BS))
                     (BS - offset mod BS) in
      let! block_id := load (e_tuple fei) i in
      if has_block block_id then
        let! d := memcpy (data s1) (b * BS) (block_address block_id) (offset mod BS) in
        Done (fpi', with_data s1 d)
      else Done (fpi', s1)
    else Done (set_piece fpi i (mkPos (b * BS) BS), s1)) =
    Done (set_piece fpi i (head_piece b i), s2) /\ blocks_ok (k0 + i + 1) s2).
  { unfold head_piece. destruct (Z.eqb_spec i 0) as [->|]; cbn [andb]; [|by eauto].
    destruct (negb _) eqn:Eo; [|by eauto]. apply negb_true_iff, Z.eqb_neq in Eo.
    destruct Hold as (Hhas & Ha0 & Ha1); [by left|].
    rewrite set_pos_eq by (cbn; rewrite zlen_zset; lia). cbn [obind].
    rewrite (load_in_range _ _ _ Eid). cbn [obind]. rewrite Hhas, set_piece_twice.
    destruct (memcpy_in (data s1) (b * BS) (block_address id) (offset mod BS)) as (d & -> & Hd & _);
      rewrite ?(bo_data _ _ Hok1); try lia. cbn [obind].
    rewrite wrap_small by (unfold in_width; lia). eexists. split; [reflexivity|].
    apply blocks_data; [done|]. by rewrite Hd. }
  destruct Hhead as (s2 & -> & Hok2). cbn [obind].
  rewrite (wrap_small 64 (offset + size)) by (unfold in_width; lia). fold rest.
  rewrite (piece_cases b i Hn Hi). fold rest.
  destruct (_ && _) eqn:Ec; [|cbn [obind]; by eauto].
  apply andb_true_iff in Ec as [Ei%Z.eqb_eq Er%negb_true_iff%Z.eqb_neq].
  destruct Hold as (Hhas & Ha0 & Ha1); [by right|].
  assert (Hget : zget (p_tuple (set_piece fpi i (head_piece b i))) i = Some (head_piece b i))
    by (cbn; apply zget_zset_eq; lia).
  rewrite (load_in_range _ _ _ Hget). cbn [obind].
  rewrite set_pos_eq by (cbn; rewrite zlen_zset; lia). cbn [obind]. rewrite set_piece_twice.
  rewrite (load_in_range _ _ _ Eid). cbn [obind]. rewrite Hhas.
  assert (Hfirst : zget (p_tuple (set_piece fpi i (mkPos (p_offset (head_piece b i)) rest))) 0 =
    Some (piece (k0 mod cap) offset size 0)) by (cbn; rewrite zget_zset_ne by lia; apply H0; lia).
  rewrite (load_in_range _ _ _ Hfirst). cbn [obind].
  assert (Hpo : p_offset (piece (k0 mod cap) offset size 0) = k0 mod cap * BS + offset mod BS).
  { unfold piece, piece_start. cbn. f_equal. unfold BLOCK_SIZE in *. lia. }
  rewrite Hpo, !wrap_small by (unfold in_width; lia).
  destruct (memcpy_in (data s2) (k0 mod cap * BS + offset mod BS + rest) (block_address id + rest)
    (BS - rest)) as (d & -> & Hd & _); rewrite ?(bo_data _ _ Hok2); try lia. cbn [obind].
  eexists. split; [reflexivity|]. apply blocks_data; [done|]. by rewrite Hd.
Qed.

(** The pieces from block [i] on are in place. *)
Record placed_from (k0 i : Z) (fpi fpi' : file_pos_info) (fo fo' : file_extent_info) : Prop := {
  pf_len : p_len fpi' = p_len fpi /\ zlen (p_tuple fpi') = zlen (p_tuple fpi);
  pf_pos j : zget (p_tuple fpi') j =
    if decide (i <= j < n) then Some (piece ((k0 + j) mod cap) offset size j)
    else zget (p_tuple fpi) j;
  pf_fei : e_timeLastModified fo' = e_timeLastModified fo /\ e_len fo' = e_len fo;
  pf_ids j : zget (e_tuple fo') j =
    if decide (i <= j < n) then Some (wrap 32 ((k0 + j) mod cap)) else zget (e_tuple fo) j
}.

Lemma placed_none k0 i fpi fo : n <= i -> placed_from k0 i fpi fpi fo fo.
Proof. intros Hi. split; try done; intros j; by rewrite decide_False by lia. Qed.

Lemma placed_step k0 i fpi fpi' fo fo' :
  0 <= i < n -> zlen (p_tuple fpi) = 12 -> zlen (e_tuple fo) = 12 -> n <= 12 ->
  placed_from k0 (i + 1) (set_piece fpi i (piece ((k0 + i) mod cap) offset size i)) fpi'
    (set_id fo i ((k0 + i) mod cap)) fo' ->
  placed_from k0 i fpi fpi' fo fo'.
Proof.
  clear. intros Hi Hp He Hn [[Hl1 Hl2] Hpos [Ht Hl] Hids]. cbn in *. rewrite zlen_zset in Hl2.
  split; [by split| |by split|]; intros j; [rewrite Hpos|rewrite Hids];
    (destruct (decide (j = i)) as [->|Hne];
     [rewrite decide_False, decide_True, zget_zset_eq by lia; done
     |rewrite zget_zset_ne by done; repeat case_decide; done || lia]).
Qed.

Lemma write_blocks_spec fuel k0 s fpi fo i :
  2 <= n -> 0 <= i <= n -> n - i <= Z.of_nat fuel -> 0 <= k0 -> blocks_ok (k0 + i) s ->
  k0 mod cap + 1 < cap \/ offset mod BS = 0 ->
  zlen (p_tuple fpi) = 12 -> zlen (e_tuple fo) = 12 ->
  (0 < i -> zget (p_tuple fpi) 0 = Some (piece (k0 mod cap) offset size 0)) ->
  exists fpi' fo' s', write_blocks fuel l s size offset fpi (Some fei) fo n i =
      Done (true, fpi', fo', s') /\ placed_from k0 i fpi fpi' fo fo' /\ blocks_ok (k0 + n) s'.
Proof.
  intros Hn. revert s fpi fo i.
  induction fuel as [|fuel IH]; intros s fpi fo i Hi Hf Hk Hok Hroom Hp Ho H0; cbn [write_blocks].
  - rewrite (proj2 (Z.ltb_ge _ _)) by lia. replace i with n in * by lia.
    exists fpi, fo, s. split_and!; [done|by apply placed_none|done].
  - destruct (Z.ltb_spec i n) as [Hlt|Hge].
    2:{ replace i with n in * by lia. exists fpi, fo, s. split_and!; [done|by apply placed_none|done]. }
    destruct (write_block_spec k0 s fpi fo i Hn (conj (proj1 Hi) Hlt) Hk Hok Hroom Hp Ho H0)
      as (s1 & -> & Hok1). cbn [obind negb]. rewrite <- Z.add_assoc in Hok1.
    assert (Hfirst : 0 < i + 1 ->
      zget (p_tuple (set_piece fpi i (piece ((k0 + i) mod cap) offset size i))) 0 =
      Some (piece (k0 mod cap) offset size 0)).
    { intros _. cbn. destruct (decide (i = 0)) as [->|Hne].
      - rewrite zget_zset_eq by lia. by rewrite Z.add_0_r.
      - rewrite zget_zset_ne by done. apply H0. lia. }
    destruct (IH s1 (set_piece fpi i (piece ((k0 + i) mod cap) offset size i))
      (set_id fo i ((k0 + i) mod cap)) (i + 1)) as (fpi' & fo' & s' & -> & Hpl & Hok');
      [lia|lia|done..|cbn; by rewrite zlen_zset|cbn; by rewrite zlen_zset|exact Hfirst|].
    exists fpi', fo', s'. split_and!; [done| |done].
    apply placed_step; [lia|done|done|exact n_ok|exact Hpl].
Qed.

(** One block: the copy is the whole old block. *)
Lemma write_only_block_spec k0 s fpi fo :
  let b := k0 mod cap in
  n = 1 -> 0 <= k0 -> blocks_ok k0 s -> zlen (p_tuple fpi) = 12 -> zlen (e_tuple fo) = 12 ->
  exists id s', zget (e_tuple fei) 0 = Some id /\
    write_only_block l s size offset fpi (Some fei) fo =
      Done (true, set_piece fpi 0 (piece b offset size 0), set_id fo 0 b, s') /\
    blocks_ok (k0 + 1) s' /\
    data s' = if size =? BS then data s else
      blit (data s) (Z.to_nat (b * BS))
        (take (Z.to_nat BS) (drop (Z.to_nat (block_address id)) (data s))).
Proof.
  intros b Hn Hk Hok Hp Ho. unfold write_only_block.
  pose proof (Z.mod_pos_bound k0 cap ltac:(lia)) as Hb. fold b in Hb.
  destruct (block_fits _ _ Hb) as [Hb0 Hb1].
  assert (Hmod : 0 <= offset mod BS < BS) by (apply Z.mod_pos_bound; done).
  destruct (create_block_spec k0 s (l_index l) Hk Hok) as (s1 & -> & Hok1 & Hd1 & _). fold b. cbn [obind negb].
  unfold set_block. rewrite store_in_range by lia. cbn [obind]. fold (set_id fo 0 b).
  rewrite set_pos_eq by lia. cbn [obind]. rewrite !(wrap_small 64) by (unfold in_width; lia).
  assert (Epiece : mkPos (b * BS + offset mod BS) size = piece b offset size 0).
  { clear - Hn request_ok. unfold piece, piece_start, piece_stop, blocks_of, BLOCK_SIZE in *. f_equal; lia. }
  rewrite Epiece. destruct (old_block 0 ltac:(lia)) as (id & Eid & Hold).
  exists id. destruct (Z.eqb_spec size BS) as [|Hs]; [by eauto|]. cbn [of_option obind].
  destruct Hold as (Hhas & Ha0 & Ha1).
  { clear - Hn request_ok Hs. unfold partial, blocks_of, BLOCK_SIZE in *. lia. }
  rewrite (load_in_range _ _ _ Eid). cbn [obind]. rewrite Hhas.
  destruct (memcpy_in (data s1) (b * BS) (block_address id) BS) as (d & -> & Hd & Ed);
    rewrite ?(bo_data _ _ Hok1); try done. cbn [obind].
  eexists. split_and!; [done|reflexivity|by apply blocks_data|]. cbn. by rewrite Ed, Hd1.
Qed.

Lemma extentWrite_spec k0 s path fpi fo :
  0 <= k0 -> blocks_ok k0 s -> k0 mod cap + 1 < cap \/ offset mod BS = 0 ->
  zlen (p_tuple fpi) = 12 -> zlen (e_tuple fo) = 12 ->
  exists fpi' fo' s',
    extentWrite l s (Some path) size offset (Some fpi) (Some fei) fo =
      Done (true, Some fpi', fo', s') /\
    placed_from k0 0 (mkPosInfo n (p_tuple fpi)) fpi'
      (mkExtentInfo (e_timeLastModified fo) n (e_tuple fo)) fo' /\
    blocks_ok (k0 + n) s'.
Proof.
  intros Hk Hok Hroom Hp Ho. unfold extentWrite.
  assert (Hn1 : 1 <= n) by (clear - request_ok; unfold blocks_of, BLOCK_SIZE in *; lia).
  unfold MAX_MESSAGE_BLOCK_COUNT in *.
  rewrite (wrap_small 64 (2 ^ 64 - 1 - offset)) by (unfold in_width; lia).
  rewrite (proj2 (Z.ltb_ge _ _)), (proj2 (Z.eqb_neq size 0)) by lia. cbn [orb].
  rewrite (wrap_small 64 (offset + size - 1)) by (unfold in_width; lia).
  fold (blocks_of offset size). rewrite (wrap_small 64 n), (wrap_small 32 n) by (unfold in_width; lia).
  destruct (Z.eqb_spec n 1) as [E|E].
  - destruct (write_only_block_spec k0 s (mkPosInfo n (p_tuple fpi))
      (mkExtentInfo (e_timeLastModified fo) n (e_tuple fo)) E Hk Hok Hp Ho)
      as (id & s' & _ & -> & Hok' & _). cbn [obind].
    eexists _, _, s'. split_and!; [reflexivity| |by rewrite E].
    apply placed_step; [lia|done|done|lia|]. rewrite !Z.add_0_r. apply placed_none. lia.
  - destruct (write_blocks_spec loop_fuel k0 s (mkPosInfo n (p_tuple fpi))
      (mkExtentInfo (e_timeLastModified fo) n (e_tuple fo)) 0)
      as (fpi' & fo' & s' & -> & Hpl & Hok');
      [lia|lia|unfold loop_fuel; lia|done|by rewrite Z.add_0_r|done..|lia|].
    cbn [obind]. eauto 10.
Qed.

(** A request inside one block. *)
Lemma extentWrite_one k0 s path fpi fo :
  let b := k0 mod cap in
  n = 1 -> 0 <= k0 -> blocks_ok k0 s -> zlen (p_tuple fpi) = 12 -> zlen (e_tuple fo) = 12 ->
  exists id s', zget (e_tuple fei) 0 = Some id /\
    extentWrite l s (Some path) size offset (Some fpi) (Some fei) fo =
      Done (true, Some (set_piece (mkPosInfo 1 (p_tuple fpi)) 0 (mkPos (b * BS + offset mod BS) size)),
            set_id (mkExtentInfo (e_timeLastModified fo) 1 (e_tuple fo)) 0 b, s') /\
    blocks_ok (k0 + 1) s' /\
    data s' = if size =? BS then data s else
      blit (data s) (Z.to_nat (b * BS))
        (take (Z.to_nat BS) (drop (Z.to_nat (block_address id)) (data s))).
Proof.
  intros b Hn Hk Hok Hp Ho. unfold extentWrite.
  rewrite (wrap_small 64 (2 ^ 64 - 1 - offset)) by (unfold in_width; lia).
  rewrite (proj2 (Z.ltb_ge _ _)), (proj2 (Z.eqb_neq size 0)) by lia. cbn [orb].
  rewrite (wrap_small 64 (offset + size - 1)) by (unfold in_width; lia).
  fold (blocks_of offset size). rewrite Hn. change (wrap 64 1) with 1. change (wrap 32 1) with 1.
  rewrite (proj2 (Z.eqb_eq 1 1)) by done.
  destruct (write_only_block_spec k0 s (mkPosInfo 1 (p_tuple fpi))
    (mkExtentInfo (e_timeLastModified fo) 1 (e_tuple fo)) Hn Hk Hok Hp Ho)
    as (id & s' & Eid & -> & Hok' & Hd). fold b in Hd |- *. cbn [obind].
  assert (Epiece : piece b offset size 0 = mkPos (b * BS + offset mod BS) size).
  { clear - Hn request_ok. unfold piece, piece_start, piece_stop, blocks_of, BLOCK_SIZE in *. f_equal; lia. }
  rewrite Epiece. eauto 10.
Qed.
End write.

(** The pieces tile the request, each inside one block. *)
Lemma pieces_tile offset size i :
  0 <= offset -> 0 < size -> 0 <= i < blocks_of offset size ->
  piece_start offset 0 = offset /\
  piece_stop offset size (blocks_of offset size - 1) = offset + size /\
  (i + 1 < blocks_of offset size -> piece_stop offset size i = piece_start offset (i + 1)) /\
  piece_start offset i < piece_stop offset size i /\
  piece_start offset i / BS = offset / BS + i /\
  piece_start offset i mod BS + (piece_stop offset size i - piece_start offset i) <= BS.
Proof. unfold piece_start, piece_stop, blocks_of, BLOCK_SIZE. intros. split_and!; lia. Qed.

(** ** Theorems *)


(** extentMetaWrite records a write in the file's meta: the size grows to the
    end of the write, the count to the last block written, the blocks of the
    request become the given ones, and, beyond that, the extents from the one
    before the old count up to the write are marked empty. *)
Theorem meta_write_extents m sz offset fei :
  file_ok m -> 0 < sz -> 0 <= offset -> offset + sz < 2 ^ 64 ->
  0 < e_len fei <= MAX_MESSAGE_BLOCK_COUNT -> e_len fei <= zlen (e_tuple fei) ->
  offset / BS + e_len fei <= MAX_FILE_EXTENT_COUNT ->
  exists m', meta_write m sz offset fei = Done m' /\ file_ok m' /\
    size m' = Z.max (size m) (offset + sz) /\
    count m' = Z.max (count m) (offset / BS + e_len fei) /\
    timeLastModified m' = Z.max (timeLastModified m) (e_timeLastModified fei) /\
    forall i, zget (tuple m') i = extent_after m fei (offset / BS) i.
Proof. apply meta_write_spec. Qed.

(** Appending to a file loses its last block: a write that starts at the first
    block behind a file with at least one block marks the file's last extent as
    empty, so that readers, which skip empty extents, no longer find it. *)
Theorem append_drops_last_extent m sz offset fei e :
  file_ok m -> 0 < sz -> 0 <= offset -> offset + sz < 2 ^ 64 ->
  0 < e_len fei <= MAX_MESSAGE_BLOCK_COUNT -> e_len fei <= zlen (e_tuple fei) ->
  offset / BS + e_len fei <= MAX_FILE_EXTENT_COUNT ->
  0 < count m -> offset / BS = count m -> zget (tuple m) (count m - 1) = Some e ->
  exists m', meta_write m sz offset fei = Done m' /\
    zget (tuple m') (count m - 1) = Some (mkExtent (hashNode e) (indexExtentStartBlock e) 0).
Proof.
  intros Hm Hsz Ho Hsum Hl Hlt Hfit Hc Hoff He.
  destruct (meta_write_spec m sz offset fei Hm Hsz Ho Hsum Hl Hlt Hfit) as (m' & E & _ & _ & _ & _ & Hi).
  exists m'. split; [done|]. rewrite Hi, Hoff. unfold extent_after.
  rewrite decide_False, decide_True by lia. by rewrite He.
Qed.

(** *** Concrete runs *)

Definition sample_meta : FileMeta :=
  mkFileMeta 0 1 4096 (mkExtent 0 7 1 :: replicate 63 (mkExtent 0 0 0)).
Definition sample_fei : file_extent_info := mkExtentInfo 5 1 (replicate 12 3).

Lemma sample_meta_ok : file_ok sample_meta.
Proof.
  split; [reflexivity|]. unfold MAX_FILE_EXTENT_COUNT, in_width. cbn. lia.
Qed.

Lemma append_drops_last_extent_witness :
  exists m', meta_write sample_meta 4096 4096 sample_fei = Done m' /\
    zget (tuple m') 0 = Some (mkExtent 0 7 0).
Proof.
  destruct (append_drops_last_extent sample_meta 4096 4096 sample_fei (mkExtent 0 7 1))
    as (m' & E & Ht).
  - exact sample_meta_ok.
  - lia.
  - lia.
  - lia.
  - unfold MAX_MESSAGE_BLOCK_COUNT; cbn; lia.
  - vm_compute. discriminate.
  - vm_compute. discriminate.
  - cbn. lia.
  - reflexivity.
  - reflexivity.
  - exists m'. split; [exact E|exact Ht].
Defined.

Lemma meta_write_extents_witness :
  exists m', meta_write sample_meta 100 8192 sample_fei = Done m' /\ count m' = 3 /\ size m' = 8292.
Proof.
  destruct (meta_write_extents sample_meta 100 8192 sample_fei) as (m' & E & _ & Hs & Hc & _).
  - exact sample_meta_ok.
  - lia.
  - lia.
  - lia.
  - unfold MAX_MESSAGE_BLOCK_COUNT; cbn; lia.
  - vm_compute. discriminate.
  - vm_compute. discriminate.
  - exists m'. split; [exact E|]. split; [rewrite Hc; reflexivity|rewrite Hs; reflexivity].
Defined.

(** A node of which only the blocks are used. *)
Definition blocks_node (b : Table.t Bitmap.t unit) (d : list Z) : t Bitmap.t :=
  let none := fun T => Table.mk (T := T) (Bitmap.mk [] 0 0) [] 0 ∅ 1 false in
  mk HashTable.sample (none FileMeta) (none DirectoryMeta) b 1 1 0 (Tx.construct 0 0) d.

Lemma sample_blocks_ok :
  exists s, blocks_ok 8 0 s /\ data s = replicate 32768 0.
Proof.
  destruct (Table.construct_zero BLOCK_SIZE (fun _ => tt) sample_blocks 8) as (b & _ & _ & Hr).
  - lia.
  - done.
  - done.
  - vm_compute. discriminate.
  - by apply Forall_replicate.
  - exists (blocks_node b (replicate 32768 0)). split; [|reflexivity].
    split; [exact Hr|reflexivity].
Qed.

End FsData.
