(* ===== verification/KvMessageModel.v ===== *)
(** * apps/kv/kv.cc: messages, keys, log ids and configuration

    [Module KvMessage] holds what client, data node and index node share: the
    operation codes, the packed message RawKvMsg with its sizes and payload
    accessors, the key digests the switch works on, the encoding of log ids and
    the tables config() fills.  The command-line flags are the record [flags]. *)

From S2P Require Import Prelude.

Module KvMessage.

(** enum RpcType *)
Definition kEnumReadReq : Z := 0.
Definition kEnumWriteReq : Z := 1.
Definition kEnumReadReply : Z := 2.
Definition kEnumWriteReply : Z := 3.
Definition kEnumAppendReq : Z := 4.
Definition kEnumAppendReply : Z := 5.
Definition kEnumReadLog : Z := 6.
Definition ReplySwitch : Z := 10.
Definition kEnumUpdateIndexReq : Z := 11.
Definition kEnumUpdateIndexReply : Z := 12.
Definition kEnumReadIndexReq : Z := 13.
Definition kEnumReadIndexReply : Z := 14.
Definition kEnumMultiCastPkt : Z := 21.
Definition kEnumReadSend : Z := 22.
Definition kEnumWriteAndRead : Z := 23.
Definition kEnumWriteReplyWithData : Z := 24.

(** enum TestType *)
Inductive TestType :=
  kEnumRI | kEnumWI | kEnumRV | kEnumWV | kEnumR | kEnumW | kEnumSW | kEnumSRP | kEnumSRS.

#[export] Instance TestType_eq_dec : EqDecision TestType.
Proof. solve_decision. Defined.

Definition test_type_of (cnt : Z) : option TestType :=
  zget [kEnumRI; kEnumWI; kEnumRV; kEnumWV; kEnumR; kEnumW; kEnumSW; kEnumSRP; kEnumSRS] cnt.

(** The command-line flags the code reads. *)
Record flags := mkFlags {
  FLAGS_keyspace : Z;      (* uint64 *)
  FLAGS_logspace : Z;      (* uint64 *)
  FLAGS_kv_size_b : Z;     (* int32 *)
  FLAGS_visibility : bool;
  FLAGS_batch : bool;
  FLAGS_batch_size : Z;    (* uint32 *)
  FLAGS_read : Z;          (* uint32 *)
  FLAGS_c_thread : Z;
  FLAGS_dn_thread : Z;
  FLAGS_mn_thread : Z;
  FLAGS_coro_num : Z
}.

(** include/test.h: the flag value that makes the switch look at a message *)
Definition visibility : Z := 2.

(** ** Keys *)

Definition get_fingerprint (key : Z) : Z :=
  Z.land (Z.shiftr key 16) (Z.ones 32) mod (2 ^ 32 - 1 - 1) + 1.
Definition get_switch_key (key : Z) : Z := Z.land key (Z.ones 16).

(** generate_key; [r1] and [r2] are the two results of rand(). *)
Definition generate_key (r1 r2 : Z) : Z := wrap 64 (wrap 64 (Z.shiftl r1 32) + r2).

(** operation.h: toBigEndian16 swaps the two bytes. *)
Definition toBigEndian16 (v : Z) : Z := (v / 256) mod 256 + 256 * (v mod 256).

(** ** struct RpcHeader (rpc/rpc.h) and struct RawKvMsg *)

Record RpcHeader := mkHeader {
  dst_s_id : Z; src_s_id : Z; src_t_id : Z; src_c_id : Z;
  local_id : Z; op : Z; payload_size : Z
}.

Record RawKvMsg := mkMsg {
  rpc_header : RpcHeader;
  flag : Z;
  switch_key : Z;
  kv_g_id : Z;
  kv_c_id : Z;
  magic : Z;
  server_map : Z;
  qp_map : Z;
  coro_id : Z;
  key : Z;
  log_id : Z;
  route_port : Z;
  route_map : Z;
  client_port : Z;
  send_cnt : Z;
  index_port : Z;
  magic_in_switch : Z;
  timestamp : Z;
  payload : list Z         (* the bytes of the buffer after the struct *)
}.

(** sizeof of the packed structs: the widths of the fields in order. *)
Definition header_widths : list Z := [1; 1; 1; 1; 1; 1; 4].
Definition msg_widths : list Z :=
  [1; 2; 2; 1; 1; 2; 2; 8; 4; 8; 2; 2; 2; 2; 2; 2; 4].
Definition sum_widths (ws : list Z) : Z := foldr Z.add 0 ws.
Definition sizeof_RpcHeader : Z := sum_widths header_widths.
Definition sizeof_RawKvMsg : Z := sizeof_RpcHeader + sum_widths msg_widths.
Definition sizeof_KvKeyType : Z := 8.

Definition get_size (f : flags) (op : Z) : Z :=
  if op =? kEnumReadLog then sizeof_RawKvMsg
  else if op =? kEnumReadReply then
    wrap 32 (sizeof_RawKvMsg + sizeof_KvKeyType + FLAGS_kv_size_b f)
  else if op =? kEnumAppendReq then
    wrap 32 (sizeof_RawKvMsg + sizeof_KvKeyType + FLAGS_kv_size_b f)
  else if op =? kEnumAppendReply then sizeof_RawKvMsg + sizeof_KvKeyType
  else if op =? kEnumReadIndexReq then sizeof_RawKvMsg + sizeof_KvKeyType
  else if op =? kEnumReadIndexReply then sizeof_RawKvMsg
  else if op =? kEnumMultiCastPkt then sizeof_RawKvMsg + sizeof_KvKeyType
  else if op =? ReplySwitch then sizeof_RawKvMsg
  else if op =? kEnumUpdateIndexReq then sizeof_RawKvMsg + sizeof_KvKeyType
  else if op =? kEnumUpdateIndexReply then sizeof_RawKvMsg
  else if op =? -1 then wrap 32 (sizeof_RawKvMsg + sizeof_KvKeyType + FLAGS_kv_size_b f)
  else sizeof_RawKvMsg.

(** generate_coro_id: four bits per direction and thread. *)
Definition generate_coro_id (c_id_ op thread_id : Z) : Z :=
  wrap 64 (Z.shiftl (c_id_ + 1) (thread_id * 8 + (if op =? kEnumReadReq then 0 else 4))).

(** Assignments to single fields. *)
Definition with_key (m : RawKvMsg) (k : Z) : RawKvMsg :=
  mkMsg (rpc_header m) (flag m) (switch_key m) (kv_g_id m) (kv_c_id m) (magic m)
    (server_map m) (qp_map m) (coro_id m) k (log_id m) (route_port m) (route_map m)
    (client_port m) (send_cnt m) (index_port m) (magic_in_switch m) (timestamp m)
    (payload m).
Definition with_log_id (m : RawKvMsg) (l : Z) : RawKvMsg :=
  mkMsg (rpc_header m) (flag m) (switch_key m) (kv_g_id m) (kv_c_id m) (magic m)
    (server_map m) (qp_map m) (coro_id m) (key m) l (route_port m) (route_map m)
    (client_port m) (send_cnt m) (index_port m) (magic_in_switch m) (timestamp m)
    (payload m).
Definition with_timestamp (m : RawKvMsg) (t : Z) : RawKvMsg :=
  mkMsg (rpc_header m) (flag m) (switch_key m) (kv_g_id m) (kv_c_id m) (magic m)
    (server_map m) (qp_map m) (coro_id m) (key m) (log_id m) (route_port m)
    (route_map m) (client_port m) (send_cnt m) (index_port m) (magic_in_switch m) t
    (payload m).
Definition with_rpc_header (m : RawKvMsg) (h : RpcHeader) : RawKvMsg :=
  mkMsg h (flag m) (switch_key m) (kv_g_id m) (kv_c_id m) (magic m) (server_map m)
    (qp_map m) (coro_id m) (key m) (log_id m) (route_port m) (route_map m)
    (client_port m) (send_cnt m) (index_port m) (magic_in_switch m) (timestamp m)
    (payload m).
Definition with_route_port (m : RawKvMsg) (p : Z) : RawKvMsg :=
  mkMsg (rpc_header m) (flag m) (switch_key m) (kv_g_id m) (kv_c_id m) (magic m)
    (server_map m) (qp_map m) (coro_id m) (key m) (log_id m) p (route_map m)
    (client_port m) (send_cnt m) (index_port m) (magic_in_switch m) (timestamp m)
    (payload m).
Definition with_route_map (m : RawKvMsg) (r : Z) : RawKvMsg :=
  mkMsg (rpc_header m) (flag m) (switch_key m) (kv_g_id m) (kv_c_id m) (magic m)
    (server_map m) (qp_map m) (coro_id m) (key m) (log_id m) (route_port m) r
    (client_port m) (send_cnt m) (index_port m) (magic_in_switch m) (timestamp m)
    (payload m).
Definition with_send_cnt (m : RawKvMsg) (c : Z) : RawKvMsg :=
  mkMsg (rpc_header m) (flag m) (switch_key m) (kv_g_id m) (kv_c_id m) (magic m)
    (server_map m) (qp_map m) (coro_id m) (key m) (log_id m) (route_port m)
    (route_map m) (client_port m) c (index_port m) (magic_in_switch m) (timestamp m)
    (payload m).
Definition header_with_op (h : RpcHeader) (o : Z) : RpcHeader :=
  mkHeader (dst_s_id h) (src_s_id h) (src_t_id h) (src_c_id h) (local_id h) o (payload_size h).
Definition with_op (m : RawKvMsg) (o : Z) : RawKvMsg :=
  with_rpc_header m (header_with_op (rpc_header m) o).
Definition msg_op (m : RawKvMsg) : Z := op (rpc_header m).

(** ** Payload: get_key_addr and get_log_addr point to the first byte after
    the struct, get_value_addr eight bytes further. *)

Definition key_bytes (k : Z) : list Z := Z_to_little_endian 8 8 k.
Definition get_key (m : RawKvMsg) : Z := little_endian_to_Z 8 (take 8 (payload m)).
Definition get_value (f : flags) (m : RawKvMsg) : list Z :=
  take (Z.to_nat (FLAGS_kv_size_b f)) (drop 8 (payload m)).
Definition get_log (f : flags) (m : RawKvMsg) : list Z :=
  take (Z.to_nat (FLAGS_kv_size_b f + sizeof_KvKeyType)) (payload m).

Definition with_payload (m : RawKvMsg) (p : list Z) : RawKvMsg :=
  mkMsg (rpc_header m) (flag m) (switch_key m) (kv_g_id m) (kv_c_id m) (magic m)
    (server_map m) (qp_map m) (coro_id m) (key m) (log_id m) (route_port m)
    (route_map m) (client_port m) (send_cnt m) (index_port m) (magic_in_switch m)
    (timestamp m) p.
Definition put_key (m : RawKvMsg) (k : Z) : RawKvMsg :=
  with_payload m (blit (payload m) 0 (key_bytes k)).
Definition put_value (m : RawKvMsg) (v : list Z) : RawKvMsg :=
  with_payload m (blit (payload m) 8 v).

(** ** Log ids: the thread in the high part, the position in its log in the
    low part. *)

Definition logid_2_threadid (f : flags) (log_id : Z) : Z :=
  wrap 32 (wrap 32 log_id / FLAGS_keyspace f).
Definition logid_2_locallogid (f : flags) (log_id : Z) : Z :=
  wrap 32 (wrap 32 log_id mod FLAGS_keyspace f).
Definition compute_log_id (f : flags) (local_id thread_id : Z) : Z :=
  wrap 32 (wrap 64 (thread_id * FLAGS_keyspace f + wrap 32 local_id)).

(** ** Thread selection *)

Definition get_data_server_id : Z := 0.
Definition get_index_server_id : Z := 1.
Definition get_data_thread_id_by_key (f : flags) (key : Z) : Z :=
  wrap 8 (wrap 32 key mod FLAGS_dn_thread f).
Definition by_load (threads coro_num thread_id coro_id : Z) : Z :=
  wrap 8 (wrap 32 (thread_id * coro_num + coro_id) mod threads).
Definition get_data_thread_id_by_load (f : flags) (thread_id coro_id : Z) : Z :=
  by_load (FLAGS_dn_thread f) (FLAGS_coro_num f) thread_id coro_id.
Definition get_index_thread_id_by_load (f : flags) (thread_id coro_id : Z) : Z :=
  by_load (FLAGS_mn_thread f) (FLAGS_coro_num f) thread_id coro_id.
Definition get_index_thread_id (f : flags) (key : Z) : Z :=
  wrap 8 (wrap 32 key mod FLAGS_mn_thread f).

(** ** config(): the servers and the mix of operations *)

Record ServerConfig := mkServer {
  server_type : Z; thread_num : Z; numa_id : Z; numa_size : Z;
  dev_id : Z; nic_name : list Z; port_id : Z }.

Definition ens2 : list Z := [101; 110; 115; 50].
Definition ens6 : list Z := [101; 110; 115; 54].
Definition ens6np0 : list Z := [101; 110; 115; 54; 110; 112; 48].

Definition server_config (f : flags) : list ServerConfig :=
  [ mkServer 0 (FLAGS_dn_thread f) 0 12 0 ens2 128;
    mkServer 1 (FLAGS_mn_thread f) 1 12 0 ens6 188;
    mkServer 2 1 1 21 1 ens6 136;
    mkServer 2 (FLAGS_c_thread f) 0 12 0 ens2 180;
    mkServer 2 (FLAGS_c_thread f) 1 12 1 ens6np0 172 ].

Definition kTestTypeNum : Z := 6.
(** test_percent (int) after the two assignments; FLAGS_read is unsigned. *)
Definition test_percent (f : flags) : list Z :=
  [0; 0; 0; 0; signed 32 (FLAGS_read f); signed 32 (100 - FLAGS_read f)].

Fixpoint prefix_sums (acc : Z) (l : list Z) : list Z :=
  match l with
  | [] => []
  | x :: l' => signed 32 (acc + x) :: prefix_sums (signed 32 (acc + x)) l'
  end.
Definition pre_sum (f : flags) : list Z := prefix_sums 0 (test_percent f).

(** while (i >= pre_sum[cnt]) cnt++; reading past the array is a fault. *)
Fixpoint advance (fuel : nat) (sums : list Z) (i cnt : Z) : outcome Z :=
  let! s := load sums cnt in
  if i >=? s then
    match fuel with
    | O => Fault Diverges
    | S fuel' => advance fuel' sums i (cnt + 1)
    end
  else Done cnt.

Fixpoint fill_test_type (sums : list Z) (indices : list Z) (cnt : Z) : outcome (list TestType) :=
  match indices with
  | [] => Done []
  | i :: indices' =>
      let! c := advance 6 sums i cnt in
      let! t := of_option OutOfBounds (test_type_of c) in
      let! rest := fill_test_type sums indices' c in
      Done (t :: rest)
  end.
Definition test_type (f : flags) : outcome (list TestType) :=
  fill_test_type (pre_sum f) (seqZ 0 100) 0.

#[global] Arguments get_size : simpl never.
#[global] Arguments compute_log_id : simpl never.
#[global] Arguments logid_2_threadid : simpl never.
#[global] Arguments logid_2_locallogid : simpl never.
#[global] Arguments get_fingerprint : simpl never.
#[global] Arguments get_switch_key : simpl never.
#[global] Arguments toBigEndian16 : simpl never.

(** ** Keys: what the switch sees of a key *)

(** The fingerprint of any key is neither 0, the switch's mark of an empty
    slot, nor 0xFFFFFFFF, the mark of a key that is not in the index. *)
Lemma fingerprint_range k : 1 <= get_fingerprint k < 2 ^ 32 - 1.
Proof. unfold get_fingerprint. lia. Qed.

Lemma switch_key_range k : 0 <= get_switch_key k < 2 ^ 16.
Proof. unfold get_switch_key. rewrite Z.land_ones by lia. lia. Qed.

(** The middle 32 bits of a key. *)
Definition middle (k : Z) : Z := k / 2 ^ 16 mod 2 ^ 32.

Lemma fingerprint_middle k : get_fingerprint k = middle k mod (2 ^ 32 - 2) + 1.
Proof.
  unfold get_fingerprint, middle. rewrite Z.land_ones, Z.shiftr_div_pow2 by lia. done.
Qed.

(** *** Bytes *)

Lemma toBigEndian16_invol v : 0 <= v < 2 ^ 16 -> toBigEndian16 (toBigEndian16 v) = v.
Proof. unfold toBigEndian16. lia. Qed.

Lemma length_key_bytes k : length (key_bytes k) = 8%nat.
Proof.
  unfold key_bytes. pose proof (length_Z_to_little_endian 8 8 k). lia.
Qed.

Lemma get_put_key m k : in_width 64 k -> get_key (put_key m k) = k.
Proof.
  intros Hk. unfold get_key, put_key, blit; cbn [payload with_payload].
  rewrite take_0, app_nil_l.
  rewrite (take_app_length' (key_bytes k)) by (by rewrite length_key_bytes).
  unfold key_bytes. rewrite little_endian_to_Z_to_little_endian by lia.
  apply Z.mod_small. exact Hk.
Qed.

(** The payload of a request that carries a key and a value. *)
Lemma key_value_payload p k v :
  let q := blit (blit p 0 (key_bytes k)) 8 v in
  take 8 q = key_bytes k /\ take (length v) (drop 8 q) = v /\ (8 + length v <= length q)%nat.
Proof.
  intros q. unfold q, blit.
  rewrite take_0, app_nil_l, (take_app_length' (key_bytes k)) by (by rewrite length_key_bytes).
  split_and!.
  - done.
  - rewrite drop_app_length' by (by rewrite length_key_bytes). by rewrite take_app_length.
  - rewrite (take_app_length' (key_bytes k)) by (by rewrite length_key_bytes).
    rewrite !length_app, length_key_bytes. lia.
Qed.

Lemma key_bytes_value k : in_width 64 k -> little_endian_to_Z 8 (key_bytes k) = k.
Proof.
  intros Hk. unfold key_bytes. rewrite little_endian_to_Z_to_little_endian by lia.
  apply Z.mod_small. exact Hk.
Qed.

(** ** Theorems *)

(** The switch identifies a key by its slot (low 16 bits) and its 32-bit
    fingerprint.  The fingerprint is never the empty mark 0 nor the not-found
    mark 0xFFFFFFFF, and two keys are confused exactly when their low 16 bits
    agree and their middle 32 bits agree modulo 2^32 - 2. *)
Theorem key_identity k1 k2 :
  1 <= get_fingerprint k1 < 2 ^ 32 - 1 /\
  ((get_switch_key k1 = get_switch_key k2 /\ get_fingerprint k1 = get_fingerprint k2) <->
   (k1 mod 2 ^ 16 = k2 mod 2 ^ 16 /\
    (k1 / 2 ^ 16 mod 2 ^ 32) mod (2 ^ 32 - 2) = (k2 / 2 ^ 16 mod 2 ^ 32) mod (2 ^ 32 - 2))).
Proof.
  split; [apply fingerprint_range|].
  rewrite !fingerprint_middle. unfold get_switch_key, middle.
  rewrite !Z.land_ones by lia. intuition lia.
Qed.

Lemma wrap_sum w x y : 0 <= w -> wrap w (wrap w x + y) = wrap w (x + y).
Proof. intros. unfold wrap. rewrite Zplus_mod_idemp_l. done. Qed.

(** Decoding a log id. *)
Lemma logid_decode f local thread :
  0 < FLAGS_keyspace f -> 0 <= local < FLAGS_keyspace f -> 0 <= thread ->
  thread * FLAGS_keyspace f + local < 2 ^ 32 ->
  let id := compute_log_id f local thread in
  in_width 32 id /\ logid_2_threadid f id = thread /\ logid_2_locallogid f id = local.
Proof.
  intros Hk Hl Ht Hs id.
  assert (Hp : 0 <= thread * FLAGS_keyspace f) by nia.
  assert (Htk : thread <= thread * FLAGS_keyspace f) by nia.
  assert (Hid : id = thread * FLAGS_keyspace f + local).
  { unfold id, compute_log_id. rewrite (wrap_small 32 local) by (unfold in_width; lia).
    rewrite (wrap_small 64) by (unfold in_width; lia).
    apply wrap_small. unfold in_width. lia. }
  rewrite Hid. unfold logid_2_threadid, logid_2_locallogid.
  rewrite !(wrap_small 32 (thread * _ + local)) by (unfold in_width; lia).
  rewrite Z.div_add_l, Z.div_small, Z.add_0_r by lia.
  rewrite Z.add_comm, Z_mod_plus_full, Z.mod_small by lia.
  split_and!; [unfold in_width; lia|apply wrap_small; unfold in_width; lia..].
Qed.

(** Log ids round-trip: for a position inside the key space, and a thread
    for which thread * keyspace + position fits 32 bits, compute_log_id is
    decoded to that thread and position; it is then injective. *)
Theorem logid_roundtrip f local thread :
  0 < FLAGS_keyspace f -> 0 <= local < FLAGS_keyspace f -> 0 <= thread ->
  thread * FLAGS_keyspace f + local < 2 ^ 32 ->
  let id := compute_log_id f local thread in
  in_width 32 id /\ logid_2_threadid f id = thread /\ logid_2_locallogid f id = local.
Proof. apply logid_decode. Qed.

(** The flags' default values, with 128-byte values. *)
Definition default_flags : flags :=
  mkFlags (100 * 2 ^ 20) (10 * 2 ^ 20) 128 true false 16 50 1 1 1 1.

Lemma logid_roundtrip_witness :
  logid_2_threadid default_flags (compute_log_id default_flags 77 39) = 39.
Proof.
  refine (proj1 (proj2 (logid_roundtrip default_flags 77 39 _ _ _ _))); simpl; lia.
Defined.

(** With the default key space, thread 41 of a data node (up to 48 are
    allowed) produces log ids that decode to thread 0. *)
Lemma logid_overflow :
  logid_2_threadid default_flags (compute_log_id default_flags 77 41) = 0.
Proof. vm_compute. reflexivity. Qed.

(** No reply or request is longer than the message buffers: for every
    operation code get_size is at most get_size(-1), the size config() gives
    to the buffers, and never below the struct. *)
Theorem get_size_bounds f op :
  0 <= FLAGS_kv_size_b f < 2 ^ 31 ->
  sizeof_RawKvMsg <= get_size f op <= get_size f (-1) /\
  get_size f (-1) = sizeof_RawKvMsg + sizeof_KvKeyType + FLAGS_kv_size_b f.
Proof.
  intros Hf.
  assert (E : get_size f (-1) = sizeof_RawKvMsg + sizeof_KvKeyType + FLAGS_kv_size_b f).
  { apply wrap_small. unfold in_width. assert (sizeof_RawKvMsg = 57) by reflexivity.
    assert (sizeof_KvKeyType = 8) by reflexivity. lia. }
  split; [|exact E]. rewrite E. unfold get_size.
  assert (Hs : sizeof_RawKvMsg = 57) by reflexivity.
  assert (Hk : sizeof_KvKeyType = 8) by reflexivity.
  rewrite !(wrap_small 32) by (unfold in_width; lia).
  repeat match goal with |- context [if ?b then _ else _] => destruct b end.
  all: lia.
Qed.

Lemma get_size_bounds_witness :
  get_size default_flags kEnumAppendReq <= get_size default_flags (-1).
Proof.
  destruct (get_size_bounds default_flags kEnumAppendReq) as [[_ H] _];
    [simpl; lia|exact H].
Defined.

(** *** The operation mix *)

Lemma mix_table :
  forallb (fun r => bool_decide (
    fill_test_type (prefix_sums 0 [0; 0; 0; 0; signed 32 r; signed 32 (100 - r)])
      (seqZ 0 100) 0 =
    Done (replicate (Z.to_nat r) kEnumR ++ replicate (Z.to_nat (100 - r)) kEnumW)))
    (seqZ 0 101) = true.
Proof. vm_compute. reflexivity. Qed.

(** config() fills the operation table with FLAGS_read reads followed by
    100 - FLAGS_read writes, and its search loop never leaves pre_sum. *)
Theorem test_type_mix f :
  0 <= FLAGS_read f <= 100 ->
  test_type f = Done (replicate (Z.to_nat (FLAGS_read f)) kEnumR ++
                      replicate (Z.to_nat (100 - FLAGS_read f)) kEnumW).
Proof.
  intros Hr. pose proof (proj1 (forallb_forall _ _) mix_table (FLAGS_read f)) as H.
  apply bool_decide_eq_true in H; [exact H|].
  apply list_elem_of_In, elem_of_seqZ. lia.
Qed.

Lemma test_type_mix_witness :
  test_type default_flags = Done (replicate 50 kEnumR ++ replicate 50 kEnumW).
Proof. exact (test_type_mix default_flags ltac:(simpl; lia)). Defined.
End KvMessage.
