(* ===== verification/KvServerModel.v ===== *)
(** * apps/kv/kv.cc: the data node and the index node

    [Module KvServer] models the value log (SampleLog), the timestamp generator
    (include/timestamp.h), the request handler server_process_msg that both
    node kinds run, and the batching index server server_batch_CPC.  The index
    itself (Masstree, a third-party library) is the interface [IndexOps] with
    the map laws [IndexLaws]; ThreadLocalIndex_masstree of index_wrapper.h is
    the thin layer [get_long]/[put_long] over it. *)

From stdpp Require Import sorting.
From S2P Require Import Prelude KvMessageModel.
Import KvMessage.

(** What the index node relies on: Masstree's search and insert. *)
Class IndexOps (I : Type) := {
  mt_search : I -> Z -> option Z;
  mt_insert : I -> Z -> Z -> I
}.

Class IndexLaws (I : Type) `{IndexOps I} := {
  search_insert i k v k' :
    mt_search (mt_insert i k v) k' = if decide (k' = k) then Some v else mt_search i k'
}.

(** A finite map satisfies the laws. *)
#[export] Instance gmap_index_ops : IndexOps (gmap Z Z) := {
  mt_search m k := m !! k;
  mt_insert m k v := <[k := v]> m
}.

#[export] Instance gmap_index_laws : IndexLaws (gmap Z Z).
Proof.
  split. intros m k v k'. simpl. case_decide as E.
  - subst. apply lookup_insert_eq.
  - by apply lookup_insert_ne.
Qed.

Module KvServer.

(** ** struct SampleLog: a ring of fixed-size entries in one byte buffer *)

Record SampleLog := mkLog { buffer : list Z; pos : Z }.

Definition log_size (f : flags) : Z := FLAGS_kv_size_b f + sizeof_KvKeyType.
Definition stride (f : flags) : Z := ALIGNMENT_XB (log_size f) 64.

Definition init (f : flags) : SampleLog :=
  mkLog (replicate (Z.to_nat (stride f * FLAGS_logspace f)) 0) 0.

(** memcpy out of and into the buffer; past its end is a fault. *)
Definition get (f : flags) (s : SampleLog) (key : Z) : outcome (list Z) :=
  let addr_s := key * stride f in
  if (0 <=? addr_s) && (addr_s + log_size f <=? zlen (buffer s)) then
    Done (take (Z.to_nat (log_size f)) (drop (Z.to_nat addr_s) (buffer s)))
  else Fault OutOfBounds.

Definition put (f : flags) (s : SampleLog) (key : Z) (addr : list Z) : outcome SampleLog :=
  let addr_s := key * stride f in
  if (0 <=? addr_s) && (addr_s + log_size f <=? zlen (buffer s)) then
    Done (mkLog (blit (buffer s) (Z.to_nat addr_s) addr) (pos s))
  else Fault OutOfBounds.

Definition append (f : flags) (s : SampleLog) (addr : list Z) : outcome (Z * SampleLog) :=
  let cur_pos := pos s in
  let! s' := put f (mkLog (buffer s) (ADD_ROUND (pos s) (FLAGS_logspace f))) cur_pos addr in
  Done (cur_pos, s').

(** ** struct Timestamp32 *)

Definition kMaxShardDN : Z := Z.shiftl 1 20.

Definition bswap32 (x : Z) : Z := little_endian_to_Z 8 (reverse (Z_to_little_endian 4 8 x)).

(** tss[i][0]; init() sets every counter to 1, so a missing entry is 1. *)
Definition tss_get (tss : gmap Z Z) (i : Z) : Z := default 1 (tss !! i).

Definition get_shard_id (key : Z) : Z := wrap 32 (key mod kMaxShardDN).

Definition get_next_ts (tss : gmap Z Z) (key : Z) : Z * gmap Z Z :=
  let i := key mod kMaxShardDN in
  let v := wrap 64 (tss_get tss i + 1) in
  (bswap32 (Z.land v 2147483647), <[i := v]> tss).

(** do { tmpt = get_next_ts(key); } while (tmpt == 0); *)
Fixpoint next_nonzero (fuel : nat) (tss : gmap Z Z) (key : Z) : outcome (Z * gmap Z Z) :=
  let (tmpt, tss') := get_next_ts tss key in
  if tmpt =? 0 then
    match fuel with
    | O => Fault Diverges
    | S fuel' => next_nonzero fuel' tss' key
    end
  else Done (tmpt, tss').

(** ** index_wrapper.h: ThreadLocalIndex_masstree *)
Section index.
Context {I : Type} `{IndexOps I}.

(** The cell [addr] keeps its value when the key is not found. *)
Definition get_long (index : I) (key : Z) (addr : Z) : bool * Z :=
  match mt_search index key with
  | Some val => (true, val)
  | None => (false, addr)
  end.
Definition put_long (index : I) (key addr : Z) : bool * I :=
  (true, mt_insert index key addr).

(** ** KvRpc::server_process_msg *)

Record node := mkNode { kv : SampleLog; tss : gmap Z Z; index : I }.

(** The assignments before the switch and after it. *)
Definition reply_prologue (req reply : RawKvMsg) : RawKvMsg :=
  mkMsg (rpc_header reply) (flag reply) (switch_key reply) (kv_g_id reply)
    (kv_c_id reply) (magic reply) (server_map reply) (qp_map reply) (coro_id reply)
    (key req) (log_id reply) (route_port reply) (route_map reply) (client_port reply)
    (send_cnt req) (index_port req) (magic_in_switch reply) (timestamp req) (payload reply).

Definition reply_epilogue (req reply : RawKvMsg) (port : Z) : RawKvMsg :=
  mkMsg (rpc_header reply) (flag req) (switch_key req) (kv_g_id req)
    (kv_c_id req) (magic req) 0 0 (coro_id req)
    (key reply) (log_id reply) (toBigEndian16 port) (route_map reply) (client_port req)
    (send_cnt reply) (index_port reply) (magic_in_switch req) (timestamp reply)
    (payload reply).

Definition process_op (f : flags) (thread_id : Z) (n : node) (req reply : RawKvMsg)
    : outcome (RawKvMsg * node) :=
  let o := msg_op req in
  if o =? kEnumReadLog then
    let! bs := get f (kv n) (logid_2_locallogid f (log_id req)) in
    Done (with_op (with_payload reply (blit (payload reply) 0 bs)) kEnumReadReply, n)
  else if o =? kEnumAppendReq then
    let! (local, kv') := append f (kv n) (get_log f req) in
    let! (tmpt, tss') := next_nonzero 2 (tss n) (switch_key req) in
    let r1 := with_log_id reply (compute_log_id f local thread_id) in
    let r2 := with_payload r1 (blit (payload r1) 0 (take 8 (payload req))) in
    let r3 := with_route_map (with_op r2 kEnumAppendReply) (route_map req) in
    Done (with_timestamp r3 tmpt, mkNode kv' tss' (index n))
  else if o =? kEnumReadIndexReq then
    let (found, return_value) := get_long (index n) (get_key req) 0 in
    let r1 := if (found : bool) then reply else with_key reply 4294967295 in
    Done (with_op (with_log_id r1 (wrap 32 return_value)) kEnumReadIndexReply, n)
  else if o =? kEnumMultiCastPkt then
    let (_, index') := put_long (index n) (get_key req) (log_id req) in
    Done (with_op reply ReplySwitch, mkNode (kv n) (tss n) index')
  else if o =? kEnumUpdateIndexReq then
    let (_, index') := put_long (index n) (get_key req) (log_id req) in
    Done (with_op reply kEnumUpdateIndexReply, mkNode (kv n) (tss n) index')
  else Fault ProcessExit.

(** Returns the reply, the node and the size of the reply. *)
Definition server_process_msg (f : flags) (thread_id : Z) (n : node)
    (req reply : RawKvMsg) : outcome (RawKvMsg * node * Z) :=
  let! (r, n') := process_op f thread_id n req (reply_prologue req reply) in
  let! conf := of_option OutOfBounds
    (zget (server_config f) (src_s_id (rpc_header req))) in
  Done (reply_epilogue req r (port_id conf), n', get_size f (op (rpc_header r))).

(** rpc/rpc.h, run_server_CPC: the header of the reply before the handler
    runs, for a raw-packet queue pair. *)
Definition reply_header (req_header : RpcHeader) : RpcHeader :=
  mkHeader (src_s_id req_header) (src_s_id req_header) (src_t_id req_header)
    (src_c_id req_header) (local_id req_header) (op req_header) (payload_size req_header).

Definition serve (f : flags) (thread_id : Z) (n : node) (req stale : RawKvMsg)
    : outcome (RawKvMsg * node * Z) :=
  server_process_msg f thread_id n req
    (with_rpc_header stale (reply_header (rpc_header req))).

(** ** server_batch_CPC: requests are collected and applied in batches *)

Record batchEntry := mkEntry { reply_addr : RawKvMsg; ekey : Z; etimestamp : Z }.

(** operator<: key ascending, timestamp descending. *)
Definition entry_lt (x y : batchEntry) : bool :=
  if ekey x =? ekey y then etimestamp y <? etimestamp x else ekey x <? ekey y.

(** memcpy(reply, req, get_size(op)): the struct and the first bytes of the
    payload. *)
Definition copy_msg (f : flags) (req stale : RawKvMsg) : RawKvMsg :=
  let n := Z.to_nat (get_size f (msg_op req) - sizeof_RawKvMsg) in
  with_payload req (take n (payload req) ++ drop n (payload stale)).

(** The body of the receive loop: the entry and whether the request is on
    the critical path of a client. *)
Definition collect (f : flags) (req stale : RawKvMsg) : outcome (batchEntry * bool) :=
  let copied := copy_msg f req stale in
  let o := msg_op req in
  let! (reply_op, onpath) :=
    (if o =? kEnumReadIndexReq then Done (kEnumReadIndexReply, true)
     else if o =? kEnumMultiCastPkt then Done (ReplySwitch, false)
     else if o =? kEnumUpdateIndexReq then Done (kEnumUpdateIndexReply, true)
     else Fault ProcessExit) in
  let h := rpc_header copied in
  let h' := mkHeader (src_s_id (rpc_header req)) (src_s_id h) (src_t_id h) (src_c_id h)
              (local_id h) reply_op (payload_size h) in
  let! conf := of_option OutOfBounds (zget (server_config f) (src_s_id (rpc_header req))) in
  let m := mkMsg h' (flag copied) (switch_key copied) (kv_g_id copied) (kv_c_id copied)
             (magic copied) 0 0 (coro_id copied) (key copied) (log_id copied)
             (toBigEndian16 (port_id conf)) (route_map copied) (client_port copied)
             (send_cnt copied) (index_port req) (magic_in_switch copied) (timestamp copied)
             (payload copied) in
  Done (mkEntry m (get_key req) (bswap32 (timestamp req)), onpath).

Definition kMaxWcCnt : Z := 16.
Definition max_size (f : flags) : Z := wrap 32 (FLAGS_batch_size f + kMaxWcCnt).

(** One poll: at most kMaxWcCnt requests are appended to the batch array. *)
Fixpoint collect_all (f : flags) (reqs : list (RawKvMsg * RawKvMsg))
    (batch : list batchEntry) (onpath : bool) : outcome (list batchEntry * bool) :=
  match reqs with
  | [] => Done (batch, onpath)
  | (req, stale) :: reqs' =>
      let! (e, p) := collect f req stale in
      if zlen batch <? max_size f then
        collect_all f reqs' (batch ++ [e]) (onpath || p)
      else Fault OutOfBounds
  end.

(** The loop goes on polling while the batch is short, nothing in this poll
    is on the critical path, and FLAGS_batch is set. *)
Definition keep_polling (f : flags) (batch : list batchEntry) (onpath : bool) : bool :=
  (zlen batch <? FLAGS_batch_size f) && negb onpath && FLAGS_batch f.

(** The index loop of the OBATCH build on the sorted batch. *)
Fixpoint apply_batch (index : I) (batch : list batchEntry) (last_key : Z)
    : outcome (list RawKvMsg * I) :=
  match batch with
  | [] => Done ([], index)
  | e :: batch' =>
      let reply := with_send_cnt (reply_addr e) 0 in
      let o := msg_op reply in
      let k := get_key reply in
      let! (reply', index') :=
        (if o =? kEnumReadIndexReply then
           let (found, return_value) := get_long index k 0 in
           let r1 := if (found : bool) then reply else with_key reply 4294967295 in
           Done (with_log_id r1 (wrap 32 return_value), index)
         else if o =? ReplySwitch then
           Done (reply, if k =? last_key then index
                        else (put_long index k (log_id reply)).2)
         else if o =? kEnumUpdateIndexReply then
           Done (reply, if k =? last_key then index
                        else (put_long index k (log_id reply)).2)
         else Fault ProcessExit) in
      let! (rest, index'') := apply_batch index' batch' k in
      Done (reply' :: rest, index'')
  end.

(** std::sort(batch, batch + batch_cnt): a permutation in operator< order;
    merge sort stands for the library's choice among equal entries. *)
Definition entry_le (x y : batchEntry) : Prop := entry_lt y x = false.
#[export] Instance entry_le_dec : RelDecision entry_le.
Proof. intros x y. unfold entry_le. apply _. Defined.

Definition std_sort (batch : list batchEntry) : list batchEntry := merge_sort entry_le batch.

Definition flush_batch (index : I) (batch : list batchEntry) : outcome (list RawKvMsg * I) :=
  apply_batch index (std_sort batch) 0.

(** One iteration of the server loop: poll, then maybe flush. *)
Definition batch_round (f : flags) (index : I) (batch : list batchEntry)
    (reqs : list (RawKvMsg * RawKvMsg))
    : outcome (list batchEntry * I * list RawKvMsg) :=
  let! (batch', onpath) := collect_all f reqs batch false in
  if keep_polling f batch' onpath then Done (batch', index, [])
  else
    let! (replies, index') := flush_batch index batch' in
    Done ([], index', replies).

(** The COMT build resumes the task of an entry when its key differs from
    that of the last resumed entry, or its op is kEnumReadIndexReq. *)
Fixpoint comt_resumed (batch : list batchEntry) (last_key : Z) : list batchEntry :=
  match batch with
  | [] => []
  | e :: batch' =>
      if negb (last_key =? ekey e) || (msg_op (reply_addr e) =? kEnumReadIndexReq)
      then e :: comt_resumed batch' (ekey e)
      else comt_resumed batch' last_key
  end.
End index.
Arguments node I : clear implicits.

#[global] Arguments get_next_ts : simpl never.
#[global] Arguments append : simpl never.
#[global] Arguments get : simpl never.
#[global] Arguments put : simpl never.

(** ** SampleLog as a ring of entries *)

Record log_ok (f : flags) (s : SampleLog) : Prop := {
  ok_size : 0 <= FLAGS_kv_size_b f;
  ok_space : 0 < FLAGS_logspace f;
  ok_buffer : zlen (buffer s) = stride f * FLAGS_logspace f;
  ok_pos : 0 <= pos s < FLAGS_logspace f
}.

Lemma stride_ge f : 0 <= FLAGS_kv_size_b f -> 0 < log_size f <= stride f.
Proof.
  intros H. unfold stride, log_size, sizeof_KvKeyType.
  pose proof (alignment_ge (FLAGS_kv_size_b f + 8) 64 ltac:(lia)). lia.
Qed.

Lemma init_ok f : 0 <= FLAGS_kv_size_b f -> 0 < FLAGS_logspace f -> log_ok f (init f).
Proof.
  intros Hk Hl. pose proof (stride_ge f Hk). split; try done; simpl.
  unfold zlen. rewrite length_replicate. nia.
Qed.

(** The region of entry [q] lies in the buffer. *)
Lemma region_in f s q :
  log_ok f s -> 0 <= q < FLAGS_logspace f ->
  0 <= q * stride f /\ q * stride f + log_size f <= zlen (buffer s).
Proof.
  intros O Hq. pose proof (stride_ge f (ok_size _ _ O)). rewrite (ok_buffer _ _ O). nia.
Qed.

Lemma regions_disjoint f p q :
  0 <= FLAGS_kv_size_b f -> 0 <= p -> 0 <= q -> p <> q ->
  q * stride f + log_size f <= p * stride f \/ p * stride f + log_size f <= q * stride f.
Proof. intros Hk Hp Hq Hne. pose proof (stride_ge f Hk). nia. Qed.

Lemma get_done f s q :
  log_ok f s -> 0 <= q < FLAGS_logspace f ->
  get f s q = Done (take (Z.to_nat (log_size f)) (drop (Z.to_nat (q * stride f)) (buffer s))).
Proof.
  intros O Hq. destruct (region_in f s q O Hq). unfold get.
  by rewrite leb_and by lia.
Qed.

(** append stores at the current position and advances it; every other entry
    keeps its bytes. *)
Lemma append_spec f s bs :
  log_ok f s -> zlen bs = log_size f ->
  exists s', append f s bs = Done (pos s, s') /\ log_ok f s' /\
    pos s' = (pos s + 1) mod FLAGS_logspace f /\
    forall q, 0 <= q < FLAGS_logspace f ->
      get f s' q = if q =? pos s then Done bs else get f s q.
Proof.
  intros O Hb. pose proof (ok_pos _ _ O) as Hp. pose proof (ok_space _ _ O).
  destruct (region_in f s (pos s) O Hp) as [H0 H1].
  pose proof (stride_ge f (ok_size _ _ O)) as Hs.
  unfold append, put. cbn [buffer pos].
  rewrite leb_and by lia. simpl.
  set (s' := mkLog _ _). exists s'.
  assert (Hfit : (Z.to_nat (pos s * stride f) + length bs <= length (buffer s))%nat)
    by (unfold zlen in *; lia).
  assert (O' : log_ok f s').
  { split; simpl; [apply O|done| |unfold ADD_ROUND; lia].
    unfold zlen. rewrite blit_length by done. apply (ok_buffer _ _ O). }
  split_and!; try done. intros q Hq. rewrite (get_done f s' q) by done. simpl.
  destruct (Z.eqb_spec q (pos s)) as [->|Hne].
  - replace (Z.to_nat (log_size f)) with (length bs) by (unfold zlen in Hb; lia).
    by rewrite blit_slice_eq.
  - rewrite blit_slice_ne, get_done; try done.
    destruct (regions_disjoint f (pos s) q) as [?|?]; try lia; [apply O| |];
      unfold zlen in Hb; nia.
Qed.

Fixpoint append_all (f : flags) (s : SampleLog) (l : list (list Z))
    : outcome (list Z * SampleLog) :=
  match l with
  | [] => Done ([], s)
  | bs :: l' =>
      let! (p, s1) := append f s bs in
      let! (ps, s2) := append_all f s1 l' in
      Done (p :: ps, s2)
  end.

Lemma append_all_spec f s l :
  log_ok f s -> Forall (fun bs => zlen bs = log_size f) l ->
  zlen l <= FLAGS_logspace f ->
  exists ps s', append_all f s l = Done (ps, s') /\ log_ok f s' /\
    (forall i bs, l !! i = Some bs ->
       ps !! i = Some ((pos s + Z.of_nat i) mod FLAGS_logspace f) /\
       get f s' ((pos s + Z.of_nat i) mod FLAGS_logspace f) = Done bs) /\
    (forall q, 0 <= q < FLAGS_logspace f ->
       (forall i, (i < length l)%nat -> q <> (pos s + Z.of_nat i) mod FLAGS_logspace f) ->
       get f s' q = get f s q).
Proof.
  intros O Hl. revert s O. induction Hl as [|bs l Hb _ IH]; intros s O Hn.
  { exists [], s. split_and!; [done|done| |done]. intros i bs. by rewrite lookup_nil. }
  rewrite zlen_cons in Hn. pose proof (zlen_nonneg l). pose proof (ok_pos _ _ O) as Hp.
  pose proof (ok_space _ _ O) as Hsp.
  destruct (append_spec f s bs O Hb) as (s1 & Ha & O1 & Hp1 & Hg1).
  destruct (IH s1 O1 ltac:(lia)) as (ps & s2 & Has & O2 & Hi & Ho).
  exists (pos s :: ps), s2. cbn [append_all]. rewrite Ha. simpl. rewrite Has. simpl.
  assert (Hshift : forall i : nat, (pos s1 + Z.of_nat i) mod FLAGS_logspace f =
                         (pos s + Z.of_nat (S i)) mod FLAGS_logspace f).
  { intros i. rewrite Hp1, Zplus_mod_idemp_l. f_equal. lia. }
  split_and!; [done|done| |].
  - intros [|i] bs' Hbs; simpl in Hbs.
    + injection Hbs as <-. rewrite Z.add_0_r, Z.mod_small by lia. split; [done|].
      rewrite Ho; [rewrite Hg1 by lia; by rewrite Z.eqb_refl|lia|].
      intros i Hil. rewrite Hshift. unfold zlen in *. intros E.
      assert (E' : (pos s + Z.of_nat (S i)) mod FLAGS_logspace f = pos s) by done.
      destruct (Z.lt_ge_cases (pos s + Z.of_nat (S i)) (FLAGS_logspace f)).
      * rewrite Z.mod_small in E' by lia. lia.
      * rewrite <- (Z.mod_unique _ _ 1 (pos s + Z.of_nat (S i) - FLAGS_logspace f)) in E' by lia.
        lia.
    + rewrite <- Hshift. by apply Hi.
  - intros q Hq Hall. rewrite Ho; [|done|].
    + rewrite Hg1 by done. destruct (Z.eqb_spec q (pos s)) as [->|]; [|done].
      exfalso. apply (Hall 0%nat); [simpl; lia|]. rewrite Z.add_0_r, Z.mod_small; lia.
    + intros i Hil. rewrite Hshift. apply Hall. simpl. lia.
Qed.

(** The value log is a ring: appending at most FLAGS_logspace entries
    returns consecutive positions (modulo the space), and every one of them
    reads back the bytes appended there; nothing leaves the buffer. *)
Theorem log_ring f s l :
  log_ok f s -> Forall (fun bs => zlen bs = log_size f) l -> zlen l <= FLAGS_logspace f ->
  exists ps s', append_all f s l = Done (ps, s') /\ log_ok f s' /\
    forall i bs, l !! i = Some bs ->
      exists p, ps !! i = Some p /\ p = (pos s + Z.of_nat i) mod FLAGS_logspace f /\
        get f s' p = Done bs.
Proof.
  intros O Hl Hn. destruct (append_all_spec f s l O Hl Hn) as (ps & s' & Ha & O' & Hi & _).
  exists ps, s'. split_and!; try done. intros i bs Hbs.
  destruct (Hi i bs Hbs) as [Hp Hg]. eauto.
Qed.

Definition tiny_flags : flags := mkFlags 8 4 0 true true 4 50 1 1 1 1.

Lemma log_ring_witness :
  exists ps s', append_all tiny_flags (init tiny_flags) (replicate 4 (replicate 8 7)) = Done (ps, s')
    /\ get tiny_flags s' 3 = Done (replicate 8 7).
Proof.
  destruct (log_ring tiny_flags (init tiny_flags) (replicate 4 (replicate 8 7)))
    as (ps & s' & Ha & _ & Hi).
  - apply init_ok; simpl; lia.
  - repeat constructor.
  - vm_compute. discriminate.
  - exists ps, s'. split; [exact Ha|].
    destruct (Hi 3%nat (replicate 8 7) eq_refl) as (p & _ & -> & Hg). exact Hg.
Defined.

(** ** Timestamps *)

Lemma bswap32_range x : in_width 32 (bswap32 x).
Proof.
  unfold bswap32, in_width.
  assert (Hl : length (reverse (Z_to_little_endian 4 8 x)) = 4%nat).
  { rewrite length_reverse. pose proof (length_Z_to_little_endian 4 8 x). lia. }
  pose proof (little_endian_to_Z_bound 8 (reverse (Z_to_little_endian 4 8 x))) as Hb.
  rewrite Hl in Hb. apply Hb; [lia|]. apply Forall_reverse, Z_to_little_endian_bound; lia.
Qed.

Lemma bswap32_invol x : in_width 32 x -> bswap32 (bswap32 x) = x.
Proof.
  intros Hx. unfold bswap32.
  assert (Hl : length (reverse (Z_to_little_endian 4 8 x)) = 4%nat).
  { rewrite length_reverse. pose proof (length_Z_to_little_endian 4 8 x). lia. }
  rewrite Z_to_little_endian_to_Z;
    [|by rewrite Hl|lia|apply Forall_reverse, Z_to_little_endian_bound; lia].
  rewrite reverse_involutive, little_endian_to_Z_to_little_endian by lia.
  apply Z.mod_small. exact Hx.
Qed.

Lemma bswap32_zero x : in_width 32 x -> bswap32 x = 0 <-> x = 0.
Proof.
  intros Hx. split; [|by intros ->]. intros E.
  rewrite <- (bswap32_invol x Hx), E. done.
Qed.

Lemma land_31 v : Z.land v 2147483647 = v mod 2 ^ 31.
Proof. change 2147483647 with (Z.ones 31). apply Z.land_ones. lia. Qed.

Lemma timestamp_step tss key :
  0 <= key < 2 ^ 16 -> in_width 64 (tss_get tss key) ->
  exists t tss', next_nonzero 2 tss key = Done (t, tss') /\
    0 < bswap32 t < 2 ^ 31 /\
    bswap32 t = tss_get tss' key mod 2 ^ 31 /\
    (tss_get tss key mod 2 ^ 31 < 2 ^ 31 - 1 ->
       bswap32 t = tss_get tss key mod 2 ^ 31 + 1) /\
    (forall key', key' <> key -> tss_get tss' key' = tss_get tss key').
Proof.
  intros Hk Hc. set (c := tss_get tss key) in *.
  assert (Hi : key mod kMaxShardDN = key) by (change kMaxShardDN with 1048576; apply Z.mod_small; lia).
  assert (Hcell : forall v w, tss_get (<[key := v]> (<[key := w]> tss)) key = v /\
    forall key', key' <> key -> tss_get (<[key := v]> (<[key := w]> tss)) key' = tss_get tss key').
  { intros v w. unfold tss_get. rewrite lookup_insert_eq. split; [done|].
    intros key' Hne. by rewrite !lookup_insert_ne by done. }
  assert (Hv : forall v, in_width 32 (v mod 2 ^ 31)) by (unfold in_width; lia).
  cbn [next_nonzero]. unfold get_next_ts. rewrite !Hi, !land_31. fold c.
  assert (H64 : forall x, wrap 64 x mod 2 ^ 31 = x mod 2 ^ 31) by (intros x; unfold wrap; symmetry; apply Znumtheory.Zmod_div_mod;
      [lia|lia|exists (2 ^ 33); reflexivity]).
  destruct (Z.eqb_spec (bswap32 (wrap 64 (c + 1) mod 2 ^ 31)) 0) as [E|E].
  - rewrite bswap32_zero in E by done. rewrite H64 in E.
    assert (Hread : forall v, tss_get (<[key := v]> tss) key = v)
      by (intros v; unfold tss_get; by rewrite lookup_insert_eq).
    rewrite !Hread.
    rewrite (proj2 (Z.eqb_neq _ 0)).
    + eexists _, _. split; [done|]. rewrite bswap32_invol by done.
      destruct (Hcell (wrap 64 (wrap 64 (c + 1) + 1)) (wrap 64 (c + 1))) as [-> ?].
      rewrite wrap_sum, !H64 by lia. split_and!; try lia. apply Hcell.
    + rewrite bswap32_zero by done. rewrite wrap_sum, H64 by lia. lia.
  - eexists _, _. split; [done|]. rewrite bswap32_invol by done.
    rewrite bswap32_zero, H64 in E by done. rewrite H64.
    assert (Hread : forall v, tss_get (<[key := v]> tss) key = v)
      by (intros v; unfold tss_get; by rewrite lookup_insert_eq).
    rewrite Hread, H64.
    split_and!; try lia. intros key' Hne. unfold tss_get. by rewrite lookup_insert_ne by done.
Qed.

(** The do-while loop of the append path ends after at most two calls of
    get_next_ts: the timestamp it yields is nonzero, its byte-swapped value
    is below 2^31, exceeds the previous one of that switch key by one unless
    the 31 bits wrap, and no other counter moves. *)
Theorem timestamp_next tss key :
  0 <= key < 2 ^ 16 -> in_width 64 (tss_get tss key) ->
  exists t tss', next_nonzero 2 tss key = Done (t, tss') /\
    0 < bswap32 t < 2 ^ 31 /\
    bswap32 t = tss_get tss' key mod 2 ^ 31 /\
    (tss_get tss key mod 2 ^ 31 < 2 ^ 31 - 1 ->
       bswap32 t = tss_get tss key mod 2 ^ 31 + 1) /\
    (forall key', key' <> key -> tss_get tss' key' = tss_get tss key').
Proof. apply timestamp_step. Qed.

Lemma timestamp_next_witness :
  exists t tss', next_nonzero 2 ∅ 7 = Done (t, tss') /\ bswap32 t = 2.
Proof.
  destruct (timestamp_next ∅ 7) as (t & tss' & H & _ & _ & Hs & _);
    [lia|split; vm_compute; congruence|].
  exists t, tss'. split; [exact H|]. apply Hs. vm_compute. reflexivity.
Defined.

Lemma next_nonzero_width fuel tss key t tss' :
  (forall k, in_width 64 (tss_get tss k)) ->
  next_nonzero fuel tss key = Done (t, tss') -> forall k, in_width 64 (tss_get tss' k).
Proof.
  revert tss. induction fuel as [|fuel IH]; intros tss Ht Hn;
    cbn [next_nonzero] in Hn; unfold get_next_ts in Hn;
    (assert (Ht1 : forall k, in_width 64 (tss_get
        (<[key mod kMaxShardDN := wrap 64 (tss_get tss (key mod kMaxShardDN) + 1)]> tss) k));
     [intros k; unfold tss_get at 1; destruct (decide (k = key mod kMaxShardDN)) as [->|];
      [rewrite lookup_insert_eq; apply wrap_range; lia
      |rewrite lookup_insert_ne by done; apply Ht]|]);
    destruct (_ =? 0); try done; try (injection Hn as _ <-; done).
  by apply (IH _ Ht1).
Qed.

#[global] Arguments next_nonzero : simpl never.

(** ** The data node: what was appended can be read *)

(** The reply echoes what the client and the switch match it by. *)
Definition echoes (req reply : RawKvMsg) : Prop :=
  key reply = key req /\ switch_key reply = switch_key req /\ flag reply = flag req /\
  kv_g_id reply = kv_g_id req /\ kv_c_id reply = kv_c_id req /\ magic reply = magic req /\
  client_port reply = client_port req /\ index_port reply = index_port req.

Lemma serve_append {I} `{IndexOps I} f thread_id (n : node I) req stale conf :
  log_ok f (kv n) -> msg_op req = kEnumAppendReq ->
  zget (server_config f) (src_s_id (rpc_header req)) = Some conf ->
  0 <= switch_key req < 2 ^ 16 -> in_width 64 (tss_get (tss n) (switch_key req)) ->
  log_size f <= zlen (payload req) ->
  exists r kv' tss', serve f thread_id n req stale =
      Done (r, mkNode kv' tss' (index n), get_size f kEnumAppendReply) /\
    echoes req r /\ msg_op r = kEnumAppendReply /\
    route_map r = route_map req /\
    src_c_id (rpc_header r) = src_c_id (rpc_header req) /\
    log_id r = compute_log_id f (pos (kv n)) thread_id /\
    timestamp r <> 0 /\
    take 8 (payload r) = take 8 (payload req) /\ log_ok f kv' /\
    append f (kv n) (get_log f req) = Done (pos (kv n), kv').
Proof.
  intros O Hop Hconf Hk Hc Hp.
  assert (Hb : zlen (get_log f req) = log_size f).
  { pose proof (stride_ge f (ok_size _ _ O)) as Hs. unfold get_log, log_size, zlen in *.
    rewrite length_take. lia. }
  destruct (append_spec f (kv n) _ O Hb) as (kv' & Ha & O' & _ & _).
  destruct (timestamp_step (tss n) (switch_key req) Hk Hc) as (t & tss' & Ht & Hpos & _).
  unfold serve, server_process_msg, process_op. rewrite Hop. cbn.
  rewrite Ha. cbn. rewrite Ht. cbn. rewrite Hconf. cbn.
  eexists _, kv', tss'. split; [reflexivity|]. unfold echoes. cbn.
  split_and!; try done.
  - intros ->. vm_compute in Hpos. by destruct Hpos.
  - apply take_blit. rewrite length_take.
    pose proof (stride_ge f (ok_size _ _ O)). unfold zlen, log_size, sizeof_KvKeyType in *.
    pose proof (ok_size _ _ O). lia.
Qed.

(** A data node thread whose log is a ring and whose counters are 64 bits. *)
Definition node_ok {I} (f : flags) (n : node I) : Prop :=
  log_ok f (kv n) /\ forall k, in_width 64 (tss_get (tss n) k).

Lemma serve_append_node_ok {I} `{IndexOps I} f thread_id (n : node I) req stale r n' size :
  node_ok f n -> msg_op req = kEnumAppendReq -> log_size f <= zlen (payload req) ->
  serve f thread_id n req stale = Done (r, n', size) -> node_ok f n'.
Proof.
  intros [O Ht] Hop Hp Hs. unfold serve, server_process_msg, process_op in Hs.
  rewrite Hop in Hs. cbn in Hs.
  apply obind_inv in Hs as ([r0 n0] & Hp0 & Hs).
  apply obind_inv in Hp0 as ([local kv'] & Ha & Hp0).
  apply obind_inv in Hp0 as ([t tss'] & Hn & Hp0). injection Hp0 as <- <-.
  apply obind_inv in Hs as (conf & _ & Hs). injection Hs as <- <- _.
  assert (Hb : zlen (get_log f req) = log_size f).
  { pose proof (stride_ge f (ok_size _ _ O)) as Hst. unfold get_log, log_size, zlen in *.
    rewrite length_take. lia. }
  destruct (append_spec f (kv n) _ O Hb) as (kv1 & Ha1 & O1 & _).
  rewrite Ha1 in Ha. injection Ha as _ <-. split; [done|]. by eapply next_nonzero_width.
Qed.

Lemma append_read_spec {I} `{IndexOps I} f thread_id (n : node I) req stale conf rreq rstale rconf :
  log_ok f (kv n) -> msg_op req = kEnumAppendReq ->
  zget (server_config f) (src_s_id (rpc_header req)) = Some conf ->
  0 <= switch_key req < 2 ^ 16 -> in_width 64 (tss_get (tss n) (switch_key req)) ->
  log_size f <= zlen (payload req) -> FLAGS_logspace f <= FLAGS_keyspace f ->
  0 <= thread_id -> (thread_id + 1) * FLAGS_keyspace f <= 2 ^ 32 ->
  exists r n' size, serve f thread_id n req stale = Done (r, n', size) /\
    echoes req r /\ msg_op r = kEnumAppendReply /\ timestamp r <> 0 /\
    logid_2_threadid f (log_id r) = thread_id /\
    (msg_op rreq = kEnumReadLog -> log_id rreq = log_id r ->
     zget (server_config f) (src_s_id (rpc_header rreq)) = Some rconf ->
     log_size f <= zlen (payload rstale) ->
     exists r2, serve f thread_id n' rreq rstale =
         Done (r2, n', get_size f kEnumReadReply) /\
       echoes rreq r2 /\ msg_op r2 = kEnumReadReply /\
       get_log f r2 = get_log f req).
Proof.
  intros O Hop Hconf Hk Hc Hp Hsp Ht Hth.
  destruct (serve_append f thread_id n req stale conf O Hop Hconf Hk Hc Hp)
    as (r & kv' & tss' & Hs & He & Ho & _ & _ & Hid & Hts & _ & O' & Ha).
  pose proof (ok_pos _ _ O) as Hpos.
  destruct (logid_decode f (pos (kv n)) thread_id) as (_ & Htid & Hloc); [nia..|].
  rewrite <- Hid in Htid, Hloc.
  exists r, (mkNode kv' tss' (index n)), (get_size f kEnumAppendReply).
  split_and!; try done. intros Hrop Hrid Hrconf Hrp.
  assert (Hb : zlen (get_log f req) = log_size f).
  { pose proof (stride_ge f (ok_size _ _ O)) as Hst. unfold get_log, log_size, zlen in *.
    rewrite length_take. lia. }
  assert (Hget : get f kv' (pos (kv n)) = Done (get_log f req)).
  { destruct (append_spec f (kv n) _ O Hb) as (kv2 & Ha2 & _ & _ & Hg).
    rewrite Ha in Ha2. simplify_eq. rewrite Hg by done. by rewrite Z.eqb_refl. }
  unfold serve, server_process_msg, process_op. rewrite Hrop. cbn.
  rewrite Hrid, Hloc, Hget. cbn. rewrite Hrconf. cbn.
  eexists. split; [reflexivity|]. unfold echoes, get_log at 1. cbn.
  split_and!; try done. apply take_blit. unfold zlen in Hb. unfold log_size in Hb. lia.
Qed.

(** A data node serves what it stored: an append answered by thread
    [thread_id] echoes the request, carries a nonzero timestamp and a log id
    such that a later read of that id by the same thread returns exactly the
    key and value bytes of the append. *)
Theorem append_then_read {I} `{IndexOps I} f thread_id (n : node I) req stale conf rreq rstale rconf :
  log_ok f (kv n) -> msg_op req = kEnumAppendReq ->
  zget (server_config f) (src_s_id (rpc_header req)) = Some conf ->
  0 <= switch_key req < 2 ^ 16 -> in_width 64 (tss_get (tss n) (switch_key req)) ->
  log_size f <= zlen (payload req) -> FLAGS_logspace f <= FLAGS_keyspace f ->
  0 <= thread_id -> (thread_id + 1) * FLAGS_keyspace f <= 2 ^ 32 ->
  exists r n' size, serve f thread_id n req stale = Done (r, n', size) /\
    echoes req r /\ msg_op r = kEnumAppendReply /\ timestamp r <> 0 /\
    logid_2_threadid f (log_id r) = thread_id /\
    (msg_op rreq = kEnumReadLog -> log_id rreq = log_id r ->
     zget (server_config f) (src_s_id (rpc_header rreq)) = Some rconf ->
     log_size f <= zlen (payload rstale) ->
     exists r2, serve f thread_id n' rreq rstale =
         Done (r2, n', get_size f kEnumReadReply) /\
       echoes rreq r2 /\ msg_op r2 = kEnumReadReply /\
       get_log f r2 = get_log f req).
Proof. apply append_read_spec. Qed.

Definition sample_msg (o sid k l : Z) (p : list Z) : RawKvMsg :=
  mkMsg (mkHeader 0 sid 0 0 0 o 0) 2 5 99 0 1 0 0 0 k l 0 2 0 0 0 0 0 p.
Definition sample_node : node (gmap Z Z) := mkNode (init tiny_flags) ∅ ∅.

Lemma append_then_read_witness :
  exists r n' size, serve tiny_flags 1 sample_node
      (sample_msg kEnumAppendReq 2 17 0 (key_bytes 42)) (sample_msg 0 0 0 0 (replicate 8 0))
      = Done (r, n', size) /\ logid_2_threadid tiny_flags (log_id r) = 1.
Proof.
  destruct (append_then_read tiny_flags 1 sample_node
    (sample_msg kEnumAppendReq 2 17 0 (key_bytes 42)) (sample_msg 0 0 0 0 (replicate 8 0))
    (mkServer 2 1 1 21 1 ens6 136)
    (sample_msg kEnumReadLog 3 17 0 []) (sample_msg 0 0 0 0 (replicate 8 0))
    (mkServer 2 1 0 12 0 ens2 180))
    as (r & n' & size & H & _ & _ & _ & Hid & _).
  - apply init_ok; vm_compute; congruence.
  - reflexivity.
  - reflexivity.
  - vm_compute; split; congruence.
  - vm_compute; split; congruence.
  - vm_compute; congruence.
  - vm_compute; congruence.
  - lia.
  - vm_compute; congruence.
  - exists r, n', size. split; [exact H|exact Hid].
Defined.

(** ** Batches *)

Definition is_read (e : batchEntry) : bool := msg_op (reply_addr e) =? kEnumReadIndexReply.
Definition is_update (e : batchEntry) : bool :=
  (msg_op (reply_addr e) =? ReplySwitch) || (msg_op (reply_addr e) =? kEnumUpdateIndexReply).

(** What collect builds from the messages clients send: reads carry timestamp
    0, updates the nonzero timestamp of their append. *)
Record entry_ok (e : batchEntry) : Prop := {
  eo_key : ekey e = get_key (reply_addr e);
  eo_pos : 0 < ekey e;
  eo_kind : (is_read e = true /\ is_update e = false /\ etimestamp e = 0) \/
            (is_read e = false /\ is_update e = true /\ 0 < etimestamp e)
}.

Definition newest (l : list batchEntry) (e : batchEntry) : Prop :=
  e ∈ l /\ is_update e = true /\
  forall e', e' ∈ l -> is_update e' = true -> ekey e' = ekey e -> etimestamp e' <= etimestamp e.

#[export] Instance entry_le_total : Total entry_le.
Proof.
  intros x y. unfold entry_le, entry_lt.
  destruct (Z.eqb_spec (ekey y) (ekey x)), (Z.eqb_spec (ekey x) (ekey y));
    rewrite ?Z.ltb_ge; lia.
Qed.

#[export] Instance entry_le_trans : Transitive entry_le.
Proof.
  intros x y z. unfold entry_le, entry_lt.
  destruct (Z.eqb_spec (ekey y) (ekey x)), (Z.eqb_spec (ekey z) (ekey y)),
           (Z.eqb_spec (ekey z) (ekey x)); rewrite ?Z.ltb_ge; lia.
Qed.

Lemma entry_le_spec x y :
  entry_le x y <-> ekey x < ekey y \/ (ekey x = ekey y /\ etimestamp y <= etimestamp x).
Proof.
  unfold entry_le, entry_lt. destruct (Z.eqb_spec (ekey y) (ekey x)); rewrite Z.ltb_ge; lia.
Qed.

Section batch.
Context {I : Type} `{IndexLaws I}.

(** The reply of an entry, given the index after the whole batch. *)
Definition reply_for (index : I) (e : batchEntry) : RawKvMsg :=
  let m := with_send_cnt (reply_addr e) 0 in
  if is_read e then
    match mt_search index (ekey e) with
    | Some v => with_log_id m (wrap 32 v)
    | None => with_log_id (with_key m 4294967295) 0
    end
  else m.

(** How the final index relates to the one before the loop, at key [k]. *)
Definition settled (index index' : I) (l : list batchEntry) (k : Z) : Prop :=
  (mt_search index' k = mt_search index k /\
     Forall (fun e => is_update e = true -> ekey e <> k) l) \/
  (exists e, newest l e /\ ekey e = k /\
     mt_search index' k = Some (log_id (reply_addr e))).

Lemma settled_cons index index1 index' e l k :
  settled index1 index' l k -> mt_search index1 k = mt_search index k ->
  (is_update e = true -> ekey e <> k) -> settled index index' (e :: l) k.
Proof.
  intros [[Hs Hall]|(e0 & (Hin & Hu & Hmax) & Hk & Hs)] H1 He.
  - left. split; [congruence|]. by constructor.
  - right. exists e0. split_and!; try done. split_and!; [set_solver|done|].
    intros e' [->|Hin']%elem_of_cons Hu' Hk'; [|auto]. exfalso. apply He; congruence.
Qed.

(** A key below every key of the rest keeps its value. *)
Lemma settled_below index index' l k k0 :
  settled index index' l k -> Forall (fun e => k0 <= ekey e) l -> k < k0 ->
  mt_search index' k = mt_search index k.
Proof.
  intros [[Hs _]|(e & (Hin & _) & Hk & _)] Hall Hlt; [done|].
  rewrite Forall_forall in Hall. specialize (Hall e Hin). lia.
Qed.

(** The sorted loop: updates of the key handled last are skipped, the first
    update of any other key wins, and reads see the final index. *)
Lemma apply_batch_spec l index last_key :
  StronglySorted entry_le l -> Forall entry_ok l ->
  Forall (fun e => last_key <= ekey e) l ->
  exists index', apply_batch index l last_key = Done (map (reply_for index') l, index') /\
    mt_search index' last_key = mt_search index last_key /\
    forall k, k <> last_key -> settled index index' l k.
Proof.
  intros Hs Hok. revert index last_key. induction Hs as [|e l Hs IH Hle];
    intros index lk Hlk.
  { exists index. split_and!; [done..|]. intros k _. left. by split. }
  apply Forall_cons in Hok as [He Hok]. apply Forall_cons in Hlk as [Hke Hlk].
  specialize (IH Hok). rewrite Forall_forall in Hle.
  assert (Hnext : Forall (fun e' => ekey e <= ekey e') l).
  { apply Forall_forall. intros e' He'. apply Hle, entry_le_spec in He'. lia. }
  assert (Hgk : get_key (with_send_cnt (reply_addr e) 0) = ekey e)
    by (rewrite (eo_key _ He); done).
  assert (Hop : msg_op (with_send_cnt (reply_addr e) 0) = msg_op (reply_addr e)) by done.
  assert (Hlow : forall index1 index', mt_search index' (ekey e) = mt_search index1 (ekey e) ->
            (forall k, k <> ekey e -> settled index1 index' l k) ->
            lk <> ekey e -> mt_search index' lk = mt_search index1 lk).
  { intros index1 index' _ Hset Hne. eapply settled_below; [by apply Hset|exact Hnext|lia]. }
  cbn [apply_batch]. rewrite Hgk, Hop. unfold put_long, get_long; cbn [snd].
  destruct (eo_kind _ He) as [(Hr & Hu & Ht)|(Hr & Hu & Ht)].
  - unfold is_read in Hr. rewrite Hr.
    destruct (IH index (ekey e) Hnext) as (index' & Ha & Hsame & Hset).
    assert (Hnone : forall e', e' ∈ l -> is_update e' = true -> ekey e' <> ekey e).
    { intros e' Hin Hu' Hk'. pose proof (Hle e' Hin) as Hlt. apply entry_le_spec in Hlt.
      rewrite Forall_forall in Hok. destruct (eo_kind _ (Hok e' Hin)) as [(_ & ? & _)|(_ & _ & ?)];
        [congruence|lia]. }
    assert (Hrep : forall rest, (let! (rest', index'') := apply_batch index l (ekey e) in
                      Done (rest :: rest', index'')) = Done (rest :: map (reply_for index') l, index'))
      by (intros; by rewrite Ha).
    exists index'. split.
    { destruct (mt_search index (ekey e)) as [v|] eqn:E; cbn [obind]; rewrite Hrep;
        cbn [map]; unfold reply_for at 2, is_read; rewrite Hr, Hsame; done. }
    split; [destruct (decide (lk = ekey e)) as [->|]; [done|by eapply Hlow]|].
    intros k Hk. destruct (decide (k = ekey e)) as [->|Hne].
    + left. split; [done|]. constructor; [congruence|]. by apply Forall_forall.
    + eapply settled_cons; [by apply Hset|done|congruence].
  - unfold is_read in Hr. rewrite Hr.
    set (index1 := if ekey e =? lk then index
                   else mt_insert index (ekey e) (log_id (reply_addr e))).
    assert (Hother : forall k, k <> ekey e -> mt_search index1 k = mt_search index k).
    { intros k Hk. unfold index1. destruct (ekey e =? lk); [done|].
      by rewrite search_insert, decide_False. }
    destruct (IH index1 (ekey e) Hnext) as (index' & Ha & Hsame & Hset).
    exists index'. split.
    { unfold is_update in Hu. destruct (msg_op (reply_addr e) =? ReplySwitch); simpl in Hu;
        [|rewrite Hu]; cbn [obind]; change (log_id (with_send_cnt (reply_addr e) 0))
          with (log_id (reply_addr e)); fold index1; rewrite Ha; cbn [obind map];
        unfold reply_for at 2, is_read; by rewrite Hr. }
    split.
    { destruct (decide (lk = ekey e)) as [->|Hne].
      - rewrite Hsame. unfold index1. by rewrite Z.eqb_refl.
      - rewrite (Hlow index1) by done. by apply Hother. }
    intros k Hk. destruct (decide (k = ekey e)) as [->|Hne].
    + right. exists e. rewrite Hsame. unfold index1.
      rewrite (proj2 (Z.eqb_neq _ _)) by done. rewrite search_insert, decide_True by done.
      split_and!; try done. split_and!; [set_solver|done|].
      intros e' [->|Hin]%elem_of_cons _ Hk'; [lia|].
      apply Hle, entry_le_spec in Hin. lia.
    + eapply settled_cons; [by apply Hset|by apply Hother|congruence].
Qed.

Lemma settled_perm index index' l l' k :
  l ≡ₚ l' -> settled index index' l k -> settled index index' l' k.
Proof.
  intros P [[Hs Hall]|(e & (Hin & Hu & Hmax) & Hk & Hs)].
  - left. split; [done|]. by rewrite <- P.
  - right. exists e. split_and!; try done. split_and!; [by rewrite <- P|done|].
    intros e'. rewrite <- P. apply Hmax.
Qed.

End batch.

(** std_sort is such an order. *)
Lemma std_sort_ok batch : std_sort batch ≡ₚ batch /\ StronglySorted entry_le (std_sort batch).
Proof.
  split; [apply merge_sort_Permutation|]. apply StronglySorted_merge_sort; apply _.
Qed.

Definition entry (o k l ts : Z) : batchEntry :=
  mkEntry (sample_msg o 2 k l (key_bytes k)) k ts.

(** Two updates of key 42 (the older one second) and a read of it. *)
Definition sample_batch : list batchEntry :=
  [entry kEnumReadIndexReply 42 0 0; entry ReplySwitch 42 7 5;
   entry kEnumUpdateIndexReply 42 6 3; entry ReplySwitch 9 8 2].

Lemma sample_batch_ok : Forall entry_ok sample_batch.
Proof.
  repeat (apply Forall_cons; split); [..|apply Forall_nil; exact I];
    (split; [reflexivity|reflexivity|]);
    first [left; split_and!; reflexivity|right; split_and!; reflexivity].
Qed.


(** An update of key 0 at the head of a batch is lost: last_key starts at 0. *)
Lemma batch_key0_lost :
  exists r, flush_batch (∅ : gmap Z Z) [entry kEnumUpdateIndexReply 0 6 3] = Done (r, ∅).
Proof. eexists. vm_compute. reflexivity. Qed.

(** In the COMT build the second read of a key in a batch is never resumed:
    by then the op field holds the reply's code, not kEnumReadIndexReq. *)
Lemma comt_skips_second_read :
  comt_resumed [entry kEnumReadIndexReply 42 0 0; entry kEnumReadIndexReply 42 0 0] 0 =
    [entry kEnumReadIndexReply 42 0 0].
Proof. vm_compute. reflexivity. Qed.

(** *** The batch array *)

Lemma collect_done f req stale conf :
  In (msg_op req) [kEnumReadIndexReq; kEnumMultiCastPkt; kEnumUpdateIndexReq] ->
  zget (server_config f) (src_s_id (rpc_header req)) = Some conf ->
  exists e p, collect f req stale = Done (e, p) /\ ekey e = get_key req /\
    etimestamp e = bswap32 (timestamp req).
Proof.
  intros Hop Hconf. unfold collect. cbn zeta.
  destruct Hop as [E|[E|[E|[]]]]; rewrite <- E; cbn -[zget bswap32 get_key];
    rewrite Hconf; cbn -[bswap32 get_key]; eauto.
Qed.

Definition req_ok (f : flags) (r : RawKvMsg * RawKvMsg) : Prop :=
  In (msg_op r.1) [kEnumReadIndexReq; kEnumMultiCastPkt; kEnumUpdateIndexReq] /\
  exists conf, zget (server_config f) (src_s_id (rpc_header r.1)) = Some conf.

Lemma collect_all_spec f reqs batch onpath :
  Forall (req_ok f) reqs -> zlen batch + zlen reqs <= max_size f ->
  exists es p, collect_all f reqs batch onpath = Done (batch ++ es, p) /\
    length es = length reqs.
Proof.
  intros Hr. revert batch onpath. induction Hr as [|[req stale] reqs [Hop [conf Hc]] _ IH];
    intros batch onpath Hl.
  { exists [], onpath. by rewrite app_nil_r. }
  rewrite zlen_cons in Hl. pose proof (zlen_nonneg reqs).
  destruct (collect_done f req stale conf Hop Hc) as (e & p & He & _).
  cbn [collect_all]. rewrite He. cbn [obind].
  rewrite (proj2 (Z.ltb_lt _ _)) by lia.
  destruct (IH (batch ++ [e]) (onpath || p)) as (es & p' & -> & Hlen).
  { unfold zlen in *. rewrite length_app. simpl. lia. }
  exists (e :: es), p'. rewrite <- app_assoc. simpl. split; [done|lia].
Qed.

(** The batch array of FLAGS_batch_size + kMaxWcCnt entries never
    overflows: with at most kMaxWcCnt completions per poll, every round of the
    server loop either flushes the batch or carries fewer than
    FLAGS_batch_size entries over. *)
Theorem batch_never_overflows {I} `{IndexOps I} f (index : I) batch reqs :
  0 <= FLAGS_batch_size f < 2 ^ 32 - kMaxWcCnt ->
  zlen batch <= FLAGS_batch_size f -> zlen reqs <= kMaxWcCnt -> Forall (req_ok f) reqs ->
  exists batch' onpath, collect_all f reqs batch false = Done (batch', onpath) /\
    zlen batch' = zlen batch + zlen reqs /\ zlen batch' <= max_size f /\
    (keep_polling f batch' onpath = true ->
       batch_round f index batch reqs = Done (batch', index, []) /\
       zlen batch' < FLAGS_batch_size f) /\
    (keep_polling f batch' onpath = false -> forall carried index' replies,
       batch_round f index batch reqs = Done (carried, index', replies) -> carried = []).
Proof.
  intros Hf Hb Hr Hok.
  assert (Hm : max_size f = FLAGS_batch_size f + kMaxWcCnt).
  { unfold kMaxWcCnt in *. apply wrap_small. unfold in_width, kMaxWcCnt. lia. }
  destruct (collect_all_spec f reqs batch false Hok) as (es & p & Hc & Hl); [lia|].
  exists (batch ++ es), p. split; [done|].
  assert (Hlen : zlen (batch ++ es) = zlen batch + zlen reqs)
    by (unfold zlen; rewrite length_app; lia).
  unfold batch_round. rewrite Hc. cbn [obind].
  split_and!; [done|lia| |].
  - intros Hk. rewrite Hk. split; [done|]. unfold keep_polling in Hk.
    rewrite !andb_true_iff, Z.ltb_lt in Hk. apply Hk.
  - intros Hk carried index' replies. rewrite Hk.
    intros ([rs i'] & _ & He)%obind_inv. by simplify_eq.
Qed.

Lemma batch_never_overflows_witness :
  exists b p, collect_all tiny_flags
    [(sample_msg kEnumMultiCastPkt 2 42 7 (key_bytes 42), sample_msg 0 0 0 0 (replicate 8 0))]
    [] false = Done (b, p) /\ zlen b <= 20.
Proof.
  destruct (batch_never_overflows tiny_flags (∅ : gmap Z Z) []
    [(sample_msg kEnumMultiCastPkt 2 42 7 (key_bytes 42), sample_msg 0 0 0 0 (replicate 8 0))])
    as (b & p & Hc & _ & Hl & _).
  - vm_compute; split; congruence.
  - vm_compute; congruence.
  - vm_compute; congruence.
  - apply Forall_cons; split; [|constructor].
    split; [right; left; reflexivity|eexists; reflexivity].
  - exists b, p. split; [exact Hc|exact Hl].
Defined.
End KvServer.
