(* ===== verification/KvClientModel.v ===== *)
(** * apps/kv/kv.cc: the client coroutine

    [Module KvClient] models the client side of KvRpc: the context of one
    coroutine (KvCtx), the requests it builds (get_index, put_index, get_value,
    put_value, check_req_cnt) and how each continues with its reply, and kv_test
    as a state machine: a coroutine suspends in post_appended_smsg and is
    resumed with the reply, so every operation is one [start] and a sequence of
    [resume] steps.  A failed assert or exit() is [Fault ProcessExit]. *)

From S2P Require Import Prelude KvMessageModel KvServerModel.
Import KvMessage.

Module KvClient.

(** struct KvCtx: the fields the operations use. *)
Record KvCtx := mkCtx {
  test : TestType;
  coro : Z;               (* coro_id *)
  ckey : Z;               (* key: the fingerprint *)
  data_s_id : Z;
  index_s_id : Z;
  cmagic : Z;             (* uint16 *)
  long_key : Z;
  clog_id : Z;
  index_in_switch : bool;
  read_ok : bool;
  ctimestamp : Z
}.

(** The client thread: what config_client and client_prepare fix. *)
Record client := mkClient {
  cflags : flags;
  server_id : Z;
  thread_id : Z;
  my_index_bitmap : Z;
  userbuf : list Z
}.

(** client_prepare: my_index_bitmap starts as 2. *)
Definition client_bitmap (server_id : Z) : Z := wrap 16 (Z.lor 2 (Z.shiftl 1 server_id)).

(** rdma/rdma.h: ports and global ids, for kMaxQPNum = kConfigMaxQPCnt = 1 and
    the default FLAGS_port_func = false. *)
Definition kConfigMaxThreadCnt : Z := 48.
Definition kConfigMaxQPCnt : Z := 1.
Definition compute_gid (s_id t_id : Z) : Z := wrap 16 (s_id * kConfigMaxThreadCnt + t_id).
Definition compute_port (t_id qp_id : Z) : Z :=
  wrap 16 (Z.shiftl (t_id * kConfigMaxQPCnt + qp_id + 1) 8).
Definition get_thread_port (t_id qp_id : Z) : Z := compute_port t_id qp_id.

Section ops.
Context (c : client).
Let f := cflags c.

Definition qp_of (x : KvCtx) : Z := coro x mod kConfigMaxQPCnt.
Definition vis_flag : Z := if FLAGS_visibility f then visibility else 0.
Definition my_header (dst op_ : Z) (x : KvCtx) : RpcHeader :=
  mkHeader dst (server_id c) (thread_id c) (coro x) 0 op_ 0.
Definition my_port (x : KvCtx) : Z := toBigEndian16 (get_thread_port (thread_id c) (qp_of x)).
Definition port_of (tid : Z) (x : KvCtx) : Z := toBigEndian16 (get_thread_port tid (qp_of x)).

(** A request and where rpc_get_qp directs it: server and thread. *)
Record request := mkReq { to_server : Z; to_thread : Z; rmsg : RawKvMsg }.

(** [m] is the send buffer, with whatever an earlier request left in it. *)
Definition get_index_req (x : KvCtx) (m : RawKvMsg) : outcome request :=
  let index_tid := get_index_thread_id f (get_switch_key (long_key x)) in
  let! conf := of_option OutOfBounds (zget (server_config f) (server_id c)) in
  let m1 := mkMsg (my_header get_index_server_id kEnumReadIndexReq x) vis_flag
    (get_switch_key (long_key x)) (kv_g_id m) (kv_c_id m) (magic m)
    (server_map m) (qp_map m) (coro_id m) (get_fingerprint (long_key x)) (log_id m)
    (toBigEndian16 (port_id conf)) (route_map m) (my_port x) (send_cnt m)
    (port_of index_tid x) (magic_in_switch m) 0 (payload m) in
  Done (mkReq (index_s_id x) index_tid (put_key m1 (long_key x))).

Definition get_index_done (x : KvCtx) (reply : RawKvMsg) : outcome KvCtx :=
  let found (x' : KvCtx) :=
    mkCtx (test x') (coro x') (ckey x') (data_s_id x') (index_s_id x') (cmagic x')
      (long_key x') (log_id reply)
      (if msg_op reply =? kEnumReadIndexReq then true else index_in_switch x')
      (read_ok x') (ctimestamp x') in
  if key reply =? ckey x then Done (found x)
  else if key reply =? 4294967295 then
    Done (mkCtx (test x) (coro x) (ckey x) (data_s_id x) (index_s_id x) (cmagic x)
            (long_key x) 4294967295 (index_in_switch x) (read_ok x) (ctimestamp x))
  else Fault ProcessExit.

Definition put_index_req (x : KvCtx) (m : RawKvMsg) : request :=
  let index_tid := get_index_thread_id f (get_switch_key (long_key x)) in
  let m1 := mkMsg (my_header (index_s_id x) kEnumUpdateIndexReq x) 0
    (get_switch_key (long_key x)) (kv_g_id m) (kv_c_id m) (wrap 8 (cmagic x))
    (server_map m) (qp_map m) (coro_id m) (wrap 32 (ckey x)) (clog_id x)
    (route_port m) (my_index_bitmap c) (my_port x) (send_cnt m)
    (port_of index_tid x) (magic_in_switch m) (ctimestamp x) (payload m) in
  mkReq (index_s_id x) index_tid (put_key m1 (long_key x)).

Definition put_index_done (x : KvCtx) (reply : RawKvMsg) : outcome KvCtx :=
  if negb (key reply =? ckey x) then Fault ProcessExit
  else if negb (src_t_id (rpc_header reply) =? thread_id c) then Fault ProcessExit
  else if FLAGS_visibility f && (msg_op reply =? kEnumMultiCastPkt) then Done x
  else if msg_op reply =? kEnumUpdateIndexReply then Done x
  else Fault ProcessExit.

Definition get_value_req (x : KvCtx) (m : RawKvMsg) : request :=
  let index_tid := get_index_thread_id f (get_switch_key (long_key x)) in
  mkReq (data_s_id x) (wrap 8 (logid_2_threadid f (clog_id x)))
   (mkMsg (my_header (data_s_id x) kEnumReadLog x) vis_flag
    (get_switch_key (long_key x)) (compute_gid (server_id c) (thread_id c)) (coro x) (magic m)
    (server_map m) (qp_map m) (coro_id m) (wrap 32 (ckey x)) (clog_id x)
    (route_port m) (route_map m) (client_port m) (send_cnt m)
    (port_of index_tid x) (magic_in_switch m) 0 (payload m)).

(** The value lands in userbuf; the second result. *)
Definition get_value_done (x : KvCtx) (reply : RawKvMsg) : outcome (KvCtx * list Z) :=
  if msg_op reply =? kEnumReadReply then
    let bad := negb (key reply =? 4294967295) && negb (get_key reply =? long_key x) &&
               (get_fingerprint (long_key x) =? get_fingerprint (get_key reply)) in
    Done (mkCtx (test x) (coro x) (ckey x) (data_s_id x) (index_s_id x) (cmagic x)
            (long_key x) (clog_id x) (index_in_switch x)
            (if bad then false else read_ok x) (ctimestamp x),
          get_value f reply)
  else Fault ProcessExit.

Definition put_value_req (x : KvCtx) (m : RawKvMsg) : request :=
  let index_tid := get_index_thread_id f (long_key x) in
  let m1 := mkMsg (my_header (data_s_id x) kEnumAppendReq x) vis_flag
    (get_switch_key (long_key x)) (compute_gid (server_id c) (thread_id c)) (coro x)
    (wrap 8 (cmagic x)) (server_map m) (qp_map m) (coro_id m) (wrap 32 (ckey x)) (log_id m)
    (route_port m) (my_index_bitmap c) (my_port x) (send_cnt m)
    (port_of index_tid x) (magic_in_switch m) 0 (payload m) in
  mkReq (data_s_id x) (get_data_thread_id_by_key f (long_key x))
    (put_value (put_key m1 (long_key x))
      (take (Z.to_nat (FLAGS_kv_size_b f)) (userbuf c))).

Definition put_value_done (x : KvCtx) (reply : RawKvMsg) : outcome KvCtx :=
  if key reply =? ckey x then
    Done (mkCtx (test x) (coro x) (ckey x) (data_s_id x) (index_s_id x) (cmagic x)
            (long_key x) (log_id reply) (index_in_switch x) (read_ok x) (timestamp reply))
  else Fault ProcessExit.

(** *** kv_test *)

Inductive phase := InGetIndex | InGetValue | InPutValue | InPutIndex.

(** Suspended with a request on the wire, or finished with the last reply. *)
Inductive progress :=
  | Waiting (x : KvCtx) (p : phase) (r : request)
  | Finished (x : KvCtx) (reply : RawKvMsg)
  | Skipped (x : KvCtx).      (* kEnumRV and kEnumWV do nothing *)

(** The prologue of kv_test: a fresh nonzero magic and the fingerprint. *)
Definition new_magic (m : Z) : Z :=
  let m1 := wrap 16 (m + 1) in if m1 =? 0 then wrap 16 (m1 + 1) else m1.

Definition begin_op (x : KvCtx) (t : TestType) : KvCtx :=
  mkCtx t (coro x) (get_fingerprint (long_key x)) get_data_server_id get_index_server_id
    (new_magic (cmagic x)) (long_key x) (clog_id x) false true (ctimestamp x).

Definition kv_test_start (x0 : KvCtx) (t : TestType) (m : RawKvMsg) : outcome progress :=
  let x := begin_op x0 t in
  match t with
  | kEnumR | kEnumRI =>
      let! r := get_index_req x m in Done (Waiting x InGetIndex r)
  | kEnumW => Done (Waiting x InPutValue (put_value_req x m))
  | kEnumWI => Done (Waiting x InPutIndex (put_index_req x m))
  | kEnumRV | kEnumWV => Done (Skipped x)
  | _ => Fault ProcessExit
  end.

(** The coroutine continues with [reply]; [m] is the send buffer for a
    second request. *)
Definition kv_test_resume (x : KvCtx) (p : phase) (reply m : RawKvMsg) : outcome progress :=
  match p with
  | InGetIndex =>
      let! x1 := get_index_done x reply in
      if decide (test x = kEnumRI) then Done (Finished x1 reply)
      else if clog_id x1 =? 4294967295 then Done (Finished x1 reply)
      else Done (Waiting x1 InGetValue (get_value_req x1 m))
  | InGetValue =>
      let! (x1, _) := get_value_done x reply in Done (Finished x1 reply)
  | InPutValue =>
      let! x1 := put_value_done x reply in
      if FLAGS_visibility f && (msg_op reply =? kEnumMultiCastPkt)
      then Done (Finished x1 reply)
      else Done (Waiting x1 InPutIndex (put_index_req x1 m))
  | InPutIndex =>
      let! x1 := put_index_done x reply in Done (Finished x1 reply)
  end.

(** The latency classes kv_test reports (types of end_copy) when it ends in
    phase [p]. *)
Definition report (x : KvCtx) (p : phase) (reply : RawKvMsg) : list Z :=
  if FLAGS_visibility f && (msg_op reply =? kEnumMultiCastPkt)
  then match p with InPutValue => [2; 4] | _ => [] end
  else if negb (read_ok x) then [6]
  else if clog_id x =? 4294967295 then [3]
  else match test x with
       | kEnumRI | kEnumRV | kEnumR | kEnumSW | kEnumSRS =>
           1 :: (if index_in_switch x then [5] else [])
       | _ => [2]
       end.

(** *** Flow control: after_process_reply and check_req_cnt *)

(** (uint16_t)log2(toBigEndian16(index_port)) for a nonzero port; the array
    has kConfigMaxThreadCnt entries. *)
Definition buf_cnt_slot (index_port : Z) : Z := Z.log2 (toBigEndian16 index_port).

Definition after_process_reply (index_buf_cnt : list Z) (reply : RawKvMsg)
    : outcome (list Z) :=
  if FLAGS_visibility f then
    store index_buf_cnt (buf_cnt_slot (index_port reply)) (toBigEndian16 (send_cnt reply))
  else Done index_buf_cnt.

Definition kMaxCurrentIndexReq : Z := 1500.

(** cworker_new_request: which counter gates a new operation. *)
Inductive admission := Run | AskCount | Return.

Definition cworker_admit (index_buf_cnt : list Z) (waiting : list bool) (x : KvCtx)
    : outcome admission :=
  let index_tid := get_index_thread_id f (get_switch_key (long_key x)) in
  let! cnt := load index_buf_cnt index_tid in
  if kMaxCurrentIndexReq <? cnt then
    let! w := load waiting index_tid in
    Done (if (w : bool) then Return else AskCount)
  else Done Run.

Definition check_req_cnt_msg (x : KvCtx) (m : RawKvMsg) : RawKvMsg :=
  let index_tid := get_index_thread_id f (get_switch_key (long_key x)) in
  mkMsg (my_header (server_id c) kEnumReadSend x) 0
    (switch_key m) (kv_g_id m) (kv_c_id m) (magic m)
    (server_map m) (qp_map m) (coro_id m) 1 (log_id m)
    (route_port m) (route_map m) (client_port m) 0
    (toBigEndian16 (get_thread_port index_tid 0)) (magic_in_switch m) (timestamp m) (payload m).
End ops.

(** ** Routing: the index thread of a key *)

Lemma thread_of_switch_key f k :
  0 < FLAGS_mn_thread f -> (FLAGS_mn_thread f | 2 ^ 16) ->
  get_index_thread_id f (get_switch_key k) = get_index_thread_id f k.
Proof.
  intros Hm Hd. unfold get_index_thread_id, get_switch_key, wrap.
  rewrite Z.land_ones by lia. f_equal.
  rewrite <- !Znumtheory.Zmod_div_mod; try lia; try done.
  - by apply (Z.divide_trans _ (2 ^ 16)); [|exists (2 ^ 16)].
  - apply (Z.divide_trans _ (2 ^ 16)); [done|by exists (2 ^ 16)].
Qed.

(** All requests of a key go to one index thread: the port put_value
    writes into a message (from the whole key) and the ports put_index and
    get_index write (from the switch key) are the same when the number of
    index threads divides 2^16. *)
Theorem index_route_consistent (c : client) (x : KvCtx) (m m1 m2 : RawKvMsg) r :
  0 < FLAGS_mn_thread (cflags c) -> (FLAGS_mn_thread (cflags c) | 2 ^ 16) ->
  get_index_req c x m2 = Done r ->
  index_port (rmsg (put_value_req c x m)) = index_port (rmsg (put_index_req c x m1)) /\
  index_port (rmsg r) = index_port (rmsg (put_index_req c x m1)) /\
  to_thread r = to_thread (put_index_req c x m1).
Proof.
  intros Hm Hd Hr. apply obind_inv in Hr as (conf & _ & Hr). injection Hr as <-.
  split; [|done]. cbn. unfold port_of. by rewrite thread_of_switch_key.
Qed.

Definition sample_client (mn : Z) : client :=
  mkClient (mkFlags 8 4 0 true true 4 50 1 1 mn 1) 2 0 6 [].
Definition ctx_of (k : Z) : KvCtx := mkCtx kEnumW 0 0 0 1 0 k 0 false true 0.
Definition empty_msg : RawKvMsg :=
  mkMsg (mkHeader 0 0 0 0 0 0 0) 0 0 0 0 0 0 0 0 0 0 0 0 0 0 0 0 0 [].

Lemma index_route_consistent_witness :
  index_port (rmsg (put_value_req (sample_client 4) (ctx_of 65543) empty_msg)) =
  index_port (rmsg (put_index_req (sample_client 4) (ctx_of 65543) empty_msg)).
Proof.
  destruct (get_index_req (sample_client 4) (ctx_of 65543) empty_msg) as [r|e] eqn:E;
    [|discriminate].
  refine (proj1 (index_route_consistent (sample_client 4) (ctx_of 65543) empty_msg empty_msg
    empty_msg r eq_refl _ E)). exists 16384. reflexivity.
Defined.

(** With three index threads the write and the index update of one key name
    different threads. *)
Lemma index_route_differs :
  index_port (rmsg (put_value_req (sample_client 3) (ctx_of 65536) empty_msg)) <>
  index_port (rmsg (put_index_req (sample_client 3) (ctx_of 65536) empty_msg)).
Proof. vm_compute. discriminate. Qed.

(** ** Magic numbers *)

(** Every operation of a coroutine gets a magic number that is nonzero as
    a 16-bit value and differs, in the 8 bits a message carries, from the one
    before: the rpc id by which the switch matches an acknowledgement with the
    slot's claim is never that of the coroutine's previous operation. *)
Theorem magic_changes m :
  in_width 16 m ->
  0 < new_magic m < 2 ^ 16 /\ wrap 8 (new_magic m) <> wrap 8 m.
Proof.
  intros Hm. unfold in_width in Hm. unfold new_magic, wrap.
  destruct (Z.eqb_spec ((m + 1) mod 2 ^ 16) 0) as [E|E]; lia.
Qed.

Lemma magic_changes_witness : wrap 8 (new_magic 65535) <> wrap 8 65535.
Proof. refine (proj2 (magic_changes 65535 _)). unfold in_width. lia. Defined.

(** ** Flow control *)

(** The port of index thread [t]. *)
Lemma compute_port_value t :
  0 <= t < kConfigMaxThreadCnt -> compute_port t 0 = (t + 1) * 2 ^ 8.
Proof.
  unfold kConfigMaxThreadCnt, compute_port, kConfigMaxQPCnt. intros Ht.
  rewrite Z.shiftl_mul_pow2 by lia. rewrite wrap_small by (unfold in_width; lia). lia.
Qed.

(** after_process_reply files the switch's counter of index thread [t]
    under 8 + floor(log2(t + 1)), the logarithm of the thread's port, while
    cworker_new_request reads entry [t]: the two agree for thread 11 only. *)
Theorem flow_control_slot t :
  0 <= t < kConfigMaxThreadCnt ->
  let slot := buf_cnt_slot (toBigEndian16 (get_thread_port t 0)) in
  slot = 8 + Z.log2 (t + 1) /\ (slot = t <-> t = 11).
Proof.
  intros Ht slot. unfold kConfigMaxThreadCnt in Ht.
  assert (E : slot = 8 + Z.log2 (t + 1)).
  { unfold slot, buf_cnt_slot, get_thread_port.
    rewrite compute_port_value by (unfold kConfigMaxThreadCnt; lia).
    rewrite toBigEndian16_invol by lia.
    rewrite Z.log2_mul_pow2 by lia. lia. }
  split; [exact E|]. rewrite E.
  assert (Hin : t ∈ seqZ 0 48) by (apply elem_of_seqZ; lia).
  revert Hin. clear. intros Hin.
  assert (Hall : Forall (fun t => 8 + Z.log2 (t + 1) = t <-> t = 11) (seqZ 0 48)).
  { apply Forall_forall. intros y Hy. apply elem_of_seqZ in Hy.
    assert (Hl : y <= 14 \/ 15 <= y) by lia. destruct Hl as [Hl|Hl].
    - assert (Hy' : y = 0 \/ y = 1 \/ y = 2 \/ y = 3 \/ y = 4 \/ y = 5 \/ y = 6 \/ y = 7 \/
        y = 8 \/ y = 9 \/ y = 10 \/ y = 11 \/ y = 12 \/ y = 13 \/ y = 14) by lia.
      repeat (destruct Hy' as [->|Hy']; [by vm_compute|]). subst. by vm_compute.
    - split; [|lia]. intros E. pose proof (Z.log2_lt_pow2 (y + 1) 6 ltac:(lia)).
      assert (Z.log2 (y + 1) < 6) by (apply H; lia). lia. }
  rewrite Forall_forall in Hall. by apply Hall.
Qed.

Lemma flow_control_slot_witness :
  buf_cnt_slot (toBigEndian16 (get_thread_port 3 0)) = 10.
Proof.
  refine (proj1 (flow_control_slot 3 _)). unfold kConfigMaxThreadCnt. lia.
Defined.

(** ** Values: what one client puts, every client gets *)

Lemma data_thread_range f k : 0 <= get_data_thread_id_by_key f k < 2 ^ 8.
Proof. unfold get_data_thread_id_by_key. apply wrap_range. lia. Qed.

(** The payload of put_value's request. *)
Lemma put_value_payload c x m :
  in_width 64 (long_key x) -> 0 <= FLAGS_kv_size_b (cflags c) <= zlen (userbuf c) ->
  let p := payload (rmsg (put_value_req c x m)) in
  KvServer.log_size (cflags c) <= zlen p /\ take 8 p = key_bytes (long_key x) /\
  take (Z.to_nat (FLAGS_kv_size_b (cflags c))) (drop 8 p) =
    take (Z.to_nat (FLAGS_kv_size_b (cflags c))) (userbuf c).
Proof.
  intros Hk Hv p. unfold p, put_value_req, put_value; cbn [rmsg payload with_payload put_key].
  set (v := take (Z.to_nat (FLAGS_kv_size_b (cflags c))) (userbuf c)).
  assert (Hl : length v = Z.to_nat (FLAGS_kv_size_b (cflags c))).
  { unfold v, zlen in *. rewrite length_take. lia. }
  destruct (key_value_payload (payload m) (long_key x) v) as (H8 & Hval & Hlen).
  split_and!; [|exact H8|by rewrite Hl in Hval].
  unfold KvServer.log_size, sizeof_KvKeyType, zlen. lia.
Qed.

(** get_value's check of the key accepts a reply that carries the same key. *)
Lemma get_value_done_ok c x reply bs :
  msg_op reply = kEnumReadReply -> get_key reply = long_key x ->
  get_value (cflags c) reply = bs ->
  exists x', get_value_done c x reply = Done (x', bs) /\ read_ok x' = read_ok x.
Proof.
  intros Hop Hk <-. unfold get_value_done. rewrite Hop, Hk, (Z.eqb_refl (long_key x)).
  cbn [negb]. rewrite andb_false_r. cbn. eexists. split; [reflexivity|done].
Qed.

(** C6. The value path end to end: when client [c1] starts kv_test for a write
    and the data node thread its request names serves it, put_value accepts
    the reply and records a log id that names this thread; any client that
    then reads with that log id sends get_value to the same thread and is
    handed exactly the bytes [c1] put, with its key check passing. *)
Theorem value_roundtrip {I} `{IndexOps I} f (n : KvServer.node I) c1 x0 m1 st1 conf1 :
  cflags c1 = f -> KvServer.node_ok f n -> in_width 64 (long_key x0) ->
  FLAGS_kv_size_b f <= zlen (userbuf c1) -> FLAGS_logspace f <= FLAGS_keyspace f ->
  zget (server_config f) (server_id c1) = Some conf1 ->
  let x1 := begin_op x0 kEnumW in
  let req := put_value_req c1 x1 m1 in
  (to_thread req + 1) * FLAGS_keyspace f <= 2 ^ 32 ->
  kv_test_start c1 x0 kEnumW m1 = Done (Waiting x1 InPutValue req) /\
  exists r n' size x1',
    KvServer.serve f (to_thread req) n (rmsg req) st1 = Done (r, n', size) /\
    put_value_done x1 r = Done x1' /\
    forall c2 x2 m2 st2 conf2,
      cflags c2 = f -> zget (server_config f) (server_id c2) = Some conf2 ->
      long_key x2 = long_key x0 -> clog_id x2 = clog_id x1' ->
      KvServer.log_size f <= zlen (payload st2) ->
      let rd := get_value_req c2 x2 m2 in
      to_thread rd = to_thread req /\
      exists r2 x2',
        KvServer.serve f (to_thread rd) n' (rmsg rd) st2 =
          Done (r2, n', get_size f kEnumReadReply) /\
        get_value_done c2 x2 r2 =
          Done (x2', take (Z.to_nat (FLAGS_kv_size_b f)) (userbuf c1)) /\
        read_ok x2' = read_ok x2.
Proof.
  intros Hf [O Hts] Hk Hv Hsp Hc1 x1 req Hth. split; [done|].
  pose proof (KvServer.ok_size _ _ O) as Hsz. subst f.
  destruct (put_value_payload c1 x1 m1 Hk ltac:(lia)) as (Hlen & H8 & Hval).
  change (payload (rmsg (put_value_req c1 x1 m1))) with (payload (rmsg req)) in *.
  assert (Hreq : msg_op (rmsg req) = kEnumAppendReq) by done.
  assert (Hsk : 0 <= switch_key (rmsg req) < 2 ^ 16) by apply switch_key_range.
  assert (Hthr : 0 <= to_thread req < 2 ^ 8) by apply data_thread_range.
  assert (Hspec := fun rreq rst rconf => KvServer.append_read_spec (cflags c1) (to_thread req) n
    (rmsg req) st1 conf1 rreq rst rconf O Hreq Hc1 Hsk (Hts _) Hlen Hsp (proj1 Hthr) Hth).
  destruct (Hspec empty_msg empty_msg conf1) as (r & n' & size & Hs & He & _ & _ & Htid & _).
  assert (Hkey : key r = ckey x1).
  { destruct He as [-> _]. cbn. apply wrap_small.
    pose proof (fingerprint_range (long_key x0)). unfold in_width. lia. }
  eexists r, n', size, _. split; [exact Hs|]. unfold put_value_done.
  rewrite Hkey, Z.eqb_refl. split; [reflexivity|]. cbn [clog_id].
  intros c2 x2 m2 st2 conf2 Hf2 Hc2 Hk2 Hl2 Hst2. set (rd := get_value_req c2 x2 m2).
  assert (Hto : to_thread rd = to_thread req).
  { unfold rd. cbn [to_thread get_value_req]. rewrite Hf2, Hl2, Htid.
    apply wrap_small. exact Hthr. }
  split; [exact Hto|]. rewrite Hto.
  destruct (Hspec (rmsg rd) st2 conf2) as (r' & nn & sz & Hs' & _ & _ & _ & _ & Hread).
  rewrite Hs in Hs'. injection Hs' as <- <- <-.
  destruct (Hread eq_refl Hl2 Hc2 Hst2) as (r2 & Hs2 & _ & Hop2 & Hlog).
  assert (Hlog' : take (Z.to_nat (KvServer.log_size (cflags c1))) (payload r2) =
                  take (Z.to_nat (KvServer.log_size (cflags c1))) (payload (rmsg req))) by exact Hlog.
  assert (Hn : Z.to_nat (KvServer.log_size (cflags c1)) =
               (8 + Z.to_nat (FLAGS_kv_size_b (cflags c1)))%nat).
  { unfold KvServer.log_size, sizeof_KvKeyType. lia. }
  rewrite Hn in Hlog'.
  assert (Hval2 : get_value (cflags c2) r2 =
                  take (Z.to_nat (FLAGS_kv_size_b (cflags c1))) (userbuf c1)).
  { unfold get_value. rewrite Hf2, <- Hval, !take_drop_commute. by rewrite Hlog'. }
  assert (Hkey2 : get_key r2 = long_key x2).
  { unfold get_key. rewrite Hk2, <- (key_bytes_value _ Hk).
    change (long_key x0) with (long_key x1). rewrite <- H8.
    f_equal. apply (f_equal (take 8)) in Hlog'. rewrite !take_take in Hlog'.
    by rewrite Nat.min_l in Hlog' by lia. }
  destruct (get_value_done_ok c2 x2 r2 _ Hop2 Hkey2 Hval2) as (x2' & Hd & Hro).
  exists r2, x2'. split_and!; done.
Qed.

Lemma value_roundtrip_witness :
  exists req, kv_test_start (sample_client 1) (ctx_of 42) kEnumW empty_msg =
    Done (Waiting (begin_op (ctx_of 42) kEnumW) InPutValue req).
Proof.
  eexists.
  refine (proj1 (value_roundtrip KvServer.tiny_flags KvServer.sample_node (sample_client 1)
    (ctx_of 42) empty_msg empty_msg (mkServer 2 1 1 21 1 ens6 136) eq_refl _ _ _ _ eq_refl _)).
  - split; [apply KvServer.init_ok; vm_compute; congruence|].
    intros k. change (KvServer.tss_get _ k) with 1. unfold in_width. lia.
  - unfold in_width. cbn. lia.
  - vm_compute. congruence.
  - vm_compute. congruence.
  - vm_compute. congruence.
Defined.
End KvClient.
