(* ===== verification/FsMessageModel.v ===== *)
(** * apps/fs: messages, paths and configuration

    [Module FsMessage] models include/pkt.h (the header RawVMsg and the structs
    behind it), config() of fs.cc, the choice of threads in include/fsrpc.h, and
    correct() and fill_raw_header() of src/octopus_client.cc.  A struct that a
    message is cast to is a Record with the header as its field [raw]; the bytes
    behind DataBuffer and DataReadReply are a list. *)

From S2P Require Import Prelude BitmapModel HashTableModel FileSystemModel.
From S2P Require Import KvMessageModel KvServerModel KvClientModel.

Module FsMessage.

Import FileSystem.

(** ** enum RpcType of pkt.h *)
Definition kEnumReadReply : Z := 2.
Definition kEnumAppendReq : Z := 4.
Definition kEnumAppendReply : Z := 5.
Definition kEnumReadLog : Z := 6.
Definition ReplySwitch : Z := 10.
Definition kEnumUpdateIndexReq : Z := 11.
Definition kEnumUpdateIndexReply : Z := 12.
Definition kEnumReadIndexReply : Z := 13.
Definition kEnumReadIndexReq : Z := 14.
Definition kEnumMultiCastPkt : Z := 21.
Definition kEnumReadSend : Z := 22.
Definition kEnumFsMetaRead : Z := 25.
Definition kEnumFsCreate : Z := 26.

(** ** Structs *)

Record RawVMsg := mkRaw {
  rpc_header : KvMessage.RpcHeader;
  flag : Z; switch_key : Z; kv_g_id : Z; kv_c_id : Z; magic : Z;
  server_map : Z; qp_map : Z; coro_id : Z; key : Z; log_id : Z;
  route_port : Z; route_map : Z; client_port : Z; send_cnt : Z; index_port : Z;
  magic_in_switch : Z; timestamp : Z
}.

Record MetaReadReq := mkMetaReadReq {
  rr_raw : RawVMsg; rr_fei : file_extent_info; rr_meta_op : Z; rr_path : list Z }.
Record MetaReadReply := mkMetaReadReply {
  ra_raw : RawVMsg; ra_result : bool; ra_attribute : FileMeta }.
Record MetaUpdateReq := mkMetaUpdateReq {
  mu_raw : RawVMsg; mu_fei : file_extent_info; mu_path : list Z; mu_size : Z; mu_offset : Z }.
(** DataBuffer is a MetaUpdateReq with data behind it. *)
Record DataBuffer := mkDataBuffer { db_req : MetaUpdateReq; db_data : list Z }.
Record DataReadReq := mkDataReadReq {
  dr_raw : RawVMsg; dr_fei : file_extent_info; dr_path : list Z; dr_size : Z; dr_offset : Z }.
Record DataReadReply := mkDataReadReply { rd_raw : RawVMsg; rd_size : Z; rd_data : list Z }.
Record GeneralReceiveBuffer := mkGeneral { g_raw : RawVMsg; g_result : bool }.

(** sizeof of the packed structs. *)
Definition sizeof_RawVMsg : Z :=
  KvMessage.sizeof_RpcHeader +
  KvMessage.sum_widths [1; 2; 1; 1; 2; 2; 2; 8; 4; 8; 2; 2; 2; 2; 2; 2; 4].
Definition MAX_PATH_LENGTH : Z := 255.
Definition sizeof_file_extent_info : Z := 8 + 8 + MAX_MESSAGE_BLOCK_COUNT * 4.
Definition sizeof_MetaReadReq : Z := sizeof_RawVMsg + sizeof_file_extent_info + 4 + MAX_PATH_LENGTH.
Definition sizeof_MetaReadReply : Z := sizeof_RawVMsg + 1 + sizeof_FileMeta.
Definition sizeof_MetaUpdateReq : Z :=
  sizeof_RawVMsg + sizeof_file_extent_info + MAX_PATH_LENGTH + 8 + 8.
Definition sizeof_DataBuffer : Z := sizeof_MetaUpdateReq.
Definition sizeof_DataReadReq : Z := sizeof_MetaUpdateReq.
Definition sizeof_GeneralReceiveBuffer : Z := sizeof_RawVMsg + 1.

Definition kMaxDataSize : Z := BLOCK_SIZE.
(** DataBuffer::get_size and DataReadReply::get_size *)
Definition get_data_size (size : Z) : Z := wrap 32 (sizeof_DataBuffer + size).
Definition get_max_size : Z := sizeof_DataBuffer + kMaxDataSize.

(** The buffers config() asks for: on reliable connections and on raw packets. *)
Definition rc_msg_size : Z := get_max_size.
Definition raw_msg_size : Z := sizeof_MetaUpdateReq + sizeof_MetaReadReply.

Definition with_op (r : RawVMsg) (o : Z) : RawVMsg :=
  let h := rpc_header r in
  mkRaw (KvMessage.mkHeader (KvMessage.dst_s_id h) (KvMessage.src_s_id h) (KvMessage.src_t_id h)
           (KvMessage.src_c_id h) (KvMessage.local_id h) o (KvMessage.payload_size h))
    (flag r) (switch_key r) (kv_g_id r) (kv_c_id r) (magic r) (server_map r) (qp_map r)
    (coro_id r) (key r) (log_id r) (route_port r) (route_map r) (client_port r) (send_cnt r)
    (index_port r) (magic_in_switch r) (timestamp r).
Definition with_dst (r : RawVMsg) (d : Z) : RawVMsg :=
  let h := rpc_header r in
  mkRaw (KvMessage.mkHeader d (KvMessage.src_s_id h) (KvMessage.src_t_id h)
           (KvMessage.src_c_id h) (KvMessage.local_id h) (KvMessage.op h) (KvMessage.payload_size h))
    (flag r) (switch_key r) (kv_g_id r) (kv_c_id r) (magic r) (server_map r) (qp_map r)
    (coro_id r) (key r) (log_id r) (route_port r) (route_map r) (client_port r) (send_cnt r)
    (index_port r) (magic_in_switch r) (timestamp r).
Definition with_log_id (r : RawVMsg) (x : Z) : RawVMsg :=
  mkRaw (rpc_header r) (flag r) (switch_key r) (kv_g_id r) (kv_c_id r) (magic r) (server_map r)
    (qp_map r) (coro_id r) (key r) x (route_port r) (route_map r) (client_port r) (send_cnt r)
    (index_port r) (magic_in_switch r) (timestamp r).
Definition with_timestamp (r : RawVMsg) (x : Z) : RawVMsg :=
  mkRaw (rpc_header r) (flag r) (switch_key r) (kv_g_id r) (kv_c_id r) (magic r) (server_map r)
    (qp_map r) (coro_id r) (key r) (log_id r) (route_port r) (route_map r) (client_port r)
    (send_cnt r) (index_port r) (magic_in_switch r) x.

Definition op_of (r : RawVMsg) : Z := KvMessage.op (rpc_header r).

(** ** Configuration *)

(** server_config of fs.cc. *)
Definition server_config (f : KvMessage.flags) : list KvMessage.ServerConfig :=
  [ KvMessage.mkServer 0 (KvMessage.FLAGS_dn_thread f) 0 12 0 KvMessage.ens2 128;
    KvMessage.mkServer 1 (KvMessage.FLAGS_mn_thread f) 1 12 0 KvMessage.ens6 188;
    KvMessage.mkServer 2 1 1 12 1 KvMessage.ens6 136;
    KvMessage.mkServer 2 (KvMessage.FLAGS_c_thread f) 1 12 0 KvMessage.ens2 180;
    KvMessage.mkServer 2 (KvMessage.FLAGS_c_thread f) 1 12 1 KvMessage.ens6 172 ].

Definition get_data_server_id : Z := 0.
Definition get_index_server_id : Z := 1.
Definition get_data_thread_id (f : KvMessage.flags) (k : Z) : Z :=
  wrap 8 (wrap 32 k mod KvMessage.FLAGS_dn_thread f).
Definition get_index_thread_id (f : KvMessage.flags) (k : Z) : Z :=
  wrap 8 (wrap 32 k mod KvMessage.FLAGS_mn_thread f).

(** ** octopus_client.cc: correct *)

Definition at_ (p : list Z) (i : nat) : Z := default 0 (p !! i).

(** The loop: a slash before a slash is skipped; old_path[len] is the zero. *)
Fixpoint squeeze (p : list Z) : list Z :=
  match p with
  | [] => []
  | c :: p' =>
      if (c =? slash) && (at_ p' 0 =? slash) then squeeze p' else c :: squeeze p'
  end.

(** new_path[count - 1] of an empty path lies before the buffer. *)
Definition correct (old_path : list Z) : outcome (list Z) :=
  let new_path := squeeze old_path in
  let! c := load new_path (zlen new_path - 1) in
  let cut := if c =? slash then take (length new_path - 1) new_path else new_path in
  Done (if decide (cut = []) then [slash] else cut).

(** ** octopus_client.cc: fill_raw_header *)

(** struct FsCtx: the fields the operations use. *)
Record FsCtx := mkFsCtx {
  f_coro_id : Z; f_key : Z; f_magic : Z;
  f_file : list Z; f_hash : HashTable.UniqueHash;
  f_size : Z; f_offset : Z;
  f_data_s_id : Z; f_data_t_id : Z; f_index_s_id : Z; f_index_t_id : Z;
  f_index_in_switch : bool
}.

(** The members of FsRpc a request depends on. *)
Record fs_client := mkFsClient {
  fc_flags : KvMessage.flags; fc_server_id : Z; fc_thread_id : Z; fc_bitmap : Z }.

Definition all_ones (w : Z) : Z := 2 ^ w - 1.

(** [m] is the buffer's header before; server_map, qp_map, coro_id, log_id,
    route_port and magic_in_switch keep what it holds. *)
Definition fill_raw_header (c : fs_client) (m : RawVMsg) (x : FsCtx) : RawVMsg :=
  mkRaw (KvMessage.mkHeader (all_ones 8) (fc_server_id c) (fc_thread_id c) (f_coro_id x) 0 (all_ones 8) 0)
    (if KvMessage.FLAGS_visibility (fc_flags c) then KvMessage.visibility else 0)
    (KvMessage.get_switch_key (HashTable.value3 (f_hash x)))
    (wrap 8 (KvClient.compute_gid (fc_server_id c) (fc_thread_id c))) (f_coro_id x) (f_magic x)
    (server_map m) (qp_map m) (coro_id m) (wrap 32 (f_key x)) (log_id m) (route_port m)
    (fc_bitmap c) (KvMessage.toBigEndian16 (KvClient.get_thread_port (fc_thread_id c) 0)) 0
    (KvMessage.toBigEndian16 (KvClient.get_thread_port (f_index_t_id x) 0))
    (magic_in_switch m) 0.

(** ** Paths after correct *)

(** No two slashes in a row, and none at the end but in the root. *)
Fixpoint single_slashes (p : list Z) : bool :=
  match p with
  | [] => true
  | c :: p' => negb ((c =? slash) && (at_ p' 0 =? slash)) && single_slashes p'
  end.
Definition normal (p : list Z) : bool :=
  single_slashes p && (bool_decide (p = [slash]) || negb (default 0 (last p) =? slash)).

Lemma squeeze_head p : at_ (squeeze p) 0 = at_ p 0.
Proof.
  induction p as [|c p IH]; [done|]. cbn. destruct (Z.eqb_spec c slash) as [->|]; [|done].
  destruct (Z.eqb_spec (at_ p 0) slash) as [E|]; [|done]. cbn. by rewrite IH, E.
Qed.

Lemma squeeze_single p : single_slashes (squeeze p) = true.
Proof.
  induction p as [|c p IH]; [done|]. cbn. destruct (_ && _) eqn:E; [done|]. cbn.
  by rewrite squeeze_head, E, IH.
Qed.

Lemma squeeze_fix p : single_slashes p = true -> squeeze p = p.
Proof.
  induction p as [|c p IH]; [done|]. cbn. intros [E Hp]%andb_true_iff.
  apply negb_true_iff in E. by rewrite E, IH.
Qed.

Lemma squeeze_nil p : squeeze p = [] -> p = [].
Proof.
  induction p as [|c p IH]; [done|]. cbn. destruct (_ && _) eqn:E; [|done].
  intros ->%IH. by apply andb_true_iff in E as [_ E].
Qed.

Lemma single_take p n : single_slashes p = true -> single_slashes (take n p) = true.
Proof.
  revert n. induction p as [|c p IH]; intros [|n]; try done. cbn. intros [E Hp]%andb_true_iff.
  rewrite IH by done. rewrite andb_true_r. apply negb_true_iff in E. apply negb_true_iff.
  destruct (c =? slash); [|done]. destruct p as [|d p], n as [|n]; done.
Qed.

Lemma single_last p c d :
  single_slashes (p ++ [c; d]) = true -> (c =? slash) && (d =? slash) = false.
Proof.
  induction p as [|e p IH]; cbn.
  - destruct ((c =? slash) && (d =? slash)); done.
  - intros [_ Hp]%andb_true_iff. by apply IH.
Qed.

Lemma load_last (p : list Z) c : load (p ++ [c]) (zlen (p ++ [c]) - 1) = Done c.
Proof.
  apply load_in_range. unfold zget, zlen. rewrite length_app. cbn.
  rewrite decide_True by lia. replace (Z.to_nat _) with (length p) by lia.
  by rewrite list_lookup_middle.
Qed.

Lemma correct_unfold p : p <> [] -> exists q c, squeeze p = q ++ [c] /\
  correct p = Done (if c =? slash then (if decide (q = []) then [slash] else q) else q ++ [c]).
Proof.
  intros Hp. assert (Hs : squeeze p <> []) by (intros E; by apply Hp, squeeze_nil).
  destruct (exists_last Hs) as (q & c & E). exists q, c. split; [done|].
  unfold correct. rewrite E, load_last. cbn [obind]. rewrite length_app. cbn.
  replace (length q + 1 - 1)%nat with (length q) by lia.
  destruct (c =? slash); [by rewrite take_app_length|].
  rewrite decide_False; [done|]. by destruct q.
Qed.

Lemma normal_snoc q c : single_slashes (q ++ [c]) = true -> c <> slash -> normal (q ++ [c]) = true.
Proof.
  intros Hs Hc. unfold normal. rewrite Hs, last_snoc. cbn.
  apply orb_true_iff. right. apply negb_true_iff, Z.eqb_neq, Hc.
Qed.

Lemma correct_normal_path p : normal p = true -> p <> [] -> correct p = Done p.
Proof.
  intros [Hs Hl]%andb_true_iff Hp. destruct (correct_unfold p Hp) as (q & c & E & ->).
  rewrite squeeze_fix in E by done. subst p. rewrite last_snoc in Hl. cbn in Hl.
  destruct (Z.eqb_spec c slash) as [->|Hc]; [|done]. cbn in Hl. rewrite orb_false_r in Hl.
  apply bool_decide_eq_true in Hl. apply app_eq_unit in Hl as [[-> _]|[_ ?]]; done.
Qed.

(** ** Theorems *)

(** correct() computes the normal form of a path: for every path but the empty
    one, where it reads before its buffer, the result has no two slashes in a row
    and no slash at its end unless it is the root, a path in that form is its own
    result, and so correcting twice is correcting once. *)
Theorem correct_normalizes p :
  if decide (p = []) then correct p = Fault OutOfBounds
  else exists q, correct p = Done q /\ normal q = true /\ correct q = Done q /\
    (normal p = true -> q = p).
Proof.
  case_decide as Hp; [by subst|].
  assert (Hq : exists q, correct p = Done q /\ normal q = true /\ q <> []).
  { destruct (correct_unfold p Hp) as (q & c & E & ->).
    pose proof (squeeze_single p) as Hs. rewrite E in Hs. eexists. split; [reflexivity|].
    destruct (Z.eqb_spec c slash) as [->|Hc].
    - case_decide as Hq; [done|]. destruct (exists_last Hq) as (q' & d & ->). split; [|done].
      apply normal_snoc.
      + apply (single_take _ (length (q' ++ [d]))) in Hs. by rewrite take_app_length in Hs.
      + intros ->. rewrite <- app_assoc in Hs. by apply single_last in Hs.
    - split; [by apply normal_snoc|by destruct q]. }
  destruct Hq as (q & E & Hn & Hne). exists q. split_and!; [done..|by apply correct_normal_path|].
  intros Hnp. rewrite correct_normal_path in E by done. by injection E.
Qed.
End FsMessage.
