(* ===== verification/FsServerModel.v ===== *)
(** * apps/fs/include/fsrpc.h: the request handlers

    [Module FsServer] models server_batch_CPC, which data and index nodes of the
    file system run: a first loop answers each request into a send buffer, a second
    one finishes the replies of the batch and posts them.  The members of FsRpc it
    uses are the file system and the timestamps.  What the code leaves
    uninitialised (locals, the old content of the send buffer) is an argument,
    [scratch]. *)

From stdpp Require Import sorting.
From S2P Require Import Prelude BitmapModel HashTableModel TableModel TxModel FileSystemModel.
From S2P Require Import FsDataModel KvMessageModel KvServerModel KvClientModel FsMessageModel.

Module FsServer.

Import FileSystem FsMessage.

(** ** Requests and replies *)

(** A request is the struct its sender filled in; handlers cast it back. *)
Inductive request :=
  | QMetaRead (q : MetaReadReq)
  | QMetaUpdate (q : MetaUpdateReq)
  | QDataRead (q : DataReadReq)
  | QAppend (q : DataBuffer).

Definition req_raw (r : request) : RawVMsg :=
  match r with
  | QMetaRead q => rr_raw q
  | QMetaUpdate q => mu_raw q
  | QDataRead q => dr_raw q
  | QAppend q => mu_raw (db_req q)
  end.

(** A reply in its send buffer.  [PUpdate] has the first eight bytes behind the
    header, which the handler does not write. *)
Inductive reply :=
  | PMetaRead (m : MetaReadReply)
  | PMulticast (m : MetaUpdateReq)
  | PUpdate (m : RawVMsg) (rest : Z)
  | PData (m : DataReadReply)
  | PAppend (m : MetaUpdateReq).

Definition reply_raw (r : reply) : RawVMsg :=
  match r with
  | PMetaRead m => ra_raw m
  | PMulticast m | PAppend m => mu_raw m
  | PUpdate m _ => m
  | PData m => rd_raw m
  end.

Definition update_raw (f : RawVMsg -> RawVMsg) (m : MetaUpdateReq) : MetaUpdateReq :=
  mkMetaUpdateReq (f (mu_raw m)) (mu_fei m) (mu_path m) (mu_size m) (mu_offset m).
Definition map_raw (f : RawVMsg -> RawVMsg) (r : reply) : reply :=
  match r with
  | PMetaRead m => PMetaRead (mkMetaReadReply (f (ra_raw m)) (ra_result m) (ra_attribute m))
  | PMulticast m => PMulticast (update_raw f m)
  | PUpdate m x => PUpdate (f m) x
  | PData m => PData (mkDataReadReply (f (rd_raw m)) (rd_size m) (rd_data m))
  | PAppend m => PAppend (update_raw f m)
  end.

(** The queue pair a reply goes out on: the request's, or the one of
    rpc_get_qp(LOGRC or LOGRAW, server, thread, 0). *)
Inductive ret_qp := SameQp (qp_id : Z) | LogRc (s_id t_id : Z) | LogRaw (s_id t_id : Z).

(** struct batchEntry, with what the queue pair was told about the message. *)
Record batchEntry := mkEntry {
  qp : ret_qp; msg_size : Z; dst_port : Z; reply_addr : reply }.

(** get_key_addr: the eight bytes behind the header. *)
Definition key_at (r : reply) : Z :=
  match r with
  | PMetaRead m =>
      (if ra_result m then 1 else 0) + 256 * wrap 56 (timeLastModified (ra_attribute m))
  | PMulticast m | PAppend m => wrap 64 (e_timeLastModified (mu_fei m))
  | PUpdate _ x => x
  | PData m => rd_size m
  end.

Definition entry_lt (x y : batchEntry) : bool :=
  let kx := key_at (reply_addr x) in
  let ky := key_at (reply_addr y) in
  if kx =? ky
  then timestamp (reply_raw (reply_addr y)) <? timestamp (reply_raw (reply_addr x))
  else kx <? ky.

Definition entry_le (x y : batchEntry) : Prop := entry_lt y x = false.
#[export] Instance entry_le_dec : RelDecision entry_le.
Proof. intros x y. unfold entry_le. apply _. Defined.

(** Uninitialised storage a handler starts from.  [c_locals i] are the locals of
    its i-th call of the file system. *)
Record scratch := mkScratch {
  c_locals : nat -> locals; c_fpi : file_pos_info;
  c_result : bool; c_attribute : FileMeta; c_data : list Z; c_rest : Z
}.

(** ** Copies between a message and the blocks *)

Definition slice (l : list Z) (o n : Z) : outcome (list Z) :=
  if (0 <=? o) && (o + n <=? zlen l) then Done (take (Z.to_nat n) (drop (Z.to_nat o) l))
  else Fault OutOfBounds.
Definition paste (l : list Z) (o : Z) (bs : list Z) : outcome (list Z) :=
  if (0 <=? o) && (o + zlen bs <=? zlen l) then Done (blit l (Z.to_nat o) bs)
  else Fault OutOfBounds.

(** kEnumReadLog: blocks to message. *)
Fixpoint gather (fuel : nat) (blocks buf : list Z) (fpi : file_pos_info) (offset i : Z)
    : outcome (list Z) :=
  if i <? p_len fpi then
    match fuel with
    | O => Fault Diverges
    | S fuel' =>
        let! p := load (p_tuple fpi) i in
        let! bs := slice blocks (p_offset p) (p_size p) in
        let! buf' := paste buf offset bs in
        gather fuel' blocks buf' fpi (wrap 64 (offset + p_size p)) (i + 1)
    end
  else Done buf.

(** kEnumAppendReq: message to blocks. *)
Fixpoint scatter (fuel : nat) (blocks buf : list Z) (fpi : file_pos_info) (offset i : Z)
    : outcome (list Z) :=
  if i <? p_len fpi then
    match fuel with
    | O => Fault Diverges
    | S fuel' =>
        let! p := load (p_tuple fpi) i in
        let! bs := slice buf offset (p_size p) in
        let! blocks' := paste blocks (p_offset p) bs in
        scatter fuel' blocks' buf fpi (wrap 64 (offset + p_size p)) (i + 1)
    end
  else Done blocks.

Definition with_send_cnt (r : RawVMsg) (x : Z) : RawVMsg :=
  mkRaw (rpc_header r) (flag r) (switch_key r) (kv_g_id r) (kv_c_id r) (magic r) (server_map r)
    (qp_map r) (coro_id r) (key r) (log_id r) (route_port r) (route_map r) (client_port r) x
    (index_port r) (magic_in_switch r) (timestamp r).
(** route_port, and qp_map and server_map cleared. *)
Definition with_route (r : RawVMsg) (port : Z) : RawVMsg :=
  mkRaw (rpc_header r) (flag r) (switch_key r) (kv_g_id r) (kv_c_id r) (magic r) 0 0 (coro_id r)
    (key r) (log_id r) port (route_map r) (client_port r) (send_cnt r) (index_port r)
    (magic_in_switch r) (timestamp r).

Definition UINT64_MAX : Z := 2 ^ 64 - 1.

Section handlers.
Context {B : Type} `{PositionSet B}.
Context (CalculateDigest : list Z -> HashTable.UniqueHash) (DmfsBaseAddress : Z).

Record server := mkServer { fs : FileSystem.t B; ts_generator : gmap Z Z }.

Definition with_fs (s : server) (x : FileSystem.t B) : server := mkServer x (ts_generator s).

(** ** Opening a file *)

(** Both buffers are fresh; [n] counts the calls of the file system. *)
Fixpoint stack_mkdir (fuel : nat) (l : nat -> locals) (n : nat) (s : FileSystem.t B) (path : list Z)
    : outcome (nat * FileSystem.t B) :=
  match fuel with
  | O => Fault Diverges
  | S fuel' =>
      let parent := default [] (getParentDirectory (Some path) (Some [])).2 in
      let tmp := default [] (getParentDirectory (Some parent) (Some [])).2 in
      let! (found, s1) := access CalculateDigest (l n) s (Some tmp) in
      let! (n', s2) :=
        (if found : bool then Done (S n, s1) else stack_mkdir fuel' l (S n) s1 parent) in
      let! (_, s3) := mkdircd CalculateDigest DmfsBaseAddress (l n') s2 (Some parent) in
      Done (S n', s3)
  end.

(** The branch "open" of kEnumReadIndexReq. *)
Definition open_file (l : nat -> locals) (s : FileSystem.t B) (path : list Z)
    : outcome (bool * nat * FileSystem.t B) :=
  let! (found, s1) := access CalculateDigest (l 0%nat) s (Some path) in
  let! (found, n, s2) :=
    (if found : bool then Done (true, 1%nat, s1)
     else
       let! (found, s2) := mknodcd CalculateDigest DmfsBaseAddress (l 1%nat) s1 (Some path) in
       Done (found, 2%nat, s2)) in
  if found : bool then Done (true, n, s2)
  else
    let! (n', s3) := stack_mkdir (S (length path)) l n s2 path in
    let! (found, s4) := mknodcd CalculateDigest DmfsBaseAddress (l n') s3 (Some path) in
    Done (found, S n', s4).

(** ** The cases of the first loop *)

Definition read_index (c : scratch) (s : server) (q : MetaReadReq)
    : outcome (reply * server) :=
  let! (attribute, x) :=
    (if (rr_meta_op q =? kEnumFsCreate) || (rr_meta_op q =? kEnumFsMetaRead) then
       let! (_, n, x) := open_file (c_locals c) (fs s) (rr_path q) in
       let! (_, att, x') :=
         getattr CalculateDigest (c_locals c n) x (Some (rr_path q)) (Some (c_attribute c)) in
       Done (default (c_attribute c) att, x')
     else Done (c_attribute c, fs s)) in
  Done (PMetaRead (mkMetaReadReply (with_op (rr_raw q) kEnumReadIndexReply) (c_result c) attribute),
        with_fs s x).

Definition multicast (s : server) (q : MetaUpdateReq) : outcome (reply * server) :=
  Done (PMulticast (update_raw (fun r => with_op (with_log_id r 0) ReplySwitch) q), s).

Definition update_index (c : scratch) (s : server) (q : MetaUpdateReq)
    : outcome (reply * server) :=
  let! (_, x) := extentMetaWrite CalculateDigest (c_locals c 0%nat) (fs s) (Some (mu_path q))
                   (mu_size q) (mu_offset q) (Some (mu_fei q)) in
  Done (PUpdate (with_op (with_log_id (mu_raw q) 0) kEnumUpdateIndexReply) (c_rest c), with_fs s x).

(** file_pos_info fpi is not initialised, and extentRead does not set its len. *)
Definition read_log (c : scratch) (s : server) (q : DataReadReq) : outcome (reply * server) :=
  let! (_, fpi) := extentRead (dr_size q) (dr_offset q) (dr_fei q) (c_fpi c) in
  let! buf := gather loop_fuel (data (fs s)) (c_data c) fpi 0 0 in
  Done (PData (mkDataReadReply (with_op (dr_raw q) kEnumReadReply) (dr_size q) buf), s).

Definition append (c : scratch) (s : server) (b : DataBuffer) : outcome (reply * server) :=
  let q := db_req b in
  let! (tmpt, tss) := KvServer.next_nonzero 2 (ts_generator s) (switch_key (mu_raw q)) in
  let raw := with_timestamp (with_log_id (with_op (mu_raw q) kEnumAppendReply) UINT64_MAX) tmpt in
  let! (_, fpi, fei_out, x) :=
    extentWrite (c_locals c 0%nat) (fs s) (Some (mu_path q)) (mu_size q) (mu_offset q)
      (Some (c_fpi c)) (Some (mu_fei q)) (mu_fei q) in
  let! blocks := scatter loop_fuel (data x) (db_data b) (default (c_fpi c) fpi) 0 0 in
  Done (PAppend (mkMetaUpdateReq raw fei_out (mu_path q) (mu_size q) (mu_offset q)),
        mkServer (with_data x blocks) tss).

(** The switch: the reply, its size and queue pair, and whether a client waits
    for it.  Reading the bytes of one struct as another is not modelled; it
    faults. *)
Definition dispatch (c : scratch) (s : server) (qp_id : Z) (req : request)
    : outcome (reply * server * Z * ret_qp * bool) :=
  let h := rpc_header (req_raw req) in
  let s_id := KvMessage.src_s_id h in
  let t_id := KvMessage.src_t_id h in
  let o := KvMessage.op h in
  if o =? kEnumReadIndexReq then
    match req with
    | QMetaRead q =>
        let! (r, s') := read_index c s q in Done (r, s', sizeof_MetaReadReply, SameQp qp_id, true)
    | _ => Fault OutOfBounds
    end
  else if o =? kEnumMultiCastPkt then
    match req with
    | QMetaUpdate q =>
        let! (r, s') := multicast s q in
        Done (r, s', sizeof_GeneralReceiveBuffer, SameQp qp_id, false)
    | _ => Fault OutOfBounds
    end
  else if o =? kEnumUpdateIndexReq then
    match req with
    | QMetaUpdate q =>
        let! (r, s') := update_index c s q in
        Done (r, s', sizeof_GeneralReceiveBuffer, SameQp qp_id, true)
    | _ => Fault OutOfBounds
    end
  else if o =? kEnumReadLog then
    match req with
    | QDataRead q =>
        let! (r, s') := read_log c s q in
        Done (r, s', get_data_size (dr_size q), LogRc s_id t_id, true)
    | _ => Fault OutOfBounds
    end
  else if o =? kEnumAppendReq then
    match req with
    | QAppend q =>
        let! (r, s') := append c s q in Done (r, s', sizeof_MetaUpdateReq, LogRaw s_id t_id, true)
    | _ => Fault OutOfBounds
    end
  else Fault ProcessExit.

(** A work completion: the queue pair of the request, the request, the scratch. *)
Record completion := mkWc { w_qp : Z; w_req : request; w_scratch : scratch }.

Definition handle (s : server) (w : completion) : outcome (batchEntry * bool * server) :=
  let! (r, s', size, ret, onpath) := dispatch (w_scratch w) s (w_qp w) (w_req w) in
  let h := rpc_header (req_raw (w_req w)) in
  Done (mkEntry ret size (KvClient.get_thread_port (KvMessage.src_t_id h) (w_qp w))
          (map_raw (fun raw => with_dst raw (KvMessage.src_s_id h)) r), onpath, s').

Definition max_size (f : KvMessage.flags) : Z := KvServer.max_size f.

Fixpoint handle_all (f : KvMessage.flags) (s : server) (wcs : list completion)
    (batch : list batchEntry) (onpath : bool) : outcome (list batchEntry * bool * server) :=
  match wcs with
  | [] => Done (batch, onpath, s)
  | w :: wcs' =>
      let! (e, p, s') := handle s w in
      if zlen batch <? max_size f then handle_all f s' wcs' (batch ++ [e]) (onpath || p)
      else Fault OutOfBounds
  end.

(** ** The second loop *)

Definition finish_one (f : KvMessage.flags) (l : locals) (s : server) (e : batchEntry)
    : outcome (batchEntry * server) :=
  let r := map_raw (fun raw => with_send_cnt raw 0) (reply_addr e) in
  let o := op_of (reply_raw r) in
  let! (r', s') :=
    (if o =? kEnumReadIndexReply then Done (map_raw (fun raw => with_log_id raw 0) r, s)
     else if o =? ReplySwitch then
       match r with
       | PMulticast m =>
           let! (_, x) := extentMetaWrite CalculateDigest l (fs s) (Some (mu_path m))
                            (mu_size m) (mu_offset m) (Some (mu_fei m)) in
           Done (r, with_fs s x)
       | _ => Fault OutOfBounds
       end
     else Done (r, s)) in
  let! conf := of_option OutOfBounds
    (zget (server_config f) (KvMessage.dst_s_id (rpc_header (reply_raw r')))) in
  Done (mkEntry (qp e) (msg_size e) (dst_port e)
          (map_raw (fun raw => with_route raw (KvMessage.toBigEndian16 (KvMessage.port_id conf))) r'),
        s').

Fixpoint finish (f : KvMessage.flags) (l : nat -> locals) (s : server) (batch : list batchEntry)
    : outcome (list batchEntry * server) :=
  match batch with
  | [] => Done ([], s)
  | e :: batch' =>
      let! (e', s1) := finish_one f (l 0%nat) s e in
      let! (rest, s2) := finish f (fun i => l (S i)) s1 batch' in
      Done (e' :: rest, s2)
  end.

(** One iteration of the server loop: the batch that stays, the replies posted. *)
Definition keep_polling (f : KvMessage.flags) (server_type : Z) (batch : list batchEntry)
    (onpath : bool) : bool :=
  (zlen batch <? KvMessage.FLAGS_batch_size f) && negb onpath && (server_type =? 1) &&
  KvMessage.FLAGS_batch f.

(** std::sort by operator<; merge sort stands for its choice among equal entries. *)
Definition sorted_batch (f : KvMessage.flags) (server_type : Z) (batch : list batchEntry)
    : list batchEntry :=
  if (server_type =? 0) && KvMessage.FLAGS_batch f then merge_sort entry_le batch else batch.

Definition batch_round (f : KvMessage.flags) (server_type : Z) (l : nat -> locals) (s : server)
    (batch : list batchEntry) (wcs : list completion)
    : outcome (list batchEntry * list batchEntry * server) :=
  let! (batch1, onpath, s1) := handle_all f s wcs batch false in
  if keep_polling f server_type batch1 onpath then Done (batch1, [], s1)
  else
    let! (posted, s2) := finish f l s1 (sorted_batch f server_type batch1) in
    Done ([], posted, s2).
End handlers.
Arguments server B : clear implicits.

(** ** The file system under the handlers *)
Section refine.
Context {B : Type} `{PositionSet B}.
Context (CalculateDigest : list Z -> HashTable.UniqueHash) (DmfsBaseAddress : Z).
Context (capH capF capD nodes me : Z).

Notation hash := (HashTable.getUniqueHash CalculateDigest).
Notation address := HashTable.getAddressHash.
Notation local p := (is_local nodes me (hash p)).
Notation represents := (FileSystem.represents capH capF capD nodes me).
Notation has_room := (FileSystem.has_room capH capF capD).
Notation names := (gmap HashTable.UniqueHash node).

Definition abs_access (ns : names) (p : list Z) : bool :=
  local p && bool_decide (is_Some (ns !! hash p)).
Notation abs_mkdir := (FileSystem.abs_mkdir CalculateDigest nodes me).
Notation abs_mknod := (FileSystem.abs_mknod CalculateDigest nodes me).

Fixpoint abs_stack_mkdir (fuel : nat) (l : nat -> locals) (n : nat) (ns : names) (path : list Z)
    : outcome (nat * names) :=
  match fuel with
  | O => Fault Diverges
  | S fuel' =>
      let parent := parent_of path in
      let! (n', ns1) :=
        (if abs_access ns (parent_of parent) then Done (S n, ns)
         else abs_stack_mkdir fuel' l (S n) ns parent) in
      let! (_, ns2) := abs_mkdir (l n') ns1 parent in
      Done (S n', ns2)
  end.

Definition abs_open (l : nat -> locals) (ns : names) (path : list Z)
    : outcome (bool * nat * names) :=
  if abs_access ns path then Done (true, 1%nat, ns)
  else
    let! (made, ns1) := abs_mknod (l 1%nat) ns path in
    if made : bool then Done (true, 2%nat, ns1)
    else
      let! (n', ns2) := abs_stack_mkdir (S (length path)) l 2%nat ns1 path in
      let! (made, ns3) := abs_mknod (l n') ns2 path in
      Done (made, S n', ns3).

(** [c] does what [a] says and leaves room for [n] operations. *)
Definition sim {A} (n : Z) (c : outcome (A * FileSystem.t B)) (a : outcome (A * names)) : Prop :=
  match a with
  | Done (x, ns') => exists s', c = Done (x, s') /\ represents s' ns' /\ has_room s' ns' n
  | Fault f => c = Fault f
  end.

Lemma sim_done {A} n (x : A) (s : FileSystem.t B) ns : represents s ns -> has_room s ns n -> sim n (Done (x, s)) (Done (x, ns)).
Proof. intros R Hr. by exists s. Qed.

Lemma sim_bind {A C} n m (c : outcome (A * FileSystem.t B)) (a : outcome (A * names))
    (k : A * FileSystem.t B -> outcome (C * FileSystem.t B)) ka :
  sim n c a ->
  (forall x s ns, represents s ns -> has_room s ns n -> sim m (k (x, s)) (ka (x, ns))) ->
  sim m (obind c k) (obind a ka).
Proof.
  unfold sim at 1. intros Hc Hk. destruct a as [[x ns]|f]; [|by rewrite Hc].
  destruct Hc as (s & -> & R & Hr). by apply Hk.
Qed.

Lemma has_room_le (s : FileSystem.t B) ns n m : has_room s ns n -> m <= n -> has_room s ns m.
Proof. intros (? & ? & ? & ?) ?. split_and!; lia. Qed.

Lemma sim_exec (s : FileSystem.t B) ns o n c a :
  represents s ns -> 0 <= n -> has_room s ns (n + 1) -> garbage_ok o = true ->
  exec CalculateDigest DmfsBaseAddress s o = as_bool c ->
  abs_exec CalculateDigest nodes me ns o = as_bool a -> sim n c a.
Proof.
  intros R Hn Hr Hg Hc Ha.
  pose proof (fs_exec_refines CalculateDigest DmfsBaseAddress _ _ _ _ _ s ns o n R Hn Hr Hg) as E.
  rewrite Ha, Hc in E. unfold sim. destruct a as [[x ns']|f]; cbn in E.
  - destruct E as (s' & E & R' & Hr'). destruct c as [[y s'']|]; [|done]. cbn in E. simplify_eq. eauto.
  - destruct c as [[y s'']|]; cbn in E; by simplify_eq.
Qed.

Lemma sim_access {A} l (s : FileSystem.t B) ns p n m k (a : outcome (A * names)) :
  represents s ns -> 0 <= n -> has_room s ns (n + 1) ->
  (forall s, represents s ns -> has_room s ns n -> sim m (k (abs_access ns p, s)) a) ->
  sim m (obind (access CalculateDigest l s (Some p)) k) a.
Proof.
  intros R Hn Hr Hk.
  destruct (sim_exec s ns (OAccess l p) n (access CalculateDigest l s (Some p))
    (Done (abs_access ns p, ns))) as (s' & -> & R' & Hr'); try done. by apply Hk.
Qed.

Lemma sim_mknod l (s : FileSystem.t B) ns p n :
  represents s ns -> 0 <= n -> has_room s ns (n + 1) ->
  sim n (mknodcd CalculateDigest DmfsBaseAddress l s (Some p)) (abs_mknod l ns p).
Proof. intros. by apply (sim_exec s ns (OMknod l p)). Qed.

Lemma sim_mkdir l (s : FileSystem.t B) ns p n :
  represents s ns -> 0 <= n -> has_room s ns (n + 1) -> dir_ok (l_dir l) ->
  sim n (mkdircd CalculateDigest DmfsBaseAddress l s (Some p)) (abs_mkdir l ns p).
Proof.
  intros R Hn Hr Hd. apply (sim_exec s ns (OMkdir l p)); try done. by apply bool_decide_eq_true.
Qed.

Lemma sim_extents l (s : FileSystem.t B) ns p sz offset fei n :
  represents s ns -> 0 <= n -> has_room s ns (n + 1) ->
  sim n (extentMetaWrite CalculateDigest l s (Some p) sz offset (Some fei))
    (abs_extents CalculateDigest ns p sz offset fei).
Proof. intros. by apply (sim_exec s ns (OExtents l p sz offset fei)). Qed.

(** Two operations per level. *)
Lemma sim_stack_mkdir fuel l n (s : FileSystem.t B) ns p N :
  (forall i, dir_ok (l_dir (l i))) ->
  represents s ns -> 0 <= N -> has_room s ns (N + 2 * Z.of_nat fuel) ->
  sim N (stack_mkdir CalculateDigest DmfsBaseAddress fuel l n s p) (abs_stack_mkdir fuel l n ns p).
Proof.
  intros Hg. revert n s ns p N. induction fuel as [|fuel IH]; intros n s ns p N R HN Hr; [done|].
  cbn [stack_mkdir abs_stack_mkdir].
  change (default [] (getParentDirectory (Some ?q) (Some [])).2) with (parent_of q).
  apply (sim_access _ _ ns _ (N + 1 + 2 * Z.of_nat fuel)); [done|lia|eapply has_room_le; [done|lia]|].
  clear s R Hr. intros s R Hr. apply (sim_bind (N + 1)).
  - destruct (abs_access _ _).
    + apply sim_done; [done|]. eapply has_room_le; [done|lia].
    + apply IH; [done|lia|]. eapply has_room_le; [done|lia].
  - clear s ns R Hr. intros n' s ns R Hr. eapply sim_bind; [apply (sim_mkdir _ _ _ _ N); done|].
    intros ? ? ? ? ?. by apply sim_done.
Qed.

Lemma sim_open l (s : FileSystem.t B) ns p N :
  (forall i, dir_ok (l_dir (l i))) ->
  represents s ns -> 0 <= N -> has_room s ns (N + 5 + 2 * zlen p) ->
  sim N (open_file CalculateDigest DmfsBaseAddress l s p) (abs_open l ns p).
Proof.
  intros Hg R HN Hr. pose proof (zlen_nonneg p). unfold open_file, abs_open.
  apply (sim_access _ _ ns _ (N + 4 + 2 * zlen p)); [done|lia|eapply has_room_le; [done|lia]|].
  clear s R Hr. intros s R Hr. destruct (abs_access ns p).
  { cbn [obind]. apply sim_done; [done|]. eapply has_room_le; [done|lia]. }
  pose proof (sim_mknod (l 1%nat) s ns p (N + 3 + 2 * zlen p) R ltac:(lia)) as E.
  specialize (E ltac:(eapply has_room_le; [exact Hr|lia])). unfold sim in E.
  destruct (abs_mknod _ _ _) as [[made ns1]|f]; cbn [obind]; [|by rewrite E].
  destruct E as (s1 & -> & R1 & Hr1). cbn [obind]. destruct made.
  { apply sim_done; [done|]. eapply has_room_le; [done|lia]. }
  apply (sim_bind (N + 1)).
  { apply sim_stack_mkdir; [done|done|lia|]. eapply has_room_le; [done|]. unfold zlen. lia. }
  intros n' s2 ns2 R2 Hr2. eapply sim_bind; [apply (sim_mknod _ _ _ _ N); done|].
  intros ? ? ? ? ?. by apply sim_done.
Qed.

(** ** What opening a file makes *)

(** The directories on the way to a path. *)
Inductive above : list Z -> list Z -> Prop :=
  | above_parent p : p <> [slash] -> above p (parent_of p)
  | above_step p q : p <> [slash] -> above (parent_of p) q -> above p q.

Definition absolute (p : list Z) : Prop := exists r, p = slash :: r.

Lemma last_slash_spec p n :
  match last_slash p n with
  | Some i => (i < n)%nat /\ p !! i = Some slash
  | None => forall i, (i < n)%nat -> p !! i <> Some slash
  end.
Proof.
  induction n as [|n IH]; cbn; [lia|]. case_decide as E; [split; [lia|done]|].
  destruct (last_slash p n) as [i|].
  - destruct IH. split; [lia|done].
  - intros i Hi. destruct (decide (i = n)) as [->|]; [done|]. apply IH. lia.
Qed.

Lemma parent_shorter p :
  absolute p -> p <> [slash] ->
  absolute (parent_of p) /\ (length (parent_of p) < length p)%nat /\
  exists i, last_slash p (length p) = Some i.
Proof.
  intros [r ->] Hr. unfold parent_of, getParentDirectory. rewrite decide_False by done.
  pose proof (last_slash_spec (slash :: r) (length (slash :: r))) as Hs.
  destruct (last_slash _ _) as [i|].
  2:{ destruct (Hs 0%nat); cbn; [lia|done]. }
  destruct Hs as [Hi _]. cbn [snd default from_option id]. case_decide as E.
  - split_and!; [by exists []| |by eauto]. destruct r; [done|]. cbn. lia.
  - split_and!; [|rewrite length_take; lia|by eauto]. destruct i; [done|]. by eexists.
Qed.

Lemma above_shorter p q :
  absolute p -> above p q -> absolute q /\ (length q < length p)%nat.
Proof.
  intros Hp Ha. induction Ha as [p Hr|p q Hr Ha IH].
  - destruct (parent_shorter p Hp Hr) as (? & ? & _). done.
  - destruct (parent_shorter p Hp Hr) as (Hq & ? & _). destruct (IH Hq). split; [done|lia].
Qed.

(** A path this node can place: it and every directory above it belong to the node,
    lie in another bucket than their parent and have a name that fits, and no two
    of them have the same hash. *)
Record placeable (p : list Z) : Prop := {
  pl_absolute : absolute p;
  pl_not_root : p <> [slash];
  pl_local q : q = p \/ above p q -> local q = true;
  pl_bucket q : q = p \/ above p q -> q <> [slash] -> address (hash q) <> address (hash (parent_of q));
  pl_name q l : q = p \/ above p q -> q <> [slash] -> zlen (name_of l q) < MAX_FILE_NAME_LENGTH;
  pl_inj q r : q = p \/ above p q -> r = p \/ above p r -> hash q = hash r -> q = r
}.

(** What exists above it, the root among it, are directories with room for a name. *)
Definition has_way (ns : names) (p : list Z) : Prop := forall q, above p q ->
  match ns !! hash q with
  | Some (Dir d) => d_count d < MAX_DIRECTORY_COUNT
  | Some (File _) => False
  | None => q <> [slash]
  end.

Definition dirs_ok (ns : names) : Prop := forall h d, ns !! h = Some (Dir d) -> dir_ok d.

(** Adding a name to a directory with room. *)
Lemma with_parent_adds {ns : names} {p} {d : DirectoryMeta} l b k :
  dirs_ok ns -> p <> [slash] -> local p = true -> local (parent_of p) = true ->
  address (hash p) <> address (hash (parent_of p)) -> zlen (name_of l p) < MAX_FILE_NAME_LENGTH ->
  ns !! hash (parent_of p) = Some (Dir d) -> d_count d < MAX_DIRECTORY_COUNT ->
  abs_with_parent CalculateDigest nodes me ns p k = k (hash (parent_of p)) d /\
  exists d', add_name d (name_of l p) b = Done d' /\ dir_ok d'.
Proof.
  intros Hd Hr Hl Hlp Ha Hn Hns Hc. unfold abs_with_parent, dir_at. rewrite Hl, Hlp, Hns.
  cbn [negb andb]. rewrite (proj2 (Z.eqb_neq _ _)) by done. split; [done|].
  pose proof (add_name_spec CalculateDigest d (name_of l p) b (Hd _ _ Hns)) as S.
  rewrite (proj2 (Z.ltb_lt _ _) Hc), (proj2 (Z.ltb_lt _ _) Hn) in S.
  destruct S as (d' & ? & ? & _). eauto.
Qed.

(** The ancestors of an openable path, in an equal or a larger name space. *)
Definition usable (ns : names) (q : list Z) : Prop :=
  exists d, ns !! hash q = Some (Dir d) /\ d_count d < MAX_DIRECTORY_COUNT.

(** Files stay, directories stay directories. *)
Definition grows (ns ns' : names) : Prop := forall h,
  match ns !! h with
  | Some (File f) => ns' !! h = Some (File f)
  | Some (Dir _) => exists d, ns' !! h = Some (Dir d)
  | None => True
  end.

Lemma grows_refl ns : grows ns ns.
Proof. intros h. destruct (ns !! h) as [[]|]; eauto. Qed.

Lemma grows_trans ns1 ns2 ns3 : grows ns1 ns2 -> grows ns2 ns3 -> grows ns1 ns3.
Proof.
  intros H1 H2 h. specialize (H1 h). specialize (H2 h). destruct (ns1 !! h) as [[]|]; [| |done].
  - by rewrite H1 in H2.
  - destruct H1 as [d' E]. by rewrite E in H2.
Qed.

Lemma grows_new ns h n : ns !! h = None -> grows ns (<[h := n]> ns).
Proof.
  intros E h'. destruct (decide (h' = h)) as [->|Hne]; [by rewrite E|].
  rewrite lookup_insert_ne by done. apply grows_refl.
Qed.

Lemma grows_listing ns h d d' : ns !! h = Some (Dir d) -> grows ns (<[h := Dir d']> ns).
Proof.
  intros E h'. destruct (decide (h' = h)) as [->|Hne].
  - rewrite E, lookup_insert_eq. eauto.
  - rewrite lookup_insert_ne by done. apply grows_refl.
Qed.

Lemma placeable_parent p :
  placeable p -> parent_of p <> [slash] -> placeable (parent_of p).
Proof.
  intros O Hr. pose proof (pl_not_root _ O) as Hp.
  assert (Hsub : forall q, q = parent_of p \/ above (parent_of p) q -> above p q)
    by (intros q [->|?]; [by apply above_parent|by apply above_step]).
  split; try done.
  - by destruct (parent_shorter p (pl_absolute _ O) Hp).
  - intros q Hq. apply (pl_local _ O). auto.
  - intros q Hq. apply (pl_bucket _ O). auto.
  - intros q l Hq. apply (pl_name _ O). auto.
  - intros q r Hq Hq'. apply (pl_inj _ O); auto.
Qed.

Lemma mkdir_adds ns p l :
  placeable p -> dirs_ok ns -> dir_ok (l_dir l) -> usable ns (parent_of p) ->
  ns !! hash p = None ->
  exists ns', abs_mkdir l ns p = Done (true, ns') /\ dirs_ok ns' /\ usable ns' p /\ grows ns ns' /\
    forall h, h <> hash p -> h <> hash (parent_of p) -> ns' !! h = ns !! h.
Proof.
  intros O Hd Hg (d & Ep & Hc) Hnone. pose proof (pl_not_root _ O) as Hr.
  assert (Hup : above p (parent_of p)) by by apply above_parent.
  unfold FileSystem.abs_mkdir.
  edestruct (with_parent_adds (ns := ns) (p := p) (d := d) l true) as (-> & d' & E & Hd'); [done|done|..].
  1,2: apply (pl_local _ O); auto.
  1: apply (pl_bucket _ O); auto.
  1: apply (pl_name _ O); auto.
  1,2: done.
  rewrite Hnone, E. cbn [obind]. eexists. split; [reflexivity|].
  assert (Hne : hash p <> hash (parent_of p)) by (intros E'; by rewrite <- E', Hnone in Ep).
  split_and!.
  - intros h e. rewrite !lookup_insert_Some. intros [[_ [= <-]]|[_ [[_ [= <-]]|[_ ?]]]];
      [by apply new_dir_ok|done|eauto].
  - eexists. by rewrite lookup_insert_eq.
  - eapply grows_trans; [by eapply grows_listing|]. apply grows_new. by rewrite lookup_insert_ne.
  - intros h H1 H2. by rewrite !lookup_insert_ne.
Qed.

Lemma stack_mkdir_makes fuel l n ns x :
  (forall i, dir_ok (l_dir (l i))) -> placeable x -> has_way ns x -> dirs_ok ns -> (length x < fuel)%nat ->
  parent_of x <> [slash] -> ns !! hash (parent_of x) = None ->
  exists n' ns', abs_stack_mkdir fuel l n ns x = Done (n', ns') /\ dirs_ok ns' /\
    usable ns' (parent_of x) /\ grows ns ns' /\
    forall h, (forall q, above x q -> h <> hash q) -> ns' !! h = ns !! h.
Proof.
  intros Hg. revert n ns x. induction fuel as [|fuel IH]; intros n ns x O Hw Hd Hf Hr Hnone; [lia|].
  cbn [abs_stack_mkdir]. pose proof (pl_not_root _ O) as Hxr.
  assert (Hxy : above x (parent_of x)) by by apply above_parent.
  set (y := parent_of x) in *. assert (Oy : placeable y) by by apply placeable_parent.
  assert (Hyt : above y (parent_of y)) by by apply above_parent.
  assert (Hxt : above x (parent_of y)) by by apply above_step.
  assert (Hnt : hash y <> hash (parent_of y)).
  { intros E. pose proof (pl_bucket _ O y) as Hb. rewrite E in Hb. by destruct Hb; [right|..]. }
  assert (Hpre : exists n1 ns1,
    (if abs_access ns (parent_of y) then Done (S n, ns) else abs_stack_mkdir fuel l (S n) ns y) =
      Done (n1, ns1) /\ dirs_ok ns1 /\ usable ns1 (parent_of y) /\ grows ns ns1 /\
    forall h, (forall q, above y q -> h <> hash q) -> ns1 !! h = ns !! h).
  { pose proof (Hw _ Hxt) as Ht. unfold abs_access.
    rewrite (pl_local _ O _ (or_intror Hxt)). cbn [andb].
    destruct (ns !! hash (parent_of y)) as [[f|d]|] eqn:E; [done| |].
    - rewrite bool_decide_eq_true_2 by eauto. eexists _, ns. split_and!; try done.
      + exists d. done.
      + apply grows_refl.
    - rewrite bool_decide_eq_false_2 by (by intros []).
      apply IH; try done.
      { intros q Hq. apply Hw. by apply above_step. }
      destruct (above_shorter x y (pl_absolute _ O) Hxy). lia. }
  destruct Hpre as (n1 & ns1 & -> & Hd1 & Hu1 & Hgr1 & Hfr1). cbn [obind].
  assert (Hy1 : ns1 !! hash y = None).
  { rewrite Hfr1; [done|]. intros q Hq E.
    assert (y = q) as <- by (apply (pl_inj _ O); [by right|right; by apply above_step|done]).
    destruct (above_shorter y y (pl_absolute _ Oy) Hq). lia. }
  destruct (mkdir_adds ns1 y (l n1) Oy Hd1 (Hg _) Hu1 Hy1) as (ns2 & -> & Hd2 & Hu2 & Hgr2 & Hfr2).
  cbn [obind]. eexists _, ns2. split_and!; try done.
  - by eapply grows_trans.
  - intros h Hh. rewrite Hfr2 by auto. apply Hfr1. intros q Hq. apply Hh. by apply above_step.
Qed.

Lemma mknod_adds ns p l :
  placeable p -> dirs_ok ns -> usable ns (parent_of p) -> ns !! hash p = None ->
  abs_mknod l ns p = Done (true, <[hash p := File (new_file l)]> ns).
Proof.
  intros O Hd (d & Ep & Hc) Hnone. pose proof (pl_not_root _ O) as Hr.
  assert (Hup : above p (parent_of p)) by by apply above_parent.
  unfold FileSystem.abs_mknod.
  edestruct (with_parent_adds (ns := ns) (p := p) (d := d) l (l_isDirectory l))
    as (-> & d' & E & Hd'); [done|done|..].
  1,2: apply (pl_local _ O); auto.
  1: apply (pl_bucket _ O); auto.
  1: apply (pl_name _ O); auto.
  1,2: done.
  by rewrite Hnone, E.
Qed.

Lemma open_makes l ns p :
  (forall i, dir_ok (l_dir (l i))) -> placeable p -> has_way ns p -> dirs_ok ns ->
  exists n ns', abs_open l ns p = Done (true, n, ns') /\ grows ns ns' /\
    (forall h, h <> hash p -> (forall q, above p q -> h <> hash q) -> ns' !! h = ns !! h) /\
    match ns !! hash p with
    | Some _ => ns' = ns
    | None => exists l', ns' !! hash p = Some (File (new_file l'))
    end.
Proof.
  intros Hg O Hw Hd. unfold abs_open, abs_access. pose proof (pl_not_root _ O) as Hr.
  assert (Hup : above p (parent_of p)) by by apply above_parent.
  rewrite (pl_local _ O p) by auto. cbn [andb]. destruct (ns !! hash p) as [x|] eqn:Ep.
  { rewrite bool_decide_eq_true_2 by eauto. eexists _, ns. split_and!; [done|apply grows_refl|done..]. }
  rewrite bool_decide_eq_false_2 by (by intros []).
  pose proof (Hw _ Hup) as Hpar. destruct (ns !! hash (parent_of p)) as [[f|d]|] eqn:E; [done| |].
  - rewrite mknod_adds by (done || by exists d). cbn [obind].
    eexists _, _. split; [reflexivity|]. split; [by apply grows_new|]. split.
    + intros h Hne _. by rewrite lookup_insert_ne.
    + eexists. by rewrite lookup_insert_eq.
  - assert (abs_mknod (l 1%nat) ns p = Done (false, ns)) as ->.
    { unfold FileSystem.abs_mknod, abs_with_parent, dir_at.
      rewrite (pl_local _ O p), (pl_local _ O (parent_of p)), E by auto. cbn [negb andb].
      rewrite (proj2 (Z.eqb_neq _ _)); [done|]. apply not_eq_sym, (pl_bucket _ O); auto. }
    cbn [obind].
    destruct (stack_mkdir_makes (S (length p)) l 2 ns p) as (n2 & ns2 & -> & Hd2 & Hu2 & Hgr & Hfr);
      try done; [lia|]. cbn [obind].
    rewrite mknod_adds; try done.
    2:{ rewrite Hfr; [done|]. intros q Hq Eq.
        assert (p = q) as <- by (apply (pl_inj _ O); auto).
        destruct (above_shorter p p (pl_absolute _ O) Hq). lia. }
    cbn [obind]. eexists _, _. split; [reflexivity|].
    assert (E2 : ns2 !! hash p = None).
    { rewrite Hfr; [done|]. intros q Hq Eq.
      assert (p = q) as <- by (apply (pl_inj _ O); auto).
      destruct (above_shorter p p (pl_absolute _ O) Hq). lia. }
    split; [eapply grows_trans; [done|by apply grows_new]|]. split.
    + intros h Hne Hh. rewrite lookup_insert_ne by done. by apply Hfr.
    + eexists. by rewrite lookup_insert_eq.
Qed.

Lemma represents_dirs_ok (s : FileSystem.t B) ns : represents s ns -> dirs_ok ns.
Proof.
  intros (m & files & dirs & R & L) h d E. rewrite (li_ns _ _ _ _ L) in E.
  destruct (m !! h) as [[i [|]]|]; unfold meta_of in E; cbn in E; [| |done].
  - destruct (dirs !! i) eqn:Ei; [|done]. simplify_eq/=. by eapply (rp_dir_ok _ _ _ _ _ _ _ _ _ _ R).
  - by destruct (files !! i).
Qed.

Lemma read_index_opens (s : server B) ns c q :
  let p := rr_path q in
  represents (fs s) ns -> has_room (fs s) ns (6 + 2 * zlen p) ->
  (forall i, dir_ok (l_dir (c_locals c i))) -> placeable p -> has_way ns p ->
  rr_meta_op q = kEnumFsCreate \/ rr_meta_op q = kEnumFsMetaRead ->
  exists m x ns' n, read_index CalculateDigest DmfsBaseAddress c s q =
      Done (PMetaRead m, mkServer x (ts_generator s)) /\
    represents x ns' /\ ns' !! hash p = Some n /\
    op_of (ra_raw m) = kEnumReadIndexReply /\ ra_attribute m = attributes n (c_attribute c) /\
    grows ns ns' /\
    (forall h, h <> hash p -> (forall q, above p q -> h <> hash q) -> ns' !! h = ns !! h) /\
    match ns !! hash p with
    | Some n0 => n = n0 /\ ns' = ns
    | None => exists f, n = File f /\ size f = 0 /\ count f = 0
    end.
Proof.
  intros p R Hr Hg O Hw Hop. pose proof (zlen_nonneg p).
  pose proof (sim_open (c_locals c) (fs s) ns p 1 Hg R ltac:(lia)) as S.
  specialize (S ltac:(eapply has_room_le; [exact Hr|lia])).
  destruct (open_makes (c_locals c) ns p Hg O Hw (represents_dirs_ok _ _ R))
    as (n' & ns' & E & Hgr & Hfr & Hn). rewrite E in S. destruct S as (x & Ex & (m & files & dirs & Rx & L) & _).
  unfold read_index. fold p.
  assert ((rr_meta_op q =? kEnumFsCreate) || (rr_meta_op q =? kEnumFsMetaRead) = true) as ->
    by (apply orb_true_iff; rewrite !Z.eqb_eq; done).
  rewrite Ex. cbn [obind].
  destruct (simulates_represents _ _ _ _ _ _ _ _ _
    (getattr_spec CalculateDigest _ _ _ _ _ (c_locals c n') x ns' m files dirs p (c_attribute c) Rx L))
    as (x' & Ex' & Rx'). rewrite Ex'. cbn [obind].
  unfold abs_getattr. rewrite (pl_local _ O p) by auto.
  assert (Hs : exists n, ns' !! hash p = Some n /\
    match ns !! hash p with Some n0 => n = n0 /\ ns' = ns | None => exists f, n = File f /\ size f = 0 /\ count f = 0 end).
  { destruct (ns !! hash p) as [n0|] eqn:En; [subst ns'; eauto|].
    destruct Hn as [l' El]. eexists. split; [exact El|]. by eexists. }
  destruct Hs as (n & En & Hn'). rewrite En. cbn [snd default from_option id].
  eexists _, x', ns', n. split; [reflexivity|]. split_and!; done.
Qed.

(** C20. Opening a file: kEnumReadIndexReq answers every request for a path the
    node can place with kEnumReadIndexReply and the attributes the path then has;
    when the path did not exist, stack_mkdir ends after it has made the missing
    directories and the path is a new file of size zero; a file that existed keeps
    its meta, a directory stays one, and no other path changes. *)
Theorem open_creates_path (s : server B) ns c q :
  let p := rr_path q in
  represents (fs s) ns -> has_room (fs s) ns (6 + 2 * zlen p) ->
  (forall i, dir_ok (l_dir (c_locals c i))) -> placeable p -> has_way ns p ->
  rr_meta_op q = kEnumFsCreate \/ rr_meta_op q = kEnumFsMetaRead ->
  exists m x ns' n, read_index CalculateDigest DmfsBaseAddress c s q =
      Done (PMetaRead m, mkServer x (ts_generator s)) /\
    represents x ns' /\ ns' !! hash p = Some n /\
    op_of (ra_raw m) = kEnumReadIndexReply /\ ra_attribute m = attributes n (c_attribute c) /\
    grows ns ns' /\
    (forall h, h <> hash p -> (forall q, above p q -> h <> hash q) -> ns' !! h = ns !! h) /\
    match ns !! hash p with
    | Some n0 => n = n0 /\ ns' = ns
    | None => exists f, n = File f /\ size f = 0 /\ count f = 0
    end.
Proof. intros p. apply read_index_opens. Qed.
End refine.

(** ** Batches of multicast updates on the index node *)
Section multicasts.
Context {B : Type} `{PositionSet B}.
Context (CalculateDigest : list Z -> HashTable.UniqueHash) (DmfsBaseAddress : Z).
Context (capH capF capD nodes me : Z) (f : KvMessage.flags).

Notation represents := (FileSystem.represents capH capF capD nodes me).
Notation has_room := (FileSystem.has_room capH capF capD).

(** An update the switch multicast to the index node. *)
Record update := mkUpdate { u_qp : Z; u_req : MetaUpdateReq; u_scratch : scratch }.

Definition src_of (u : update) : Z := KvMessage.src_s_id (rpc_header (mu_raw (u_req u))).
Definition is_multicast (u : update) : Prop :=
  op_of (mu_raw (u_req u)) = kEnumMultiCastPkt /\ 0 <= src_of u < zlen (server_config f).
Definition completion_of (u : update) : completion :=
  mkWc (u_qp u) (QMetaUpdate (u_req u)) (u_scratch u).
Definition extents_of (l : locals) (u : update) : op :=
  let q := u_req u in OExtents l (mu_path q) (mu_size q) (mu_offset q) (mu_fei q).

(** Its entry in the batch, and the acknowledgement that is posted. *)
Definition entry_of (u : update) : batchEntry :=
  mkEntry (SameQp (u_qp u)) sizeof_GeneralReceiveBuffer
    (KvClient.get_thread_port (KvMessage.src_t_id (rpc_header (mu_raw (u_req u)))) (u_qp u))
    (PMulticast (update_raw (fun r => with_dst (with_op (with_log_id r 0) ReplySwitch) (src_of u))
                   (u_req u))).
Definition acknowledges (u : update) (e : batchEntry) : Prop :=
  qp e = SameQp (u_qp u) /\ op_of (reply_raw (reply_addr e)) = ReplySwitch /\
  KvMessage.dst_s_id (rpc_header (reply_raw (reply_addr e))) = src_of u /\
  key (reply_raw (reply_addr e)) = key (mu_raw (u_req u)) /\
  timestamp (reply_raw (reply_addr e)) = timestamp (mu_raw (u_req u)) /\
  log_id (reply_raw (reply_addr e)) = 0.

Lemma handle_multicast (s : server B) u :
  is_multicast u ->
  handle CalculateDigest DmfsBaseAddress s (completion_of u) = Done (entry_of u, false, s).
Proof.
  intros [Ho _]. unfold handle, dispatch. cbn [completion_of w_req w_scratch w_qp req_raw].
  change (KvMessage.op (rpc_header (mu_raw (u_req u)))) with (op_of (mu_raw (u_req u))).
  by rewrite Ho.
Qed.

Lemma handle_multicasts (s : server B) us batch p :
  Forall is_multicast us -> zlen batch + zlen us <= max_size f ->
  handle_all CalculateDigest DmfsBaseAddress f s (completion_of <$> us) batch p =
    Done (batch ++ (entry_of <$> us), p, s).
Proof.
  intros Hu. revert batch. induction Hu as [|u us Hu _ IH]; intros batch Hl; cbn [fmap list_fmap handle_all].
  - by rewrite app_nil_r.
  - rewrite handle_multicast by done. cbn [obind]. rewrite zlen_cons in Hl.
    pose proof (zlen_nonneg us). rewrite (proj2 (Z.ltb_lt _ _)) by lia.
    rewrite orb_false_r, IH, <- app_assoc; [done|].
    unfold zlen in *. rewrite length_app. cbn. lia.
Qed.

Lemma finish_multicast l (s : server B) ns u n :
  is_multicast u -> represents (fs s) ns -> 0 <= n -> has_room (fs s) ns (n + 1) ->
  match abs_exec CalculateDigest nodes me ns (extents_of l u) with
  | Done (_, ns') => exists e x, finish_one CalculateDigest f l s (entry_of u) =
      Done (e, mkServer x (ts_generator s)) /\ acknowledges u e /\ represents x ns' /\ has_room x ns' n
  | Fault z => finish_one CalculateDigest f l s (entry_of u) = Fault z
  end.
Proof.
  intros [Ho Hs] R Hn Hr. unfold finish_one. cbn [entry_of reply_addr map_raw update_raw reply_raw mu_raw].
  change (op_of _ =? kEnumReadIndexReply) with false. change (op_of _ =? ReplySwitch) with true. cbn iota.
  repeat change (mu_path (update_raw ?g ?x)) with (mu_path x).
  repeat change (mu_size (update_raw ?g ?x)) with (mu_size x).
  repeat change (mu_offset (update_raw ?g ?x)) with (mu_offset x).
  repeat change (mu_fei (update_raw ?g ?x)) with (mu_fei x).
  cbn [extents_of abs_exec]. set (q := u_req u).
  pose proof (sim_extents CalculateDigest 0 capH capF capD nodes me l (fs s) ns (mu_path q) (mu_size q)
    (mu_offset q) (mu_fei q) n R Hn Hr) as S. unfold sim in S. unfold as_bool.
  destruct (abs_extents _ _ _ _ _ _) as [[b ns']|z]; cbn [obind]; [|by rewrite S].
  destruct S as (x & -> & R' & Hr'). cbn [obind].
  cbn [reply_raw].
  change (KvMessage.dst_s_id (rpc_header (mu_raw (update_raw _ (update_raw _ q))))) with (src_of u).
  destruct (zget_is_Some _ _ Hs) as [conf Ec]. rewrite Ec. cbn [of_option obind].
  eexists _, x. split; [reflexivity|]. split; [|done]. by split_and!.
Qed.

Lemma finish_multicasts l (s : server B) ns us :
  Forall is_multicast us -> represents (fs s) ns -> has_room (fs s) ns (zlen us) ->
  match abs_run CalculateDigest nodes me ns (extents_of (l 0%nat) <$> us) with
  | Done (_, ns') => exists es x, finish CalculateDigest f l s (entry_of <$> us) =
      Done (es, mkServer x (ts_generator s)) /\ Forall2 acknowledges us es /\ represents x ns'
  | Fault z => finish CalculateDigest f l s (entry_of <$> us) = Fault z
  end.
Proof.
  intros Hu. revert l s ns. induction Hu as [|u us Hu _ IH]; intros l s ns R Hr; cbn [fmap list_fmap finish abs_run].
  { exists [], (fs s). split_and!; [by destruct s|constructor|done]. }
  rewrite zlen_cons in Hr. pose proof (zlen_nonneg us).
  pose proof (finish_multicast (l 0%nat) s ns u (zlen us) Hu R ltac:(lia) Hr) as E.
  destruct (abs_exec _ _ _ _ _) as [[r ns1]|z]; cbn [obind]; [|by rewrite E].
  destruct E as (e & x & -> & He & R1 & Hr1). cbn [obind].
  specialize (IH (fun i => l (S i)) (mkServer x (ts_generator s)) ns1 R1 Hr1). cbn beta in IH.
  assert (Eabs : forall l1 l2 ns, abs_run CalculateDigest nodes me ns (extents_of l1 <$> us) =
    abs_run CalculateDigest nodes me ns (extents_of l2 <$> us)).
  { clear. intros l1 l2. induction us as [|u us IH]; intros ns; [done|].
    cbn [fmap list_fmap abs_run]. change (abs_exec CalculateDigest nodes me ns (extents_of l1 u)) with
      (abs_exec CalculateDigest nodes me ns (extents_of l2 u)).
    destruct (abs_exec _ _ _ _ _) as [[r ns1]|]; [|done]. cbn [obind]. by rewrite IH. }
  rewrite (Eabs (l 0%nat) (l 1%nat)).
  destruct (abs_run _ _ _ _ _) as [[rs ns2]|z]; cbn [obind]; [|by rewrite IH].
  destruct IH as (es & x' & -> & Hes & R2). cbn [obind]. eexists (e :: es), x'.
  split_and!; [done|by constructor|done].
Qed.

(** C35. Updates the switch multicasts are collected and applied in batches: with
    FLAGS_batch, fewer than FLAGS_batch_size of them leave the file system as it is
    and nothing is posted; otherwise they are applied in the order of their arrival,
    whatever their timestamps (only the data node sorts its batch), each is
    acknowledged to the node it came from with ReplySwitch, its key and its
    timestamp, and the batch is empty again. *)
Theorem multicasts_in_order l (s : server B) ns us :
  represents (fs s) ns -> has_room (fs s) ns (zlen us) -> Forall is_multicast us ->
  zlen us <= max_size f ->
  let round := batch_round CalculateDigest DmfsBaseAddress f 1 l s [] (completion_of <$> us) in
  if (zlen us <? KvMessage.FLAGS_batch_size f) && KvMessage.FLAGS_batch f then
    exists batch, round = Done (batch, [], s) /\ zlen batch = zlen us
  else
    match abs_run CalculateDigest nodes me ns (extents_of (l 0%nat) <$> us) with
    | Done (_, ns') => exists posted x, round = Done ([], posted, mkServer x (ts_generator s)) /\
        represents x ns' /\ Forall2 acknowledges us posted
    | Fault z => round = Fault z
    end.
Proof.
  intros R Hr Hu Hl round. unfold round, batch_round.
  rewrite handle_multicasts by (done || by rewrite Z.add_0_l). cbn [obind app]. unfold keep_polling.
  assert (Ez : zlen (entry_of <$> us) = zlen us) by (unfold zlen; by rewrite length_fmap).
  rewrite Ez. change (1 =? 1) with true. cbn [negb]. rewrite !andb_true_r.
  destruct (_ && _); [by eexists|]. change (sorted_batch f 1 ?b) with b.
  pose proof (finish_multicasts l s ns us Hu R Hr) as E.
  destruct (abs_run _ _ _ _ _) as [[rs ns']|z]; [|by rewrite E].
  destruct E as (es & x & -> & He & R'). cbn [obind]. by eexists es, x.
Qed.
End multicasts.

(** ** The data path *)

Import FsData.

(** The bytes of a block of the data area. *)
Definition block (d : list Z) (b : Z) : list Z :=
  take (Z.to_nat BLOCK_SIZE) (drop (Z.to_nat (b * BLOCK_SIZE)) d).

Lemma block_len d b : 0 <= b -> b * BLOCK_SIZE + BLOCK_SIZE <= zlen d -> zlen (block d b) = BLOCK_SIZE.
Proof. unfold block, zlen, BLOCK_SIZE. rewrite length_take, length_drop. lia. Qed.

Lemma block_blit_in d b o bs :
  0 <= b -> b * BLOCK_SIZE + BLOCK_SIZE <= zlen d -> 0 <= o -> o + zlen bs <= BLOCK_SIZE ->
  block (blit d (Z.to_nat (b * BLOCK_SIZE + o)) bs) b = blit (block d b) (Z.to_nat o) bs.
Proof.
  intros Hb Hd Ho Hn. pose proof (block_len d b Hb Hd) as Hl. unfold block, zlen, BLOCK_SIZE in *.
  apply list_eq. intros i. rewrite lookup_take.
  case_decide as Hi.
  - rewrite lookup_drop, !blit_lookup by lia. rewrite lookup_take, lookup_drop.
    repeat case_decide; try lia; try done. f_equal. lia.
  - symmetry. apply lookup_ge_None_2. rewrite blit_length by lia. lia.
Qed.

Lemma block_blit_out d b b' o bs :
  0 <= b -> b * BLOCK_SIZE + BLOCK_SIZE <= zlen d -> 0 <= o -> o + zlen bs <= BLOCK_SIZE ->
  0 <= b' -> b' <> b -> block (blit d (Z.to_nat (b * BLOCK_SIZE + o)) bs) b' = block d b'.
Proof.
  unfold block, zlen, BLOCK_SIZE. intros. apply blit_slice_ne; lia.
Qed.

Lemma slice_in l o n : 0 <= o -> 0 <= n -> o + n <= zlen l ->
  slice l o n = Done (take (Z.to_nat n) (drop (Z.to_nat o) l)) /\
  zlen (take (Z.to_nat n) (drop (Z.to_nat o) l)) = n.
Proof.
  intros. unfold slice. rewrite leb_and by lia. split; [done|].
  unfold zlen in *. rewrite length_take, length_drop. lia.
Qed.

Lemma paste_in l o bs : 0 <= o -> o + zlen bs <= zlen l ->
  paste l o bs = Done (blit l (Z.to_nat o) bs).
Proof. intros. unfold paste. by rewrite leb_and by lia. Qed.

(** One piece. *)
Lemma scatter_one d buf fpi p :
  p_len fpi = 1 -> zget (p_tuple fpi) 0 = Some p -> 0 <= p_offset p -> 0 <= p_size p ->
  p_size p <= zlen buf -> p_offset p + p_size p <= zlen d ->
  scatter loop_fuel d buf fpi 0 0 =
    Done (blit d (Z.to_nat (p_offset p)) (take (Z.to_nat (p_size p)) buf)) /\
  zlen (take (Z.to_nat (p_size p)) buf) = p_size p.
Proof.
  intros Hl Hp Ho Hs Hb Hd. cbn [loop_fuel scatter]. rewrite Hl. change (0 <? 1) with true.
  rewrite (load_in_range _ _ _ Hp). cbn [obind].
  destruct (slice_in buf 0 (p_size p)) as [-> Hlen]; [lia..|]. cbn [obind].
  change (Z.to_nat 0) with 0%nat in *. rewrite drop_0 in *.
  rewrite paste_in by lia. cbn [obind]. change (0 + 1 <? 1) with false. done.
Qed.

Lemma gather_one d buf fpi p :
  p_len fpi = 1 -> zget (p_tuple fpi) 0 = Some p -> 0 <= p_offset p -> 0 <= p_size p ->
  p_size p <= zlen buf -> p_offset p + p_size p <= zlen d ->
  gather loop_fuel d buf fpi 0 0 =
    Done (blit buf 0 (take (Z.to_nat (p_size p)) (drop (Z.to_nat (p_offset p)) d))) /\
  zlen (take (Z.to_nat (p_size p)) (drop (Z.to_nat (p_offset p)) d)) = p_size p.
Proof.
  intros Hl Hp Ho Hs Hb Hd. cbn [loop_fuel gather]. rewrite Hl. change (0 <? 1) with true.
  rewrite (load_in_range _ _ _ Hp). cbn [obind].
  destruct (slice_in d (p_offset p) (p_size p)) as [-> Hlen]; [lia..|]. cbn [obind].
  rewrite paste_in by lia. cbn [obind]. change (0 + 1 <? 1) with false. done.
Qed.

Lemma blit_whole (l bs : list Z) : length l = length bs -> blit l 0 bs = bs.
Proof. intros E. unfold blit. cbn. rewrite <- E, drop_all. apply app_nil_r. Qed.

Section data_path.
Context (c : scratch) (cap k : Z) (s : server Bitmap.t) (b : DataBuffer).
Let q := db_req b.
Let size := mu_size q.
Let offset := mu_offset q.
Let slot := k mod cap.

(** A write of at most a block into one block of a file. *)
Record block_write : Prop := {
  bw_cap : 0 < cap /\ cap * BLOCK_SIZE < 2 ^ 63;
  bw_blocks : 0 <= k /\ blocks_ok cap k (fs s);
  bw_size : 0 < size /\ 0 <= offset /\ offset + size < 2 ^ 64;
  bw_one : blocks_of offset size = 1;
  bw_fei : zlen (e_tuple (mu_fei q)) = MAX_MESSAGE_BLOCK_COUNT;
  bw_old : partial offset size -> Forall (fun x => 0 <= x < 2 ^ 32 /\ block_address x + BLOCK_SIZE <= cap * BLOCK_SIZE)
             (e_tuple (mu_fei q));
  bw_fpi : zlen (p_tuple (c_fpi c)) = MAX_MESSAGE_BLOCK_COUNT;
  bw_data : size <= zlen (db_data b);
  bw_key : 0 <= switch_key (mu_raw q) < 2 ^ 16 /\
    forall i, in_width 64 (KvServer.tss_get (ts_generator s) i)
}.

Lemma append_block_spec : block_write ->
  exists m x tss old, append c s b = Done (PAppend m, mkServer x tss) /\
    op_of (mu_raw m) = kEnumAppendReply /\ log_id (mu_raw m) = UINT64_MAX /\
    timestamp (mu_raw m) <> 0 /\ mu_path m = mu_path q /\ mu_size m = size /\ mu_offset m = offset /\
    mu_fei m = set_id (mkExtentInfo (e_timeLastModified (mu_fei q)) 1 (e_tuple (mu_fei q))) 0 slot /\
    blocks_ok cap (k + 1) x /\ (forall i, in_width 64 (KvServer.tss_get tss i)) /\
    zget (e_tuple (mu_fei q)) 0 = Some old /\
    block (data x) slot = blit (if size =? BLOCK_SIZE then block (data (fs s)) slot
        else take (Z.to_nat BLOCK_SIZE) (drop (Z.to_nat (block_address old)) (data (fs s))))
      (Z.to_nat (offset mod BLOCK_SIZE)) (take (Z.to_nat size) (db_data b)) /\
    forall i, 0 <= i < cap -> i <> slot -> block (data x) i = block (data (fs s)) i.
Proof.
  intros [Hcap [Hk Hok] Hsize Hone Hfei Hold Hfpi Hdata [Hkey Hts]].
  assert (Hn : blocks_of offset size <= MAX_MESSAGE_BLOCK_COUNT) by (rewrite Hone; done).
  unfold append. fold q size offset.
  destruct (KvServer.timestamp_step _ _ Hkey (Hts _)) as (tm & tss & Etm & Htm & _).
  pose proof (KvServer.next_nonzero_width _ _ _ _ _ Hts Etm) as Htss. rewrite Etm. cbn [obind].
  destruct (extentWrite_one (c_locals c 0%nat) cap size offset (mu_fei q)) with (k0 := k) (s := fs s)
    (path := mu_path q) (fpi := c_fpi c) (fo := mu_fei q) as (old & x & Eold & -> & Hok' & Hdx);
    [done..|]. fold slot in Hdx |- *. cbn [obind default from_option id].
  pose proof (Z.mod_pos_bound k cap ltac:(lia)) as Hid. fold slot in Hid.
  destruct (block_fits _ _ Hid) as [Hb0 Hb1].
  assert (Hao : size =? BLOCK_SIZE = false -> block_address old + BLOCK_SIZE <= cap * BLOCK_SIZE).
  { intros Hs%Z.eqb_neq. assert (Hpart : partial offset size)
      by (clear - Hone Hsize Hs; unfold partial, blocks_of, BLOCK_SIZE in *; lia).
    by pose proof (Forall_zget _ _ _ _ (Hold Hpart) Eold) as [_ ?]. }
  pose proof (wrap_range 32 (old * BLOCK_SIZE) ltac:(lia)) as [Ha0 _]. fold (block_address old) in Ha0.
  assert (Hol : size =? BLOCK_SIZE = false -> zlen (take (Z.to_nat BLOCK_SIZE)
      (drop (Z.to_nat (block_address old)) (data (fs s)))) = BLOCK_SIZE).
  { intros Hs. apply (slice_in (data (fs s)) (block_address old) BLOCK_SIZE); [done|done|].
    rewrite (bo_data _ _ _ Hok). auto. }
  assert (Hmod : 0 <= offset mod BLOCK_SIZE < BLOCK_SIZE) by (apply Z.mod_pos_bound; done).
  assert (Hfit : offset mod BLOCK_SIZE + size <= BLOCK_SIZE)
    by (clear - Hone Hsize; unfold blocks_of, BLOCK_SIZE in *; lia).
  destruct (scatter_one (data x) (db_data b) (set_piece (mkPosInfo 1 (p_tuple (c_fpi c))) 0
    (mkPos (slot * BLOCK_SIZE + offset mod BLOCK_SIZE) size))
    (mkPos (slot * BLOCK_SIZE + offset mod BLOCK_SIZE) size)) as [-> Hlen]; cbn [p_offset p_size];
    try (rewrite ?(bo_data _ _ _ Hok'); lia).
  { done. } { cbn. apply zget_zset_eq. rewrite Hfpi. done. }
  cbn [obind p_offset p_size] in *. eexists _, _, _, old. split; [reflexivity|].
  pose proof (bo_data _ _ _ Hok) as Hd0. pose proof (bo_data _ _ _ Hok') as Hd1.
  split_and!; try done.
  - intros E. cbn in E. subst tm. assert (KvServer.bswap32 0 = 0) by done. lia.
  - apply blocks_data; [done|]. unfold zlen in *. rewrite blit_length; lia.
  - cbn [data with_data]. rewrite block_blit_in by lia. f_equal. rewrite Hdx.
    destruct (size =? BLOCK_SIZE); [done|]. specialize (Hol eq_refl).
    rewrite <- (Z.add_0_r (slot * BLOCK_SIZE)).
    rewrite block_blit_in by lia. apply blit_whole.
    pose proof (block_len (data (fs s)) slot ltac:(lia) ltac:(lia)). unfold zlen in *. lia.
  - intros i Hi Hne. cbn [data with_data]. rewrite block_blit_out by lia. rewrite Hdx.
    destruct (size =? BLOCK_SIZE); [done|]. specialize (Hol eq_refl).
    rewrite <- (Z.add_0_r (slot * BLOCK_SIZE)).
    apply block_blit_out; lia.
Qed.
End data_path.

(** A read of [size] bytes from the beginning of a block; the loop of extentRead
    fills in one piece. *)
Lemma read_plan size offset fei fpi b :
  e_len fei = 1 -> zget (e_tuple fei) 0 = Some b -> zlen (p_tuple fpi) = MAX_MESSAGE_BLOCK_COUNT ->
  0 <= offset -> offset mod BLOCK_SIZE = 0 -> 0 < size <= BLOCK_SIZE -> offset + size < 2 ^ 64 ->
  extentRead size offset fei fpi = Done (true, set_piece fpi 0 (mkPos (block_address b) size)).
Proof.
  intros Hl Hb Hp Ho Ha Hs Hsum. unfold MAX_MESSAGE_BLOCK_COUNT in Hp.
  unfold extentRead. cbn [loop_fuel read_blocks]. rewrite Hl. change (0 <? 1) with true.
  unfold read_block. rewrite (load_in_range _ _ _ Hb). cbn [obind].
  rewrite set_pos_eq by lia. cbn [obind]. rewrite Ha. change (negb (0 =? 0)) with false.
  rewrite andb_false_r. cbn [obind]. rewrite Hl. change (0 =? 1 - 1) with true. cbn [andb].
  rewrite wrap_small by (unfold in_width; lia).
  destruct (Z.eqb_spec ((offset + size) mod BLOCK_SIZE) 0) as [E|E]; cbn [negb].
  - assert (size = BLOCK_SIZE) as -> by (unfold BLOCK_SIZE in *; lia). by change (0 + 1 <? 1) with false.
  - assert ((offset + size) mod BLOCK_SIZE = size) as -> by (unfold BLOCK_SIZE in *; lia).
    erewrite (load_in_range _ 0) by (cbn; apply zget_zset_eq; lia). cbn [obind p_offset].
    rewrite set_pos_eq by (cbn; rewrite zlen_zset; lia). cbn [obind]. rewrite set_piece_twice.
    by change (0 + 1 <? 1) with false.
Qed.

Lemma read_log_spec {B} `{PositionSet B} c (s : server B) q b :
  e_len (dr_fei q) = 1 -> zget (e_tuple (dr_fei q)) 0 = Some b ->
  zlen (p_tuple (c_fpi c)) = MAX_MESSAGE_BLOCK_COUNT ->
  0 <= dr_offset q -> dr_offset q mod BLOCK_SIZE = 0 -> 0 < dr_size q <= BLOCK_SIZE ->
  dr_offset q + dr_size q < 2 ^ 64 -> 0 <= b < 2 ^ 20 ->
  b * BLOCK_SIZE + BLOCK_SIZE <= zlen (data (fs s)) -> kMaxDataSize <= zlen (c_data c) ->
  p_len (c_fpi c) = 0 \/ p_len (c_fpi c) = 1 ->
  exists buf, read_log c s q =
      Done (PData (mkDataReadReply (with_op (dr_raw q) kEnumReadReply) (dr_size q) buf), s) /\
    buf = if p_len (c_fpi c) =? 0 then c_data c
          else blit (c_data c) 0 (take (Z.to_nat (dr_size q)) (block (data (fs s)) b)).
Proof.
  intros Hl Hb Hp Ho Ha Hs Hsum Hid Hd Hc Hlen. unfold read_log.
  rewrite (read_plan _ _ _ _ b) by done. cbn [obind].
  assert (Hba : block_address b = b * BLOCK_SIZE)
    by (apply wrap_small; unfold in_width, BLOCK_SIZE; lia).
  rewrite Hba. unfold kMaxDataSize in Hc. destruct Hlen as [E|E]; rewrite E.
  - eexists. split; [|reflexivity]. cbn [loop_fuel gather set_piece p_len]. by rewrite E.
  - destruct (gather_one (data (fs s)) (c_data c) (set_piece (c_fpi c) 0 (mkPos (b * BLOCK_SIZE) (dr_size q)))
      (mkPos (b * BLOCK_SIZE) (dr_size q))) as [-> _]; cbn [p_offset p_size]; try lia; try done.
    { cbn. apply zget_zset_eq. rewrite Hp. done. }
    eexists. split; [reflexivity|]. change (1 =? 0) with false. cbn iota. f_equal. unfold block. rewrite take_take. f_equal.
    unfold BLOCK_SIZE in *. lia.
Qed.

(** The plan of a read of a whole block, whatever the number of extents named; the
    first piece is the block of the first extent. *)
Lemma read_blocks_whole fuel offset fei fpi i b :
  zget (e_tuple fei) 0 = Some b -> zlen (p_tuple fpi) = MAX_MESSAGE_BLOCK_COUNT ->
  0 <= offset -> offset mod BLOCK_SIZE = 0 -> offset + BLOCK_SIZE < 2 ^ 64 ->
  0 <= i -> e_len fei <= MAX_MESSAGE_BLOCK_COUNT -> e_len fei - i <= Z.of_nat fuel ->
  exists fpi', read_blocks fuel BLOCK_SIZE offset fei fpi i = Done fpi' /\ p_len fpi' = p_len fpi /\
    zget (p_tuple fpi') 0 = if (i =? 0) && (0 <? e_len fei)
      then Some (mkPos (block_address b) BLOCK_SIZE) else zget (p_tuple fpi) 0.
Proof.
  intros Hb Hp Ho Ha Hsum. unfold MAX_MESSAGE_BLOCK_COUNT in *. revert fpi i Hp.
  induction fuel as [|fuel IH]; intros fpi i Hp Hi Hl Hf; cbn [read_blocks];
    (destruct (Z.ltb_spec i (e_len fei)) as [Hlt|Hge];
     [|exists fpi; split_and!; try done; destruct (Z.eqb_spec i 0); cbn [andb]; [|done];
       by rewrite (proj2 (Z.ltb_ge _ _)) by lia]); [lia|].
  assert (read_block BLOCK_SIZE offset fei fpi i =
    Done (set_piece fpi i (mkPos (block_address b) BLOCK_SIZE))) as ->.
  { unfold read_block. rewrite (load_in_range _ _ _ Hb). cbn [obind].
    rewrite set_pos_eq by lia. cbn [obind]. rewrite Ha. change (negb (0 =? 0)) with false.
    rewrite andb_false_r. cbn [obind]. rewrite wrap_small by (unfold in_width, BLOCK_SIZE in *; lia).
    replace ((offset + BLOCK_SIZE) mod BLOCK_SIZE) with 0 by (unfold BLOCK_SIZE in *; lia).
    change (negb (0 =? 0)) with false. by rewrite andb_false_r. }
  cbn [obind].
  destruct (IH (set_piece fpi i (mkPos (block_address b) BLOCK_SIZE)) (i + 1))
    as (fpi' & -> & Hpl & Hz); [cbn; by rewrite zlen_zset|lia..|].
  exists fpi'. split; [done|]. split; [done|]. rewrite Hz.
  rewrite (proj2 (Z.eqb_neq (i + 1) 0)) by lia. cbn [andb set_piece p_tuple].
  destruct (Z.eqb_spec i 0) as [->|]; cbn [andb].
  - by rewrite (proj2 (Z.ltb_lt _ _)), zget_zset_eq by lia.
  - by rewrite zget_zset_ne by done.
Qed.

Lemma read_log_whole {B} `{PositionSet B} c (s : server B) q b :
  0 < e_len (dr_fei q) <= MAX_MESSAGE_BLOCK_COUNT -> zget (e_tuple (dr_fei q)) 0 = Some b ->
  zlen (p_tuple (c_fpi c)) = MAX_MESSAGE_BLOCK_COUNT -> dr_size q = BLOCK_SIZE ->
  0 <= dr_offset q -> dr_offset q mod BLOCK_SIZE = 0 -> dr_offset q + BLOCK_SIZE < 2 ^ 64 ->
  0 <= b < 2 ^ 20 -> b * BLOCK_SIZE + BLOCK_SIZE <= zlen (data (fs s)) ->
  kMaxDataSize <= zlen (c_data c) -> p_len (c_fpi c) = 1 ->
  read_log c s q = Done (PData (mkDataReadReply (with_op (dr_raw q) kEnumReadReply) BLOCK_SIZE
    (blit (c_data c) 0 (block (data (fs s)) b))), s).
Proof.
  intros Hl Hb Hp Hs Ho Ha Hsum Hid Hd Hc Hlen. unfold MAX_MESSAGE_BLOCK_COUNT in *.
  unfold read_log, extentRead. rewrite Hs.
  destruct (read_blocks_whole loop_fuel (dr_offset q) (dr_fei q) (c_fpi c) 0 b)
    as (fpi' & -> & Hpl & Hz); try done; try (unfold MAX_MESSAGE_BLOCK_COUNT, loop_fuel; lia).
  rewrite (proj2 (Z.ltb_lt _ _)) in Hz by lia. cbn [Z.eqb andb] in Hz. cbn [obind].
  assert (Hba : block_address b = b * BLOCK_SIZE)
    by (apply wrap_small; unfold in_width, BLOCK_SIZE; lia).
  rewrite Hba in Hz. unfold kMaxDataSize in Hc.
  destruct (gather_one (data (fs s)) (c_data c) fpi' (mkPos (b * BLOCK_SIZE) BLOCK_SIZE)) as [-> _];
    cbn [p_offset p_size]; try (unfold BLOCK_SIZE in *; lia); done.
Qed.

(** C25. Copy on write: the data node answers a write into one block with
    kEnumAppendReply, a nonzero timestamp and the log id that stands for a file
    operation; it stores the bytes at their place in a block that is next in the
    ring, around them what the old block held there (or, for a whole block, nothing
    of it), reports that block, and changes no other block. *)
Theorem append_copies_block c cap k s b :
  let q := db_req b in
  let slot := k mod cap in
  block_write c cap k s b ->
  exists m x tss old, append c s b = Done (PAppend m, mkServer x tss) /\
    op_of (mu_raw m) = kEnumAppendReply /\ log_id (mu_raw m) = UINT64_MAX /\
    timestamp (mu_raw m) <> 0 /\
    mu_path m = mu_path q /\ mu_size m = mu_size q /\ mu_offset m = mu_offset q /\
    e_len (mu_fei m) = 1 /\ zget (e_tuple (mu_fei m)) 0 = Some (wrap 32 slot) /\
    blocks_ok cap (k + 1) x /\ zget (e_tuple (mu_fei q)) 0 = Some old /\
    block (data x) slot = blit (if mu_size q =? BLOCK_SIZE then block (data (fs s)) slot
        else take (Z.to_nat BLOCK_SIZE) (drop (Z.to_nat (block_address old)) (data (fs s))))
      (Z.to_nat (mu_offset q mod BLOCK_SIZE)) (take (Z.to_nat (mu_size q)) (db_data b)) /\
    forall i, 0 <= i < cap -> i <> slot -> block (data x) i = block (data (fs s)) i.
Proof.
  intros q slot W. destruct (append_block_spec c cap k s b W)
    as (m & x & tss & old & E & ? & ? & ? & ? & ? & ? & Ef & ? & ? & ? & ? & ?).
  exists m, x, tss, old. rewrite Ef. pose proof (bw_fei _ _ _ _ _ W) as Hf.
  split_and!; try done. cbn. apply zget_zset_eq. by rewrite Hf.
Qed.

(** Read after write through the handlers: reading the range of an append that
    starts at a block with the extents of its reply is answered with the size asked
    for; the message holds the appended bytes when the uninitialised length of the
    handler's local list of pieces happens to be one, and nothing of the file when
    it happens to be zero. *)
Theorem fs_append_then_read c c' cap k s b r m x tss :
  block_write c cap k s b -> cap <= 2 ^ 20 -> mu_offset (db_req b) mod BLOCK_SIZE = 0 ->
  append c s b = Done (PAppend m, mkServer x tss) ->
  dr_fei r = mu_fei m -> dr_size r = mu_size (db_req b) -> dr_offset r = mu_offset (db_req b) ->
  zlen (p_tuple (c_fpi c')) = MAX_MESSAGE_BLOCK_COUNT -> kMaxDataSize <= zlen (c_data c') ->
  p_len (c_fpi c') = 0 \/ p_len (c_fpi c') = 1 ->
  exists d, read_log c' (mkServer x tss) r = Done (PData d, mkServer x tss) /\
    op_of (rd_raw d) = kEnumReadReply /\ rd_size d = mu_size (db_req b) /\
    if p_len (c_fpi c') =? 0 then rd_data d = c_data c'
    else take (Z.to_nat (rd_size d)) (rd_data d) = take (Z.to_nat (rd_size d)) (db_data b).
Proof.
  intros W Hcap Ha E Ef Es Eo Hp Hc Hl.
  destruct (append_block_spec c cap k s b W)
    as (m' & x' & tss' & old & E' & _ & _ & _ & _ & _ & _ & Ef' & Hok & _ & Eold & Hblock & _).
  rewrite E in E'. injection E' as <- <- <-. rewrite Ef' in Ef.
  pose proof (bw_fei _ _ _ _ _ W) as Hf. pose proof (bw_one _ _ _ _ _ W) as Hone.
  pose proof (bw_size _ _ _ _ _ W) as Hsz. pose proof (bw_data _ _ _ _ _ W) as Hdat.
  pose proof (Z.mod_pos_bound k cap ltac:(destruct (bw_cap _ _ _ _ _ W); lia)) as Hid.
  assert (Hs : mu_size (db_req b) <= BLOCK_SIZE)
    by (clear - Hone Hsz Ha; unfold blocks_of, BLOCK_SIZE in *; lia).
  assert (Hw : wrap 32 (k mod cap) = k mod cap) by (apply wrap_small; unfold in_width; lia).
  destruct (block_fits _ _ Hid) as [Hb0 Hb1].
  destruct (read_log_spec c' (mkServer x tss) r (k mod cap)) as (buf & -> & Hbuf);
    try (rewrite ?Ef, ?Es, ?Eo; done || lia).
  { rewrite Ef. cbn. rewrite zget_zset_eq by (rewrite Hf; done). by rewrite Hw. }
  { cbn [fs]. rewrite (bo_data _ _ _ Hok). done. }
  eexists. split; [reflexivity|]. cbn [rd_raw rd_size rd_data]. split; [done|]. split; [done|].
  rewrite Es in *. destruct (p_len (c_fpi c') =? 0); [done|]. rewrite Hbuf. cbn [fs]. rewrite Hblock, Ha.
  change (Z.to_nat 0) with 0%nat.
  rewrite (take_blit _ (take _ (db_data b))) by (unfold zlen in Hdat; rewrite length_take; lia).
  apply take_blit. unfold zlen in Hdat. rewrite length_take. lia.
Qed.

(** ** Examples *)

Definition sample_raw (o : Z) : RawVMsg :=
  mkRaw (KvMessage.mkHeader 0 3 2 1 0 o 0) 0 7 0 0 5 0 0 0 9 0 0 0 0 0 0 0 0.
Definition sample_scratch (len : Z) : scratch :=
  mkScratch (fun _ => sample_locals) (mkPosInfo len (replicate 12 (mkPos 0 0))) false
    (l_file sample_locals) (replicate 4096 0) 0.

Lemma above_two p q r :
  parent_of p = q -> parent_of q = [slash] -> above p r -> r = q \/ r = [slash].
Proof.
  intros E1 E2 Ha. inversion Ha as [|? ? ? Hb]; subst; [by left|]. right.
  inversion Hb as [|? ? ? Hc]; subst; [done|]. rewrite E2 in Hc. inversion Hc; by subst.
Qed.

Definition path_df : list Z := [47; 100; 47; 102].

Lemma path_df_cases r : r = path_df \/ above path_df r -> r = path_df \/ r = [47; 100] \/ r = [slash].
Proof. intros [?|Ha]; [auto|]. right. by apply (above_two path_df). Qed.

Lemma path_df_placeable : placeable sample_digest 1 1 path_df.
Proof.
  split.
  - by exists [100; 47; 102].
  - done.
  - by intros q [->|[->| ->]]%path_df_cases.
  - by intros q [->|[->| ->]]%path_df_cases.
  - by intros q l [->|[->| ->]]%path_df_cases.
  - intros q r [->|[->| ->]]%path_df_cases [->|[->| ->]]%path_df_cases E;
      first [done | by vm_compute in E].
Qed.

Lemma path_df_has_way :
  has_way sample_digest {[ sample_digest [slash] := Dir (new_dir sample_locals) ]} path_df.
Proof.
  intros q Hq. destruct (above_two path_df [47; 100] q) as [->| ->]; [done|done|exact Hq| |].
  - rewrite lookup_singleton_ne by (vm_compute; discriminate). done.
  - rewrite lookup_singleton_eq. done.
Qed.

Definition sample_open : MetaReadReq :=
  mkMetaReadReq (sample_raw kEnumReadIndexReq) sample_fei kEnumFsMetaRead path_df.

Lemma open_creates_path_witness :
  exists s m x, sample_fs = Done s /\
    read_index sample_digest 4096 (sample_scratch 1) (mkServer s ∅) sample_open =
      Done (PMetaRead m, x) /\
    op_of (ra_raw m) = kEnumReadIndexReply /\ size (ra_attribute m) = 0.
Proof.
  destruct sample_fs_represents as (s & E & R).
  destruct (open_creates_path sample_digest 4096 32 16 16 1 1 (mkServer s ∅) _ (sample_scratch 1)
    sample_open R) as (m & x & ns' & n & Er & _ & _ & Ho & Ha & _ & _ & Hn).
  - apply (sample_has_room s _ E). discriminate.
  - intros i. exact sample_dir_ok.
  - exact path_df_placeable.
  - exact path_df_has_way.
  - right. reflexivity.
  - exists s, m, (mkServer x ∅). split; [exact E|]. split; [exact Er|]. split; [exact Ho|].
    rewrite lookup_singleton_ne in Hn by (vm_compute; discriminate).
    destruct Hn as (f & -> & Hf & _). rewrite Ha. exact Hf.
Defined.

(** Three bytes written to the beginning of a file, and read back. *)
Definition sample_append : DataBuffer :=
  mkDataBuffer (mkMetaUpdateReq (sample_raw kEnumAppendReq) sample_fei [47; 97] 3 0) [11; 12; 13].

Lemma sample_block_write : exists s : FileSystem.t Bitmap.t,
  block_write (sample_scratch 7) 8 0 (mkServer s ∅) sample_append.
Proof.
  destruct sample_blocks_ok as (s & Hs & _). exists s. split.
  - unfold BLOCK_SIZE. lia.
  - split; [lia|exact Hs].
  - cbn. lia.
  - reflexivity.
  - reflexivity.
  - intros _. apply Forall_replicate. split; [lia|vm_compute; discriminate].
  - reflexivity.
  - vm_compute. discriminate.
  - split; [cbn; lia|]. intros i. split; vm_compute; congruence.
Qed.

Lemma append_copies_block_witness :
  exists s m x tss, append (sample_scratch 7) s sample_append = Done (PAppend m, mkServer x tss) /\
    zget (e_tuple (mu_fei m)) 0 = Some 0 /\ timestamp (mu_raw m) <> 0.
Proof.
  destruct sample_block_write as (s & W).
  destruct (append_copies_block _ _ _ _ _ W)
    as (m & x & tss & old & E & _ & _ & Ht & _ & _ & _ & _ & Hid & _).
  exists (mkServer s ∅), m, x, tss. split; [exact E|]. split; [exact Hid|exact Ht].
Defined.

Lemma fs_append_then_read_witness :
  exists s m x tss d, append (sample_scratch 7) s sample_append = Done (PAppend m, mkServer x tss) /\
    read_log (sample_scratch 1) (mkServer x tss)
      (mkDataReadReq (sample_raw kEnumReadLog) (mu_fei m) [47; 97] 3 0) = Done (PData d, mkServer x tss) /\
    take 3 (rd_data d) = [11; 12; 13].
Proof.
  destruct sample_block_write as (s & W). destruct (append_block_spec _ _ _ _ _ W) as (m & x & tss & _ & E & _).
  destruct (fs_append_then_read (sample_scratch 7) (sample_scratch 1) 8 0 (mkServer s ∅) sample_append
    (mkDataReadReq (sample_raw kEnumReadLog) (mu_fei m) [47; 97] 3 0) m x tss W) as (d & Er & _ & Hs & Hd).
  - vm_compute. discriminate.
  - reflexivity.
  - exact E.
  - reflexivity.
  - reflexivity.
  - reflexivity.
  - reflexivity.
  - vm_compute. discriminate.
  - right. reflexivity.
  - exists (mkServer s ∅), m, x, tss, d. split; [exact E|]. split; [exact Er|].
    change (p_len (c_fpi (sample_scratch 1)) =? 0) with false in Hd. cbn iota in Hd.
    rewrite Hs in Hd. exact Hd.
Defined.

(** The index node applies two updates of a file, the later one with the older
    timestamp. *)
Definition sample_flags : KvMessage.flags := KvMessage.mkFlags 1000 1000 8 true true 2 50 8 8 8 8.
Definition sample_update (id time : Z) : update :=
  mkUpdate 0 (mkMetaUpdateReq (with_timestamp (sample_raw kEnumMultiCastPkt) time)
    (mkExtentInfo 5 1 (replicate 12 id)) [47; 97] 4096 0) (sample_scratch 1).

Lemma multicasts_in_order_witness :
  exists (s x : server Bitmap.t) ns posted,
    batch_round sample_digest 4096 sample_flags 1 (fun _ => sample_locals) s []
      (completion_of <$> [sample_update 4 9; sample_update 6 8]) = Done ([], posted, x) /\
    length posted = 2%nat /\ FileSystem.represents 32 16 16 1 1 (fs x) ns /\
    match ns !! sample_digest [47; 97] with
    | Some (File f) => indexExtentStartBlock <$> zget (tuple f) 0 = Some 6
    | _ => False
    end.
Proof.
  destruct sample_fs_represents as (s0 & E & R).
  pose proof (fs_exec_refines sample_digest 4096 32 16 16 1 1 s0 _ (OMknod sample_locals [47; 97]) 2
    R ltac:(lia) (sample_has_room s0 (2 + 1) E ltac:(lia)) eq_refl) as E1.
  match type of E1 with match ?c with _ => _ end =>
    let v := eval vm_compute in c in change c with v in E1 end.
  cbn iota in E1. destruct E1 as (s & _ & R1 & Hr1).
  pose proof (multicasts_in_order sample_digest 4096 32 16 16 1 1 sample_flags
    (fun _ => sample_locals) (mkServer s ∅) _ [sample_update 4 9; sample_update 6 8] R1 Hr1) as T.
  cbv zeta in T. cbn [fs] in T.
  match type of T with _ -> _ -> if ?b then _ else match ?c with _ => _ end =>
    change b with false in T; let v := eval vm_compute in c in change c with v in T end.
  cbn iota in T. destruct T as (posted & x & Ex & Rx & Hf).
  - repeat constructor; vm_compute; congruence.
  - vm_compute. discriminate.
  - exists (mkServer s ∅), (mkServer x ∅). eexists _, posted. split; [exact Ex|].
    split; [by apply Forall2_length in Hf|]. split; [exact Rx|]. vm_compute. reflexivity.
Defined.
End FsServer.
