(* ===== verification/FsClientModel.v ===== *)
(** * apps/fs/src/octopus_client.cc: nrfsRead and nrfsWrite

    [Module FsClient] models the two operations of a client coroutine.  Each is a
    state machine: it posts a request or waits, is resumed with the message the
    event loop hands it, and returns the number of bytes.  The send buffer a request
    is built in keeps what it held before; that is the argument [sendbuf]. *)

From S2P Require Import Prelude BitmapModel HashTableModel TableModel TxModel FileSystemModel FsDataModel.
From S2P Require Import KvMessageModel KvServerModel KvClientModel FsMessageModel FsServerModel.

Module FsClient.

Import FileSystem FsMessage FsServer.

(** ** Messages of the event loop *)

(** What c_ctx.msg_ptr points to: a reply, or a message the switch turned round. *)
Inductive incoming := IRequest (q : request) | IReply (r : reply).

Definition incoming_raw (m : incoming) : RawVMsg :=
  match m with IRequest q => req_raw q | IReply r => reply_raw r end.

(** The old content of a send buffer. *)
Record sendbuf := mkSendbuf { b_raw : RawVMsg; b_fei : file_extent_info; b_data : list Z }.

Inductive action (S : Type) :=
  | Post (qp : ret_qp) (size : Z) (m : request) (k : S)
  | Wait (k : S)
  | Return (n : Z).
Arguments Post {S} qp size m k.
Arguments Wait {S} k.
Arguments Return {S} n.

Definition in_switch (x : FsCtx) : FsCtx :=
  mkFsCtx (f_coro_id x) (f_key x) (f_magic x) (f_file x) (f_hash x) (f_size x) (f_offset x)
    (f_data_s_id x) (f_data_t_id x) (f_index_s_id x) (f_index_t_id x) true.

(** ((MetaReadReply* )msg_ptr)->attribute; another struct there is not modelled. *)
Definition attribute_of (m : incoming) : outcome FileMeta :=
  match m with
  | IReply (PMetaRead a) => Done (ra_attribute a)
  | _ => Fault OutOfBounds
  end.

(** ((MetaUpdateReq* )msg_ptr): the reply to an append, also when it was multicast. *)
Definition update_of (m : incoming) : outcome MetaUpdateReq :=
  match m with
  | IReply (PAppend a) => Done a
  | IReply (PMulticast a) => Done a
  | IRequest (QMetaUpdate a) => Done a
  | _ => Fault OutOfBounds
  end.

(** for (j = 0; j < n; j++): the blocks a read names. *)
Fixpoint read_extents (fuel : nat) (meta : FileMeta) (b_id n j : Z) (fei : file_extent_info)
    : outcome file_extent_info :=
  if j <? n then
    match fuel with
    | O => Fault Diverges
    | S fuel' =>
        let i := wrap 32 (j + b_id) in
        let! fei' :=
          (if i <? count meta then
             let! e := load (tuple meta) i in
             if negb (countExtentBlock e =? 0) then
               let! l := store (e_tuple fei) j (indexExtentStartBlock e) in
               Done (mkExtentInfo (e_timeLastModified fei) (wrap 64 (e_len fei + 1)) l)
             else Done fei
           else Done fei) in
        read_extents fuel' meta b_id n (j + 1) fei'
    end
  else Done fei.

Definition UINT32_MAX : Z := 2 ^ 32 - 1.

(** for (j = 0; j < fei.len; j++): the blocks a write replaces. *)
Fixpoint write_extents (fuel : nat) (meta : FileMeta) (b_id j : Z) (fei : file_extent_info)
    : outcome file_extent_info :=
  if j <? e_len fei then
    match fuel with
    | O => Fault Diverges
    | S fuel' =>
        let i := wrap 32 (j + b_id) in
        let! id :=
          (if i <? count meta then
             let! e := load (tuple meta) i in
             Done (if negb (countExtentBlock e =? 0) then indexExtentStartBlock e else UINT32_MAX)
           else Done UINT32_MAX) in
        let! l := store (e_tuple fei) j id in
        write_extents fuel' meta b_id (j + 1) (mkExtentInfo (e_timeLastModified fei) (e_len fei) l)
    end
  else Done fei.

Section client.
Context (c : fs_client).

Definition header (x : FsCtx) (b : sendbuf) (dst o : Z) : RawVMsg :=
  with_op (with_dst (fill_raw_header c (b_raw b) x) dst) o.

(** ** nrfsRead *)

Inductive read_state :=
  | RdMeta (x : FsCtx)
  | RdMeta2 (x : FsCtx)
  | RdData (x : FsCtx) (meta : FileMeta) (i cur_size length_copied : Z).

Definition read_start (x : FsCtx) (b : sendbuf) : outcome (action read_state) :=
  let! path := correct (f_file x) in
  Done (Post (LogRaw (f_index_s_id x) (f_index_t_id x)) sizeof_MetaReadReq
    (QMetaRead (mkMetaReadReq
      (with_log_id (header x b (f_index_s_id x) kEnumReadIndexReq) UINT64_MAX)
      (b_fei b) kEnumFsMetaRead path)) (RdMeta x)).

(** The head of the loop, and its body up to the reply, which is not looked at. *)
Definition read_loop (cnt : Z) (x : FsCtx) (meta : FileMeta) (i cur_offset length_copied : Z)
    (b : sendbuf) : outcome (action read_state) :=
  if (i <? cnt) && (cur_offset <? size meta) then
    let cur_size :=
      if size meta <? wrap 64 (f_size x + cur_offset) then wrap 64 (size meta - cur_offset)
      else f_size x in
    let b_id := wrap 32 (cur_offset / BLOCK_SIZE) in
    let e_id := wrap 32 (wrap 64 (cur_offset + cur_size + BLOCK_SIZE - 1) / BLOCK_SIZE) in
    let! fei := read_extents loop_fuel meta b_id (wrap 32 (e_id - b_id + 1)) 0
                  (mkExtentInfo (e_timeLastModified (b_fei b)) 0 (e_tuple (b_fei b))) in
    let! path := correct (f_file x) in
    Done (Post (LogRaw (f_data_s_id x) (f_data_t_id x)) sizeof_DataReadReq
      (QDataRead (mkDataReadReq (header x b (f_data_s_id x) kEnumReadLog) fei path cur_size (f_offset x)))
      (RdData x meta i cur_size length_copied))
  else Done (Return (signed 32 length_copied)).

Definition read_meta (cnt : Z) (x : FsCtx) (m : incoming) (b : sendbuf)
    : outcome (action read_state) :=
  let! meta := attribute_of m in
  if count meta =? MAX_FILE_EXTENT_COUNT then Done (Return 0)
  else read_loop cnt x meta 0 (f_offset x) 0 b.

Definition read_resume (cnt : Z) (s : read_state) (m : incoming) (b : sendbuf)
    : outcome (action read_state) :=
  match s with
  | RdMeta x =>
      if op_of (incoming_raw m) =? kEnumReadIndexReq then Done (Wait (RdMeta2 (in_switch x)))
      else read_meta cnt x m b
  | RdMeta2 x => read_meta cnt x m b
  | RdData x meta i cur_size length_copied =>
      read_loop cnt x meta (i + 1) (wrap 64 ((i + 1) * f_size x + f_offset x))
        (wrap 64 (length_copied + cur_size)) b
  end.

(** ** nrfsWrite *)

Inductive write_state :=
  | WrMeta (x : FsCtx)
  | WrMeta2 (x : FsCtx)
  | WrData (x : FsCtx) (meta : FileMeta) (i length_copied : Z)
  | WrIndex (x : FsCtx) (meta : FileMeta) (i length_copied : Z).

(** The head of the loop, and its body up to the reply of the data node. *)
Definition write_loop (cnt : Z) (x : FsCtx) (meta : FileMeta) (i length_copied : Z) (b : sendbuf)
    : outcome (action write_state) :=
  if i <? cnt then
    let cur_offset := wrap 64 (i * f_size x + f_offset x) in
    let b_id := signed 32 (cur_offset / BLOCK_SIZE) in
    let e_id := signed 32 (wrap 64 (cur_offset + f_size x + BLOCK_SIZE - 1) / BLOCK_SIZE) in
    if MAX_FILE_EXTENT_COUNT <? e_id then Done (Return (signed 32 length_copied))
    else
      let! fei := write_extents loop_fuel meta b_id 0
                    (mkExtentInfo (e_timeLastModified (b_fei b)) (wrap 64 (b_id - e_id + 1))
                       (e_tuple (b_fei b))) in
      let! path := correct (f_file x) in
      Done (Post (LogRc (f_data_s_id x) (f_data_t_id x)) (get_data_size (f_size x))
        (QAppend (mkDataBuffer
           (mkMetaUpdateReq (header x b (f_data_s_id x) kEnumAppendReq) fei path (f_size x) (f_offset x))
           (b_data b)))
        (WrData x meta i length_copied))
  else Done (Return (signed 32 length_copied)).

(** A write of whole blocks does not read the file's meta; only its count is set. *)
Definition write_start (cnt : Z) (x : FsCtx) (garbage : FileMeta) (b : sendbuf)
    : outcome (action write_state) :=
  if negb (f_size x mod BLOCK_SIZE =? 0) || negb (f_offset x mod BLOCK_SIZE =? 0) then
    let! path := correct (f_file x) in
    Done (Post (LogRaw (f_index_s_id x) (f_index_t_id x)) sizeof_MetaReadReq
      (QMetaRead (mkMetaReadReq (header x b (f_index_s_id x) kEnumReadIndexReq)
        (b_fei b) kEnumFsMetaRead path)) (WrMeta x))
  else write_loop cnt x (set_count garbage 0) 0 0 b.

Definition write_meta (cnt : Z) (x : FsCtx) (m : incoming) (b : sendbuf)
    : outcome (action write_state) :=
  let! meta := attribute_of m in
  if count meta =? MAX_FILE_EXTENT_COUNT then Done (Return 0) else write_loop cnt x meta 0 0 b.

(** The update sent to the index node: the reply with a header of its own. *)
Definition update_request (x : FsCtx) (a : MetaUpdateReq) : MetaUpdateReq :=
  update_raw (fun r => with_send_cnt
    (mkRaw (KvMessage.mkHeader (f_index_s_id x) (fc_server_id c) (fc_thread_id c) (f_coro_id x) 0
              kEnumUpdateIndexReq 0)
       (flag r) (switch_key r) (kv_g_id r) (kv_c_id r) (magic r) (server_map r) (qp_map r)
       (coro_id r) (key r) (log_id r) (route_port r) (route_map r) (client_port r) (send_cnt r)
       (index_port r) (magic_in_switch r) (timestamp r)) 0) a.

Definition write_resume (cnt : Z) (s : write_state) (m : incoming) (b : sendbuf)
    : outcome (action write_state) :=
  match s with
  | WrMeta x =>
      if op_of (incoming_raw m) =? kEnumReadIndexReq then Done (Wait (WrMeta2 (in_switch x)))
      else write_meta cnt x m b
  | WrMeta2 x => write_meta cnt x m b
  | WrData x meta i length_copied =>
      if op_of (incoming_raw m) =? kEnumMultiCastPkt then
        write_loop cnt x meta (i + 1) (wrap 64 (length_copied + f_size x)) b
      else
        let! a := update_of m in
        Done (Post (LogRaw (f_index_s_id x) (f_index_t_id x)) sizeof_MetaUpdateReq
          (QMetaUpdate (update_request x a)) (WrIndex x meta i length_copied))
  | WrIndex x meta i length_copied =>
      write_loop cnt x meta (i + 1) (wrap 64 (length_copied + f_size x)) b
  end.
End client.

(** ** Running a coroutine against an environment

    [reply_to] is everything that happens between a post and the resumption; it
    threads the state of the environment.  A coroutine that only waits gets the
    next message of the environment, [second]. *)
Section run.
Context {S E : Type} (resume : S -> incoming -> sendbuf -> outcome (action S)).
Context (reply_to : E -> ret_qp -> Z -> request -> outcome (incoming * E)).
Context (second : E -> outcome (incoming * E)).

(** The requests posted with the messages that answered them, the result, and the
    environment after it. *)
Fixpoint run_coro (fuel : nat) (e : E) (b : nat -> sendbuf) (a : action S)
    : outcome (list (request * incoming) * Z * E) :=
  match fuel with
  | O => Fault Diverges
  | Datatypes.S fuel' =>
      match a with
      | Return n => Done ([], n, e)
      | Wait k =>
          let! (m, e1) := second e in
          let! a' := resume k m (b 0%nat) in
          run_coro fuel' e1 (fun i => b (Datatypes.S i)) a'
      | Post qp size q k =>
          let! (m, e1) := reply_to e qp size q in
          let! a' := resume k m (b 0%nat) in
          let! (trace, n, e2) := run_coro fuel' e1 (fun i => b (Datatypes.S i)) a' in
          Done ((q, m) :: trace, n, e2)
      end
  end.

Lemma run_coro_post k e b qp size q st :
  run_coro (Datatypes.S k) e b (Post qp size q st) =
    let! (m, e1) := reply_to e qp size q in
    let! a' := resume st m (b 0%nat) in
    let! (trace, n, e2) := run_coro k e1 (fun i => b (Datatypes.S i)) a' in
    Done ((q, m) :: trace, n, e2).
Proof. reflexivity. Qed.

(** More fuel does not change a run that ended. *)
Lemma run_coro_more k e b a r :
  run_coro k e b a = Done r -> run_coro (Datatypes.S k) e b a = Done r.
Proof.
  revert e b a r. induction k as [|k IH]; intros e b a r; [done|]. destruct a as [qp size q st|st|n]; [| |done].
  - rewrite !run_coro_post. destruct (reply_to e qp size q) as [[m e1]|]; [|done]. cbn [obind].
    destruct (resume st m (b 0%nat)) as [a'|]; [|done]. cbn [obind].
    destruct (run_coro k e1 _ a') as [r'|] eqn:Er; [|done]. by rewrite (IH _ _ _ _ Er).
  - cbn [run_coro]. destruct (second e) as [[m e1]|]; [|done]. cbn [obind].
    destruct (resume st m (b 0%nat)) as [a'|]; [|done]. cbn [obind]. apply IH.
Qed.
End run.

(** ** Reading *)

(** The extents a file meta may hold. *)
Definition meta_ok (m : FileMeta) : Prop :=
  zlen (tuple m) = MAX_FILE_EXTENT_COUNT /\ 0 <= count m <= MAX_FILE_EXTENT_COUNT /\
  0 <= size m <= MAX_FILE_EXTENT_COUNT * BLOCK_SIZE.

(** The block that stores block [i] of the file, if there is one. *)
Definition extent_at (m : FileMeta) (i : Z) : option Z :=
  if i <? count m then
    match zget (tuple m) i with
    | Some e => if countExtentBlock e =? 0 then None else Some (indexExtentStartBlock e)
    | None => None
    end
  else None.

Lemma read_extents_spec fuel m b_id n j fei :
  meta_ok m -> 0 <= b_id <= 64 -> 0 <= j -> n <= 12 -> n - j <= Z.of_nat fuel ->
  zlen (e_tuple fei) = MAX_MESSAGE_BLOCK_COUNT -> 0 <= e_len fei <= j ->
  exists fei', read_extents fuel m b_id n j fei = Done fei' /\
    zlen (e_tuple fei') = MAX_MESSAGE_BLOCK_COUNT /\ e_len fei <= e_len fei' <= Z.max j n /\
    (forall i, i < j -> zget (e_tuple fei') i = zget (e_tuple fei) i) /\
    (forall id, j < n -> extent_at m (j + b_id) = Some id ->
       zget (e_tuple fei') j = Some id /\ e_len fei < e_len fei').
Proof.
  intros (Ht & Hc & _) Hb. unfold MAX_MESSAGE_BLOCK_COUNT, MAX_FILE_EXTENT_COUNT in *.
  revert j fei. induction fuel as [|fuel IH]; intros j fei Hj Hn Hf Hl He; cbn [read_extents].
  - rewrite (proj2 (Z.ltb_ge _ _)) by lia. exists fei. split_and!; try done; lia.
  - destruct (Z.ltb_spec j n) as [Hlt|Hge].
    2:{ exists fei. split_and!; try done; lia. }
    rewrite (wrap_small 32) by (unfold in_width; lia).
    assert (Hbody : exists fei1, (if j + b_id <? count m then
        let! e := load (tuple m) (j + b_id) in
        if negb (countExtentBlock e =? 0) then
          let! l := store (e_tuple fei) j (indexExtentStartBlock e) in
          Done (mkExtentInfo (e_timeLastModified fei) (wrap 64 (e_len fei + 1)) l)
        else Done fei else Done fei) = Done fei1 /\ zlen (e_tuple fei1) = 12 /\
      e_len fei <= e_len fei1 <= j + 1 /\
      (forall i, i < j -> zget (e_tuple fei1) i = zget (e_tuple fei) i) /\
      (forall id, extent_at m (j + b_id) = Some id ->
         zget (e_tuple fei1) j = Some id /\ e_len fei < e_len fei1)).
    { unfold extent_at. destruct (Z.ltb_spec (j + b_id) (count m)) as [Hi|Hi].
      2:{ exists fei. split_and!; try done; lia. }
      destruct (zget_is_Some (tuple m) (j + b_id)) as [e Ee]; [lia|].
      rewrite (load_in_range _ _ _ Ee), Ee. cbn [obind]. destruct (countExtentBlock e =? 0); cbn [negb].
      - exists fei. split_and!; try done; lia.
      - rewrite store_in_range by lia. cbn [obind]. rewrite wrap_small by (unfold in_width; lia).
        eexists. split; [reflexivity|]. cbn [e_tuple e_len]. split_and!; [by rewrite zlen_zset|lia|lia| |].
        + intros i Hij. by rewrite zget_zset_ne by lia.
        + intros id [= <-]. rewrite zget_zset_eq by lia. split; [done|lia]. }
    destruct Hbody as (fei1 & -> & Hl1 & He1 & Hz1 & Hid1). cbn [obind].
    destruct (IH (j + 1) fei1) as (fei' & -> & Hl' & He' & Hz' & _); [lia..|].
    exists fei'. split_and!; try done; try lia.
    + intros i Hij. rewrite Hz' by lia. by apply Hz1.
    + intros id _ Eid. destruct (Hid1 id Eid). rewrite Hz' by lia. split; [done|lia].
Qed.

Section read.
Context (c : fs_client) (cnt : Z) (x : FsCtx) (path : list Z) (m : FileMeta).
Notation s := (f_size x).
Notation o := (f_offset x).
Hypothesis size_ok : 0 < s <= BLOCK_SIZE.
Hypothesis range_ok : 0 <= o /\ 0 <= cnt < 2 ^ 31 /\ o + cnt * s < 2 ^ 63.
Hypothesis path_ok : correct (f_file x) = Done path.
Hypothesis m_ok : meta_ok m.

(** The request for round [i], as far as the data node looks at it. *)
Definition reads_round (i : Z) (q : request) : Prop :=
  exists raw fei, q = QDataRead (mkDataReadReq raw fei path (Z.min s (size m - (o + i * s))) o) /\
    op_of raw = kEnumReadLog /\ KvMessage.src_s_id (rpc_header raw) = fc_server_id c /\
    zlen (e_tuple fei) = MAX_MESSAGE_BLOCK_COUNT /\ 0 <= e_len fei <= 3 /\
    forall id, extent_at m ((o + i * s) / BLOCK_SIZE) = Some id ->
      zget (e_tuple fei) 0 = Some id /\ 0 < e_len fei.

Lemma read_loop_spec i len b :
  0 <= i -> i < cnt -> o + i * s < size m -> zlen (e_tuple (b_fei b)) = MAX_MESSAGE_BLOCK_COUNT ->
  exists q, read_loop c cnt x m i (o + i * s) len b =
      Done (Post (LogRaw (f_data_s_id x) (f_data_t_id x)) sizeof_DataReadReq q
        (RdData x m i (Z.min s (size m - (o + i * s))) len)) /\ reads_round i q.
Proof.
  intros Hi Hc Hlt Hb. unfold read_loop. pose proof m_ok as (Ht & Hcm & Hsm).
  unfold MAX_FILE_EXTENT_COUNT, MAX_MESSAGE_BLOCK_COUNT, BLOCK_SIZE in *.
  rewrite !(proj2 (Z.ltb_lt _ _)) by lia. cbn [andb].
  rewrite (wrap_small 64 (s + (o + i * s))) by (unfold in_width; lia).
  rewrite (wrap_small 64 (size m - (o + i * s))) by (unfold in_width; lia).
  assert (E : (if size m <? s + (o + i * s) then size m - (o + i * s) else s) =
    Z.min s (size m - (o + i * s))) by (destruct (Z.ltb_spec (size m) (s + (o + i * s))); lia).
  rewrite E. set (cs := Z.min s (size m - (o + i * s))) in *. set (cur := o + i * s) in *.
  assert (Hcs : 0 < cs <= s) by lia. rewrite (wrap_small 64 (cur + cs + 4 * 1024 - 1)) by (unfold in_width; lia).
  rewrite (wrap_small 32 (cur / (4 * 1024))) by (unfold in_width; lia).
  rewrite (wrap_small 32 ((cur + cs + 4 * 1024 - 1) / (4 * 1024))) by (unfold in_width; lia).
  rewrite (wrap_small 32 (_ - _ + 1)) by (unfold in_width; lia).
  destruct (read_extents_spec loop_fuel m (cur / (4 * 1024))
    ((cur + cs + 4 * 1024 - 1) / (4 * 1024) - cur / (4 * 1024) + 1) 0
    (mkExtentInfo (e_timeLastModified (b_fei b)) 0 (e_tuple (b_fei b))))
    as (fei & -> & Hl & He & _ & Hid); [done|lia|lia|lia|unfold loop_fuel; lia|done|cbn; lia|].
  rewrite path_ok. cbn [obind]. eexists. split; [reflexivity|]. eexists _, fei. cbn [e_len] in He.
  split_and!; try done; try lia. intros id Eid. destruct (Hid id); [lia|done|]. cbn [e_len] in *. done.
Qed.

(** Rounds [i] to [cnt] - 1, as far as the file goes. *)
Definition rounds_left (i : Z) : Z := Z.max 0 (Z.min ((cnt - i) * s) (size m - (o + i * s))).

Section environment.
Context {E : Type} (reply_to : E -> ret_qp -> Z -> request -> outcome (incoming * E)).
Context (second : E -> outcome (incoming * E)).
Hypothesis answers : forall e qp size q, op_of (req_raw q) = kEnumReadLog ->
  exists r e', reply_to e qp size q = Done (r, e').

Lemma rounds_step i :
  0 <= i -> i < cnt -> o + i * s < size m ->
  rounds_left i = Z.min s (size m - (o + i * s)) + rounds_left (i + 1).
Proof. clear - size_ok. intros. unfold rounds_left. nia. Qed.

Lemma rounds_end i : 0 <= i -> ~ (i < cnt /\ o + i * s < size m) -> rounds_left i = 0.
Proof. clear - size_ok. intros. unfold rounds_left. nia. Qed.

Lemma read_rounds k i len e b b0 :
  Z.max 0 (cnt - i) < Z.of_nat k -> 0 <= i <= cnt -> 0 <= len -> len + rounds_left i < 2 ^ 31 ->
  (forall n, zlen (e_tuple (b_fei (b n))) = MAX_MESSAGE_BLOCK_COUNT) ->
  zlen (e_tuple (b_fei b0)) = MAX_MESSAGE_BLOCK_COUNT ->
  exists a, read_loop c cnt x m i (o + i * s) len b0 = Done a /\ exists tr e',
    run_coro (read_resume c cnt) reply_to second k e b a = Done (tr, len + rounds_left i, e') /\
    (forall j, is_Some (tr !! j) <-> i + Z.of_nat j < cnt /\ o + (i + Z.of_nat j) * s < size m) /\
    forall j q r, tr !! j = Some (q, r) -> reads_round (i + Z.of_nat j) q.
Proof.
  revert i len e b b0. induction k as [|k IH]; intros i len e b b0 Hk Hi Hl Hlen Hb Hb0; [lia|].
  destruct (decide (i < cnt /\ o + i * s < size m)) as [[Hc Hs]|Hend].
  - destruct (read_loop_spec i len b0) as (q & -> & Hq); [lia..|done|].
    pose proof Hq as (raw & fei & Eq & Hop & _).
    destruct (answers e (LogRaw (f_data_s_id x) (f_data_t_id x)) sizeof_DataReadReq q) as (r & e1 & Er).
    { by rewrite Eq. }
    eexists. split; [reflexivity|]. cbn [run_coro]. rewrite Er. cbn [obind read_resume].
    rewrite rounds_step in Hlen |- * by lia.
    assert (Hr1 : 0 <= rounds_left (i + 1)) by (unfold rounds_left; lia).
    set (cs := Z.min s (size m - (o + i * s))) in *.
    assert (Hnext : (i + 1) * s + o < 2 ^ 63) by (clear - range_ok size_ok Hc Hi; nia).
    assert (0 <= (i + 1) * s) by (clear - size_ok Hi; nia).
    rewrite (wrap_small 64 ((i + 1) * s + o)), (wrap_small 64 (len + cs)) by (unfold in_width; lia).
    rewrite (Z.add_comm _ o).
    destruct (IH (i + 1) (len + cs) e1 (fun n => b (S n)) (b 0%nat))
      as (a & -> & tr & e' & Erun & Hsome & Hget); [lia|lia|lia|lia|done|done|].
    cbn [obind]. rewrite Erun. cbn [obind]. eexists _, e'. split.
    { do 3 f_equal. lia. }
    split.
    + intros [|j]; cbn [lookup list_lookup].
      * rewrite Z.add_0_r. split; [done|eauto].
      * rewrite Hsome. replace (i + 1 + Z.of_nat j) with (i + Z.of_nat (S j)) by lia. done.
    + intros [|j] q' r'; cbn [lookup list_lookup].
      * intros [= <- <-]. by rewrite Z.add_0_r.
      * intros Ej%Hget. by replace (i + Z.of_nat (S j)) with (i + 1 + Z.of_nat j) by lia.
  - rewrite rounds_end in Hlen |- * by (lia || done). rewrite Z.add_0_r in *.
    unfold read_loop.
    assert ((i <? cnt) && (o + i * s <? size m) = false) as ->.
    { apply andb_false_iff. rewrite !Z.ltb_ge. clear - Hend. lia. }
    eexists. split; [reflexivity|]. exists [], e. cbn [run_coro].
    rewrite signed_small by lia. split; [done|]. split.
    + intros j. rewrite lookup_nil. split; [by intros []|]. intros [H1 H2]. destruct Hend.
      clear - H1 H2 size_ok. nia.
    + intros j q r. by rewrite lookup_nil.
Qed.

Hypothesis meta_answer : forall e qp size q, op_of (req_raw q) = kEnumReadIndexReq ->
  exists r e', reply_to e qp size q = Done (r, e') /\ attribute_of r = Done m /\
    op_of (incoming_raw r) <> kEnumReadIndexReq.

Lemma read_run e b :
  (forall n, zlen (e_tuple (b_fei (b n))) = MAX_MESSAGE_BLOCK_COUNT) ->
  exists a, read_start c x (b 0%nat) = Done a /\ exists tr n e',
    run_coro (read_resume c cnt) reply_to second (S (S (Z.to_nat cnt))) e (fun i => b (S i)) a =
      Done (tr, n, e') /\
    if count m =? MAX_FILE_EXTENT_COUNT then n = 0 /\ length tr = 1%nat
    else n = rounds_left 0 /\
      (forall j, is_Some (tr !! S j) <-> Z.of_nat j < cnt /\ o + Z.of_nat j * s < size m) /\
      forall j q r, tr !! S j = Some (q, r) -> reads_round (Z.of_nat j) q.
Proof.
  intros Hb. unfold read_start. rewrite path_ok. cbn [obind]. eexists. split; [reflexivity|].
  remember (S (Z.to_nat cnt)) as k eqn:Hk. cbn [run_coro].
  match goal with |- context [reply_to e ?qp ?sz ?q] =>
    destruct (meta_answer e qp sz q eq_refl) as (r & e1 & -> & Ha & Ho) end.
  cbn [obind read_resume]. rewrite (proj2 (Z.eqb_neq _ _)) by done. unfold read_meta.
  rewrite Ha. cbn [obind]. destruct (count m =? MAX_FILE_EXTENT_COUNT).
  { cbn [obind]. rewrite Hk. cbn [run_coro obind]. by eexists _, 0, e1. }
  pose proof m_ok as (_ & _ & Hsm). unfold MAX_FILE_EXTENT_COUNT, BLOCK_SIZE in Hsm.
  assert (0 <= rounds_left 0 < 2 ^ 31) by (unfold rounds_left; lia).
  replace (read_loop c cnt x m 0 o 0 (b 1%nat)) with (read_loop c cnt x m 0 (o + 0 * s) 0 (b 1%nat))
    by (f_equal; lia).
  destruct (read_rounds k 0 0 e1 (fun i => b (S (S i))) (b 1%nat))
    as (a & -> & tr & e' & Erun & Hsome & Hget); [lia..|done|done|]. cbn [obind].
  rewrite Erun. cbn [obind]. eexists _, _, e'. split; [reflexivity|]. split; [lia|]. split.
  - intros j. cbn [lookup list_lookup]. apply Hsome.
  - intros j q r'. cbn [lookup list_lookup]. apply Hget.
Qed.
End environment.
End read.

(** C36. What a read asks for and returns: when the index node answers with the meta
    of a file, nrfsRead ends after at most cnt data requests; it sends one for each
    round that starts inside the file, of the size that is left there, naming the
    block that stores the round's first block, and returns the length of the
    overlap of the range with the file.  Every request carries the offset of the
    whole read.  A meta with all 64 extents is taken for a directory: nothing is
    read. *)
Theorem read_covers_range {E} c cnt x path m (reply_to : E -> ret_qp -> Z -> request -> outcome (incoming * E))
    second e b :
  0 < f_size x <= BLOCK_SIZE ->
  0 <= f_offset x /\ 0 <= cnt < 2 ^ 31 /\ f_offset x + cnt * f_size x < 2 ^ 63 ->
  correct (f_file x) = Done path -> meta_ok m ->
  (forall n, zlen (e_tuple (b_fei (b n))) = MAX_MESSAGE_BLOCK_COUNT) ->
  (forall e qp size q, op_of (req_raw q) = kEnumReadLog ->
     exists r e', reply_to e qp size q = Done (r, e')) ->
  (forall e qp size q, op_of (req_raw q) = kEnumReadIndexReq ->
     exists r e', reply_to e qp size q = Done (r, e') /\ attribute_of r = Done m /\
       op_of (incoming_raw r) <> kEnumReadIndexReq) ->
  exists a, read_start c x (b 0%nat) = Done a /\ exists tr n e',
    run_coro (read_resume c cnt) reply_to second (S (S (Z.to_nat cnt))) e (fun i => b (S i)) a =
      Done (tr, n, e') /\
    if count m =? MAX_FILE_EXTENT_COUNT then n = 0 /\ length tr = 1%nat
    else n = Z.max 0 (Z.min (cnt * f_size x) (size m - f_offset x)) /\
      (forall j, is_Some (tr !! S j) <->
         Z.of_nat j < cnt /\ f_offset x + Z.of_nat j * f_size x < size m) /\
      forall j q r, tr !! S j = Some (q, r) -> reads_round c x path m (Z.of_nat j) q.
Proof.
  intros Hs Hr Hp Hm Hb Hd Hi.
  destruct (read_run c cnt x path m Hs Hr Hp Hm reply_to second Hd Hi e b Hb)
    as (a & Ea & tr & n & e' & Er & Hn). exists a. split; [done|]. exists tr, n, e'. split; [done|].
  destruct (count m =? _); [done|]. destruct Hn as (-> & ? & ?). split_and!; [|done..].
  unfold rounds_left. f_equal. f_equal; lia.
Qed.

(** ** Writing whole blocks *)

Definition is_append (q : request) : bool := match q with QAppend _ => true | _ => false end.

Section write.
Context (c : fs_client) (cnt : Z) (x : FsCtx) (path : list Z).
Notation o := (f_offset x).
Hypothesis whole_ok : f_size x = BLOCK_SIZE /\ o mod BLOCK_SIZE = 0.
Hypothesis range_ok : 0 <= o < 2 ^ 32 /\ 0 <= cnt < 2 ^ 20.
Hypothesis path_ok : correct (f_file x) = Done path.

(** A request to append: it names no block, and starts at [o] in every round. *)
Definition whole_append (b : sendbuf) : DataBuffer :=
  mkDataBuffer (mkMetaUpdateReq (header c x b (f_data_s_id x) kEnumAppendReq)
    (mkExtentInfo (e_timeLastModified (b_fei b)) 0 (e_tuple (b_fei b))) path BLOCK_SIZE o) (b_data b).

Lemma write_loop_spec meta i len b :
  0 <= i <= cnt ->
  write_loop c cnt x meta i len b =
    if decide (i < cnt /\ o / BLOCK_SIZE + i < MAX_FILE_EXTENT_COUNT)
    then Done (Post (LogRc (f_data_s_id x) (f_data_t_id x)) (get_data_size BLOCK_SIZE)
           (QAppend (whole_append b)) (WrData x meta i len))
    else Done (Return (signed 32 len)).
Proof.
  intros Hi. unfold write_loop. destruct whole_ok as [Es Ho]. rewrite Es.
  unfold MAX_FILE_EXTENT_COUNT, BLOCK_SIZE in *. clear whole_ok.
  destruct (Z.ltb_spec i cnt) as [Hc|Hc]; [|by rewrite decide_False by lia].
  rewrite (wrap_small 64 (i * (4 * 1024) + o)) by (unfold in_width; lia).
  rewrite (wrap_small 64) by (unfold in_width; lia).
  assert (E : (i * (4 * 1024) + o + 4 * 1024 + 4 * 1024 - 1) / (4 * 1024) =
    (i * (4 * 1024) + o) / (4 * 1024) + 1) by lia.
  assert (E' : (i * (4 * 1024) + o) / (4 * 1024) = o / (4 * 1024) + i) by lia.
  rewrite E, E', (signed_small 32 (o / (4 * 1024) + i)), (signed_small 32 (o / (4 * 1024) + i + 1)) by lia.
  case_decide as Hd.
  - rewrite (proj2 (Z.ltb_ge _ _)) by lia.
    replace (o / (4 * 1024) + i - (o / (4 * 1024) + i + 1) + 1) with 0 by lia.
    change (wrap 64 0) with 0. cbn [loop_fuel write_extents e_len]. change (0 <? 0) with false.
    cbn [obind]. rewrite path_ok. cbn [obind]. unfold whole_append. done.
  - by rewrite (proj2 (Z.ltb_lt _ _)) by lia.
Qed.

Section environment.
Context {E : Type} (reply_to : E -> ret_qp -> Z -> request -> outcome (incoming * E)).
Context (second : E -> outcome (incoming * E)).
Hypothesis append_answer : forall e qp size q, op_of (req_raw q) = kEnumAppendReq ->
  exists r e', reply_to e qp size q = Done (r, e') /\
    (op_of (incoming_raw r) = kEnumMultiCastPkt \/ exists a, update_of r = Done a).
Hypothesis update_answer : forall e qp size q, op_of (req_raw q) = kEnumUpdateIndexReq ->
  exists r e', reply_to e qp size q = Done (r, e').

Definition blocks_left (i : Z) : Z :=
  Z.max 0 (Z.min (cnt - i) (MAX_FILE_EXTENT_COUNT - o / BLOCK_SIZE - i)).

Lemma blocks_step i : i < cnt /\ o / BLOCK_SIZE + i < MAX_FILE_EXTENT_COUNT ->
  blocks_left i = 1 + blocks_left (i + 1).
Proof. clear. unfold blocks_left. intros. lia. Qed.

(** An append of the whole block, or the update that reports one of them. *)
Definition write_request (q : request) : Prop :=
  (exists b, q = QAppend (whole_append b)) \/ exists a, q = QMetaUpdate (update_request c x a).

Lemma write_rounds k meta i len e b b0 :
  2 * (cnt - i) < Z.of_nat k -> 0 <= i <= cnt -> 0 <= len ->
  len + blocks_left i * BLOCK_SIZE < 2 ^ 31 ->
  exists a, write_loop c cnt x meta i len b0 = Done a /\ exists tr e',
    run_coro (write_resume c cnt) reply_to second k e b a =
      Done (tr, len + blocks_left i * BLOCK_SIZE, e') /\
    Z.of_nat (length (List.filter is_append tr.*1)) = blocks_left i /\ Forall write_request tr.*1.
Proof.
  revert i len e b b0. induction k as [k IH] using lt_wf_ind; intros i len e b b0 Hk Hi Hl Hlen.
  rewrite write_loop_spec by done. case_decide as Hd.
  - eexists. split; [reflexivity|]. destruct k as [|[|k]]; [lia|lia|]. rewrite run_coro_post.
    match goal with |- context [reply_to e ?qp ?sz ?q] =>
      destruct (append_answer e qp sz q eq_refl) as (r & e1 & -> & Hr) end.
    cbn [obind write_resume]. rewrite blocks_step in Hlen |- * by done.
    assert (Hb1 : 0 <= blocks_left (i + 1)) by (unfold blocks_left; lia).
    destruct whole_ok as [Es _]. unfold BLOCK_SIZE in Hlen.
    destruct (Z.eqb_spec (op_of (incoming_raw r)) kEnumMultiCastPkt) as [Eo|Eo].
    + rewrite Es, (wrap_small 64) by (unfold in_width, BLOCK_SIZE; lia).
      destruct (IH (S k) ltac:(lia) (i + 1) (len + BLOCK_SIZE) e1 (fun n => b (S n)) (b 0%nat))
        as (a & -> & tr & e' & Erun & Hn & Hf); try (unfold BLOCK_SIZE in *; lia).
      cbn [obind]. rewrite Erun. cbn [obind]. eexists _, e'. split; [do 3 f_equal; lia|].
      cbn [fmap list_fmap fst List.filter is_append length]. split; [lia|].
      constructor; [left; by eexists|done].
    + destruct Hr as [?|[a Ha]]; [done|]. rewrite Ha. cbn [obind]. rewrite run_coro_post.
      match goal with |- context [reply_to e1 ?qp ?sz ?q] =>
        destruct (update_answer e1 qp sz q eq_refl) as (r2 & e2 & ->) end.
      cbn [obind write_resume]. rewrite Es, (wrap_small 64) by (unfold in_width, BLOCK_SIZE; lia).
      destruct (IH k ltac:(lia) (i + 1) (len + BLOCK_SIZE) e2 (fun n => b (S (S n))) (b 1%nat))
        as (a' & -> & tr & e' & Erun & Hn & Hf); try (unfold BLOCK_SIZE in *; lia).
      cbn [obind]. rewrite Erun. cbn [obind]. eexists _, e'. split; [do 3 f_equal; lia|].
      cbn [fmap list_fmap fst List.filter is_append length]. split; [lia|].
      constructor; [left; by eexists|]. constructor; [right; by eexists|done].
  - assert (E0 : blocks_left i = 0) by (unfold blocks_left; lia).
    rewrite E0 in *. rewrite Z.mul_0_l, Z.add_0_r in *. eexists. split; [reflexivity|].
    destruct k as [|k]; [lia|]. cbn [run_coro]. rewrite signed_small by lia.
    exists [], e. by split_and!.
Qed.
End environment.
End write.

(** What a write of whole blocks sends and returns: nrfsWrite reads no meta; it
    ends after it has posted one append per block, at most up to the 64th block of
    the file, each followed by an update of the index node unless the switch has
    multicast it, and returns the bytes of these blocks.  Every append and so every
    update carries the offset of the whole write, and names no old block. *)
Theorem write_covers_range {E} c cnt x path garbage
    (reply_to : E -> ret_qp -> Z -> request -> outcome (incoming * E)) second e b :
  f_size x = BLOCK_SIZE /\ f_offset x mod BLOCK_SIZE = 0 ->
  0 <= f_offset x < 2 ^ 32 /\ 0 <= cnt < 2 ^ 20 -> correct (f_file x) = Done path ->
  (forall e qp size q, op_of (req_raw q) = kEnumAppendReq ->
     exists r e', reply_to e qp size q = Done (r, e') /\
       (op_of (incoming_raw r) = kEnumMultiCastPkt \/ exists a, update_of r = Done a)) ->
  (forall e qp size q, op_of (req_raw q) = kEnumUpdateIndexReq ->
     exists r e', reply_to e qp size q = Done (r, e')) ->
  let blocks := Z.max 0 (Z.min cnt (MAX_FILE_EXTENT_COUNT - f_offset x / BLOCK_SIZE)) in
  exists a, write_start c cnt x garbage (b 0%nat) = Done a /\ exists tr e',
    run_coro (write_resume c cnt) reply_to second (S (2 * Z.to_nat cnt)) e (fun i => b (S i)) a =
      Done (tr, blocks * BLOCK_SIZE, e') /\
    Z.of_nat (length (List.filter is_append tr.*1)) = blocks /\
    Forall (fun q => match q with
      | QAppend d => mu_path (db_req d) = path /\ mu_size (db_req d) = BLOCK_SIZE /\
          mu_offset (db_req d) = f_offset x /\ e_len (mu_fei (db_req d)) = 0
      | QMetaUpdate u => exists a, u = update_request c x a
      | _ => False
      end) tr.*1.
Proof.
  intros Hw Hr Hp Ha Hu blocks. unfold write_start. destruct Hw as [Es Eo].
  rewrite Es, Eo, Z.mod_same by done. cbn [negb Z.eqb orb].
  assert (Eb : blocks_left cnt x 0 = blocks) by (unfold blocks, blocks_left; lia).
  destruct (write_rounds c cnt x path (conj Es Eo) Hr Hp reply_to second Ha Hu (S (2 * Z.to_nat cnt))
    (set_count garbage 0) 0 0 e (fun i => b (S i)) (b 0%nat)) as (a & Ea & tr & e' & Erun & Hn & Hf); [lia..| |].
  { rewrite Eb. unfold blocks, MAX_FILE_EXTENT_COUNT, BLOCK_SIZE. lia. }
  exists a. split; [done|]. exists tr, e'. rewrite Erun, Hn, Eb. split_and!; [done..|].
  eapply Forall_impl; [exact Hf|]. intros q [[b' ->]|[a' ->]]; cbn; eauto.
Qed.

(** ** Examples: an environment that answers every request *)

Definition sample_ctx (offset : Z) : FsCtx :=
  mkFsCtx 1 0 5 [47; 97] (sample_digest [47; 97]) 4096 offset 0 0 1 0 false.
Definition sample_buf (n : nat) : sendbuf := mkSendbuf (sample_raw 0) FsData.sample_fei [].
Definition sample_cl : fs_client := mkFsClient sample_flags 3 1 10.

(** A file of 9000 bytes. *)
Definition sample_file : FileMeta :=
  mkFileMeta 0 3 9000 ([mkExtent 0 5 1; mkExtent 0 2 1; mkExtent 0 7 1] ++ replicate 61 (mkExtent 0 0 0)).

Definition sample_reply (e : unit) (qp : ret_qp) (size : Z) (q : request) : outcome (incoming * unit) :=
  Done (IReply (if op_of (req_raw q) =? kEnumReadIndexReq
                then PMetaRead (mkMetaReadReply (sample_raw kEnumReadIndexReply) false sample_file)
                else if op_of (req_raw q) =? kEnumAppendReq
                then PAppend (mkMetaUpdateReq (sample_raw kEnumAppendReply) FsData.sample_fei [] 0 0)
                else PUpdate (sample_raw kEnumUpdateIndexReply) 0), e).
Definition sample_silence (e : unit) : outcome (incoming * unit) := Fault Diverges.

(** Four rounds are allowed, three fit the file. *)
Lemma read_covers_range_witness :
  exists a tr, read_start sample_cl (sample_ctx 0) (sample_buf 0) = Done a /\
    run_coro (read_resume sample_cl 4) sample_reply sample_silence 6 tt (fun i => sample_buf (S i)) a =
      Done (tr, 9000, tt) /\ length tr = 4%nat.
Proof.
  destruct (read_covers_range sample_cl 4 (sample_ctx 0) [47; 97] sample_file sample_reply sample_silence
    tt sample_buf) as (a & Ea & tr & n & e' & Er & Hn).
  - unfold BLOCK_SIZE. cbn. lia.
  - cbn. lia.
  - reflexivity.
  - split; [reflexivity|]. split; split; vm_compute; discriminate.
  - intros n. reflexivity.
  - intros e qp sz q Ho. by eexists _, _.
  - intros e qp sz q Ho. unfold sample_reply. rewrite Ho. eexists _, _. split; [reflexivity|].
    split; [reflexivity|]. discriminate.
  - change (count sample_file =? MAX_FILE_EXTENT_COUNT) with false in Hn. cbn iota in Hn.
    destruct Hn as (-> & Hsome & _). exists a, tr. split; [exact Ea|]. destruct e'.
    split; [exact Er|].
    destruct (proj2 (Hsome 2%nat) ltac:(vm_compute; split; reflexivity)) as [y2 Hy2].
    destruct (tr !! 4%nat) as [y3|] eqn:Hy3.
    + destruct (proj1 (Hsome 3%nat) ltac:(by eexists)) as [_ Hf]. vm_compute in Hf. discriminate.
    + apply lookup_lt_Some in Hy2. apply lookup_ge_None_1 in Hy3. lia.
Defined.

(** Three blocks from block 62 on: two fit the file. *)
Lemma write_covers_range_witness :
  exists a tr, write_start sample_cl 3 (sample_ctx 253952) sample_file (sample_buf 0) = Done a /\
    run_coro (write_resume sample_cl 3) sample_reply sample_silence 7 tt (fun i => sample_buf (S i)) a =
      Done (tr, 8192, tt) /\ length (List.filter is_append tr.*1) = 2%nat.
Proof.
  destruct (write_covers_range sample_cl 3 (sample_ctx 253952) [47; 97] sample_file sample_reply
    sample_silence tt sample_buf) as (a & Ea & tr & e' & Er & Hn & _).
  - split; reflexivity.
  - cbn. lia.
  - reflexivity.
  - intros e qp sz q Ho. unfold sample_reply. rewrite Ho. eexists _, _. split; [reflexivity|].
    right. eexists. reflexivity.
  - intros e qp sz q Ho. by eexists _, _.
  - exists a, tr. split; [exact Ea|]. destruct e'. split; [exact Er|].
    apply Nat2Z.inj. rewrite Hn. reflexivity.
Defined.
End FsClient.
