(* ===== verification/FsSystemModel.v ===== *)
(** * The file system as a whole: a client, the index node and the data node

    [Module FsSystem] composes nrfsRead and nrfsWrite of [FsClient] with the server
    loop of [FsServer] on both nodes.  The switch forwards: no reply is multicast
    and no read is answered on the way.  A request is a batch of its own, which the
    loop answers at once because a client waits for it. *)

From S2P Require Import Prelude BitmapModel HashTableModel TableModel TxModel FileSystemModel FsDataModel.
From S2P Require Import KvMessageModel KvServerModel KvClientModel.
From S2P Require Import FsMessageModel FsServerModel FsClientModel.

Module FsSystem.

Import FileSystem FsData FsMessage FsServer FsClient.

Section system.
Context (CalculateDigest : list Z -> HashTable.UniqueHash) (DmfsBaseAddress : Z).
Context (f : KvMessage.flags).

Record cluster := mkCluster { index_node : server Bitmap.t; data_node : server Bitmap.t }.

(** One iteration of server_batch_CPC; without a reply the client waits for ever. *)
Definition serve (server_type : Z) (c : scratch) (s : server Bitmap.t) (q : request)
    : outcome (reply * server Bitmap.t) :=
  let! (_, posted, s') := batch_round CalculateDigest DmfsBaseAddress f server_type (c_locals c) s []
                            [mkWc 0 q c] in
  match posted with [e] => Done (reply_addr e, s') | _ => Fault Diverges end.

(** The n-th request of a run starts from the scratch [sc n]. *)
Definition deliver (sc : nat -> scratch) (e : nat * cluster) (qp : ret_qp) (size : Z) (q : request)
    : outcome (incoming * (nat * cluster)) :=
  let (n, cl) := e in
  match qp with
  | LogRaw s_id _ | LogRc s_id _ =>
      if s_id =? get_index_server_id then
        let! (r, s') := serve 1 (sc n) (index_node cl) q in
        Done (IReply r, (S n, mkCluster s' (data_node cl)))
      else if s_id =? get_data_server_id then
        let! (r, s') := serve 0 (sc n) (data_node cl) q in
        Done (IReply r, (S n, mkCluster (index_node cl) s'))
      else Fault OutOfBounds
  | SameQp _ => Fault OutOfBounds
  end.

(** The switch sends nothing of its own. *)
Definition silent (e : nat * cluster) : outcome (incoming * (nat * cluster)) := Fault Diverges.

(** ** One request *)

Lemma map_raw_twice g h r : map_raw g (map_raw h r) = map_raw (fun raw => g (h raw)) r.
Proof. by destruct r. Qed.

Lemma map_raw_raw g r : reply_raw (map_raw g r) = g (reply_raw r).
Proof. by destruct r. Qed.

Lemma serve_onpath st c s q r s' size ret :
  dispatch CalculateDigest DmfsBaseAddress c s 0 q = Done (r, s', size, ret, true) ->
  0 <= KvMessage.src_s_id (rpc_header (req_raw q)) < zlen (server_config f) -> 0 < max_size f ->
  op_of (reply_raw r) <> ReplySwitch ->
  exists g, serve st c s q = Done (map_raw g r, s') /\ forall raw, op_of (g raw) = op_of raw.
Proof.
  intros Hd Hs Hm Ho. unfold serve, batch_round. cbn [handle_all]. unfold handle.
  cbn [w_req w_qp w_scratch]. rewrite Hd. cbn [obind].
  change (zlen []) with 0. rewrite (proj2 (Z.ltb_lt _ _)) by done. cbn [orb app].
  assert (Hk : forall b, keep_polling f st b true = false)
    by (intros b; unfold keep_polling; cbn [negb]; by rewrite andb_false_r).
  cbn [obind]. rewrite Hk. set (e := mkEntry ret size _ _).
  assert (sorted_batch f st [e] = [e]) as -> by (unfold sorted_batch; by destruct (_ && _)).
  cbn [finish]. unfold finish_one. cbn [e reply_addr]. rewrite map_raw_twice.
  rewrite map_raw_raw. cbn beta.
  change (op_of (with_send_cnt (with_dst ?x ?y) 0)) with (op_of x).
  destruct (zget_is_Some _ _ Hs) as [conf Ec].
  destruct (op_of (reply_raw r) =? kEnumReadIndexReply).
  - cbn [obind]. rewrite !map_raw_twice, map_raw_raw. cbn beta.
    change (KvMessage.dst_s_id (rpc_header (with_log_id (with_send_cnt (with_dst ?x ?y) 0) 0))) with y.
    rewrite Ec. cbn [of_option obind reply_addr]. rewrite map_raw_twice. by eexists.
  - rewrite (proj2 (Z.eqb_neq _ _)) by done. cbn [obind]. rewrite map_raw_raw. cbn beta.
    change (KvMessage.dst_s_id (rpc_header (with_send_cnt (with_dst ?x ?y) 0))) with y.
    rewrite Ec. cbn [of_option obind reply_addr]. rewrite map_raw_twice. by eexists.
Qed.

Lemma dispatch_read_index c s q :
  op_of (rr_raw q) = kEnumReadIndexReq ->
  dispatch CalculateDigest DmfsBaseAddress c s 0 (QMetaRead q) =
    let! (r, s') := read_index CalculateDigest DmfsBaseAddress c s q in
    Done (r, s', sizeof_MetaReadReply, SameQp 0, true).
Proof.
  intros Ho. unfold dispatch. cbn [req_raw].
  change (KvMessage.op (rpc_header (rr_raw q))) with (op_of (rr_raw q)). by rewrite Ho.
Qed.

Lemma dispatch_update c s q :
  op_of (mu_raw q) = kEnumUpdateIndexReq ->
  dispatch CalculateDigest DmfsBaseAddress c s 0 (QMetaUpdate q) =
    let! (r, s') := update_index CalculateDigest c s q in
    Done (r, s', sizeof_GeneralReceiveBuffer, SameQp 0, true).
Proof.
  intros Ho. unfold dispatch. cbn [req_raw].
  change (KvMessage.op (rpc_header (mu_raw q))) with (op_of (mu_raw q)). by rewrite Ho.
Qed.

Lemma dispatch_read c s q :
  op_of (dr_raw q) = kEnumReadLog ->
  dispatch CalculateDigest DmfsBaseAddress c s 0 (QDataRead q) =
    let! (r, s') := read_log c s q in
    Done (r, s', get_data_size (dr_size q), LogRc (KvMessage.src_s_id (rpc_header (dr_raw q)))
      (KvMessage.src_t_id (rpc_header (dr_raw q))), true).
Proof.
  intros Ho. unfold dispatch. cbn [req_raw].
  change (KvMessage.op (rpc_header (dr_raw q))) with (op_of (dr_raw q)). by rewrite Ho.
Qed.

Lemma dispatch_append c s b :
  op_of (mu_raw (db_req b)) = kEnumAppendReq ->
  dispatch CalculateDigest DmfsBaseAddress c s 0 (QAppend b) =
    let! (r, s') := append c s b in
    Done (r, s', sizeof_MetaUpdateReq, LogRaw (KvMessage.src_s_id (rpc_header (mu_raw (db_req b))))
      (KvMessage.src_t_id (rpc_header (mu_raw (db_req b)))), true).
Proof.
  intros Ho. unfold dispatch. cbn [req_raw].
  change (KvMessage.op (rpc_header (mu_raw (db_req b)))) with (op_of (mu_raw (db_req b))). by rewrite Ho.
Qed.

(** ** A write of one block, then a read *)
Context (capH capF capD nodes me cap : Z) (path : list Z).

Notation represents := (FileSystem.represents capH capF capD nodes me).
Notation has_room := (FileSystem.has_room capH capF capD).
Notation hash := (HashTable.getUniqueHash CalculateDigest).
Notation names := (gmap HashTable.UniqueHash node).

(** A context for one whole block of the file. *)
Record block_ctx (c : fs_client) (x : FsCtx) (offset : Z) : Prop := {
  bc_size : f_size x = BLOCK_SIZE;
  bc_offset : f_offset x = offset;
  bc_path : correct (f_file x) = Done path;
  bc_servers : f_index_s_id x = get_index_server_id /\ f_data_s_id x = get_data_server_id;
  bc_client : 0 <= fc_server_id c < zlen (server_config f);
  bc_bufs : 0 < max_size f
}.

(** What the nodes' uninitialised storage has in any case: its size. *)
Record scratch_ok (c : scratch) : Prop := {
  so_fpi : zlen (p_tuple (c_fpi c)) = MAX_MESSAGE_BLOCK_COUNT;
  so_data : kMaxDataSize <= zlen (c_data c);
  so_dir i : dir_ok (l_dir (c_locals c i));
  so_file i : zlen (tuple (l_file (c_locals c i))) = MAX_FILE_EXTENT_COUNT
}.

Definition data_ok (k : Z) (s : server Bitmap.t) : Prop :=
  0 <= k /\ blocks_ok cap k (fs s) /\
  forall i, in_width 64 (KvServer.tss_get (ts_generator s) i).

Hypothesis cap_ok : 0 < cap <= 2 ^ 20.

Definition block_fits_file (offset : Z) : Prop :=
  0 <= offset /\ offset mod BLOCK_SIZE = 0 /\ offset / BLOCK_SIZE < MAX_FILE_EXTENT_COUNT.

(** What the update of the write carries. *)
Definition written_extents (b : sendbuf) (slot : Z) : file_extent_info :=
  set_id (mkExtentInfo (e_timeLastModified (b_fei b)) 1 (e_tuple (b_fei b))) 0 slot.

Lemma offset_range offset : block_fits_file offset -> 0 <= offset < 2 ^ 32 /\ offset + BLOCK_SIZE < 2 ^ 64.
Proof. unfold block_fits_file, MAX_FILE_EXTENT_COUNT, BLOCK_SIZE. lia. Qed.

(** The request of a whole block is one the data node can place. *)
Lemma whole_block_write c x offset b sc k s :
  block_ctx c x offset -> block_fits_file offset -> scratch_ok sc -> data_ok k s ->
  zlen (e_tuple (b_fei b)) = MAX_MESSAGE_BLOCK_COUNT -> BLOCK_SIZE <= zlen (b_data b) ->
  block_write sc cap k s (whole_append c x path b).
Proof.
  intros C F S (Hk & Hok & Ht) Hb Hd. destruct (offset_range _ F) as [Ho1 Ho2].
  destruct F as (Ho & Ha & _). pose proof (bc_offset _ _ _ C) as Eo.
  split; cbn [whole_append db_req mu_size mu_offset mu_fei e_tuple]; rewrite ?Eo; try done.
  - unfold BLOCK_SIZE. lia.
  - clear - Ha Ho. unfold blocks_of, BLOCK_SIZE in *. lia.
  - intros Hp. exfalso. clear - Hp Ha. unfold partial, BLOCK_SIZE in *. lia.
  - apply (so_fpi _ S).
  - split; [|done]. cbn. unfold KvMessage.get_switch_key. change 65535 with (Z.ones 16).
    rewrite Z.land_ones by lia. lia.
Qed.

Lemma write_once c x offset b sc n cl k ns r ns1 N garbage :
  block_ctx c x offset -> block_fits_file offset -> (forall i, scratch_ok (sc i)) ->
  data_ok k (data_node cl) ->
  zlen (e_tuple (b_fei (b 0%nat))) = MAX_MESSAGE_BLOCK_COUNT -> BLOCK_SIZE <= zlen (b_data (b 0%nat)) ->
  represents (fs (index_node cl)) ns -> 0 <= N -> has_room (fs (index_node cl)) ns (N + 1) ->
  abs_extents CalculateDigest ns path BLOCK_SIZE offset (written_extents (b 0%nat) (k mod cap)) =
    Done (r, ns1) ->
  exists a, write_start c 1 x garbage (b 0%nat) = Done a /\ exists tr cl1,
    run_coro (write_resume c 1) (deliver sc) silent 3 (n, cl) (fun i => b (S i)) a =
      Done (tr, BLOCK_SIZE, (S (S n), cl1)) /\
    represents (fs (index_node cl1)) ns1 /\ has_room (fs (index_node cl1)) ns1 N /\
    data_ok (k + 1) (data_node cl1) /\
    block (data (fs (data_node cl1))) (k mod cap) = take (Z.to_nat BLOCK_SIZE) (b_data (b 0%nat)).
Proof.
  intros C F Sc D Hb Hd R HN Hr Habs. destruct (offset_range _ F) as [Ho1 Ho2].
  pose proof F as (Ho & Ha & Hfit). pose proof (bc_size _ _ _ C) as Es. pose proof (bc_offset _ _ _ C) as Eo.
  destruct (bc_servers _ _ _ C) as [Ei Ed].
  unfold write_start. rewrite Es, Eo, Ha, Z.mod_same by done. cbn [negb Z.eqb orb].
  assert (Hloop : forall meta len i b', 0 <= i <= 1 -> write_loop c 1 x meta i len b' =
    if decide (i < 1 /\ offset / BLOCK_SIZE + i < MAX_FILE_EXTENT_COUNT)
    then Done (Post (LogRc (f_data_s_id x) (f_data_t_id x)) (get_data_size BLOCK_SIZE)
           (QAppend (whole_append c x path b')) (WrData x meta i len))
    else Done (Return (signed 32 len))).
  { intros. rewrite <- Eo. apply write_loop_spec;
      [by rewrite Es, Eo|rewrite Eo; lia|apply (bc_path _ _ _ C)|done]. }
  rewrite Hloop, decide_True by lia. eexists. split; [reflexivity|].
  rewrite run_coro_post. unfold deliver at 1. rewrite Ed. change (get_data_server_id =? get_index_server_id) with false.
  change (get_data_server_id =? get_data_server_id) with true. cbn iota.
  destruct (append_block_spec (sc n) cap k (data_node cl) (whole_append c x path (b 0%nat)))
    as (m & y & tss & old & Eapp & Hop & _ & _ & Hpath & Hsize & Hoff & Hfei & Hok & Htss & _ & Hblock & _).
  { by apply (whole_block_write c x offset). }
  destruct (serve_onpath 0 (sc n) (data_node cl) (QAppend (whole_append c x path (b 0%nat))) (PAppend m)
    (mkServer y tss) sizeof_MetaUpdateReq (LogRaw (fc_server_id c) (fc_thread_id c)))
    as (g & -> & Hg).
  { rewrite dispatch_append by done. by rewrite Eapp. }
  { apply (bc_client _ _ _ C). } { apply (bc_bufs _ _ _ C). } { cbn. by rewrite Hop. }
  cbn [obind write_resume incoming_raw]. rewrite map_raw_raw, Hg. cbn [reply_raw]. rewrite Hop.
  change (kEnumAppendReply =? kEnumMultiCastPkt) with false. cbn [map_raw update_of obind].
  rewrite run_coro_post. unfold deliver at 1. rewrite Ei. change (get_index_server_id =? get_index_server_id) with true.
  cbn iota. cbn [index_node data_node].
  set (q := update_request c x (update_raw g m)).
  pose proof (sim_extents CalculateDigest DmfsBaseAddress capH capF capD nodes me (c_locals (sc (S n)) 0%nat)
    (fs (index_node cl)) ns (mu_path q) (mu_size q) (mu_offset q) (mu_fei q) N R HN Hr) as E.
  change (mu_path q) with (mu_path m) in E. change (mu_size q) with (mu_size m) in E.
  change (mu_offset q) with (mu_offset m) in E. change (mu_fei q) with (mu_fei m) in E.
  cbn [whole_append db_req mu_path mu_size mu_offset mu_fei e_timeLastModified e_tuple] in Hpath, Hsize, Hoff, Hfei.
  rewrite Hpath, Hsize, Hoff, Hfei, Eo in E. fold (written_extents (b 0%nat) (k mod cap)) in E.
  rewrite Habs in E. cbn [sim] in E. destruct E as (z & Ez & Rz & Hrz).
  destruct (serve_onpath 1 (sc (S n)) (index_node cl) (QMetaUpdate q)
    (PUpdate (with_op (with_log_id (mu_raw q) 0) kEnumUpdateIndexReply) (c_rest (sc (S n))))
    (with_fs (index_node cl) z) sizeof_GeneralReceiveBuffer (SameQp 0)) as (g2 & -> & Hg2).
  { rewrite dispatch_update by done. unfold update_index.
    change (mu_path q) with (mu_path m). change (mu_size q) with (mu_size m).
    change (mu_offset q) with (mu_offset m). change (mu_fei q) with (mu_fei m).
    rewrite Hpath, Hsize, Hoff, Hfei, Eo. fold (written_extents (b 0%nat) (k mod cap)). by rewrite Ez. }
  { apply (bc_client _ _ _ C). } { apply (bc_bufs _ _ _ C). } { done. }
  cbn [obind write_resume]. rewrite Es, Hloop, decide_False by lia. cbn [obind run_coro].
  eexists _, _. split; [reflexivity|]. cbn [index_node data_node fs with_fs ts_generator].
  destruct D as (Hk & Hok0 & _). split; [exact Rz|]. split; [exact Hrz|].
  split; [split_and!; [lia|exact Hok|exact Htss]|].
  rewrite Hblock. cbn [whole_append db_req db_data mu_size mu_offset].
  rewrite Eo, Ha. change (BLOCK_SIZE =? BLOCK_SIZE) with true. cbn iota. apply blit_whole.
  pose proof (Z.mod_pos_bound k cap ltac:(lia)) as Hid. destruct (block_fits _ _ Hid) as [Hb0 Hb1].
  pose proof (block_len (data (fs (data_node cl))) (k mod cap) ltac:(lia)
    ltac:(by rewrite (bo_data _ _ _ Hok0))) as Hl.
  unfold zlen in *. rewrite length_take. lia.
Qed.

(** The first exchange of a read. *)
Lemma meta_exchange c x offset b sc n cl ns :
  block_ctx c x offset -> scratch_ok (sc n) ->
  represents (fs (index_node cl)) ns -> has_room (fs (index_node cl)) ns (6 + 2 * zlen path) ->
  placeable CalculateDigest nodes me path -> has_way CalculateDigest ns path ->
  exists q m y nd, read_start c x b = Done (Post (LogRaw (f_index_s_id x) (f_index_t_id x))
      sizeof_MetaReadReq q (RdMeta x)) /\
    deliver sc (n, cl) (LogRaw (f_index_s_id x) (f_index_t_id x)) sizeof_MetaReadReq q =
      Done (IReply (PMetaRead m), (S n, mkCluster y (data_node cl))) /\
    op_of (ra_raw m) = kEnumReadIndexReply /\ ra_attribute m = attributes nd (c_attribute (sc n)) /\
    match ns !! hash path with
    | Some n0 => nd = n0
    | None => exists f, nd = File f /\ size f = 0 /\ count f = 0
    end.
Proof.
  intros C S R Hr O Hw. destruct (bc_servers _ _ _ C) as [Ei Ed].
  unfold read_start. rewrite (bc_path _ _ _ C). cbn [obind].
  set (rq := mkMetaReadReq _ _ _ _).
  destruct (read_index_opens CalculateDigest DmfsBaseAddress capH capF capD nodes me (index_node cl) ns
    (sc n) rq R Hr (so_dir _ S) O Hw (or_intror eq_refl))
    as (m & y & ns' & nd & Erd & _ & _ & Hop & Hat & _ & _ & Hnd).
  destruct (serve_onpath 1 (sc n) (index_node cl) (QMetaRead rq) (PMetaRead m)
    (mkServer y (ts_generator (index_node cl))) sizeof_MetaReadReply (SameQp 0)) as (g & Es & Hg).
  { rewrite dispatch_read_index by done. by rewrite Erd. }
  { apply (bc_client _ _ _ C). } { apply (bc_bufs _ _ _ C). } { cbn. by rewrite Hop. }
  exists (QMetaRead rq), (mkMetaReadReply (g (ra_raw m)) (ra_result m) (ra_attribute m)), (mkServer y (ts_generator (index_node cl))), nd.
  split; [done|]. unfold deliver. rewrite Ei. change (get_index_server_id =? get_index_server_id) with true.
  cbn iota. rewrite Es. cbn [obind map_raw ra_raw ra_attribute]. rewrite Hg. split_and!; try done.
  change (rr_path rq) with path in Hnd. destruct (ns !! hash path); [by destruct Hnd|done].
Qed.

(** The answer of the index node when it knows the file, and when it makes it. *)
Lemma read_known c x offset b b1 sc n cl y q m meta :
  block_ctx c x offset ->
  read_start c x b = Done (Post (LogRaw (f_index_s_id x) (f_index_t_id x)) sizeof_MetaReadReq q (RdMeta x)) ->
  deliver sc (n, cl) (LogRaw (f_index_s_id x) (f_index_t_id x)) sizeof_MetaReadReq q =
    Done (IReply (PMetaRead m), (S n, mkCluster y (data_node cl))) ->
  op_of (ra_raw m) = kEnumReadIndexReply -> ra_attribute m = meta ->
  exists a, read_start c x b = Done a /\
    (count meta = MAX_FILE_EXTENT_COUNT \/ size meta <= offset ->
     exists tr, run_coro (read_resume c 1) (deliver sc) silent 2 (n, cl) b1 a =
       Done (tr, 0, (S n, mkCluster y (data_node cl))) /\ length tr = 1%nat) /\
    (forall k, count meta <> MAX_FILE_EXTENT_COUNT ->
     run_coro (read_resume c 1) (deliver sc) silent (S k) (n, cl) b1 a =
       let! a' := read_loop c 1 x meta 0 offset 0 (b1 0%nat) in
       let! (trace, r, e2) := run_coro (read_resume c 1) (deliver sc) silent k
         (S n, mkCluster y (data_node cl)) (fun i => b1 (S i)) a' in
       Done ((q, IReply (PMetaRead m)) :: trace, r, e2)).
Proof.
  intros C Es Ed Ho Hm. eexists. split; [exact Es|].
  pose proof (bc_offset _ _ _ C) as Eo.
  assert (Hres : read_resume c 1 (RdMeta x) (IReply (PMetaRead m)) (b1 0%nat) =
    if count meta =? MAX_FILE_EXTENT_COUNT then Done (Return 0)
    else read_loop c 1 x meta 0 offset 0 (b1 0%nat)).
  { cbn [read_resume incoming_raw reply_raw]. rewrite Ho. change (kEnumReadIndexReply =? kEnumReadIndexReq) with false.
    unfold read_meta. cbn [attribute_of obind]. by rewrite Hm, Eo. }
  split.
  - intros Hcase. rewrite run_coro_post, Ed. cbn [obind]. rewrite Hres.
    assert (E : (if count meta =? MAX_FILE_EXTENT_COUNT then Done (Return 0)
      else read_loop c 1 x meta 0 offset 0 (b1 0%nat)) = Done (Return 0)).
    { destruct (Z.eqb_spec (count meta) MAX_FILE_EXTENT_COUNT); [done|]. unfold read_loop.
      destruct Hcase; [done|]. rewrite (proj2 (Z.ltb_ge offset _)) by lia. by rewrite andb_false_r. }
    rewrite E. cbn [obind run_coro]. by eexists.
  - intros k Hne. rewrite run_coro_post, Ed. cbn [obind]. rewrite Hres.
    by rewrite (proj2 (Z.eqb_neq _ _)).
Qed.

Lemma data_exchange c x offset b sc n cl m slot :
  block_ctx c x offset -> block_fits_file offset -> scratch_ok (sc n) -> p_len (c_fpi (sc n)) = 1 ->
  zlen (e_tuple (b_fei b)) = MAX_MESSAGE_BLOCK_COUNT ->
  meta_ok m -> offset + BLOCK_SIZE <= size m -> extent_at m (offset / BLOCK_SIZE) = Some slot ->
  0 <= slot < cap -> zlen (data (fs (data_node cl))) = cap * BLOCK_SIZE ->
  exists q d, read_loop c 1 x m 0 offset 0 b =
      Done (Post (LogRaw (f_data_s_id x) (f_data_t_id x)) sizeof_DataReadReq q (RdData x m 0 BLOCK_SIZE 0)) /\
    deliver sc (n, cl) (LogRaw (f_data_s_id x) (f_data_t_id x)) sizeof_DataReadReq q =
      Done (IReply (PData d), (S n, cl)) /\
    take (Z.to_nat BLOCK_SIZE) (rd_data d) = block (data (fs (data_node cl))) slot.
Proof.
  intros C F S Hlen Hb Hm Hsz Hext Hslot Hdata. destruct (offset_range _ F) as [Ho1 Ho2].
  pose proof F as (Ho & Ha & _). pose proof (bc_size _ _ _ C) as Es. pose proof (bc_offset _ _ _ C) as Eo.
  destruct (bc_servers _ _ _ C) as [Ei Ed].
  destruct (read_loop_spec c 1 x path m) with (i := 0) (len := 0) (b := b) as (q & Eq & Hq);
    rewrite ?Es, ?Eo; try done; try (unfold BLOCK_SIZE in *; lia); [apply (bc_path _ _ _ C)|].
  rewrite Eo, Es in Eq. replace (offset + 0 * BLOCK_SIZE) with offset in Eq by lia.
  replace (Z.min BLOCK_SIZE (size m - offset)) with BLOCK_SIZE in Eq by lia.
  destruct Hq as (raw & fei & -> & Hop & Hsrc & Ht & He & Hid). rewrite Es, Eo in *.
  replace (offset + 0 * BLOCK_SIZE) with offset in * by lia.
  replace (Z.min BLOCK_SIZE (size m - offset)) with BLOCK_SIZE in * by lia.
  destruct (Hid slot Hext) as [Hid0 He0].
  set (rq := mkDataReadReq raw fei path BLOCK_SIZE offset) in *.
  pose proof (block_fits _ _ Hslot) as [Hb0 Hb1].
  pose proof (read_log_whole (sc n) (data_node cl) rq slot) as Er.
  rewrite Hdata in Er. cbn [rq dr_fei dr_size dr_offset dr_raw] in Er. unfold MAX_MESSAGE_BLOCK_COUNT in *.
  specialize (Er ltac:(lia) Hid0 (so_fpi _ S) eq_refl ltac:(lia) Ha Ho2 ltac:(lia) Hb1 (so_data _ S) Hlen).
  destruct (serve_onpath 0 (sc n) (data_node cl) (QDataRead rq)
    (PData (mkDataReadReply (with_op raw kEnumReadReply) BLOCK_SIZE
      (blit (c_data (sc n)) 0 (block (data (fs (data_node cl))) slot))))
    (data_node cl) (get_data_size BLOCK_SIZE)
    (LogRc (KvMessage.src_s_id (rpc_header raw)) (KvMessage.src_t_id (rpc_header raw)))) as (g & Eg & _).
  { rewrite dispatch_read by done. by rewrite Er. }
  { cbn. rewrite Hsrc. apply (bc_client _ _ _ C). } { apply (bc_bufs _ _ _ C). } { done. }
  eexists _, _. split; [exact Eq|]. unfold deliver. rewrite Ed.
  change (get_data_server_id =? get_index_server_id) with false.
  change (get_data_server_id =? get_data_server_id) with true. cbn iota. rewrite Eg. cbn [obind map_raw].
  pose proof (block_len (data (fs (data_node cl))) slot ltac:(lia) ltac:(by rewrite Hdata)) as Hl.
  destruct cl. split; [reflexivity|]. cbn [rd_data]. apply take_blit. unfold zlen in Hl. lia.
Qed.

(** The first write of a file is lost: writing a whole block of a file nobody
    has opened returns the size of the block, but the index node, which finds no
    file to update, stays as it was; any client that then reads the block makes the
    file, empty, and reads nothing. *)
Theorem first_write_lost c x c2 x2 offset b b2 sc n cl k ns garbage :
  block_ctx c x offset -> block_ctx c2 x2 offset -> block_fits_file offset ->
  (forall i, scratch_ok (sc i)) -> data_ok k (data_node cl) ->
  zlen (e_tuple (b_fei (b 0%nat))) = MAX_MESSAGE_BLOCK_COUNT -> BLOCK_SIZE <= zlen (b_data (b 0%nat)) ->
  represents (fs (index_node cl)) ns -> has_room (fs (index_node cl)) ns (7 + 2 * zlen path) ->
  placeable CalculateDigest nodes me path -> has_way CalculateDigest ns path ->
  ns !! hash path = None ->
  exists a, write_start c 1 x garbage (b 0%nat) = Done a /\ exists tr cl1,
    run_coro (write_resume c 1) (deliver sc) silent 3 (n, cl) (fun i => b (S i)) a =
      Done (tr, BLOCK_SIZE, (S (S n), cl1)) /\ represents (fs (index_node cl1)) ns /\
  exists a2, read_start c2 x2 (b2 0%nat) = Done a2 /\ exists tr2 cl2,
    run_coro (read_resume c2 1) (deliver sc) silent 2 (S (S n), cl1) (fun i => b2 (S i)) a2 =
      Done (tr2, 0, (S (S (S n)), cl2)) /\ length tr2 = 1%nat.
Proof.
  intros C C2 F Sc D Hb Hd R Hr O Hw Hnone. pose proof (zlen_nonneg path).
  destruct (write_once c x offset b sc n cl k ns false ns (6 + 2 * zlen path) garbage)
    as (a & Ea & tr & cl1 & Erun & R1 & Hr1 & _ & _); try done; [lia| | |].
  { eapply has_room_le; [exact Hr|lia]. }
  { unfold abs_extents. by rewrite Hnone. }
  exists a. split; [done|]. exists tr, cl1. split; [done|]. split; [done|].
  destruct (meta_exchange c2 x2 offset (b2 0%nat) sc (S (S n)) cl1 ns C2 (Sc _) R1 Hr1 O Hw)
    as (q & m & y & nd & Es & Ed & Ho & Hat & Hnd). rewrite Hnone in Hnd.
  destruct Hnd as (f0 & -> & Hf0 & _). cbn [attributes] in Hat.
  destruct (read_known c2 x2 offset (b2 0%nat) (fun i => b2 (S i)) sc (S (S n)) cl1 y q m f0 C2 Es Ed Ho Hat)
    as (a2 & Ea2 & Hzero & _). exists a2. split; [done|].
  destruct Hzero as (tr2 & Er2 & Hl2).
  { right. rewrite Hf0. destruct F. lia. }
  by eexists _, _.
Qed.

End system.

(** ** Examples *)

Definition path_a : list Z := [47; 97].

Definition root_only : gmap HashTable.UniqueHash node :=
  {[ sample_digest [slash] := Dir (new_dir sample_locals) ]}.
Definition with_file : gmap HashTable.UniqueHash node :=
  <[sample_digest path_a := File (new_file sample_locals)]> root_only.

Definition sample_client (coro : Z) (file : list Z) : FsCtx :=
  mkFsCtx coro 0 5 file (sample_digest file) 4096 0 0 0 1 0 false.
Definition sample_me : fs_client := mkFsClient sample_flags 3 1 10.
Definition sample_sendbuf (n : nat) : sendbuf :=
  mkSendbuf (sample_raw 0) sample_fei (replicate 4096 (Z.of_nat n)).
Definition sample_scratches (n : nat) : scratch := sample_scratch 1.

Lemma sample_scratch_ok i : scratch_ok (sample_scratches i).
Proof.
  split; [done|vm_compute; discriminate|intros ?; exact sample_dir_ok|intros ?; done].
Qed.

Lemma sample_block_ctx coro file : correct file = Done file ->
  block_ctx sample_flags file sample_me (sample_client coro file) 0.
Proof. intros E. split; (done || exact E). Qed.

Lemma sample_data : exists s, data_ok 8 0 s.
Proof.
  destruct sample_blocks_ok as (s & Hs & _). exists (mkServer s ∅). split; [lia|]. split; [exact Hs|].
  intros i. split; vm_compute; congruence.
Qed.

Lemma first_write_lost_witness :
  exists cl tr cl1 tr2 cl2,
    run_coro (write_resume sample_me 1) (deliver sample_digest 4096 sample_flags sample_scratches) silent 3
      (0%nat, cl) (fun i => sample_sendbuf (S i))
      (Post (LogRc 0 0) (get_data_size 4096)
         (QAppend (whole_append sample_me (sample_client 1 path_df) path_df (sample_sendbuf 0)))
         (WrData (sample_client 1 path_df) (set_count (l_file sample_locals) 0) 0 0)) =
      Done (tr, 4096, (2%nat, cl1)) /\
    exists a2, read_start sample_me (sample_client 2 path_df) (sample_sendbuf 0) = Done a2 /\
    run_coro (read_resume sample_me 1) (deliver sample_digest 4096 sample_flags sample_scratches) silent 2
      (2%nat, cl1) (fun i => sample_sendbuf (S i)) a2 = Done (tr2, 0, (3%nat, cl2)).
Proof.
  destruct sample_fs_represents as (s & E & R). destruct sample_data as (d & Hd).
  destruct (first_write_lost sample_digest 4096 sample_flags 32 16 16 1 1 8 path_df
    (conj eq_refl (ltac:(vm_compute; discriminate) : 8 <= 2 ^ 20)) sample_me (sample_client 1 path_df)
    sample_me (sample_client 2 path_df) 0 sample_sendbuf sample_sendbuf sample_scratches 0
    (mkCluster (mkServer s ∅) d) 0 root_only (l_file sample_locals))
    as (a & Ea & tr & cl1 & Erun & _ & a2 & Ea2 & tr2 & cl2 & Er2 & _).
  - apply sample_block_ctx. reflexivity.
  - apply sample_block_ctx. reflexivity.
  - split; [lia|]. split; reflexivity.
  - exact sample_scratch_ok.
  - exact Hd.
  - reflexivity.
  - vm_compute. discriminate.
  - exact R.
  - apply (sample_has_room s _ E). discriminate.
  - exact path_df_placeable.
  - exact path_df_has_way.
  - apply lookup_singleton_ne. vm_compute. discriminate.
  - assert (Ha : Done a = Done (Post (LogRc 0 0) (get_data_size 4096)
        (QAppend (whole_append sample_me (sample_client 1 path_df) path_df (sample_sendbuf 0)))
        (WrData (sample_client 1 path_df) (set_count (l_file sample_locals) 0) 0 0)))
      by (rewrite <- Ea; reflexivity).
    injection Ha as Ha. rewrite Ha in Erun. exists (mkCluster (mkServer s ∅) d), tr, cl1, tr2, cl2.
    split; [exact Erun|]. exists a2. split; [exact Ea2|exact Er2].
Defined.

Lemma path_a_cases q : q = path_a \/ above path_a q -> q = path_a \/ q = [slash].
Proof.
  intros [?|Ha]; [auto|]. right. inversion Ha as [|? ? ? Hb]; subst; [done|].
  inversion Hb; subst; done.
Qed.

Lemma path_a_placeable : placeable sample_digest 1 1 path_a.
Proof.
  split; [by exists [97]|done|by intros q [->| ->]%path_a_cases|by intros q [->| ->]%path_a_cases
    |by intros q l [->| ->]%path_a_cases|].
  intros q r [->| ->]%path_a_cases [->| ->]%path_a_cases E; first [done | by vm_compute in E].
Qed.

Lemma path_a_has_way n :
  has_way sample_digest (<[sample_digest path_a := n]> root_only) path_a.
Proof.
  intros q Hq. destruct (path_a_cases q (or_intror Hq)) as [->| ->].
  - apply (above_shorter sample_digest) in Hq as [_ Hq]; [cbn in Hq; lia|by exists [97]].
  - rewrite lookup_insert_ne by (vm_compute; discriminate). unfold root_only.
    by rewrite lookup_singleton_eq.
Qed.

Lemma sample_with_file : exists s, FileSystem.represents 32 16 16 1 1 s
    with_file /\
  FileSystem.has_room 32 16 16 s with_file 11.
Proof.
  destruct sample_fs_represents as (s0 & E & R).
  pose proof (fs_exec_refines sample_digest 4096 32 16 16 1 1 s0 root_only (OMknod sample_locals path_a) 11
    R ltac:(lia) (sample_has_room s0 (11 + 1) E ltac:(lia)) eq_refl) as E1.
  assert (Ea : abs_exec sample_digest 1 1 root_only
    (OMknod sample_locals path_a) = Done (RBool true, with_file)) by (vm_compute; reflexivity).
  rewrite Ea in E1. destruct E1 as (s & _ & R1 & Hr1). exists s.
  split; [exact R1|exact Hr1].
Qed.

End FsSystem.
