(* ===== verification/SwitchModel.v ===== *)
(** * p4src/SwitchDelta: the programmable switch

    [Module Switch] models the pipeline of p4_fw.p4 with src/visible_fw.p4,
    src/common.p4 and the table entries py_fw.py installs: the register arrays
    indexed by kvmsg.key, one function per stateful ALU, one function per table
    from the operation code to an action, and the controls ingress and egress.
    A packet is the message of [KvMessage]: kvmsg.key is switch_key, key32 is
    key, rpc_id the four bytes kv_g_id, kv_c_id, magic, log_id0/log_id1 the two
    halves of log_id, count send_cnt, node_id dst_s_id.  Most fields are compared
    and copied only, so their byte order does not matter; where the switch uses
    a 16-bit field as a number (route_port, index_port, count) the host's value
    is byte-swapped, and the group numbers py_mc_fw.py creates are the swapped
    bitmaps.  timecheck has no entries installed, so it always runs its default
    action timecpy. *)

From S2P Require Import Prelude KvMessageModel KvClientModel.
Import KvMessage.

Module Switch.

(** Registers; a cell never written holds its initial value 0. *)
Record state := mkState {
  key_check : gmap Z (Z * Z);     (* (register_lo, register_hi) *)
  log0 : gmap Z Z;
  log1 : gmap Z Z;
  index_counter : gmap Z Z
}.

Definition init : state := mkState ∅ ∅ ∅ ∅.

Definition cell (s : state) (k : Z) : Z * Z := default (0, 0) (key_check s !! k).

Definition rpc_id (m : RawKvMsg) : Z := kv_g_id m + 2 ^ 16 * (kv_c_id m + 2 ^ 8 * magic m).
Definition log_id0 (m : RawKvMsg) : Z := log_id m mod 2 ^ 32.
Definition log_id1 (m : RawKvMsg) : Z := log_id m / 2 ^ 32.

Definition set_cell (s : state) (k : Z) (c : Z * Z) : state :=
  mkState (<[k := c]> (key_check s)) (log0 s) (log1 s) (index_counter s).

(** *** Stateful ALUs: the new state and what the ALU outputs *)

(** write_data_reply: claims an empty cell; outputs key32 then. *)
Definition write_data_reply (s : state) (m : RawKvMsg) : state * option Z :=
  if (cell s (switch_key m)).1 =? 0
  then (set_cell s (switch_key m) (key m, rpc_id m), Some (key m))
  else (s, None).

(** write_index_reply: frees the cell of the same rpc. *)
Definition write_index_reply (s : state) (m : RawKvMsg) : state :=
  if rpc_id m =? (cell s (switch_key m)).2
  then set_cell s (switch_key m) (0, 0) else s.

(** check_index_msg: outputs register_lo. *)
Definition check_index_msg (s : state) (m : RawKvMsg) : Z := (cell s (switch_key m)).1.

Definition read_log_id_alu0 (s : state) (m : RawKvMsg) : Z := default 0 (log0 s !! switch_key m).
Definition read_log_id_alu1 (s : state) (m : RawKvMsg) : Z := default 0 (log1 s !! switch_key m).
Definition write_log_id_alu0 (s : state) (m : RawKvMsg) : state :=
  mkState (key_check s) (<[switch_key m := log_id0 m]> (log0 s)) (log1 s) (index_counter s).
Definition write_log_id_alu1 (s : state) (m : RawKvMsg) : state :=
  mkState (key_check s) (log0 s) (<[switch_key m := log_id1 m]> (log1 s)) (index_counter s).

(** The 16-bit counters; the output is the new value. *)
Definition counter_at (s : state) (i : Z) : Z := default 0 (index_counter s !! i).
Definition counter_alu (s : state) (i d : Z) : state * Z :=
  let v := wrap 16 (counter_at s i + d) in
  (mkState (key_check s) (log0 s) (log1 s) (<[i := v]> (index_counter s)), v).

(** *** Tables: operation code to action (py_fw.py) *)

Inductive visibility_action := new_index | delete_index | check_index | no_op_my.
Definition visibility_table (o : Z) : visibility_action :=
  if o =? kEnumAppendReply then new_index
  else if o =? kEnumUpdateIndexReq then new_index
  else if o =? ReplySwitch then delete_index
  else if o =? kEnumReadIndexReq then check_index
  else no_op_my.

Inductive log_action := read_log_id | write_log_id | log_no_op.
Definition key2logid_table (o : Z) : log_action :=
  if o =? kEnumReadIndexReq then read_log_id
  else if o =? kEnumAppendReply then write_log_id
  else if o =? kEnumUpdateIndexReq then write_log_id
  else log_no_op.

(** counter_table: entries for index_port 0 to 7 in the switch's byte order. *)
Definition counter_delta (o : Z) : option Z :=
  if o =? kEnumAppendReply then Some 1
  else if o =? ReplySwitch then Some (-1)
  else if o =? kEnumUpdateIndexReply then Some (-1)
  else if o =? kEnumReadReply then Some 0
  else if o =? kEnumReadIndexReply then Some 0
  else if o =? kEnumReadSend then Some 0
  else None.
Definition counter_table (s : state) (m : RawKvMsg) : state * RawKvMsg :=
  match counter_delta (msg_op m) with
  | Some d =>
      let i := toBigEndian16 (index_port m) in
      if (0 <=? i) && (i <? 8) then
        let (s', v) := counter_alu s i d in (s', with_send_cnt m (toBigEndian16 v))
      else (s, m)
  | None => (s, m)
  end.

(** udp_route and the multicast groups, from the file host: node to port. *)
Definition host_ports : list (Z * Z) := [(0, 128); (1, 188); (2, 136); (3, 180); (4, 172)].
Definition udp_route (node : Z) : option Z :=
  snd <$> head (filter (fun p => p.1 = node) host_ports).
Definition group_ports (map : Z) : list Z :=
  snd <$> filter (fun p => Z.testbit map p.1 = true) host_ports.

(** *** The controls *)

Record verdict := mkVerdict {
  packet : RawKvMsg;
  ucast_egress_port : option Z;
  mcast_grp : Z;
  dropped : bool
}.

(** apply(visibility): the state and umeta.key32. *)
Definition apply_visibility (s : state) (m : RawKvMsg) : state * Z :=
  match visibility_table (msg_op m) with
  | new_index => let (s', o) := write_data_reply s m in (s', default 0 o)
  | delete_index => (write_index_reply s m, 0)
  | check_index => (s, check_index_msg s m)
  | no_op_my => (s, 0)
  end.

(** apply(key2logid0); apply(key2logid1) *)
Definition apply_logid (s : state) (v : verdict) : state * verdict :=
  let m := packet v in
  match key2logid_table (msg_op m) with
  | read_log_id =>
      let l := read_log_id_alu0 s m + 2 ^ 32 * read_log_id_alu1 s m in
      (s, mkVerdict (with_log_id m l) (Some (toBigEndian16 (route_port m))) (mcast_grp v) (dropped v))
  | write_log_id =>
      (write_log_id_alu1 (write_log_id_alu0 s m) m,
       mkVerdict (with_op m kEnumMultiCastPkt) (ucast_egress_port v) (route_map m) (dropped v))
  | log_no_op => (s, v)
  end.

Definition ingress (s0 : state) (m0 : RawKvMsg) : state * verdict :=
  let (s, m) := counter_table s0 m0 in
  let v := mkVerdict m None 0 false in
  let '(s3, v3, umeta_key32) :=
    if flag m =? 2 then
      let (s1, umeta_key32) := apply_visibility s m in
      let (s2, v2) := if key m =? umeta_key32 then apply_logid s1 v else (s1, v) in
      let v3 := if msg_op (packet v2) =? ReplySwitch
                then mkVerdict (packet v2) (ucast_egress_port v2) (mcast_grp v2) true else v2 in
      (s2, v3, umeta_key32)
    else (s, v, 0) in
  if key (packet v3) =? umeta_key32 then (s3, v3)
  else
    let port := match udp_route (dst_s_id (rpc_header (packet v3))) with
                | Some p => Some p
                | None => ucast_egress_port v3
                end in
    (s3, mkVerdict (packet v3) port (mcast_grp v3) (dropped v3)).

(** The ports a packet leaves on. *)
Definition egress_ports (v : verdict) : list Z :=
  if dropped v then []
  else group_ports (mcast_grp v) ++ match ucast_egress_port v with Some p => [p] | None => [] end.

(** egress, fix_port: what becomes of the UDP destination port. *)
Inductive port_action := send_to_index | send_to_client | keep_port.
Definition fix_port (egress_port o : Z) : port_action :=
  if (egress_port =? 188) && (o =? kEnumMultiCastPkt) then send_to_index
  else if ((egress_port =? 136) || (egress_port =? 180) || (egress_port =? 172)) &&
          ((o =? kEnumMultiCastPkt) || (o =? kEnumReadIndexReq)) then send_to_client
  else keep_port.

Definition egress (egress_port udp_dstPort : Z) (m : RawKvMsg) : Z :=
  if flag m =? 2 then
    match fix_port egress_port (msg_op m) with
    | send_to_index => index_port m
    | send_to_client => client_port m
    | keep_port => udp_dstPort
    end
  else udp_dstPort.

(** ** The slot abstraction: what the switch remembers for a slot *)

Record slot_entry := mkSlot { s_key : Z; s_rpc : Z; s_log : Z }.

Definition slot (s : state) (k : Z) : option slot_entry :=
  let c := cell s k in
  if c.1 =? 0 then None
  else Some (mkSlot c.1 c.2 (default 0 (log0 s !! k) + 2 ^ 32 * default 0 (log1 s !! k))).

Definition slots_eq_except (k : Z) (s s' : state) : Prop :=
  forall k', k' <> k -> slot s' k' = slot s k'.

(** What the switch does with a message, in terms of its slot alone. *)
Inductive decision := Multicast | Answer (l : Z) | Forward | Drop.

Definition decide_slot (e : option slot_entry) (m : RawKvMsg)
    : option slot_entry * decision :=
  let o := msg_op m in
  if negb (flag m =? 2) then (e, Forward)
  else if (o =? kEnumAppendReply) || (o =? kEnumUpdateIndexReq) then
    match e with
    | None => (Some (mkSlot (key m) (rpc_id m) (log_id m)), Multicast)
    | Some _ => (e, Forward)
    end
  else if o =? ReplySwitch then
    (match e with
     | Some x => if s_rpc x =? rpc_id m then None else e
     | None => None
     end, Drop)
  else if o =? kEnumReadIndexReq then
    match e with
    | Some x => if s_key x =? key m then (e, Answer (s_log x)) else (e, Forward)
    | None => (e, Forward)
    end
  else (e, Forward).

(** The packets that leave, up to the counter field. *)
Definition emits (v : verdict) (d : decision) (m : RawKvMsg) : Prop :=
  match d with
  | Multicast => egress_ports v = group_ports (route_map m) /\
      exists c, packet v = with_send_cnt (with_op m kEnumMultiCastPkt) c
  | Answer l => egress_ports v = [toBigEndian16 (route_port m)] /\
      exists c, packet v = with_send_cnt (with_log_id m l) c
  | Forward => egress_ports v = from_option (fun p => [p]) [] (udp_route (dst_s_id (rpc_header m))) /\
      exists c, packet v = with_send_cnt m c
  | Drop => egress_ports v = []
  end.

Lemma counter_table_fields s m :
  exists s' c, counter_table s m = (s', with_send_cnt m c) /\
    key_check s' = key_check s /\ log0 s' = log0 s /\ log1 s' = log1 s.
Proof.
  unfold counter_table.
  assert (Hsame : m = with_send_cnt m (send_cnt m)) by (by destruct m).
  destruct (counter_delta (msg_op m)); [|by exists s, (send_cnt m); rewrite <- Hsame].
  destruct (_ && _); [|by exists s, (send_cnt m); rewrite <- Hsame].
  eexists _, _. split; [reflexivity|done].
Qed.

Lemma group_ports_0 : group_ports 0 = [].
Proof. reflexivity. Qed.

Lemma slot_set_cell_ne s k k' c : k' <> k -> slot (set_cell s k c) k' = slot s k'.
Proof. intros. unfold slot, cell, set_cell; cbn. by rewrite lookup_insert_ne. Qed.

Lemma slot_set_cell_0 s k : slot (set_cell s k (0, 0)) k = None.
Proof. unfold slot, cell, set_cell; cbn. by rewrite lookup_insert_eq. Qed.

(** Claiming the cell and writing both log registers. *)
Lemma claim_spec s m :
  key m <> 0 -> 0 <= log_id m ->
  let s' := write_log_id_alu1 (write_log_id_alu0
              (set_cell s (switch_key m) (key m, rpc_id m)) m) m in
  slot s' (switch_key m) = Some (mkSlot (key m) (rpc_id m) (log_id m)) /\
  slots_eq_except (switch_key m) s s'.
Proof.
  intros Hk Hl s'. unfold slots_eq_except, slot, cell, s'; cbn. split.
  - rewrite !lookup_insert_eq. cbn. rewrite (proj2 (Z.eqb_neq _ _)) by done.
    unfold log_id0, log_id1. do 2 f_equal. lia.
  - intros k' Hne. by rewrite !lookup_insert_ne by done.
Qed.

Lemma slot_ext s s' k :
  key_check s' = key_check s -> log0 s' = log0 s -> log1 s' = log1 s -> slot s' k = slot s k.
Proof. intros H1 H2 H3. unfold slot, cell. by rewrite H1, H2, H3. Qed.

Lemma slot_cell_none s k : slot s k = None <-> (cell s k).1 = 0.
Proof.
  unfold slot. destruct (Z.eqb_spec (cell s k).1 0); split; congruence || done.
Qed.

(** ingress after the counter table, with the counter written into [m]. *)
Definition ingress_rest (s : state) (m : RawKvMsg) : state * verdict :=
  let v := mkVerdict m None 0 false in
  let '(s3, v3, umeta_key32) :=
    if flag m =? 2 then
      let (s1, umeta_key32) := apply_visibility s m in
      let (s2, v2) := if key m =? umeta_key32 then apply_logid s1 v else (s1, v) in
      let v3 := if msg_op (packet v2) =? ReplySwitch
                then mkVerdict (packet v2) (ucast_egress_port v2) (mcast_grp v2) true else v2 in
      (s2, v3, umeta_key32)
    else (s, v, 0) in
  if key (packet v3) =? umeta_key32 then (s3, v3)
  else
    let port := match udp_route (dst_s_id (rpc_header (packet v3))) with
                | Some p => Some p
                | None => ucast_egress_port v3
                end in
    (s3, mkVerdict (packet v3) port (mcast_grp v3) (dropped v3)).

Lemma ingress_split s m : ingress s m = let (s1, m1) := counter_table s m in ingress_rest s1 m1.
Proof. reflexivity. Qed.

Definition forwarded (m : RawKvMsg) (s : state) : state * verdict :=
  (s, mkVerdict m (udp_route (dst_s_id (rpc_header m))) 0 false).

(** Packets the visibility table ignores are routed by their node id. *)
Lemma rest_ignored s m :
  key m <> 0 -> flag m <> 2 \/ visibility_table (msg_op m) = no_op_my ->
  ingress_rest s m = forwarded m s.
Proof.
  intros Hk Hi. unfold ingress_rest, forwarded, apply_visibility.
  destruct (Z.eqb_spec (flag m) 2) as [Hf|Hf].
  - destruct Hi as [?|Hv]; [done|]. rewrite Hv.
    rewrite (proj2 (Z.eqb_neq _ 0)) by done. cbn [packet].
    assert (Hr : msg_op m =? ReplySwitch = false).
    { apply Z.eqb_neq. intros E. rewrite E in Hv. discriminate. }
    rewrite Hr. cbn [packet]. rewrite (proj2 (Z.eqb_neq _ 0)) by done.
    by destruct (udp_route _).
  - cbn [packet]. rewrite (proj2 (Z.eqb_neq _ 0)) by done. by destruct (udp_route _).
Qed.

(** AppendReply and UpdateIndexReq. *)
Lemma rest_new_index s m :
  key m <> 0 -> flag m = 2 -> msg_op m = kEnumAppendReply \/ msg_op m = kEnumUpdateIndexReq ->
  ingress_rest s m =
    if (cell s (switch_key m)).1 =? 0 then
      (write_log_id_alu1 (write_log_id_alu0
         (set_cell s (switch_key m) (key m, rpc_id m)) m) m,
       mkVerdict (with_op m kEnumMultiCastPkt) None (route_map m) false)
    else forwarded m s.
Proof.
  intros Hk Hf Ho. unfold ingress_rest, forwarded, apply_visibility, write_data_reply, apply_logid.
  rewrite Hf, Z.eqb_refl.
  assert (Hv : visibility_table (msg_op m) = new_index) by (destruct Ho as [->| ->]; done).
  assert (Hl : key2logid_table (msg_op m) = write_log_id) by (destruct Ho as [->| ->]; done).
  assert (Hr : msg_op m =? ReplySwitch = false) by (destruct Ho as [->| ->]; done).
  rewrite Hv. destruct ((cell s (switch_key m)).1 =? 0).
  - cbn [default from_option id packet]. rewrite Z.eqb_refl, Hl. cbn -[Z.eqb]. by rewrite Z.eqb_refl.
  - cbn [default from_option packet]. rewrite (proj2 (Z.eqb_neq _ 0)) by done.
    cbn [packet]. rewrite Hr. cbn [packet]. rewrite (proj2 (Z.eqb_neq _ 0)) by done. by destruct (udp_route _).
Qed.

Lemma rest_check_index s m :
  key m <> 0 -> flag m = 2 -> msg_op m = kEnumReadIndexReq ->
  ingress_rest s m =
    if key m =? (cell s (switch_key m)).1 then
      (s, mkVerdict (with_log_id m (default 0 (log0 s !! switch_key m) +
                                    2 ^ 32 * default 0 (log1 s !! switch_key m)))
            (Some (toBigEndian16 (route_port m))) 0 false)
    else forwarded m s.
Proof.
  intros Hk Hf Ho. unfold ingress_rest, forwarded, apply_visibility, check_index_msg, apply_logid.
  assert (Hv : visibility_table (msg_op m) = check_index) by (by rewrite Ho).
  assert (Hl : key2logid_table (msg_op m) = read_log_id) by (by rewrite Ho).
  assert (Hr : msg_op m =? ReplySwitch = false) by (by rewrite Ho).
  rewrite Hf, Z.eqb_refl, Hv.
  destruct (Z.eqb_spec (key m) (cell s (switch_key m)).1) as [E|E].
  - cbn [packet]. rewrite Hl. cbn [packet].
    change (msg_op (with_log_id m _)) with (msg_op m). rewrite Hr. cbn [packet].
    change (key (with_log_id m _)) with (key m). by rewrite <- E, Z.eqb_refl.
  - cbn [packet]. rewrite Hr. cbn [packet].
    rewrite (proj2 (Z.eqb_neq _ _)) by done. by destruct (udp_route _).
Qed.

Lemma rest_delete_index s m :
  key m <> 0 -> flag m = 2 -> msg_op m = ReplySwitch ->
  exists v, ingress_rest s m = (write_index_reply s m, v) /\ dropped v = true.
Proof.
  intros Hk Hf Ho. unfold ingress_rest, apply_visibility.
  assert (Hv : visibility_table (msg_op m) = delete_index) by (by rewrite Ho).
  assert (Hr : msg_op m =? ReplySwitch = true) by (by rewrite Ho).
  rewrite Hf, Z.eqb_refl, Hv. rewrite (proj2 (Z.eqb_neq _ 0)) by done.
  cbn [packet]. rewrite Hr. cbn [packet].
  rewrite (proj2 (Z.eqb_neq _ 0)) by done. by eexists.
Qed.

Lemma egress_route m p : egress_ports (mkVerdict m p 0 false) = from_option (fun p => [p]) [] p.
Proof. by destruct p. Qed.

Lemma unchanged_except k s : slots_eq_except k s s.
Proof. by intros k' _. Qed.

(** Log ids that the switch may store must not be negative. *)
Definition storable (m : RawKvMsg) : Prop :=
  msg_op m = kEnumAppendReply \/ msg_op m = kEnumUpdateIndexReq -> 0 <= log_id m.

Lemma rest_spec s m :
  key m <> 0 -> storable m ->
  let (s', v) := ingress_rest s m in
  slot s' (switch_key m) = (decide_slot (slot s (switch_key m)) m).1 /\
  slots_eq_except (switch_key m) s s' /\
  match (decide_slot (slot s (switch_key m)) m).2 with
  | Multicast => egress_ports v = group_ports (route_map m) /\
      packet v = with_op m kEnumMultiCastPkt
  | Answer l => egress_ports v = [toBigEndian16 (route_port m)] /\ packet v = with_log_id m l
  | Forward => egress_ports v = from_option (fun p => [p]) [] (udp_route (dst_s_id (rpc_header m)))
      /\ packet v = m
  | Drop => egress_ports v = []
  end.
Proof.
  intros Hk Hl. unfold decide_slot.
  destruct (Z.eqb_spec (flag m) 2) as [Hf|Hf]; cbn [negb].
  2:{ rewrite rest_ignored by auto. unfold forwarded; cbn [fst snd]; auto using egress_route, unchanged_except. }
  destruct (Z.eqb_spec (msg_op m) kEnumAppendReply) as [Ha|Ha];
    [|destruct (Z.eqb_spec (msg_op m) kEnumUpdateIndexReq) as [Hu|Hu]]; cbn [orb].
  1,2: rewrite rest_new_index by auto; destruct (slot s (switch_key m)) as [e|] eqn:E;
    [ rewrite (proj2 (Z.eqb_neq _ 0)) by (intros E'; apply slot_cell_none in E'; congruence);
      unfold forwarded; cbn [fst snd]; auto using egress_route, unchanged_except
    | rewrite (proj2 (Z.eqb_eq _ 0)) by (by apply slot_cell_none);
      destruct (claim_spec s m Hk (Hl ltac:(auto))); split_and!; try done;
      unfold egress_ports; cbn; by rewrite app_nil_r ].
  destruct (Z.eqb_spec (msg_op m) ReplySwitch) as [Hr|Hr].
  { destruct (rest_delete_index s m Hk Hf Hr) as (v & -> & Hd).
    cbn [fst snd]. split; [|split; [|unfold egress_ports; by rewrite Hd]].
    - unfold write_index_reply, slot. destruct (Z.eqb_spec (cell s (switch_key m)).1 0) as [E|E].
      + destruct (rpc_id m =? _); [apply slot_set_cell_0|]. by rewrite (proj2 (Z.eqb_eq _ 0)).
      + cbn [s_rpc]. rewrite (Z.eqb_sym (cell s (switch_key m)).2).
        destruct (rpc_id m =? _); [apply slot_set_cell_0|]. by rewrite (proj2 (Z.eqb_neq _ 0)).
    - unfold write_index_reply. intros k' Hne.
      destruct (rpc_id m =? _); [by apply slot_set_cell_ne|done]. }
  destruct (Z.eqb_spec (msg_op m) kEnumReadIndexReq) as [Hi|Hi].
  { rewrite rest_check_index by done. unfold slot.
    destruct (Z.eqb_spec (cell s (switch_key m)).1 0) as [E|E].
    - rewrite E, (proj2 (Z.eqb_neq _ 0)) by done.
      unfold forwarded; cbn [fst snd]; rewrite E; auto using egress_route, unchanged_except.
    - cbn [s_key s_log]. rewrite (Z.eqb_sym (key m)).
      destruct ((cell s (switch_key m)).1 =? key m); cbn [fst snd];
        (split; [by rewrite (proj2 (Z.eqb_neq _ 0))|]);
        auto using egress_route, unchanged_except. }
  rewrite rest_ignored; [|done|right].
  - unfold forwarded; cbn [fst snd]; auto using egress_route, unchanged_except.
  - unfold visibility_table. by rewrite !(proj2 (Z.eqb_neq _ _)).
Qed.

Lemma decide_send_cnt e m c : decide_slot e (with_send_cnt m c) = decide_slot e m.
Proof. reflexivity. Qed.

(** The slot abstraction of a whole ingress pass. *)
Lemma ingress_spec s m :
  key m <> 0 -> storable m ->
  let (s', v) := ingress s m in
  slot s' (switch_key m) = (decide_slot (slot s (switch_key m)) m).1 /\
  slots_eq_except (switch_key m) s s' /\
  emits v (decide_slot (slot s (switch_key m)) m).2 m.
Proof.
  intros Hk Hl. rewrite ingress_split.
  destruct (counter_table_fields s m) as (s1 & c & -> & Hkc & H0 & H1).
  pose proof (rest_spec s1 (with_send_cnt m c) Hk Hl) as R.
  destruct (ingress_rest s1 (with_send_cnt m c)) as [s' v].
  rewrite decide_send_cnt in R. cbn [switch_key with_send_cnt] in R.
  rewrite (slot_ext s s1 (switch_key m)) in R by done.
  destruct R as (Hs & Hne & He). split; [done|]. split.
  - intros k' Hk'. rewrite Hne by done. by apply slot_ext.
  - unfold emits. destruct (decide_slot (slot s (switch_key m)) m).2; [..|done];
      destruct He as [He Hp]; (split; [exact He|]); eauto.
Qed.


Definition sample_reply : RawKvMsg :=
  mkMsg (mkHeader 2 2 0 0 0 kEnumAppendReply 0) 2 5 98 0 1 0 0 0 77 9 46080 6 0 0 0 0 0 [].


(** The rest of the pipeline leaves the counters and send_cnt alone. *)
Lemma rest_counters s m :
  index_counter (ingress_rest s m).1 = index_counter s /\
  send_cnt (packet (ingress_rest s m).2) = send_cnt m.
Proof.
  unfold ingress_rest, apply_visibility, apply_logid, write_data_reply, write_index_reply,
    check_index_msg.
  destruct (flag m =? 2);
    repeat match goal with |- context [match ?x with _ => _ end] =>
      lazymatch x with context [match _ with _ => _ end] => fail | _ => destruct x end end;
    done.
Qed.

(** The in-flight counters never move: the entries of counter_table match
    index_port 0 to 7 while every message of kv.cc carries the thread's UDP
    port (t + 1) * 256 there, so ingress leaves all counters as they are and
    returns send_cnt unchanged to the host. *)
Theorem switch_counters_idle s m t :
  0 <= t < KvClient.kConfigMaxThreadCnt ->
  index_port m = toBigEndian16 (KvClient.get_thread_port t 0) ->
  index_counter (ingress s m).1 = index_counter s /\
  send_cnt (packet (ingress s m).2) = send_cnt m.
Proof.
  intros Ht Hp. rewrite ingress_split.
  assert (E : counter_table s m = (s, m)).
  { unfold counter_table. destruct (counter_delta (msg_op m)); [|done].
    rewrite Hp. unfold KvClient.get_thread_port. rewrite KvClient.compute_port_value by done.
    unfold KvClient.kConfigMaxThreadCnt in Ht. rewrite toBigEndian16_invol by lia.
    by rewrite (proj2 (Z.ltb_ge ((t + 1) * 2 ^ 8) 8)), andb_false_r by lia. }
  rewrite E. apply rest_counters.
Qed.

Lemma switch_counters_idle_witness :
  index_counter (ingress init (KvClient.rmsg (KvClient.put_value_req (KvClient.sample_client 1)
    (KvClient.ctx_of 42) KvClient.empty_msg))).1 = ∅.
Proof.
  refine (proj1 (switch_counters_idle init _ 0 _ _)); [|reflexivity].
  unfold KvClient.kConfigMaxThreadCnt. lia.
Defined.
End Switch.
