(* ===== verification/VisibilityModel.v ===== *)
(** * The visibility protocol between clients, switch, data node and index node

    [Module Visibility] states the protocol that kv.cc and the switch run
    together, at the level of one packet per message: a write is appended at
    the data node; its reply claims the switch slot of the key when that is
    free, which makes the write visible at once and sends it to the index in
    the background, and otherwise goes back to the client, which updates the
    index itself; a read is answered by the slot when it holds the key and by
    the index otherwise; the index's acknowledgement of a background update
    frees the slot.  Packets between switch and index keep their order per slot
    (one queue pair and one index thread serve a slot); all other packets may
    overtake each other.

    The specification is a linearizable register per key ([spec_step]): every
    operation takes effect atomically between its invocation and its return.
    The theorem is a forward simulation: every trace of the protocol is a trace
    of the specification. *)

From stdpp Require Import relations.
From S2P Require Import Prelude.

Module Visibility.
Section protocol.
Context {C : Type} `{Countable C}.
(** The slot and the fingerprint of a key, and the keys in use. *)
Context (slot fp : Z -> Z) (key_ok : Z -> Prop).
Hypothesis key_inj : forall k1 k2,
  key_ok k1 -> key_ok k2 -> slot k1 = slot k2 -> fp k1 = fp k2 -> k1 = k2.

(** ** The protocol *)

Inductive place := ToSwitch | ToData | ToClient | ToIndex (sk : Z) | FromIndex (sk : Z).
#[local] Instance place_eq_dec : EqDecision place.
Proof. solve_decision. Defined.

Inductive pkt :=
  | AppendReq (c : C) (k : Z)
  | AppendReply (c : C) (k l r : Z)
  | FastDone (c : C) (k l : Z)            (* the client's copy of the multicast *)
  | UpdateReq (c : C) (k l : Z)
  | UpdateReply (c : C) (k l : Z)
  | ReadReq (c : C) (k : Z)
  | ReadReply (c : C) (k : Z) (v : option Z)
  | MultiCast (k l r : Z)                 (* the index's copy *)
  | Ack (k l r : Z).                      (* ReplySwitch *)

(** What a coroutine waits for. *)
Inductive wait := Reading (k : Z) | Putting (k : Z) | Updating (k l : Z).

Record entry := mkEntry { e_fp : Z; e_rpc : Z; e_log : Z }.

Record sys := mkSys {
  slots : gmap Z entry;
  index : gmap Z Z;
  net : list (place * pkt);
  co : gmap C wait
}.

Inductive event := InvR (c : C) (k : Z) | InvW (c : C) (k : Z)
                 | RetR (c : C) (v : option Z) | RetW (c : C) (l : Z).

Definition ordered (p : place) : Prop :=
  match p with ToIndex _ | FromIndex _ => True | _ => False end.

(** Taking a packet: the first of its place where order is kept. *)
Definition takes (n : list (place * pkt)) (p : place) (x : pkt)
    (n1 n2 : list (place * pkt)) : Prop :=
  n = n1 ++ (p, x) :: n2 /\ (ordered p -> Forall (fun e => e.1 <> p) n1).

Inductive step : sys -> option event -> sys -> Prop :=
  | s_inv_read s i n o c k :
      o !! c = None -> key_ok k ->
      step (mkSys s i n o) (Some (InvR c k))
        (mkSys s i (n ++ [(ToSwitch, ReadReq c k)]) (<[c := Reading k]> o))
  | s_inv_write s i n o c k :
      o !! c = None -> key_ok k ->
      step (mkSys s i n o) (Some (InvW c k))
        (mkSys s i (n ++ [(ToSwitch, AppendReq c k)]) (<[c := Putting k]> o))
  (* the switch *)
  | s_sw_append_req s i n n1 n2 o c k :
      takes n ToSwitch (AppendReq c k) n1 n2 ->
      step (mkSys s i n o) None (mkSys s i (n1 ++ n2 ++ [(ToData, AppendReq c k)]) o)
  | s_sw_claim s i n n1 n2 o c k l r :
      takes n ToSwitch (AppendReply c k l r) n1 n2 -> s !! slot k = None ->
      step (mkSys s i n o) None
        (mkSys (<[slot k := mkEntry (fp k) r l]> s) i
           (n1 ++ n2 ++ [(ToIndex (slot k), MultiCast k l r); (ToClient, FastDone c k l)]) o)
  | s_sw_busy s i n n1 n2 o c k l r e :
      takes n ToSwitch (AppendReply c k l r) n1 n2 -> s !! slot k = Some e ->
      step (mkSys s i n o) None (mkSys s i (n1 ++ n2 ++ [(ToClient, AppendReply c k l r)]) o)
  | s_sw_update s i n n1 n2 o c k l :
      takes n ToSwitch (UpdateReq c k l) n1 n2 ->
      step (mkSys s i n o) None (mkSys s i (n1 ++ n2 ++ [(ToIndex (slot k), UpdateReq c k l)]) o)
  | s_sw_hit s i n n1 n2 o c k e :
      takes n ToSwitch (ReadReq c k) n1 n2 -> s !! slot k = Some e -> e_fp e = fp k ->
      step (mkSys s i n o) None
        (mkSys s i (n1 ++ n2 ++ [(ToClient, ReadReply c k (Some (e_log e)))]) o)
  | s_sw_miss s i n n1 n2 o c k :
      takes n ToSwitch (ReadReq c k) n1 n2 ->
      (forall e, s !! slot k = Some e -> e_fp e <> fp k) ->
      step (mkSys s i n o) None (mkSys s i (n1 ++ n2 ++ [(ToIndex (slot k), ReadReq c k)]) o)
  | s_sw_update_reply s i n n1 n2 o sk c k l :
      takes n (FromIndex sk) (UpdateReply c k l) n1 n2 ->
      step (mkSys s i n o) None (mkSys s i (n1 ++ n2 ++ [(ToClient, UpdateReply c k l)]) o)
  | s_sw_read_reply s i n n1 n2 o sk c k v :
      takes n (FromIndex sk) (ReadReply c k v) n1 n2 ->
      step (mkSys s i n o) None (mkSys s i (n1 ++ n2 ++ [(ToClient, ReadReply c k v)]) o)
  | s_sw_ack s i n n1 n2 o sk k l r :
      takes n (FromIndex sk) (Ack k l r) n1 n2 ->
      step (mkSys s i n o) None
        (mkSys (match s !! sk with
                | Some e => if e_rpc e =? r then delete sk s else s
                | None => s
                end) i (n1 ++ n2) o)
  (* the data node chooses the log id; the rpc id comes from the request *)
  | s_data s i n n1 n2 o c k l r :
      takes n ToData (AppendReq c k) n1 n2 ->
      step (mkSys s i n o) None (mkSys s i (n1 ++ n2 ++ [(ToSwitch, AppendReply c k l r)]) o)
  (* the index node *)
  | s_ix_update s i n n1 n2 o sk c k l :
      takes n (ToIndex sk) (UpdateReq c k l) n1 n2 ->
      step (mkSys s i n o) None
        (mkSys s (<[k := l]> i) (n1 ++ n2 ++ [(FromIndex sk, UpdateReply c k l)]) o)
  | s_ix_multicast s i n n1 n2 o sk k l r :
      takes n (ToIndex sk) (MultiCast k l r) n1 n2 ->
      step (mkSys s i n o) None
        (mkSys s (<[k := l]> i) (n1 ++ n2 ++ [(FromIndex sk, Ack k l r)]) o)
  | s_ix_read s i n n1 n2 o sk c k :
      takes n (ToIndex sk) (ReadReq c k) n1 n2 ->
      step (mkSys s i n o) None
        (mkSys s i (n1 ++ n2 ++ [(FromIndex sk, ReadReply c k (i !! k))]) o)
  (* the client *)
  | s_co_fast s i n n1 n2 o c k l :
      takes n ToClient (FastDone c k l) n1 n2 -> o !! c = Some (Putting k) ->
      step (mkSys s i n o) (Some (RetW c l)) (mkSys s i (n1 ++ n2) (delete c o))
  | s_co_slow s i n n1 n2 o c k l r :
      takes n ToClient (AppendReply c k l r) n1 n2 -> o !! c = Some (Putting k) ->
      step (mkSys s i n o) None
        (mkSys s i (n1 ++ n2 ++ [(ToSwitch, UpdateReq c k l)]) (<[c := Updating k l]> o))
  | s_co_update s i n n1 n2 o c k l :
      takes n ToClient (UpdateReply c k l) n1 n2 -> o !! c = Some (Updating k l) ->
      step (mkSys s i n o) (Some (RetW c l)) (mkSys s i (n1 ++ n2) (delete c o))
  | s_co_read s i n n1 n2 o c k v :
      takes n ToClient (ReadReply c k v) n1 n2 -> o !! c = Some (Reading k) ->
      step (mkSys s i n o) (Some (RetR c v)) (mkSys s i (n1 ++ n2) (delete c o)).

(** Executions and the visible events they produce. *)
Inductive exec : sys -> list event -> sys -> Prop :=
  | exec_nil s : exec s [] s
  | exec_cons s e s1 tr s2 :
      step s e s1 -> exec s1 tr s2 -> exec s (option_list e ++ tr) s2.

Definition initial (i : gmap Z Z) : sys := mkSys ∅ i [] ∅.

(** ** The specification: an atomic register per key *)

Inductive opstate := PR (k : Z) | DR (k : Z) (v : option Z) | PW (k : Z) | DW (k l : Z).

#[local] Instance opstate_eq_dec : EqDecision opstate.
Proof. solve_decision. Defined.

Record spec := mkSpec { reg : gmap Z Z; ops : gmap C opstate }.

Inductive spec_step : spec -> option event -> spec -> Prop :=
  | a_inv_read g o c k : o !! c = None ->
      spec_step (mkSpec g o) (Some (InvR c k)) (mkSpec g (<[c := PR k]> o))
  | a_inv_write g o c k : o !! c = None ->
      spec_step (mkSpec g o) (Some (InvW c k)) (mkSpec g (<[c := PW k]> o))
  | a_read g o c k : o !! c = Some (PR k) ->
      spec_step (mkSpec g o) None (mkSpec g (<[c := DR k (g !! k)]> o))
  | a_write g o c k l : o !! c = Some (PW k) ->
      spec_step (mkSpec g o) None (mkSpec (<[k := l]> g) (<[c := DW k l]> o))
  | a_ret_read g o c k v : o !! c = Some (DR k v) ->
      spec_step (mkSpec g o) (Some (RetR c v)) (mkSpec g (delete c o))
  | a_ret_write g o c k l : o !! c = Some (DW k l) ->
      spec_step (mkSpec g o) (Some (RetW c l)) (mkSpec g (delete c o)).

Inductive spec_exec : spec -> list event -> spec -> Prop :=
  | spec_nil a : spec_exec a [] a
  | spec_cons a e a1 tr a2 :
      spec_step a e a1 -> spec_exec a1 tr a2 -> spec_exec a (option_list e ++ tr) a2.

(** ** Lanes: the packets of one place, in order *)

Definition lane (p : place) (n : list (place * pkt)) : list pkt :=
  omap (fun e => if decide (e.1 = p) then Some e.2 else None) n.

Lemma lane_app p n1 n2 : lane p (n1 ++ n2) = lane p n1 ++ lane p n2.
Proof. apply omap_app. Qed.

Lemma lane_none p n : Forall (fun e => e.1 <> p) n -> lane p n = [].
Proof. induction 1; simpl; [done|]. by rewrite decide_False. Qed.

Lemma lane_take n p x n1 n2 :
  takes n p x n1 n2 -> ordered p -> lane p n = x :: lane p (n1 ++ n2).
Proof.
  intros [-> Hf] Ho. rewrite !lane_app. simpl. rewrite decide_True by done.
  by rewrite (lane_none p n1) by auto.
Qed.

Lemma lane_take_ne n p x n1 n2 q :
  takes n p x n1 n2 -> q <> p -> lane q n = lane q (n1 ++ n2).
Proof. intros [-> _] Hne. rewrite !lane_app. simpl. by rewrite decide_False. Qed.

Definition owner (x : pkt) : option C :=
  match x with
  | AppendReq c _ | AppendReply c _ _ _ | FastDone c _ _ | UpdateReq c _ _
  | UpdateReply c _ _ | ReadReq c _ | ReadReply c _ _ => Some c
  | MultiCast _ _ _ | Ack _ _ _ => None
  end.
Definition owners (n : list (place * pkt)) : list C := omap (fun e => owner e.2) n.

Lemma owners_app n1 n2 : owners (n1 ++ n2) = owners n1 ++ owners n2.
Proof. apply omap_app. Qed.

Lemma elem_of_lane p n x : x ∈ lane p n <-> (p, x) ∈ n.
Proof.
  unfold lane. rewrite list_elem_of_omap. split.
  - intros ([q y] & Hin & Hd). simpl in Hd. case_decide; [|done]. by simplify_eq/=.
  - intros Hin. exists (p, x). split; [done|]. simpl. by rewrite decide_True.
Qed.

Lemma owner_in_lane p n x c : x ∈ lane p n -> owner x = Some c -> c ∈ owners n.
Proof.
  intros Hx Ho. apply elem_of_lane in Hx. apply list_elem_of_omap. by exists (p, x).
Qed.

(** ** The invariant *)

Definition upd (x : pkt) : option (C * Z * Z) :=
  match x with UpdateReq c k l | UpdateReply c k l => Some (c, k, l) | _ => None end.
Definition bg (x : pkt) : option (Z * Z * Z) :=
  match x with MultiCast k l r | Ack k l r => Some (k, l, r) | _ => None end.

(** What the index will hold at [k] after the queue. *)
Definition replay1 (k : Z) (v : option Z) (x : pkt) : option Z :=
  match x with
  | UpdateReq _ k' l | MultiCast k' l _ => if decide (k' = k) then Some l else v
  | _ => v
  end.
Definition replay (k : Z) (v : option Z) (q : list pkt) : option Z := foldl (replay1 k) v q.

(** The last client update of [k] in a stretch of the slot's traffic. *)
Definition last1 (k : Z) (v : option Z) (x : pkt) : option Z :=
  match upd x with Some (_, k', l) => if decide (k' = k) then Some l else v | None => v end.
Definition last_upd (k : Z) (v : option Z) (q : list pkt) : option Z := foldl (last1 k) v q.

Definition applied (p : gmap C opstate) (x : pkt) : Prop :=
  forall c k l, upd x = Some (c, k, l) -> p !! c = Some (DW k l).
(** Behind the background update of [k0], updates of [k0] are not yet visible. *)
Definition deferred (k0 : Z) (p : gmap C opstate) (x : pkt) : Prop :=
  forall c k l, upd x = Some (c, k, l) ->
    p !! c = Some (if decide (k = k0) then PW k else DW k l).
Definition client_side (x : pkt) : Prop := bg x = None.

(** The traffic of slot [sk], oldest first: [f] has passed the index, [q] has
    not.  [e] is the switch's entry, [i] the index, [g] and [p] the abstract
    register and operations. *)
Record slot_inv (sk : Z) (e : option entry) (f q : list pkt) (i g : gmap Z Z)
    (p : gmap C opstate) : Prop := {
  si_reads q1 c k q2 : q = q1 ++ ReadReq c k :: q2 ->
    slot k = sk /\ p !! c = Some (DR k (replay k (i !! k) q1));
  si_entry :
    match e with
    | None =>
        Forall client_side (f ++ q) /\ Forall (applied p) (f ++ q) /\
        forall k, slot k = sk -> g !! k = replay k (i !! k) q
    | Some e =>
        exists k before x after,
          f ++ q = before ++ x :: after /\ bg x = Some (k, e_log e, e_rpc e) /\
          Forall client_side before /\ Forall client_side after /\
          fp k = e_fp e /\ slot k = sk /\ key_ok k /\
          Forall (applied p) before /\ Forall (deferred k p) after /\
          g !! k = Some (e_log e) /\
          (forall k', slot k' = sk -> k' <> k -> g !! k' = replay k' (i !! k') q) /\
          replay k (i !! k) q = last_upd k (Some (e_log e)) after
    end
}.

(** Every packet fits the state of its coroutine and of the operation. *)
Definition pk_ok (o : gmap C wait) (p : gmap C opstate) (e : place * pkt) : Prop :=
  match e with
  | (ToSwitch, AppendReq c k) | (ToData, AppendReq c k)
  | (ToSwitch, AppendReply c k _ _) | (ToClient, AppendReply c k _ _) =>
      o !! c = Some (Putting k) /\ p !! c = Some (PW k) /\ key_ok k
  | (ToClient, FastDone c k l) => o !! c = Some (Putting k) /\ p !! c = Some (DW k l)
  | (ToSwitch, UpdateReq c k l) =>
      o !! c = Some (Updating k l) /\ p !! c = Some (PW k) /\ key_ok k
  | (ToIndex sk, UpdateReq c k l) | (FromIndex sk, UpdateReply c k l) =>
      slot k = sk /\ o !! c = Some (Updating k l)
  | (ToClient, UpdateReply c k l) =>
      o !! c = Some (Updating k l) /\ p !! c = Some (DW k l)
  | (ToSwitch, ReadReq c k) =>
      o !! c = Some (Reading k) /\ p !! c = Some (PR k) /\ key_ok k
  | (ToIndex sk, ReadReq c k) => slot k = sk /\ o !! c = Some (Reading k)
  | (FromIndex _, ReadReply c k v) | (ToClient, ReadReply c k v) =>
      o !! c = Some (Reading k) /\ p !! c = Some (DR k v)
  | (ToIndex sk, MultiCast k _ _) | (FromIndex sk, Ack k _ _) => slot k = sk
  | _ => False
  end.

Record inv (s : sys) (a : spec) : Prop := {
  in_owners : NoDup (owners (net s));
  in_packets : Forall (pk_ok (co s) (ops a)) (net s);
  in_idle c : co s !! c = None -> ops a !! c = None;
  in_slots sk : slot_inv sk (slots s !! sk) (lane (FromIndex sk) (net s))
                  (lane (ToIndex sk) (net s)) (index s) (reg a) (ops a)
}.

Lemma replay_app k v q1 q2 : replay k v (q1 ++ q2) = replay k (replay k v q1) q2.
Proof. apply foldl_app. Qed.
Lemma last_upd_app k v q1 q2 : last_upd k v (q1 ++ q2) = last_upd k (last_upd k v q1) q2.
Proof. apply foldl_app. Qed.

Lemma replay_snoc k v q x : replay k v (q ++ [x]) = replay1 k (replay k v q) x.
Proof. apply foldl_snoc. Qed.
Lemma last_upd_snoc k v q x : last_upd k v (q ++ [x]) = last1 k (last_upd k v q) x.
Proof. apply foldl_snoc. Qed.

(** *** Frames *)

Lemma applied_frame p p' x :
  (forall c, owner x = Some c -> p' !! c = p !! c) -> applied p x -> applied p' x.
Proof.
  intros Hp Ha c k l Hu. rewrite Hp; [by apply Ha|].
  destruct x; simpl in *; by simplify_eq.
Qed.

Lemma deferred_frame k0 p p' x :
  (forall c, owner x = Some c -> p' !! c = p !! c) -> deferred k0 p x -> deferred k0 p' x.
Proof.
  intros Hp Ha c k l Hu. rewrite Hp; [by apply Ha|].
  destruct x; simpl in *; by simplify_eq.
Qed.

Lemma Forall_frame (P P' : pkt -> Prop) (p p' : gmap C opstate) l :
  (forall x, (forall c, owner x = Some c -> p' !! c = p !! c) -> P x -> P' x) ->
  (forall x c, x ∈ l -> owner x = Some c -> p' !! c = p !! c) ->
  Forall P l -> Forall P' l.
Proof. intros HP Hl. rewrite !Forall_forall. eauto. Qed.

Lemma slot_inv_frame sk e f q i g p i' g' p' :
  slot_inv sk e f q i g p ->
  (forall k, slot k = sk -> i' !! k = i !! k) ->
  (forall k, slot k = sk -> g' !! k = g !! k) ->
  (forall x c, x ∈ f ++ q -> owner x = Some c -> p' !! c = p !! c) ->
  slot_inv sk e f q i' g' p'.
Proof.
  intros [Hr He] Hi Hg Hp. split.
  - intros q1 c k q2 Hq. destruct (Hr _ _ _ _ Hq) as [Hk Hd]. split; [done|].
    rewrite Hi by done. rewrite (Hp (ReadReq c k)); [done| |done]. rewrite Hq. set_solver.
  - destruct e as [e|].
    + destruct He as (k & b & x & a & Hfq & Hx & Hb & Ha & Hfp & Hsk & Hok & Hab & Hda & Hgk & Hgo & Hl).
      exists k, b, x, a. rewrite Hi, Hg by done. split_and!; try done.
      * eapply Forall_frame; [apply applied_frame| |done]. intros y c Hy. apply Hp.
        rewrite Hfq. set_solver.
      * eapply Forall_frame; [apply deferred_frame| |done]. intros y c Hy. apply Hp.
        rewrite Hfq. set_solver.
      * intros k' Hk' Hne. rewrite Hi, Hg by done. auto.
    + destruct He as (Hc & Ha & Hgo). split_and!; try done.
      * eapply Forall_frame; [apply applied_frame| |done]. exact Hp.
      * intros k Hk. rewrite Hi, Hg by done. auto.
Qed.

Lemma pk_ok_frame o p o' p' e :
  (forall c, owner e.2 = Some c -> o' !! c = o !! c /\ p' !! c = p !! c) ->
  pk_ok o p e -> pk_ok o' p' e.
Proof.
  destruct e as [pl x]. intros Hf.
  destruct pl, x; simpl in *; try done;
    destruct (Hf _ eq_refl) as [Ho Hp]; rewrite ?Ho, ?Hp; done.
Qed.

(** *** Tokens: every coroutine has at most one packet under way *)

Lemma tokens_rest n1 P x n2 c :
  NoDup (owners (n1 ++ (P, x) :: n2)) -> owner x = Some c ->
  NoDup (c :: owners (n1 ++ n2)).
Proof.
  intros Hn Hx. rewrite owners_app in *. simpl in Hn. rewrite Hx in Hn.
  by rewrite <- Permutation_middle in Hn.
Qed.

Lemma packets_frame o p o' p' n :
  Forall (pk_ok o p) n ->
  (forall c, c ∈ owners n -> o' !! c = o !! c /\ p' !! c = p !! c) ->
  Forall (pk_ok o' p') n.
Proof.
  rewrite !Forall_forall. intros Hn Hf e He. eapply pk_ok_frame; [|by apply Hn].
  intros c Hc. apply Hf. apply list_elem_of_omap. eauto.
Qed.

(** Replacing the packet of [c] by [new], with the state of [c] changed. *)
Lemma tokens_replace n1 P x n2 new o p o' p' c :
  NoDup (owners (n1 ++ (P, x) :: n2)) -> Forall (pk_ok o p) (n1 ++ (P, x) :: n2) ->
  owner x = Some c -> (owners new = [c] \/ owners new = []) -> Forall (pk_ok o' p') new ->
  (forall c', c' <> c -> o' !! c' = o !! c' /\ p' !! c' = p !! c') ->
  NoDup (owners (n1 ++ n2 ++ new)) /\ Forall (pk_ok o' p') (n1 ++ n2 ++ new).
Proof.
  intros Hn Hp Hx Hnew Hpn Hf. pose proof (tokens_rest _ _ _ _ _ Hn Hx) as Hr.
  apply NoDup_cons in Hr as [Hc Hr]. rewrite app_assoc. split.
  - rewrite owners_app. destruct Hnew as [-> | ->]; [|by rewrite app_nil_r].
    apply NoDup_app. split_and!; [done|set_solver|apply NoDup_singleton].
  - apply Forall_app. split; [|done]. apply Forall_app in Hp as [H1 [_ H2]%Forall_cons].
    eapply packets_frame; [by apply Forall_app|]. intros c' Hc'. apply Hf. intros ->. done.
Qed.

(** Replacing a packet without owner. *)
Lemma tokens_bg n1 P x n2 new o p :
  NoDup (owners (n1 ++ (P, x) :: n2)) -> Forall (pk_ok o p) (n1 ++ (P, x) :: n2) ->
  owner x = None -> owners new = [] -> Forall (pk_ok o p) new ->
  NoDup (owners (n1 ++ n2 ++ new)) /\ Forall (pk_ok o p) (n1 ++ n2 ++ new).
Proof.
  intros Hn Hp Hx Hnew Hpn. apply Forall_app in Hp as [H1 [_ H2]%Forall_cons]. split.
  - rewrite !owners_app, Hnew, app_nil_r in *. simpl in Hn. by rewrite Hx in Hn.
  - rewrite !Forall_app. done.
Qed.

(** *** How the traffic of one slot changes *)

Lemma reads_snoc q x q1 c k q2 :
  q ++ [x] = q1 ++ ReadReq c k :: q2 ->
  (exists q2', q = q1 ++ ReadReq c k :: q2') \/ (q1 = q /\ x = ReadReq c k).
Proof.
  intros E. destruct q2 as [|y q2 _] using rev_ind.
  - apply app_inj_tail in E as [-> ->]. by right.
  - rewrite app_comm_cons, app_assoc in E. apply app_inj_tail in E as [-> _]. left. eauto.
Qed.

Lemma other_key k k0 :
  key_ok k -> key_ok k0 -> slot k = slot k0 -> fp k0 <> fp k -> k <> k0.
Proof. by intros _ _ _ Hf ->. Qed.

(** An update queued behind the background update of its own key waits. *)
Lemma slot_push_deferred e f q i g p c k l :
  slot_inv (slot k) (Some e) f q i g p -> e_fp e = fp k -> key_ok k ->
  p !! c = Some (PW k) ->
  slot_inv (slot k) (Some e) f (q ++ [UpdateReq c k l]) i g p.
Proof.
  intros [Hr He] Hfp Hok Hc.
  destruct He as (k0 & b & x & a & Hfq & Hx & Hb & Ha & Hfp0 & Hsk & Hok0 & Hab & Hda & Hgk & Hgo & Hl).
  assert (k = k0) as <- by (apply key_inj; congruence).
  split.
  - intros q1 c' k' q2 [[q2' ->]|[_ ?]]%reads_snoc; [by eapply Hr|done].
  - exists k, b, x, (a ++ [UpdateReq c k l]). split_and!; try done.
    + by rewrite app_assoc, Hfq, <- app_assoc.
    + apply Forall_app. split; [done|]. by repeat constructor.
    + apply Forall_app. split; [done|]. repeat constructor.
      intros c' k' l' ?. simplify_eq/=. by rewrite decide_True.
    + intros k' Hk' Hne. rewrite replay_snoc. cbn. rewrite decide_False by done. auto.
    + rewrite replay_snoc, last_upd_snoc, Hl. cbn. by rewrite decide_True.
Qed.

(** Any other queued update takes effect as it passes the switch. *)
Lemma slot_push_update e f q i g p c k l :
  slot_inv (slot k) e f q i g p -> key_ok k ->
  (forall e', e = Some e' -> e_fp e' <> fp k) ->
  (forall x c', x ∈ f ++ q -> owner x = Some c' -> c' <> c) ->
  slot_inv (slot k) e f (q ++ [UpdateReq c k l]) i (<[k := l]> g) (<[c := DW k l]> p).
Proof.
  intros [Hr He] Hok Hfree Hfresh.
  assert (Hp : forall x c', x ∈ f ++ q -> owner x = Some c' -> <[c := DW k l]> p !! c' = p !! c').
  { intros x c' Hx Ho. apply lookup_insert_ne. intros <-. by eapply Hfresh. }
  split.
  - intros q1 c' k' q2 [[q2' Hq]|[_ ?]]%reads_snoc; [|done].
    rewrite (Hp (ReadReq c' k')); [by eapply Hr|rewrite Hq; set_solver|done].
  - assert (Hnew : applied (<[c := DW k l]> p) (UpdateReq c k l)).
    { intros c' k' l' ?. simplify_eq/=. apply lookup_insert_eq. }
    destruct e as [e|].
    + destruct He as (k0 & b & x & a & Hfq & Hx & Hb & Ha & Hfp0 & Hsk & Hok0 & Hab & Hda & Hgk & Hgo & Hl).
      assert (Hne : k <> k0).
      { intros ->. by apply (Hfree e eq_refl). }
      exists k0, b, x, (a ++ [UpdateReq c k l]). split_and!; try done.
      * by rewrite app_assoc, Hfq, <- app_assoc.
      * apply Forall_app. split; [done|]. by repeat constructor.
      * eapply Forall_frame; [apply applied_frame| |done]. intros y c' Hy. apply Hp.
        rewrite Hfq. set_solver.
      * apply Forall_app. split.
        -- eapply Forall_frame; [apply deferred_frame| |done]. intros y c' Hy. apply Hp.
           rewrite Hfq. set_solver.
        -- repeat constructor. intros c' k' l' ?. simplify_eq/=.
           rewrite decide_False by done. apply lookup_insert_eq.
      * by rewrite lookup_insert_ne.
      * intros k' Hk' Hne'. rewrite replay_snoc. cbn. case_decide as D.
        -- subst. apply lookup_insert_eq.
        -- rewrite lookup_insert_ne by done. auto.
      * rewrite replay_snoc, last_upd_snoc. cbn.
        by rewrite !decide_False by done.
    + destruct He as (Hc & Ha & Hgo). rewrite app_assoc. split_and!.
      * apply Forall_app. split; [done|]. by repeat constructor.
      * apply Forall_app. split; [|by repeat constructor].
        eapply Forall_frame; [apply applied_frame| |done]. exact Hp.
      * intros k' Hk'. rewrite replay_snoc. cbn. case_decide as D.
        -- subst. apply lookup_insert_eq.
        -- rewrite lookup_insert_ne by done. auto.
Qed.

(** A read that misses takes effect as it passes the switch. *)
Lemma slot_push_read e f q i g p c k :
  slot_inv (slot k) e f q i g p -> key_ok k ->
  (forall e', e = Some e' -> e_fp e' <> fp k) ->
  (forall x c', x ∈ f ++ q -> owner x = Some c' -> c' <> c) ->
  slot_inv (slot k) e f (q ++ [ReadReq c k]) i g (<[c := DR k (g !! k)]> p).
Proof.
  intros [Hr He] Hok Hfree Hfresh.
  assert (Hp : forall x c', x ∈ f ++ q -> owner x = Some c' ->
                 <[c := DR k (g !! k)]> p !! c' = p !! c').
  { intros x c' Hx Ho. apply lookup_insert_ne. intros <-. by eapply Hfresh. }
  assert (Hg : g !! k = replay k (i !! k) q).
  { destruct e as [e|]; [|by apply He].
    destruct He as (k0 & b & x & a & _ & _ & _ & _ & Hfp0 & _ & _ & _ & _ & _ & Hgo & _).
    apply Hgo; [done|]. intros ->. by apply (Hfree e eq_refl). }
  split.
  - intros q1 c' k' q2 [[q2' Hq]|[-> E]]%reads_snoc.
    + rewrite (Hp (ReadReq c' k')); [by eapply Hr|rewrite Hq; set_solver|done].
    + simplify_eq. split; [done|]. by rewrite lookup_insert_eq, Hg.
  - destruct e as [e|].
    + destruct He as (k0 & b & x & a & Hfq & Hx & Hb & Ha & Hfp0 & Hsk & Hok0 & Hab & Hda & Hgk & Hgo & Hl).
      exists k0, b, x, (a ++ [ReadReq c k]). split_and!; try done.
      * by rewrite app_assoc, Hfq, <- app_assoc.
      * apply Forall_app. split; [done|]. by repeat constructor.
      * eapply Forall_frame; [apply applied_frame| |done]. intros y c' Hy. apply Hp.
        rewrite Hfq. set_solver.
      * apply Forall_app. split; [|by repeat constructor].
        eapply Forall_frame; [apply deferred_frame| |done]. intros y c' Hy. apply Hp.
        rewrite Hfq. set_solver.
      * intros k' Hk' Hne'. rewrite replay_snoc. cbn. auto.
      * rewrite replay_snoc, last_upd_snoc. done.
    + destruct He as (Hc & Ha & Hgo). rewrite app_assoc. split_and!.
      * apply Forall_app. split; [done|]. by repeat constructor.
      * apply Forall_app. split; [|by repeat constructor].
        eapply Forall_frame; [apply applied_frame| |done]. exact Hp.
      * intros k' Hk'. rewrite replay_snoc. cbn. auto.
Qed.

(** A claimed slot: the write takes effect, its background update is queued. *)
Lemma slot_claim f q i g p c k l r :
  slot_inv (slot k) None f q i g p -> key_ok k ->
  (forall x c', x ∈ f ++ q -> owner x = Some c' -> c' <> c) ->
  slot_inv (slot k) (Some (mkEntry (fp k) r l)) f (q ++ [MultiCast k l r]) i
    (<[k := l]> g) (<[c := DW k l]> p).
Proof.
  intros [Hr (Hc & Ha & Hgo)] Hok Hfresh.
  assert (Hp : forall x c', x ∈ f ++ q -> owner x = Some c' -> <[c := DW k l]> p !! c' = p !! c').
  { intros x c' Hx Ho. apply lookup_insert_ne. intros <-. by eapply Hfresh. }
  split.
  - intros q1 c' k' q2 [[q2' Hq]|[_ ?]]%reads_snoc; [|done].
    rewrite (Hp (ReadReq c' k')); [by eapply Hr|rewrite Hq; set_solver|done].
  - exists k, (f ++ q), (MultiCast k l r), []. rewrite app_assoc. split_and!; try done.
    + eapply Forall_frame; [apply applied_frame| |done]. exact Hp.
    + apply lookup_insert_eq.
    + intros k' Hk' Hne. rewrite lookup_insert_ne, replay_snoc by done. cbn.
      rewrite decide_False by done. auto.
    + rewrite replay_snoc. cbn. by rewrite decide_True.
Qed.

(** *** The index takes the oldest request of a slot *)

Definition same_kind (x y : pkt) : Prop := upd x = upd y /\ bg x = bg y.

Lemma same_kind_refl l : Forall2 same_kind l l.
Proof. induction l; by constructor. Qed.

Lemma kind_applied p l l' : Forall2 same_kind l l' -> Forall (applied p) l -> Forall (applied p) l'.
Proof.
  induction 1 as [|x y l l' [Hu _] _ IH]; intros Ha; [done|].
  apply Forall_cons in Ha as [Hx Ha]. constructor; [|auto]. unfold applied. by rewrite <- Hu.
Qed.
Lemma kind_deferred k p l l' :
  Forall2 same_kind l l' -> Forall (deferred k p) l -> Forall (deferred k p) l'.
Proof.
  induction 1 as [|x y l l' [Hu _] _ IH]; intros Ha; [done|].
  apply Forall_cons in Ha as [Hx Ha]. constructor; [|auto]. unfold deferred. by rewrite <- Hu.
Qed.
Lemma kind_client l l' : Forall2 same_kind l l' -> Forall client_side l -> Forall client_side l'.
Proof.
  induction 1 as [|x y l l' [_ Hb] _ IH]; intros Ha; [done|].
  apply Forall_cons in Ha as [Hx Ha]. constructor; [|auto]. unfold client_side. by rewrite <- Hb.
Qed.
Lemma kind_last k v l l' : Forall2 same_kind l l' -> last_upd k v l' = last_upd k v l.
Proof.
  intros Hf. revert v. induction Hf as [|x y l l' [Hu _] _ IH]; intros v; [done|].
  cbn. unfold last_upd in IH. rewrite IH. unfold last1. by rewrite Hu.
Qed.

Lemma slot_index_step sk e f x x' q i g p i' :
  slot_inv sk e f (x :: q) i g p -> same_kind x x' ->
  (forall k, slot k = sk -> i' !! k = replay1 k (i !! k) x) ->
  slot_inv sk e (f ++ [x']) q i' g p.
Proof.
  intros [Hr He] Hsame Hi.
  assert (Hq : forall k, slot k = sk -> replay k (i' !! k) q = replay k (i !! k) (x :: q))
    by (intros k Hk; by rewrite Hi).
  assert (HT : Forall2 same_kind (f ++ x :: q) ((f ++ [x']) ++ q)).
  { rewrite <- app_assoc. apply Forall2_app; [apply same_kind_refl|].
    constructor; [done|apply same_kind_refl]. }
  split.
  - intros q1 c k q2 ->. destruct (Hr (x :: q1) c k q2 eq_refl) as [Hk Hd]. split; [done|].
    rewrite Hi by done. exact Hd.
  - destruct e as [e|].
    + destruct He as (k & b & y & a & Hfq & Hx & Hb & Ha & Hfp & Hsk & Hok & Hab & Hda & Hgk & Hgo & Hl).
      rewrite Hfq in HT. apply Forall2_app_inv_l in HT as (b' & ya' & Hbb & Hya & ->).
      apply Forall2_cons_inv_l in Hya as (y' & a' & [_ Hyb] & Haa & ->).
      exists k, b', y', a'. split_and!; try done.
      * by rewrite <- Hyb.
      * by eapply kind_client.
      * by eapply kind_client.
      * by eapply kind_applied.
      * by eapply kind_deferred.
      * intros k' Hk' Hne. rewrite Hq by done. auto.
      * rewrite Hq by done. by rewrite (kind_last _ _ a a').
    + destruct He as (Hc & Ha & Hgo). split_and!.
      * by eapply kind_client.
      * by eapply kind_applied.
      * intros k Hk. rewrite Hq by done. auto.
Qed.

(** *** The switch takes the oldest reply of a slot *)

Lemma slot_pop sk e f x q i g p :
  slot_inv sk e (x :: f) q i g p -> bg x = None ->
  slot_inv sk e f q i g p /\ applied p x.
Proof.
  intros [Hr He] Hx. destruct e as [e|].
  - destruct He as (k & b & y & a & Hfq & Hy & Hb & Ha & Hfp & Hsk & Hok & Hab & Hda & Hgk & Hgo & Hl).
    destruct b as [|x0 b]; simpl in Hfq; injection Hfq as <- Hfq.
    { congruence. }
    apply Forall_cons in Hb as [_ Hb]. apply Forall_cons in Hab as [Hax Hab].
    split; [|done]. split; [done|]. exists k, b, y, a. split_and!; done.
  - destruct He as (Hc & Ha & Hgo). simpl in Hc, Ha.
    apply Forall_cons in Hc as [_ Hc]. apply Forall_cons in Ha as [Hax Ha].
    split; [|done]. by split.
Qed.

Lemma spec_exec_app a tr1 a1 tr2 a2 :
  spec_exec a tr1 a1 -> spec_exec a1 tr2 a2 -> spec_exec a (tr1 ++ tr2) a2.
Proof.
  induction 1 as [|a e a1 tr a' Hs _ IH]; intros H2; [done|].
  rewrite <- app_assoc. econstructor; [exact Hs|auto].
Qed.

(** The waiting updates of [k] take effect one after the other. *)
Lemma linearize k a g p :
  Forall (deferred k p) a -> NoDup (omap owner a) ->
  exists g' p', spec_exec (mkSpec g p) [] (mkSpec g' p') /\
    Forall (applied p') a /\
    (forall c, p' !! c <> p !! c -> exists x l, x ∈ a /\ upd x = Some (c, k, l)) /\
    g' !! k = last_upd k (g !! k) a /\
    (forall k', k' <> k -> g' !! k' = g !! k').
Proof.
  revert g p. induction a as [|x a IH]; intros g p Hd Hn.
  { exists g, p. split_and!; try done. constructor. }
  apply Forall_cons in Hd as [Hx Hd].
  assert (Hna : NoDup (omap owner a)).
  { simpl in Hn. destruct (owner x); [by apply NoDup_cons in Hn as [_ ?]|done]. }
  destruct (upd x) as [[[c k'] l]|] eqn:Hu.
  2:{ destruct (IH g p Hd Hna) as (g' & p' & He & Ha & Hp & Hk & Ho).
      exists g', p'. split_and!; try done.
      - constructor; [|done]. intros c k' l ?. congruence.
      - intros c Hc. destruct (Hp c Hc) as (y & l & Hy & ?). exists y, l. set_solver.
      - rewrite Hk. cbn. unfold last1. by rewrite Hu. }
  assert (Hox : owner x = Some c) by (destruct x; simplify_eq/=; done).
  simpl in Hn. rewrite Hox in Hn. apply NoDup_cons in Hn as [Hca _].
  assert (Hother : forall p0 p1, (forall c', c' <> c -> p1 !! c' = p0 !! c') ->
            Forall (deferred k p0) a -> Forall (deferred k p1) a).
  { intros p0 p1 Hpp. apply (Forall_frame _ _ p0 p1); [apply deferred_frame|].
    intros y c' Hy Hoy. apply Hpp. intros ->. apply Hca, list_elem_of_omap. eauto. }
  specialize (Hx _ _ _ Hu). destruct (decide (k' = k)) as [->|Hne].
  - destruct (IH (<[k := l]> g) (<[c := DW k l]> p)) as (g' & p' & He & Ha & Hp & Hk & Ho).
    { eapply Hother; [|exact Hd]. intros c' Hc'. by apply lookup_insert_ne. } { done. }
    assert (Hcp : p' !! c = Some (DW k l)).
    { destruct (decide (p' !! c = <[c := DW k l]> p !! c)) as [->|Hc]; [apply lookup_insert_eq|].
      destruct (Hp c Hc) as (y & l' & Hy & Hyu). exfalso. apply Hca, list_elem_of_omap.
      exists y. split; [done|]. destruct y; simplify_eq/=; done. }
    exists g', p'. split_and!.
    + apply (spec_cons _ None (mkSpec (<[k := l]> g) (<[c := DW k l]> p))); [by constructor|done].
    + constructor; [|done]. intros c' k1 l' Hu'. by simplify_eq.
    + intros c' Hc'. destruct (decide (c' = c)) as [->|Hne].
      * exists x, l. split; [set_solver|done].
      * rewrite <- (lookup_insert_ne p c c' (DW k l)) in Hc' by done.
        destruct (Hp c' Hc') as (y & l' & Hy & ?). exists y, l'. set_solver.
    + rewrite Hk, lookup_insert_eq. cbn. unfold last1. rewrite Hu. by rewrite decide_True.
    + intros k' Hk'. rewrite Ho by done. by apply lookup_insert_ne.
  - destruct (IH g p Hd Hna) as (g' & p' & He & Ha & Hp & Hk & Ho).
    exists g', p'. split_and!; try done.
    + constructor; [|done]. intros c' k1 l' Hu'. rewrite Hu in Hu'. simplify_eq.
      destruct (decide (p' !! c' = p !! c')) as [->|Hc]; [done|].
      destruct (Hp c' Hc) as (y & l1 & Hy & Hyu). exfalso. apply Hca, list_elem_of_omap.
      exists y. split; [done|]. destruct y; simplify_eq/=; done.
    + intros c' Hc'. destruct (Hp c' Hc') as (y & l' & Hy & ?). exists y, l'. set_solver.
    + rewrite Hk. cbn. unfold last1. rewrite Hu. by rewrite decide_False.
Qed.

(** The acknowledgement frees the slot: the waiting updates take effect. *)
Lemma slot_ack sk e f q i g p k l r :
  slot_inv sk e (Ack k l r :: f) q i g p -> NoDup (omap owner (f ++ q)) ->
  exists e0 g' p', e = Some e0 /\ e_rpc e0 = r /\
    spec_exec (mkSpec g p) [] (mkSpec g' p') /\
    slot_inv sk None f q i g' p' /\
    (forall c, p' !! c <> p !! c -> exists x k' l', x ∈ f ++ q /\ upd x = Some (c, k', l')) /\
    (forall k', slot k' <> sk -> g' !! k' = g !! k').
Proof.
  intros [Hr He] Hn. destruct e as [e|].
  2:{ destruct He as (Hc & _). simpl in Hc. apply Forall_cons in Hc as [Hc _]. done. }
  destruct He as (k0 & b & y & a & Hfq & Hy & Hb & Ha & Hfp & Hsk & Hok & Hab & Hda & Hgk & Hgo & Hl).
  destruct b as [|x0 b]; simpl in Hfq; injection Hfq as <- Hfq.
  2:{ apply Forall_cons in Hb as [Hb _]. done. }
  subst a.
  injection Hy as <- _ Hrpc.
  destruct (linearize k (f ++ q) g p Hda Hn) as (g' & p' & Hex & Hap & Hp & Hk & Ho).
  exists e, g', p'. split_and!; try done.
  - split.
    + intros q1 c k' q2 Hq. destruct (Hr _ _ _ _ Hq) as [Hk' Hd]. split; [done|].
      destruct (decide (p' !! c = p !! c)) as [->|Hc]; [done|].
      destruct (Hp c Hc) as (x & l' & Hx & Hu). exfalso.
      rewrite Forall_forall in Hda. rewrite (Hda x Hx _ _ _ Hu) in Hd.
      rewrite decide_True in Hd by done. done.
    + split_and!; try done. intros k' Hk'.
      destruct (decide (k' = k)) as [->|Hne].
      * by rewrite Hk, Hgk, Hl.
      * rewrite Ho by done. auto.
  - intros c Hc. destruct (Hp c Hc) as (x & l' & Hx & Hu). exists x, k, l'. done.
  - intros k' Hk'. apply Ho. by intros ->.
Qed.

(** ** The simulation *)

Lemma lanes_nodup n p1 p2 :
  NoDup (owners n) -> p1 <> p2 -> NoDup (omap owner (lane p1 n ++ lane p2 n)).
Proof.
  intros Hn Hne.
  assert (Hsub : forall c, c ∈ omap owner (lane p1 n ++ lane p2 n) -> c ∈ owners n).
  { intros c (x & Hx & Ho)%list_elem_of_omap. apply elem_of_app in Hx as [Hx|Hx];
      by eapply owner_in_lane. }
  induction n as [|[q x] n IH]; simpl; [constructor|].
  assert (Hsub' : forall c, c ∈ omap owner (lane p1 n ++ lane p2 n) -> c ∈ owners n).
  { intros c (y & Hy & Ho)%list_elem_of_omap. apply elem_of_app in Hy as [Hy|Hy];
      by eapply owner_in_lane. }
  assert (IHn : NoDup (owners n)).
  { simpl in Hn. destruct (owner x); [by apply NoDup_cons in Hn as [_ ?]|done]. }
  specialize (IH IHn Hsub'). rewrite omap_app in IH, Hsub'.
  assert (Hx : forall c, owner x = Some c -> c ∉ omap owner (lane p1 n) ++ omap owner (lane p2 n)).
  { intros c Ho Hin. apply Hsub' in Hin. simpl in Hn. rewrite Ho in Hn.
    by apply NoDup_cons in Hn as [? _]. }
  destruct (decide (q = p1)) as [->|H1], (decide (_ = p2)) as [->|H2]; try done;
    rewrite omap_app; simpl; destruct (owner x) as [c|]; try done.
  - constructor; [by apply Hx|done].
  - rewrite <- Permutation_middle. constructor; [by apply Hx|done].
Qed.

Lemma unique_packet n e1 e2 c :
  NoDup (owners n) -> e1 ∈ n -> e2 ∈ n -> owner e1.2 = Some c -> owner e2.2 = Some c -> e1 = e2.
Proof.
  intros Hn H1 H2 O1 O2. apply list_elem_of_split in H1 as (n1 & n2 & ->).
  destruct e1 as [q x]. simpl in O1. pose proof (tokens_rest _ _ _ _ _ Hn O1) as Hr.
  apply NoDup_cons in Hr as [Hc _].
  apply elem_of_app in H2 as [H2|[->|H2]%elem_of_cons]; [|done|];
    exfalso; apply Hc; rewrite owners_app, elem_of_app; [left|right];
    apply list_elem_of_omap; eauto.
Qed.

Ltac flds := cbn [slots index net co reg ops] in *.

(** A step of coroutine [c]: its packet [x] is replaced by [new]. *)
Lemma inv_token s i n o g p P x n1 n2 c new s' i' o' g' p' :
  inv (mkSys s i n o) (mkSpec g p) -> takes n P x n1 n2 -> owner x = Some c ->
  (owners new = [c] \/ owners new = []) ->
  (forall c', c' <> c -> o' !! c' = o !! c' /\ p' !! c' = p !! c') ->
  Forall (pk_ok o' p') new -> (o' !! c = None -> p' !! c = None) ->
  ((forall sk y c', y ∈ lane (FromIndex sk) (n1 ++ n2) ++ lane (ToIndex sk) (n1 ++ n2) ->
      owner y = Some c' -> c' <> c) ->
   forall sk, slot_inv sk (s' !! sk) (lane (FromIndex sk) ((n1 ++ n2) ++ new))
     (lane (ToIndex sk) ((n1 ++ n2) ++ new)) i' g' p') ->
  inv (mkSys s' i' (n1 ++ n2 ++ new) o') (mkSpec g' p').
Proof.
  intros [Hn Hp Hi Hs] [Hsplit _] Hx Hnew Hf Hpn Hidle Hslots. flds. subst n.
  destruct (tokens_replace n1 P x n2 new o p o' p' c) as [Hn' Hp']; try done.
  pose proof (tokens_rest _ _ _ _ _ Hn Hx) as Hr. apply NoDup_cons in Hr as [Hc _].
  split; flds; try done.
  - intros c' Hc'. destruct (decide (c' = c)) as [->|Hne]; [auto|].
    destruct (Hf c' Hne) as [Ho ->]. apply Hi. congruence.
  - rewrite app_assoc. apply Hslots. intros sk y c' Hy Hoy ->.
    apply Hc. apply elem_of_app in Hy as [Hy|Hy]; by eapply owner_in_lane.
Qed.

(** The packet taken is known to fit. *)
Lemma taken_ok s i n o g p P x n1 n2 :
  inv (mkSys s i n o) (mkSpec g p) -> takes n P x n1 n2 -> pk_ok o p (P, x).
Proof.
  intros [_ Hp _ _] [-> _]. flds.
  by apply Forall_app in Hp as [_ [? _]%Forall_cons].
Qed.

(** Slots the step does not touch. *)
Lemma slot_same s i n o g p P x n1 n2 sk :
  inv (mkSys s i n o) (mkSpec g p) -> takes n P x n1 n2 ->
  P <> FromIndex sk -> P <> ToIndex sk ->
  slot_inv sk (s !! sk) (lane (FromIndex sk) (n1 ++ n2)) (lane (ToIndex sk) (n1 ++ n2)) i g p.
Proof.
  intros [_ _ _ Hs] Ht Hf Hq. specialize (Hs sk). flds.
  by rewrite (lane_take_ne _ _ _ _ _ (FromIndex sk) Ht),
             (lane_take_ne _ _ _ _ _ (ToIndex sk) Ht) in Hs.
Qed.

Lemma lane_one p q x : lane p [(q, x)] = if decide (q = p) then [x] else [].
Proof. unfold lane. simpl. by case_decide. Qed.

Lemma lane_unordered p n :
  ordered p -> Forall (fun e => ~ ordered e.1) n -> lane p n = [].
Proof.
  intros Hp Hn. apply lane_none. eapply Forall_impl; [exact Hn|]. intros e He Hep. apply He. cbn in Hep. by rewrite Hep.
Qed.

(** Steps between unordered places that leave the register alone. *)
Lemma sim_local s i n o g p P x n1 n2 c new o' p' :
  inv (mkSys s i n o) (mkSpec g p) -> takes n P x n1 n2 -> owner x = Some c ->
  ~ ordered P -> Forall (fun e => ~ ordered e.1) new ->
  (owners new = [c] \/ owners new = []) ->
  (forall c', c' <> c -> o' !! c' = o !! c' /\ p' !! c' = p !! c') ->
  Forall (pk_ok o' p') new -> (o' !! c = None -> p' !! c = None) ->
  inv (mkSys s i (n1 ++ n2 ++ new) o') (mkSpec g p').
Proof.
  intros I Ht Hx HP Hu Hnew Hf Hpn Hidle.
  eapply inv_token; try done. intros Hfresh sk. rewrite !(lane_app _ (n1 ++ n2)).
  rewrite !(lane_unordered _ new), !app_nil_r by done.
  eapply slot_inv_frame; [eapply (slot_same s i n o g p); try done| | |]; try done.
  - by intros ->.
  - by intros ->.
  - intros y c' Hy Hoy. apply Hf. by eapply Hfresh.
Qed.

(** Steps that put a packet on the way to the index. *)
Lemma sim_queue s i n o g p x n1 n2 c k0 y rest s' g' p' :
  inv (mkSys s i n o) (mkSpec g p) -> takes n ToSwitch x n1 n2 -> owner x = Some c ->
  Forall (fun e => ~ ordered e.1) rest ->
  (owners ((ToIndex (slot k0), y) :: rest) = [c]) ->
  (forall c', c' <> c -> p' !! c' = p !! c') ->
  Forall (pk_ok o p') ((ToIndex (slot k0), y) :: rest) -> o !! c <> None ->
  (forall sk, sk <> slot k0 -> s' !! sk = s !! sk) ->
  (forall k, slot k <> slot k0 -> g' !! k = g !! k) ->
  (forall f q, slot_inv (slot k0) (s !! slot k0) f q i g p ->
     (forall z c', z ∈ f ++ q -> owner z = Some c' -> c' <> c) ->
     slot_inv (slot k0) (s' !! slot k0) f (q ++ [y]) i g' p') ->
  inv (mkSys s' i (n1 ++ n2 ++ (ToIndex (slot k0), y) :: rest) o) (mkSpec g' p').
Proof.
  intros I Ht Hx Hu Hnew Hf Hpn Hbusy Hs' Hg' Hslot.
  eapply inv_token; try done; [by left|auto|]. intros Hfresh sk.
  change ((ToIndex (slot k0), y) :: rest) with ([(ToIndex (slot k0), y)] ++ rest).
  rewrite !(lane_app _ (n1 ++ n2)), !(lane_app _ [(ToIndex (slot k0), y)]), !lane_one,
    !(lane_unordered _ rest), !app_nil_r by done.
  pose proof (slot_same s i n o g p _ _ _ _ sk I Ht) as Hold.
  specialize (Hold ltac:(done) ltac:(done)).
  destruct (decide (ToIndex (slot k0) = ToIndex sk)) as [E|E].
  - injection E as <-. apply Hslot; [done|]. intros z c'. apply Hfresh.
  - rewrite app_nil_r, Hs' by (intros ->; done).
    eapply slot_inv_frame; [exact Hold|done| |].
    + intros k Hk. apply Hg'. intros Hk'. apply E. by rewrite <- Hk', Hk.
    + intros z c' Hz Ho. apply Hf. by eapply Hfresh.
Qed.

(** A packet without owner is replaced by another one. *)
Lemma inv_background s i n o g p P x n1 n2 new s' i' :
  inv (mkSys s i n o) (mkSpec g p) -> takes n P x n1 n2 -> owner x = None ->
  owners new = [] -> Forall (pk_ok o p) new ->
  (forall sk, slot_inv sk (s' !! sk) (lane (FromIndex sk) ((n1 ++ n2) ++ new))
     (lane (ToIndex sk) ((n1 ++ n2) ++ new)) i' g p) ->
  inv (mkSys s' i' (n1 ++ n2 ++ new) o) (mkSpec g p).
Proof.
  intros [Hn Hp Hi Hs] [-> _] Hx Hnew Hpn Hslots. flds.
  destruct (tokens_bg n1 P x n2 new o p) as [Hn' Hp']; try done.
  split; flds; try done. by rewrite app_assoc.
Qed.

(** The index node takes the oldest request of slot [sk]. *)
Lemma slots_index s i n o g p sk x n1 n2 y i' :
  inv (mkSys s i n o) (mkSpec g p) -> takes n (ToIndex sk) x n1 n2 -> same_kind x y ->
  (forall k, slot k = sk -> i' !! k = replay1 k (i !! k) x) ->
  (forall k, slot k <> sk -> i' !! k = i !! k) ->
  forall sk', slot_inv sk' (s !! sk') (lane (FromIndex sk') ((n1 ++ n2) ++ [(FromIndex sk, y)]))
     (lane (ToIndex sk') ((n1 ++ n2) ++ [(FromIndex sk, y)])) i' g p.
Proof.
  intros [_ _ _ Hs] Ht Hsame Hi Hi' sk'. specialize (Hs sk'). flds.
  rewrite !(lane_app _ (n1 ++ n2)), !lane_one.
  rewrite (decide_False (P := FromIndex sk = ToIndex sk')), app_nil_r by done.
  rewrite (lane_take_ne _ _ _ _ _ (FromIndex sk') Ht) in Hs by done.
  destruct (decide (FromIndex sk = FromIndex sk')) as [E|E].
  - injection E as <-. rewrite (lane_take _ _ _ _ _ Ht I) in Hs.
    by eapply slot_index_step.
  - rewrite app_nil_r.
    rewrite (lane_take_ne _ _ _ _ _ (ToIndex sk') Ht) in Hs by (intros ?; simplify_eq).
    eapply slot_inv_frame; [exact Hs| |done|done].
    intros k Hk. apply Hi'. intros ?. subst. done.
Qed.

(** The switch passes the oldest reply of slot [sk] on to its client. *)
Lemma sim_reply s i n o g p sk x n1 n2 c :
  inv (mkSys s i n o) (mkSpec g p) -> takes n (FromIndex sk) x n1 n2 -> owner x = Some c ->
  (applied p x -> pk_ok o p (ToClient, x)) ->
  inv (mkSys s i (n1 ++ n2 ++ [(ToClient, x)]) o) (mkSpec g p).
Proof.
  intros I Ht Hx Hpk. pose proof I as [Hn Hp Hi Hs]. flds.
  assert (Hbg : bg x = None) by (destruct x; simplify_eq/=; done).
  assert (Hpop : slot_inv sk (s !! sk) (lane (FromIndex sk) (n1 ++ n2)) (lane (ToIndex sk) (n1 ++ n2)) i g p
                 /\ applied p x).
  { specialize (Hs sk). rewrite (lane_take _ _ _ _ _ Ht Logic.I) in Hs.
    rewrite (lane_take_ne _ _ _ _ _ (ToIndex sk) Ht) in Hs by done. by apply slot_pop. }
  destruct Hpop as [Hpop Ha].
  eapply inv_token; try done.
  - left. simpl. by rewrite Hx.
  - constructor; [by apply Hpk|done].
  - apply Hi.
  - intros _ sk'. rewrite !(lane_app _ (n1 ++ n2)), !lane_one, !decide_False, !app_nil_r by done.
    destruct (decide (sk' = sk)) as [->|Hne]; [done|].
    eapply (slot_same s i n o g p); try done; intros ?; simplify_eq.
Qed.

Lemma busy_owner o p e c : pk_ok o p e -> owner e.2 = Some c -> o !! c <> None.
Proof.
  destruct e as [[] []]; simpl; try done; intros Hk ?; simplify_eq; intros E;
    rewrite E in Hk; naive_solver.
Qed.

Lemma sim_invoke s i n o g p c w st x :
  inv (mkSys s i n o) (mkSpec g p) -> o !! c = None -> owner x = Some c ->
  pk_ok (<[c := w]> o) (<[c := st]> p) (ToSwitch, x) ->
  inv (mkSys s i (n ++ [(ToSwitch, x)]) (<[c := w]> o)) (mkSpec g (<[c := st]> p)).
Proof.
  intros [Hn Hp Hi Hs] Hc Hx Hok. flds.
  assert (Hnew : c ∉ owners n).
  { intros (e & He & Ho)%list_elem_of_omap. rewrite Forall_forall in Hp.
    by eapply busy_owner; [apply (Hp e He)|exact Ho|]. }
  assert (Hf : forall c', c' ∈ owners n ->
             <[c := w]> o !! c' = o !! c' /\ <[c := st]> p !! c' = p !! c').
  { intros c' Hc'. rewrite !lookup_insert_ne by (intros ->; done). done. }
  split; flds.
  - rewrite owners_app. simpl. rewrite Hx. apply NoDup_app.
    split_and!; [done|set_solver|apply NoDup_singleton].
  - apply Forall_app. split; [|by constructor]. by eapply packets_frame.
  - intros c' Hc'. destruct (decide (c' = c)) as [->|Hne].
    + by rewrite lookup_insert_eq in Hc'.
    + rewrite lookup_insert_ne in Hc' by done. rewrite lookup_insert_ne by done. auto.
  - intros sk. rewrite !lane_app, !lane_one, !decide_False, !app_nil_r by done.
    eapply slot_inv_frame; [apply Hs|done|done|].
    intros y c' Hy Ho. apply Hf. apply elem_of_app in Hy as [Hy|Hy]; by eapply owner_in_lane.
Qed.

(** The acknowledgement: the slot is freed and the waiting updates linearize. *)
Lemma sim_ack s i n o g p sk k l r n1 n2 :
  inv (mkSys s i n o) (mkSpec g p) -> takes n (FromIndex sk) (Ack k l r) n1 n2 ->
  exists g' p', spec_exec (mkSpec g p) [] (mkSpec g' p') /\
    inv (mkSys (match s !! sk with
                | Some e => if e_rpc e =? r then delete sk s else s
                | None => s
                end) i (n1 ++ n2) o) (mkSpec g' p').
Proof.
  intros I Ht. pose proof I as [Hn Hp Hi Hs]. flds.
  assert (Hn' : NoDup (owners (n1 ++ n2)) /\ Forall (pk_ok o p) (n1 ++ n2)).
  { pose proof Ht as [-> _]. destruct (tokens_bg n1 (FromIndex sk) (Ack k l r) n2 [] o p);
      try done. by rewrite app_nil_r in *. }
  destruct Hn' as [Hn' Hp']. pose proof (Hs sk) as Hsk.
  rewrite (lane_take _ _ _ _ _ Ht Logic.I) in Hsk.
  rewrite (lane_take_ne _ _ _ _ _ (ToIndex sk) Ht) in Hsk by done.
  destruct (slot_ack _ _ _ _ _ _ _ _ _ _ Hsk) as (e & g' & p' & He & Hr & Hex & Hsl & Hpc & Hg).
  { by apply lanes_nodup. }
  exists g', p'. split; [done|]. rewrite He, Hr, Z.eqb_refl.
  (* the operations that changed own an update of this slot's traffic *)
  assert (Hch : forall c, p' !! c <> p !! c ->
            exists q x k' l', (q, x) ∈ n1 ++ n2 /\ (q = FromIndex sk \/ q = ToIndex sk) /\
              owner x = Some c /\ upd x = Some (c, k', l')).
  { intros c Hc. destruct (Hpc c Hc) as (x & k' & l' & Hx & Hu).
    assert (Ho : owner x = Some c) by (destruct x; simplify_eq/=; done).
    apply elem_of_app in Hx as [Hx|Hx]; apply elem_of_lane in Hx; eauto 10. }
  split; flds; [done| | |].
  - apply Forall_forall. intros [q x] Hin. rewrite Forall_forall in Hp'.
    specialize (Hp' _ Hin). destruct (owner x) as [c|] eqn:Ho.
    2:{ eapply pk_ok_frame; [|exact Hp']. cbn. congruence. }
    destruct (decide (p' !! c = p !! c)) as [E|E].
    { eapply pk_ok_frame; [|exact Hp']. cbn. intros c' ?. by simplify_eq. }
    destruct (Hch c E) as (q' & x' & k' & l' & Hin' & Hq & Ho' & Hu).
    pose proof (unique_packet _ _ _ _ Hn' Hin Hin' Ho Ho') as Heq. simplify_eq.
    destruct Hq as [-> | ->], x'; simplify_eq/=; done.
  - intros c Hc. destruct (decide (p' !! c = p !! c)) as [->|E]; [auto|].
    destruct (Hch c E) as (q & x & k' & l' & Hin & _ & Ho & _).
    rewrite Forall_forall in Hp'. by destruct (busy_owner _ _ _ _ (Hp' _ Hin) Ho).
  - intros sk'. destruct (decide (sk' = sk)) as [->|Hne].
    + by rewrite lookup_delete_eq.
    + rewrite lookup_delete_ne by done.
      pose proof (slot_same s i n o g p _ _ _ _ sk' I Ht) as Hold.
      specialize (Hold ltac:(congruence) ltac:(done)).
      eapply slot_inv_frame; [exact Hold|done| |].
      * intros k' Hk'. apply Hg. congruence.
      * intros x c Hx Ho. destruct (decide (p' !! c = p !! c)) as [|E]; [done|].
        destruct (Hch c E) as (q & x' & k' & l' & Hin & Hq & Ho' & _).
        exfalso. apply elem_of_app in Hx as [Hx|Hx]; apply elem_of_lane in Hx;
          pose proof (unique_packet _ _ _ _ Hn' Hx Hin Ho Ho'); simplify_eq; naive_solver.
Qed.

Lemma unordered_one (q : place) (x : pkt) :
  ~ ordered q -> Forall (fun e : place * pkt => ~ ordered e.1) [(q, x)].
Proof. intros Hq. constructor; [exact Hq|constructor]. Qed.

Lemma packets_one o p e : pk_ok o p e -> Forall (pk_ok o p) [e].
Proof. intros Hok. constructor; [exact Hok|constructor]. Qed.

Lemma spec_tau a a' : spec_step a None a' -> spec_exec a [] a'.
Proof. intros Hs. exact (spec_cons a None a' [] a' Hs (spec_nil a')). Qed.

Lemma spec_visible a e a' : spec_step a (Some e) a' -> spec_exec a [e] a'.
Proof. intros Hs. exact (spec_cons a (Some e) a' [] a' Hs (spec_nil a')). Qed.

Lemma frame_id (o : gmap C wait) (p : gmap C opstate) c :
  forall c', c' <> c -> o !! c' = o !! c' /\ p !! c' = p !! c'.
Proof. done. Qed.

Lemma frame_insert_p (o : gmap C wait) (p : gmap C opstate) c st :
  forall c', c' <> c -> o !! c' = o !! c' /\ <[c := st]> p !! c' = p !! c'.
Proof. intros c' Hne. by rewrite lookup_insert_ne. Qed.

Lemma frame_delete (o : gmap C wait) (p : gmap C opstate) c :
  forall c', c' <> c -> delete c o !! c' = o !! c' /\ delete c p !! c' = p !! c'.
Proof. intros c' Hne. by rewrite !lookup_delete_ne. Qed.

(** A reply reaches its client and the operation returns. *)
Lemma sim_return s i n o g p x n1 n2 c :
  inv (mkSys s i n o) (mkSpec g p) -> takes n ToClient x n1 n2 -> owner x = Some c ->
  inv (mkSys s i (n1 ++ n2) (delete c o)) (mkSpec g (delete c p)).
Proof.
  intros I Ht Hx. rewrite <- (app_nil_r n2). eapply (sim_local _ _ _ _ _ p); try done.
  - simpl. auto.
  - by right.
  - apply frame_delete.
  - intros _. apply lookup_delete_eq.
Qed.

Lemma reg_of_entry s i n o g p k e :
  inv (mkSys s i n o) (mkSpec g p) -> key_ok k -> s !! slot k = Some e -> e_fp e = fp k ->
  g !! k = Some (e_log e).
Proof.
  intros [_ _ _ Hs] Hok He Hfp. specialize (Hs (slot k)). flds. rewrite He in Hs.
  destruct Hs as [_ (k0 & b & x & a & _ & _ & _ & _ & Hfp0 & Hsk & Hok0 & _ & _ & Hg & _)].
  assert (k0 = k) as -> by (apply key_inj; congruence). done.
Qed.

Lemma step_simulated s ev s' a :
  inv s a -> step s ev s' -> exists a', spec_exec a (option_list ev) a' /\ inv s' a'.
Proof.
  intros I Hstep. destruct a as [g p].
  destruct Hstep as
    [s i n o c k Hc Hk|s i n o c k Hc Hk|s i n n1 n2 o c k Ht|s i n n1 n2 o c k l r Ht He
    |s i n n1 n2 o c k l r e Ht He|s i n n1 n2 o c k l Ht|s i n n1 n2 o c k e Ht He Hfp
    |s i n n1 n2 o c k Ht Hmiss|s i n n1 n2 o sk c k l Ht|s i n n1 n2 o sk c k v Ht
    |s i n n1 n2 o sk k l r Ht|s i n n1 n2 o c k l r Ht|s i n n1 n2 o sk c k l Ht
    |s i n n1 n2 o sk k l r Ht|s i n n1 n2 o sk c k Ht|s i n n1 n2 o c k l Ht Hc
    |s i n n1 n2 o c k l r Ht Hc|s i n n1 n2 o c k l Ht Hc|s i n n1 n2 o c k v Ht Hc];
    try (pose proof (taken_ok _ _ _ _ _ _ _ _ _ _ I Ht) as Hok; cbn in Hok).
  - (* invoke a read *)
    exists (mkSpec g (<[c := PR k]> p)). split.
    + apply spec_visible. constructor. by apply I.
    + apply sim_invoke; try done. cbn. by rewrite !lookup_insert_eq.
  - exists (mkSpec g (<[c := PW k]> p)). split.
    + apply spec_visible. constructor. by apply I.
    + apply sim_invoke; try done. cbn. by rewrite !lookup_insert_eq.
  - exists (mkSpec g p). split; [constructor|].
    eapply (sim_local _ _ _ _ _ p); try done; [simpl; tauto|apply unordered_one; simpl; tauto
      |by left|apply packets_one, Hok|apply I].
  - (* claim the slot *)
    destruct Hok as (Ho & Hp & Hk).
    exists (mkSpec (<[k := l]> g) (<[c := DW k l]> p)). split.
    { apply spec_tau. by constructor. }
    eapply (sim_queue s i n o g p); try done.
    + apply unordered_one. simpl. tauto.
    + intros c' Hne. by rewrite lookup_insert_ne.
    + constructor; [done|]. apply packets_one. cbn. by rewrite lookup_insert_eq.
    + congruence.
    + intros sk Hne. by rewrite lookup_insert_ne.
    + intros k' Hne. apply lookup_insert_ne. by intros ->.
    + intros f q Hsl Hfresh. rewrite lookup_insert_eq. rewrite He in Hsl. by apply slot_claim.
  - exists (mkSpec g p). split; [constructor|].
    eapply (sim_local _ _ _ _ _ p); try done; [simpl; tauto|apply unordered_one; simpl; tauto
      |by left|apply packets_one, Hok|apply I].
  - (* queue an update *)
    destruct Hok as (Ho & Hp & Hk).
    assert (Hcase : (exists e, s !! slot k = Some e /\ e_fp e = fp k) \/
              ~ (exists e, s !! slot k = Some e /\ e_fp e = fp k)).
    { destruct (s !! slot k) as [e|]; [|right; naive_solver].
      destruct (decide (e_fp e = fp k)); [left|right]; naive_solver. }
    destruct Hcase as [(e & He & Hfp)|Hno].
    + exists (mkSpec g p). split; [constructor|].
      eapply (sim_queue s i n o g p); try done; [by apply packets_one|congruence|].
      intros f q Hsl Hfresh. rewrite He in *. by apply slot_push_deferred.
    + exists (mkSpec (<[k := l]> g) (<[c := DW k l]> p)). split.
      { apply spec_tau. by constructor. }
      eapply (sim_queue s i n o g p); try done.
      * intros c' Hne. by rewrite lookup_insert_ne.
      * by apply packets_one.
      * congruence.
      * intros k' Hne. apply lookup_insert_ne. by intros ->.
      * intros f q Hsl Hfresh. apply slot_push_update; try done.
        intros e' He' Hfp. apply Hno. eauto.
  - (* a read hits *)
    destruct Hok as (Ho & Hp & Hk). pose proof (reg_of_entry _ _ _ _ _ _ _ _ I Hk He Hfp) as Hg.
    exists (mkSpec g (<[c := DR k (g !! k)]> p)). split.
    { apply spec_tau. by constructor. }
    eapply (sim_local _ _ _ _ _ p); try done; [simpl; tauto|apply unordered_one; simpl; tauto
      |by left|apply frame_insert_p| |].
    + apply packets_one. cbn. by rewrite lookup_insert_eq, Hg.
    + congruence.
  - (* a read misses *)
    destruct Hok as (Ho & Hp & Hk).
    exists (mkSpec g (<[c := DR k (g !! k)]> p)). split.
    { apply spec_tau. by constructor. }
    eapply (sim_queue s i n o g p); try done.
    + intros c' Hne. by rewrite lookup_insert_ne.
    + by apply packets_one.
    + congruence.
    + intros f q Hsl Hfresh. by apply slot_push_read.
  - exists (mkSpec g p). split; [constructor|]. eapply sim_reply; try done.
    intros Ha. cbn. split; [apply Hok|]. by apply Ha.
  - exists (mkSpec g p). split; [constructor|]. by eapply sim_reply.
  - destruct (sim_ack _ _ _ _ _ _ _ _ _ _ _ _ I Ht) as (g' & p' & Hex & I').
    by exists (mkSpec g' p').
  - exists (mkSpec g p). split; [constructor|].
    eapply (sim_local _ _ _ _ _ p); try done; [simpl; tauto|apply unordered_one; simpl; tauto
      |by left|apply packets_one, Hok|apply I].
  - (* the index applies an update *)
    exists (mkSpec g p). split; [constructor|].
    eapply (inv_token s i n o g p); try done; [by left|apply packets_one, Hok|apply I|].
    intros _. eapply slots_index; try done.
    + intros k' Hk'. unfold replay1. destruct (decide (k = k')) as [->|Hne].
      * apply lookup_insert_eq.
      * by apply lookup_insert_ne.
    + intros k' Hk'. apply lookup_insert_ne. intros ->. apply Hk', Hok.
  - exists (mkSpec g p). split; [constructor|].
    eapply (inv_background s i n o g p); try done; [apply packets_one, Hok|].
    eapply slots_index; try done.
    + intros k' Hk'. unfold replay1. destruct (decide (k = k')) as [->|Hne].
      * apply lookup_insert_eq.
      * by apply lookup_insert_ne.
    + intros k' Hk'. apply lookup_insert_ne. by intros ->.
  - (* the index answers a read *)
    exists (mkSpec g p). split; [constructor|].
    assert (Hr : p !! c = Some (DR k (i !! k))).
    { pose proof (in_slots _ _ I sk) as Hsl. flds.
      rewrite (lane_take _ _ _ _ _ Ht Logic.I) in Hsl.
      by destruct (si_reads _ _ _ _ _ _ _ Hsl [] c k _ eq_refl) as [_ ?]. }
    eapply (inv_token s i n o g p); try done; [by left| |apply I|].
    + apply packets_one. cbn. split; [apply Hok|done].
    + intros _. eapply slots_index; try done.
  - exists (mkSpec g (delete c p)). split; [|by eapply sim_return].
    apply spec_visible. apply (a_ret_write _ _ _ k), Hok.
  - (* the slot was busy: the client updates the index itself *)
    exists (mkSpec g p). split; [constructor|].
    eapply (sim_local _ _ _ _ _ p); try done; [simpl; tauto|apply unordered_one; simpl; tauto
      |by left| | |].
    + intros c' Hne. by rewrite lookup_insert_ne.
    + apply packets_one. cbn. rewrite lookup_insert_eq. split; [done|apply Hok].
    + rewrite lookup_insert_eq. done.
  - exists (mkSpec g (delete c p)). split; [|by eapply sim_return].
    apply spec_visible. apply (a_ret_write _ _ _ k), Hok.
  - exists (mkSpec g (delete c p)). split; [|by eapply sim_return].
    destruct Hok as [Ho Hp]. apply spec_visible.
    by apply (a_ret_read _ _ _ k).
Qed.

(** A coroutine that waits has a packet under way. *)
Definition co_owned (s : sys) : Prop := forall c, is_Some (co s !! c) -> c ∈ owners (net s).

Lemma owned_kept n p x n1 n2 new c : takes n p x n1 n2 -> (owner x = Some c -> c ∈ owners new) ->
  c ∈ owners n -> c ∈ owners (n1 ++ n2 ++ new).
Proof.
  intros [-> _] Hx. rewrite !owners_app. cbn. rewrite !elem_of_app. destruct (owner x) as [c'|]; [|tauto].
  rewrite elem_of_cons. intros [?|[->|?]]; auto.
Qed.

Lemma owned_returned n p x n1 n2 (o : gmap C wait) c : takes n p x n1 n2 -> owner x = Some c ->
  (forall c', is_Some (o !! c') -> c' ∈ owners n) -> forall c', is_Some (delete c o !! c') -> c' ∈ owners (n1 ++ n2).
Proof.
  intros [-> _] Hx Ho c' Hc'. destruct (decide (c' = c)) as [->|Hne]; [rewrite lookup_delete_eq in Hc'; by destruct Hc'|].
  rewrite lookup_delete_ne in Hc' by done. specialize (Ho c' Hc'). revert Ho. rewrite !owners_app. cbn. rewrite Hx, !elem_of_app, elem_of_cons.
  intros [?|[->|?]]; auto. done.
Qed.

Lemma co_owned_step s e s' : co_owned s -> step s e s' -> co_owned s'.
Proof.
  unfold co_owned. intros Ho Hstep. destruct Hstep; cbn [net co] in *;
    try (by eapply owned_returned); intros c' Hc'; try (eapply owned_kept; [done| |by apply Ho]; cbn; set_solver).
  1,2: rewrite owners_app, elem_of_app; destruct (decide (c' = c)) as [->|Hne]; [right; cbn; set_solver|];
    rewrite lookup_insert_ne in Hc' by done; left; by apply Ho.
  - rewrite <- (app_nil_r n2). eapply owned_kept; [done|done|by apply Ho].
  - eapply owned_kept; [done|cbn; set_solver|]. destruct (decide (c' = c)) as [->|Hne]; [apply Ho; by eexists|].
    rewrite lookup_insert_ne in Hc' by done. by apply Ho.
Qed.

Lemma initial_inv i : inv (initial i) (mkSpec i ∅).
Proof.
  split; cbn; [constructor|constructor|done|]. intros sk. rewrite lookup_empty.
  split; [intros [] ? ? ? ?; discriminate|]. by repeat constructor.
Qed.

Lemma exec_simulated s tr s' a :
  inv s a -> exec s tr s' -> exists a', spec_exec a tr a' /\ inv s' a'.
Proof.
  intros I Hex. revert a I. induction Hex as [s|s e s1 tr s2 Hs _ IH]; intros a I.
  - exists a. split; [constructor|done].
  - destruct (step_simulated _ _ _ _ I Hs) as (a1 & H1 & I1).
    destruct (IH _ I1) as (a2 & H2 & I2). exists a2. split; [|done].
    by eapply spec_exec_app.
Qed.

(** The visibility protocol is linearizable: from an index holding any
    map, every sequence of invocations and returns that clients, switch, data
    node and index node can produce together is one of the atomic register
    initialised with that map, in which every operation takes effect at one
    instant between its invocation and its return.  In particular a read
    never misses a write that completed before it, whether the write became
    visible in the switch or in the index. *)
Theorem visibility_linearizable i tr s :
  exec (initial i) tr s -> exists a, spec_exec (mkSpec i ∅) tr a.
Proof.
  intros Hex. destruct (exec_simulated _ _ _ _ (initial_inv i) Hex) as (a & Ha & _). eauto.
Qed.
End protocol.
End Visibility.
