(* ===== verification/KvSystemModel.v ===== *)
(** * The key-value store as a whole: clients, switch, data node and index node

    [Module KvSystem] composes the modelled code: the coroutines of kv.cc
    ([KvClient]), the pipeline of the switch ([Switch]), and the request handler
    that data node and index node run ([KvServer.serve]).  A system step is one
    run of one of these functions on one packet; the packets are the RawKvMsg
    buffers themselves.  The theorem is a refinement: every trace of the system
    is a trace of the protocol of [Visibility], hence of the atomic register.
    A read returns, to the protocol, when its coroutine has the log id; the
    packets of get_value that follow are steps the protocol does not see.

    Assumptions on the network: no packet is lost or duplicated, a packet
    reaches the coroutine its header names, and the packets of one slot keep
    their order between the switch and the index node (they share one queue
    pair and one index thread when the number of index threads divides 2^16;
    see KvClient.index_route_consistent). *)

From S2P Require Import Prelude KvMessageModel KvServerModel KvClientModel SwitchModel VisibilityModel.
Import KvMessage.

Module KvSystem.

(** A coroutine: server, thread, coroutine number. *)
Definition cid : Type := Z * Z * Z.
Definition cid_of (m : RawKvMsg) : cid :=
  let h := rpc_header m in (src_s_id h, src_t_id h, src_c_id h).

Section system.
Context {I : Type} `{IndexLaws I}.
(** The flags, the value every client writes, and the keys in use. *)
Context (f : flags) (val : list Z) (key_ok : Z -> Prop).
(** What is known of log ids and of the threads of the data node. *)
Context (ok_log : Z -> Prop) (ok_node : KvServer.node I -> Prop).
Hypothesis visible : FLAGS_visibility f = true.
(** The value buffer holds a value. *)
Hypothesis val_size : 0 <= FLAGS_kv_size_b f <= zlen val.
Hypothesis keys_64 : forall k, key_ok k -> in_width 64 k.
(** Keys that share a slot differ in their fingerprint; see key_identity. *)
Hypothesis keys_distinct : forall k1 k2, key_ok k1 -> key_ok k2 ->
  get_switch_key k1 = get_switch_key k2 -> get_fingerprint k1 = get_fingerprint k2 -> k1 = k2.

Definition client_of (c : cid) : KvClient.client :=
  let '(s, t, _) := c in KvClient.mkClient f s t (KvClient.client_bitmap s) val.

Definition is_client (s : Z) : Prop := s = 2 \/ s = 3 \/ s = 4.

(** The packets of get_value, which nothing orders relative to others, are kept apart. *)
Record ksys := mkK {
  ksw : Switch.state;
  kdata : Z -> KvServer.node I;                 (* data node, by thread *)
  kindex : KvServer.node I;
  knet : list (Visibility.place * RawKvMsg);
  kvals : list (Visibility.place * RawKvMsg);   (* those of get_value *)
  kco : gmap cid (KvClient.KvCtx * KvClient.phase)
}.

Definition data_thread (tid : Z) : Prop := 0 <= tid < FLAGS_dn_thread f.

Inductive kevent :=
  | KInvR (c : cid) (k : Z) | KInvW (c : cid) (k : Z)
  | KRetR (c : cid) (v : Z) | KRetW (c : cid) (l : Z).

(** Where a packet that leaves on a port arrives. *)
Definition arrives (m : RawKvMsg) (port : Z) : list (Visibility.place * RawKvMsg) :=
  if port =? 128 then [(Visibility.ToData, m)]
  else if port =? 188 then [(Visibility.ToIndex (switch_key m), m)]
  else if bool_decide (Some port = port_id <$> zget (server_config f) (src_s_id (rpc_header m)))
  then [(Visibility.ToClient, m)] else [].

Definition deliver (v : Switch.verdict) : list (Visibility.place * RawKvMsg) :=
  mjoin (arrives (Switch.packet v) <$> Switch.egress_ports v).

Definition takes_msg (n : list (Visibility.place * RawKvMsg)) (p : Visibility.place)
    (m : RawKvMsg) (n1 n2 : list (Visibility.place * RawKvMsg)) : Prop :=
  n = n1 ++ (p, m) :: n2 /\ (Visibility.ordered p -> Forall (fun e => e.1 <> p) n1).

Definition switch_bound (p : Visibility.place) : Prop :=
  match p with Visibility.ToSwitch | Visibility.FromIndex _ => True | _ => False end.

Definition read_or_write (t : TestType) (c : cid) (k : Z) : option kevent :=
  match t with
  | kEnumRI | kEnumR => Some (KInvR c k)
  | kEnumW => Some (KInvW c k)
  | _ => None
  end.

Definition return_event (c : cid) (x : KvClient.KvCtx) : kevent :=
  match KvClient.test x with
  | kEnumRI | kEnumR => KRetR c (KvClient.clog_id x)
  | _ => KRetW c (KvClient.clog_id x)
  end.

Inductive kstep : ksys -> option kevent -> ksys -> Prop :=
  (* client_worker starts kv_test on an idle coroutine *)
  | k_invoke w d ix n v o s t co x0 tt ev buf x p r :
      o !! (s, t, co) = None -> is_client s ->
      KvClient.coro x0 = co -> key_ok (KvClient.long_key x0) ->
      read_or_write tt (s, t, co) (KvClient.long_key x0) = Some ev ->
      KvClient.kv_test_start (client_of (s, t, co)) x0 tt buf = Done (KvClient.Waiting x p r) ->
      kstep (mkK w d ix n v o) (Some ev)
        (mkK w d ix (n ++ [(Visibility.ToSwitch, KvClient.rmsg r)]) v (<[(s, t, co) := (x, p)]> o))
  (* one packet through the switch *)
  | k_switch w d ix n v o p m n1 n2 w' vd :
      takes_msg n p m n1 n2 -> switch_bound p ->
      Switch.ingress w m = (w', vd) ->
      kstep (mkK w d ix n v o) None (mkK w' d ix (n1 ++ n2 ++ deliver vd) v o)
  | k_switch_value w d ix n v o m v1 v2 w' vd :
      takes_msg v Visibility.ToSwitch m v1 v2 ->
      Switch.ingress w m = (w', vd) ->
      kstep (mkK w d ix n v o) None (mkK w' d ix n (v1 ++ v2 ++ deliver vd) o)
  (* run_server_CPC on a data node thread and on an index node thread *)
  | k_data w d ix n v o m n1 n2 tid stale r d' size :
      takes_msg n Visibility.ToData m n1 n2 -> data_thread tid ->
      KvServer.serve f tid (d tid) m stale = Done (r, d', size) ->
      kstep (mkK w d ix n v o) None
        (mkK w (fun t => if t =? tid then d' else d t) ix
           (n1 ++ n2 ++ [(Visibility.ToSwitch, r)]) v o)
  | k_data_value w d ix n v o m v1 v2 tid stale r d' size :
      takes_msg v Visibility.ToData m v1 v2 -> data_thread tid ->
      KvServer.serve f tid (d tid) m stale = Done (r, d', size) ->
      kstep (mkK w d ix n v o) None
        (mkK w (fun t => if t =? tid then d' else d t) ix n
           (v1 ++ v2 ++ [(Visibility.ToSwitch, r)]) o)
  | k_index w d ix n v o sk m n1 n2 tid stale r ix' size :
      takes_msg n (Visibility.ToIndex sk) m n1 n2 ->
      KvServer.serve f tid ix m stale = Done (r, ix', size) ->
      kstep (mkK w d ix n v o) None
        (mkK w d ix' (n1 ++ n2 ++ [(Visibility.FromIndex sk, r)]) v o)
  (* run_client_CPC resumes the coroutine a reply names *)
  | k_resume w d ix n v o m n1 n2 x p buf x' p' r :
      takes_msg n Visibility.ToClient m n1 n2 -> o !! cid_of m = Some (x, p) ->
      KvClient.kv_test_resume (client_of (cid_of m)) x p m buf =
        Done (KvClient.Waiting x' p' r) -> p' <> KvClient.InGetValue ->
      kstep (mkK w d ix n v o) None
        (mkK w d ix (n1 ++ n2 ++ [(Visibility.ToSwitch, KvClient.rmsg r)]) v
           (<[cid_of m := (x', p')]> o))
  (* the log id is known, and its value is asked for *)
  | k_fetch w d ix n v o m n1 n2 x p buf x' r :
      takes_msg n Visibility.ToClient m n1 n2 -> o !! cid_of m = Some (x, p) ->
      KvClient.kv_test_resume (client_of (cid_of m)) x p m buf =
        Done (KvClient.Waiting x' KvClient.InGetValue r) ->
      kstep (mkK w d ix n v o) (Some (return_event (cid_of m) x'))
        (mkK w d ix (n1 ++ n2) (v ++ [(Visibility.ToSwitch, KvClient.rmsg r)])
           (<[cid_of m := (x', KvClient.InGetValue)]> o))
  | k_finish w d ix n v o m n1 n2 x p buf x' reply :
      takes_msg n Visibility.ToClient m n1 n2 -> o !! cid_of m = Some (x, p) ->
      KvClient.kv_test_resume (client_of (cid_of m)) x p m buf =
        Done (KvClient.Finished x' reply) ->
      kstep (mkK w d ix n v o) (Some (return_event (cid_of m) x'))
        (mkK w d ix (n1 ++ n2) v (delete (cid_of m) o))
  | k_finish_value w d ix n v o m v1 v2 x p buf x' reply :
      takes_msg v Visibility.ToClient m v1 v2 -> o !! cid_of m = Some (x, p) ->
      KvClient.kv_test_resume (client_of (cid_of m)) x p m buf =
        Done (KvClient.Finished x' reply) ->
      kstep (mkK w d ix n v o) None (mkK w d ix n (v1 ++ v2) (delete (cid_of m) o)).

Inductive kexec : ksys -> list kevent -> ksys -> Prop :=
  | kexec_nil s : kexec s [] s
  | kexec_cons s e s1 tr s2 :
      kstep s e s1 -> kexec s1 tr s2 -> kexec s (option_list e ++ tr) s2.

Definition kinitial (d : Z -> KvServer.node I) (ix : KvServer.node I) : ksys :=
  mkK Switch.init d ix [] [] ∅.

(** What a client sees of a protocol event: a missing key reads as
    0xFFFFFFFF. *)
Definition seen (e : Visibility.event (C := cid)) : kevent :=
  match e with
  | Visibility.InvR c k => KInvR c k
  | Visibility.InvW c k => KInvW c k
  | Visibility.RetR c v => KRetR c (default 4294967295 v)
  | Visibility.RetW c l => KRetW c l
  end.

(** ** How messages, coroutines and nodes represent the protocol's state *)

Notation pkt := (Visibility.pkt (C := cid)).
Notation place := Visibility.place.

Record base (c : cid) (k : Z) (m : RawKvMsg) : Prop := {
  b_cid : cid_of m = c;
  b_client : is_client c.1.1;
  b_slot : switch_key m = get_switch_key k;
  b_key : key_ok k
}.

Definition dst (m : RawKvMsg) : Z := dst_s_id (rpc_header m).

Inductive rel : place * RawKvMsg -> place * pkt -> Prop :=
  | r_append_req p c k m :
      base c k m -> p = Visibility.ToSwitch \/ p = Visibility.ToData ->
      msg_op m = kEnumAppendReq -> key m = get_fingerprint k -> flag m = 2 ->
      get_key m = k -> KvServer.log_size f <= zlen (payload m) -> dst m = 0 ->
      route_map m = KvClient.client_bitmap c.1.1 ->
      rel (p, m) (p, Visibility.AppendReq c k)
  | r_append_reply p c k l r m :
      base c k m -> p = Visibility.ToSwitch \/ p = Visibility.ToClient ->
      msg_op m = kEnumAppendReply -> key m = get_fingerprint k -> flag m = 2 ->
      get_key m = k -> dst m = c.1.1 -> log_id m = l -> ok_log l ->
      Switch.rpc_id m = r -> route_map m = KvClient.client_bitmap c.1.1 ->
      rel (p, m) (p, Visibility.AppendReply c k l r)
  | r_fast c k l m :
      base c k m -> msg_op m = kEnumMultiCastPkt -> key m = get_fingerprint k ->
      log_id m = l ->
      rel (Visibility.ToClient, m) (Visibility.ToClient, Visibility.FastDone c k l)
  | r_update_req p c k l m :
      base c k m -> p = Visibility.ToSwitch \/ p = Visibility.ToIndex (get_switch_key k) ->
      msg_op m = kEnumUpdateIndexReq -> key m = get_fingerprint k -> flag m = 0 ->
      get_key m = k -> dst m = 1 -> log_id m = l -> ok_log l ->
      rel (p, m) (p, Visibility.UpdateReq c k l)
  | r_update_reply p c k l m :
      base c k m -> p = Visibility.FromIndex (get_switch_key k) \/ p = Visibility.ToClient ->
      msg_op m = kEnumUpdateIndexReply -> key m = get_fingerprint k -> flag m = 0 ->
      dst m = c.1.1 ->
      rel (p, m) (p, Visibility.UpdateReply c k l)
  | r_read_req p c k m :
      base c k m -> p = Visibility.ToSwitch \/ p = Visibility.ToIndex (get_switch_key k) ->
      msg_op m = kEnumReadIndexReq -> key m = get_fingerprint k -> flag m = 2 ->
      get_key m = k -> dst m = 1 ->
      Some (toBigEndian16 (route_port m)) = port_id <$> zget (server_config f) c.1.1 ->
      rel (p, m) (p, Visibility.ReadReq c k)
  | r_read_hit c k l m :
      base c k m -> msg_op m = kEnumReadIndexReq -> key m = get_fingerprint k ->
      log_id m = l -> ok_log l ->
      rel (Visibility.ToClient, m) (Visibility.ToClient, Visibility.ReadReply c k (Some l))
  | r_read_reply p c k v m :
      base c k m -> p = Visibility.FromIndex (get_switch_key k) \/ p = Visibility.ToClient ->
      msg_op m = kEnumReadIndexReply -> flag m = 2 -> dst m = c.1.1 ->
      match v with
      | Some l => key m = get_fingerprint k /\ log_id m = l /\ ok_log l
      | None => key m = 4294967295
      end ->
      rel (p, m) (p, Visibility.ReadReply c k v)
  | r_multicast c k l r m :
      base c k m -> msg_op m = kEnumMultiCastPkt -> key m = get_fingerprint k ->
      flag m = 2 -> get_key m = k -> log_id m = l -> ok_log l -> Switch.rpc_id m = r ->
      rel (Visibility.ToIndex (get_switch_key k), m)
          (Visibility.ToIndex (get_switch_key k), Visibility.MultiCast k l r)
  | r_ack c k l r m :
      base c k m -> msg_op m = ReplySwitch -> key m = get_fingerprint k ->
      flag m = 2 -> Switch.rpc_id m = r ->
      rel (Visibility.FromIndex (get_switch_key k), m)
          (Visibility.FromIndex (get_switch_key k), Visibility.Ack k l r).

(** A suspended coroutine and what the protocol says it waits for. *)
Definition co_rel (c : cid) (kx : option (KvClient.KvCtx * KvClient.phase))
    (w : option Visibility.wait) : Prop :=
  match kx, w with
  | None, None => True
  | Some (x, KvClient.InGetValue), None =>
      KvClient.coro x = c.2 /\ is_client c.1.1 /\
      KvClient.ckey x = get_fingerprint (KvClient.long_key x)
  | Some (x, p), Some w =>
      KvClient.coro x = c.2 /\ is_client c.1.1 /\
      KvClient.ckey x = get_fingerprint (KvClient.long_key x) /\
      (KvClient.index_s_id x = 1 /\ KvClient.data_s_id x = 0) /\
      match p, w with
      | KvClient.InGetIndex, Visibility.Reading k =>
          (KvClient.test x = kEnumRI \/ KvClient.test x = kEnumR) /\ KvClient.long_key x = k
      | KvClient.InPutValue, Visibility.Putting k =>
          KvClient.test x = kEnumW /\ KvClient.long_key x = k
      | KvClient.InPutIndex, Visibility.Updating k l =>
          KvClient.test x = kEnumW /\ KvClient.long_key x = k /\ KvClient.clog_id x = l
      | _, _ => False
      end
  | _, _ => False
  end.

Definition slot_rel (e : option Visibility.entry) : option Switch.slot_entry :=
  (fun e => Switch.mkSlot (Visibility.e_fp e) (Visibility.e_rpc e) (Visibility.e_log e)) <$> e.

(** A packet of get_value and the coroutine it is for. *)
Record value_pkt (o : gmap cid (KvClient.KvCtx * KvClient.phase)) (e : place * RawKvMsg) : Prop := {
  vp_client : is_client (cid_of e.2).1.1;
  vp_key : key e.2 <> 0;
  vp_flag : flag e.2 = 2;
  vp_waits : exists x, o !! cid_of e.2 = Some (x, KvClient.InGetValue);
  vp_op : (e.1 = Visibility.ToSwitch \/ e.1 = Visibility.ToData) /\ msg_op e.2 = kEnumReadLog /\
          dst e.2 = 0 /\ ok_log (log_id e.2) \/
          (e.1 = Visibility.ToSwitch \/ e.1 = Visibility.ToClient) /\ msg_op e.2 = kEnumReadReply /\
          dst e.2 = (cid_of e.2).1.1 }.

Record values_ok (v : list (place * RawKvMsg)) (o : gmap cid (KvClient.KvCtx * KvClient.phase)) : Prop := {
  vo_each : Forall (value_pkt o) v;
  vo_once : NoDup (map (fun e => cid_of e.2) v) }.

Record ksim (s : ksys) (a : Visibility.sys (C := cid)) : Prop := {
  ks_net : Forall2 rel (knet s) (Visibility.net a);
  ks_co c : co_rel c (kco s !! c) (Visibility.co a !! c);
  ks_slots sk : Switch.slot (ksw s) sk = slot_rel (Visibility.slots a !! sk);
  ks_index k : mt_search (KvServer.index (kindex s)) k = Visibility.index a !! k;
  ks_entries sk e : Visibility.slots a !! sk = Some e -> ok_log (Visibility.e_log e);
  ks_range k v : Visibility.index a !! k = Some v -> ok_log v;
  ks_data tid : ok_node (kdata s tid);
  ks_vals : values_ok (kvals s) (kco s)
}.

(** ** The nodes *)
Hypothesis ok_log_32 : forall l, ok_log l -> in_width 32 l.
Hypothesis append_ok : forall tid n req stale r n' size,
  ok_node n -> data_thread tid -> msg_op req = kEnumAppendReq -> KvServer.log_size f <= zlen (payload req) ->
  KvServer.serve f tid n req stale = Done (r, n', size) -> ok_log (log_id r) /\ ok_node n'.

Lemma rpc_id_eq m m' :
  kv_g_id m = kv_g_id m' -> kv_c_id m = kv_c_id m' -> magic m = magic m' ->
  Switch.rpc_id m = Switch.rpc_id m'.
Proof. unfold Switch.rpc_id. by intros -> -> ->. Qed.

(** What every reply of [serve] copies from its request. *)
Record answers (req r : RawKvMsg) (o : Z) : Prop := {
  an_op : msg_op r = o;
  an_cid : cid_of r = cid_of req;
  an_dst : dst r = src_s_id (rpc_header req);
  an_slot : switch_key r = switch_key req;
  an_flag : flag r = flag req;
  an_rpc : Switch.rpc_id r = Switch.rpc_id req
}.

Lemma answer_append tid n req stale r n' size :
  KvServer.serve f tid n req stale = Done (r, n', size) ->
  msg_op req = kEnumAppendReq -> KvServer.log_size f <= zlen (payload req) ->
  answers req r kEnumAppendReply /\ key r = key req /\ get_key r = get_key req /\
  route_map r = route_map req.
Proof.
  intros Hs Hop Hp. unfold KvServer.serve, KvServer.server_process_msg, KvServer.process_op in Hs.
  rewrite Hop in Hs. cbn in Hs.
  apply obind_inv in Hs as ([r0 n0] & Hp0 & Hs).
  apply obind_inv in Hp0 as ([local kv'] & _ & Hp0).
  apply obind_inv in Hp0 as ([t tss'] & _ & Hp0). injection Hp0 as <- <-.
  apply obind_inv in Hs as (conf & _ & Hs). injection Hs as <- <- _.
  split_and!; try done.
  - unfold get_key. cbn. rewrite take_blit; [done|]. rewrite length_take.
    unfold KvServer.log_size, sizeof_KvKeyType, zlen in Hp. lia.
Qed.

Lemma answer_read_log tid n req stale r n' size :
  KvServer.serve f tid n req stale = Done (r, n', size) -> msg_op req = kEnumReadLog ->
  answers req r kEnumReadReply /\ key r = key req /\ n' = n.
Proof.
  intros Hs Hop. unfold KvServer.serve, KvServer.server_process_msg, KvServer.process_op in Hs.
  rewrite Hop in Hs. cbn in Hs.
  apply obind_inv in Hs as ([r0 n0] & Hp0 & Hs).
  apply obind_inv in Hp0 as (bs & _ & Hp0). injection Hp0 as <- <-.
  apply obind_inv in Hs as (conf & _ & Hs). injection Hs as <- <- _. done.
Qed.

Lemma answer_multicast tid n req stale r n' size :
  KvServer.serve f tid n req stale = Done (r, n', size) ->
  msg_op req = kEnumMultiCastPkt ->
  answers req r ReplySwitch /\ key r = key req /\
  KvServer.index n' = mt_insert (KvServer.index n) (get_key req) (log_id req).
Proof.
  intros Hs Hop. unfold KvServer.serve, KvServer.server_process_msg, KvServer.process_op in Hs.
  rewrite Hop in Hs. cbn in Hs.
  apply obind_inv in Hs as (conf & _ & Hs). injection Hs as <- <- _. done.
Qed.

Lemma answer_update tid n req stale r n' size :
  KvServer.serve f tid n req stale = Done (r, n', size) ->
  msg_op req = kEnumUpdateIndexReq ->
  answers req r kEnumUpdateIndexReply /\ key r = key req /\
  KvServer.index n' = mt_insert (KvServer.index n) (get_key req) (log_id req).
Proof.
  intros Hs Hop. unfold KvServer.serve, KvServer.server_process_msg, KvServer.process_op in Hs.
  rewrite Hop in Hs. cbn in Hs.
  apply obind_inv in Hs as (conf & _ & Hs). injection Hs as <- <- _. done.
Qed.

Lemma answer_read tid n req stale r n' size :
  KvServer.serve f tid n req stale = Done (r, n', size) ->
  msg_op req = kEnumReadIndexReq ->
  answers req r kEnumReadIndexReply /\ n' = n /\
  match mt_search (KvServer.index n) (get_key req) with
  | Some v => key r = key req /\ log_id r = wrap 32 v
  | None => key r = 4294967295
  end.
Proof.
  intros Hs Hop. unfold KvServer.serve, KvServer.server_process_msg, KvServer.process_op,
    KvServer.get_long in Hs.
  rewrite Hop in Hs. cbn in Hs.
  destruct (mt_search (KvServer.index n) (get_key req)); cbn in Hs;
    apply obind_inv in Hs as (conf & _ & Hs); injection Hs as <- <- _; done.
Qed.

(** ** Taking a related packet *)

Notation vstep := (Visibility.step get_switch_key get_fingerprint key_ok).
Notation vinv := (Visibility.inv get_switch_key get_fingerprint key_ok).

Lemma rel_place e e' : rel e e' -> e.1 = e'.1.
Proof. by destruct 1. Qed.

Lemma rel_takes n a p m n1 n2 :
  Forall2 rel n a -> takes_msg n p m n1 n2 ->
  exists x a1 a2, Visibility.takes a p x a1 a2 /\ rel (p, m) (p, x) /\
    Forall2 rel n1 a1 /\ Forall2 rel n2 a2.
Proof.
  intros Hn [-> Hf].
  apply Forall2_app_inv_l in Hn as (a1 & a' & H1 & H2 & ->).
  inversion H2 as [|? [p' x] ? a2 Hx Ha]; subst.
  pose proof (rel_place _ _ Hx) as Hp. cbn in Hp. subst p'.
  exists x, a1, a2. split_and!; try done. split; [done|]. intros Ho. specialize (Hf Ho).
  clear Hx Ha H2 Ho. induction H1 as [|e e' n1 a1 He _ IH]; [constructor|].
  inversion Hf; subst. constructor; [|by apply IH].
  by rewrite <- (rel_place _ _ He).
Qed.

Lemma rel_put n1 n2 a1 a2 new new' :
  Forall2 rel n1 a1 -> Forall2 rel n2 a2 -> Forall2 rel new new' ->
  Forall2 rel (n1 ++ n2 ++ new) (a1 ++ a2 ++ new').
Proof. intros. by repeat apply Forall2_app. Qed.

Lemma rel_one e e' : rel e e' -> Forall2 rel [e] [e'].
Proof. intros. by repeat constructor. Qed.

(** *** Packets of get_value *)
Lemma value_pkt_frame (o o' : gmap cid (KvClient.KvCtx * KvClient.phase)) e :
  o' !! cid_of e.2 = o !! cid_of e.2 -> value_pkt o e -> value_pkt o' e.
Proof. intros E []. split; try done. by rewrite E. Qed.

Lemma values_elsewhere v o c :
  values_ok v o -> (forall x, o !! c <> Some (x, KvClient.InGetValue)) -> Forall (fun e => cid_of e.2 <> c) v.
Proof.
  intros [Hv _] Hc. eapply Forall_impl; [exact Hv|]. intros e [_ _ _ (x & Hx) _] E. rewrite E in Hx. by destruct (Hc x).
Qed.

Lemma values_change (v : list (place * RawKvMsg)) (o o' : gmap cid (KvClient.KvCtx * KvClient.phase)) c :
  Forall (fun e => cid_of e.2 <> c) v -> (forall c', c' <> c -> o' !! c' = o !! c') -> values_ok v o -> values_ok v o'.
Proof.
  intros Hc Ho [Hv Hn]. split; [|done]. rewrite Forall_forall in *. intros e He.
  eapply value_pkt_frame; [|by apply Hv]. by apply Ho, Hc.
Qed.

Lemma values_insert v o c xp :
  values_ok v o -> (forall x, o !! c <> Some (x, KvClient.InGetValue)) -> values_ok v (<[c := xp]> o).
Proof.
  intros Hv Hc. eapply (values_change _ o _ c); [by eapply values_elsewhere| |done].
  intros c' Hne. by rewrite lookup_insert_ne.
Qed.

Lemma values_delete v o c :
  values_ok v o -> (forall x, o !! c <> Some (x, KvClient.InGetValue)) -> values_ok v (delete c o).
Proof.
  intros Hv Hc. eapply (values_change _ o _ c); [by eapply values_elsewhere| |done].
  intros c' Hne. by rewrite lookup_delete_ne.
Qed.

Lemma values_taken v1 e v2 o :
  values_ok (v1 ++ e :: v2) o ->
  value_pkt o e /\ values_ok (v1 ++ v2) o /\ Forall (fun e' => cid_of e'.2 <> cid_of e.2) (v1 ++ v2).
Proof.
  intros [Hv Hn]. apply Forall_app in Hv as [Hv1 [He Hv2]%Forall_cons]. split; [done|].
  rewrite map_app in Hn. cbn [map] in Hn. rewrite <- Permutation_middle in Hn. apply NoDup_cons in Hn as [Hni Hn].
  rewrite <- map_app in Hn, Hni. split; [split; [by apply Forall_app|done]|].
  rewrite Forall_forall. intros e' He' E. apply Hni. rewrite <- E.
  apply list_elem_of_In, (in_map (fun e0 : place * RawKvMsg => cid_of e0.2)). by apply list_elem_of_In.
Qed.

Lemma values_put v o e : values_ok v o -> value_pkt o e -> Forall (fun e' => cid_of e'.2 <> cid_of e.2) v -> values_ok (v ++ [e]) o.
Proof.
  intros [Hv Hn] He Hc. split; [by apply Forall_app; split; [|by apply Forall_singleton]|].
  rewrite map_app. apply NoDup_app. split; [done|]. split; [|apply NoDup_singleton].
  intros c (e' & E1 & He')%list_elem_of_In%in_map_iff E2%list_elem_of_singleton.
  rewrite Forall_forall in Hc. apply list_elem_of_In in He'. apply (Hc e' He'). cbn in *. congruence.
Qed.

Lemma values_replace v1 e v2 o e' :
  values_ok (v1 ++ e :: v2) o -> value_pkt o e' -> cid_of e'.2 = cid_of e.2 -> values_ok (v1 ++ v2 ++ [e']) o.
Proof.
  intros (_ & Hv & Hc)%values_taken He' E. rewrite app_assoc. apply values_put; [done..|]. by rewrite E.
Qed.

(** One protocol step that simulates a system step. *)
Definition simulated (a : Visibility.sys) (ev : option kevent) (s' : ksys) : Prop :=
  exists ev' a', vstep a ev' a' /\ ev = seen <$> ev' /\ ksim s' a'.

(** The packets of the protocol that fit a place. *)
Ltac rel_cases Hx :=
  inversion Hx as
    [? c k ? B Hp Hop Hkey Hflag Hgk Hlen Hdst Hmap
    |? c k l ? ? B Hp Hop Hkey Hflag Hgk Hdst Hlog Hl Hrpc Hmap
    |c k l ? B Hop Hkey Hlog
    |? c k l ? B Hp Hop Hkey Hflag Hgk Hdst Hlog Hl
    |? c k l ? B Hp Hop Hkey Hflag Hdst
    |? c k ? B Hp Hop Hkey Hflag Hgk Hdst Hport
    |c k l ? B Hop Hkey Hlog Hl
    |? c k v ? B Hp Hop Hflag Hdst Hval
    |c k l ? ? B Hop Hkey Hflag Hgk Hlog Hl Hrpc
    |c k l ? ? B Hop Hkey Hflag Hrpc];
  subst; try (destruct Hp; discriminate); destruct B as [Hcid Hclient Hslot Hok].

Lemma src_of m c : cid_of m = c -> src_s_id (rpc_header m) = c.1.1.
Proof. by intros <-. Qed.

(** *** The data node and the index node *)

Lemma refine_data w d ix n vl o a m n1 n2 tid stale r nd' size :
  ksim (mkK w d ix n vl o) a -> takes_msg n Visibility.ToData m n1 n2 -> data_thread tid ->
  KvServer.serve f tid (d tid) m stale = Done (r, nd', size) ->
  simulated a None (mkK w (fun t => if t =? tid then nd' else d t) ix (n1 ++ n2 ++ [(Visibility.ToSwitch, r)]) vl o).
Proof.
  intros [Hn Hc Hs Hi He Hr Hd Hv] Ht Htid Hserve. destruct a as [vs vi vn vo]. cbn in *.
  destruct (rel_takes _ _ _ _ _ _ Hn Ht) as (x & a1 & a2 & Ht' & Hx & H1 & H2).
  rel_cases Hx.
  destruct (answer_append _ _ _ _ _ _ _ Hserve Hop Hlen) as ([] & Hk' & Hg' & Hm').
  destruct (append_ok _ _ _ _ _ _ _ (Hd tid) Htid Hop Hlen Hserve) as [Hl' Hd'].
  eexists None, _. split; [|split; [done|]].
  - eapply Visibility.s_data with (l := log_id r) (r := Switch.rpc_id r), Ht'.
  - split; cbn; try done; [|intros t; by destruct (t =? tid)]. apply rel_put; [done..|]. apply rel_one.
    apply r_append_reply; try done; try congruence; [|by left|].
    + split; congruence.
    + rewrite an_dst0. by apply src_of.
Qed.

Lemma refine_index w d ix n vl o a sk m n1 n2 tid stale r ix' size :
  ksim (mkK w d ix n vl o) a -> takes_msg n (Visibility.ToIndex sk) m n1 n2 ->
  KvServer.serve f tid ix m stale = Done (r, ix', size) ->
  simulated a None (mkK w d ix' (n1 ++ n2 ++ [(Visibility.FromIndex sk, r)]) vl o).
Proof.
  intros [Hn Hc Hs Hi He Hr Hd Hv] Ht Hserve. destruct a as [vs vi vn vo]. cbn in *.
  destruct (rel_takes _ _ _ _ _ _ Hn Ht) as (x & a1 & a2 & Ht' & Hx & H1 & H2).
  assert (Hset : forall k l, ok_log l ->
            KvServer.index ix' = mt_insert (KvServer.index ix) k l ->
            (forall k', mt_search (KvServer.index ix') k' = <[k := l]> vi !! k') /\
            (forall k' v, <[k := l]> vi !! k' = Some v -> ok_log v)).
  { intros k l Hl ->. split; intros k'; [|intros v']; [rewrite search_insert|];
      destruct (decide (k' = k)) as [->|Hne];
      rewrite ?lookup_insert_eq, ?lookup_insert_ne by done; eauto; congruence. }
  rel_cases Hx; eexists None.
  - destruct Hp as [|Hp]; simplify_eq.
    destruct (answer_update _ _ _ _ _ _ _ Hserve Hop) as ([] & Hk' & Hix).
    destruct (Hset _ _ Hl Hix). eexists. split; [by eapply Visibility.s_ix_update|].
    split; [done|]. split; cbn; try done. apply rel_put; [done..|]. apply rel_one.
    apply r_update_reply; try congruence; [|by left|].
    + split; congruence.
    + rewrite an_dst0. by apply src_of.
  - destruct Hp as [|Hp]; simplify_eq.
    destruct (answer_read _ _ _ _ _ _ _ Hserve Hop) as ([] & -> & Hval).
    eexists. split; [by eapply Visibility.s_ix_read|].
    split; [done|]. split; cbn; try done. apply rel_put; [done..|]. apply rel_one.
    rewrite Hi in Hval. apply r_read_reply; try congruence; [|by left| |].
    + split; congruence.
    + rewrite an_dst0. by apply src_of.
    + destruct (vi !! get_key m) as [l|] eqn:Ev; [|done].
      destruct Hval as [Hk' ->]. rewrite wrap_small by (by apply ok_log_32, (Hr (get_key m))).
      split; [congruence|]. split; [done|]. by apply (Hr (get_key m)).
  - destruct (answer_multicast _ _ _ _ _ _ _ Hserve Hop) as ([] & Hk' & Hix).
    destruct (Hset _ _ Hl Hix). eexists. split; [by eapply Visibility.s_ix_multicast|].
    split; [done|]. split; cbn; try done. apply rel_put; [done..|]. apply rel_one.
    apply (r_ack c); try congruence. split; congruence.
Qed.

(** *** The switch *)

Lemma client_ports c0 :
  is_client c0 -> exists p, port_id <$> zget (server_config f) c0 = Some p /\
    Switch.udp_route c0 = Some p /\ p <> 128 /\ p <> 188 /\
    Switch.group_ports (KvClient.client_bitmap c0) = [188; p].
Proof. intros [->|[->| ->]]; eexists; (split; [reflexivity|]); split_and!; done. Qed.

Lemma deliver_one v m p :
  Switch.packet v = m -> Switch.egress_ports v = [p] -> deliver v = arrives m p.
Proof. intros Hm Hp. unfold deliver. rewrite Hp, Hm. apply app_nil_r. Qed.

Lemma arrives_client m p :
  port_id <$> zget (server_config f) (src_s_id (rpc_header m)) = Some p ->
  p <> 128 -> p <> 188 -> arrives m p = [(Visibility.ToClient, m)].
Proof.
  intros Hp H1 H2. unfold arrives. rewrite !(proj2 (Z.eqb_neq _ _)) by done.
  by rewrite bool_decide_eq_true_2.
Qed.

Lemma deliver_data v m :
  Switch.emits v Switch.Forward m -> dst m = 0 ->
  exists n, deliver v = [(Visibility.ToData, with_send_cnt m n)].
Proof.
  intros [Hp [n Hv]] Hd. exists n. unfold dst in Hd. rewrite Hd in Hp.
  by rewrite (deliver_one _ _ _ Hv Hp).
Qed.

Lemma deliver_index v m :
  Switch.emits v Switch.Forward m -> dst m = 1 ->
  exists n, deliver v = [(Visibility.ToIndex (switch_key m), with_send_cnt m n)].
Proof.
  intros [Hp [n Hv]] Hd. exists n. unfold dst in Hd. rewrite Hd in Hp.
  by rewrite (deliver_one _ _ _ Hv Hp).
Qed.

Lemma deliver_client v m c :
  Switch.emits v Switch.Forward m -> cid_of m = c -> is_client c.1.1 -> dst m = c.1.1 ->
  exists n, deliver v = [(Visibility.ToClient, with_send_cnt m n)].
Proof.
  intros [Hp [n Hv]] Hc Hcl Hd. exists n. unfold dst in Hd. rewrite Hd in Hp.
  destruct (client_ports _ Hcl) as (p & Hport & Hu & H1 & H2 & _).
  rewrite Hu in Hp. rewrite (deliver_one _ _ _ Hv Hp).
  apply arrives_client; try done. by rewrite <- Hport, <- Hc.
Qed.

Lemma deliver_answer v m l c :
  Switch.emits v (Switch.Answer l) m -> cid_of m = c -> is_client c.1.1 ->
  Some (toBigEndian16 (route_port m)) = port_id <$> zget (server_config f) c.1.1 ->
  exists n, deliver v = [(Visibility.ToClient, with_send_cnt (with_log_id m l) n)].
Proof.
  intros [Hp [n Hv]] Hc Hcl Hr. exists n.
  destruct (client_ports _ Hcl) as (p & Hport & _ & H1 & H2 & _).
  rewrite (deliver_one _ _ _ Hv Hp). rewrite Hport in Hr. injection Hr as ->.
  apply arrives_client; try done. by rewrite <- Hport, <- Hc.
Qed.

Lemma deliver_multicast v m c :
  Switch.emits v Switch.Multicast m -> cid_of m = c -> is_client c.1.1 ->
  route_map m = KvClient.client_bitmap c.1.1 ->
  exists n, let m' := with_send_cnt (with_op m kEnumMultiCastPkt) n in
    deliver v = [(Visibility.ToIndex (switch_key m), m'); (Visibility.ToClient, m')].
Proof.
  intros [Hp [n Hv]] Hc Hcl Hr. exists n. cbn zeta.
  destruct (client_ports _ Hcl) as (p & Hport & _ & H1 & H2 & Hg).
  unfold deliver. rewrite Hp, Hr, Hg, Hv.
  change (?g <$> [188; p]) with [g 188; g p]. rewrite (arrives_client _ p); [done| |done..].
  by rewrite <- Hport, <- Hc.
Qed.

Lemma slots_step w w' (vs vs' : gmap Z Visibility.entry) k0 :
  (forall sk, Switch.slot w sk = slot_rel (vs !! sk)) ->
  Switch.slots_eq_except k0 w w' ->
  Switch.slot w' k0 = slot_rel (vs' !! k0) ->
  (forall sk, sk <> k0 -> vs' !! sk = vs !! sk) ->
  forall sk, Switch.slot w' sk = slot_rel (vs' !! sk).
Proof.
  intros Hs Hne Hk Hv sk. destruct (decide (sk = k0)) as [->|E]; [done|].
  by rewrite Hne, Hv.
Qed.

Lemma fingerprint_nonzero k : get_fingerprint k <> 0.
Proof. pose proof (fingerprint_range k). lia. Qed.

Lemma rel_storable p m x : rel (p, m) (p, x) -> key m <> 0 /\ Switch.storable m.
Proof.
  intros Hx. split.
  - inversion Hx as [| | | | | | |? ? ? v ? ? ? ? ? ? Hval| |]; subst;
      [..|destruct v; [destruct Hval as [-> _]|by rewrite Hval]| |];
      try (match goal with Hk : key m = _ |- _ => rewrite Hk end);
      apply fingerprint_nonzero.
  - intros Ho. rel_cases Hx; rewrite ?Hop in Ho; try (by destruct Ho as [Ho|Ho]);
      match goal with Hl : ok_log _ |- _ => apply (ok_log_32 _ Hl) end.
Qed.

Ltac decided Hop Hflag H :=
  unfold Switch.decide_slot in H; rewrite Hop, Hflag in H; cbn in H.

(** A packet the switch only forwards: the network changes as [new] says. *)
Lemma forwarded_sim w w' d ix n vl o vs vi vn vo k0 n1 n2 a1 a2 new new' :
  ksim (mkK w d ix n vl o) (Visibility.mkSys vs vi vn vo) ->
  Switch.slots_eq_except k0 w w' -> Switch.slot w' k0 = Switch.slot w k0 ->
  Forall2 rel n1 a1 -> Forall2 rel n2 a2 -> Forall2 rel new new' ->
  ksim (mkK w' d ix (n1 ++ n2 ++ new) vl o)
    (Visibility.mkSys vs vi (a1 ++ a2 ++ new') vo).
Proof.
  intros [Hn Hc Hs Hi He Hr Hd Hv] Hne Hsl H1 H2 Hnew. cbn in *. split; cbn; try done.
  - by apply rel_put.
  - apply (slots_step w w' vs vs k0); try done. by rewrite Hsl.
Qed.

Lemma refine_switch w d ix n vl o a p m n1 n2 w' vd :
  ksim (mkK w d ix n vl o) a -> takes_msg n p m n1 n2 -> switch_bound p ->
  Switch.ingress w m = (w', vd) ->
  simulated a None (mkK w' d ix (n1 ++ n2 ++ deliver vd) vl o).
Proof.
  intros S Ht Hb Hin. destruct a as [vs vi vn vo].
  pose proof S as [Hn Hc Hs Hi Hent Hr Hdt Hv]. cbn in *.
  destruct (rel_takes _ _ _ _ _ _ Hn Ht) as (x & a1 & a2 & Ht' & Hx & H1 & H2).
  destruct (rel_storable _ _ _ Hx) as [Hk0 Hst].
  pose proof (Switch.ingress_spec w m Hk0 Hst) as Hsw. rewrite Hin in Hsw.
  destruct Hsw as (Hslot' & Hne & Hem). rewrite Hs in Hslot', Hem.
  rel_cases Hx; try done; exists None.
  - (* AppendReq *)
    destruct Hp as [->|Hp]; [|by subst].
    decided Hop Hflag Hslot'. decided Hop Hflag Hem.
    destruct (deliver_data _ _ Hem Hdst) as [cnt ->].
    eexists. split; [by eapply Visibility.s_sw_append_req|]. split; [done|].
    eapply forwarded_sim; try done; [by rewrite Hslot', Hs|].
    apply rel_one. apply r_append_req; try done. by right.
  - (* AppendReply: claim the slot, or tell the client it is busy *)
    destruct Hp as [->|Hp]; [|by subst].
    decided Hop Hflag Hslot'. decided Hop Hflag Hem. rewrite Hslot in *.
    destruct (vs !! get_switch_key (get_key m)) as [e|] eqn:He; cbn in *.
    + destruct (deliver_client _ _ _ Hem Hcid Hclient Hdst) as [cnt ->].
      eexists. split; [by eapply Visibility.s_sw_busy|]. split; [done|].
      eapply forwarded_sim; try done; [by rewrite Hslot', Hs, He|].
      apply rel_one. apply r_append_reply; try done. by right.
    + destruct (deliver_multicast _ _ _ Hem Hcid Hclient Hmap) as [cnt Hd].
      rewrite Hd. eexists. split; [by eapply Visibility.s_sw_claim|]. split; [done|].
      split; cbn; try done.
      * apply rel_put; [done..|]. rewrite Hslot. apply Forall2_cons_2.
        -- by apply (r_multicast c).
        -- apply rel_one. by apply r_fast.
      * eapply slots_step; try done.
        -- by rewrite Hslot', lookup_insert_eq, Hkey.
        -- intros sk E. by apply lookup_insert_ne.
      * intros sk e [[_ <-]|[_ E]]%lookup_insert_Some; [done|by eapply Hent].
  - (* UpdateReq *)
    destruct Hp as [->|Hp]; [|by subst].
    decided Hop Hflag Hslot'. decided Hop Hflag Hem.
    destruct (deliver_index _ _ Hem Hdst) as [cnt ->]. rewrite Hslot in *.
    eexists. split; [by eapply Visibility.s_sw_update|]. split; [done|].
    eapply forwarded_sim; try done; [by rewrite Hslot', Hs|].
    apply rel_one. apply r_update_req; try done. by right.
  - (* UpdateReply *)
    destruct Hp as [->|Hp]; [|by subst].
    decided Hop Hflag Hslot'. decided Hop Hflag Hem.
    destruct (deliver_client _ _ _ Hem Hcid Hclient Hdst) as [cnt ->].
    eexists. split; [by eapply Visibility.s_sw_update_reply|]. split; [done|].
    eapply forwarded_sim; try done; [by rewrite Hslot', Hs|].
    apply rel_one. apply r_update_reply; try done. by right.
  - (* ReadReq *)
    destruct Hp as [->|Hp]; [|by subst].
    decided Hop Hflag Hslot'. decided Hop Hflag Hem. rewrite Hslot in *.
    assert (Hcase : (exists e, vs !! get_switch_key (get_key m) = Some e /\
                Visibility.e_fp e = get_fingerprint (get_key m) /\
                Switch.emits vd (Switch.Answer (Visibility.e_log e)) m) \/
              ((forall e, vs !! get_switch_key (get_key m) = Some e ->
                Visibility.e_fp e <> get_fingerprint (get_key m)) /\
               Switch.emits vd Switch.Forward m)).
    { destruct (vs !! get_switch_key (get_key m)) as [e|]; cbn in Hem; [|by right].
      destruct (Z.eqb_spec (Visibility.e_fp e) (key m)) as [E|E].
      - left. exists e. split_and!; [done|congruence|exact Hem].
      - right. split; [|exact Hem]. intros e' ?. simplify_eq. congruence. }
    assert (Hsl : Switch.slot w' (get_switch_key (get_key m)) =
              Switch.slot w (get_switch_key (get_key m))).
    { rewrite Hslot', Hs. destruct (vs !! _); cbn; [|done]. by destruct (_ =? _). }
    destruct Hcase as [(e & He & Hfp & Hem')|[Hmiss Hem']].
    + destruct (deliver_answer _ _ _ _ Hem' Hcid Hclient Hport) as [cnt ->].
      eexists. split; [by eapply Visibility.s_sw_hit|]. split; [done|].
      eapply forwarded_sim; try done. apply rel_one. apply r_read_hit; try done. by eapply Hent.
    + destruct (deliver_index _ _ Hem' Hdst) as [cnt ->]. rewrite Hslot.
      eexists. split; [by eapply Visibility.s_sw_miss|]. split; [done|].
      eapply forwarded_sim; try done.
      apply rel_one. apply r_read_req; try done. by right.
  - (* ReadReply *)
    destruct Hp as [->|Hp]; [|by subst].
    decided Hop Hflag Hslot'. decided Hop Hflag Hem.
    destruct (deliver_client _ _ _ Hem Hcid Hclient Hdst) as [cnt ->].
    eexists. split; [by eapply Visibility.s_sw_read_reply|]. split; [done|].
    eapply forwarded_sim; try done; [by rewrite Hslot', Hs|].
    apply rel_one. apply r_read_reply; try done. by right.
  - (* ReplySwitch *)
    decided Hop Hflag Hslot'. decided Hop Hflag Hem. rewrite Hslot in *.
    unfold deliver. rewrite Hem. cbn. rewrite app_nil_r.
    eexists. split; [by eapply Visibility.s_sw_ack|]. split; [done|].
    split; cbn; try done; [by apply Forall2_app|eapply slots_step; try done|].
    + rewrite Hslot'. destruct (vs !! _) as [e|] eqn:He; cbn; [|by rewrite He].
      destruct (Visibility.e_rpc e =? Switch.rpc_id m); cbn; [by rewrite lookup_delete_eq|].
      by rewrite He.
    + intros sk E. destruct (vs !! get_switch_key _) as [e|]; [|done].
      destruct (_ =? _); [|done]. by apply lookup_delete_ne.
    + intros sk e E. destruct (vs !! get_switch_key _) as [e0|]; [destruct (_ =? _)|];
        [apply lookup_delete_Some in E as [_ E]|..]; by eapply Hent.
Qed.

(** *** The client coroutines *)

Lemma co_insert (o : gmap cid (KvClient.KvCtx * KvClient.phase))
    (vo : gmap cid Visibility.wait) c xp w0 :
  (forall c', co_rel c' (o !! c') (vo !! c')) -> co_rel c (Some xp) (Some w0) ->
  forall c', co_rel c' (<[c := xp]> o !! c') (<[c := w0]> vo !! c').
Proof.
  intros Ho Hc c'. destruct (decide (c' = c)) as [->|Hne];
    rewrite ?lookup_insert_eq, ?lookup_insert_ne by done; auto.
Qed.

Lemma co_delete (o : gmap cid (KvClient.KvCtx * KvClient.phase))
    (vo : gmap cid Visibility.wait) c :
  (forall c', co_rel c' (o !! c') (vo !! c')) ->
  forall c', co_rel c' (delete c o !! c') (delete c vo !! c').
Proof.
  intros Ho c'. destruct (decide (c' = c)) as [->|Hne];
    rewrite ?lookup_delete_eq, ?lookup_delete_ne by done; auto. done.
Qed.

Lemma co_idle (o : gmap cid (KvClient.KvCtx * KvClient.phase))
    (vo : gmap cid Visibility.wait) c :
  (forall c', co_rel c' (o !! c') (vo !! c')) -> o !! c = None -> vo !! c = None.
Proof. intros Ho Hc. specialize (Ho c). rewrite Hc in Ho. by destruct (vo !! c). Qed.

(** The fingerprint as the request carries it. *)
Lemma fingerprint_wrap k : wrap 32 (get_fingerprint k) = get_fingerprint k.
Proof. apply wrap_small. pose proof (fingerprint_range k). unfold in_width. lia. Qed.

Lemma route_port_swap c0 conf :
  is_client c0 -> zget (server_config f) c0 = Some conf ->
  toBigEndian16 (toBigEndian16 (port_id conf)) = port_id conf.
Proof.
  intros Hc Hz. apply toBigEndian16_invol.
  destruct Hc as [->|[->| ->]]; injection Hz as <-; cbn; lia.
Qed.

(** The request get_index sends. *)
Lemma read_request s t co x m r :
  KvClient.get_index_req (client_of (s, t, co)) x m = Done r ->
  is_client s -> KvClient.coro x = co -> key_ok (KvClient.long_key x) ->
  rel (Visibility.ToSwitch, KvClient.rmsg r)
    (Visibility.ToSwitch, Visibility.ReadReq (s, t, co) (KvClient.long_key x)).
Proof.
  intros Hr Hs Hco Hk. unfold KvClient.get_index_req in Hr.
  apply obind_inv in Hr as (conf & Hconf & Hr). injection Hr as <-.
  change (KvClient.server_id (client_of (s, t, co))) with s in Hconf.
  change (KvClient.cflags (client_of (s, t, co))) with f in Hconf.
  destruct (zget (server_config f) s) as [conf'|] eqn:Hz; [|done]. injection Hconf as ->.
  apply r_read_req; cbn [KvClient.rmsg]; [split|..]; try done.
  - by rewrite <- Hco.
  - by left.
  - unfold put_key; cbn [flag with_payload]. unfold KvClient.vis_flag.
    cbn [KvClient.cflags client_of]. by rewrite visible.
  - apply get_put_key; auto.
  - cbn [fst]. rewrite Hz. cbn. f_equal. by apply (route_port_swap s).
Qed.

(** The requests put_value and put_index send. *)
Lemma append_request s t co x m :
  is_client s -> KvClient.coro x = co -> key_ok (KvClient.long_key x) ->
  KvClient.ckey x = get_fingerprint (KvClient.long_key x) -> KvClient.data_s_id x = 0 ->
  rel (Visibility.ToSwitch, KvClient.rmsg (KvClient.put_value_req (client_of (s, t, co)) x m))
    (Visibility.ToSwitch, Visibility.AppendReq (s, t, co) (KvClient.long_key x)).
Proof.
  intros Hs Hco Hk Hfp Hd.
  apply r_append_req; [split|..]; try done.
  - by rewrite <- Hco.
  - by left.
  - cbn. by rewrite Hfp, fingerprint_wrap.
  - cbn. unfold KvClient.vis_flag. cbn. by rewrite visible.
  - unfold get_key, KvClient.put_value_req, put_value; cbn [KvClient.rmsg payload with_payload put_key].
    rewrite (proj1 (key_value_payload _ _ _)). by apply key_bytes_value, keys_64.
  - unfold KvClient.put_value_req, put_value; cbn [KvClient.rmsg payload with_payload put_key].
    match goal with |- _ <= zlen (blit (blit ?p 0 (key_bytes ?k)) 8 ?v) =>
      pose proof (proj2 (proj2 (key_value_payload p k v))) as Hl end.
    cbn [KvClient.cflags KvClient.userbuf client_of] in *. rewrite length_take in Hl.
    unfold KvServer.log_size, sizeof_KvKeyType, zlen in *. lia.
Qed.

Lemma update_request s t co x m :
  is_client s -> KvClient.coro x = co -> key_ok (KvClient.long_key x) ->
  KvClient.ckey x = get_fingerprint (KvClient.long_key x) -> KvClient.index_s_id x = 1 ->
  ok_log (KvClient.clog_id x) ->
  rel (Visibility.ToSwitch, KvClient.rmsg (KvClient.put_index_req (client_of (s, t, co)) x m))
    (Visibility.ToSwitch,
     Visibility.UpdateReq (s, t, co) (KvClient.long_key x) (KvClient.clog_id x)).
Proof.
  intros Hs Hco Hk Hfp Hd Hl.
  apply r_update_req; [split|..]; try done.
  - by rewrite <- Hco.
  - by left.
  - cbn. by rewrite Hfp, fingerprint_wrap.
  - unfold KvClient.put_index_req. cbn [KvClient.rmsg]. apply get_put_key; auto.
Qed.

Lemma refine_invoke w d ix n vl o a s t co x0 tt ev buf x p r :
  ksim (mkK w d ix n vl o) a ->
  o !! (s, t, co) = None -> is_client s ->
  KvClient.coro x0 = co -> key_ok (KvClient.long_key x0) ->
  read_or_write tt (s, t, co) (KvClient.long_key x0) = Some ev ->
  KvClient.kv_test_start (client_of (s, t, co)) x0 tt buf = Done (KvClient.Waiting x p r) ->
  simulated a (Some ev)
    (mkK w d ix (n ++ [(Visibility.ToSwitch, KvClient.rmsg r)]) vl (<[(s, t, co) := (x, p)]> o)).
Proof.
  intros [Hn Hc Hs Hi He Hr Hd Hv] Hidle Hcl Hco Hk Hev Hstart.
  assert (Hv' : forall xp, values_ok vl (<[(s, t, co) := xp]> o))
    by (intros xp; apply values_insert; [exact Hv|intros y E; discriminate (eq_trans (eq_sym E) Hidle)]).
  destruct a as [vs vi vn vo]. cbn in *.
  pose proof (co_idle _ _ _ Hc Hidle) as Hidle'.
  unfold KvClient.kv_test_start in Hstart.
  set (x1 := KvClient.begin_op x0 tt) in *.
  destruct tt; try discriminate; injection Hev as <-.
  1,2: apply obind_inv in Hstart as (r1 & Hr1 & Hstart); injection Hstart as <- <- <-;
    exists (Some (Visibility.InvR (s, t, co) (KvClient.long_key x0))); eexists;
    (split; [by apply Visibility.s_inv_read|]); (split; [done|]); (split; cbn; try done;
      [apply Forall2_app; [done|]; apply rel_one; by apply (read_request s t co x1 buf)
      |apply co_insert; [done|]; split_and!; try done; by (left + right)]).
  injection Hstart as <- <- <-.
  exists (Some (Visibility.InvW (s, t, co) (KvClient.long_key x0))).
  eexists. split; [by apply Visibility.s_inv_write|]. split; [done|]. split; cbn; try done.
  - apply Forall2_app; [done|]. apply rel_one. by apply (append_request s t co x1 buf).
  - apply co_insert; [done|]. by split_and!.
Qed.

(** What the coroutine is doing when a packet for it arrives. *)
Lemma waiting_for (a : Visibility.sys (C := cid)) sp p x n1 n2 :
  vinv a sp -> Visibility.takes (Visibility.net a) p x n1 n2 ->
  Visibility.pk_ok get_switch_key key_ok (Visibility.co a) (Visibility.ops sp) (p, x).
Proof.
  intros Hi [Hn _]. pose proof (Visibility.in_packets _ _ _ _ _ Hi) as Hp. rewrite Hn in Hp.
  by apply Forall_app in Hp as [_ [Hp _]%Forall_cons].
Qed.

(** get_value's request. *)
Lemma value_request (c : cid) (x : KvClient.KvCtx) (m : RawKvMsg) (o : gmap cid (KvClient.KvCtx * KvClient.phase)) :
  is_client c.1.1 -> KvClient.coro x = c.2 -> KvClient.ckey x = get_fingerprint (KvClient.long_key x) ->
  KvClient.data_s_id x = 0 -> ok_log (KvClient.clog_id x) -> o !! c = Some (x, KvClient.InGetValue) ->
  cid_of (KvClient.rmsg (KvClient.get_value_req (client_of c) x m)) = c /\
  value_pkt o (Visibility.ToSwitch, KvClient.rmsg (KvClient.get_value_req (client_of c) x m)).
Proof.
  intros Hcl Hco Hck Hd Hl Ho. destruct c as [[s t] co].
  assert (Ec : cid_of (KvClient.rmsg (KvClient.get_value_req (client_of (s, t, co)) x m)) = (s, t, co))
    by (unfold cid_of; cbn; by rewrite Hco).
  split; [done|]. split; cbn [fst snd]; rewrite ?Ec; try done.
  - cbn. rewrite Hck, fingerprint_wrap. apply fingerprint_nonzero.
  - cbn. unfold KvClient.vis_flag. cbn. by rewrite visible.
  - by exists x.
  - left. split; [by left|]. done.
Qed.

(** get_index with the reply to a read of the key: the end of the operation, or get_value. *)
Lemma read_returns (cl : KvClient.client) (x : KvClient.KvCtx) (m : RawKvMsg) (v : option Z) (buf : RawKvMsg) g :
  KvClient.test x = kEnumRI \/ KvClient.test x = kEnumR -> KvClient.ckey x = get_fingerprint (KvClient.long_key x) ->
  match v with
  | Some l => key m = get_fingerprint (KvClient.long_key x) /\ log_id m = l /\ ok_log l
  | None => key m = 4294967295
  end -> KvClient.kv_test_resume cl x KvClient.InGetIndex m buf = Done g ->
  exists x', KvClient.clog_id x' = default 4294967295 v /\ KvClient.test x' = KvClient.test x /\
    KvClient.coro x' = KvClient.coro x /\ KvClient.long_key x' = KvClient.long_key x /\ KvClient.ckey x' = KvClient.ckey x /\
    KvClient.data_s_id x' = KvClient.data_s_id x /\
    (g = KvClient.Finished x' m \/
     g = KvClient.Waiting x' KvClient.InGetValue (KvClient.get_value_req cl x' buf) /\ ok_log (KvClient.clog_id x')).
Proof.
  intros Ht Hck Hm Hg. cbn in Hg. unfold KvClient.get_index_done in Hg. rewrite Hck in Hg. destruct v as [l|].
  - destruct Hm as (Ek & El & Hok). rewrite Ek, Z.eqb_refl in Hg. cbn in Hg. rewrite El in Hg.
    destruct (decide (KvClient.test x = kEnumRI)); [|destruct (l =? 4294967295)]; injection Hg as <-;
      (eexists; split; [|split; [|split; [|split; [|split; [|split; [|auto]]]]]]); cbn; congruence.
  - rewrite Hm in Hg. rewrite (proj2 (Z.eqb_neq 4294967295 (get_fingerprint (KvClient.long_key x)))) in Hg
      by (pose proof (fingerprint_range (KvClient.long_key x)); lia).
    cbn in Hg. destruct (decide (KvClient.test x = kEnumRI)); injection Hg as <-;
      (eexists; split; [|split; [|split; [|split; [|split; [|split; [|auto]]]]]]); cbn; congruence.
Qed.

Lemma read_event (c : cid) (x' : KvClient.KvCtx) (l : Z) (x : KvClient.KvCtx) : KvClient.test x = kEnumRI \/ KvClient.test x = kEnumR -> KvClient.test x' = KvClient.test x ->
  KvClient.clog_id x' = l -> return_event c x' = KRetR c l.
Proof. intros Ht E <-. unfold return_event. rewrite E. by destruct Ht as [-> | ->]. Qed.

(** What a resumed coroutine does to the system. *)
Definition goes_on (a : Visibility.sys (C := cid)) (w : Switch.state) (d : Z -> KvServer.node I)
    (ix : KvServer.node I) (n1 n2 vl : list (place * RawKvMsg)) (o : gmap cid (KvClient.KvCtx * KvClient.phase)) (c : cid) (g : KvClient.progress) : Prop :=
  match g with
  | KvClient.Waiting x' KvClient.InGetValue r =>
      simulated a (Some (return_event c x')) (mkK w d ix (n1 ++ n2) (vl ++ [(Visibility.ToSwitch, KvClient.rmsg r)])
        (<[c := (x', KvClient.InGetValue)]> o))
  | KvClient.Waiting x' p' r =>
      simulated a None (mkK w d ix (n1 ++ n2 ++ [(Visibility.ToSwitch, KvClient.rmsg r)]) vl (<[c := (x', p')]> o))
  | KvClient.Finished x' _ => simulated a (Some (return_event c x')) (mkK w d ix (n1 ++ n2) vl (delete c o))
  | KvClient.Skipped _ => True
  end.

Lemma co_fetch (o : gmap cid (KvClient.KvCtx * KvClient.phase)) (vo : gmap cid Visibility.wait) c x :
  (forall c', co_rel c' (o !! c') (vo !! c')) ->
  KvClient.coro x = c.2 -> is_client c.1.1 -> KvClient.ckey x = get_fingerprint (KvClient.long_key x) ->
  forall c', co_rel c' (<[c := (x, KvClient.InGetValue)]> o !! c') (delete c vo !! c').
Proof.
  intros Ho H1 H2 H3 c'. destruct (decide (c' = c)) as [->|Hne].
  - rewrite lookup_insert_eq, lookup_delete_eq. done.
  - rewrite lookup_insert_ne, lookup_delete_ne by done. auto.
Qed.

(** The reply to a read reaches its coroutine. *)
Lemma refine_read w d ix n vl o vs vi vn vo m n1 n2 a1 a2 c k v x buf g :
  ksim (mkK w d ix n vl o) (Visibility.mkSys vs vi vn vo) ->
  Visibility.takes vn Visibility.ToClient (Visibility.ReadReply c k v) a1 a2 ->
  Forall2 rel n1 a1 -> Forall2 rel n2 a2 -> is_client c.1.1 ->
  o !! c = Some (x, KvClient.InGetIndex) -> vo !! c = Some (Visibility.Reading k) ->
  match v with
  | Some l => key m = get_fingerprint k /\ log_id m = l /\ ok_log l
  | None => key m = 4294967295
  end ->
  KvClient.kv_test_resume (client_of c) x KvClient.InGetIndex m buf = Done g ->
  goes_on (Visibility.mkSys vs vi vn vo) w d ix n1 n2 vl o c g.
Proof.
  intros S Ht H1 H2 Hcl Hox Hvo Hm Hg. pose proof S as [Hn Hc Hs Hi He Hr Hd Hv]. cbn in Hn, Hc, Hs, Hi, He, Hr, Hd, Hv.
  pose proof (Hc c) as Hco. rewrite Hox, Hvo in Hco. destruct Hco as (Hcoro & _ & Hck & [_ Hds] & Htest & <-).
  destruct (read_returns _ _ _ _ _ _ Htest Hck Hm Hg) as (x' & Hl & Ht' & Hco' & Hlk & Hck' & Hds' & Hcase).
  assert (Hev : return_event c x' = KRetR c (default 4294967295 v)) by (by eapply read_event).
  assert (Hne : forall y, o !! c <> Some (y, KvClient.InGetValue)) by (intros y E; by rewrite Hox in E).
  destruct Hcase as [-> |[-> Hok]]; unfold goes_on; rewrite Hev;
    (eexists (Some _), _; split; [by eapply Visibility.s_co_read|]; split; [done|]; split; cbn; try done;
      [by apply Forall2_app| |]).
  - by apply co_delete.
  - by apply values_delete.
  - apply co_fetch; [done|congruence|done|congruence].
  - destruct (value_request c x' buf (<[c := (x', KvClient.InGetValue)]> o)) as [Ec Hp];
      [done|congruence|congruence|congruence|done|apply lookup_insert_eq|].
    apply values_put; [by apply values_insert|done|].
    eapply Forall_impl; [by eapply values_elsewhere|]. intros e' Hn' E'. apply Hn'. etrans; [exact E'|exact Ec].
Qed.

Lemma refine_client w d ix n vl o a sp m n1 n2 x p buf g :
  ksim (mkK w d ix n vl o) a -> vinv a sp ->
  takes_msg n Visibility.ToClient m n1 n2 -> o !! cid_of m = Some (x, p) ->
  KvClient.kv_test_resume (client_of (cid_of m)) x p m buf = Done g ->
  goes_on a w d ix n1 n2 vl o (cid_of m) g.
Proof.
  intros S Hinv Ht Hox Hres. pose proof S as [Hn Hc Hs Hi He Hr Hd Hv]. destruct a as [vs vi vn vo].
  cbn in Hn, Hc, Hs, Hi, He, Hr, Hd, Hv.
  destruct (rel_takes _ _ _ _ _ _ Hn Ht) as (y & a1 & a2 & Ht' & Hx & H1 & H2).
  pose proof (waiting_for _ _ _ _ _ _ Hinv Ht') as Hw. cbn in Hw.
  pose proof (Hc (cid_of m)) as Hco. rewrite Hox in Hco.
  assert (Hne : p <> KvClient.InGetValue -> forall y, o !! cid_of m <> Some (y, KvClient.InGetValue)) by (intros Hp z E; by simplify_eq).
  rel_cases Hx; cbn in Hw; subst c; remember (client_of (cid_of m)) as cl eqn:Hcl;
    destruct Hw as (Hvo & _); rewrite Hvo in Hco;
    (assert (Hph : p <> KvClient.InGetValue) by (intros ->; by destruct Hco as (_ & _ & _ & _ & []))); specialize (Hne Hph);
    (destruct p; [| |..]; try done); destruct Hco as (Hcoro & _ & Hck & Hix & Hco); try done.
  - (* the slot was busy *)
    destruct Hco as [Htest Hlk]. cbn in Hres. unfold KvClient.put_value_done in Hres.
    destruct (key m =? KvClient.ckey x); [|done]. cbn in Hres.
    rewrite Hop, andb_false_r in Hres. injection Hres as <-.
    eexists None, _. split; [by eapply Visibility.s_co_slow|]. split; [done|].
    split; cbn; try done; [| |by apply values_insert].
    + apply rel_put; [done..|]. apply rel_one.
      change (rel (Visibility.ToSwitch, KvClient.rmsg (KvClient.put_index_req cl
                (KvClient.mkCtx (KvClient.test x) (KvClient.coro x) (KvClient.ckey x)
                   (KvClient.data_s_id x) (KvClient.index_s_id x) (KvClient.cmagic x)
                   (KvClient.long_key x) (log_id m) (KvClient.index_in_switch x)
                   (KvClient.read_ok x) (timestamp m)) buf))
             (Visibility.ToSwitch, Visibility.UpdateReq (cid_of m) (get_key m) (log_id m))).
      set (x1 := KvClient.mkCtx _ _ _ _ _ _ _ _ _ _ _).
      revert Hcoro Hclient. rewrite Hcl. destruct (cid_of m) as [[s t] co0]. intros.
      rewrite <- Hlk. apply (update_request s t co0 x1 buf); try done; [|apply Hix]. cbn. by rewrite Hlk.
    + apply co_insert; [done|]. destruct Hix. by split_and!.
  - (* the slot took the write *)
    destruct Hco as [Htest Hlk]. cbn in Hres. unfold KvClient.put_value_done in Hres.
    destruct (key m =? KvClient.ckey x); [|done]. cbn in Hres.
    rewrite Hop, Hcl in Hres. remember (cid_of m) as c eqn:Ec. destruct c as [[s t] co0].
    cbn in Hres. rewrite visible in Hres. cbn in Hres. injection Hres as <-.
    unfold goes_on, return_event; cbn. rewrite Htest.
    eexists (Some _), _. split; [by eapply Visibility.s_co_fast|]. split; [done|].
    split; cbn; try done; [by apply Forall2_app|by apply co_delete|by apply values_delete].
  - (* the index took the write *)
    destruct Hco as (Htest & Hlk & Hcl'). cbn in Hres. unfold KvClient.put_index_done in Hres.
    destruct (key m =? KvClient.ckey x); [|done]. cbn in Hres.
    destruct (_ =? _); [|done]. cbn in Hres. rewrite Hop, andb_false_r in Hres.
    cbn in Hres. injection Hres as <-.
    unfold goes_on, return_event; cbn. rewrite Htest, Hcl'.
    eexists (Some _), _. split; [by eapply Visibility.s_co_update|]. split; [done|].
    split; cbn; try done; [by apply Forall2_app|by apply co_delete|by apply values_delete].
  - (* a read the switch answered *)
    rewrite Hcl in Hres. by eapply refine_read.
  - (* a read the index answered *)
    rewrite Hcl in Hres. by eapply refine_read.
Qed.

(** ** The refinement *)

(** Steps of the packets of get_value, which the protocol does not see. *)
Lemma forwarded_values w w' d ix n vl vl' o a k0 :
  ksim (mkK w d ix n vl o) a -> Switch.slots_eq_except k0 w w' -> Switch.slot w' k0 = Switch.slot w k0 ->
  values_ok vl' o -> ksim (mkK w' d ix n vl' o) a.
Proof.
  intros [Hn Hc Hs Hi He Hr Hd Hv] Hne Hsl Hv'. cbn in *. split; cbn; try done.
  apply (slots_step w w' (Visibility.slots a) (Visibility.slots a) k0); try done. by rewrite Hsl.
Qed.

Lemma value_forwarded w d ix n vl o a m v1 v2 w' vd :
  ksim (mkK w d ix n vl o) a -> takes_msg vl Visibility.ToSwitch m v1 v2 -> Switch.ingress w m = (w', vd) ->
  (exists e, deliver vd = [e] /\ value_pkt o e /\ cid_of e.2 = cid_of m) /\
  Switch.slots_eq_except (switch_key m) w w' /\ Switch.slot w' (switch_key m) = Switch.slot w (switch_key m).
Proof.
  intros S [-> _] Hin. destruct (values_taken _ _ _ _ (ks_vals _ _ S)) as ([Hcl Hk Hfl Hw Hop] & _). cbn in Hcl, Hk, Hfl, Hw, Hop.
  assert (Ho : msg_op m = kEnumReadLog \/ msg_op m = kEnumReadReply) by tauto.
  assert (Hst : Switch.storable m) by (intros E; destruct Ho as [Ho|Ho]; rewrite Ho in E; by destruct E).
  pose proof (Switch.ingress_spec w m Hk Hst) as Hsw. rewrite Hin in Hsw. destruct Hsw as (Hslot & Hne & Hem).
  assert (Hd : Switch.emits vd Switch.Forward m /\ Switch.slot w' (switch_key m) = Switch.slot w (switch_key m)).
  { destruct Ho as [Ho|Ho]; decided Ho Hfl Hslot; decided Ho Hfl Hem; by split. }
  destruct Hd as [Hem' Hsl]. split; [|done].
  destruct Hop as [(_ & Hop & Hdst & Hl)|(_ & Hop & Hdst)].
  - destruct (deliver_data _ _ Hem' Hdst) as [cnt ->]. eexists. split; [reflexivity|]. split; [|done].
    split; try done. left. split; [by right|done].
  - destruct (deliver_client _ _ _ Hem' eq_refl Hcl Hdst) as [cnt ->]. eexists. split; [reflexivity|]. split; [|done].
    split; try done. right. split; [by right|done].
Qed.

Lemma switch_value w d ix n vl o a m v1 v2 w' vd :
  ksim (mkK w d ix n vl o) a -> takes_msg vl Visibility.ToSwitch m v1 v2 ->
  Switch.ingress w m = (w', vd) -> ksim (mkK w' d ix n (v1 ++ v2 ++ deliver vd) o) a.
Proof.
  intros S Ht Hin. destruct (value_forwarded _ _ _ _ _ _ _ _ _ _ _ _ S Ht Hin) as ((e & -> & He & Ec) & Hne & Hsl).
  eapply forwarded_values; [exact S|exact Hne|exact Hsl|]. destruct Ht as [-> _]. by eapply values_replace; [exact (ks_vals _ _ S)|..].
Qed.

Lemma data_value w d ix n vl o a m v1 v2 tid stale r nd' size :
  ksim (mkK w d ix n vl o) a -> takes_msg vl Visibility.ToData m v1 v2 ->
  KvServer.serve f tid (d tid) m stale = Done (r, nd', size) ->
  ksim (mkK w (fun t => if t =? tid then nd' else d t) ix n (v1 ++ v2 ++ [(Visibility.ToSwitch, r)]) o) a.
Proof.
  intros S [-> _] Hs. destruct (values_taken _ _ _ _ (ks_vals _ _ S)) as ([Hcl Hk Hfl Hw Hop] & _). cbn in Hcl, Hk, Hfl, Hw, Hop.
  destruct Hop as [(_ & Hop & _)|([?|?] & _)]; [|done..].
  destruct (answer_read_log _ _ _ _ _ _ _ Hs Hop) as ([] & Hk' & ->).
  destruct S as [Hn Hc Hsl Hi He Hr Hd Hv]. cbn in *. split; cbn; try done.
  - intros t. by destruct (Z.eqb_spec t tid) as [->|].
  - eapply values_replace; [exact Hv| |done]. split; cbn [fst snd].
    + by rewrite an_cid0.
    + by rewrite Hk'.
    + by rewrite an_flag0.
    + destruct Hw as [y Hy]. exists y. by rewrite an_cid0.
    + right. split; [by left|]. split; [done|]. rewrite an_dst0, an_cid0. done.
Qed.

Lemma finish_value w d ix n vl o a m v1 v2 x p buf x' reply :
  ksim (mkK w d ix n vl o) a -> takes_msg vl Visibility.ToClient m v1 v2 -> o !! cid_of m = Some (x, p) ->
  KvClient.kv_test_resume (client_of (cid_of m)) x p m buf = Done (KvClient.Finished x' reply) ->
  ksim (mkK w d ix n (v1 ++ v2) (delete (cid_of m) o)) a.
Proof.
  intros [Hn Hc Hsl Hi He Hr Hd Hv] [-> _] Ho Hres. cbn in *.
  destruct (values_taken _ _ _ _ Hv) as ([Hcl Hk Hfl (y & Hw) Hop] & Hv' & Helse). cbn in Hw, Helse.
  split; cbn; try done.
  - intros c. destruct (decide (c = cid_of m)) as [->|Hne]; [|by rewrite lookup_delete_ne].
    rewrite lookup_delete_eq. specialize (Hc (cid_of m)). rewrite Hw in Hc. destruct (Visibility.co a !! cid_of m); [by destruct Hc as (_ & _ & _ & _ & [])|done].
  - eapply values_change; [exact Helse| |exact Hv']. intros c Hne. by rewrite lookup_delete_ne.
Qed.

(** Every step is one of the protocol, or one it does not see. *)
Lemma kstep_refines s a sp ev s' :
  ksim s a -> vinv a sp -> kstep s ev s' -> simulated a ev s' \/ ev = None /\ ksim s' a.
Proof.
  intros Hs Hi Hstep.
  destruct Hstep as [w d ix n v o s t co x0 tt ev buf x p r Ho Hc Hx Hk He Hst
    |w d ix n v o p m n1 n2 w' vd Ht Hb Hin|w d ix n v o m v1 v2 w' vd Ht Hin
    |w d ix n v o m n1 n2 tid stale r d' size Ht Htid Hv|w d ix n v o m v1 v2 tid stale r d' size Ht Htid Hv
    |w d ix n v o sk m n1 n2 tid stale r ix' size Ht Hv
    |w d ix n v o m n1 n2 x p buf x' p' r Ht Ho Hr Hp|w d ix n v o m n1 n2 x p buf x' r Ht Ho Hr
    |w d ix n v o m n1 n2 x p buf x' reply Ht Ho Hr|w d ix n v o m v1 v2 x p buf x' reply Ht Ho Hr].
  - left. eapply refine_invoke; eauto.
  - left. eapply refine_switch; eauto.
  - right. split; [done|]. eapply switch_value; eauto.
  - left. eapply refine_data; eauto.
  - right. split; [done|]. eapply data_value; eauto.
  - left. eapply refine_index; eauto.
  - left. pose proof (refine_client _ _ _ _ _ _ _ _ _ _ _ _ _ _ _ Hs Hi Ht Ho Hr) as G. by destruct p'.
  - left. exact (refine_client _ _ _ _ _ _ _ _ _ _ _ _ _ _ _ Hs Hi Ht Ho Hr).
  - left. exact (refine_client _ _ _ _ _ _ _ _ _ _ _ _ _ _ _ Hs Hi Ht Ho Hr).
  - right. split; [done|]. eapply finish_value; eauto.
Qed.

(** *** Who waits has a packet under way *)
Definition fetching (v : list (place * RawKvMsg)) (o : gmap cid (KvClient.KvCtx * KvClient.phase)) : Prop :=
  forall c x, o !! c = Some (x, KvClient.InGetValue) -> c ∈ map (fun e => cid_of e.2) v.

Lemma fetching_replace (v1 v2 : list (place * RawKvMsg)) (e e' : place * RawKvMsg) (o : gmap cid (KvClient.KvCtx * KvClient.phase)) : cid_of e'.2 = cid_of e.2 -> fetching (v1 ++ e :: v2) o -> fetching (v1 ++ v2 ++ [e']) o.
Proof.
  intros E Hf c x Hx. specialize (Hf c x Hx). revert Hf. rewrite !map_app. cbn. rewrite E. set_solver.
Qed.

Lemma fetching_insert (v v' : list (place * RawKvMsg)) (o : gmap cid (KvClient.KvCtx * KvClient.phase)) c x p :
  (forall c', c' ∈ map (fun e => cid_of e.2) v -> c' ∈ map (fun e => cid_of e.2) v') ->
  (p = KvClient.InGetValue -> c ∈ map (fun e => cid_of e.2) v') ->
  fetching v o -> fetching v' (<[c := (x, p)]> o).
Proof.
  intros Hv Hp Hf c' x'. destruct (decide (c' = c)) as [->|Hne].
  - rewrite lookup_insert_eq. intros [= _ E]. by apply Hp.
  - rewrite lookup_insert_ne by done. intros Hx. by eapply Hv, Hf.
Qed.

Lemma fetching_delete (v : list (place * RawKvMsg)) (o : gmap cid (KvClient.KvCtx * KvClient.phase)) c : fetching v o -> fetching v (delete c o).
Proof. intros Hf c' x. rewrite lookup_delete_Some. intros [_ Hx]. by eapply Hf. Qed.

Lemma start_phase cl x t m x' p r : KvClient.kv_test_start cl x t m = Done (KvClient.Waiting x' p r) -> p <> KvClient.InGetValue.
Proof.
  unfold KvClient.kv_test_start. destruct t; try done.
  all: try (intros (r' & _ & Hw)%obind_inv; by injection Hw as _ <- _).
  all: intros Hw; by injection Hw as _ <- _.
Qed.

(** get_value's request carries the coroutine. *)
Lemma fetch_cid (id : cid) x p m buf x' r : KvClient.coro x = id.2 ->
  KvClient.kv_test_resume (client_of id) x p m buf = Done (KvClient.Waiting x' KvClient.InGetValue r) -> cid_of (KvClient.rmsg r) = id.
Proof.
  intros Hco. unfold KvClient.kv_test_resume. destruct p.
  - intros (x1 & Hi & Hr)%obind_inv. case_decide; [done|]. destruct (_ =? _); [done|]. injection Hr as <- <-.
    assert (E : KvClient.coro x1 = KvClient.coro x).
    { revert Hi. unfold KvClient.get_index_done. destruct (_ =? _); [by intros [= <-]|]. destruct (_ =? _); [by intros [= <-]|done]. }
    destruct id as [[s t] c]. unfold cid_of. cbn. by rewrite E, Hco.
  - by intros ([x1 bs] & _ & Hr)%obind_inv.
  - intros (x1 & _ & Hr)%obind_inv. by destruct (_ && _).
  - by intros (x1 & _ & Hr)%obind_inv.
Qed.

Lemma kstep_fetching s a sp ev s' : ksim s a -> vinv a sp -> kstep s ev s' -> fetching (kvals s) (kco s) -> fetching (kvals s') (kco s').
Proof.
  intros S Hi Hstep Hf.
  destruct Hstep as [w d ix n v o s t co x0 tt ev buf x p r Ho Hc Hx Hk He Hst
    |w d ix n v o p m n1 n2 w' vd Ht Hb Hin|w d ix n v o m v1 v2 w' vd Ht Hin
    |w d ix n v o m n1 n2 tid stale r d' size Ht Htid Hv|w d ix n v o m v1 v2 tid stale r d' size Ht Htid Hv
    |w d ix n v o sk m n1 n2 tid stale r ix' size Ht Hv
    |w d ix n v o m n1 n2 x p buf x' p' r Ht Ho Hr Hp|w d ix n v o m n1 n2 x p buf x' r Ht Ho Hr
    |w d ix n v o m n1 n2 x p buf x' reply Ht Ho Hr|w d ix n v o m v1 v2 x p buf x' reply Ht Ho Hr]; cbn in Hf |- *; try done.
  - apply start_phase in Hst. by eapply fetching_insert.
  - destruct (value_forwarded _ _ _ _ _ _ _ _ _ _ _ _ S Ht Hin) as ((e & -> & _ & Ec) & _). destruct Ht as [-> _]. by apply (fetching_replace _ _ (Visibility.ToSwitch, m)).
  - destruct Ht as [-> _]. apply (fetching_replace _ _ (Visibility.ToData, m)); [|exact Hf]. cbn.
    destruct (values_taken _ _ _ _ (ks_vals _ _ S)) as ([_ _ _ _ Hop] & _). cbn in Hop.
    destruct Hop as [(_ & Hop & _)|([?|?] & _)]; [|done..]. by destruct (answer_read_log _ _ _ _ _ _ _ Hv Hop) as ([] & _).
  - by eapply fetching_insert.
  - pose proof (ks_co _ _ S (cid_of m)) as Hco. cbn in Hco. rewrite Ho in Hco.
    assert (E : KvClient.coro x = (cid_of m).2) by (destruct p, (Visibility.co a !! cid_of m); try done; apply Hco).
    apply (fetch_cid (cid_of m)) in Hr; [|done].
    eapply fetching_insert; [| |exact Hf]; [intros c' Hc'; rewrite map_app; set_solver|].
    intros _. rewrite map_app. cbn. rewrite Hr. set_solver.
  - by apply fetching_delete.
  - destruct Ht as [-> _]. intros c y. rewrite lookup_delete_Some. intros [Hne Hy]. specialize (Hf c y Hy). revert Hf.
    rewrite !map_app. cbn. set_solver.
Qed.

Lemma kexec_refines s a sp tr s' :
  ksim s a -> vinv a sp -> Visibility.co_owned a -> fetching (kvals s) (kco s) -> kexec s tr s' ->
  exists tr' a' sp', Visibility.spec_exec sp tr' sp' /\ tr = seen <$> tr' /\
    ksim s' a' /\ vinv a' sp' /\ Visibility.co_owned a' /\ fetching (kvals s') (kco s').
Proof.
  intros Hs Hi Ho Hf Hex. revert a sp Hs Hi Ho Hf.
  induction Hex as [s|s e s1 tr s2 Hstep _ IH]; intros a sp Hs Hi Ho Hf.
  - exists [], a, sp. split_and!; try done. constructor.
  - pose proof (kstep_fetching _ _ _ _ _ Hs Hi Hstep Hf) as Hf1.
    destruct (kstep_refines _ _ _ _ _ Hs Hi Hstep) as [(e' & a1 & Hv & -> & Hs1)|[-> Hs1]]; [|by apply (IH a)].
    destruct (Visibility.step_simulated _ _ _ keys_distinct _ _ _ _ Hi Hv) as (sp1 & H1 & Hi1).
    destruct (IH _ _ Hs1 Hi1) as (tr' & a2 & sp2 & H2 & -> & Hr); [by eapply Visibility.co_owned_step|done|].
    exists (option_list e' ++ tr'), a2, sp2. split_and!; try apply Hr.
    + by eapply Visibility.spec_exec_app.
    + rewrite fmap_app. by destruct e'.
Qed.

Lemma kinitial_sim d ix (i : gmap Z Z) :
  (forall k, mt_search (KvServer.index ix) k = i !! k) ->
  (forall k v, i !! k = Some v -> ok_log v) -> (forall tid, ok_node (d tid)) ->
  ksim (kinitial d ix) (Visibility.initial i).
Proof.
  intros Hi Hr Hd. split; cbn; try done. split; constructor.
Qed.

Lemma reachable_attended d ix (i : gmap Z Z) tr s :
  (forall k, mt_search (KvServer.index ix) k = i !! k) ->
  (forall k v, i !! k = Some v -> ok_log v) -> (forall tid, ok_node (d tid)) ->
  kexec (kinitial d ix) tr s ->
  exists tr' a sp, Visibility.spec_exec (Visibility.mkSpec i ∅) tr' sp /\ tr = seen <$> tr' /\ ksim s a /\ vinv a sp /\
    Visibility.co_owned a /\ fetching (kvals s) (kco s).
Proof.
  intros Hi Hr Hd Hex. eapply kexec_refines; [by apply kinitial_sim|apply Visibility.initial_inv| | |done].
  - by intros c [? ?].
  - by intros c x.
Qed.

Lemma reachable_sim d ix (i : gmap Z Z) tr s :
  (forall k, mt_search (KvServer.index ix) k = i !! k) ->
  (forall k v, i !! k = Some v -> ok_log v) -> (forall tid, ok_node (d tid)) ->
  kexec (kinitial d ix) tr s ->
  exists tr' a sp, Visibility.spec_exec (Visibility.mkSpec i ∅) tr' sp /\ tr = seen <$> tr' /\ ksim s a /\ vinv a sp.
Proof.
  intros Hi Hr Hd Hex. destruct (reachable_attended _ _ _ _ _ Hi Hr Hd Hex) as (tr' & a & sp & ? & ? & ? & ? & _). by exists tr', a, sp.
Qed.

(** A packet that brings its coroutine an answer; the index's copy of a multicast and
    its acknowledgement do not. *)
Definition answering (e : place * RawKvMsg) : Prop :=
  match e.1 with
  | Visibility.ToIndex _ => msg_op e.2 <> kEnumMultiCastPkt
  | Visibility.FromIndex _ => msg_op e.2 <> ReplySwitch
  | _ => True
  end.

Lemma rel_owner e y c : rel e y -> Visibility.owner y.2 = Some c -> cid_of e.2 = c /\ answering e.
Proof.
  destruct 1 as [p c0 k m B|p c0 k l r m B|c0 k l m B|p c0 k l m B Hp Hop|p c0 k l m B Hp Hop|p c0 k m B Hp Hop|c0 k l m B|p c0 k v m B Hp Hop|c0 k l r m B|c0 k l r m B]; cbn;
    intros [= <-]; (split; [apply B|]); unfold answering; cbn; try done; try (destruct p; try done; by rewrite Hop);
    match goal with H : ?p = _ \/ ?p = _ |- _ => by destruct H as [-> | ->] end.
Qed.

(** A suspended coroutine has such a packet under way. *)
Lemma attended s a c : ksim s a -> Visibility.co_owned a -> fetching (kvals s) (kco s) -> is_Some (kco s !! c) ->
  exists e, (e ∈ knet s \/ e ∈ kvals s) /\ cid_of e.2 = c /\ answering e.
Proof.
  intros S Ho Hf [[x p] Hx]. pose proof (ks_co _ _ S c) as Hco. rewrite Hx in Hco.
  destruct (Visibility.co a !! c) as [wt|] eqn:Ew.
  - assert (Hin : c ∈ Visibility.owners (Visibility.net a)) by (apply Ho; by eexists).
    apply list_elem_of_omap in Hin as (y & Hy & Hown). apply list_elem_of_lookup in Hy as (i & Hy).
    destruct (Forall2_lookup_r _ _ _ _ _ (ks_net _ _ S) Hy) as (e & He & Hr).
    destruct (rel_owner _ _ _ Hr Hown). exists e. split; [left; by eapply list_elem_of_lookup_2|done].
  - destruct p; try done. specialize (Hf c x Hx). apply list_elem_of_In, in_map_iff in Hf as (e & Ec & He%list_elem_of_In).
    exists e. split; [by right|]. split; [done|]. pose proof (vo_each _ _ (ks_vals _ _ S)) as Hv. rewrite Forall_forall in Hv.
    destruct (Hv e He) as [_ _ _ _ Hop]. unfold answering. destruct e as [p m]. cbn in Hop |- *.
    by destruct Hop as [([-> | ->] & _)|([-> | ->] & _)].
Qed.

(** ** No handler fails *)

(** What runs on a packet at its place, with whatever buffers it is given. *)
Definition handled (s : ksys) (p : place) (m : RawKvMsg) : Prop :=
  match p with
  | Visibility.ToData => forall tid stale, exists r d' size,
      KvServer.serve f tid (kdata s tid) m stale = Done (r, d', size)
  | Visibility.ToIndex _ => forall tid stale, exists r ix' size,
      KvServer.serve f tid (kindex s) m stale = Done (r, ix', size)
  | Visibility.ToClient => exists x w0, kco s !! cid_of m = Some (x, w0) /\
      forall buf, exists g, KvClient.kv_test_resume (client_of (cid_of m)) x w0 m buf = Done g
  | _ => True
  end.

Lemma client_config c0 : is_client c0 -> exists conf, zget (server_config f) c0 = Some conf.
Proof. intros [->|[->| ->]]; by eexists. Qed.

Lemma index_serves tid n req stale c :
  cid_of req = c -> is_client c.1.1 ->
  msg_op req = kEnumUpdateIndexReq \/ msg_op req = kEnumMultiCastPkt \/
    msg_op req = kEnumReadIndexReq ->
  exists r n' size, KvServer.serve f tid n req stale = Done (r, n', size).
Proof.
  intros Hc Hcl Hop. destruct (client_config _ Hcl) as [conf Hconf].
  rewrite <- (src_of _ _ Hc) in Hconf.
  unfold KvServer.serve, KvServer.server_process_msg, KvServer.process_op, KvServer.get_long.
  destruct Hop as [->|[->| ->]]; cbn; [| |destruct (mt_search _ _); cbn];
    rewrite Hconf; cbn; eauto.
Qed.

Lemma sim_handled s a sp p m n1 n2 :
  ksim s a -> vinv a sp -> (forall tid, KvServer.node_ok f (kdata s tid)) ->
  takes_msg (knet s) p m n1 n2 -> handled s p m.
Proof.
  intros S Hinv Hd Ht. pose proof S as [Hn Hc _ _ _ _ _ _].
  destruct (rel_takes _ _ _ _ _ _ Hn Ht) as (y & a1 & a2 & Ht' & Hx & H1 & H2).
  pose proof (waiting_for _ _ _ _ _ _ Hinv Ht') as Hw.
  destruct p as [| | |sk|sk]; cbn; try done.
  - intros tid stale. rel_cases Hx. destruct (client_config _ Hclient) as [conf Hconf].
    rewrite <- Hcid in Hconf.
    destruct (KvServer.serve_append f tid (kdata s tid) m stale conf) as (r & kv' & tss' & Hv & _);
      try done; [apply Hd|rewrite Hslot; apply switch_key_range|apply Hd|eauto].
  - rel_cases Hx; cbn in Hw; pose proof Hcid as Hcid'; destruct Hw as (Hvo & _);
      pose proof (Hc c) as Hco; rewrite Hvo in Hco;
      destruct (kco s !! c) as [[x w0]|] eqn:Hox; try done; exists x, w0;
      (split; [by rewrite Hcid|]); intros buf;
      (destruct w0; try by destruct Hco as (_ & _ & _ & _ & [])); destruct Hco as (Hcoro & _ & Hck & Hix & Hco); cbn;
      unfold KvClient.put_value_done, KvClient.get_index_done, KvClient.put_index_done.
    + rewrite Hck, (proj2 Hco), <- Hkey, Z.eqb_refl. cbn. rewrite Hop, andb_false_r. eauto.
    + rewrite Hck, (proj2 Hco), <- Hkey, Z.eqb_refl. cbn. destruct (_ && _); eauto.
    + rewrite Hck, (proj1 (proj2 Hco)), <- Hkey, Z.eqb_refl. cbn.
      unfold cid_of. cbn. rewrite Z.eqb_refl. cbn. rewrite Hop, andb_false_r. cbn. eauto.
    + rewrite Hck, (proj2 Hco), <- Hkey, Z.eqb_refl. cbn. case_decide; cbn; [|destruct (log_id m =? 4294967295)]; eauto.
    + destruct v as [l|].
      * destruct Hval as [E _].
        rewrite Hck, (proj2 Hco), <- E, Z.eqb_refl. cbn. case_decide; cbn; [|destruct (log_id m =? 4294967295)]; eauto.
      * rewrite Hval. destruct (_ =? _); cbn; case_decide; cbn; try destruct (log_id m =? 4294967295); eauto.
  - intros tid stale. rel_cases Hx; eapply index_serves; eauto.
Qed.

(** Where the coroutine of a packet of the protocol waits. *)
Lemma client_phase s a sp m n1 n2 x p :
  ksim s a -> vinv a sp -> takes_msg (knet s) Visibility.ToClient m n1 n2 ->
  kco s !! cid_of m = Some (x, p) -> p <> KvClient.InGetValue.
Proof.
  intros [Hn Hc _ _ _ _ _ _] Hinv Ht Ho ->.
  destruct (rel_takes _ _ _ _ _ _ Hn Ht) as (y & a1 & a2 & Ht' & Hx & _).
  pose proof (waiting_for _ _ _ _ _ _ Hinv Ht') as Hw.
  rel_cases Hx; cbn in Hw; destruct Hw as (Hvo & _); specialize (Hc c); rewrite Hcid in Ho;
    rewrite Ho, Hvo in Hc; by destruct Hc as (_ & _ & _ & _ & []).
Qed.

Lemma value_phase s a p m v1 v2 :
  ksim s a -> takes_msg (kvals s) p m v1 v2 -> exists x, kco s !! cid_of m = Some (x, KvClient.InGetValue).
Proof.
  intros S [E _]. pose proof (ks_vals _ _ S) as V. rewrite E in V. by destruct (values_taken _ _ _ _ V) as ([] & _).
Qed.

(** A packet of get_value. *)
Lemma value_handled s a p m v1 v2 :
  ksim s a -> (forall tid, KvServer.node_ok f (kdata s tid)) ->
  (forall l, ok_log l -> 0 <= logid_2_locallogid f l < FLAGS_logspace f) ->
  takes_msg (kvals s) p m v1 v2 -> handled s p m.
Proof.
  intros S Hd Hl [E _]. pose proof (ks_vals _ _ S) as V. rewrite E in V.
  destruct (values_taken _ _ _ _ V) as ([Hcl Hk Hfl (x & Hw) Hop] & _). cbn in Hcl, Hw, Hop.
  destruct Hop as [([-> | ->] & Hop & Hdst & Hlog)|([-> | ->] & Hop & Hdst)]; cbn; try done.
  - intros tid stale. destruct (client_config _ Hcl) as [conf Hconf].
    unfold KvServer.serve, KvServer.server_process_msg, KvServer.process_op. rewrite Hop. cbn.
    rewrite (KvServer.get_done f) by (done || apply Hd || by apply Hl). cbn.
    change (cid_of m).1.1 with (src_s_id (rpc_header m)) in Hconf. rewrite Hconf. cbn. eauto.
  - exists x, KvClient.InGetValue. split; [done|]. intros buf. cbn. unfold KvClient.get_value_done. rewrite Hop. cbn. eauto.
Qed.
End system.

(** ** Two ways to look at log ids and data nodes *)
Section store.
Context {I : Type} `{IndexLaws I}.
Context (f : flags) (val : list Z) (key_ok : Z -> Prop).
Hypothesis visible : FLAGS_visibility f = true.
Hypothesis val_size : 0 <= FLAGS_kv_size_b f <= zlen val.
Hypothesis keys_64 : forall k, key_ok k -> in_width 64 k.
Hypothesis keys_distinct : forall k1 k2, key_ok k1 -> key_ok k2 ->
  get_switch_key k1 = get_switch_key k2 -> get_fingerprint k1 = get_fingerprint k2 -> k1 = k2.

(** An appended entry gets an id of a thread and an entry of its log. *)
Definition in_log (l : Z) : Prop :=
  in_width 32 l /\ 0 <= logid_2_locallogid f l < FLAGS_logspace f.

(** What the reply to an append carries. *)
Lemma append_id tid (n : KvServer.node I) req stale r n' size :
  msg_op req = kEnumAppendReq -> KvServer.serve f tid n req stale = Done (r, n', size) ->
  exists local kv', KvServer.append f (KvServer.kv n) (get_log f req) = Done (local, kv') /\
    log_id r = compute_log_id f local tid.
Proof.
  intros Hop Hs. unfold KvServer.serve, KvServer.server_process_msg, KvServer.process_op in Hs. rewrite Hop in Hs. cbn in Hs.
  apply obind_inv in Hs as ([r0 n0] & Hp0 & Hs).
  apply obind_inv in Hp0 as ([local kv'] & Ha & Hp0).
  apply obind_inv in Hp0 as ([t tss'] & _ & Hp0). injection Hp0 as <- <-.
  apply obind_inv in Hs as (conf & _ & Hs). injection Hs as <- <- _. by exists local, kv'.
Qed.

Lemma append_in_log tid (n : KvServer.node I) req stale r n' size :
  FLAGS_logspace f <= FLAGS_keyspace f -> FLAGS_dn_thread f * FLAGS_keyspace f <= 2 ^ 32 ->
  KvServer.node_ok f n -> data_thread f tid -> msg_op req = kEnumAppendReq -> KvServer.log_size f <= zlen (payload req) ->
  KvServer.serve f tid n req stale = Done (r, n', size) -> in_log (log_id r) /\ KvServer.node_ok f n'.
Proof.
  intros Hsp Hth Hn Htid Hop Hlen Hs. split; [|by eapply KvServer.serve_append_node_ok].
  destruct Hn as [O Ht]. pose proof (KvServer.ok_pos _ _ O) as Hpos. unfold data_thread in Htid.
  destruct (append_id _ _ _ _ _ _ _ Hop Hs) as (local & kv' & Ha & Hid).
  assert (Hb : zlen (get_log f req) = KvServer.log_size f).
  { pose proof (KvServer.stride_ge f (KvServer.ok_size _ _ O)). unfold get_log, KvServer.log_size, zlen in *.
    rewrite length_take. lia. }
  destruct (KvServer.append_spec f (KvServer.kv n) _ O Hb) as (kv1 & Ha1 & _). rewrite Ha1 in Ha. injection Ha as <- _.
  destruct (logid_decode f (KvServer.pos (KvServer.kv n)) tid) as (H32 & _ & Hloc); [nia..|].
  rewrite <- Hid in H32, Hloc. split; [done|]. rewrite Hloc. lia.
Qed.


(** C2. No handler fails: in every reachable state, whichever packet is taken
    next, server_process_msg returns a reply (on any thread and whatever the
    send buffer held before), and a reply that arrives finds its coroutine
    suspended and passes every assertion of get_index, get_value, put_index
    and put_value.  The log ids of the index name entries of the logs, and
    the ids of all data threads fit 32 bits. *)
Theorem kv_never_fails d ix (i : gmap Z Z) tr s p m n1 n2 :
  FLAGS_logspace f <= FLAGS_keyspace f -> FLAGS_dn_thread f * FLAGS_keyspace f <= 2 ^ 32 ->
  (forall k, mt_search (KvServer.index ix) k = i !! k) ->
  (forall k v, i !! k = Some v -> in_log v) ->
  (forall tid, KvServer.node_ok f (d tid)) ->
  kexec f val key_ok (kinitial d ix) tr s ->
  takes_msg (knet s) p m n1 n2 \/ takes_msg (kvals s) p m n1 n2 -> handled f val s p m.
Proof.
  intros Hsp Hth Hi Hr Hd Hex Ht.
  destruct (reachable_sim f val key_ok in_log (KvServer.node_ok f) visible val_size keys_64 keys_distinct
    ltac:(by intros l []) (fun tid n req stale r n' size => append_in_log tid n req stale r n' size Hsp Hth)
    d ix i tr s Hi Hr Hd Hex) as (tr' & a & sp & _ & _ & Hs & Hinv).
  pose proof (ks_data _ _ _ _ _ _ Hs) as Hok. destruct Ht as [Ht|Ht].
  - by eapply sim_handled.
  - eapply value_handled; try done. by intros l [].
Qed.
End store.

(** *** A run: a write the switch makes visible, then a read it answers *)

Definition sample_key (k : Z) : Prop := k = 42.
Definition blank : RawKvMsg :=
  mkMsg (mkHeader 0 0 0 0 0 0 0) 0 0 0 0 0 0 0 0 0 0 0 0 0 0 0 0 0 [].
Definition sample_ctx : KvClient.KvCtx :=
  KvClient.mkCtx kEnumW 0 0 0 0 0 42 0 false true 0.
Definition sample_trace : list kevent :=
  [KInvW (2, 0, 0) 42; KRetW (2, 0, 0) 0; KInvR (3, 0, 0) 42; KRetR (3, 0, 0) 0;
   KInvR (4, 0, 0) 42; KRetR (4, 0, 0) 0].

Notation sample_exec := (kexec KvServer.tiny_flags [] sample_key).
Notation sample_initial := (kinitial (fun _ => KvServer.sample_node) KvServer.sample_node).

Lemma kexec_visible {I} `{IndexOps I} f val key_ok (s s1 s2 : ksys (I := I)) e tr :
  kstep f val key_ok s (Some e) s1 -> kexec f val key_ok s1 tr s2 ->
  kexec f val key_ok s (e :: tr) s2.
Proof. intros Hs He. exact (kexec_cons _ _ _ _ _ _ _ _ Hs He). Qed.

Lemma kexec_silent {I} `{IndexOps I} f val key_ok (s s1 s2 : ksys (I := I)) tr :
  kstep f val key_ok s None s1 -> kexec f val key_ok s1 tr s2 -> kexec f val key_ok s tr s2.
Proof. intros Hs He. exact (kexec_cons _ _ _ _ _ _ _ _ Hs He). Qed.

(** Takes the oldest packet, or the one behind it. *)
Lemma take_oldest n p m n2 : n = (p, m) :: n2 -> takes_msg n p m [] n2.
Proof. intros ->. by split. Qed.

Lemma take_second n e p m n2 :
  n = e :: (p, m) :: n2 -> ~ Visibility.ordered p -> takes_msg n p m [e] n2.
Proof. intros -> Hp. by split. Qed.

Ltac take_first := first
  [apply take_oldest; vm_compute; reflexivity
  |eapply take_second; [vm_compute; reflexivity|simpl; tauto]].

Ltac invoke sid t :=
  eapply kexec_visible;
    [eapply (k_invoke _ _ _ _ _ _ _ _ _ sid 0 0 sample_ctx t _ blank);
      [reflexivity|unfold is_client; tauto|reflexivity|reflexivity|reflexivity
      |vm_compute; reflexivity]|].
Ltac through_switch :=
  eapply kexec_silent;
    [eapply k_switch with (p := Visibility.ToSwitch); [take_first|exact Logic.I|apply surjective_pairing]|].
Ltac at_data :=
  eapply kexec_silent;
    [eapply (k_data _ _ _ _ _ _ _ _ _ _ _ _ 0 blank); [take_first|by vm_compute|vm_compute; reflexivity]|].
Lemma finish_step {I} `{IndexOps I} f val key_ok w d (ix : KvServer.node I) n v o m n1 n2 x p buf
    x' reply e :
  takes_msg n Visibility.ToClient m n1 n2 -> o !! cid_of m = Some (x, p) ->
  KvClient.kv_test_resume (client_of f val (cid_of m)) x p m buf =
    Done (KvClient.Finished x' reply) ->
  e = return_event (cid_of m) x' ->
  kstep f val key_ok (mkK w d ix n v o) (Some e) (mkK w d ix (n1 ++ n2) v (delete (cid_of m) o)).
Proof. intros Ht Ho Hr ->. by eapply k_finish. Qed.

Lemma fetch_step {I} `{IndexOps I} f val key_ok w d (ix : KvServer.node I) n v o m n1 n2 x p buf x' r e :
  takes_msg n Visibility.ToClient m n1 n2 -> o !! cid_of m = Some (x, p) ->
  KvClient.kv_test_resume (client_of f val (cid_of m)) x p m buf =
    Done (KvClient.Waiting x' KvClient.InGetValue r) ->
  e = return_event (cid_of m) x' ->
  kstep f val key_ok (mkK w d ix n v o) (Some e)
    (mkK w d ix (n1 ++ n2) (v ++ [(Visibility.ToSwitch, KvClient.rmsg r)]) (<[cid_of m := (x', KvClient.InGetValue)]> o)).
Proof. intros Ht Ho Hr ->. by eapply k_fetch. Qed.

Ltac finish :=
  eapply kexec_visible;
    [eapply (finish_step _ _ _ _ _ _ _ _ _ _ _ _ _ _ blank);
      [take_first|reflexivity|vm_compute; reflexivity|reflexivity]|].

Ltac fetch :=
  eapply kexec_visible;
    [eapply (fetch_step _ _ _ _ _ _ _ _ _ _ _ _ _ _ blank);
      [take_first|reflexivity|vm_compute; reflexivity|reflexivity]|].
Ltac value_step :=
  eapply kexec_silent;
    [first [eapply k_switch_value; [take_first|apply surjective_pairing]
           |eapply (k_data_value _ _ _ _ _ _ _ _ _ _ _ _ 0 blank); [take_first|by vm_compute|vm_compute; reflexivity]
           |eapply (k_finish_value _ _ _ _ _ _ _ _ _ _ _ _ _ _ blank); [take_first|reflexivity|vm_compute; reflexivity]]|].

(** A write the switch takes, a read it answers, and a read with its value. *)
Lemma sample_run : exists s, sample_exec sample_initial sample_trace s.
Proof.
  eexists. unfold sample_trace, kinitial.
  invoke 2 kEnumW. through_switch. at_data. through_switch. finish.
  invoke 3 kEnumRI. through_switch. finish.
  invoke 4 kEnumR. through_switch. fetch. do 4 value_step. constructor.
Qed.

Lemma sample_keys k1 k2 :
  sample_key k1 -> sample_key k2 -> get_switch_key k1 = get_switch_key k2 ->
  get_fingerprint k1 = get_fingerprint k2 -> k1 = k2.
Proof. unfold sample_key. congruence. Qed.

Lemma sample_key_64 k : sample_key k -> in_width 64 k.
Proof. intros ->. unfold in_width. lia. Qed.

Lemma sample_range k v : (∅ : gmap Z Z) !! k = Some v -> in_width 32 v.
Proof. by rewrite lookup_empty. Qed.

Lemma sample_node_ok : KvServer.node_ok KvServer.tiny_flags KvServer.sample_node.
Proof.
  split; [apply KvServer.init_ok; vm_compute; congruence|].
  intros k. change (KvServer.tss_get _ k) with 1. unfold in_width. lia.
Qed.


Lemma sample_in_log k v : (∅ : gmap Z Z) !! k = Some v -> in_log KvServer.tiny_flags v.
Proof. by rewrite lookup_empty. Qed.

(** After the run the multicast still waits for the index node. *)
Lemma kv_never_fails_witness :
  exists s, sample_exec sample_initial sample_trace s /\
    forall p m n1 n2, takes_msg (knet s) p m n1 n2 \/ takes_msg (kvals s) p m n1 n2 ->
      handled KvServer.tiny_flags [] s p m.
Proof.
  destruct sample_run as [s Hrun]. exists s. split; [exact Hrun|].
  intros p m n1 n2.
  exact (kv_never_fails KvServer.tiny_flags [] sample_key eq_refl
    (conj (Z.le_refl 0) (Z.le_refl 0)) sample_key_64 sample_keys
    (fun _ => KvServer.sample_node) KvServer.sample_node ∅ sample_trace s p m n1 n2
    ltac:(by vm_compute) ltac:(by vm_compute)
    (fun k => eq_refl) sample_in_log (fun _ => sample_node_ok) Hrun).
Defined.
End KvSystem.
