(* ===== verification/QpModel.v ===== *)
(** * The send side of a queue pair

    Module [Qp]: the data of rdma/struct/qp_info.h (CoroCtx, WrInfo, SingleWr,
    CQInfo, QPInfo), the sends of a queue pair and the polling of its completion
    queue.  The verbs are the interface [Verbs], with their documented behaviour
    as the laws [VerbsLaws].  The members send_x and one_x of QPInfo that come in
    pairs form a [Ring] each.

    The message of a work request lives in a buffer of a ring of 128; the device
    reads it until the completion of the request, or of a later one, is polled.
    Only some requests are signaled, and a completion credits the requests posted
    since the previous signaled one. *)

From S2P Require Import Prelude.

Module Qp.

Definition kMaxSignal : Z := 32.
Definition kStaticSendBuf : Z := kMaxSignal * 4.
Definition kBatchOne : Z := 128.
Definition kMaxWcCnt : Z := 16.
Definition kRawPacketHeader : Z := 42.
Definition kUDHeader : Z := 40.

Definition LOGRC : Z := 0.
Definition LOGRAW : Z := 1.
Definition LOGUD : Z := 2.
Definition LOGTSRQ : Z := 3.
Definition LOGGSRQ : Z := 4.
Definition LOGDCT : Z := 5.

(** A flag of the verbs: ask for a completion. *)
Definition IBV_SEND_SIGNALED : Z := 2.

(** ** Coroutine contexts *)
Record CoroCtx := { free : bool; async_op_cnt : Z }.

Definition add_op_cnt (c : CoroCtx) : CoroCtx :=
  {| free := free c;
     async_op_cnt := if async_op_cnt c =? -1 then 1 else signed 32 (async_op_cnt c + 1) |}.

Definition sub_op_cnt (c : CoroCtx) : CoroCtx :=
  {| free := free c;
     async_op_cnt := if 0 <? async_op_cnt c then async_op_cnt c - 1 else async_op_cnt c |}.

Definition over (c : CoroCtx) : bool := async_op_cnt c =? 0.

(** ** Work requests *)
Record ibv_sge := { addr : Z; len : Z }.

Record Region := { rg_addr : Z; rg_key : Z; rg_size : Z }.

(** The part of ibv_send_wr that the code writes; [next] is an index into the
    array the request is in.  Its sg_list points to the sg_list of the SingleWr. *)
Record send_wr := { send_flags : Z; next : option Z; num_sge : Z }.

(** The pointer to the queue pair is the index of the queue pair in the agent. *)
Record WrInfo := { qp : nat; signal_cnt : Z; one_signal_cnt : Z; coro_ctx : option nat }.

Record SingleWr := { sg_num : Z; sg_list : ibv_sge; wr : send_wr; exp_wr : send_wr; wr_info : WrInfo }.

Definition with_wr (s : SingleWr) (w : send_wr) : SingleWr :=
  {| sg_num := sg_num s; sg_list := sg_list s; wr := w; exp_wr := exp_wr s;
     wr_info := wr_info s |}.

Definition with_info (s : SingleWr) (i : WrInfo) : SingleWr :=
  {| sg_num := sg_num s; sg_list := sg_list s; wr := wr s; exp_wr := exp_wr s;
     wr_info := i |}.

Definition with_flags (w : send_wr) (f : Z) : send_wr :=
  {| send_flags := f; next := next w; num_sge := num_sge w |}.

Definition with_next (w : send_wr) (n : option Z) : send_wr :=
  {| send_flags := send_flags w; next := n; num_sge := num_sge w |}.

(** sg_list has kMaxSgList = 1 entry: adding a second one without
    count_sg_num in between is outside the array. *)
Definition add_sg_to_wr (s : SingleWr) (rg : Region) (offset size : Z) : outcome SingleWr :=
  if decide (sg_num s = 0) then
    Done {| sg_num := 1;
            sg_list := {| addr := wrap 64 (rg_addr rg + offset); len := size |};
            wr := wr s; exp_wr := exp_wr s; wr_info := wr_info s |}
  else Fault OutOfBounds.

Definition count_sg_num (s : SingleWr) : SingleWr :=
  {| sg_num := 0; sg_list := sg_list s;
     wr := {| send_flags := send_flags (wr s); next := next (wr s);
              num_sge := sg_num s |};
     exp_wr := exp_wr s; wr_info := wr_info s |}.

Definition add_flags (s : SingleWr) (flags : Z) : SingleWr :=
  with_wr s (with_flags (wr s) (Z.lor (send_flags (wr s)) flags)).

(** send_flags &= (!flags), with the logical negation. *)
Definition clear_flags (s : SingleWr) (flags : Z) : SingleWr :=
  with_wr s (with_flags (wr s) (Z.land (send_flags (wr s)) (if flags =? 0 then 1 else 0))).

Definition set_signal_cnt (s : SingleWr) (c : Z) : SingleWr :=
  with_info s {| qp := qp (wr_info s); signal_cnt := c;
                 one_signal_cnt := one_signal_cnt (wr_info s); coro_ctx := coro_ctx (wr_info s) |}.

Definition set_one_signal_cnt (s : SingleWr) (c : Z) : SingleWr :=
  with_info s {| qp := qp (wr_info s); signal_cnt := signal_cnt (wr_info s);
                 one_signal_cnt := c; coro_ctx := coro_ctx (wr_info s) |}.

Definition set_coro_ctx (s : SingleWr) (c : option nat) : SingleWr :=
  with_info s {| qp := qp (wr_info s); signal_cnt := signal_cnt (wr_info s);
                 one_signal_cnt := one_signal_cnt (wr_info s); coro_ctx := c |}.

Definition copy_wr (s : SingleWr) : SingleWr :=
  {| sg_num := sg_num s; sg_list := sg_list s; wr := wr s; exp_wr := wr s;
     wr_info := wr_info s |}.

Definition is_signaled (flags : Z) : bool := negb (Z.land flags IBV_SEND_SIGNALED =? 0).

(** ** Rings and queue pairs

    [buf_pos] is send_buf_pos or one_wr_pos, the other members carry the prefix
    send or one in the source; [slots] is rpc_send_wr.wr or one_side_wr.wr. *)
Record Ring := {
  buf_pos : Z;
  pending_cnt : Z;
  begin_id : Z;
  counter : Z;
  cnt_bf_signal : Z;
  slots : list SingleWr }.

Record QPInfo := { type : Z; rpc_send : Ring; one_side : Ring }.

Definition ring (one : bool) (q : QPInfo) : Ring := if one then one_side q else rpc_send q.

Definition with_ring (one : bool) (q : QPInfo) (r : Ring) : QPInfo :=
  if one then {| type := type q; rpc_send := rpc_send q; one_side := r |}
  else {| type := type q; rpc_send := r; one_side := one_side q |}.

Definition with_slot (r : Ring) (id : Z) (s : SingleWr) : Ring :=
  {| buf_pos := buf_pos r; pending_cnt := pending_cnt r; begin_id := begin_id r;
     counter := counter r; cnt_bf_signal := cnt_bf_signal r; slots := zset (slots r) id s |}.

Definition with_counter (r : Ring) (c : Z) : Ring :=
  {| buf_pos := buf_pos r; pending_cnt := pending_cnt r; begin_id := begin_id r;
     counter := c; cnt_bf_signal := cnt_bf_signal r; slots := slots r |}.

Definition with_bf_signal (r : Ring) (c : Z) : Ring :=
  {| buf_pos := buf_pos r; pending_cnt := pending_cnt r; begin_id := begin_id r;
     counter := counter r; cnt_bf_signal := c; slots := slots r |}.

(** The constructors leave send_flags uninitialised: [stale]. *)
Definition init_wr (stale : Z) (q : nat) : SingleWr :=
  let w := {| send_flags := stale; next := None; num_sge := 0 |} in
  {| sg_num := 0; sg_list := {| addr := 0; len := 0 |}; wr := w; exp_wr := w;
     wr_info := {| qp := q; signal_cnt := 0; one_signal_cnt := 0; coro_ctx := None |} |}.

Definition init_ring (stale : Z) (q : nat) (n : Z) : Ring :=
  {| buf_pos := 0; pending_cnt := 0; begin_id := 0; counter := 0; cnt_bf_signal := 0;
     slots := replicate (Z.to_nat n) (init_wr stale q) |}.

Definition init_qp (stale type_ : Z) (q : nat) : QPInfo :=
  {| type := type_; rpc_send := init_ring stale q kStaticSendBuf;
     one_side := init_ring stale q kBatchOne |}.

(** init_send_with_one_mr: gives every slot its buffer. *)
Definition init_send_slot (mr : Region) (offset msg_size : Z) (i : nat) (s : SingleWr) : outcome SingleWr :=
  let! s := add_sg_to_wr s mr (wrap 32 (offset + wrap 32 (msg_size * Z.of_nat i))) msg_size in
  Done (count_sg_num (add_flags s IBV_SEND_SIGNALED)).

Fixpoint init_send_slots (mr : Region) (offset msg_size : Z) (i : nat) (ss : list SingleWr) : outcome (list SingleWr) :=
  match ss with
  | [] => Done []
  | s :: ss =>
      let! s := init_send_slot mr offset msg_size i s in
      let! ss := init_send_slots mr offset msg_size (S i) ss in
      Done (s :: ss)
  end.

Definition with_slots (r : Ring) (ss : list SingleWr) : Ring :=
  {| buf_pos := buf_pos r; pending_cnt := pending_cnt r; begin_id := begin_id r;
     counter := counter r; cnt_bf_signal := cnt_bf_signal r; slots := ss |}.

Definition init_send_with_one_mr (q : QPInfo) (mr : Region) (offset msg_size : Z) : outcome QPInfo :=
  let! ss := init_send_slots mr offset msg_size 0 (slots (rpc_send q)) in
  Done (with_ring false q (with_slots (rpc_send q) ss)).

Definition send_header_size : list Z := [0; kRawPacketHeader; 0; 0; 0; 0].
Definition recv_header_size : list Z := [0; kRawPacketHeader; kUDHeader; 0; 0; 0].

(** ** The verbs

    [SendWr q one id] is the address of the wr_info of a slot of queue pair [q],
    [RecvWr q b i] of request [i] of its receive batch [b]. *)
Inductive wr_ref := SendWr (q : nat) (one : bool) (id : Z) | RecvWr (q : nat) (b i : nat).

Record wc := { wr_id : wr_ref; success : bool }.

(** What the device reads of a posted request; [w_one] and [w_id] are its wr_id. *)
Record wreq := { w_one : bool; w_id : Z; w_flags : Z; w_sges : list ibv_sge }.

Inductive cq_id := SendCq | RecvCq.

(** [ibv_post_send], [ibv_exp_post_send] and [ibv_post_recv] return the error
    code; ibv_poll_cq returns [None] for a negative result. *)
Class Verbs := {
  device : Type;
  ibv_post_send : device -> nat -> list wreq -> Z * device;
  ibv_exp_post_send : device -> nat -> list wreq -> Z * device;
  ibv_post_recv : device -> nat -> list (nat * nat) -> Z * device;
  ibv_poll_cq : device -> cq_id -> Z -> option (list wc) * device }.

Definition signaled (w : wreq) : bool := is_signaled (w_flags w).

Definition nsig (ws : list wreq) : Z := zlen (filter (fun w => signaled w = true) ws).

(** Completions reach up to a signaled request. *)
Definition ends_signaled (ws : list wreq) : Prop :=
  ws = [] \/ exists ws' w, ws = ws' ++ [w] /\ signaled w = true.

Definition send_ids (q : nat) (cs : list wc) : list (bool * Z) :=
  omap (fun c => match wr_id c with
                 | SendWr q' one id => if decide (q' = q) then Some (one, id) else None
                 | RecvWr _ _ _ => None
                 end) cs.

Definition recv_ids (q : nat) (cs : list wc) : list (nat * nat) :=
  omap (fun c => match wr_id c with
                 | RecvWr q' b i => if decide (q' = q) then Some (b, i) else None
                 | SendWr _ _ _ => None
                 end) cs.

Definition is_send (c : wc) : bool := match wr_id c with SendWr _ _ _ => true | _ => false end.

(** The device of a thread without failures: a send queue and a receive queue per
    queue pair, both first in, first out; one completion queue for all sends and
    one for all receives.  [in_flight] are the sends that no polled completion
    covers yet, [recv_queue] the receives whose completion has not been polled;
    [cq_load] counts the signaled sends of all queue pairs in flight, the
    completion queue has room for [cq_depth].  The send queue holds 128 requests,
    as initRCQP asks for. *)
Class VerbsLaws (V : Verbs) := {
  in_flight : device -> nat -> list wreq;
  recv_queue : device -> nat -> list (nat * nat);
  cq_load : device -> Z;
  cq_depth : Z;
  cq_load_le : forall d q, nsig (in_flight d q) <= cq_load d;
  post_send_law : forall d q ws r d',
    ibv_post_send d q ws = (r, d') ->
    zlen (in_flight d q ++ ws) <= kStaticSendBuf ->
    cq_load d + nsig ws <= cq_depth ->
    r = 0 /\ in_flight d' q = in_flight d q ++ ws /\
    (forall p, p <> q -> in_flight d' p = in_flight d p) /\
    (forall p, recv_queue d' p = recv_queue d p) /\
    cq_load d' = cq_load d + nsig ws;
  post_recv_law : forall d q rs r d',
    ibv_post_recv d q rs = (r, d') ->
    r = 0 /\ recv_queue d' q = recv_queue d q ++ rs /\
    (forall p, p <> q -> recv_queue d' p = recv_queue d p) /\
    (forall p, in_flight d' p = in_flight d p) /\ cq_load d' = cq_load d;
  poll_send_law : forall d n r d',
    ibv_poll_cq d SendCq n = (r, d') -> 1 <= n ->
    exists cs, r = Some cs /\ zlen cs <= n /\
      Forall (fun c => success c = true /\ is_send c = true) cs /\
      cq_load d' = cq_load d - zlen cs /\
      (forall p, recv_queue d' p = recv_queue d p) /\
      forall p, exists done,
        in_flight d p = done ++ in_flight d' p /\ ends_signaled done /\
        send_ids p cs = map (fun w => (w_one w, w_id w)) (filter (fun w => signaled w = true) done);
  poll_recv_law : forall d n r d',
    ibv_poll_cq d RecvCq n = (r, d') -> 1 <= n ->
    exists cs, r = Some cs /\ zlen cs <= n /\
      Forall (fun c => success c = true /\ is_send c = false) cs /\
      cq_load d' = cq_load d /\
      (forall p, in_flight d' p = in_flight d p) /\
      forall p, recv_queue d p = recv_ids p cs ++ recv_queue d' p }.

(** Completions arrive: while signaled sends are in flight, polls return nothing
    only [delay] times in a row. *)
Class VerbsProgress (V : Verbs) {L : VerbsLaws V} := {
  delay : device -> nat;
  poll_progress : forall d d' n,
    1 <= n -> 0 < cq_load d -> ibv_poll_cq d SendCq n = (Some [], d') ->
    (delay d' < delay d)%nat }.

(** ** The agent: the queue pairs of a thread and its completion queues *)
Record CQInfo := { cq_len : Z; signal_counter : Z; recv_cq_only : bool }.

Section ops.
Context {V : Verbs}.

Record agent := {
  qps : list QPInfo;
  send_cq : CQInfo;
  coro_ctxs : list CoroCtx;
  dev : device }.

Definition with_qp (st : agent) (q : nat) (i : QPInfo) : agent :=
  {| qps := <[q := i]> (qps st); send_cq := send_cq st; coro_ctxs := coro_ctxs st; dev := dev st |}.

Definition with_dev (st : agent) (d : device) : agent :=
  {| qps := qps st; send_cq := send_cq st; coro_ctxs := coro_ctxs st; dev := d |}.

Definition with_signal_counter (st : agent) (c : Z) : agent :=
  {| qps := qps st;
     send_cq := {| cq_len := cq_len (send_cq st); signal_counter := c;
                   recv_cq_only := recv_cq_only (send_cq st) |};
     coro_ctxs := coro_ctxs st; dev := dev st |}.

Definition with_coro (st : agent) (c : nat) (x : CoroCtx) : agent :=
  {| qps := qps st; send_cq := send_cq st; coro_ctxs := <[c := x]> (coro_ctxs st); dev := dev st |}.

Definition get_qp (st : agent) (q : nat) : outcome QPInfo := of_option OutOfBounds (qps st !! q).

Definition get_coro (st : agent) (c : nat) : outcome CoroCtx :=
  of_option OutOfBounds (coro_ctxs st !! c).

Definition update_slot (st : agent) (q : nat) (one : bool) (id : Z) (f : SingleWr -> SingleWr) : outcome agent :=
  let! i := get_qp st q in
  let! s := load (slots (ring one i)) id in
  Done (with_qp st q (with_ring one i (with_slot (ring one i) id (f s)))).

(** *** Polling *)

(** The credit of one completion of a send: modify_send_qp_info_by_wc, one
    iteration; [info] is what wr_id points to. *)
Definition credit_wc (st : agent) (info : WrInfo) : outcome agent :=
  let st := with_signal_counter st (wrap 32 (signal_counter (send_cq st) - 1)) in
  let! st := match coro_ctx info with
             | None => Done st
             | Some c =>
                 let! x := get_coro st c in
                 Done (with_coro st c {| free := free x; async_op_cnt := signed 32 (async_op_cnt x - 1) |})
             end in
  let! i := get_qp st (qp info) in
  let i := with_ring true i (with_counter (one_side i)
             (wrap 32 (counter (one_side i) - one_signal_cnt info))) in
  let i := with_ring false i (with_counter (rpc_send i)
             (wrap 32 (counter (rpc_send i) - signal_cnt info))) in
  Done (with_qp st (qp info) i).

Definition modify_one (st : agent) (c : wc) : outcome agent :=
  let! st := match wr_id c with
             | RecvWr _ _ _ => Done st
             | SendWr q one id =>
                 let! i := get_qp st q in
                 let! s := load (slots (ring one i)) id in
                 credit_wc st (wr_info s)
             end in
  if success c then Done st else Fault ProcessExit.

Fixpoint modify_each (st : agent) (cs : list wc) : outcome agent :=
  match cs with
  | [] => Done st
  | c :: cs => let! st := modify_one st c in modify_each st cs
  end.

Definition modify_send_qp_info_by_wc (st : agent) (cs : list wc) : outcome agent :=
  if recv_cq_only (send_cq st) then Done st else modify_each st cs.

Definition poll_cq_try (st : agent) (wc_count : Z) : outcome (list wc * agent) :=
  if decide (wc_count <= kMaxWcCnt) then
    match ibv_poll_cq (dev st) SendCq wc_count with
    | (None, _) => Fault ProcessExit
    | (Some cs, d) =>
        let! st := modify_send_qp_info_by_wc (with_dev st d) cs in
        Done (cs, st)
    end
  else Fault ProcessExit.

Definition poll_cq_once (st : agent) : outcome (option wc * agent) :=
  match ibv_poll_cq (dev st) SendCq 1 with
  | (None, _) => Fault ProcessExit
  | (Some [], d) => Done (None, with_dev st d)
  | (Some (c :: cs), d) =>
      let! st := modify_send_qp_info_by_wc (with_dev st d) (c :: cs) in
      Done (Some c, st)
  end.

Fixpoint poll_cq_a_wc (fuel : nat) (st : agent) : outcome (wc * agent) :=
  match fuel with
  | O => Fault Diverges
  | S fuel =>
      let! (c, st) := poll_cq_once st in
      match c with
      | Some c => Done (c, st)
      | None => poll_cq_a_wc fuel st
      end
  end.

Definition check_signal (fuel : nat) (st : agent) : outcome agent :=
  if signal_counter (send_cq st) =? cq_len (send_cq st) then
    let! (cs, st) := poll_cq_try st 16 in
    match cs with
    | [] => let! (_, st) := poll_cq_a_wc fuel st in Done st
    | _ :: _ => Done st
    end
  else Done st.

(** *** Posting *)

(** generate_and_issue_batch, the body of the loop for the [i]-th request. *)
Definition link (wr_n i next_id : Z) : option Z :=
  if i =? wr_n - 1 then None else Some next_id.

(** Sets next, counts the request and forces a signal every kMaxSignal requests. *)
Definition number_wr (st : agent) (q : nat) (one : bool) (id : Z) (nx : option Z) : outcome agent :=
  let! st := update_slot st q one id (fun s => with_wr s (with_next (wr s) nx)) in
  let! p := get_qp st q in
  let r := ring one p in
  let p := with_ring one p (with_bf_signal r (wrap 32 (cnt_bf_signal r + 1))) in
  let st := with_qp st q p in
  let! s := load (slots (ring one p)) id in
  if (wrap 32 (cnt_bf_signal (rpc_send p) + cnt_bf_signal (one_side p)) =? kMaxSignal)
     && negb (is_signaled (send_flags (wr s)))
  then update_slot st q one id (fun s => add_flags s IBV_SEND_SIGNALED)
  else Done st.

(** Accounts a signaled request. *)
Definition account_wr (fuel : nat) (st : agent) (q : nat) (one : bool) (id : Z) : outcome agent :=
  let! p := get_qp st q in
  let! s := load (slots (ring one p)) id in
  if is_signaled (send_flags (wr s)) then
    let! st := if one then
                 let! c := of_option NullDeref (coro_ctx (wr_info s)) in
                 let! x := get_coro st c in
                 Done (with_coro st c (add_op_cnt x))
               else Done st in
    let st := with_signal_counter st (wrap 32 (signal_counter (send_cq st) + 1)) in
    let! st := check_signal fuel st in
    let! p := get_qp st q in
    let s_cnt := cnt_bf_signal (rpc_send p) in
    let o_cnt := cnt_bf_signal (one_side p) in
    let! st := update_slot st q one id (fun s => set_one_signal_cnt (set_signal_cnt s s_cnt) o_cnt) in
    let! p := get_qp st q in
    let p := with_ring false p (with_bf_signal (rpc_send p) 0) in
    Done (with_qp st q (with_ring true p (with_bf_signal (one_side p) 0)))
  else Done st.

Definition kMaxWr (one : bool) : Z := if one then kBatchOne else kStaticSendBuf.

Definition generate_wr (fuel : nat) (st : agent) (q : nat) (begin_id_ wr_n : Z) (one exp : bool) (i : Z) : outcome agent :=
  let id := (i + begin_id_) mod kMaxWr one in
  let next_id := (i + begin_id_ + 1) mod kMaxWr one in
  let! st := number_wr st q one id (link wr_n i next_id) in
  let! st := account_wr fuel st q one id in
  if exp then update_slot st q one id (fun s =>
    let s := copy_wr s in
    {| sg_num := sg_num s; sg_list := sg_list s; wr := wr s;
       exp_wr := with_next (exp_wr s) (link wr_n i next_id); wr_info := wr_info s |})
  else Done st.

(** [n] requests are left, the first is the [i]-th. *)
Fixpoint generate (fuel : nat) (st : agent) (q : nat) (begin_id_ wr_n : Z) (one exp : bool) (i : Z) (n : nat) : outcome agent :=
  match n with
  | O => Done st
  | S n =>
      let! st := generate_wr fuel st q begin_id_ wr_n one exp i in
      generate fuel st q begin_id_ wr_n one exp (i + 1) n
  end.

(** The requests a linked list holds: what a post hands to the device. *)
Fixpoint chain (fuel : nat) (part : SingleWr -> send_wr) (one : bool) (ss : list SingleWr) (id : Z) : outcome (list wreq) :=
  match fuel with
  | O => Fault Diverges
  | S fuel =>
      let! s := load ss id in
      let w := {| w_one := one; w_id := id; w_flags := send_flags (part s);
                  w_sges := take (Z.to_nat (num_sge (part s))) [sg_list s] |} in
      match next (part s) with
      | None => Done [w]
      | Some id' => let! ws := chain fuel part one ss id' in Done (w :: ws)
      end
  end.

(** A failed post writes through a null pointer. *)
Definition issue (st : agent) (q : nat) (begin_id_ wr_n : Z) (one exp : bool) : outcome agent :=
  let! p := get_qp st q in
  let! ws := chain (Z.to_nat (kMaxWr one)) (if exp then exp_wr else wr) one (slots (ring one p)) begin_id_ in
  let '(ret, d) := (if exp then ibv_exp_post_send else ibv_post_send) (dev st) q ws in
  if ret =? 0 then
    let st := with_dev st d in
    let r := ring one p in
    Done (with_qp st q (with_ring one p (with_counter r (wrap 32 (counter r + wr_n)))))
  else Fault NullDeref.

Definition generate_and_issue_batch (fuel : nat) (st : agent) (q : nat) (begin_id_ wr_cnt : Z) (one exp : bool) : outcome agent :=
  let! st := generate fuel st q begin_id_ wr_cnt one exp 0 (Z.to_nat wr_cnt) in
  issue st q begin_id_ wr_cnt one exp.

(** The tail of post_appended_smsg and post_appended_one: the batch is gone. *)
Definition reset_pending (st : agent) (q : nat) (one : bool) : outcome agent :=
  let! p := get_qp st q in
  let r := ring one p in
  Done (with_qp st q (with_ring one p
    {| buf_pos := buf_pos r; pending_cnt := 0; begin_id := buf_pos r; counter := counter r;
       cnt_bf_signal := cnt_bf_signal r; slots := slots r |})).

(** The result tells whether the coroutine is suspended: [master] is not null
    and there was something to post. *)
Definition post_appended_smsg (fuel : nat) (st : agent) (q : nat) (master dct : bool) : outcome (bool * agent) :=
  let! p := get_qp st q in
  let r := rpc_send p in
  if pending_cnt r =? 0 then Done (false, st)
  else
    let! st := generate_and_issue_batch fuel st q (begin_id r) (pending_cnt r) false dct in
    let! st := reset_pending st q false in
    if master then
      let! p := get_qp st q in
      if pending_cnt (one_side p) =? 0 then Done (true, st) else Fault ProcessExit
    else Done (false, st).

Definition post_appended_one (fuel : nat) (st : agent) (q : nat) (master dct : bool) : outcome (bool * agent) :=
  let! p := get_qp st q in
  let r := one_side p in
  if pending_cnt r =? 0 then Done (false, st)
  else
    let! st := generate_and_issue_batch fuel st q (begin_id r) (pending_cnt r) true dct in
    let! st := reset_pending st q true in
    Done (master, st).

(** *** Appending *)
Definition advance (w : Z) (one : bool) (p : QPInfo) : QPInfo :=
  let r := ring one p in
  with_ring one p
    {| buf_pos := ADD_ROUND (buf_pos r) (kMaxWr one); pending_cnt := wrap w (pending_cnt r + 1);
       begin_id := begin_id r; counter := counter r; cnt_bf_signal := cnt_bf_signal r;
       slots := slots r |}.

Definition append_signal_smsg (st : agent) (q : nat) (signal : bool) (ctx : option nat) : outcome agent :=
  let! p := get_qp st q in
  let pos := buf_pos (rpc_send p) in
  let! st := update_slot st q false pos (fun s =>
    if signal then add_flags s IBV_SEND_SIGNALED else clear_flags s IBV_SEND_SIGNALED) in
  let! st := match ctx with
             | Some c =>
                 if signal then
                   let! st := update_slot st q false pos (fun s => set_coro_ctx s (Some c)) in
                   let! x := get_coro st c in
                   Done (with_coro st c (add_op_cnt x))
                 else Done st
             | None => Done st
             end in
  let! p := get_qp st q in
  Done (with_qp st q (advance 16 false p)).

Definition append_signal_one (st : agent) (q : nat) (ctx : option nat) (signal : bool) : outcome agent :=
  let! p := get_qp st q in
  let pos := buf_pos (one_side p) in
  let! st := update_slot st q true pos (fun s =>
    if signal then add_flags s IBV_SEND_SIGNALED else clear_flags s IBV_SEND_SIGNALED) in
  match ctx with
  | None => Fault ProcessExit
  | Some _ =>
      let! st := update_slot st q true pos (fun s => set_coro_ctx s ctx) in
      let! p := get_qp st q in
      Done (with_qp st q (advance 32 true p))
  end.

Definition add_smsg_flag (st : agent) (q : nat) (flags : Z) : outcome agent :=
  let! p := get_qp st q in
  update_slot st q false (buf_pos (rpc_send p)) (fun s => add_flags s flags).

(** The argument of clear_smsg_flag is not used. *)
Definition clear_smsg_flag (st : agent) (q : nat) (flags : Z) : outcome agent :=
  let! p := get_qp st q in
  update_slot st q false (buf_pos (rpc_send p)) (fun s => clear_flags s 15).

(** get_send_wr: the slot at the write position, its coroutine forgotten. *)
Definition get_send_wr (st : agent) (q : nat) : outcome (SingleWr * agent) :=
  let! p := get_qp st q in
  let pos := buf_pos (rpc_send p) in
  let! st := update_slot st q false pos (fun s => set_coro_ctx s None) in
  let! p := get_qp st q in
  let! s := load (slots (rpc_send p)) pos in
  Done (s, st).

(** The loop of get_send_msg_sg; poll_cq_a_wc never returns a null pointer, so the
    exit after it is not reached. *)
Fixpoint wait_send_room (fuel : nat) (st : agent) (q : nat) : outcome agent :=
  match fuel with
  | O => Fault Diverges
  | S fuel' =>
      let! p := get_qp st q in
      let r := rpc_send p in
      if kStaticSendBuf <=? wrap 32 (counter r + pending_cnt r) then
        let! st := if counter r =? 0 then
                     let! (_, st) := post_appended_smsg fuel st q false (type p =? LOGDCT) in Done st
                   else Done st in
        let! (_, st) := poll_cq_a_wc fuel st in
        wait_send_room fuel' st q
      else Done st
  end.

Definition get_send_msg_sg (fuel : nat) (st : agent) (q : nat) : outcome (ibv_sge * agent) :=
  let! st := check_signal fuel st in
  let! st := wait_send_room fuel st q in
  let! (s, st) := get_send_wr st q in
  Done (sg_list s, st).

Definition get_send_msg_addr (fuel : nat) (st : agent) (q : nat) : outcome (Z * agent) :=
  let! (sg, st) := get_send_msg_sg fuel st q in
  let! p := get_qp st q in
  let! h := load send_header_size (type p) in
  Done (wrap 64 (addr sg + h), st).

(** get_send_msg_sg()[0].length = size + header.  For a raw queue pair the result
    is the address of the packet, in whose header the caller writes the size. *)
Definition modify_smsg_size (fuel : nat) (st : agent) (q : nat) (size : Z) : outcome (option Z * agent) :=
  let! (_, st) := get_send_msg_sg fuel st q in
  let! p := get_qp st q in
  let! h := load send_header_size (type p) in
  let! st := update_slot st q false (buf_pos (rpc_send p)) (fun s =>
    {| sg_num := sg_num s; sg_list := {| addr := addr (sg_list s); len := wrap 32 (size + h) |};
       wr := wr s; exp_wr := exp_wr s; wr_info := wr_info s |}) in
  if type p =? LOGRAW then
    let! (sg, st) := get_send_msg_sg fuel st q in Done (Some (addr sg), st)
  else Done (None, st).

(** The loop has no use of its argument cnt. *)
Fixpoint guarantee_only_pending_n_wr (fuel : nat) (st : agent) (q : nat) : outcome agent :=
  match fuel with
  | O => Fault Diverges
  | S fuel' =>
      let! p := get_qp st q in
      if 32 <? wrap 32 (counter (rpc_send p) + pending_cnt (rpc_send p)) then
        let! (_, st) := poll_cq_a_wc fuel st in
        guarantee_only_pending_n_wr fuel' st q
      else Done st
  end.
End ops.

End Qp.
