(* ===== verification/QpDeviceModel.v ===== *)
(** * A device that keeps the laws of the verbs

    Module [QpDevice]: requests wait in one list, and a poll completes the first
    signaled request of the list together with the earlier requests of its queue
    pair.  It shows that the laws of [Qp.VerbsLaws] can hold and runs the examples
    of the queue pairs. *)

From S2P Require Import Prelude QpModel.

Module QpDevice.
Import Qp.

Record queues := { sends : list (nat * wreq); recvs : list (nat * (nat * nat)) }.

Definition of_qp {A} (q : nat) (l : list (nat * A)) : list A :=
  omap (fun x => if decide (x.1 = q) then Some x.2 else None) l.

(** The first signaled request, what is before it and what is behind it. *)
Fixpoint first_signaled (l : list (nat * wreq)) : option (list (nat * wreq) * (nat * wreq) * list (nat * wreq)) :=
  match l with
  | [] => None
  | x :: l =>
      if signaled x.2 then Some ([], x, l)
      else match first_signaled l with
           | Some (l1, y, l2) => Some (x :: l1, y, l2)
           | None => None
           end
  end.

Definition complete (l : list (nat * wreq)) : option (wc * list (nat * wreq)) :=
  match first_signaled l with
  | None => None
  | Some (l1, (q, w), l2) =>
      Some ({| wr_id := SendWr q (w_one w) (w_id w); success := true |},
            filter (fun x => x.1 <> q) l1 ++ l2)
  end.

Definition poll (d : queues) (c : cq_id) (n : Z) : option (list wc) * queues :=
  match c with
  | SendCq =>
      match complete (sends d) with
      | Some (x, l) => (Some [x], {| sends := l; recvs := recvs d |})
      | None => (Some [], d)
      end
  | RecvCq =>
      match recvs d with
      | (q, (b, i)) :: l =>
          (Some [{| wr_id := RecvWr q b i; success := true |}], {| sends := sends d; recvs := l |})
      | [] => (Some [], d)
      end
  end.

Definition post_send (d : queues) (q : nat) (ws : list wreq) : Z * queues :=
  (0, {| sends := sends d ++ map (pair q) ws; recvs := recvs d |}).

Definition post_recv (d : queues) (q : nat) (rs : list (nat * nat)) : Z * queues :=
  (0, {| sends := sends d; recvs := recvs d ++ map (pair q) rs |}).

#[export] Instance verbs : Verbs := {|
  device := queues;
  ibv_post_send := post_send;
  ibv_exp_post_send := post_send;
  ibv_post_recv := post_recv;
  ibv_poll_cq := poll |}.

Lemma of_qp_cons {A} q p (x : A) l :
  of_qp q ((p, x) :: l) = if decide (p = q) then x :: of_qp q l else of_qp q l.
Proof. unfold of_qp. simpl. by case_decide. Qed.

Lemma of_qp_app {A} q (l l' : list (nat * A)) : of_qp q (l ++ l') = of_qp q l ++ of_qp q l'.
Proof. apply omap_app. Qed.

Lemma of_qp_pairs {A} q p (l : list A) : of_qp q (map (pair p) l) = if decide (p = q) then l else [].
Proof.
  induction l as [|x l IH]; [by case_decide|]. cbn [map]. rewrite of_qp_cons, IH. by case_decide.
Qed.

Lemma of_qp_other q p (l : list (nat * wreq)) :
  of_qp p (filter (fun x => x.1 <> q) l) = if decide (p = q) then [] else of_qp p l.
Proof.
  induction l as [|[r w] l IH]; [by case_decide|]. rewrite filter_cons, of_qp_cons.
  simpl. repeat case_decide; rewrite ?of_qp_cons, ?IH; cases; congruence.
Qed.

Lemma first_signaled_inv l l1 x l2 :
  first_signaled l = Some (l1, x, l2) ->
  l = l1 ++ x :: l2 /\ signaled x.2 = true /\ Forall (fun y => signaled y.2 = false) l1.
Proof.
  revert l1. induction l as [|y l IH]; intros l1; simpl; [done|].
  destruct (signaled y.2) eqn:E; [by intros [= <- <- <-]|].
  destruct (first_signaled l) as [[[l1' y'] l2']|]; [|done]. intros [= <- <- <-].
  destruct (IH l1' eq_refl) as (-> & ? & ?). by rewrite Forall_cons.
Qed.

Definition load_of (l : list (nat * wreq)) : Z := nsig (map snd l).

Lemma nsig_eq (l l' : list wreq) : nsig (l ++ l') = nsig l + nsig l'.
Proof. unfold nsig, zlen. rewrite filter_app, length_app. lia. Qed.

Lemma nsig_none l : Forall (fun w => signaled w = false) l -> nsig l = 0.
Proof.
  induction 1 as [|w l Hw _ IH]; [done|]. unfold nsig in *. rewrite filter_cons, Hw. done.
Qed.

Lemma nsig_of_qp q l : nsig (of_qp q l) <= load_of l.
Proof.
  induction l as [|[p w] l IH]; [done|]. rewrite of_qp_cons. unfold load_of, nsig in *. simpl.
  rewrite filter_cons. case_decide; rewrite ?filter_cons; case_decide; rewrite ?zlen_cons; lia.
Qed.

Lemma unsignaled_of_qp q l :
  Forall (fun y : nat * wreq => signaled y.2 = false) l ->
  filter (fun w => signaled w = true) (of_qp q l) = [].
Proof.
  induction 1 as [|[p w] l Hw _ IH]; [done|]. simpl in Hw. rewrite of_qp_cons.
  case_decide; [|done]. rewrite filter_cons, Hw. done.
Qed.

(** One completion, seen from queue pair [p]. *)
Lemma complete_of_qp l l1 q w l2 p :
  first_signaled l = Some (l1, (q, w), l2) ->
  exists done, of_qp p l = done ++ of_qp p (filter (fun x => x.1 <> q) l1 ++ l2) /\
    ends_signaled done /\
    (if decide (q = p) then [(w_one w, w_id w)] else []) =
      map (fun w => (w_one w, w_id w)) (filter (fun w => signaled w = true) done).
Proof.
  intros (-> & Hw & Hl1)%first_signaled_inv. simpl in Hw.
  rewrite !of_qp_app, of_qp_other. destruct (decide (p = q)) as [->|Hpq].
  - exists (of_qp q l1 ++ [w]). split; [|split].
    + rewrite of_qp_cons, decide_True by done. by rewrite <- app_assoc.
    + right. eauto.
    + rewrite filter_app, unsignaled_of_qp by done. rewrite filter_cons, Hw. by rewrite !decide_True.
  - exists []. split; [|split; [by left|by rewrite decide_False]].
    rewrite of_qp_cons. by rewrite decide_False.
Qed.

Lemma complete_load l l1 q w l2 :
  first_signaled l = Some (l1, (q, w), l2) ->
  load_of (filter (fun x => x.1 <> q) l1 ++ l2) = load_of l - 1.
Proof.
  intros (-> & Hw & Hl1)%first_signaled_inv. simpl in Hw.
  unfold load_of. rewrite !map_app, !nsig_eq. simpl.
  rewrite !nsig_none with (l := map snd l1) by by apply Forall_map.
  rewrite nsig_none. 2:{ apply Forall_map, Forall_forall. intros x [_ Hx]%list_elem_of_filter.
      by eapply (proj1 (Forall_forall _ _) Hl1). }
  unfold nsig. rewrite filter_cons, decide_True by done. rewrite zlen_cons. lia.
Qed.

Lemma first_signaled_none l : first_signaled l = None -> load_of l = 0.
Proof.
  unfold load_of, nsig. induction l as [|[q w] l IH]; simpl; [done|].
  destruct (signaled w) eqn:E; [done|].
  destruct (first_signaled l) as [[[] ?]|]; [done|]. intros _. rewrite filter_cons, E. simpl. auto.
Qed.

Lemma of_qp_recv p q b i l :
  of_qp p ((q, (b, i)) :: l) =
    recv_ids p [{| wr_id := RecvWr q b i; success := true |}] ++ of_qp p l.
Proof. rewrite of_qp_cons. unfold recv_ids. simpl. by case_decide. Qed.

#[export] Instance laws : VerbsLaws verbs.
Proof.
  refine {| in_flight (d : device) q := of_qp q (sends d);
            recv_queue (d : device) q := of_qp q (recvs d);
            cq_load (d : device) := load_of (sends d);
            cq_depth := 2 ^ 31 |}.
  - intros d q. apply nsig_of_qp.
  - intros d q ws r d' [= <- <-] _ _. simpl. rewrite of_qp_app, of_qp_pairs, decide_True by done.
    split; [done|]. split; [done|]. split; [|split; [done|]].
    + intros p Hp. rewrite of_qp_app, of_qp_pairs, decide_False by done. apply app_nil_r.
    + unfold load_of. rewrite map_app, nsig_eq, map_map, map_id. done.
  - intros d q rs r d' [= <- <-]. simpl. rewrite of_qp_app, of_qp_pairs, decide_True by done.
    split; [done|]. split; [done|]. split; [|done].
    intros p Hp. rewrite of_qp_app, of_qp_pairs, decide_False by done. apply app_nil_r.
  - intros d n r d' H Hn. simpl in H. unfold complete in H.
    destruct (first_signaled (sends d)) as [[[l1 [q w]] l2]|] eqn:E.
    + injection H as <- <-. eexists. split; [done|]. split; [done|]. split; [by repeat constructor|].
      simpl. rewrite (complete_load _ _ _ _ _ E). split; [done|]. split; [done|].
      intros p. destruct (complete_of_qp _ _ _ _ _ p E) as (D & E1 & E2 & E3).
      exists D. split; [done|]. split; [done|]. rewrite <- E3. unfold send_ids. simpl. by case_decide.
    + injection H as <- <-. exists []. split; [done|]. split; [unfold zlen; simpl; lia|].
      split; [done|]. split; [unfold zlen; simpl; lia|]. split; [done|].
      intros p. exists []. split; [done|]. split; [by left|done].
  - intros d n r d' H Hn. simpl in H. destruct (recvs d) as [|[q [b i]] l] eqn:E; injection H as <- <-.
    + exists []. split; [done|].
      split; [unfold zlen; simpl; lia|]. split; [by constructor|]. by rewrite E.
    + eexists. split; [done|]. split; [done|]. split; [by repeat constructor|].
      split; [done|]. split; [done|]. intros p. simpl. apply of_qp_recv.
Defined.

#[export] Instance progress : VerbsProgress verbs.
Proof.
  refine {| delay (d : device) := 0%nat |}.
  intros d d' n Hn Hl H. exfalso. simpl in H. unfold complete in H.
  destruct (first_signaled (sends d)) as [[[l1 [q w]] l2]|] eqn:E; [done|].
  apply first_signaled_none in E. simpl in Hl. lia.
Defined.

Definition empty : queues := {| sends := []; recvs := [] |}.

End QpDevice.
