(* ===== verification/QpCreditModel.v ===== *)
(** * The credits of the send buffers

    Module [QpCredit]: the invariant of the send side of [Qp], its preservation by
    every operation of the message path, and what follows from it: a buffer handed
    out is not in the hands of the device, the device is never asked for more than
    its queues hold, and when the wait for a buffer ends.  The one-sided requests,
    which kv and fs do not use, are absent from the runs considered here. *)

From S2P Require Import Prelude QpModel QpDeviceModel.

Module QpCredit.
Import Qp.

(** ** Lists of requests *)

(** The completions of [L] will credit all of it: the signal count of a signaled
    request is the number of requests since the previous one, [s] before [L]. *)
Fixpoint accounted (ss : list SingleWr) (s : Z) (L : list wreq) : Prop :=
  match L with
  | [] => True
  | w :: L =>
      exists sl, zget ss (w_id w) = Some sl /\
        if signaled w then
          signal_cnt (wr_info sl) = s + 1 /\ one_signal_cnt (wr_info sl) = 0 /\ accounted ss 0 L
        else accounted ss (s + 1) L
  end.

(** The number of requests after the last signaled one. *)
Fixpoint unsignaled (s : Z) (L : list wreq) : Z :=
  match L with
  | [] => s
  | w :: L => unsignaled (if signaled w then 0 else s + 1) L
  end.

Lemma accounted_app ss s L L' :
  accounted ss s (L ++ L') <-> accounted ss s L /\ accounted ss (unsignaled s L) L'.
Proof.
  revert s. induction L as [|w L IH]; intros s; simpl; [tauto|].
  destruct (signaled w); setoid_rewrite IH; firstorder.
Qed.

Lemma unsignaled_app s L L' : unsignaled s (L ++ L') = unsignaled (unsignaled s L) L'.
Proof. revert s. induction L; simpl; auto. Qed.

Lemma unsignaled_range s L : 0 <= s -> 0 <= unsignaled s L <= s + zlen L.
Proof.
  revert s. induction L as [|w L IH]; intros s Hs; simpl; [unfold zlen; simpl; lia|].
  rewrite zlen_cons. destruct (signaled w).
  - specialize (IH 0 ltac:(lia)). lia.
  - specialize (IH (s + 1) ltac:(lia)). lia.
Qed.

Lemma nsig_cons w L : nsig (w :: L) = (if signaled w then 1 else 0) + nsig L.
Proof.
  unfold nsig. rewrite filter_cons. destruct (signaled w) eqn:E.
  - rewrite decide_True by done. rewrite zlen_cons. lia.
  - rewrite decide_False by done. lia.
Qed.

Lemma nsig_app L L' : nsig (L ++ L') = nsig L + nsig L'.
Proof. unfold nsig, zlen. rewrite filter_app, length_app. lia. Qed.

Lemma nsig_nonneg L : 0 <= nsig L.
Proof. apply zlen_nonneg. Qed.

(** Without a signaled request nothing is credited. *)
Lemma unsignaled_all s L : nsig L = 0 -> unsignaled s L = s + zlen L.
Proof.
  revert s. induction L as [|w L IH]; intros s; simpl; [unfold zlen; simpl; lia|].
  rewrite nsig_cons, zlen_cons. pose proof (nsig_nonneg L).
  destruct (signaled w); [lia|]. intros. rewrite IH by lia. lia.
Qed.

Lemma ends_signaled_cons w L :
  ends_signaled (w :: L) -> (signaled w = true /\ L = []) \/ (L <> [] /\ ends_signaled L).
Proof.
  intros [?|(L' & x & E & Hx)]; [done|]. destruct L' as [|y L']; simplify_eq/=; [by left|].
  right. split; [by destruct L'|]. right. eauto.
Qed.

Lemma accounted_zset ss s L id x :
  Forall (fun w => w_id w <> id) L -> accounted ss s L -> accounted (zset ss id x) s L.
Proof.
  revert s. induction L as [|w L IH]; intros s; [done|].
  rewrite Forall_cons. intros [Hw HL] (sl & Hsl & H). simpl. exists sl.
  rewrite zget_zset_ne by done. split; [done|].
  destruct (signaled w); [destruct H as (? & ? & ?)|]; auto.
Qed.

(** ** The invariant of one queue pair *)

(** The position [i] places after [b] in a ring of 128. *)
Definition ring_pos (b i : Z) : Z := (b + i) mod kStaticSendBuf.

Lemma ring_pos_range b i : 0 <= ring_pos b i < kStaticSendBuf.
Proof. unfold ring_pos, kStaticSendBuf, kMaxSignal. lia. Qed.

Lemma ring_pos_inj b i j :
  ring_pos b i = ring_pos b j -> - kStaticSendBuf < i - j < kStaticSendBuf -> i = j.
Proof. unfold ring_pos, kStaticSendBuf, kMaxSignal. lia. Qed.

Definition slot_ok (q nc : nat) (s : SingleWr) : Prop :=
  qp (wr_info s) = q /\ forall c, coro_ctx (wr_info s) = Some c -> (c < nc)%nat.

(** The part of the invariant that polling needs: [L] are the requests the
    counter stands for, in the order they were posted. *)
Record creditable (q nc : nat) (p : QPInfo) (L : list wreq) : Prop := {
  cr_slots : zlen (slots (rpc_send p)) = kStaticSendBuf;
  cr_slot : Forall (slot_ok q nc) (slots (rpc_send p));
  cr_counter : counter (rpc_send p) = zlen L;
  cr_bound : zlen L <= kStaticSendBuf;
  cr_rpc : Forall (fun w => w_one w = false) L;
  cr_accounted : accounted (slots (rpc_send p)) 0 L;
  cr_one : counter (one_side p) = 0 }.

(** [L] is in flight, and the first requests [B] of the pending ones are prepared. *)
Record qp_ok (q nc : nat) (p : QPInfo) (L B : list wreq) : Prop := {
  qo_credit : creditable q nc p L;
  qo_type : 0 <= type p < LOGDCT;
  qo_pos : 0 <= buf_pos (rpc_send p) < kStaticSendBuf;
  qo_begin : begin_id (rpc_send p) = ring_pos (buf_pos (rpc_send p)) (- pending_cnt (rpc_send p));
  qo_batch : zlen B <= pending_cnt (rpc_send p);
  qo_window : zlen L + pending_cnt (rpc_send p) <= kStaticSendBuf;
  qo_ids : map w_id (L ++ B) =
    map (ring_pos (begin_id (rpc_send p) - zlen L)) (seqZ 0 (zlen L + zlen B));
  qo_accounted : accounted (slots (rpc_send p)) 0 (L ++ B);
  qo_bf : cnt_bf_signal (rpc_send p) = unsignaled 0 (L ++ B);
  qo_bf_bound : cnt_bf_signal (rpc_send p) < kMaxSignal;
  qo_one : pending_cnt (one_side p) = 0 /\ cnt_bf_signal (one_side p) = 0 }.

Definition credit_to (p : QPInfo) (L : list wreq) : QPInfo :=
  with_ring false p (with_counter (rpc_send p) (zlen L)).

Lemma creditable_credit q nc p done L :
  creditable q nc p (done ++ L) -> ends_signaled done -> creditable q nc (credit_to p L) L.
Proof.
  intros [H1 H2 H3 H4 H5 H6 H7] Hd.
  assert (E : zlen (done ++ L) = zlen done + zlen L) by (unfold zlen; rewrite length_app; lia).
  pose proof (zlen_nonneg done).
  split; simpl; try done; [lia|by apply Forall_app in H5 as []|].
  apply accounted_app in H6 as [_ H6].
  destruct Hd as [->|(d & w & -> & Hw)]; [done|].
  rewrite unsignaled_app in H6. simpl in H6. by rewrite Hw in H6.
Qed.

Lemma seqZ_drop n m : 0 <= n <= m -> drop (Z.to_nat n) (seqZ 0 m) = seqZ n (m - n).
Proof.
  intros. apply list_eq. intros i. rewrite lookup_drop.
  destruct (decide (Z.of_nat i < m - n)).
  - rewrite !lookup_seqZ_lt by lia. f_equal. lia.
  - rewrite !lookup_seqZ_ge by lia. done.
Qed.

Lemma qp_ok_credit q nc p done L B :
  qp_ok q nc p (done ++ L) B -> ends_signaled done -> qp_ok q nc (credit_to p L) L B.
Proof.
  intros [H1 H2 H3 H4 H5 H6 H7 H8 H9 H10 H11] Hd.
  assert (E : zlen (done ++ L) = zlen done + zlen L) by (unfold zlen; rewrite length_app; lia).
  pose proof (zlen_nonneg done). pose proof (zlen_nonneg L). pose proof (zlen_nonneg B).
  split; simpl; try done.
  - by eapply creditable_credit.
  - lia.
  - apply (f_equal (drop (length done))) in H7.
    rewrite <- app_assoc, map_app, drop_app_length' in H7 by by rewrite length_map.
    rewrite H7, <- fmap_drop.
    replace (length done) with (Z.to_nat (zlen done)) by (unfold zlen; lia).
    rewrite seqZ_drop by lia. apply list_eq. intros i.
    rewrite !list_lookup_fmap.
    destruct (decide (Z.of_nat i < zlen L + zlen B)).
    + rewrite !lookup_seqZ_lt by lia. simpl. f_equal. unfold ring_pos. f_equal. lia.
    + rewrite !lookup_seqZ_ge by lia. done.
  - rewrite <- app_assoc in H8. apply accounted_app in H8 as [_ H8].
    destruct Hd as [->|(d & w & -> & Hw)]; [done|].
    rewrite unsignaled_app in H8. simpl in H8. by rewrite Hw in H8.
  - rewrite H9, <- app_assoc, unsignaled_app.
    destruct Hd as [->|(d & w & -> & Hw)]; [done|].
    rewrite (unsignaled_app 0 d). simpl. by rewrite Hw.
Qed.

(** Prepares one more request. *)
Definition put_slot (p : QPInfo) (id : Z) (s : SingleWr) (bf : Z) : QPInfo :=
  with_ring false p (with_bf_signal (with_slot (rpc_send p) id s) bf).

(** The positions of [L] and [B] are before the next one to prepare. *)
Lemma fresh_id q nc p L B :
  qp_ok q nc p L B -> zlen B < kStaticSendBuf - zlen L ->
  Forall (fun w => w_id w <> ring_pos (begin_id (rpc_send p)) (zlen B)) (L ++ B).
Proof.
  intros H Hlt. apply Forall_forall. intros w Hw.
  apply (list_elem_of_fmap_2 w_id) in Hw. change (fmap w_id) with (map w_id) in Hw.
  rewrite (qo_ids _ _ _ _ _ H) in Hw. apply list_elem_of_fmap in Hw as (i & -> & Hi%elem_of_seqZ).
  replace (ring_pos (begin_id (rpc_send p)) (zlen B))
    with (ring_pos (begin_id (rpc_send p) - zlen L) (zlen L + zlen B))
    by (unfold ring_pos; f_equal; lia).
  intros E. apply ring_pos_inj in E; pose proof (zlen_nonneg L); pose proof (zlen_nonneg B); lia.
Qed.

Lemma slots_range q nc p L B i :
  qp_ok q nc p L B -> 0 <= i < kStaticSendBuf ->
  exists s, zget (slots (rpc_send p)) i = Some s /\ slot_ok q nc s.
Proof.
  intros [[H1 H2 _ _ _ _ _] _ _ _ _ _ _ _ _ _ _] Hi.
  destruct (zget_is_Some (slots (rpc_send p)) i) as [s Hs]; [lia|].
  exists s. split; [done|]. unfold zget in Hs. rewrite decide_True in Hs by lia.
  by eapply Forall_lookup_1.
Qed.

Lemma qp_ok_extend q nc p L B s' w bf' :
  qp_ok q nc p L B -> zlen B < pending_cnt (rpc_send p) ->
  w_id w = ring_pos (begin_id (rpc_send p)) (zlen B) -> w_one w = false ->
  slot_ok q nc s' ->
  (if signaled w then
     bf' = 0 /\ signal_cnt (wr_info s') = cnt_bf_signal (rpc_send p) + 1 /\
     one_signal_cnt (wr_info s') = 0
   else bf' = cnt_bf_signal (rpc_send p) + 1) ->
  bf' < kMaxSignal ->
  qp_ok q nc (put_slot p (w_id w) s' bf') L (B ++ [w]).
Proof.
  intros H Hlt Hid Hone Hs' Hsig Hbf.
  assert (Hfresh : Forall (fun x => w_id x <> w_id w) (L ++ B)).
  { rewrite Hid. eapply fresh_id; [done|]. pose proof (qo_window _ _ _ _ _ H). lia. }
  destruct H as [[G1 G2 G3 G4 G5 G6 G7] H2 H3 H4 H5 H6 H7 H8 H9 H10 H11].
  assert (Hr : 0 <= w_id w < kStaticSendBuf) by (rewrite Hid; apply ring_pos_range).
  assert (HB : zlen (B ++ [w]) = zlen B + 1) by (unfold zlen; rewrite length_app; simpl; lia).
  pose proof (zlen_nonneg L). pose proof (zlen_nonneg B).
  split; simpl; try done; [split; simpl; try done| | | |].
  - by rewrite zlen_zset.
  - by apply Forall_zset.
  - apply accounted_zset; [|done]. by apply Forall_app in Hfresh as [].
  - lia.
  - rewrite app_assoc, map_app, H7, HB. simpl.
    replace (zlen L + (zlen B + 1)) with (zlen L + zlen B + 1) by lia.
    rewrite (seqZ_app 0 (zlen L + zlen B) 1), map_app by lia. simpl. f_equal.
    rewrite Hid. unfold seqZ. simpl. f_equal. unfold ring_pos. f_equal. lia.
  - rewrite app_assoc. apply accounted_app. split; [by apply accounted_zset|].
    simpl. exists s'. split; [apply zget_zset_eq; lia|].
    rewrite <- H9. destruct (signaled w); [by destruct Hsig as (_ & ? & ?)|done].
  - rewrite app_assoc, unsignaled_app. simpl. rewrite <- H9. destruct (signaled w); tauto.
Qed.

(** ** Polling *)
Lemma credit_to_credit_to p L L' : credit_to (credit_to p L) L' = credit_to p L'.
Proof. done. Qed.

Lemma credit_to_same q nc p L : creditable q nc p L -> credit_to p L = p.
Proof. intros H. unfold credit_to. rewrite <- (cr_counter _ _ _ _ H). by destruct p as [? []]. Qed.

Lemma ends_signaled_app L L' : ends_signaled L -> ends_signaled L' -> ends_signaled (L ++ L').
Proof.
  intros HL [->|(L1 & w & -> & Hw)]; [by rewrite app_nil_r|].
  right. exists (L ++ L1), w. by rewrite app_assoc.
Qed.

Lemma ends_signaled_tail D1 w D2 : ends_signaled (D1 ++ w :: D2) -> ends_signaled D2.
Proof.
  intros [E|(D & x & E & Hx)]; [by destruct D1|].
  destruct D2 as [|y D2 _] using rev_ind; [by left|]. right.
  exists D2, y. split; [done|].
  rewrite app_comm_cons, app_assoc in E. by apply app_inj_tail in E as [_ ->].
Qed.

Lemma no_signaled_nil L : ends_signaled L -> filter (fun w => signaled w = true) L = [] -> L = [].
Proof.
  intros [?|(L' & w & -> & Hw)]; [done|].
  rewrite filter_app, filter_cons, decide_True by done. by intros [_ [=]]%app_nil.
Qed.

Lemma first_signaled L w fs :
  filter (fun w => signaled w = true) L = w :: fs ->
  exists L1 L2, L = L1 ++ w :: L2 /\ nsig L1 = 0 /\ signaled w = true /\
    filter (fun w => signaled w = true) L2 = fs.
Proof.
  induction L as [|x L IH]; [done|]. rewrite filter_cons. case_decide as Hx.
  - intros E. injection E as -> E. by exists [], L.
  - intros (L1 & L2 & -> & H1 & H2 & H3)%IH. exists (x :: L1), L2.
    rewrite nsig_cons. apply not_true_is_false in Hx. by rewrite Hx, H1.
Qed.

(** The credit of the first completion. *)
Lemma accounted_first ss L1 w L2 :
  accounted ss 0 (L1 ++ w :: L2) -> nsig L1 = 0 -> signaled w = true ->
  exists s, zget ss (w_id w) = Some s /\
    signal_cnt (wr_info s) = zlen L1 + 1 /\ one_signal_cnt (wr_info s) = 0.
Proof.
  intros [_ H]%accounted_app H1 Hw. rewrite unsignaled_all in H by done.
  destruct H as (s & Hs & H). rewrite Hw in H. exists s. destruct H as (? & ? & _).
  repeat split; [done|lia|done].
Qed.

(** An operation that may wait forever, but otherwise returns [P]. *)
Definition safe {A} (o : outcome A) (P : A -> Prop) : Prop :=
  o = Fault Diverges \/ exists a, o = Done a /\ P a.

Lemma safe_done {A} (a : A) (P : A -> Prop) : P a -> safe (Done a) P.
Proof. right. eauto. Qed.

Lemma safe_bind {A B} (o : outcome A) (k : A -> outcome B) (P : A -> Prop) (Q : B -> Prop) :
  safe o P -> (forall a, P a -> safe (k a) Q) -> safe (obind o k) Q.
Proof. intros [->|(a & -> & Ha)] Hk; [by left|]. by apply Hk. Qed.

Lemma safe_mono {A} (o : outcome A) (P Q : A -> Prop) :
  safe o P -> (forall a, P a -> Q a) -> safe o Q.
Proof. intros [->|(a & -> & Ha)] H; [by left|]. right. eauto. Qed.

Section laws.
Context {V : Verbs} {VL : VerbsLaws V}.
Implicit Types (st : agent) (q : nat).

(** What is left of [st] when completions have been polled. *)
Record same_but_credits (st st' : agent) : Prop := {
  sb_qps : length (qps st') = length (qps st);
  sb_coros : length (coro_ctxs st') = length (coro_ctxs st);
  sb_len : cq_len (send_cq st') = cq_len (send_cq st);
  sb_both : recv_cq_only (send_cq st') = recv_cq_only (send_cq st) }.

Lemma same_but_credits_trans st1 st2 st3 :
  same_but_credits st1 st2 -> same_but_credits st2 st3 -> same_but_credits st1 st3.
Proof. intros [] []. split; congruence. Qed.

Lemma credit_wc_ok st info p :
  qps st !! qp info = Some p ->
  (forall c, coro_ctx info = Some c -> (c < length (coro_ctxs st))%nat) ->
  exists cs, credit_wc st info = Done {|
    qps := <[qp info := with_ring false
             (with_ring true p (with_counter (one_side p) (wrap 32 (counter (one_side p) - one_signal_cnt info))))
             (with_counter (rpc_send p) (wrap 32 (counter (rpc_send p) - signal_cnt info)))]> (qps st);
    send_cq := {| cq_len := cq_len (send_cq st);
                  signal_counter := wrap 32 (signal_counter (send_cq st) - 1);
                  recv_cq_only := recv_cq_only (send_cq st) |};
    coro_ctxs := cs; dev := dev st |} /\ length cs = length (coro_ctxs st).
Proof.
  intros Hp Hc. unfold credit_wc, get_qp, get_coro. simpl.
  destruct (coro_ctx info) as [c|].
  - destruct (lookup_lt_is_Some_2 (coro_ctxs st) c) as [x Hx]; [by apply Hc|].
    rewrite Hx. simpl. rewrite Hp. simpl. eexists. split; [reflexivity|]. simpl. by rewrite length_insert.
  - simpl. rewrite Hp. simpl. by eexists.
Qed.

(** One completion, the first one left of queue pair [q]. *)
Lemma modify_one_ok st q one id p D L fs :
  qps st !! q = Some p ->
  creditable q (length (coro_ctxs st)) p (D ++ L) ->
  (one, id) :: fs = map (fun w => (w_one w, w_id w)) (filter (fun w => signaled w = true) D) ->
  1 <= signal_counter (send_cq st) < 2 ^ 32 ->
  exists st' D', modify_one st {| wr_id := SendWr q one id; success := true |} = Done st' /\
    qps st' = <[q := credit_to p (D' ++ L)]> (qps st) /\
    creditable q (length (coro_ctxs st')) (credit_to p (D' ++ L)) (D' ++ L) /\
    fs = map (fun w => (w_one w, w_id w)) (filter (fun w => signaled w = true) D') /\
    (ends_signaled D -> ends_signaled D') /\
    signal_counter (send_cq st') = signal_counter (send_cq st) - 1 /\
    dev st' = dev st /\ same_but_credits st st'.
Proof.
  intros Hp Hcr Hids Hsc.
  destruct (filter _ D) as [|w fs'] eqn:EF; [done|]. injection Hids as Ho Hi Hfs.
  apply first_signaled in EF as (D1 & D2 & -> & HD1 & Hw & HD2).
  pose proof Hcr as [H1 H2 H3 H4 H5 H6 H7]. rewrite <- app_assoc in *. simpl in *.
  destruct (accounted_first _ _ _ _ H6 HD1 Hw) as (s & Hs & Hcnt & Hone).
  assert (Hsl : slot_ok q (length (coro_ctxs st)) s).
  { unfold zget in Hs. case_decide; [|done]. by eapply Forall_lookup_1. }
  destruct Hsl as [Hq Hc]. destruct w as [wo wi wf ws]. simpl in *. subst wo wi.
  assert (Ho : one = false) by by apply Forall_app in H5 as [_ [? _]%Forall_cons].
  subst one.
  destruct (credit_wc_ok st (wr_info s) p) as (cs & E & Hcs); [by rewrite Hq|done|].
  eexists _, D2. split.
  { unfold modify_one. simpl. unfold get_qp. rewrite Hp. simpl. unfold load. rewrite Hs. simpl.
    rewrite E. done. }
  assert (EL : zlen (D1 ++ {| w_one := false; w_id := id; w_flags := wf; w_sges := ws |} :: D2 ++ L)
               = zlen D1 + 1 + zlen (D2 ++ L)).
  { unfold zlen. rewrite length_app, length_cons, length_app. lia. }
  pose proof (zlen_nonneg D1). pose proof (zlen_nonneg (D2 ++ L)).
  unfold kStaticSendBuf, kMaxSignal in H4.
  simpl. split; [|split; [|split; [|split; [|split; [|split]]]]].
  - rewrite Hq. f_equal. unfold credit_to. rewrite H7, Hone, Hcnt, H3, EL.
    replace (zlen D1 + 1 + zlen (D2 ++ L) - (zlen D1 + 1)) with (zlen (D2 ++ L)) by lia.
    unwrap. destruct p as [? ? o]; simpl in *. unfold with_ring, with_counter; simpl.
    destruct o; simpl in *; by subst.
  - rewrite Hcs. eapply creditable_credit with (done := D1 ++ [_]); [by rewrite <- app_assoc|].
    right. by eexists _, _.
  - by rewrite HD2.
  - apply ends_signaled_tail.
  - unwrap. lia.
  - done.
  - split; simpl; [by rewrite length_insert|done..].
Qed.

Lemma send_ids_cons q c cs :
  send_ids q (c :: cs) =
    match wr_id c with
    | SendWr q' one id => if decide (q' = q) then (one, id) :: send_ids q cs else send_ids q cs
    | RecvWr _ _ _ => send_ids q cs
    end.
Proof. unfold send_ids. simpl. destruct (wr_id c); [case_decide|]; done. Qed.

(** All completions of a poll: [D q] is what they complete, [L q] stays in flight. *)
Lemma modify_each_ok (L : nat -> list wreq) cs : forall st (D : nat -> list wreq),
  Forall (fun c => success c = true /\ is_send c = true) cs ->
  (forall q p, qps st !! q = Some p -> creditable q (length (coro_ctxs st)) p (D q ++ L q)) ->
  (forall q, ends_signaled (D q) /\
     send_ids q cs = map (fun w => (w_one w, w_id w)) (filter (fun w => signaled w = true) (D q))) ->
  (forall q, qps st !! q = None -> D q = []) ->
  zlen cs <= signal_counter (send_cq st) < 2 ^ 32 ->
  exists st', modify_each st cs = Done st' /\
    (forall q p, qps st !! q = Some p ->
       qps st' !! q = Some (credit_to p (L q)) /\
       creditable q (length (coro_ctxs st')) (credit_to p (L q)) (L q)) /\
    signal_counter (send_cq st') = signal_counter (send_cq st) - zlen cs /\
    dev st' = dev st /\ same_but_credits st st'.
Proof.
  induction cs as [|[r ok] cs IH]; intros st D Hcs Hcr HD Hnone Hsc.
  { exists st. split; [done|]. split; [|split; [unfold zlen; simpl; lia|done]].
    intros q p Hp. destruct (HD q) as [He Hids].
    symmetry in Hids. apply map_eq_nil, no_signaled_nil in Hids; [|done].
    specialize (Hcr q p Hp). rewrite Hids in Hcr. simpl in Hcr.
    by rewrite (credit_to_same _ _ _ _ Hcr). }
  apply Forall_cons in Hcs as [[Hok Hsend] Hcs]. simpl in Hok. subst ok.
  destruct r as [q one id|]; [|done]. rewrite zlen_cons in Hsc. pose proof (zlen_nonneg cs).
  destruct (HD q) as [He Hids]. rewrite send_ids_cons in Hids. simpl in Hids.
  rewrite decide_True in Hids by done.
  destruct (qps st !! q) as [p|] eqn:Hp; [|by rewrite (Hnone q Hp) in Hids].
  destruct (modify_one_ok st q one id p (D q) (L q) (send_ids q cs)) as
    (st1 & D' & E1 & Eq & Hcr1 & Hids1 & He1 & Hsc1 & Hdev1 & Hsame); [done|auto|done|lia|].
  destruct (IH st1 (fun q' => if decide (q' = q) then D' else D q')) as
    (st2 & E2 & Hq2 & Hsc2 & Hdev2 & Hsame2); clear IH.
  - done.
  - intros q' p'. rewrite Eq. case_decide as Hq.
    + subst q'. rewrite list_lookup_insert_eq by by eapply lookup_lt_Some. by intros [= <-].
    + rewrite list_lookup_insert_ne by done. rewrite (sb_coros _ _ Hsame). apply Hcr.
  - intros q'. case_decide as Hq; [subst; auto|]. destruct (HD q') as [H1 H2].
    rewrite send_ids_cons in H2. simpl in H2. rewrite decide_False in H2 by done. done.
  - intros q'. rewrite Eq. case_decide as Hq.
    + subst q'. rewrite list_lookup_insert_eq by by eapply lookup_lt_Some. done.
    + rewrite list_lookup_insert_ne by done. auto.
  - lia.
  - exists st2. simpl. rewrite E1. split; [done|]. split; [|split; [rewrite zlen_cons; lia|split]].
    + intros q' p' Hp'. destruct (decide (q' = q)) as [->|Hq].
      * rewrite Hp in Hp'. injection Hp' as <-.
        rewrite <- (credit_to_credit_to p (D' ++ L q)). apply Hq2.
        rewrite Eq. by rewrite list_lookup_insert_eq by by eapply lookup_lt_Some.
      * apply Hq2. rewrite Eq. by rewrite list_lookup_insert_ne.
    + congruence.
    + by eapply same_but_credits_trans.
Qed.

(** *** The polls of the send completion queue *)
Record credits (st : agent) : Prop := {
  cs_each : forall q p, qps st !! q = Some p ->
    creditable q (length (coro_ctxs st)) p (in_flight (dev st) q);
  cs_none : forall q, qps st !! q = None -> in_flight (dev st) q = [];
  cs_load : cq_load (dev st) <= signal_counter (send_cq st) < 2 ^ 32;
  cs_both : recv_cq_only (send_cq st) = false }.

Record polled (st st' : agent) : Prop := {
  po_same : same_but_credits st st';
  po_credits : credits st';
  po_sig : signal_counter (send_cq st') - cq_load (dev st') =
           signal_counter (send_cq st) - cq_load (dev st);
  po_load : cq_load (dev st') <= cq_load (dev st);
  po_recv : forall q, recv_queue (dev st') q = recv_queue (dev st) q;
  po_qps : forall q, exists done,
    in_flight (dev st) q = done ++ in_flight (dev st') q /\ ends_signaled done /\
    forall p, qps st !! q = Some p -> qps st' !! q = Some (credit_to p (in_flight (dev st') q)) }.

Lemma polled_refl st : credits st -> polled st st.
Proof.
  intros H. split; [done|done|done|done|done|]. intros q. exists []. split; [done|]. split; [by left|].
  intros p Hp. rewrite Hp. f_equal. symmetry. eapply credit_to_same, cs_each; done.
Qed.

Lemma polled_trans st1 st2 st3 : polled st1 st2 -> polled st2 st3 -> polled st1 st3.
Proof.
  intros [S1 C1 G1 L1 R1 Q1] [S2 C2 G2 L2 R2 Q2]. split; [by eapply same_but_credits_trans|done|lia|lia|congruence|].
  intros q. destruct (Q1 q) as (d1 & E1 & He1 & H1). destruct (Q2 q) as (d2 & E2 & He2 & H2).
  exists (d1 ++ d2). split; [by rewrite E1, E2, app_assoc|]. split; [by apply ends_signaled_app|].
  intros p Hp. by apply H1, H2 in Hp.
Qed.

Lemma zlen_send_nonneg (d : device) : 0 <= cq_load d.
Proof. pose proof (cq_load_le d 0). pose proof (nsig_nonneg (in_flight d 0)). lia. Qed.

(** A poll and the credits of what it returns. *)
Lemma poll_credits st n r d :
  credits st -> 1 <= n -> ibv_poll_cq (dev st) SendCq n = (r, d) ->
  exists cs st', r = Some cs /\ modify_send_qp_info_by_wc (with_dev st d) cs = Done st' /\
    polled st st' /\ zlen cs = cq_load (dev st) - cq_load (dev st') /\ zlen cs <= n /\ dev st' = d.
Proof.
  intros [C1 C2 C3 C4] Hn Hp.
  destruct (poll_send_law _ _ _ _ Hp Hn) as (cs & -> & Hlen & Hall & Hload & Hrecv & Hq).
  assert (HL : forall q, in_flight (dev st) q =
    take (length (in_flight (dev st) q) - length (in_flight d q)) (in_flight (dev st) q) ++ in_flight d q).
  { intros q. destruct (Hq q) as (D & E & _). rewrite E, length_app.
    rewrite take_app_length' by lia. done. }
  set (D q := take (length (in_flight (dev st) q) - length (in_flight d q)) (in_flight (dev st) q)).
  assert (HD : forall q, ends_signaled (D q) /\ send_ids q cs =
            map (fun w => (w_one w, w_id w)) (filter (fun w => signaled w = true) (D q))).
  { intros q. destruct (Hq q) as (D' & E & H1 & H2). unfold D.
    rewrite E, length_app, take_app_length' by lia. done. }
  pose proof (zlen_send_nonneg d). pose proof (zlen_nonneg cs).
  destruct (modify_each_ok (in_flight d) cs (with_dev st d) D) as (st' & E & Hst & Hsc & Hdev & Hsame).
  - done.
  - intros q p Hqp. unfold D. rewrite <- HL. by apply C1.
  - done.
  - intros q Hqp. unfold D. rewrite (C2 q Hqp). by rewrite take_nil.
  - simpl. lia.
  - simpl in Hdev. destruct Hsame as [Q1 Q2 Q3 Q4]. simpl in Q1, Q2, Q3, Q4.
    exists cs, st'. unfold modify_send_qp_info_by_wc. simpl. rewrite C4.
    split; [done|]. split; [done|]. rewrite Hdev. split; [|split; [lia|done]].
    split; simpl in *; try (rewrite Hdev).
    + by split.
    + split; try rewrite Hdev.
      * intros q p' Hp'. assert (Hlt : (q < length (qps st))%nat).
        { rewrite <- Q1. by eapply lookup_lt_Some. }
        apply lookup_lt_is_Some_2 in Hlt as [p Hqp].
        destruct (Hst q p Hqp) as [E1 E2]. rewrite Hp' in E1. by injection E1 as ->.
      * intros q Hnone. apply lookup_ge_None in Hnone. rewrite Q1 in Hnone.
        apply lookup_ge_None, C2 in Hnone. rewrite HL in Hnone. by apply app_nil in Hnone as [_ ?].
      * lia.
      * by rewrite Q4.
    + lia.
    + lia.
    + done.
    + intros q. exists (D q). split; [apply HL|]. split; [apply HD|]. intros p Hqp.
      by apply Hst.
Qed.

Lemma poll_cq_try_ok st n :
  credits st -> 1 <= n <= kMaxWcCnt ->
  exists cs st', poll_cq_try st n = Done (cs, st') /\ polled st st' /\
    zlen cs = cq_load (dev st) - cq_load (dev st').
Proof.
  intros Hc Hn. unfold poll_cq_try. rewrite decide_True by lia.
  destruct (ibv_poll_cq _ _ _) as [r d] eqn:E.
  destruct (poll_credits st n r d Hc ltac:(lia) E) as (cs & st' & -> & E' & Hp & Hl & _).
  rewrite E'. simpl. eauto.
Qed.

Lemma poll_cq_once_ok st :
  credits st ->
  exists c st', poll_cq_once st = Done (c, st') /\ polled st st' /\
    cq_load (dev st) - cq_load (dev st') = match c with Some _ => 1 | None => 0 end /\
    (c = None -> ibv_poll_cq (dev st) SendCq 1 = (Some [], dev st')).
Proof.
  intros Hc. unfold poll_cq_once. destruct (ibv_poll_cq _ _ _) as [r d] eqn:E.
  destruct (poll_credits st 1 r d Hc ltac:(lia) E) as (cs & st' & -> & E' & Hp & Hl & Hn & Hd).
  destruct cs as [|c cs].
  - unfold modify_send_qp_info_by_wc in E'. simpl in E'. rewrite (cs_both _ Hc) in E'.
    injection E' as <-. exists None. eexists. split; [done|]. split; [done|].
    unfold zlen in Hl. simpl in Hl. split; [simpl; lia|done].
  - rewrite E'. simpl. exists (Some c), st'. split; [done|]. split; [done|].
    rewrite zlen_cons in *. pose proof (zlen_nonneg cs). split; [lia|done].
Qed.

Lemma poll_cq_a_wc_ok fuel : forall st,
  credits st ->
  safe (poll_cq_a_wc fuel st) (fun r => polled st r.2 /\ cq_load (dev r.2) < cq_load (dev st)).
Proof.
  induction fuel as [|fuel IH]; intros st Hc; simpl; [by left|].
  destruct (poll_cq_once_ok _ Hc) as (c & st' & E & Hp & Hl & _). rewrite E. simpl.
  destruct c as [c|]; [apply safe_done; simpl; split; [done|lia]|].
  eapply safe_mono; [apply IH, (po_credits _ _ Hp)|].
  intros [? st''] [H1 H2]. simpl in *. split; [by eapply polled_trans|lia].
Qed.

(** The completion queue is never asked for more than it holds. *)
Lemma check_signal_ok fuel st :
  credits st -> signal_counter (send_cq st) <= cq_len (send_cq st) ->
  safe (check_signal fuel st) (fun st' =>
    polled st st' /\ signal_counter (send_cq st') < cq_len (send_cq st')).
Proof.
  intros Hc Hlen. unfold check_signal. case_match eqn:E; zbool.
  - destruct (poll_cq_try_ok st 16 Hc) as (cs & st1 & -> & Hp & Hl); [done|]. simpl.
    pose proof (po_sig _ _ Hp). rewrite <- (sb_len _ _ (po_same _ _ Hp)) in Hlen.
    destruct cs as [|c cs].
    + eapply safe_bind; [apply poll_cq_a_wc_ok, (po_credits _ _ Hp)|].
      intros [c st2] [Hp2 Hl2]. simpl in *. apply safe_done.
      split; [by eapply polled_trans|]. pose proof (po_sig _ _ Hp2).
      rewrite (sb_len _ _ (po_same _ _ Hp2)). pose proof (po_load _ _ Hp). lia.
    + apply safe_done. split; [done|]. rewrite zlen_cons in Hl. pose proof (zlen_nonneg cs). lia.
  - apply safe_done. split; [by apply polled_refl|]. lia.
Qed.

(** ** The invariant of the agent

    [B] are the requests of queue pair [q] prepared but not yet posted. *)
Definition batch (q : nat) (B : list wreq) (q' : nat) : list wreq :=
  if decide (q' = q) then B else [].

Record agent_ok (st : agent) (Bs : nat -> list wreq) (nb : Z) : Prop := {
  ao_qps : forall q p, qps st !! q = Some p ->
    qp_ok q (length (coro_ctxs st)) p (in_flight (dev st) q) (Bs q);
  ao_none : forall q, qps st !! q = None -> in_flight (dev st) q = [];
  ao_sig : signal_counter (send_cq st) = cq_load (dev st) + nb;
  ao_len : signal_counter (send_cq st) < cq_len (send_cq st) < 2 ^ 32;
  ao_depth : cq_len (send_cq st) <= cq_depth;
  ao_nb : 0 <= nb;
  ao_both : recv_cq_only (send_cq st) = false }.

Definition ok (st : agent) : Prop := agent_ok st (fun _ => []) 0.

Lemma agent_ok_credits st Bs nb : agent_ok st Bs nb -> credits st.
Proof.
  intros []. split; [|done| |done]; [intros q p Hp; by eapply qo_credit, ao_qps0|lia].
Qed.

Lemma agent_ok_polled st st' Bs nb : agent_ok st Bs nb -> polled st st' -> agent_ok st' Bs nb.
Proof.
  intros [A1 A2 A3 A4 A5 A6 A7] [[S1 S2 S3 S4] C G L R Q]. split; rewrite ?S3, ?S4; try done; try lia.
  - intros q p' Hp'. assert (Hq : (q < length (qps st))%nat)
      by (rewrite <- S1; by eapply lookup_lt_Some).
    apply lookup_lt_is_Some_2 in Hq as [p Hp]. destruct (Q q) as (done & E & He & H).
    rewrite (H p Hp) in Hp'. injection Hp' as <-. rewrite S2.
    eapply qp_ok_credit; [|done]. rewrite <- E. by apply A1.
  - intros q Hnone. destruct (Q q) as (done & E & _). rewrite A2 in E.
    + symmetry in E. by apply app_nil in E as [].
    + apply lookup_ge_None. rewrite <- S1. by apply lookup_ge_None.
Qed.

(** ** Posting a batch *)
Lemma update_slot_done st q one id f p s :
  qps st !! q = Some p -> zget (slots (ring one p)) id = Some s ->
  update_slot st q one id f = Done (with_qp st q (with_ring one p (with_slot (ring one p) id (f s)))).
Proof. intros Hp Hs. unfold update_slot, get_qp. rewrite Hp. simpl. by rewrite (load_in_range _ _ _ Hs). Qed.

(** The slot when it has been linked and counted. *)
Definition numbered (s : SingleWr) (nx : option Z) (bf : Z) : SingleWr :=
  let s := with_wr s (with_next (wr s) nx) in
  if (bf =? kMaxSignal) && negb (is_signaled (send_flags (wr s)))
  then add_flags s IBV_SEND_SIGNALED else s.

Lemma with_qp_with_qp st q p p' : with_qp (with_qp st q p) q p' = with_qp st q p'.
Proof. unfold with_qp. simpl. by rewrite list_insert_insert_eq. Qed.

Lemma lookup_with_qp st q p p' : qps st !! q = Some p -> qps (with_qp st q p') !! q = Some p'.
Proof. intros H. simpl. apply list_lookup_insert_eq. by eapply lookup_lt_Some. Qed.

Lemma number_wr_done st q id nx p s :
  qps st !! q = Some p -> zget (slots (rpc_send p)) id = Some s ->
  0 <= cnt_bf_signal (rpc_send p) < kMaxSignal -> cnt_bf_signal (one_side p) = 0 ->
  number_wr st q false id nx =
    Done (with_qp st q (put_slot p id (numbered s nx (cnt_bf_signal (rpc_send p) + 1))
                                 (cnt_bf_signal (rpc_send p) + 1))).
Proof.
  intros Hp Hs Hbf Hone. unfold number_wr, kMaxSignal in *.
  pose proof (zget_Some_range _ _ _ Hs).
  rewrite (update_slot_done st q false id _ p s Hp Hs). simpl. unfold get_qp.
  rewrite (lookup_with_qp _ _ _ _ Hp). simpl.
  rewrite (load_in_range _ _ (with_wr s (with_next (wr s) nx))) by (by apply zget_zset_eq). simpl.
  rewrite with_qp_with_qp, Hone. unwrap. rewrite Z.add_0_r. unfold numbered, kMaxSignal. simpl.
  match goal with |- (if ?b then _ else _) = _ => destruct b end; [|done].
  erewrite update_slot_done; [|by eapply lookup_with_qp|simpl; by apply zget_zset_eq].
  rewrite with_qp_with_qp. unfold put_slot, with_slot, with_bf_signal. simpl. by rewrite zset_zset.
Qed.

(** A prepared request: slot [s] holds it, [s0] is the slot before. *)
Definition sges (s : SingleWr) : list ibv_sge := take (Z.to_nat (num_sge (wr s))) [sg_list s].

Record request (s0 s : SingleWr) (nx : option Z) (w : wreq) : Prop := {
  rq_one : w_one w = false;
  rq_flags : w_flags w = send_flags (wr s);
  rq_sges : w_sges w = sges s;
  rq_same : sg_list s = sg_list s0 /\ num_sge (wr s) = num_sge (wr s0);
  rq_next : next (wr s) = nx;
  rq_sig : is_signaled (send_flags (wr s0)) = true -> signaled w = true;
  rq_info : qp (wr_info s) = qp (wr_info s0) /\ coro_ctx (wr_info s) = coro_ctx (wr_info s0) }.

Definition mk_request (id : Z) (s : SingleWr) : wreq :=
  {| w_one := false; w_id := id; w_flags := send_flags (wr s); w_sges := sges s |}.

Lemma lor_signaled f : is_signaled (Z.lor f IBV_SEND_SIGNALED) = true.
Proof.
  unfold is_signaled, IBV_SEND_SIGNALED. rewrite negb_true_iff, Z.eqb_neq.
  change 2 with (Z.shiftl 1 1). apply land_bit_ne_0; [done|]. by rewrite lor_bit.
Qed.

Lemma numbered_request s nx bf id :
  request s (numbered s nx bf) nx (mk_request id (numbered s nx bf)) /\
  (bf = kMaxSignal -> signaled (mk_request id (numbered s nx bf)) = true).
Proof.
  unfold numbered. match goal with |- context [if ?b then _ else _] => destruct b eqn:E end.
  - split; [split; try done; simpl; intros; apply lor_signaled|]. intros _. apply lor_signaled.
  - split; [by split|]. intros ->. unfold signaled. simpl in *.
    by apply negb_false_iff in E.
Qed.

Lemma creditable_put_slot q nc p L id s bf :
  creditable q nc p L -> Forall (fun w => w_id w <> id) L -> slot_ok q nc s ->
  creditable q nc (put_slot p id s bf) L.
Proof.
  intros [] HL Hs. split; simpl; try done.
  - by rewrite zlen_zset.
  - by apply Forall_zset.
  - by apply accounted_zset.
Qed.

Lemma put_slot_twice p id s bf s' bf' : put_slot (put_slot p id s bf) id s' bf' = put_slot p id s' bf'.
Proof. unfold put_slot, with_slot, with_bf_signal. simpl. by rewrite zset_zset. Qed.

Lemma credit_put_slot p id s bf L : credit_to (put_slot p id s bf) L = put_slot (credit_to p L) id s bf.
Proof. done. Qed.

Lemma credits_signal_counter st c :
  credits st -> cq_load (dev st) <= c < 2 ^ 32 -> credits (with_signal_counter st c).
Proof. intros []. by split. Qed.

Definition accounting (st : agent) (q : nat) (id : Z) (p : QPInfo) (s : SingleWr) (st' : agent) : Prop :=
  if is_signaled (send_flags (wr s)) then
    exists st2, polled (with_signal_counter st (signal_counter (send_cq st) + 1)) st2 /\
      signal_counter (send_cq st2) < cq_len (send_cq st2) /\
      st' = with_qp st2 q (put_slot (credit_to p (in_flight (dev st2) q)) id
              (set_one_signal_cnt (set_signal_cnt s (cnt_bf_signal (rpc_send p))) 0) 0)
  else st' = st.

Lemma account_wr_ok fuel st q id p s :
  credits st -> qps st !! q = Some p -> zget (slots (rpc_send p)) id = Some s ->
  signal_counter (send_cq st) < cq_len (send_cq st) < 2 ^ 32 -> cnt_bf_signal (one_side p) = 0 ->
  safe (account_wr fuel st q false id) (accounting st q id p s).
Proof.
  intros Hc Hp Hs Hsc Hone. pose proof (zget_Some_range _ _ _ Hs).
  pose proof (cs_load _ Hc). pose proof (zlen_send_nonneg (dev st)).
  unfold account_wr, accounting, get_qp. rewrite Hp. simpl. rewrite (load_in_range _ _ _ Hs). simpl.
  destruct (is_signaled _); [|by apply safe_done]. unwrap.
  eapply safe_bind.
  { apply check_signal_ok; [apply credits_signal_counter; [done|lia]|simpl; lia]. }
  intros st2 [Hpo Hlen]. destruct (po_qps _ _ Hpo q) as (done & _ & _ & Hq).
  specialize (Hq p Hp). rewrite Hq. simpl.
  rewrite (update_slot_done st2 q false id _ _ s Hq) by done. simpl.
  rewrite list_lookup_insert_eq by by eapply lookup_lt_Some. simpl. rewrite with_qp_with_qp.
  apply safe_done. exists st2. split; [done|]. split; [done|]. f_equal.
  unfold put_slot, with_ring. simpl. rewrite Hone.
  destruct p as [? ? [? ? ? ? b ?]]; simpl in *. by subst b.
Qed.

(** The state [st] of a post of the pending messages of [q] that began in [st0],
    the first of them prepared as [B]. *)
Record generating (st0 : agent) (q : nat) (p0 : QPInfo) (B : list wreq) (st : agent) : Prop := {
  ge_ok : agent_ok st (batch q B) (nsig B);
  ge_init : ok st0 /\ qps st0 !! q = Some p0;
  ge_same : same_but_credits st0 st;
  ge_recv : forall q', recv_queue (dev st) q' = recv_queue (dev st0) q';
  ge_flight : forall q', exists done,
    in_flight (dev st0) q' = done ++ in_flight (dev st) q' /\ ends_signaled done;
  ge_others : forall q' p', q' <> q -> qps st0 !! q' = Some p' ->
    qps st !! q' = Some (credit_to p' (in_flight (dev st) q'));
  ge_qp : exists p, qps st !! q = Some p /\
    type p = type p0 /\ buf_pos (rpc_send p) = buf_pos (rpc_send p0) /\
    pending_cnt (rpc_send p) = pending_cnt (rpc_send p0) /\
    begin_id (rpc_send p) = begin_id (rpc_send p0) /\ one_side p = one_side p0 /\
    forall i, 0 <= i < kStaticSendBuf ->
      let id := ring_pos (begin_id (rpc_send p0)) i in
      exists s0 s, zget (slots (rpc_send p0)) id = Some s0 /\ zget (slots (rpc_send p)) id = Some s /\
        match zget B i with
        | Some w => request s0 s (link (pending_cnt (rpc_send p0)) i (ring_pos (begin_id (rpc_send p0)) (i + 1))) w
                    /\ w_id w = id
        | None => s = s0
        end }.

Lemma zget_ge {A} (l : list A) i : zlen l <= i -> zget l i = None.
Proof. unfold zget, zlen. intros. case_decide; [|done]. apply lookup_ge_None. lia. Qed.

Lemma zget_snoc {A} (l : list A) x i :
  zget (l ++ [x]) i = if decide (i = zlen l) then Some x else zget l i.
Proof.
  unfold zget, zlen. repeat case_decide; try lia; try done.
  - rewrite lookup_app_r by lia. by replace (Z.to_nat i - length l)%nat with 0%nat by lia.
  - destruct (decide (Z.to_nat i < length l)%nat).
    + by rewrite lookup_app_l by lia.
    + rewrite !(proj2 (lookup_ge_None _ _)); [done|lia|rewrite length_app; simpl; lia].
Qed.

Lemma request_slot_ok q nc s0 s nx w : request s0 s nx w -> slot_ok q nc s0 -> slot_ok q nc s.
Proof. intros [_ _ _ _ _ _ [E1 E2]] [H1 H2]. split; [congruence|]. rewrite E2. apply H2. Qed.

(** Queue pair [q] changes, and completions are polled. *)
Lemma agent_ok_set st st2 q p1 p2 Bs Bs' nb nb' :
  agent_ok st Bs nb -> (q < length (qps st))%nat ->
  polled (with_signal_counter (with_qp st q p1) (cq_load (dev st) + nb')) st2 ->
  signal_counter (send_cq st2) < cq_len (send_cq st2) -> 0 <= nb' ->
  qp_ok q (length (coro_ctxs st)) p2 (in_flight (dev st2) q) (Bs' q) ->
  (forall q', q' <> q -> Bs' q' = Bs q') ->
  agent_ok (with_qp st2 q p2) Bs' nb'.
Proof.
  intros [A1 A2 A3 A4 A5 A6 A7] Hlt [[S1 S2 S3 S4] C G L R Q] Hlen Hnb Hq HB. simpl in *.
  rewrite length_insert in S1.
  split; simpl; rewrite ?length_insert, ?S2, ?S3, ?S4; try done; try lia.
  - intros q' p'. destruct (decide (q' = q)) as [->|Hne].
    + rewrite list_lookup_insert_eq by lia. by intros [= <-].
    + rewrite list_lookup_insert_ne by done. intros Hp2.
      assert (Hq' : (q' < length (qps st))%nat) by (rewrite <- S1; by eapply lookup_lt_Some).
      apply lookup_lt_is_Some_2 in Hq' as [p Hp]. destruct (Q q') as (D & E & HD & HQ).
      rewrite (HQ p) in Hp2 by by rewrite list_lookup_insert_ne. injection Hp2 as <-.
      rewrite HB by done. eapply qp_ok_credit; [|done]. rewrite <- E. by apply A1.
  - intros q' HN%lookup_ge_None. rewrite length_insert, S1 in HN.
    destruct (Q q') as (D & E & _). rewrite (A2 q' (proj2 (lookup_ge_None _ _) HN)) in E.
    symmetry in E. by apply app_nil in E as [].
Qed.

Lemma generating_extend st0 q p0 B st p s0 sx bfx s' bf' w st2 :
  generating st0 q p0 B st -> qps st !! q = Some p -> zlen B < pending_cnt (rpc_send p0) ->
  w_id w = ring_pos (begin_id (rpc_send p0)) (zlen B) ->
  zget (slots (rpc_send p0)) (w_id w) = Some s0 -> zget (slots (rpc_send p)) (w_id w) = Some s0 ->
  polled (with_signal_counter (with_qp st q (put_slot p (w_id w) sx bfx))
            (signal_counter (send_cq st) + nsig [w])) st2 ->
  signal_counter (send_cq st2) < cq_len (send_cq st2) ->
  request s0 s' (link (pending_cnt (rpc_send p0)) (zlen B) (ring_pos (begin_id (rpc_send p0)) (zlen B + 1))) w ->
  (if signaled w then
     bf' = 0 /\ signal_cnt (wr_info s') = cnt_bf_signal (rpc_send p) + 1 /\
     one_signal_cnt (wr_info s') = 0
   else bf' = cnt_bf_signal (rpc_send p) + 1) ->
  bf' < kMaxSignal ->
  generating st0 q p0 (B ++ [w])
    (with_qp st2 q (put_slot (credit_to p (in_flight (dev st2) q)) (w_id w) s' bf')).
Proof.
  intros [Hok Hinit Hsame Hrecv Hfl Hoth Hqp] Hp Hlt Hid Hs0 Hs Hpo Hlen Hrq Hsig Hbf.
  destruct Hqp as (p' & Hp' & Ht & Hpos & Hpend & Hbeg & Hone & Hsl).
  rewrite Hp in Hp'. injection Hp' as <-.
  destruct (Hpo) as [[S1 S2 S3 S4] _ _ _ R Q]. simpl in S1, S2, S3, S4, R, Q.
  rewrite length_insert in S1. pose proof (ao_qps _ _ _ Hok q p Hp) as Hq.
  destruct (Q q) as (D & ED & HD & HQ). rewrite ED in Hq.
  assert (Hq2 : qps st2 !! q = Some (put_slot (credit_to p (in_flight (dev st2) q)) (w_id w) sx bfx)).
  { rewrite (HQ (put_slot p (w_id w) sx bfx)); [done|].
    apply list_lookup_insert_eq. by eapply lookup_lt_Some. }
  assert (Hslot : slot_ok q (length (coro_ctxs st)) s0).
  { destruct (slots_range q _ p _ _ (w_id w) Hq) as (s1 & E & ?); [rewrite Hid; apply ring_pos_range|].
    rewrite Hs in E. by injection E as ->. }
  pose proof (qp_ok_credit _ _ _ _ _ _ Hq HD) as Hc. unfold batch in Hc.
  rewrite decide_True in Hc by done.
  assert (Hext : qp_ok q (length (coro_ctxs st))
     (put_slot (credit_to p (in_flight (dev st2) q)) (w_id w) s' bf') (in_flight (dev st2) q) (B ++ [w])).
  { apply qp_ok_extend; simpl; try done; [lia|by rewrite Hbeg|apply Hrq|by eapply request_slot_ok]. }
  split; simpl.
  - replace (signal_counter (send_cq st) + nsig [w]) with (cq_load (dev st) + nsig (B ++ [w])) in Hpo
      by (rewrite nsig_app, (ao_sig _ _ _ Hok); lia).
    eapply agent_ok_set; [done| |done|done|apply nsig_nonneg| |].
    + by eapply lookup_lt_Some.
    + unfold batch. by rewrite decide_True.
    + intros q' Hne. unfold batch. by rewrite !decide_False.
  - done.
  - destruct Hsame. split; simpl; rewrite ?length_insert; congruence.
  - intros q'. rewrite R. apply Hrecv.
  - intros q'. destruct (Hfl q') as (D1 & E1 & H1). destruct (Q q') as (D' & E' & HD' & _).
    exists (D1 ++ D'). rewrite E1, E', app_assoc. split; [done|by apply ends_signaled_app].
  - intros q' p' Hne Hp'. rewrite list_lookup_insert_ne by done.
    specialize (Hoth q' p' Hne Hp'). destruct (Q q') as (_ & _ & _ & HQ').
    rewrite (HQ' (credit_to p' (in_flight (dev st) q'))) by by rewrite list_lookup_insert_ne.
    done.
  - eexists. split; [apply list_lookup_insert_eq; by eapply lookup_lt_Some|]. simpl.
    repeat (split; [done|]). intros i Hi.
    destruct (Hsl i Hi) as (si & s1 & H1 & H2 & H3). rewrite zget_snoc. case_decide as Hiz.
    + subst i. rewrite Hid in Hs0, Hs. exists s0, s'. split; [done|]. split.
      * rewrite Hid. apply zget_zset_eq. by eapply zget_Some_range.
      * done.
    + exists si, s1. split; [done|]. split; [|done].
      rewrite Hid, zget_zset_ne; [done|]. intros E. apply ring_pos_inj in E; [lia|].
      pose proof (qo_window _ _ _ _ _ Hc). simpl in *. pose proof (zlen_nonneg B).
      pose proof (zlen_nonneg (in_flight (dev st2) q)). lia.
Qed.

Lemma with_signal_counter_id st : with_signal_counter st (signal_counter (send_cq st)) = st.
Proof. by destruct st as [? [] ? ?]. Qed.

Lemma nsig_one w : nsig [w] = if signaled w then 1 else 0.
Proof. rewrite nsig_cons. destruct (signaled w); done. Qed.

(** The slot of the next request, as it was when the post began. *)
Lemma generating_slot st0 q p0 B st :
  generating st0 q p0 B st -> zlen B < pending_cnt (rpc_send p0) ->
  let id := ring_pos (begin_id (rpc_send p0)) (zlen B) in
  exists p s0, qps st !! q = Some p /\
    qp_ok q (length (coro_ctxs st)) p (in_flight (dev st) q) B /\
    begin_id (rpc_send p) = begin_id (rpc_send p0) /\
    pending_cnt (rpc_send p) = pending_cnt (rpc_send p0) /\
    zget (slots (rpc_send p0)) id = Some s0 /\ zget (slots (rpc_send p)) id = Some s0 /\
    slot_ok q (length (coro_ctxs st)) s0.
Proof.
  intros [Hok _ _ _ _ _ (p & Hp & _ & _ & Hpend & Hbeg & _ & Hsl)] Hlt id.
  pose proof (ao_qps _ _ _ Hok q p Hp) as Hq. unfold batch in Hq. rewrite decide_True in Hq by done.
  pose proof (qo_window _ _ _ _ _ Hq). pose proof (zlen_nonneg B).
  pose proof (zlen_nonneg (in_flight (dev st) q)).
  destruct (Hsl (zlen B) ltac:(lia)) as (s0 & s1 & Hs0 & Hs & E).
  rewrite zget_ge in E by lia. subst s1. exists p, s0. do 6 (split; [done|]).
  destruct (slots_range q _ p _ _ id Hq) as (s2 & E & ?); [apply ring_pos_range|].
  subst id. rewrite Hs in E. by injection E as ->.
Qed.

Lemma credits_put_slot st Bs nb q p s bf :
  agent_ok st Bs nb -> qps st !! q = Some p ->
  qp_ok q (length (coro_ctxs st)) p (in_flight (dev st) q) (Bs q) ->
  zlen (Bs q) < pending_cnt (rpc_send p) -> slot_ok q (length (coro_ctxs st)) s ->
  credits (with_qp st q (put_slot p (ring_pos (begin_id (rpc_send p)) (zlen (Bs q))) s bf)).
Proof.
  intros Hok Hp Hq Hlt Hs. destruct (agent_ok_credits _ _ _ Hok) as [C1 C2 C3 C4].
  split; simpl; try done.
  - intros q' p'. destruct (decide (q' = q)) as [->|Hne].
    + rewrite list_lookup_insert_eq by by eapply lookup_lt_Some. intros [= <-].
      apply creditable_put_slot; [apply Hq| |done].
      pose proof (qo_window _ _ _ _ _ Hq).
      assert (HF : Forall (fun w => w_id w <> ring_pos (begin_id (rpc_send p)) (zlen (Bs q)))
        (in_flight (dev st) q ++ Bs q)) by (eapply fresh_id; [done|lia]).
      by apply Forall_app in HF as [].
    + rewrite list_lookup_insert_ne by done. apply C1.
  - intros q' HN%lookup_ge_None. rewrite length_insert in HN. by apply C2, lookup_ge_None.
Qed.

(** The slot when the request has been accounted. *)
Definition account_slot (s : SingleWr) (bf : Z) : SingleWr :=
  if is_signaled (send_flags (wr s)) then set_one_signal_cnt (set_signal_cnt s bf) 0 else s.

Lemma account_request s0 s nx id bf :
  request s0 s nx (mk_request id s) -> request s0 (account_slot s bf) nx (mk_request id s).
Proof. unfold account_slot. intros []. case_match; by split. Qed.

(** One iteration of the loop prepares one request. *)
Lemma generate_wr_ok fuel st0 q p0 B st :
  generating st0 q p0 B st -> zlen B < pending_cnt (rpc_send p0) ->
  safe (generate_wr fuel st q (begin_id (rpc_send p0)) (pending_cnt (rpc_send p0)) false false (zlen B))
    (fun st' => exists w, generating st0 q p0 (B ++ [w]) st').
Proof.
  intros Hg Hlt.
  destruct (generating_slot _ _ _ _ _ Hg Hlt) as (p & s0 & Hp & Hq & Hbeg & Hpend & Hs0 & Hs & Hslot).
  pose proof (ge_ok _ _ _ _ _ Hg) as Hok.
  unfold generate_wr, kMaxWr. set (nx := link _ _ _).
  replace ((zlen B + begin_id (rpc_send p0)) mod kStaticSendBuf)
    with (ring_pos (begin_id (rpc_send p0)) (zlen B)) by (unfold ring_pos; f_equal; lia).
  pose proof (qo_bf_bound _ _ _ _ _ Hq) as Hbf. pose proof (qo_bf _ _ _ _ _ Hq) as Ebf.
  pose proof (unsignaled_range 0 (in_flight (dev st) q ++ B) ltac:(lia)).
  destruct (qo_one _ _ _ _ _ Hq) as [_ Hone].
  set (id := ring_pos _ (zlen B)) in *.
  rewrite (number_wr_done st q id nx p s0) by (done || lia). rewrite obind_done.
  set (bf := cnt_bf_signal (rpc_send p) + 1) in *.
  destruct (numbered_request s0 nx bf id) as [Hrq Hforce].
  set (s1 := numbered s0 nx bf) in *. set (w := mk_request id s1) in *.
  assert (Hc1 : credits (with_qp st q (put_slot p id s1 bf))).
  { pose proof (credits_put_slot st _ _ q p s1 bf Hok Hp) as Hc. unfold batch in Hc.
    rewrite decide_True, Hbeg in Hc by done. apply Hc; [done|lia|by eapply request_slot_ok]. }
  assert (Hp1 : qps (with_qp st q (put_slot p id s1 bf)) !! q = Some (put_slot p id s1 bf))
    by by eapply lookup_with_qp.
  eapply safe_bind.
  { eapply account_wr_ok; [exact Hc1|exact Hp1| |apply Hok|done].
    simpl. apply zget_zset_eq. by eapply zget_Some_range. }
  intros st' Hacc. apply safe_done. exists w.
  assert (Hnx : nx = link (pending_cnt (rpc_send p0)) (zlen B) (ring_pos (begin_id (rpc_send p0)) (zlen B + 1))).
  { unfold nx, ring_pos. do 2 f_equal. lia. }
  pose proof (ao_len _ _ _ Hok). pose proof (cs_load _ Hc1) as Hload. simpl in Hload.
  assert (Hst' : exists st2, polled (with_signal_counter (with_qp st q (put_slot p id s1 bf))
              (signal_counter (send_cq st) + nsig [w])) st2 /\
            signal_counter (send_cq st2) < cq_len (send_cq st2) /\
            st' = with_qp st2 q (put_slot (credit_to p (in_flight (dev st2) q)) id (account_slot s1 bf)
                     (if signaled w then 0 else bf))).
  { rewrite nsig_one. unfold accounting in Hacc. unfold account_slot. change (signaled w) with (is_signaled (send_flags (wr s1))).
    destruct (is_signaled (send_flags (wr s1))).
    - destruct Hacc as (st2 & H1 & H2 & ->). exists st2. split; [done|]. split; [done|].
      f_equal. unfold put_slot, with_slot, with_bf_signal. simpl. by rewrite zset_zset.
    - exists (with_qp st q (put_slot p id s1 bf)). rewrite Z.add_0_r.
      change (signal_counter (send_cq st)) with (signal_counter (send_cq (with_qp st q (put_slot p id s1 bf)))).
      rewrite with_signal_counter_id. split; [by apply polled_refl|]. split; [simpl; lia|].
      rewrite with_qp_with_qp, Hacc. simpl. by rewrite (credit_to_same _ _ _ _ (qo_credit _ _ _ _ _ Hq)). }
  destruct Hst' as (st2 & Hpo & Hlen & ->).
  eapply (generating_extend st0 q p0 B st p s0 s1 bf _ _ w st2);
    [done|done|done|done|done|done|exact Hpo|done| | |].
  - rewrite <- Hnx. by apply account_request.
  - unfold account_slot. change (signaled w) with (is_signaled (send_flags (wr s1))).
    destruct (is_signaled (send_flags (wr s1))); done.
  - destruct (signaled w) eqn:Ew; [done|]. destruct (decide (bf = kMaxSignal)); [|lia].
    specialize (Hforce ltac:(done)). congruence.
Qed.

Lemma zlen_snoc {A} (l : list A) x : zlen (l ++ [x]) = zlen l + 1.
Proof. unfold zlen. rewrite length_app. simpl. lia. Qed.

Lemma generate_ok fuel st0 q p0 n : forall B st,
  generating st0 q p0 B st -> Z.of_nat n = pending_cnt (rpc_send p0) - zlen B ->
  safe (generate fuel st q (begin_id (rpc_send p0)) (pending_cnt (rpc_send p0)) false false (zlen B) n)
    (fun st' => exists B', generating st0 q p0 B' st' /\ zlen B' = pending_cnt (rpc_send p0)).
Proof.
  induction n as [|n IH]; intros B st Hg Hn; cbn [generate].
  - apply safe_done. exists B. split; [done|lia].
  - eapply safe_bind; [apply generate_wr_ok; [done|lia]|].
    intros st' [w Hg']. rewrite <- (zlen_snoc B w). apply IH; [done|]. rewrite zlen_snoc. lia.
Qed.

Lemma batch_nil q q' : batch q [] q' = [].
Proof. unfold batch. by case_decide. Qed.

Lemma agent_ok_ext st Bs Bs' nb : (forall q, Bs q = Bs' q) -> agent_ok st Bs nb -> agent_ok st Bs' nb.
Proof. intros H []. split; try done. intros. rewrite <- H. auto. Qed.

Lemma generating_init st q p : ok st -> qps st !! q = Some p -> generating st q p [] st.
Proof.
  intros Hok Hp. split; try done.
  - eapply agent_ok_ext; [|exact Hok]. intros. by rewrite batch_nil.
  - intros q'. exists []. split; [done|by left].
  - intros q' p' _ Hp'. rewrite Hp'. f_equal. symmetry. eapply credit_to_same, qo_credit.
    by apply (ao_qps _ _ _ Hok).
  - exists p. do 6 (split; [done|]). intros i Hi id.
    destruct (zget_is_Some (slots (rpc_send p)) id) as [s Hs].
    { rewrite (cr_slots _ _ _ _ (qo_credit _ _ _ _ _ (ao_qps _ _ _ Hok q p Hp))). apply ring_pos_range. }
    exists s, s. do 2 (split; [done|]). by rewrite zget_ge by (unfold zlen; simpl; lia).
Qed.

Lemma zget_drop {A} (l : list A) i x :
  zget l i = Some x -> drop (Z.to_nat i) l = x :: drop (Z.to_nat (i + 1)) l.
Proof.
  unfold zget. case_decide; [|done]. intros H1. rewrite (drop_S _ _ _ H1). do 2 f_equal. lia.
Qed.

(** The list of requests the code links is the batch. *)
Lemma chain_ok st0 q p0 B st p :
  generating st0 q p0 B st -> zlen B = pending_cnt (rpc_send p0) -> qps st !! q = Some p ->
  forall fuel i, 0 <= i < zlen B -> zlen B - i <= Z.of_nat fuel ->
  chain fuel wr false (slots (rpc_send p)) (ring_pos (begin_id (rpc_send p0)) i) =
    Done (drop (Z.to_nat i) B).
Proof.
  intros [Hok _ _ _ _ _ (p' & Hp & _ & _ & Hpend & _ & _ & Hsl)] HB Hp'.
  rewrite Hp in Hp'. injection Hp' as ->.
  pose proof (ao_qps _ _ _ Hok q p Hp) as Hq. pose proof (qo_window _ _ _ _ _ Hq).
  pose proof (zlen_nonneg (in_flight (dev st) q)).
  induction fuel as [|fuel IH]; intros i Hi Hf; [lia|]. cbn [chain].
  destruct (Hsl i ltac:(lia)) as (s0 & s & Hs0 & Hs & Hw).
  destruct (zget_is_Some B i Hi) as [w Ew]. rewrite Ew in Hw. destruct Hw as [[R1 R2 R3 R4 R5 _ _] Hid].
  rewrite (load_in_range _ _ _ Hs), obind_done, R5. rewrite (zget_drop _ _ _ Ew).
  replace {| w_one := false; w_id := _; w_flags := _; w_sges := _ |} with w
    by (destruct w; unfold sges in *; simpl in *; congruence).
  unfold link. destruct (Z.eqb_spec i (pending_cnt (rpc_send p0) - 1)) as [->|].
  - rewrite drop_ge by (unfold zlen in *; lia). done.
  - rewrite IH by lia. done.
Qed.

(** The queue pair when its batch is posted. *)
Definition posted (p : QPInfo) : QPInfo :=
  let r := rpc_send p in
  with_ring false p
    {| buf_pos := buf_pos r; pending_cnt := 0; begin_id := buf_pos r;
       counter := counter r + pending_cnt r; cnt_bf_signal := cnt_bf_signal r; slots := slots r |}.

Lemma zlen_app {A} (l l' : list A) : zlen (l ++ l') = zlen l + zlen l'.
Proof. unfold zlen. rewrite length_app. lia. Qed.

Lemma qp_ok_posted q nc p L B :
  qp_ok q nc p L B -> zlen B = pending_cnt (rpc_send p) -> Forall (fun w => w_one w = false) B ->
  qp_ok q nc (posted p) (L ++ B) [].
Proof.
  intros [[G1 G2 G3 G4 G5 G6 G7] H2 H3 H4 H5 H6 H7 H8 H9 H10 H11] HB Hone.
  pose proof (zlen_nonneg L). pose proof (zlen_nonneg B).
  split; simpl; try done; rewrite ?app_nil_r, ?zlen_app; try done; try lia.
  - split; simpl; rewrite ?zlen_app; try done; try lia. by apply Forall_app.
  - unfold ring_pos, kStaticSendBuf, kMaxSignal in *. lia.
  - rewrite H7. replace (zlen L + zlen B + zlen []) with (zlen L + zlen B) by (unfold zlen; simpl; lia).
    apply map_ext. intros i. rewrite H4, HB. unfold ring_pos, kStaticSendBuf, kMaxSignal. lia.
Qed.

(** What a post does: the pending messages, in their order, are behind what is
    left in flight. *)
Record post_effect (st0 : agent) (q : nat) (p0 : QPInfo) (B : list wreq) (st : agent) : Prop := {
  pe_ok : ok st;
  pe_same : same_but_credits st0 st;
  pe_recv : forall q', recv_queue (dev st) q' = recv_queue (dev st0) q';
  pe_flight : forall q', exists done rest,
    in_flight (dev st0) q' = done ++ rest /\ ends_signaled done /\
    in_flight (dev st) q' = rest ++ batch q B q';
  pe_others : forall q' p', q' <> q -> qps st0 !! q' = Some p' ->
    qps st !! q' = Some (credit_to p' (in_flight (dev st) q'));
  pe_qp : exists p, qps st !! q = Some p /\ type p = type p0 /\
    buf_pos (rpc_send p) = buf_pos (rpc_send p0) /\ pending_cnt (rpc_send p) = 0 /\
    map sg_list (slots (rpc_send p)) = map sg_list (slots (rpc_send p0));
  pe_batch : zlen B = pending_cnt (rpc_send p0) /\
    forall i, 0 <= i < zlen B -> exists w s0,
      zget B i = Some w /\ zget (slots (rpc_send p0)) (w_id w) = Some s0 /\
      w_id w = ring_pos (begin_id (rpc_send p0)) i /\ w_sges w = sges s0 /\
      (is_signaled (send_flags (wr s0)) = true -> signaled w = true) }.

Lemma batch_requests st0 q p0 B st :
  generating st0 q p0 B st -> zlen B = pending_cnt (rpc_send p0) ->
  Forall (fun w => w_one w = false) B /\
  forall i, 0 <= i < zlen B -> exists w s0,
    zget B i = Some w /\ zget (slots (rpc_send p0)) (w_id w) = Some s0 /\
    w_id w = ring_pos (begin_id (rpc_send p0)) i /\ w_sges w = sges s0 /\
    (is_signaled (send_flags (wr s0)) = true -> signaled w = true).
Proof.
  intros [Hok _ _ _ _ _ (p & Hp & _ & _ & Hpend & _ & _ & Hsl)] HB.
  pose proof (qo_window _ _ _ _ _ (ao_qps _ _ _ Hok q p Hp)).
  pose proof (zlen_nonneg (in_flight (dev st) q)).
  assert (Hreq : forall i w, 0 <= i < zlen B -> zget B i = Some w -> exists s0 s nx,
     zget (slots (rpc_send p0)) (w_id w) = Some s0 /\
     w_id w = ring_pos (begin_id (rpc_send p0)) i /\ request s0 s nx w).
  { intros i w Hi Hw. destruct (Hsl i ltac:(lia)) as (s0 & s & Hs0 & _ & Hrq).
    rewrite Hw in Hrq. destruct Hrq as [Hrq Hid]. rewrite <- Hid in Hs0. by eexists s0, s, _. }
  split.
  - apply Forall_forall. intros w (i & Hi)%list_elem_of_lookup.
    pose proof (lookup_lt_Some _ _ _ Hi).
    destruct (Hreq (Z.of_nat i) w) as (s0 & s & nx & _ & _ & []); [unfold zlen; lia| |done].
    unfold zget. rewrite decide_True by lia. by rewrite Nat2Z.id.
  - intros i Hi. destruct (zget_is_Some B i Hi) as [w Hw].
    destruct (Hreq i w Hi Hw) as (s0 & s & nx & Hs0 & Hid & [R1 R2 R3 R4 R5 R6 _]).
    exists w, s0. repeat split; try done. unfold sges in *. by destruct R4 as [<- <-].
Qed.

(** The buffers stay with their slots. *)
Lemma buffers_kept st0 q p0 B st p :
  generating st0 q p0 B st -> qps st !! q = Some p ->
  map sg_list (slots (rpc_send p)) = map sg_list (slots (rpc_send p0)).
Proof.
  intros [Hok [H0 Hp0] _ _ _ _ (p' & Hp' & _ & _ & _ & _ & _ & Hsl)] Hp.
  rewrite Hp in Hp'. injection Hp' as <-.
  pose proof (cr_slots _ _ _ _ (qo_credit _ _ _ _ _ (ao_qps _ _ _ Hok q p Hp))) as H1.
  pose proof (cr_slots _ _ _ _ (qo_credit _ _ _ _ _ (ao_qps _ _ _ H0 q p0 Hp0))) as H2.
  unfold zlen in H1, H2. apply list_eq. intros i. change (@map ?A ?B ?f) with (@fmap list _ A B f).
  rewrite !list_lookup_fmap.
  destruct (decide (i < Z.to_nat kStaticSendBuf)%nat).
  - destruct (Hsl ((Z.of_nat i - begin_id (rpc_send p0)) mod kStaticSendBuf)) as (s0 & s & E0 & E & HB).
    { unfold kStaticSendBuf, kMaxSignal. lia. }
    replace (ring_pos _ _) with (Z.of_nat i) in E0, E
      by (unfold ring_pos, kStaticSendBuf, kMaxSignal in *; lia).
    unfold zget in E0, E. rewrite decide_True, Nat2Z.id in E0, E by lia. rewrite E0, E. simpl. f_equal.
    destruct (zget B _) as [w|]; [|by subst]. by destruct HB as [[_ _ _ [] _ _ _] _].
  - rewrite !(proj2 (lookup_ge_None _ _)) by lia. done.
Qed.

(** The state after the post. *)
Lemma post_effect_done st0 q p0 B st p d :
  generating st0 q p0 B st -> zlen B = pending_cnt (rpc_send p0) -> qps st !! q = Some p ->
  in_flight d q = in_flight (dev st) q ++ B ->
  (forall q', q' <> q -> in_flight d q' = in_flight (dev st) q') ->
  (forall q', recv_queue d q' = recv_queue (dev st) q') ->
  cq_load d = cq_load (dev st) + nsig B ->
  post_effect st0 q p0 B (with_qp (with_dev st d) q (posted p)).
Proof.
  intros Hg HB Hp F1 F2 F3 F4. destruct (batch_requests _ _ _ _ _ Hg HB) as [Hones Hreqs].
  pose proof (buffers_kept _ _ _ _ _ _ Hg Hp).
  destruct Hg as [[A1 A2 A3 A4 A5 A6 A7] _ Hsame Hrecv Hfl Hoth (p' & Hp' & Ht & Hbp & Hpend & Hbeg & Ho & _)].
  rewrite Hp in Hp'. injection Hp' as <-.
  pose proof (A1 q p Hp) as Hq. unfold batch in Hq. rewrite decide_True in Hq by done.
  assert (Hlt : (q < length (qps st))%nat) by by eapply lookup_lt_Some.
  split; simpl; try done.
  - split; simpl; try done; try lia.
    + intros q' p1. destruct (decide (q' = q)) as [->|Hne].
      * rewrite list_lookup_insert_eq by done. intros [= <-]. rewrite F1.
        apply qp_ok_posted; [done|lia|done].
      * rewrite list_lookup_insert_ne by done. intros Hp1. rewrite F2 by done.
        specialize (A1 q' p1 Hp1). unfold batch in A1. by rewrite decide_False in A1.
    + intros q' HN%lookup_ge_None. rewrite length_insert in HN.
      rewrite F2 by (intros ->; lia). by apply A2, lookup_ge_None.
  - destruct Hsame. split; simpl; try done. by rewrite length_insert.
  - intros q'. rewrite F3. apply Hrecv.
  - intros q'. destruct (Hfl q') as (D & E & HD). exists D, (in_flight (dev st) q').
    split; [done|]. split; [done|]. unfold batch. case_decide as Hqq; [by subst|].
    rewrite app_nil_r. by apply F2.
  - intros q' p1 Hne Hp1. rewrite list_lookup_insert_ne by done. rewrite F2 by done. by apply Hoth.
  - eexists. rewrite list_lookup_insert_eq by done. split; [done|]. by repeat (split; [done|]).
Qed.

Lemma post_batch_done st0 q p0 B st :
  generating st0 q p0 B st -> zlen B = pending_cnt (rpc_send p0) -> 0 < zlen B ->
  exists st', (let! st := issue st q (begin_id (rpc_send p0)) (pending_cnt (rpc_send p0)) false false in
               reset_pending st q false) = Done st' /\ post_effect st0 q p0 B st'.
Proof.
  intros Hg HB Hpos. pose proof Hg as [Hok _ _ _ _ _ (p & Hp & _ & _ & Hpend & Hbeg & _ & _)].
  pose proof (ao_qps _ _ _ Hok q p Hp) as Hq. unfold batch in Hq. rewrite decide_True in Hq by done.
  pose proof (qo_window _ _ _ _ _ Hq). pose proof (zlen_nonneg (in_flight (dev st) q)).
  pose proof (chain_ok _ _ _ _ _ _ Hg HB Hp (Z.to_nat (kMaxWr false)) 0) as Hchain.
  unfold issue, get_qp. rewrite Hp. simpl of_option. rewrite obind_done. simpl ring.
  replace (begin_id (rpc_send p0)) with (ring_pos (begin_id (rpc_send p0)) 0).
  2:{ unfold ring_pos. rewrite <- Hbeg, (qo_begin _ _ _ _ _ Hq).
      unfold ring_pos, kStaticSendBuf, kMaxSignal. lia. }
  rewrite Hchain by (unfold kMaxWr, kStaticSendBuf, kMaxSignal in *; lia).
  rewrite obind_done. cbv iota. change (drop (Z.to_nat 0) B) with B.
  destruct (ibv_post_send (dev st) q B) as [ret d] eqn:E.
  destruct (post_send_law _ _ _ _ _ E) as (-> & F1 & F2 & F3 & F4).
  { rewrite zlen_app. lia. }
  { destruct Hok. lia. }
  change (0 =? 0) with true. cbv iota. rewrite obind_done. unfold reset_pending, get_qp.
  erewrite lookup_with_qp by done. simpl of_option. rewrite obind_done, with_qp_with_qp.
  eexists. split; [reflexivity|].
  pose proof (cr_counter _ _ _ _ (qo_credit _ _ _ _ _ Hq)) as Hcnt.
  set (p' := with_ring false _ _).
  assert (Ep : p' = posted p).
  { unfold p', posted, with_ring, kStaticSendBuf, kMaxSignal in *. simpl. rewrite <- Hpend. by unwrap. }
  rewrite Ep. by apply post_effect_done.
Qed.

(** ** The operations of the message path *)
Lemma safe_inv {A} (o : outcome A) (P : A -> Prop) a : safe o P -> o = Done a -> P a.
Proof. by intros [->|(b & -> & Hb)] [= <-]. Qed.

Lemma post_appended_smsg_ok fuel st q p master :
  ok st -> qps st !! q = Some p ->
  safe (post_appended_smsg fuel st q master false) (fun r =>
    if pending_cnt (rpc_send p) =? 0 then r = (false, st)
    else r.1 = master /\ exists B, post_effect st q p B r.2).
Proof.
  intros Hok Hp. pose proof (ao_qps _ _ _ Hok q p Hp) as Hq. pose proof (qo_batch _ _ _ _ _ Hq) as Hb.
  unfold zlen in Hb. simpl in Hb.
  unfold post_appended_smsg, get_qp, generate_and_issue_batch. rewrite Hp. simpl of_option. rewrite obind_done.
  destruct (Z.eqb_spec (pending_cnt (rpc_send p)) 0) as [|Hne]; [by apply safe_done|].
  pose proof (generate_ok fuel st q p (Z.to_nat (pending_cnt (rpc_send p))) [] st) as Hgen.
  change (zlen (@nil wreq)) with 0 in Hgen.
  destruct Hgen as [->|(st1 & -> & B & Hg & HB)].
  { by apply generating_init. }
  { lia. }
  { by left. }
  rewrite obind_done.
  destruct (post_batch_done _ _ _ _ _ Hg HB ltac:(lia)) as (st2 & E & Hpe).
  destruct (issue _ _ _ _ _ _) as [st3|]; [|done]. simpl in E. rewrite obind_done, E, obind_done.
  destruct master; [|by apply safe_done; eauto].
  destruct (pe_qp _ _ _ _ _ Hpe) as (p2 & Hp2 & _). rewrite Hp2. simpl of_option. rewrite obind_done.
  pose proof (ao_qps _ _ _ (pe_ok _ _ _ _ _ Hpe) q p2 Hp2) as Hq2.
  destruct (qo_one _ _ _ _ _ Hq2) as [-> _]. apply safe_done. eauto.
Qed.

Lemma ok_with_qp st q p p' :
  ok st -> qps st !! q = Some p ->
  qp_ok q (length (coro_ctxs st)) p' (in_flight (dev st) q) [] -> ok (with_qp st q p').
Proof.
  intros [A1 A2 A3 A4 A5 A6 A7] Hp Hq. split; simpl; try done.
  - intros q' p1. destruct (decide (q' = q)) as [->|Hne].
    + rewrite list_lookup_insert_eq by by eapply lookup_lt_Some. by intros [= <-].
    + rewrite list_lookup_insert_ne by done. apply A1.
  - intros q' HN%lookup_ge_None. rewrite length_insert in HN. by apply A2, lookup_ge_None.
Qed.

Lemma ok_with_coro st c x : ok st -> ok (with_coro st c x).
Proof. intros []. split; simpl; try done. intros. rewrite length_insert. auto. Qed.

(** The slot at the write position is not among the requests in flight. *)
Lemma write_position_free q nc p L :
  qp_ok q nc p L [] -> zlen L + pending_cnt (rpc_send p) < kStaticSendBuf ->
  Forall (fun w => w_id w <> buf_pos (rpc_send p)) L /\
  forall i, 0 <= i < pending_cnt (rpc_send p) -> ring_pos (begin_id (rpc_send p)) i <> buf_pos (rpc_send p).
Proof.
  intros Hq Hlt. pose proof (zlen_nonneg L) as HL. pose proof (qo_batch _ _ _ _ _ Hq) as Hb.
  unfold zlen in Hb. simpl in Hb. pose proof (qo_pos _ _ _ _ _ Hq) as Hpos.
  pose proof (qo_begin _ _ _ _ _ Hq) as Hbeg. pose proof (qo_ids _ _ _ _ _ Hq) as Hids. split.
  - apply Forall_forall. intros w Hw. apply (list_elem_of_fmap_2 w_id) in Hw. change (fmap w_id) with (map w_id) in Hw.
    rewrite app_nil_r in Hids. rewrite Hids in Hw. apply list_elem_of_fmap in Hw as (i & -> & Hi%elem_of_seqZ).
    rewrite Hbeg. unfold ring_pos, zlen, kStaticSendBuf, kMaxSignal in *. simpl in Hi. lia.
  - intros i Hi. rewrite Hbeg. unfold ring_pos, kStaticSendBuf, kMaxSignal in *. lia.
Qed.

(** Changes the slot at the write position. *)
Definition touch (p : QPInfo) (s : SingleWr) : QPInfo :=
  with_ring false p (with_slot (rpc_send p) (buf_pos (rpc_send p)) s).

Lemma touch_buffers p s s' :
  zget (slots (rpc_send p)) (buf_pos (rpc_send p)) = Some s -> sg_list s' = sg_list s ->
  map sg_list (slots (rpc_send (touch p s'))) = map sg_list (slots (rpc_send p)).
Proof.
  intros Hs E. unfold zget in Hs. case_decide; [|done]. simpl. unfold zset. rewrite decide_True by done.
  change (@map ?A ?B ?f) with (@fmap list _ A B f). rewrite list_fmap_insert, E.
  apply list_insert_id. rewrite list_lookup_fmap, Hs. done.
Qed.

Lemma qp_ok_touch q nc p L s :
  qp_ok q nc p L [] -> zlen L + pending_cnt (rpc_send p) < kStaticSendBuf -> slot_ok q nc s ->
  qp_ok q nc (touch p s) L [].
Proof.
  intros Hq Hlt Hs. destruct (write_position_free _ _ _ _ Hq Hlt) as [Hf _].
  destruct Hq as [[] H2 H3 H4 H5 H6 H7 H8 H9 H10 H11].
  split; simpl; try done; [split; simpl; try done|].
  - by rewrite zlen_zset.
  - by apply Forall_zset.
  - by apply accounted_zset.
  - rewrite app_nil_r. by apply accounted_zset.
Qed.

Lemma qp_ok_advance q nc p L :
  qp_ok q nc p L [] -> zlen L + pending_cnt (rpc_send p) < kStaticSendBuf ->
  qp_ok q nc (advance 16 false p) L [] /\
  pending_cnt (rpc_send (advance 16 false p)) = pending_cnt (rpc_send p) + 1.
Proof.
  intros Hq Hlt. pose proof (zlen_nonneg L). pose proof (qo_batch _ _ _ _ _ Hq) as Hb.
  unfold zlen in Hb at 1. simpl in Hb.
  destruct Hq as [[] H2 H3 H4 H5 H6 H7 H8 H9 H10 H11].
  assert (E : wrap 16 (pending_cnt (rpc_send p) + 1) = pending_cnt (rpc_send p) + 1).
  { unfold kStaticSendBuf, kMaxSignal in *. by unwrap. }
  split; [|done]. split; simpl; rewrite ?E; try done.
  - unfold ADD_ROUND, kStaticSendBuf, kMaxSignal. lia.
  - rewrite H4. unfold ADD_ROUND, ring_pos, kStaticSendBuf, kMaxSignal. lia.
  - unfold zlen. simpl. lia.
  - lia.
Qed.

Definition room (p : QPInfo) : Prop :=
  counter (rpc_send p) + pending_cnt (rpc_send p) < kStaticSendBuf.

Lemma touch_ok st q p f :
  ok st -> qps st !! q = Some p -> room p ->
  (forall s, slot_ok q (length (coro_ctxs st)) s -> slot_ok q (length (coro_ctxs st)) (f s)) ->
  exists s, zget (slots (rpc_send p)) (buf_pos (rpc_send p)) = Some s /\
    update_slot st q false (buf_pos (rpc_send p)) f = Done (with_qp st q (touch p (f s))) /\
    ok (with_qp st q (touch p (f s))).
Proof.
  intros Hok Hp Hroom Hf. pose proof (ao_qps _ _ _ Hok q p Hp) as Hq. unfold room in Hroom.
  rewrite (cr_counter _ _ _ _ (qo_credit _ _ _ _ _ Hq)) in Hroom.
  destruct (slots_range q _ p _ _ (buf_pos (rpc_send p)) Hq) as (s & Hs & Hslot); [apply Hq|].
  exists s. split; [done|]. split.
  - by rewrite (update_slot_done st q false _ _ p s Hp Hs).
  - eapply ok_with_qp; [done|done|]. apply qp_ok_touch; auto.
Qed.

Lemma append_signal_smsg_ok st q p signal ctx :
  ok st -> qps st !! q = Some p -> room p ->
  (forall c, ctx = Some c -> (c < length (coro_ctxs st))%nat) ->
  exists st' p', append_signal_smsg st q signal ctx = Done st' /\ ok st' /\
    qps st' !! q = Some p' /\ type p' = type p /\
    buf_pos (rpc_send p') = ADD_ROUND (buf_pos (rpc_send p)) kStaticSendBuf /\
    pending_cnt (rpc_send p') = pending_cnt (rpc_send p) + 1 /\
    counter (rpc_send p') = counter (rpc_send p) /\
    map sg_list (slots (rpc_send p')) = map sg_list (slots (rpc_send p)) /\
    (forall q', q' <> q -> qps st' !! q' = qps st !! q') /\
    same_but_credits st st' /\ dev st' = dev st.
Proof.
  intros Hok Hp Hroom Hctx. unfold append_signal_smsg, get_qp. rewrite Hp. simpl of_option. rewrite obind_done.
  set (f := fun s => if signal then _ else _).
  destruct (touch_ok st q p f Hok Hp Hroom) as (s & Hs & E & Hok1).
  { intros s []. unfold f. by destruct signal; split. }
  rewrite E, obind_done. clear E. set (st1 := with_qp st q _) in *.
  assert (Hp1 : qps st1 !! q = Some (touch p (f s))) by by eapply lookup_with_qp.
  assert (H2 : exists st2 p2, (match ctx with
      | Some c => if signal then
          let! st := update_slot st1 q false (buf_pos (rpc_send p)) (fun s => set_coro_ctx s (Some c)) in
          let! x := get_coro st c in Done (with_coro st c (add_op_cnt x))
        else Done st1
      | None => Done st1 end) = Done st2 /\ ok st2 /\ qps st2 !! q = Some p2 /\ type p2 = type p /\
      buf_pos (rpc_send p2) = buf_pos (rpc_send p) /\ pending_cnt (rpc_send p2) = pending_cnt (rpc_send p) /\
      counter (rpc_send p2) = counter (rpc_send p) /\
      map sg_list (slots (rpc_send p2)) = map sg_list (slots (rpc_send p)) /\
      (forall q', q' <> q -> qps st2 !! q' = qps st !! q') /\ same_but_credits st st2 /\ dev st2 = dev st).
  { assert (Hsame1 : same_but_credits st st1) by (split; simpl; rewrite ?length_insert; done).
    assert (Hb1 : map sg_list (slots (rpc_send (touch p (f s)))) = map sg_list (slots (rpc_send p))).
    { eapply touch_buffers; [done|]. unfold f. by destruct signal. }
    assert (Ho1 : forall q', q' <> q -> qps st1 !! q' = qps st !! q') by (intros; by apply list_lookup_insert_ne).
    destruct ctx as [c|]; [destruct signal|]; [|by exists st1, (touch p (f s))..].
    destruct (touch_ok st1 q _ (fun s => set_coro_ctx s (Some c)) Hok1 Hp1 Hroom) as (s2 & Hs2 & E & Hok2).
    { intros s' [H1 H2]. split; [done|]. intros c' [= <-]. by apply Hctx. }
    simpl in E. rewrite E, obind_done. unfold get_coro. simpl coro_ctxs.
    destruct (lookup_lt_is_Some_2 (coro_ctxs st) c) as [x Hx]; [by apply Hctx|]. rewrite Hx. simpl.
    eexists _, _. split; [done|]. split; [by apply ok_with_coro|]. simpl.
    split; [apply list_lookup_insert_eq; rewrite length_insert; by eapply lookup_lt_Some|].
    do 4 (split; [done|]). split; [rewrite <- Hb1; by eapply touch_buffers|].
    split; [intros; rewrite list_lookup_insert_ne by done; by apply Ho1|].
    split; [|done]. split; simpl; rewrite ?length_insert; done. }
  destruct H2 as (st2 & p2 & -> & Hok2 & Hp2 & Ht & Hbp & Hpend & Hcnt & Hbuf & Hoth & Hsame & Hdev).
  rewrite obind_done, Hp2. simpl. pose proof (ao_qps _ _ _ Hok2 q p2 Hp2) as Hq2.
  destruct (qp_ok_advance _ _ _ _ Hq2) as [Hq3 Hpend3].
  { rewrite <- (cr_counter _ _ _ _ (qo_credit _ _ _ _ _ Hq2)), Hcnt, Hpend. exact Hroom. }
  exists (with_qp st2 q (advance 16 false p2)), (advance 16 false p2).
  split; [done|]. split; [by eapply ok_with_qp|]. split; [by eapply lookup_with_qp|].
  simpl in *. rewrite Hbp. split; [done|]. split; [done|]. split; [lia|]. split; [done|]. split; [done|].
  split; [intros; rewrite list_lookup_insert_ne by done; by apply Hoth|].
  split; [|done]. destruct Hsame. split; simpl; rewrite ?length_insert; done.
Qed.

(** [st'] differs from [st] by completions and, for queue pair [q], a post: its
    write position is where it was. *)
Record waited (st : agent) (q : nat) (p : QPInfo) (st' : agent) (p' : QPInfo) : Prop := {
  wa_ok : ok st';
  wa_qp : qps st' !! q = Some p';
  wa_type : type p' = type p;
  wa_pos : buf_pos (rpc_send p') = buf_pos (rpc_send p);
  wa_buffers : map sg_list (slots (rpc_send p')) = map sg_list (slots (rpc_send p));
  wa_same : same_but_credits st st';
  wa_recv : forall q', recv_queue (dev st') q' = recv_queue (dev st) q' }.

Lemma waited_polled st q p st' :
  ok st -> qps st !! q = Some p -> polled st st' -> exists p', waited st q p st' p'.
Proof.
  intros Hok Hp Hpo. destruct (po_qps _ _ Hpo q) as (D & _ & _ & HQ).
  exists (credit_to p (in_flight (dev st') q)). split; try done.
  - by eapply agent_ok_polled.
  - by apply HQ.
  - apply Hpo.
  - apply Hpo.
Qed.

Lemma waited_trans st q p st1 p1 st2 p2 :
  waited st q p st1 p1 -> waited st1 q p1 st2 p2 -> waited st q p st2 p2.
Proof.
  intros [] []. split; try congruence. by eapply same_but_credits_trans.
Qed.

Lemma waited_refl st q p : ok st -> qps st !! q = Some p -> waited st q p st p.
Proof. by split. Qed.

Lemma wait_send_room_ok fuel q : forall st p,
  ok st -> qps st !! q = Some p ->
  safe (wait_send_room fuel st q) (fun st' => exists p', waited st q p st' p' /\ room p').
Proof.
  induction fuel as [|fuel IH]; intros st p Hok Hp; [by left|]. cbn [wait_send_room].
  unfold get_qp. rewrite Hp. simpl of_option. rewrite obind_done.
  pose proof (ao_qps _ _ _ Hok q p Hp) as Hq.
  pose proof (cr_counter _ _ _ _ (qo_credit _ _ _ _ _ Hq)) as Hcnt.
  pose proof (qo_window _ _ _ _ _ Hq). pose proof (qo_batch _ _ _ _ _ Hq) as Hb.
  unfold zlen in Hb. simpl in Hb. pose proof (zlen_nonneg (in_flight (dev st) q)).
  rewrite wrap_small by (unfold in_width, kStaticSendBuf, kMaxSignal in *; lia).
  destruct (Z.leb_spec kStaticSendBuf (counter (rpc_send p) + pending_cnt (rpc_send p))).
  2:{ apply safe_done. exists p. split; [by apply waited_refl|done]. }
  assert (Hty : type p =? LOGDCT = false).
  { pose proof (qo_type _ _ _ _ _ Hq). apply Z.eqb_neq. lia. }
  rewrite Hty. eapply (safe_bind _ _ (fun st1 => exists p1, waited st q p st1 p1)).
  { case_match; zbool; [|by apply safe_done; exists p; apply waited_refl].
    eapply safe_bind; [by eapply post_appended_smsg_ok|]. intros [y st1].
    destruct (Z.eqb_spec (pending_cnt (rpc_send p)) 0); [unfold kStaticSendBuf, kMaxSignal in *; lia|].
    intros [_ [B []]]. apply safe_done. destruct pe_qp0 as (p1 & Hp1 & ? & ? & _ & ?). by exists p1. }
  intros st1 [p1 Hw1]. eapply safe_bind.
  { apply poll_cq_a_wc_ok. eapply agent_ok_credits, (wa_ok _ _ _ _ _ Hw1). }
  intros [c st2] [Hpo _]. simpl in Hpo.
  destruct (waited_polled _ q p1 _ (wa_ok _ _ _ _ _ Hw1) (wa_qp _ _ _ _ _ Hw1) Hpo) as [p2 Hw2].
  eapply safe_mono; [apply (IH _ p2); apply Hw2|].
  intros st3 (p3 & Hw3 & Hr). exists p3. split; [|done]. by do 2 (eapply waited_trans; [done|]).
Qed.

Lemma get_send_wr_ok st q p :
  ok st -> qps st !! q = Some p -> room p ->
  exists s st' p', get_send_wr st q = Done (s, st') /\ waited st q p st' p' /\ room p' /\
    zget (slots (rpc_send p')) (buf_pos (rpc_send p')) = Some s /\ dev st' = dev st.
Proof.
  intros Hok Hp Hroom. unfold get_send_wr, get_qp. rewrite Hp. simpl of_option. rewrite obind_done.
  destruct (touch_ok st q p (fun s => set_coro_ctx s None) Hok Hp Hroom) as (s & Hs & E & Hok1).
  { intros s [Hs _]. by split. }
  rewrite E, obind_done. erewrite lookup_with_qp by done. simpl of_option. rewrite obind_done.
  pose proof (zget_Some_range _ _ _ Hs).
  unfold load, touch at 1. simpl. rewrite zget_zset_eq by done. simpl.
  exists (set_coro_ctx s None), (with_qp st q (touch p (set_coro_ctx s None))), (touch p (set_coro_ctx s None)).
  split; [done|]. split; [split; try done|].
  - by eapply lookup_with_qp.
  - by eapply touch_buffers.
  - split; simpl; rewrite ?length_insert; done.
  - split; [exact Hroom|]. split; [|done]. simpl. by apply zget_zset_eq.
Qed.

Lemma get_send_msg_sg_ok fuel st q p :
  ok st -> qps st !! q = Some p ->
  safe (get_send_msg_sg fuel st q) (fun r => exists p' s, waited st q p r.2 p' /\ room p' /\
    zget (slots (rpc_send p')) (buf_pos (rpc_send p')) = Some s /\ r.1 = sg_list s).
Proof.
  intros Hok Hp. unfold get_send_msg_sg. eapply safe_bind.
  { apply check_signal_ok; [by eapply agent_ok_credits|]. pose proof (ao_len _ _ _ Hok). lia. }
  intros st1 [Hpo _]. destruct (waited_polled _ q p _ Hok Hp Hpo) as [p1 Hw1].
  eapply safe_bind; [apply (wait_send_room_ok fuel q st1 p1); apply Hw1|].
  intros st2 (p2 & Hw2 & Hr).
  destruct (get_send_wr_ok st2 q p2) as (s & st3 & p3 & -> & Hw3 & Hr3 & Hs & _); [apply Hw2|apply Hw2|done|].
  simpl. apply safe_done. exists p3, s. split; [|done].
  by do 2 (eapply waited_trans; [done|]).
Qed.

(** ** Runs

    A client fills the buffer get_send_msg_sg returns before it appends it. *)
Inductive op :=
  | Send (q : nat) (signal : bool) (ctx : option nat)
  | Post (q : nat) (master : bool)
  | Poll (n : Z).

Definition exec (fuel : nat) (st : agent) (o : op) : outcome agent :=
  match o with
  | Send q signal ctx =>
      let! (_, st) := get_send_msg_sg fuel st q in append_signal_smsg st q signal ctx
  | Post q master => let! (_, st) := post_appended_smsg fuel st q master false in Done st
  | Poll n => let! (_, st) := poll_cq_try st n in Done st
  end.

Fixpoint run (fuel : nat) (st : agent) (os : list op) : outcome agent :=
  match os with
  | [] => Done st
  | o :: os => let! st := exec fuel st o in run fuel st os
  end.

(** [n] queue pairs, [nc] coroutines. *)
Definition op_ok (n nc : nat) (o : op) : Prop :=
  match o with
  | Send q _ ctx => (q < n)%nat /\ forall c, ctx = Some c -> (c < nc)%nat
  | Post q _ => (q < n)%nat
  | Poll k => 1 <= k <= kMaxWcCnt
  end.

(** A queue pair as the connection code leaves it. *)
Definition fresh_qp (q : nat) (p : QPInfo) : Prop :=
  exists stale ty mr offset size, 0 <= ty < LOGDCT /\
    init_send_with_one_mr (init_qp stale ty q) mr offset size = Done p.

Definition fresh (st : agent) : Prop :=
  (forall q p, qps st !! q = Some p -> fresh_qp q p) /\
  (forall q, in_flight (dev st) q = []) /\ cq_load (dev st) = 0 /\
  signal_counter (send_cq st) = 0 /\ 0 < cq_len (send_cq st) < 2 ^ 32 /\
  cq_len (send_cq st) <= cq_depth /\ recv_cq_only (send_cq st) = false.

Lemma init_send_slots_ok mr offset size q nc ss : forall i ss',
  Forall (slot_ok q nc) ss -> init_send_slots mr offset size i ss = Done ss' ->
  length ss' = length ss /\ Forall (slot_ok q nc) ss'.
Proof.
  induction ss as [|s ss IH]; intros i ss' Hs E; simpl in E; [by simplify_eq|].
  apply Forall_cons in Hs as [Hs Hss].
  destruct (init_send_slot mr offset size i s) as [s'|] eqn:Es; [|done]. simpl in E.
  destruct (init_send_slots mr offset size (S i) ss) as [ss2|] eqn:Ess; [|done].
  simplify_eq/=. destruct (IH _ _ Hss Ess) as [<- H2]. split; [done|]. apply Forall_cons. split; [|done].
  unfold init_send_slot, add_sg_to_wr in Es. case_decide; simplify_eq/=. exact Hs.
Qed.

Lemma fresh_qp_ok q nc p : fresh_qp q p -> qp_ok q nc p [] [].
Proof.
  intros (stale & ty & mr & offset & size & Hty & E).
  unfold init_send_with_one_mr in E.
  destruct (init_send_slots _ _ _ _ _) as [ss|] eqn:Es; [|done]. injection E as <-.
  apply (init_send_slots_ok _ _ _ q nc) in Es as [Hl Hs].
  2:{ apply Forall_replicate. split; [done|]. intros c. done. }
  split; simpl; try done. split; simpl; try done. unfold zlen. by rewrite Hl.
Qed.

Lemma fresh_ok st : fresh st -> ok st.
Proof.
  intros (H1 & H2 & H3 & H4 & H5 & H6 & H7). split; rewrite ?H2, ?H3, ?H4; try done; try lia.
  intros q p Hp. rewrite H2. by apply fresh_qp_ok, H1.
Qed.

Lemma exec_ok fuel st o :
  ok st -> op_ok (length (qps st)) (length (coro_ctxs st)) o ->
  safe (exec fuel st o) (fun st' => ok st' /\ same_but_credits st st').
Proof.
  intros Hok. destruct o as [q signal ctx|q master|n]; simpl.
  - intros [[p Hp]%lookup_lt_is_Some_2 Hctx].
    eapply safe_bind; [by eapply get_send_msg_sg_ok|]. intros [sg st1] (p1 & s & [] & Hroom & _). simpl in *.
    destruct (append_signal_smsg_ok st1 q p1 signal ctx) as (st2 & p2 & -> & Hok2 & _ & _ & _ & _ & _ & _ & _ & Hs & _); try done.
    { by rewrite (sb_coros _ _ wa_same0). }
    apply safe_done. split; [done|by eapply same_but_credits_trans].
  - intros [p Hp]%lookup_lt_is_Some_2.
    eapply safe_bind; [by eapply post_appended_smsg_ok|]. intros [y st1] H. simpl in H. apply safe_done.
    destruct (pending_cnt (rpc_send p) =? 0); [by simplify_eq|]. by destruct H as (_ & B & []).
  - intros Hn. destruct (poll_cq_try_ok st n) as (cs & st1 & -> & Hp & _); [by eapply agent_ok_credits|done|].
    apply safe_done. split; [by eapply agent_ok_polled|apply Hp].
Qed.

Lemma run_ok fuel os : forall st,
  ok st -> Forall (op_ok (length (qps st)) (length (coro_ctxs st))) os ->
  safe (run fuel st os) (fun st' => ok st' /\ same_but_credits st st').
Proof.
  induction os as [|o os IH]; intros st Hok Hos; [by apply safe_done|]. simpl.
  apply Forall_cons in Hos as [Ho Hos]. eapply safe_bind; [by apply exec_ok|].
  intros st1 [Hok1 Hs1]. eapply safe_mono.
  - apply IH; [done|]. by rewrite (sb_qps _ _ Hs1), (sb_coros _ _ Hs1).
  - intros st2 [? ?]. split; [done|by eapply same_but_credits_trans].
Qed.

Lemma counter_in_flight st q p :
  ok st -> qps st !! q = Some p ->
  counter (rpc_send p) = zlen (in_flight (dev st) q) /\ 0 <= pending_cnt (rpc_send p) /\
  counter (rpc_send p) + pending_cnt (rpc_send p) <= kStaticSendBuf /\
  cnt_bf_signal (rpc_send p) = unsignaled 0 (in_flight (dev st) q) /\
  unsignaled 0 (in_flight (dev st) q) < kMaxSignal.
Proof.
  intros Hok Hp. pose proof (ao_qps _ _ _ Hok q p Hp) as Hq.
  pose proof (cr_counter _ _ _ _ (qo_credit _ _ _ _ _ Hq)) as E. rewrite E.
  pose proof (qo_bf _ _ _ _ _ Hq) as Hbf. rewrite app_nil_r in Hbf. pose proof (qo_bf_bound _ _ _ _ _ Hq).
  pose proof (qo_batch _ _ _ _ _ Hq) as Hb. unfold zlen in Hb at 1. simpl in Hb.
  split; [done|]. split; [lia|]. split; [apply Hq|]. split; [done|]. by rewrite <- Hbf.
Qed.

(** ** The properties *)

(** C17. After any number of sends, posts and polls on the queue pairs of a
    thread, none of which faults, every credit is accounted for: send_counter is
    the number of messages posted and not yet completed, it and the pending
    messages fit the ring of 128, at most 31 messages follow the last signaled
    one, and the completion queue always has room for the signaled ones. *)
Theorem send_credits_exact fuel st os :
  fresh st -> Forall (op_ok (length (qps st)) (length (coro_ctxs st))) os ->
  safe (run fuel st os) (fun st' =>
    signal_counter (send_cq st') = cq_load (dev st') /\ cq_load (dev st') < cq_len (send_cq st) /\
    forall q p, qps st' !! q = Some p ->
      counter (rpc_send p) = zlen (in_flight (dev st') q) /\ 0 <= pending_cnt (rpc_send p) /\
      counter (rpc_send p) + pending_cnt (rpc_send p) <= kStaticSendBuf /\
      cnt_bf_signal (rpc_send p) = unsignaled 0 (in_flight (dev st') q) /\
      unsignaled 0 (in_flight (dev st') q) < kMaxSignal).
Proof.
  intros Hf Hos. eapply safe_mono; [apply run_ok; [by apply fresh_ok|done]|].
  intros st' [Hok Hs]. pose proof (ao_sig _ _ _ Hok). pose proof (ao_len _ _ _ Hok).
  rewrite <- (sb_len _ _ Hs). split; [lia|]. split; [lia|].
  intros q p Hp. by apply counter_in_flight.
Qed.

(** C18. The buffer get_send_msg_sg hands out is the one of the slot at the write
    position, and nobody else uses that slot: no request in flight and no pending
    message has it. *)
Theorem send_buffer_private fuel st0 os st q sg st' :
  fresh st0 -> Forall (op_ok (length (qps st0)) (length (coro_ctxs st0))) os ->
  run fuel st0 os = Done st -> (q < length (qps st0))%nat ->
  get_send_msg_sg fuel st q = Done (sg, st') ->
  exists p p', qps st !! q = Some p /\ qps st' !! q = Some p' /\
    buf_pos (rpc_send p') = buf_pos (rpc_send p) /\
    zget (map sg_list (slots (rpc_send p))) (buf_pos (rpc_send p)) = Some sg /\
    Forall (fun w => w_id w <> buf_pos (rpc_send p)) (in_flight (dev st') q) /\
    forall i, 0 <= i < pending_cnt (rpc_send p') ->
      ring_pos (begin_id (rpc_send p')) i <> buf_pos (rpc_send p).
Proof.
  intros Hf Hos Hrun Hq Hget.
  destruct (safe_inv _ _ _ (run_ok fuel os st0 (fresh_ok _ Hf) Hos) Hrun) as [Hok Hs].
  rewrite <- (sb_qps _ _ Hs) in Hq. apply lookup_lt_is_Some_2 in Hq as [p Hp].
  destruct (safe_inv _ _ _ (get_send_msg_sg_ok fuel st q p Hok Hp) Hget) as (p' & s & [] & Hroom & Hs' & E).
  simpl in *. exists p, p'. split; [done|]. split; [done|]. split; [done|].
  rewrite <- wa_pos0, <- wa_buffers0. split.
  - unfold zget in *. case_decide; [|done]. change (@map ?A ?B ?f) with (@fmap list _ A B f).
    by rewrite list_lookup_fmap, Hs', E.
  - pose proof (ao_qps _ _ _ wa_ok0 q p' wa_qp0) as Hq'. apply (write_position_free _ _ _ _ Hq').
    unfold room in Hroom. by rewrite (cr_counter _ _ _ _ (qo_credit _ _ _ _ _ Hq')) in Hroom.
Qed.

(** Posting hands the device exactly the pending messages, each with the
    buffer of its slot, in the order they were appended and behind those in
    flight; a message appended with a signal is posted with one, and the other
    queue pairs only get credits. *)
Theorem post_sends_pending fuel st0 os st q p master y st' :
  fresh st0 -> Forall (op_ok (length (qps st0)) (length (coro_ctxs st0))) os ->
  run fuel st0 os = Done st -> qps st !! q = Some p -> 0 < pending_cnt (rpc_send p) ->
  post_appended_smsg fuel st q master false = Done (y, st') ->
  y = master /\ exists B, post_effect st q p B st'.
Proof.
  intros Hf Hos Hrun Hp Hpend Hpost.
  destruct (safe_inv _ _ _ (run_ok fuel os st0 (fresh_ok _ Hf) Hos) Hrun) as [Hok Hs].
  pose proof (safe_inv _ _ _ (post_appended_smsg_ok fuel st q p master Hok Hp) Hpost) as Heff.
  by rewrite (proj2 (Z.eqb_neq _ _)) in Heff by lia.
Qed.

End laws.

(** ** Witnesses: one queue pair and one coroutine on the device of [QpDevice] *)
#[local] Existing Instances QpDevice.verbs QpDevice.laws QpDevice.progress.

Definition sample_qp : QPInfo :=
  match init_send_with_one_mr (init_qp 0 LOGRC 0) {| rg_addr := 4096; rg_key := 7; rg_size := 8192 |} 0 64 with
  | Done p => p
  | Fault _ => init_qp 0 LOGRC 0
  end.

Definition sample : agent (V := QpDevice.verbs) :=
  @Build_agent QpDevice.verbs [sample_qp]
    {| cq_len := 128; signal_counter := 0; recv_cq_only := false |}
    [{| free := true; async_op_cnt := -1 |}] QpDevice.empty.

(** Messages of which only the [k]-th is signaled, if at all. *)
Definition sends (n k : nat) : list op :=
  map (fun i => Send 0 (i =? k)%nat (if (i =? k)%nat then Some 0%nat else None)) (seq 1 n).

Definition after (os : list op) : agent (V := QpDevice.verbs) :=
  match run 200 sample os with Done st => st | Fault _ => sample end.

Definition qp0 (st : agent (V := QpDevice.verbs)) : QPInfo :=
  match qps st !! 0%nat with Some p => p | None => sample_qp end.

Lemma sample_qp_fresh : fresh_qp 0 sample_qp.
Proof.
  exists 0, LOGRC, {| rg_addr := 4096; rg_key := 7; rg_size := 8192 |}, 0, 64.
  split; [done|]. by vm_compute.
Qed.

Lemma sample_fresh : fresh sample.
Proof.
  split; [|by repeat split].
  intros [|q] p Hp; [|done]. injection Hp as <-. apply sample_qp_fresh.
Qed.

Lemma sends_ok n k : Forall (op_ok 1 1) (sends n k).
Proof.
  apply Forall_forall. intros o (i & -> & _)%list_elem_of_fmap. simpl. split; [lia|].
  intros c. case_match; [|done]. intros [= <-]. lia.
Qed.

(** 130 messages, posted 40 at a time. *)
Definition busy : list op :=
  sends 40 10 ++ [Post 0 false] ++ sends 40 0 ++ [Post 0 true] ++ sends 40 5 ++ [Poll 16; Post 0 false] ++ sends 10 0.

Lemma busy_ok : Forall (op_ok 1 1) busy.
Proof.
  unfold busy. rewrite !Forall_app. repeat split; try apply sends_ok; by repeat (constructor; [simpl; try split; simpl; try done; lia|]).
Qed.

Lemma send_credits_exact_witness :
  signal_counter (send_cq (after busy)) = cq_load (dev (after busy)) /\
  counter (rpc_send (qp0 (after busy))) = zlen (in_flight (dev (after busy)) 0).
Proof.
  pose proof (send_credits_exact 200 sample busy sample_fresh busy_ok) as H.
  apply (fun H => safe_inv _ _ (after busy) H ltac:(vm_compute; reflexivity)) in H.
  destruct H as (H1 & _ & H2). split; [exact H1|].
  apply (H2 0%nat (qp0 (after busy))). vm_compute. reflexivity.
Defined.

Lemma send_buffer_private_witness :
  match get_send_msg_sg 200 (after busy) 0 with
  | Done (sg, st) => addr sg = 4096 + 64 * 2
  | Fault _ => False
  end.
Proof.
  destruct (get_send_msg_sg 200 (after busy) 0) as [[sg st]|] eqn:E; [|vm_compute in E; discriminate].
  destruct (send_buffer_private 200 sample busy (after busy) 0 sg st sample_fresh busy_ok) as
    (p & p' & Hp & _ & _ & Hsg & _); [vm_compute; reflexivity|simpl; lia|exact E|].
  vm_compute in Hp. injection Hp as <-. vm_compute in Hsg. injection Hsg as <-. reflexivity.
Defined.

Lemma post_sends_pending_witness :
  match post_appended_smsg 200 (after busy) 0 false false with
  | Done (y, st) => y = false /\ exists B, post_effect (after busy) 0 (qp0 (after busy)) B st
  | Fault _ => False
  end.
Proof.
  destruct (post_appended_smsg 200 (after busy) 0 false false) as [[y st]|] eqn:E;
    [|vm_compute in E; discriminate].
  apply (post_sends_pending 200 sample busy (after busy) 0 (qp0 (after busy)) false y st sample_fresh busy_ok);
    [vm_compute; reflexivity|vm_compute; reflexivity|vm_compute; reflexivity|exact E].
Defined.

End QpCredit.
