(* ===== verification/QpWaitModel.v ===== *)
(** * When the waits of the send side end

    Module [QpWait]: get_send_msg_sg and post_appended_smsg poll until a completion
    arrives.  With a device that makes progress both return, whatever the fuel
    from some point on, if few enough messages are pending; with more, the first
    can wait for a completion that nothing will produce. *)

From S2P Require Import Prelude QpModel QpDeviceModel QpCreditModel.

Module QpWait.
Import Qp QpCredit.

Section laws.
Context {V : Verbs} {VL : VerbsLaws V}.
Implicit Types (st : agent) (q : nat).

(** ** When the wait for a buffer ends *)
Lemma poll_cq_once_idle st :
  ok st -> cq_load (dev st) = 0 ->
  exists st', poll_cq_once st = Done (None, st') /\ ok st' /\ cq_load (dev st') = 0.
Proof.
  intros Hok Hl. destruct (poll_cq_once_ok st) as (c & st' & E & Hp & Hl' & _); [by eapply agent_ok_credits|].
  pose proof (zlen_send_nonneg (dev st')). destruct c; [lia|].
  exists st'. split; [done|]. split; [by eapply agent_ok_polled|lia].
Qed.

(** Without a signaled request in flight, nothing is ever polled. *)
Lemma poll_cq_a_wc_idle fuel : forall st,
  ok st -> cq_load (dev st) = 0 -> poll_cq_a_wc fuel st = Fault Diverges.
Proof.
  induction fuel as [|fuel IH]; intros st Hok Hl; [done|]. simpl.
  destruct (poll_cq_once_idle st Hok Hl) as (st' & -> & Hok' & Hl'). simpl. by apply IH.
Qed.

(** 32 requests in flight include a signaled one. *)
Lemma signaled_in_flight st q p :
  ok st -> qps st !! q = Some p -> kMaxSignal <= counter (rpc_send p) -> 0 < cq_load (dev st).
Proof.
  intros Hok Hp Hc. destruct (counter_in_flight st q p Hok Hp) as (E & _ & _ & _ & Hu).
  pose proof (cq_load_le (dev st) q). pose proof (nsig_nonneg (in_flight (dev st) q)).
  destruct (Z.eq_dec (nsig (in_flight (dev st) q)) 0) as [E0|]; [|lia].
  rewrite unsignaled_all in Hu by done. lia.
Qed.

(** *** Returning

    [halts f]: with enough fuel, [f] returns, and always the same. *)
Definition halts {A} (f : nat -> outcome A) : Prop :=
  exists N a, forall fuel, (N <= fuel)%nat -> f fuel = Done a.

Lemma halts_done {A} (a : A) : halts (fun _ => Done a).
Proof. by exists 0%nat, a. Qed.

Lemma halts_bind {A B} (f : nat -> outcome A) (g : A -> nat -> outcome B) :
  halts f -> (forall a fuel, f fuel = Done a -> halts (g a)) ->
  halts (fun fuel => let! a := f fuel in g a fuel).
Proof.
  intros (N & a & Hf) Hg. destruct (Hg a N (Hf N ltac:(lia))) as (M & b & Hb).
  exists (Nat.max N M), b. intros fuel Hle. rewrite Hf by lia. simpl. apply Hb. lia.
Qed.

Lemma halts_ext {A} (f g : nat -> outcome A) : (forall fuel, f fuel = g fuel) -> halts f -> halts g.
Proof. intros E (N & a & H). exists N, a. intros. rewrite <- E. auto. Qed.

Lemma poll_cq_a_wc_returns {VP : VerbsProgress V} fuel : forall st,
  credits st -> 0 < cq_load (dev st) -> (delay (dev st) < fuel)%nat ->
  exists c st', (forall fuel', (fuel <= fuel')%nat -> poll_cq_a_wc fuel' st = Done (c, st')) /\
    polled st st' /\ cq_load (dev st') < cq_load (dev st).
Proof.
  induction fuel as [|fuel IH]; intros st Hok Hl Hf; [lia|].
  destruct (poll_cq_once_ok st) as (c & st1 & E & Hp & Hl1 & Hn); [done|].
  destruct c as [c|].
  - exists c, st1. split; [|split; [done|lia]]. intros [|fuel'] Hle; [lia|]. simpl. by rewrite E.
  - pose proof (poll_progress _ _ 1 ltac:(lia) Hl (Hn eq_refl)).
    destruct (IH st1) as (c & st2 & H1 & H2 & H3); [apply Hp|lia|lia|].
    exists c, st2. split; [|split; [by eapply polled_trans|lia]].
    intros [|fuel'] Hle; [lia|]. simpl. rewrite E. simpl. apply H1. lia.
Qed.

Lemma check_signal_halts {VP : VerbsProgress V} st :
  credits st -> (signal_counter (send_cq st) = cq_len (send_cq st) -> 0 < cq_load (dev st)) ->
  halts (fun fuel => check_signal fuel st).
Proof.
  intros Hc Hl. unfold check_signal. case_match eqn:E; zbool; [|apply halts_done].
  destruct (poll_cq_try_ok st 16 Hc) as (cs & st1 & -> & Hp & Hl1); [done|]. simpl.
  destruct cs as [|c cs]; [|apply halts_done].
  destruct (poll_cq_a_wc_returns (S (delay (dev st1))) st1) as (c & st2 & Hpoll & _ & _).
  { apply Hp. }
  { unfold zlen in Hl1. simpl in Hl1. specialize (Hl E). lia. }
  { lia. }
  exists (S (delay (dev st1))), st2. intros fuel Hle. by rewrite Hpoll.
Qed.

Lemma wait_send_room_returns {VP : VerbsProgress V} n q : forall st p,
  ok st -> qps st !! q = Some p -> pending_cnt (rpc_send p) <= kStaticSendBuf - kMaxSignal ->
  cq_load (dev st) <= Z.of_nat n ->
  halts (fun fuel => wait_send_room fuel st q).
Proof.
  induction n as [n IH] using lt_wf_ind. intros st p Hok Hp Hpend Hn.
  destruct (counter_in_flight st q p Hok Hp) as (Ec & Hp0 & Hw & _).
  pose proof (zlen_nonneg (in_flight (dev st) q)).
  destruct (Z.leb_spec kStaticSendBuf (counter (rpc_send p) + pending_cnt (rpc_send p))) as [Hfull|Hroom].
  2:{ exists 1%nat, st. intros [|fuel] Hle; [lia|]. cbn [wait_send_room]. unfold get_qp. rewrite Hp. simpl.
      rewrite wrap_small by (unfold in_width, kStaticSendBuf, kMaxSignal in *; lia).
      by rewrite (proj2 (Z.leb_gt _ _)). }
  pose proof (signaled_in_flight st q p Hok Hp ltac:(lia)) as Hl.
  destruct (poll_cq_a_wc_returns (S (delay (dev st))) st (agent_ok_credits _ _ _ Hok) Hl) as (c & st1 & Hpoll & Hpo & Hl1); [lia|].
  destruct (po_qps _ _ Hpo q) as (D & _ & _ & HQ).
  destruct (IH (Z.to_nat (cq_load (dev st1)))) with (st := st1) (p := credit_to p (in_flight (dev st1) q))
    as (N & st2 & HN); [pose proof (zlen_send_nonneg (dev st1)); lia|by eapply agent_ok_polled|by apply HQ|done|lia|].
  exists (S (Nat.max N (delay (dev st)))), st2. intros [|fuel] Hle; [lia|].
  cbn [wait_send_room]. unfold get_qp. rewrite Hp. simpl of_option. rewrite obind_done.
  rewrite wrap_small by (unfold in_width, kStaticSendBuf, kMaxSignal in *; lia).
  rewrite (proj2 (Z.leb_le _ _)) by lia.
  rewrite (proj2 (Z.eqb_neq (counter (rpc_send p)) 0)) by (unfold kMaxSignal, kStaticSendBuf in *; lia).
  rewrite obind_done, Hpoll by lia. rewrite obind_done. apply HN. lia.
Qed.

Lemma check_signal_idle fuel st : ok st -> check_signal fuel st = Done st.
Proof.
  intros Hok. unfold check_signal. pose proof (ao_len _ _ _ Hok).
  by rewrite (proj2 (Z.eqb_neq _ _)) by lia.
Qed.

Lemma get_send_msg_sg_halts {VP : VerbsProgress V} st q p :
  ok st -> qps st !! q = Some p -> pending_cnt (rpc_send p) <= kStaticSendBuf - kMaxSignal ->
  halts (fun fuel => get_send_msg_sg fuel st q).
Proof.
  intros Hok Hp Hpend. pose proof (zlen_send_nonneg (dev st)). unfold get_send_msg_sg.
  apply halts_bind; [|intros st1 fuel E1].
  { apply check_signal_halts; [by eapply agent_ok_credits|]. pose proof (ao_len _ _ _ Hok). lia. }
  rewrite check_signal_idle in E1 by done. injection E1 as <-.
  apply halts_bind; [apply (wait_send_room_returns (Z.to_nat (cq_load (dev st))) q st p); done || lia|].
  intros st1 fuel' E.
  destruct (safe_inv _ _ _ (wait_send_room_ok fuel' q st p Hok Hp) E) as (p1 & Hw & Hr).
  destruct (get_send_wr_ok st1 q p1) as (s & st2 & p2 & -> & _); [apply Hw|apply Hw|done|].
  apply halts_done.
Qed.

(** *** A post *)
Lemma account_wr_halts {VP : VerbsProgress V} st q id p s :
  credits st -> qps st !! q = Some p -> zget (slots (rpc_send p)) id = Some s ->
  (signal_counter (send_cq st) + 1 = cq_len (send_cq st) -> 0 < cq_load (dev st)) ->
  signal_counter (send_cq st) < 2 ^ 32 - 1 ->
  halts (fun fuel => account_wr fuel st q false id).
Proof.
  intros Hc Hp Hs Hl Hlt. pose proof (zget_Some_range _ _ _ Hs). pose proof (cs_load _ Hc).
  pose proof (zlen_send_nonneg (dev st)).
  unfold account_wr, get_qp. rewrite Hp. simpl. rewrite (load_in_range _ _ _ Hs). simpl.
  destruct (is_signaled _); [|apply halts_done]. unwrap.
  apply halts_bind.
  { apply check_signal_halts; [apply credits_signal_counter; [done|lia]|done]. }
  intros st2 fuel E.
  set (fin := let! p := _ in _). apply (halts_ext (fun _ => fin)); [done|].
  destruct fin as [st3|fl] eqn:Efin; [apply halts_done|]. exfalso.
  assert (Hpo : polled (with_signal_counter st (signal_counter (send_cq st) + 1)) st2).
  { destruct (Z.le_gt_cases (signal_counter (send_cq st) + 1) (cq_len (send_cq st))).
    - eapply safe_inv in E; [|apply check_signal_ok]; [by destruct E| |done].
      apply credits_signal_counter; [done|lia].
    - unfold check_signal in E. simpl in E. rewrite (proj2 (Z.eqb_neq _ _)) in E by lia.
      injection E as <-. apply polled_refl, credits_signal_counter; [done|lia]. }
  destruct (po_qps _ _ Hpo q) as (D & _ & _ & HQ). specialize (HQ p Hp).
  unfold fin in Efin. rewrite HQ in Efin. simpl in Efin.
  rewrite (update_slot_done st2 q false id _ _ s HQ) in Efin by done. simpl in Efin.
  rewrite list_lookup_insert_eq in Efin by by eapply lookup_lt_Some. done.
Qed.

Lemma generate_wr_halts {VP : VerbsProgress V} st0 q p0 B st :
  generating st0 q p0 B st -> zlen B < pending_cnt (rpc_send p0) ->
  pending_cnt (rpc_send p0) < cq_len (send_cq st) ->
  halts (fun fuel => generate_wr fuel st q (begin_id (rpc_send p0)) (pending_cnt (rpc_send p0)) false false (zlen B)).
Proof.
  intros Hg Hlt Hcq.
  destruct (generating_slot _ _ _ _ _ Hg Hlt) as (p & s0 & Hp & Hq & Hbeg & Hpend & Hs0 & Hs & Hslot).
  pose proof (ge_ok _ _ _ _ _ Hg) as Hok.
  unfold generate_wr, kMaxWr. set (nx := link _ _ _).
  replace ((zlen B + begin_id (rpc_send p0)) mod kStaticSendBuf)
    with (ring_pos (begin_id (rpc_send p0)) (zlen B)) by (unfold ring_pos; f_equal; lia).
  pose proof (qo_bf_bound _ _ _ _ _ Hq). pose proof (qo_bf _ _ _ _ _ Hq).
  pose proof (unsignaled_range 0 (in_flight (dev st) q ++ B) ltac:(lia)).
  destruct (qo_one _ _ _ _ _ Hq) as [_ Hone].
  set (id := ring_pos _ (zlen B)) in *.
  rewrite (number_wr_done st q id nx p s0) by (done || lia).
  set (bf := cnt_bf_signal (rpc_send p) + 1) in *. set (s1 := numbered s0 nx bf).
  apply (halts_ext (fun fuel => let! st := account_wr fuel (with_qp st q (put_slot p id s1 bf)) q false id in Done st)).
  { intros fuel. by rewrite obind_done. }
  apply halts_bind; [|intros; apply halts_done].
  destruct (numbered_request s0 nx bf id) as [Hrq _].
  pose proof (ao_sig _ _ _ Hok). pose proof (ao_len _ _ _ Hok).
  assert (Hn : nsig B <= zlen B) by (unfold nsig, zlen; pose proof (length_filter (fun w => signaled w = true) B); lia).
  eapply (account_wr_halts _ q id (put_slot p id s1 bf) s1); simpl.
  - pose proof (credits_put_slot st _ _ q p s1 bf Hok Hp) as Hc. unfold batch in Hc.
    rewrite decide_True, Hbeg in Hc by done. apply Hc; [done|lia|by eapply request_slot_ok].
  - apply list_lookup_insert_eq. by eapply lookup_lt_Some.
  - apply zget_zset_eq. by eapply zget_Some_range.
  - lia.
  - lia.
Qed.

Lemma generate_halts {VP : VerbsProgress V} st0 q p0 n : forall B st,
  generating st0 q p0 B st -> Z.of_nat n = pending_cnt (rpc_send p0) - zlen B ->
  pending_cnt (rpc_send p0) < cq_len (send_cq st0) ->
  halts (fun fuel => generate fuel st q (begin_id (rpc_send p0)) (pending_cnt (rpc_send p0)) false false (zlen B) n).
Proof.
  induction n as [|n IH]; intros B st Hg Hn Hcq; cbn [generate]; [apply halts_done|].
  apply halts_bind.
  { apply (generate_wr_halts st0); [done|lia|]. by rewrite (sb_len _ _ (ge_same _ _ _ _ _ Hg)). }
  intros st1 fuel E.
  destruct (safe_inv _ _ _ (generate_wr_ok fuel st0 q p0 B st Hg ltac:(lia)) E) as [w Hg'].
  rewrite <- (zlen_snoc B w). apply IH; [done|rewrite zlen_snoc; lia|done].
Qed.

(** A post of fewer messages than the completion queue has entries returns. *)
Lemma post_appended_smsg_halts {VP : VerbsProgress V} st q p master :
  ok st -> qps st !! q = Some p -> pending_cnt (rpc_send p) < cq_len (send_cq st) ->
  halts (fun fuel => post_appended_smsg fuel st q master false).
Proof.
  intros Hok Hp Hcq. pose proof (qo_batch _ _ _ _ _ (ao_qps _ _ _ Hok q p Hp)) as Hb.
  unfold zlen in Hb. simpl in Hb.
  unfold post_appended_smsg, get_qp, generate_and_issue_batch. rewrite Hp. simpl of_option.
  apply (halts_ext (fun fuel => if pending_cnt (rpc_send p) =? 0 then Done (false, st)
    else let! st := generate fuel st q (begin_id (rpc_send p)) (pending_cnt (rpc_send p)) false false 0
                      (Z.to_nat (pending_cnt (rpc_send p))) in
         let! st := issue st q (begin_id (rpc_send p)) (pending_cnt (rpc_send p)) false false in
         let! st := reset_pending st q false in
         if master then
           let! p := of_option OutOfBounds (qps st !! q) in
           if pending_cnt (one_side p) =? 0 then Done (true, st) else Fault ProcessExit
         else Done (false, st))).
  { intros fuel. rewrite obind_done. case_match; [done|]. by destruct (generate _ _ _ _ _ _ _ _ _). }
  destruct (Z.eqb_spec (pending_cnt (rpc_send p)) 0) as [|Hne]; [apply halts_done|].
  apply halts_bind.
  { change 0 with (zlen (@nil wreq)). eapply (generate_halts st); [by apply generating_init| |done].
    unfold zlen. simpl. lia. }
  intros st1 fuel E.
  assert (Hg : exists B, generating st q p B st1 /\ zlen B = pending_cnt (rpc_send p)).
  { apply (safe_inv _ _ st1 (generate_ok fuel st q p (Z.to_nat (pending_cnt (rpc_send p))) [] st
      (generating_init st q p Hok Hp) ltac:(unfold zlen; simpl; lia))). exact E. }
  destruct Hg as (B & Hg & HB).
  destruct (post_batch_done _ _ _ _ _ Hg HB ltac:(lia)) as (st2 & E2 & Hpe).
  destruct (issue _ _ _ _ _ _) as [st3|]; [|done]. simpl in E2. simpl. rewrite E2. simpl.
  destruct master; [|apply halts_done].
  destruct (pe_qp _ _ _ _ _ Hpe) as (p2 & Hp2 & _). rewrite Hp2. simpl.
  destruct (qo_one _ _ _ _ _ (ao_qps _ _ _ (pe_ok _ _ _ _ _ Hpe) q p2 Hp2)) as [-> _]. apply halts_done.
Qed.

(** *** What a returning operation leaves

    [returns f P]: with enough fuel [f] returns, and [P] holds of the result. *)
Definition returns {A} (f : nat -> outcome A) (P : A -> Prop) : Prop :=
  exists N a, (forall fuel, (N <= fuel)%nat -> f fuel = Done a) /\ P a.

Lemma returns_done {A} (a : A) (P : A -> Prop) : P a -> returns (fun _ => Done a) P.
Proof. by exists 0%nat, a. Qed.

Lemma returns_bind {A B} (f : nat -> outcome A) (g : A -> nat -> outcome B) P Q :
  returns f P -> (forall a, P a -> returns (g a) Q) -> returns (fun fuel => let! a := f fuel in g a fuel) Q.
Proof.
  intros (N & a & Hf & Ha) Hg. destruct (Hg a Ha) as (M & b & Hb & Q').
  exists (Nat.max N M), b. split; [|done]. intros fuel Hle. rewrite Hf by lia. simpl. apply Hb. lia.
Qed.

Lemma returns_ext {A} (f g : nat -> outcome A) P : (forall fuel, f fuel = g fuel) -> returns f P -> returns g P.
Proof. intros E (N & a & Hf & Ha). exists N, a. split; [|done]. intros. rewrite <- E. auto. Qed.

Lemma returns_mono {A} (f : nat -> outcome A) (P Q : A -> Prop) :
  returns f P -> (forall a, P a -> Q a) -> returns f Q.
Proof. intros (N & a & Hf & Ha) H. exists N, a. auto. Qed.

Lemma returns_intro {A} (f : nat -> outcome A) (P : A -> Prop) :
  halts f -> (forall fuel a, f fuel = Done a -> P a) -> returns f P.
Proof. intros (N & a & Hf) H. exists N, a. split; [done|]. apply (H N), Hf. lia. Qed.

(** The addresses of the buffers of a queue pair. *)
Definition addresses (p : QPInfo) : list Z := map (fun s => addr (sg_list s)) (slots (rpc_send p)).

(** [n] messages have been appended to [q]; apart from that only completions came. *)
Record advanced (n : Z) (st : agent) (q : nat) (p : QPInfo) (st' : agent) (p' : QPInfo) : Prop := {
  ad_ok : ok st';
  ad_qp : qps st' !! q = Some p';
  ad_types : forall q' p1, qps st' !! q' = Some p1 -> exists p2, qps st !! q' = Some p2 /\ type p2 = type p1;
  ad_type : type p' = type p;
  ad_pos : buf_pos (rpc_send p') = ring_pos (buf_pos (rpc_send p)) n;
  ad_pending : pending_cnt (rpc_send p') = pending_cnt (rpc_send p) + n;
  ad_addresses : addresses p' = addresses p;
  ad_same : same_but_credits st st';
  ad_recv : forall q', recv_queue (dev st') q' = recv_queue (dev st) q';
  ad_flight : exists done, in_flight (dev st) q = done ++ in_flight (dev st') q }.

Lemma advanced_trans n m st1 q p1 st2 p2 st3 p3 :
  advanced n st1 q p1 st2 p2 -> advanced m st2 q p2 st3 p3 -> advanced (n + m) st1 q p1 st3 p3.
Proof.
  intros [A1 A2 A3 A4 A5 A6 A7 A8 A9 [D1 A10]] [B1 B2 B3 B4 B5 B6 B7 B8 B9 [D2 B10]].
  split; try done; try congruence; try lia.
  - intros q' p' (p4 & H1 & H2)%B3. apply A3 in H1 as (p5 & H3 & H4). exists p5. split; [done|congruence].
  - rewrite B5, A5. unfold ring_pos, kStaticSendBuf, kMaxSignal. lia.
  - by eapply same_but_credits_trans.
  - exists (D1 ++ D2). by rewrite A10, B10, app_assoc.
Qed.

Lemma ring_pos_0 q nc p L B : qp_ok q nc p L B -> ring_pos (buf_pos (rpc_send p)) 0 = buf_pos (rpc_send p).
Proof. intros H. pose proof (qo_pos _ _ _ _ _ H). unfold ring_pos, kStaticSendBuf, kMaxSignal in *. lia. Qed.

Lemma advanced_polled st q p st' :
  ok st -> qps st !! q = Some p -> polled st st' -> exists p', advanced 0 st q p st' p'.
Proof.
  intros Hok Hp Hpo. destruct (po_qps _ _ Hpo q) as (D & E & _ & HQ).
  exists (credit_to p (in_flight (dev st') q)). split; try done.
  - by eapply agent_ok_polled.
  - by apply HQ.
  - intros q' p1 Hp1. assert (Hlt : (q' < length (qps st))%nat).
    { rewrite <- (sb_qps _ _ (po_same _ _ Hpo)). by eapply lookup_lt_Some. }
    apply lookup_lt_is_Some_2 in Hlt as [p2 Hp2]. destruct (po_qps _ _ Hpo q') as (_ & _ & _ & HQ').
    rewrite (HQ' p2 Hp2) in Hp1. injection Hp1 as <-. by exists p2.
  - simpl. symmetry. eapply ring_pos_0. by apply (ao_qps _ _ _ Hok).
  - simpl. lia.
  - apply Hpo.
  - apply Hpo.
  - by exists D.
Qed.

(** A change of the slot at the write position that leaves its buffer. *)
Lemma advanced_touch st q p f :
  ok st -> qps st !! q = Some p -> room p ->
  (forall s, slot_ok q (length (coro_ctxs st)) s ->
     slot_ok q (length (coro_ctxs st)) (f s) /\ addr (sg_list (f s)) = addr (sg_list s)) ->
  exists st' p' s, update_slot st q false (buf_pos (rpc_send p)) f = Done st' /\ advanced 0 st q p st' p' /\
    room p' /\ dev st' = dev st /\
    zget (slots (rpc_send p)) (buf_pos (rpc_send p)) = Some s /\
    zget (slots (rpc_send p')) (buf_pos (rpc_send p')) = Some (f s).
Proof.
  intros Hok Hp Hr Hf. pose proof (ao_qps _ _ _ Hok q p Hp) as Hq.
  destruct (touch_ok st q p f Hok Hp Hr) as (s & Hs & E & Hok'); [intros s Hs; by apply Hf|].
  assert (Hsl : slot_ok q (length (coro_ctxs st)) s).
  { destruct (slots_range q _ p _ _ (buf_pos (rpc_send p)) Hq) as (s1 & E1 & ?); [apply Hq|].
    rewrite Hs in E1. by injection E1 as ->. }
  destruct (Hf s Hsl) as [_ Ha].
  exists (with_qp st q (touch p (f s))), (touch p (f s)), s. split; [done|].
  split; [split; try done|split; [exact Hr|split; [done|split; [done|]]]].
  - by eapply lookup_with_qp.
  - intros q' p1 Hp1. simpl in Hp1. destruct (decide (q' = q)) as [->|].
    + rewrite list_lookup_insert_eq in Hp1 by (by eapply lookup_lt_Some). injection Hp1 as <-. by exists p.
    + rewrite list_lookup_insert_ne in Hp1 by done. by exists p1.
  - simpl. symmetry. by eapply ring_pos_0.
  - simpl. lia.
  - unfold addresses. simpl. unfold zget, zset in *. case_decide; [|done].
    change (@map ?A ?B ?f) with (@fmap list _ A B f). rewrite list_fmap_insert, Ha.
    apply list_insert_id. rewrite list_lookup_fmap, Hs. done.
  - split; simpl; rewrite ?length_insert; done.
  - by exists [].
  - simpl. apply zget_zset_eq. by eapply zget_Some_range.
Qed.

(** While few messages are pending, the wait does not post. *)
Lemma wait_send_room_polls fuel q : forall st p st',
  ok st -> qps st !! q = Some p -> pending_cnt (rpc_send p) <= kStaticSendBuf - kMaxSignal ->
  wait_send_room fuel st q = Done st' -> polled st st'.
Proof.
  induction fuel as [|fuel IH]; intros st p st' Hok Hp Hpend E; [done|]. cbn [wait_send_room] in E.
  unfold get_qp in E. rewrite Hp in E. simpl of_option in E. rewrite obind_done in E.
  destruct (counter_in_flight st q p Hok Hp) as (Ec & Hp0 & Hw & _).
  pose proof (zlen_nonneg (in_flight (dev st) q)).
  rewrite wrap_small in E by (unfold in_width, kStaticSendBuf, kMaxSignal in *; lia).
  destruct (Z.leb_spec kStaticSendBuf (counter (rpc_send p) + pending_cnt (rpc_send p))).
  2:{ injection E as <-. eapply polled_refl, agent_ok_credits, Hok. }
  rewrite (proj2 (Z.eqb_neq (counter (rpc_send p)) 0)) in E by (unfold kMaxSignal, kStaticSendBuf in *; lia).
  rewrite obind_done in E.
  apply obind_inv in E as ([c st1] & E1 & E2).
  destruct (safe_inv _ _ _ (poll_cq_a_wc_ok (S fuel) st (agent_ok_credits _ _ _ Hok)) E1) as [Hpo _].
  simpl in Hpo. eapply polled_trans; [done|].
  destruct (po_qps _ _ Hpo q) as (D & _ & _ & HQ).
  eapply (IH st1 (credit_to p (in_flight (dev st1) q))); [by eapply agent_ok_polled|by apply HQ|done|done].
Qed.

(** get_send_msg_sg with few messages pending. *)
Lemma get_send_msg_sg_returns {VP : VerbsProgress V} st q p :
  ok st -> qps st !! q = Some p -> pending_cnt (rpc_send p) <= kStaticSendBuf - kMaxSignal ->
  returns (fun fuel => get_send_msg_sg fuel st q) (fun r => exists p' s,
    advanced 0 st q p r.2 p' /\ room p' /\
    zget (slots (rpc_send p')) (buf_pos (rpc_send p')) = Some s /\ r.1 = sg_list s).
Proof.
  intros Hok Hp Hpend. apply returns_intro; [by eapply get_send_msg_sg_halts|].
  intros fuel [sg st3] E. unfold get_send_msg_sg in E. rewrite check_signal_idle, obind_done in E by done.
  apply obind_inv in E as (st1 & E1 & E).
  pose proof (wait_send_room_polls _ _ _ _ _ Hok Hp Hpend E1) as Hpo.
  destruct (safe_inv _ _ _ (wait_send_room_ok fuel q st p Hok Hp) E1) as (p1 & Hw1 & Hr1).
  destruct (advanced_polled st q p st1 Hok Hp Hpo) as [p1' Ha1].
  assert (p1' = p1) as ->.
  { pose proof (ad_qp _ _ _ _ _ _ Ha1) as H1. rewrite (wa_qp _ _ _ _ _ Hw1) in H1. by injection H1. }
  destruct (advanced_touch st1 q p1 (fun s => set_coro_ctx s None)) as (st2 & p2 & s & E2 & Ha2 & Hr2 & _ & Hs & Hs2);
    [apply Hw1|apply Hw1|done|by intros s []|].
  unfold get_send_wr, get_qp in E. rewrite (wa_qp _ _ _ _ _ Hw1) in E. simpl of_option in E.
  rewrite obind_done, E2, obind_done, (ad_qp _ _ _ _ _ _ Ha2) in E. simpl of_option in E. rewrite obind_done in E.
  assert (Hbp : buf_pos (rpc_send p2) = buf_pos (rpc_send p1)).
  { rewrite (ad_pos _ _ _ _ _ _ Ha2). eapply ring_pos_0. apply (ao_qps _ _ _ (wa_ok _ _ _ _ _ Hw1)), Hw1. }
  rewrite <- Hbp, (load_in_range _ _ _ Hs2) in E. simpl in E. injection E as <- <-.
  exists p2, (set_coro_ctx s None). split; [by eapply (advanced_trans 0 0)|]. done.
Qed.

(** ** The properties *)

(** C40. With at most 96 messages pending, get_send_msg_sg returns: when the ring
    is full, at least 32 messages are in flight, so one of them is signaled, and
    its completion arrives. *)
Theorem get_send_msg_returns {VP : VerbsProgress V} fuel st0 os st q p :
  fresh st0 -> Forall (op_ok (length (qps st0)) (length (coro_ctxs st0))) os ->
  run fuel st0 os = Done st -> qps st !! q = Some p ->
  pending_cnt (rpc_send p) <= kStaticSendBuf - kMaxSignal ->
  exists N, forall fuel', (N <= fuel')%nat -> exists sg st', get_send_msg_sg fuel' st q = Done (sg, st').
Proof.
  intros Hf Hos Hrun Hp Hpend.
  destruct (safe_inv _ _ _ (run_ok fuel os st0 (fresh_ok _ Hf) Hos) Hrun) as [Hok Hs].
  destruct (get_send_msg_sg_halts st q p Hok Hp Hpend) as (N & [sg st'] & HN).
  exists N. intros fuel' Hle. exists sg, st'. auto.
Qed.

(** It can also wait forever: when the ring is full, a few messages are in
    flight and none of them is signaled, no completion will come, and the code
    posts the pending ones only if nothing is in flight. *)
Theorem get_send_msg_stuck fuel st0 os st q p fuel' :
  fresh st0 -> Forall (op_ok (length (qps st0)) (length (coro_ctxs st0))) os ->
  run fuel st0 os = Done st -> qps st !! q = Some p ->
  cq_load (dev st) = 0 -> 0 < counter (rpc_send p) ->
  kStaticSendBuf <= counter (rpc_send p) + pending_cnt (rpc_send p) ->
  get_send_msg_sg fuel' st q = Fault Diverges.
Proof.
  intros Hf Hos Hrun Hp Hl Hc Hfull.
  destruct (safe_inv _ _ _ (run_ok fuel os st0 (fresh_ok _ Hf) Hos) Hrun) as [Hok Hs].
  destruct (counter_in_flight st q p Hok Hp) as (_ & Hp0 & Hw & _).
  unfold get_send_msg_sg. rewrite check_signal_idle by done. rewrite obind_done.
  destruct fuel' as [|fuel']; [done|]. cbn [wait_send_room]. unfold get_qp. rewrite Hp. simpl of_option.
  rewrite obind_done, wrap_small by (unfold in_width, kStaticSendBuf, kMaxSignal in *; lia).
  rewrite (proj2 (Z.leb_le _ _)) by done. rewrite (proj2 (Z.eqb_neq (counter _) 0)) by lia.
  by rewrite obind_done, poll_cq_a_wc_idle by done.
Qed.

End laws.

(** ** Witnesses, on the samples of [QpCredit] *)
#[local] Existing Instances QpDevice.verbs QpDevice.laws QpDevice.progress.

Definition blocked : list op := sends 31 0 ++ [Post 0 false] ++ sends 97 0.

Lemma blocked_ok : Forall (op_ok 1 1) blocked.
Proof. unfold blocked. rewrite !Forall_app. repeat split; try apply sends_ok. repeat constructor. Qed.

Lemma get_send_msg_returns_witness :
  exists N, forall fuel, (N <= fuel)%nat -> exists sg st, get_send_msg_sg fuel (after busy) 0 = Done (sg, st).
Proof.
  apply (get_send_msg_returns 200 sample busy (after busy) 0 (qp0 (after busy)) sample_fresh busy_ok);
    [vm_compute; reflexivity|vm_compute; reflexivity|vm_compute; discriminate].
Defined.

Lemma get_send_msg_stuck_witness : get_send_msg_sg 1000 (after blocked) 0 = Fault Diverges.
Proof.
  apply (get_send_msg_stuck 200 sample blocked (after blocked) 0 (qp0 (after blocked)) 1000 sample_fresh blocked_ok);
    [vm_compute; reflexivity|vm_compute; reflexivity|vm_compute; reflexivity|vm_compute; reflexivity|vm_compute; discriminate].
Defined.

End QpWait.
