(* ===== verification/QpRecvModel.v ===== *)
(** * The receive side of a queue pair

    Module [QpRecv]: the receive buffers of rdma/struct/qp_info.h.  64 batches of
    kBatchRecv buffers are posted to the device, messages arrive in the order the
    buffers were posted, and a batch is posted again when the messages of the next
    one are being freed.  The code finds the buffer of a message by counting, not
    in its completion; [recv_ok] says why that is right.  Multi-packet receives
    are not modelled. *)

From S2P Require Import Prelude QpModel QpDeviceModel.

Module QpRecv.
Import Qp.

Definition POSTPIPE : Z := 64.

(** BatchRecvWr: the buffers of its requests and their wr_info; [sg_set] is
    false while WrInfo::sg_list is an uninitialised pointer. *)
Record BatchRecvWr := { sglist : list ibv_sge; current_sg : list Z; sg_set : bool }.

(** The members of QPInfo that receiving uses. *)
Record RecvSide := {
  kBatchRecv : Z;
  recv_buf_cnt : Z;
  recv_processing_cnt : Z;
  recv_buf_pos : Z;
  recv_postpipe_pos : Z;
  rpc_recv_wr : list BatchRecvWr;
  gsrq_count : list Z;
  tsrq_count : list Z;
  recv_offset : Z;
  recv_msg_size : Z }.

Definition with_batches (r : RecvSide) (l : list BatchRecvWr) : RecvSide :=
  {| kBatchRecv := kBatchRecv r; recv_buf_cnt := recv_buf_cnt r;
     recv_processing_cnt := recv_processing_cnt r; recv_buf_pos := recv_buf_pos r;
     recv_postpipe_pos := recv_postpipe_pos r; rpc_recv_wr := l; gsrq_count := gsrq_count r;
     tsrq_count := tsrq_count r; recv_offset := recv_offset r; recv_msg_size := recv_msg_size r |}.

Definition with_counts (r : RecvSide) (cnt processing pos postpipe : Z) : RecvSide :=
  {| kBatchRecv := kBatchRecv r; recv_buf_cnt := cnt; recv_processing_cnt := processing;
     recv_buf_pos := pos; recv_postpipe_pos := postpipe; rpc_recv_wr := rpc_recv_wr r;
     gsrq_count := gsrq_count r; tsrq_count := tsrq_count r; recv_offset := recv_offset r;
     recv_msg_size := recv_msg_size r |}.

Definition with_srq (r : RecvSide) (g t : list Z) : RecvSide :=
  {| kBatchRecv := kBatchRecv r; recv_buf_cnt := recv_buf_cnt r;
     recv_processing_cnt := recv_processing_cnt r; recv_buf_pos := recv_buf_pos r;
     recv_postpipe_pos := recv_postpipe_pos r; rpc_recv_wr := rpc_recv_wr r; gsrq_count := g;
     tsrq_count := t; recv_offset := recv_offset r; recv_msg_size := recv_msg_size r |}.

Definition new_batch (k : Z) : BatchRecvWr :=
  {| sglist := replicate (Z.to_nat k) {| addr := 0; len := 0 |};
     current_sg := replicate (Z.to_nat k) 0; sg_set := false |}.

(** QPInfo(srq_config): [qp_len] is FLAGS_qp_len, [normal_srq_len] the entry of
    the configuration, 0 without one. *)
Definition batch_size (qp_len normal_srq_len : Z) : Z :=
  if negb (normal_srq_len =? 0) && (qp_len <? normal_srq_len) then normal_srq_len / POSTPIPE
  else qp_len / POSTPIPE.

Definition construct (qp_len normal_srq_len : Z) (counts : list Z) : RecvSide :=
  let k := batch_size qp_len normal_srq_len in
  {| kBatchRecv := k; recv_buf_cnt := 0; recv_processing_cnt := 0; recv_buf_pos := 0;
     recv_postpipe_pos := 0; rpc_recv_wr := replicate (Z.to_nat POSTPIPE) (new_batch k);
     gsrq_count := counts; tsrq_count := counts; recv_offset := 0; recv_msg_size := 0 |}.

Definition get_send_msg_num : Z := kStaticSendBuf.
Definition get_recv_msg_num (r : RecvSide) : Z := wrap 32 (kBatchRecv r * POSTPIPE).

(** config_msg_buf: the queue pair takes its buffers from the offsets it is given
    and returns where the next one's begin: send_offset, send_msg_size and the
    receive side, then the two offsets. *)
Definition config_msg_buf (r : RecvSide) (send_offset_ recv_offset_ send_msg_size_ recv_msg_size_ : Z) : (Z * Z * RecvSide) * (Z * Z) :=
  let send_msg_size := wrap 32 (ALIGNMENT_XB send_msg_size_ 64) in
  let recv_msg_size_ := wrap 32 (ALIGNMENT_XB recv_msg_size_ 64) in
  ((send_offset_, send_msg_size,
    {| kBatchRecv := kBatchRecv r; recv_buf_cnt := recv_buf_cnt r;
       recv_processing_cnt := recv_processing_cnt r; recv_buf_pos := recv_buf_pos r;
       recv_postpipe_pos := recv_postpipe_pos r; rpc_recv_wr := rpc_recv_wr r;
       gsrq_count := gsrq_count r; tsrq_count := tsrq_count r;
       recv_offset := recv_offset_; recv_msg_size := recv_msg_size_ |}),
   (wrap 32 (send_offset_ + send_msg_size * get_send_msg_num),
    wrap 32 (recv_offset_ + recv_msg_size_ * get_recv_msg_num r))).

(** config_raw_msg_buf and config_ud_msg_buf: room for the headers of the type. *)
Definition config_typed_msg_buf (type_ : Z) (r : RecvSide) (send_offset_ recv_offset_ send_msg_size_ recv_msg_size_ : Z) : outcome ((Z * Z * RecvSide) * (Z * Z)) :=
  let! sh := load send_header_size type_ in
  let! rh := load recv_header_size type_ in
  Done (config_msg_buf r send_offset_ recv_offset_ (send_msg_size_ + sh) (recv_msg_size_ + rh)).

(** init_sglist and add_sg_to_wr of one request, whose list has kMaxSgList = 1
    entry: the entry before the call is overwritten. *)
Definition init_recv_slot (b : BatchRecvWr) (j : nat) (mr : Region) (off size : Z) : outcome BatchRecvWr :=
  if decide ((j < length (sglist b))%nat) then
    Done {| sglist := <[j := {| addr := wrap 64 (rg_addr mr + off); len := size |}]> (sglist b);
            current_sg := <[j := 1]> (current_sg b); sg_set := sg_set b |}
  else Fault OutOfBounds.

(** The requests from [j] on, [n] of them, of batch [i]; [k] is kBatchRecv. *)
Fixpoint init_recv_batch (b : BatchRecvWr) (k : Z) (i j n : nat) (mr : Region) (offset size : Z) : outcome BatchRecvWr :=
  match n with
  | O => Done b
  | S n =>
      let! b := init_recv_slot b j mr
                  (wrap 32 (offset + wrap 32 (size * wrap 32 (Z.of_nat i * k + Z.of_nat j)))) size in
      init_recv_batch b k i (S j) n mr offset size
  end.

Section ops.
Context {V : Verbs}.

(** A receive queue of the device, the receive side that feeds it. *)
Definition rstate : Type := RecvSide * device.

(** post_batch: the requests of a batch form one linked list.  When a post fails,
    wrBad is set and the program exits. *)
Definition post_batch (q : nat) (st : rstate) (b : nat) : outcome rstate :=
  let '(r, d) := st in
  let! x := of_option OutOfBounds (rpc_recv_wr r !! b) in
  let '(ret, d) := ibv_post_recv d q (map (pair b) (seq 0 (length (sglist x)))) in
  if ret =? 0 then
    Done (with_counts r (wrap 32 (recv_buf_cnt r + Z.of_nat (length (sglist x))))
            (recv_processing_cnt r) (recv_buf_pos r) (recv_postpipe_pos r), d)
  else Fault ProcessExit.

Definition init_batch (q : nat) (srq : bool) (st : rstate) (i : nat) (mr : Region) (offset size : Z) : outcome rstate :=
  let '(r, d) := st in
  let! b := of_option OutOfBounds (rpc_recv_wr r !! i) in
  let b := {| sglist := sglist b; current_sg := current_sg b; sg_set := srq || sg_set b |} in
  let! b := init_recv_batch b (kBatchRecv r) i 0 (Z.to_nat (kBatchRecv r)) mr offset size in
  let r := with_batches r (<[i := b]> (rpc_recv_wr r)) in
  let r := if srq then with_srq r (<[i := kBatchRecv r]> (gsrq_count r)) (<[i := kBatchRecv r]> (tsrq_count r))
           else r in
  post_batch q (r, d) i.

Fixpoint init_batches (q : nat) (srq : bool) (st : rstate) (i n : nat) (mr : Region) (offset size : Z) : outcome rstate :=
  match n with
  | O => Done st
  | S n =>
      let! st := init_batch q srq st i mr offset size in
      init_batches q srq st (S i) n mr offset size
  end.

Definition init_recv_with_one_mr (q : nat) (st : rstate) (mr : Region) : outcome rstate :=
  init_batches q false st 0 (Z.to_nat POSTPIPE) mr (recv_offset st.1) (recv_msg_size st.1).

(** init_srq_with_one_wr: the buffers of a shared receive queue, from offset 0. *)
Definition init_srq_with_one_wr (q : nat) (st : rstate) (mr : Region) : outcome rstate :=
  init_batches q true st 0 (Z.to_nat POSTPIPE) mr 0 (recv_msg_size st.1).

(** Division by zero when kBatchRecv is 0 kills the process. *)
Definition get_recv_msg_sg (r : RecvSide) : outcome (ibv_sge * RecvSide) :=
  if kBatchRecv r =? 0 then Fault ProcessExit
  else
    let batch_id := recv_buf_pos r / kBatchRecv r in
    let slot_id := recv_buf_pos r mod kBatchRecv r in
    let! b := load (rpc_recv_wr r) batch_id in
    let! ret := load (sglist b) slot_id in
    Done (ret, with_counts r (recv_buf_cnt r) (wrap 32 (recv_processing_cnt r + 1))
                 (ADD_ROUND (recv_buf_pos r) (POSTPIPE * kBatchRecv r)) (recv_postpipe_pos r)).

(** The wr_id of a completion is needed for a shared receive queue only. *)
Definition get_recv_msg_addr (type_ : Z) (r : RecvSide) (wc_ : option (nat * nat)) : outcome (Z * RecvSide) :=
  if (type_ =? LOGTSRQ) || (type_ =? LOGGSRQ) then
    let! (b, i) := of_option NullDeref wc_ in
    let! x := of_option OutOfBounds (rpc_recv_wr r !! b) in
    if sg_set x then
      let! sg := of_option OutOfBounds (sglist x !! i) in
      Done (addr sg, r)
    else Fault NullDeref
  else
    let! (sg, r) := get_recv_msg_sg r in
    let! h := load recv_header_size type_ in
    Done (wrap 64 (addr sg + h), r).

Fixpoint check_recv_buf_cnt (fuel : nat) (q : nat) (st : rstate) : outcome rstate :=
  match fuel with
  | O => Fault Diverges
  | S fuel =>
      let '(r, d) := st in
      if recv_buf_cnt r <? wrap 32 ((POSTPIPE - 1) * kBatchRecv r) then
        let b := recv_postpipe_pos r mod POSTPIPE in
        let r := with_counts r (recv_buf_cnt r) (recv_processing_cnt r) (recv_buf_pos r)
                   (wrap 16 (recv_postpipe_pos r + 1)) in
        let! st := post_batch q (r, d) (Z.to_nat b) in
        check_recv_buf_cnt fuel q st
      else Done st
  end.

(** The count of a batch of a shared receive queue, and what the repost resets
    it to. *)
Definition count_down (counts : list Z) (w : Z) (b : nat) : outcome (Z * list Z) :=
  let! c := of_option OutOfBounds (counts !! b) in
  let c := wrap w (c - 1) in
  Done (c, <[b := c]> counts).

Definition free_recv_msg (fuel : nat) (type_ : Z) (q : nat) (st : rstate) (wc_ : option (nat * nat)) : outcome rstate :=
  let '(r, d) := st in
  if type_ =? LOGTSRQ then
    let! (b, _) := of_option NullDeref wc_ in
    let! (c, t) := count_down (tsrq_count r) 32 b in
    if c =? 0 then post_batch q (with_srq r (gsrq_count r) (<[b := kBatchRecv r]> t), d) b
    else Done (with_srq r (gsrq_count r) t, d)
  else if type_ =? LOGGSRQ then
    let! (b, _) := of_option NullDeref wc_ in
    let! (c, g) := count_down (gsrq_count r) 32 b in
    if c =? 0 then post_batch q (with_srq r (<[b := kBatchRecv r]> g) (tsrq_count r), d) b
    else Done (with_srq r g (tsrq_count r), d)
  else
    let r := with_counts r (wrap 32 (recv_buf_cnt r - recv_processing_cnt r)) 0 (recv_buf_pos r)
               (recv_postpipe_pos r) in
    check_recv_buf_cnt fuel q (r, d).

Definition process_next_msg (fuel : nat) (type_ : Z) (q : nat) (st : rstate) : outcome (Z * rstate) :=
  let! (ret, r) := get_recv_msg_addr type_ st.1 None in
  let! st := free_recv_msg fuel type_ q (r, st.2) None in
  Done (ret, st).
End ops.

(** ** The order of the buffers

    Receives are numbered in the order they are posted; [pos k n] is the batch and
    the request of number [n]. *)
Definition pos (k n : Z) : nat * nat :=
  (Z.to_nat (n mod (POSTPIPE * k) / k), Z.to_nat (n mod k)).

Lemma pos_spec k b i m :
  0 < k -> 0 <= b < POSTPIPE -> 0 <= i < k ->
  ((m * POSTPIPE + b) * k + i) mod (POSTPIPE * k) = b * k + i /\
  ((m * POSTPIPE + b) * k + i) mod k = i /\ (b * k + i) / k = b.
Proof.
  unfold POSTPIPE. intros Hk Hb Hi. split; [|split].
  - symmetry. apply (Z.mod_unique _ _ m); [left; nia|ring].
  - rewrite Z.add_comm, Z.mod_add by lia. by apply Z.mod_small.
  - rewrite Z.div_add_l, (Z.div_small i) by lia. lia.
Qed.

(** The [r]-th batch posted is for the receives from [r * k] on. *)
Lemma batch_positions k r :
  0 < k -> 0 <= r ->
  map (pair (Z.to_nat (r mod POSTPIPE))) (seq 0 (Z.to_nat k)) = map (pos k) (seqZ (r * k) k).
Proof.
  intros Hk Hr. apply list_eq. intros i. change (@map ?A ?B ?f) with (@fmap list _ A B f).
  rewrite !list_lookup_fmap.
  destruct (decide (i < Z.to_nat k)%nat) as [Hi|Hi].
  - rewrite lookup_seq_lt by lia. rewrite lookup_seqZ_lt by lia. simpl. f_equal. unfold pos.
    destruct (pos_spec k (r mod POSTPIPE) (Z.of_nat i) (r / POSTPIPE)) as (E1 & E2 & E3);
      [done|unfold POSTPIPE; lia|lia|].
    replace (r * k + Z.of_nat i) with ((r / POSTPIPE * POSTPIPE + r mod POSTPIPE) * k + Z.of_nat i).
    + rewrite E1, E2, E3, Nat2Z.id. done.
    + rewrite (Z_div_mod_eq_full r POSTPIPE) at 3. ring.
  - rewrite lookup_seq_ge, lookup_seqZ_ge by lia. done.
Qed.

Lemma mod_mod_mul x k : 0 < k -> x mod (POSTPIPE * k) mod k = x mod k.
Proof.
  intros. rewrite (Z.mul_comm POSTPIPE k), Z.rem_mul_r by (unfold POSTPIPE; lia).
  rewrite (Z.mul_comm k), Z.mod_add by lia. apply Z.mod_mod. lia.
Qed.

(** Numbers less than a round apart have different buffers. *)
Lemma pos_inj k n m :
  0 < k -> 0 <= n -> 0 <= m -> pos k n = pos k m -> - (POSTPIPE * k) < n - m < POSTPIPE * k -> n = m.
Proof.
  intros Hk Hn Hm E Hd. unfold pos in E.
  assert (Hmod : forall x, 0 <= x -> x mod (POSTPIPE * k) = k * (x mod (POSTPIPE * k) / k) + x mod k).
  { intros x Hx. rewrite (Z_div_mod_eq_full (x mod (POSTPIPE * k)) k) at 1. f_equal.
    by apply mod_mod_mul. }
  assert (Hpos : forall x, 0 <= x -> 0 <= x mod (POSTPIPE * k) / k /\ 0 <= x mod k).
  { intros x Hx. split; [apply Z.div_pos; [apply Z.mod_pos_bound; unfold POSTPIPE; lia|lia]|].
    by apply Z.mod_pos_bound. }
  pose proof (Hpos n Hn). pose proof (Hpos m Hm). injection E as E1 E2.
  apply Z2Nat.inj in E1; [|lia..]. apply Z2Nat.inj in E2; [|lia..].
  assert (En : n mod (POSTPIPE * k) = m mod (POSTPIPE * k)) by (rewrite (Hmod n Hn), (Hmod m Hm); congruence).
  rewrite (Z_div_mod_eq_full n (POSTPIPE * k)), (Z_div_mod_eq_full m (POSTPIPE * k)) in Hd |- *.
  rewrite En in *. set (w := POSTPIPE * k) in *. assert (n / w = m / w) as -> by nia. done.
Qed.

(** ** The invariant

    [N] receives have been handed out, [F] of them freed, and [R] batches posted
    again; [todo] are the completions polled but not handed out. *)
Section laws.
Context {V : Verbs} {VL : VerbsLaws V}.

Record recv_ok (q : nat) (st : rstate) (todo : list (nat * nat)) (N F R : Z) : Prop := {
  ro_k : 0 < kBatchRecv st.1 /\ POSTPIPE * kBatchRecv st.1 < 2 ^ 32;
  ro_batches : length (rpc_recv_wr st.1) = Z.to_nat POSTPIPE /\
    Forall (fun b => length (sglist b) = Z.to_nat (kBatchRecv st.1)) (rpc_recv_wr st.1);
  ro_pos : recv_buf_pos st.1 = N mod (POSTPIPE * kBatchRecv st.1);
  ro_processing : recv_processing_cnt st.1 = N - F;
  ro_cnt : recv_buf_cnt st.1 = (POSTPIPE + R) * kBatchRecv st.1 - F;
  ro_postpipe : recv_postpipe_pos st.1 = wrap 16 R;
  ro_queue : todo ++ recv_queue st.2 q =
    map (pos (kBatchRecv st.1)) (seqZ N ((POSTPIPE + R) * kBatchRecv st.1 - N));
  ro_order : 0 <= F <= N /\ N <= (POSTPIPE + R) * kBatchRecv st.1 /\ 0 <= R;
  ro_window : (POSTPIPE + R) * kBatchRecv st.1 - F <= POSTPIPE * kBatchRecv st.1 /\
    (0 < N -> (POSTPIPE + R) * kBatchRecv st.1 - N < POSTPIPE * kBatchRecv st.1) }.

(** The buffer of a completion. *)
Definition buffer_of (r : RecvSide) (x : nat * nat) : option ibv_sge :=
  rpc_recv_wr r !! x.1 ≫= fun b => sglist b !! x.2.

Lemma get_recv_msg_sg_ok q st x todo N F R :
  recv_ok q st (x :: todo) N F R ->
  exists sg r, get_recv_msg_sg st.1 = Done (sg, r) /\ buffer_of st.1 x = Some sg /\
    rpc_recv_wr r = rpc_recv_wr st.1 /\ recv_ok q (r, st.2) todo (N + 1) F R.
Proof.
  destruct st as [r d]. intros [[K1 K2] [B1 B2] Hpos Hproc Hcnt Hpp Hq [O1 [O2 O3]] [W1 W2]]. simpl in *.
  set (k := kBatchRecv r) in *. set (P := (POSTPIPE + R) * k) in *.
  assert (HNP : N < P). { destruct (decide (N < P)); [done|]. by rewrite seqZ_nil in Hq by lia. }
  rewrite seqZ_cons in Hq by lia. cbn [map] in Hq. injection Hq as Hx Hq.
  assert (Hmod : 0 <= N mod (POSTPIPE * k) < POSTPIPE * k) by (apply Z.mod_pos_bound; unfold POSTPIPE; lia).
  assert (Hb : 0 <= N mod (POSTPIPE * k) / k < POSTPIPE).
  { split; [apply Z.div_pos; lia|]. apply Z.div_lt_upper_bound; lia. }
  assert (Hi : N mod (POSTPIPE * k) mod k = N mod k).
  { by apply mod_mod_mul. }
  pose proof (Z.mod_pos_bound N k K1).
  destruct (lookup_lt_is_Some_2 (rpc_recv_wr r) (Z.to_nat (N mod (POSTPIPE * k) / k))) as [b Eb]; [lia|].
  pose proof (Forall_lookup_1 _ _ _ _ B2 Eb) as Hlb. simpl in Hlb.
  destruct (lookup_lt_is_Some_2 (sglist b) (Z.to_nat (N mod k))) as [sg Es]; [lia|].
  unfold get_recv_msg_sg. fold k. rewrite (proj2 (Z.eqb_neq k 0)) by lia.
  rewrite Hpos, Hi. unfold load, zget. rewrite decide_True by lia. rewrite Eb. simpl of_option. rewrite obind_done.
  rewrite decide_True by lia. rewrite Es. simpl of_option. rewrite obind_done.
  eexists _, _. split; [done|]. split.
  { unfold buffer_of. rewrite Hx. unfold pos. simpl. by rewrite Eb. }
  split; [done|]. split; simpl; fold k; try done; try lia.
  - unfold ADD_ROUND. fold k. rewrite Z.add_mod_idemp_l by (unfold POSTPIPE; lia). done.
  - rewrite Hproc. rewrite wrap_small; [lia|]. unfold in_width. lia.
  - fold P. rewrite Hq. f_equal. f_equal; lia.
Qed.

(** The receives of queue pair [q] change, nothing else of the device does. *)
Definition only_recv (q : nat) (d d' : device) : Prop :=
  (forall p, p <> q -> recv_queue d' p = recv_queue d p) /\
  (forall p, in_flight d' p = in_flight d p) /\ cq_load d' = cq_load d.

Lemma only_recv_trans q d1 d2 d3 : only_recv q d1 d2 -> only_recv q d2 d3 -> only_recv q d1 d3.
Proof. intros (A1 & A2 & A3) (B1 & B2 & B3). split; [|split]; intros; rewrite ?B1, ?B2, ?B3; auto. Qed.

Lemma post_batch_ok q st todo N F R :
  recv_ok q st todo N F R -> recv_buf_cnt st.1 < (POSTPIPE - 1) * kBatchRecv st.1 ->
  let r := st.1 in
  exists st', post_batch q (with_counts r (recv_buf_cnt r) (recv_processing_cnt r) (recv_buf_pos r)
                   (wrap 16 (recv_postpipe_pos r + 1)), st.2) (Z.to_nat (recv_postpipe_pos r mod POSTPIPE)) = Done st' /\
    recv_ok q st' todo N F (R + 1) /\ rpc_recv_wr st'.1 = rpc_recv_wr r /\ kBatchRecv st'.1 = kBatchRecv r /\
    recv_buf_cnt st'.1 = recv_buf_cnt r + kBatchRecv r /\ only_recv q st.2 st'.2.
Proof.
  destruct st as [r d]. intros [[K1 K2] [B1 B2] Hpos Hproc Hcnt Hpp Hq [O1 [O2 O3]] [W1 W2]] Hlt. simpl in *.
  set (k := kBatchRecv r) in *. unfold post_batch. simpl.
  assert (Hm : recv_postpipe_pos r mod POSTPIPE = (POSTPIPE + R) mod POSTPIPE).
  { rewrite Hpp. unfold wrap, POSTPIPE. lia. }
  rewrite Hm. destruct (lookup_lt_is_Some_2 (rpc_recv_wr r) (Z.to_nat ((POSTPIPE + R) mod POSTPIPE))) as [b Eb].
  { unfold POSTPIPE in *. lia. }
  rewrite Eb. simpl. pose proof (Forall_lookup_1 _ _ _ _ B2 Eb) as Hlb. simpl in Hlb. rewrite Hlb.
  rewrite (batch_positions k (POSTPIPE + R)) by (unfold POSTPIPE; lia).
  destruct (ibv_post_recv d q _) as [ret d'] eqn:E.
  destruct (post_recv_law _ _ _ _ _ E) as (-> & Hq' & Honly). simpl.
  eexists. split; [done|]. simpl. fold k. rewrite Z2Nat.id by lia.
  assert (Ew : wrap 32 (recv_buf_cnt r + k) = recv_buf_cnt r + k).
  { apply wrap_small. unfold in_width, POSTPIPE in *. nia. }
  split; [|done]. split; simpl; fold k; try done; rewrite ?Ew.
  - rewrite Hcnt. ring.
  - rewrite Hpp. unfold wrap. rewrite Z.add_mod_idemp_l by lia. done.
  - rewrite Hq', app_assoc, Hq, <- map_app.
    replace (seqZ ((POSTPIPE + R) * k) k) with (seqZ (N + ((POSTPIPE + R) * k - N)) k) by (f_equal; ring).
    rewrite <- seqZ_app by lia. do 2 f_equal. ring.
  - nia.
  - rewrite Hcnt in Hlt. unfold POSTPIPE in *. split; [|intros]; nia.
Qed.

Lemma check_recv_buf_cnt_ok q fuel : forall st todo N F R,
  recv_ok q st todo N F R ->
  (POSTPIPE - 1) * kBatchRecv st.1 - recv_buf_cnt st.1 <= (Z.of_nat fuel - 1) * kBatchRecv st.1 -> (0 < fuel)%nat ->
  exists st' R', check_recv_buf_cnt fuel q st = Done st' /\ recv_ok q st' todo N F R' /\
    rpc_recv_wr st'.1 = rpc_recv_wr st.1 /\ kBatchRecv st'.1 = kBatchRecv st.1 /\
    (POSTPIPE - 1) * kBatchRecv st'.1 <= recv_buf_cnt st'.1 /\ only_recv q st.2 st'.2.
Proof.
  induction fuel as [|fuel IH]; intros [r d] todo N F R Hok Hf Hpos; [lia|]. cbn [check_recv_buf_cnt].
  simpl in Hf. destruct (ro_k _ _ _ _ _ _ Hok) as [K1 K2]. simpl in K1, K2.
  rewrite wrap_small by (unfold in_width, POSTPIPE in *; lia).
  destruct (Z.ltb_spec (recv_buf_cnt r) ((POSTPIPE - 1) * kBatchRecv r)) as [Hlt|Hge].
  - destruct (post_batch_ok _ _ _ _ _ _ Hok Hlt) as (st1 & E & Hok1 & Hb1 & Hk1 & Hc1 & Ho1). simpl in *.
    rewrite E, obind_done.
    destruct (IH st1 todo N F (R + 1) Hok1) as (st2 & R2 & E2 & Hok2 & Hb2 & Hk2 & Hc2 & Ho2).
    { rewrite Hk1, Hc1. lia. }
    { destruct fuel; [|lia]. lia. }
    exists st2, R2. split; [done|]. split; [done|]. rewrite Hb2, Hk2, Hb1, Hk1 in *.
    do 3 (split; [done|]). by eapply only_recv_trans.
  - exists (r, d), R. done.
Qed.

#[local] Arguments check_recv_buf_cnt : simpl never.

(** ** The initial posts *)

(** Where [init_recv_with_one_mr] puts request [j] of batch [i]. *)
Definition buffer_addr (mr : Region) (offset size k : Z) (x : nat * nat) : Z :=
  wrap 64 (rg_addr mr + wrap 32 (offset + wrap 32 (size * wrap 32 (Z.of_nat x.1 * k + Z.of_nat x.2)))).

Lemma init_recv_batch_ok k i mr offset size n : forall b j,
  (j + n <= length (sglist b))%nat ->
  exists b', init_recv_batch b k i j n mr offset size = Done b' /\
    length (sglist b') = length (sglist b) /\ sg_set b' = sg_set b /\
    forall x, sglist b' !! x = if decide (j <= x < j + n)%nat
      then Some {| addr := buffer_addr mr offset size k (i, x); len := size |} else sglist b !! x.
Proof.
  induction n as [|n IH]; intros b j Hn; cbn [init_recv_batch].
  { exists b. do 3 (split; [done|]). intros x. by rewrite decide_False by lia. }
  unfold init_recv_slot. rewrite decide_True by lia. rewrite obind_done.
  destruct (IH {| sglist := <[j := {| addr := buffer_addr mr offset size k (i, j); len := size |}]> (sglist b);
                  current_sg := <[j := 1]> (current_sg b); sg_set := sg_set b |} (S j)) as (b' & E & Hl & Hs & Hx).
  { simpl. rewrite length_insert. lia. }
  exists b'. split; [done|]. simpl in Hl, Hs, Hx. rewrite length_insert in Hl. do 2 (split; [done|]).
  intros x. rewrite Hx. destruct (decide (x = j)) as [->|Hxj].
  - rewrite decide_False by lia. rewrite decide_True by lia. apply list_lookup_insert_eq. lia.
  - rewrite list_lookup_insert_ne by done. repeat case_decide; done || lia.
Qed.

(** After [i] batches. *)
Record initialised (q : nat) (r0 r : RecvSide) (d : device) (i : nat) (mr : Region) : Prop := {
  in_k : kBatchRecv r = kBatchRecv r0 /\ recv_offset r = recv_offset r0 /\ recv_msg_size r = recv_msg_size r0;
  in_batches : length (rpc_recv_wr r) = Z.to_nat POSTPIPE /\
    Forall (fun b => length (sglist b) = Z.to_nat (kBatchRecv r0)) (rpc_recv_wr r);
  in_counts : recv_buf_cnt r = Z.of_nat i * kBatchRecv r0 /\ recv_processing_cnt r = 0 /\
    recv_buf_pos r = 0 /\ recv_postpipe_pos r = 0;
  in_queue : recv_queue d q = map (pos (kBatchRecv r0)) (seqZ 0 (Z.of_nat i * kBatchRecv r0));
  in_addr : forall x, (x.1 < i)%nat -> (x.2 < Z.to_nat (kBatchRecv r0))%nat ->
    buffer_of r x = Some {| addr := buffer_addr mr (recv_offset r0) (recv_msg_size r0) (kBatchRecv r0) x;
                            len := recv_msg_size r0 |} }.

Lemma init_batch_ok q r0 r d i mr :
  0 < kBatchRecv r0 -> POSTPIPE * kBatchRecv r0 < 2 ^ 32 -> (i < 64)%nat ->
  initialised q r0 r d i mr ->
  exists r' d', init_batch q false (r, d) i mr (recv_offset r0) (recv_msg_size r0) = Done (r', d') /\
    initialised q r0 r' d' (S i) mr.
Proof.
  intros K1 K2 Hi [(Ek & Eo & Es) [B1 B2] (C1 & C2 & C3 & C4) Hq Ha]. unfold init_batch.
  destruct (lookup_lt_is_Some_2 (rpc_recv_wr r) i) as [b Eb]; [rewrite B1; unfold POSTPIPE; lia|].
  rewrite Eb. simpl of_option. rewrite obind_done. simpl orb. rewrite Ek.
  pose proof (Forall_lookup_1 _ _ _ _ B2 Eb) as Hlb. simpl in Hlb.
  destruct (init_recv_batch_ok (kBatchRecv r0) i mr (recv_offset r0) (recv_msg_size r0) (Z.to_nat (kBatchRecv r0))
    {| sglist := sglist b; current_sg := current_sg b; sg_set := sg_set b |} 0) as (b' & E & Hl & _ & Hx).
  { simpl. lia. }
  rewrite E, obind_done. simpl in Hl. unfold post_batch. simpl.
  rewrite list_lookup_insert_eq by (rewrite B1; unfold POSTPIPE; lia). simpl. rewrite Hl, Hlb.
  destruct (ibv_post_recv d q _) as [ret d'] eqn:Ep.
  destruct (post_recv_law _ _ _ _ _ Ep) as (-> & Hq' & _). simpl.
  eexists _, _. split; [done|].
  assert (Hw : wrap 32 (recv_buf_cnt r + Z.of_nat (Z.to_nat (kBatchRecv r0))) = Z.of_nat (S i) * kBatchRecv r0).
  { rewrite wrap_small; [lia|]. unfold in_width, POSTPIPE in *. nia. }
  split; simpl; try done.
  - split; [by rewrite length_insert|]. by apply Forall_insert; [|lia].
  - rewrite Hq', Hq. replace i with (Z.to_nat (Z.of_nat i mod POSTPIPE)) at 2 by (unfold POSTPIPE; lia).
    rewrite batch_positions, <- map_app by lia.
    replace (seqZ (Z.of_nat i * kBatchRecv r0)) with (seqZ (0 + Z.of_nat i * kBatchRecv r0)) by done.
    rewrite <- seqZ_app by nia. do 2 f_equal. lia.
  - intros [x1 x2] H1 H2. simpl in *. unfold buffer_of. simpl.
    destruct (decide (x1 = i)) as [->|Hne].
    + rewrite list_lookup_insert_eq by (rewrite B1; unfold POSTPIPE; lia). simpl. rewrite Hx. by rewrite decide_True by lia.
    + rewrite list_lookup_insert_ne by done. apply (Ha (x1, x2)); simpl; lia.
Qed.

Lemma init_batches_ok q r0 mr : forall n i r d,
  0 < kBatchRecv r0 -> POSTPIPE * kBatchRecv r0 < 2 ^ 32 -> (i + n = 64)%nat ->
  initialised q r0 r d i mr ->
  exists r' d', init_batches q false (r, d) i n mr (recv_offset r0) (recv_msg_size r0) = Done (r', d') /\
    initialised q r0 r' d' 64 mr.
Proof.
  induction n as [|n IH]; intros i r d K1 K2 Hi Hin; cbn [init_batches].
  - exists r, d. split; [done|]. by replace 64%nat with i by lia.
  - destruct (init_batch_ok q r0 r d i mr) as (r1 & d1 & E & H1); [done|done|lia|done|].
    rewrite E, obind_done. apply IH; [done|done|lia|done].
Qed.

(** A queue pair just constructed, with the buffers config_msg_buf gave it. *)
Definition constructed (q : nat) (st : rstate) : Prop :=
  exists qp_len srq counts offset size,
    st.1 = (config_msg_buf (construct qp_len srq counts) 0 offset 0 size).1.2 /\
    0 < batch_size qp_len srq < 2 ^ 26 /\ recv_queue st.2 q = [].

Lemma init_recv_ok q st mr :
  constructed q st ->
  exists st', init_recv_with_one_mr q st mr = Done st' /\ recv_ok q st' [] 0 0 0 /\
    kBatchRecv st'.1 = kBatchRecv st.1 /\
    forall x, (x.1 < 64)%nat -> (x.2 < Z.to_nat (kBatchRecv st.1))%nat ->
      buffer_of st'.1 x = Some {| addr := buffer_addr mr (recv_offset st.1) (recv_msg_size st.1) (kBatchRecv st.1) x;
                                  len := recv_msg_size st.1 |}.
Proof.
  destruct st as [r d]. intros (qp_len & srq & counts & offset & size & Er & Hk & Hq). simpl in Er, Hq.
  set (k := batch_size qp_len srq) in *.
  assert (Ek : kBatchRecv r = k) by by rewrite Er.
  destruct (init_batches_ok q r mr 64 0 r d) as (r' & d' & E & [(E1 & _ & _) H2 H3 H4 H5]).
  - lia.
  - rewrite Ek. unfold POSTPIPE. lia.
  - done.
  - split; try done.
    + rewrite Er. simpl. fold k. split; [done|]. repeat (apply Forall_cons; split; [simpl; by rewrite length_replicate|]). done.
    + rewrite Er. done.
    + intros x Hx. lia.
  - exists (r', d'). split; [done|]. split; [|done].
    destruct H3 as (C1 & C2 & C3 & C4). rewrite Ek in *.
    split; simpl; rewrite ?E1, ?Z.add_0_r; try done; try (unfold POSTPIPE; lia).
    rewrite H4. unfold POSTPIPE. do 2 f_equal. lia.
Qed.

(** ** Runs of the loops of rpc.h on one queue pair

    Completions are polled, the address of the next message is taken, and the
    messages taken are freed, in any order that takes a message only when a
    completion is there.  The log pairs the buffer the completion names with the
    address get_recv_msg_addr returned. *)
Inductive event := Arrive (n : Z) | Take | Release.

Record serving := { sv_st : rstate; sv_todo : list (nat * nat); sv_log : list ((nat * nat) * Z) }.

Definition serve (type_ : Z) (q : nat) (s : serving) (e : event) : outcome serving :=
  let '(r, d) := sv_st s in
  match e with
  | Arrive n =>
      match ibv_poll_cq d RecvCq n with
      | (Some cs, d) => Done {| sv_st := (r, d); sv_todo := sv_todo s ++ recv_ids q cs; sv_log := sv_log s |}
      | (None, _) => Fault ProcessExit
      end
  | Take =>
      match sv_todo s with
      | [] => Done s
      | x :: todo =>
          let! (a, r) := get_recv_msg_addr type_ r (Some x) in
          Done {| sv_st := (r, d); sv_todo := todo; sv_log := sv_log s ++ [(x, a)] |}
      end
  | Release =>
      let! st := free_recv_msg 64 type_ q (r, d) None in
      Done {| sv_st := st; sv_todo := sv_todo s; sv_log := sv_log s |}
  end.

Fixpoint serve_all (type_ : Z) (q : nat) (s : serving) (es : list event) : outcome serving :=
  match es with
  | [] => Done s
  | e :: es => let! s := serve type_ q s e in serve_all type_ q s es
  end.

Definition start (st : rstate) : serving := {| sv_st := st; sv_todo := []; sv_log := [] |}.

Definition event_ok (e : event) : Prop := match e with Arrive n => 1 <= n | _ => True end.

(** What a run keeps: [k] and [ok_addr] describe the buffers. *)
Record serving_ok (type_ : Z) (q : nat) (k : Z) (bufs : nat * nat -> option ibv_sge) (s : serving) (F R : Z) : Prop := {
  so_recv : recv_ok q (sv_st s) (sv_todo s) (zlen (sv_log s)) F R;
  so_k : kBatchRecv (sv_st s).1 = k;
  so_bufs : forall x, buffer_of (sv_st s).1 x = bufs x;
  so_log : map fst (sv_log s) = map (pos k) (seqZ 0 (zlen (sv_log s)));
  so_addr : Forall (fun xa => exists sg h, bufs xa.1 = Some sg /\ zget recv_header_size type_ = Some h /\
                xa.2 = wrap 64 (addr sg + h)) (sv_log s);
  so_credit : (POSTPIPE - 1) * k <= (POSTPIPE + R) * k - F }.

Lemma serve_take type_ q k bufs s F R x todo :
  0 <= type_ < LOGTSRQ -> serving_ok type_ q k bufs s F R -> sv_todo s = x :: todo ->
  exists s', serve type_ q s Take = Done s' /\ serving_ok type_ q k bufs s' F R.
Proof.
  intros Ht [Hr Hk Hb Hl Ha Hc] Et. destruct s as [[r d] todo' lg]. simpl in *. subst todo'.
  destruct (get_recv_msg_sg_ok _ _ _ _ _ _ _ Hr) as (sg & r' & E & Hsg & Hb' & Hr'). simpl in *.
  destruct (zget_is_Some recv_header_size type_) as [h Hh]; [unfold LOGTSRQ, recv_header_size, zlen in *; simpl; lia|].
  unfold serve, get_recv_msg_addr. cbn [sv_st sv_todo sv_log].
  rewrite !(proj2 (Z.eqb_neq type_ _)) by (unfold LOGTSRQ, LOGGSRQ in *; lia). simpl orb. cbv iota.
  rewrite E, obind_done, (load_in_range _ _ _ Hh), !obind_done.
  eexists. split; [done|].
  assert (Hx : x = pos k (zlen lg)).
  { pose proof (ro_queue _ _ _ _ _ _ Hr) as Hq. simpl in Hq. rewrite Hk in Hq.
    destruct (decide (0 < (POSTPIPE + R) * k - zlen lg)).
    - rewrite seqZ_cons in Hq by done. by injection Hq.
    - by rewrite seqZ_nil in Hq by lia. }
  split; simpl.
  - unfold zlen. rewrite length_app. simpl. replace (Z.of_nat (length lg + 1)) with (zlen lg + 1) by (unfold zlen; lia). done.
  - rewrite <- Hk. unfold get_recv_msg_sg in E. repeat case_match; simplify_eq/=; try done.
    destruct (load _ _) as [b|]; simplify_eq/=. by destruct (load _ _); simplify_eq/=.
  - intros y. rewrite <- Hb. unfold buffer_of. by rewrite Hb'.
  - rewrite map_app, Hl. replace (zlen (lg ++ [(x, wrap 64 (addr sg + h))])) with (zlen lg + 1)
      by (unfold zlen; rewrite length_app; simpl; lia).
    rewrite seqZ_app, map_app by (try apply zlen_nonneg; lia). f_equal. by rewrite Hx.
  - apply Forall_app. split; [done|]. apply Forall_singleton. exists sg, h. simpl. split; [|done].
    rewrite <- Hb. done.
  - done.
Qed.

Lemma serve_release type_ q k bufs s F R :
  0 <= type_ < LOGTSRQ -> serving_ok type_ q k bufs s F R ->
  exists s' R', serve type_ q s Release = Done s' /\ serving_ok type_ q k bufs s' (zlen (sv_log s)) R' /\
    sv_log s' = sv_log s.
Proof.
  intros Ht [Hr Hk Hb Hl Ha Hc]. destruct s as [[r d] todo lg]. simpl in *.
  destruct Hr as [[K1 K2] B Hpos Hproc Hcnt Hpp Hq [O1 [O2 O3]] [W1 W2]]. simpl in *. rewrite Hk in *.
  pose proof (zlen_nonneg lg).
  assert (Ew : wrap 32 (recv_buf_cnt r - recv_processing_cnt r) = (POSTPIPE + R) * k - zlen lg).
  { rewrite Hcnt, Hproc, wrap_small; [lia|]. unfold in_width. lia. }
  destruct (check_recv_buf_cnt_ok q 64 (with_counts r ((POSTPIPE + R) * k - zlen lg) 0 (recv_buf_pos r) (recv_postpipe_pos r), d)
    todo (zlen lg) (zlen lg) R) as (st' & R' & E & Hok & Hb' & Hk' & Hc' & _).
  - split; simpl; rewrite ?Hk; try done; try lia.
  - simpl. rewrite Hk. unfold POSTPIPE in *. lia.
  - lia.
  - exists {| sv_st := st'; sv_todo := todo; sv_log := lg |}, R'. simpl in *. split; [|split; [|done]].
    + unfold serve, free_recv_msg. cbn [sv_st sv_todo sv_log]. rewrite !(proj2 (Z.eqb_neq type_ _)) by (unfold LOGTSRQ, LOGGSRQ in *; lia).
      cbv iota. by rewrite Ew, E.
    + split; simpl; try done.
      * congruence.
      * intros x. rewrite <- Hb. unfold buffer_of. by rewrite Hb'.
      * rewrite Hk', Hk in Hc'. by rewrite (ro_cnt _ _ _ _ _ _ Hok), Hk', Hk in Hc'.
Qed.

Lemma serve_arrive type_ q k bufs s F R n :
  1 <= n -> serving_ok type_ q k bufs s F R ->
  exists s', serve type_ q s (Arrive n) = Done s' /\ serving_ok type_ q k bufs s' F R.
Proof.
  intros Hn [Hr Hk Hb Hl Ha Hc]. destruct s as [[r d] todo lg]. simpl in *.
  destruct (ibv_poll_cq d RecvCq n) as [o d'] eqn:E.
  destruct (poll_recv_law _ _ _ _ E Hn) as (cs & -> & _ & _ & _ & _ & Hq).
  unfold serve. cbn [sv_st sv_todo sv_log]. rewrite E. eexists. split; [done|]. split; try done. simpl.
  destruct Hr as [? ? ? ? ? ? Hq' ? ?]. split; try done. simpl in *. by rewrite <- app_assoc, <- Hq.
Qed.

Lemma serve_all_ok type_ q k bufs es : forall s F R,
  0 <= type_ < LOGTSRQ -> serving_ok type_ q k bufs s F R -> Forall event_ok es ->
  exists s' F' R', serve_all type_ q s es = Done s' /\ serving_ok type_ q k bufs s' F' R'.
Proof.
  induction es as [|e es IH]; intros s F R Ht Hs Hes; [by exists s, F, R|].
  apply Forall_cons in Hes as [He Hes]. cbn [serve_all].
  assert (Hstep : exists s1 F1 R1, serve type_ q s e = Done s1 /\ serving_ok type_ q k bufs s1 F1 R1).
  { destruct e as [n| |].
    - destruct (serve_arrive type_ q k bufs s F R n He Hs) as (s1 & ? & ?). eauto.
    - destruct (sv_todo s) as [|x todo] eqn:Et.
      + exists s, F, R. split; [|done]. unfold serve. destruct (sv_st s). by rewrite Et.
      + destruct (serve_take type_ q k bufs s F R x todo Ht Hs Et) as (s1 & ? & ?). eauto.
    - destruct (serve_release type_ q k bufs s F R Ht Hs) as (s1 & R1 & ? & ? & _). eauto. }
  destruct Hstep as (s1 & F1 & R1 & -> & Hs1). rewrite obind_done. by eapply IH.
Qed.

Lemma start_ok type_ q st1 :
  recv_ok q st1 [] 0 0 0 -> serving_ok type_ q (kBatchRecv st1.1) (buffer_of st1.1) (start st1) 0 0.
Proof.
  intros H. split; try done. destruct (ro_k _ _ _ _ _ _ H). simpl. unfold POSTPIPE in *. lia.
Qed.

(** ** The properties *)

(** Counting finds the message: whatever completions are polled and messages
    freed in between, the address get_recv_msg_addr computes is that of the buffer
    which the completion of the message names, and nothing fails. *)
Theorem recv_finds_message type_ q st mr es :
  constructed q st -> 0 <= type_ < LOGTSRQ -> Forall event_ok es ->
  exists st1 s, init_recv_with_one_mr q st mr = Done st1 /\
    serve_all type_ q (start st1) es = Done s /\
    Forall (fun xa => exists h, zget recv_header_size type_ = Some h /\
      xa.2 = wrap 64 (buffer_addr mr (recv_offset st.1) (recv_msg_size st.1) (kBatchRecv st.1) xa.1 + h))
      (sv_log s).
Proof.
  intros Hc Ht Hes. destruct (init_recv_ok q st mr Hc) as (st1 & E & Hok & Hk & Hbuf).
  destruct (serve_all_ok type_ q _ _ es _ 0 0 Ht (start_ok type_ q st1 Hok) Hes) as (s & F & R & Es & Hs).
  exists st1, s. split; [done|]. split; [done|].
  pose proof (so_addr _ _ _ _ _ _ _ Hs) as Ha. rewrite Forall_forall in Ha |- *.
  intros [x a] Hx. destruct (Ha _ Hx) as (sg & h & Hsg & Hh & Ea). simpl in *. exists h. split; [done|].
  assert (Hp : x ∈ map fst (sv_log s)) by (apply (list_elem_of_fmap_2 fst) in Hx; exact Hx).
  rewrite (so_log _ _ _ _ _ _ _ Hs) in Hp. apply list_elem_of_fmap in Hp as (n & -> & Hn%elem_of_seqZ).
  destruct (ro_k _ _ _ _ _ _ Hok) as [K1 K2]. rewrite Hk in *.
  rewrite Hbuf in Hsg; [by injection Hsg as <-| |]; unfold pos, POSTPIPE in *; simpl.
  - assert (0 <= n mod (64 * kBatchRecv st.1) / kBatchRecv st.1 < 64); [|lia].
    split; [apply Z.div_pos; [apply Z.mod_pos_bound; lia|lia]|].
    apply Z.div_lt_upper_bound; [lia|]. pose proof (Z.mod_pos_bound n (64 * kBatchRecv st.1)). lia.
  - pose proof (Z.mod_pos_bound n (kBatchRecv st.1) K1). lia.
Qed.

(** C28. A message stays in its buffer while it is processed: the device has none
    of the buffers of messages not yet freed, and does not have the buffer of the
    message taken last either, freed or not; so process_next_msg may free a message
    before it is read.  At any time the device has, or has filled, at least 63
    batches less the messages being processed. *)
Theorem recv_buffer_kept type_ q st mr st1 es s :
  constructed q st -> 0 <= type_ < LOGTSRQ -> Forall event_ok es ->
  init_recv_with_one_mr q st mr = Done st1 -> serve_all type_ q (start st1) es = Done s ->
  (forall x a i, zget (sv_log s) i = Some (x, a) ->
     zlen (sv_log s) - Z.max 1 (recv_processing_cnt (sv_st s).1) <= i ->
     x ∉ sv_todo s ++ recv_queue (sv_st s).2 q) /\
  (POSTPIPE - 1) * kBatchRecv st.1 - recv_processing_cnt (sv_st s).1 <=
    zlen (sv_todo s ++ recv_queue (sv_st s).2 q).
Proof.
  intros Hc Ht Hes E1 E. destruct (init_recv_ok q st mr Hc) as (st1' & E1' & Hok & Hk & _).
  rewrite E1 in E1'. injection E1' as <-.
  destruct (serve_all_ok type_ q _ _ es _ 0 0 Ht (start_ok type_ q st1 Hok) Hes) as (s' & F & R & Es & Hs).
  rewrite E in Es. injection Es as <-. destruct Hs as [Hr Hk' _ Hl _ Hcr]. rewrite Hk in *.
  destruct Hr as [[K1 K2] _ _ Hproc _ _ Hq [O1 [O2 O3]] [W1 W2]]. rewrite Hk', Hproc, Hq in *.
  set (k := kBatchRecv st.1) in *. set (N := zlen (sv_log s)) in *. set (P := (POSTPIPE + R) * k) in *.
  split.
  - intros x a i Hi Hle Hin. pose proof (zget_Some_range _ _ _ Hi). fold N in H.
    assert (Hx : x = pos k i).
    { assert (Hx : map fst (sv_log s) !! Z.to_nat i = Some x).
      { unfold zget in Hi. case_decide; [|done]. change (@map ?A ?B ?f) with (@fmap list _ A B f).
        by rewrite list_lookup_fmap, Hi. }
      rewrite Hl in Hx. change (@map ?A ?B ?f) with (@fmap list _ A B f) in Hx.
      rewrite list_lookup_fmap, lookup_seqZ_lt in Hx by lia. simpl in Hx. injection Hx as <-. f_equal. lia. }
    subst x. apply list_elem_of_fmap in Hin as (n & En & Hn%elem_of_seqZ).
    apply pos_inj in En; [lia|done|lia|lia|]. lia.
  - unfold zlen. rewrite length_map, length_seqZ. lia.
Qed.

End laws.

(** ** Witnesses: 64 batches of two buffers on the device of [QpDevice]; messages
    arrive by themselves there. *)
#[local] Existing Instances QpDevice.verbs QpDevice.laws QpDevice.progress.

Definition sample : rstate (V := QpDevice.verbs) :=
  ((config_msg_buf (construct 128 0 (replicate 64 0)) 0 0 0 100).1.2, QpDevice.empty).

Definition sample_mr : Region := {| rg_addr := 65536; rg_key := 1; rg_size := 16384 |}.

Definition rounds (n : nat) : list event := concat (replicate n [Arrive 1; Arrive 1; Take; Take; Release]).

Lemma sample_side_constructed : constructed 0 sample.
Proof. exists 128, 0, (replicate 64 0), 0, 100. by repeat split. Qed.

Lemma rounds_ok n : Forall event_ok (rounds n).
Proof. unfold rounds. induction n as [|n IH]; [done|]. simpl. by repeat (apply Forall_cons; split; [done|]). Qed.

Lemma recv_finds_message_witness :
  match init_recv_with_one_mr 0 sample sample_mr with
  | Done st1 => match serve_all LOGUD 0 (start st1) (rounds 70) with
                | Done s => zlen (sv_log s) = 140 /\
                            zget (sv_log s) 139 = Some ((5%nat, 1%nat), 65536 + 11 * 128 + 40)
                | Fault _ => False
                end
  | Fault _ => False
  end.
Proof.
  destruct (recv_finds_message LOGUD 0 sample sample_mr (rounds 70) sample_side_constructed) as (st1 & s & E1 & E & H);
    [done|apply rounds_ok|].
  rewrite E1, E. vm_compute in E1. injection E1 as <-. vm_compute in E. injection E as <-. by vm_compute.
Defined.

Definition sample1 : rstate (V := QpDevice.verbs) :=
  match init_recv_with_one_mr 0 sample sample_mr with Done st => st | Fault _ => sample end.

Definition sample2 : serving (V := QpDevice.verbs) :=
  match serve_all LOGRC 0 (start sample1) (rounds 70) with Done s => s | Fault _ => start sample end.

Lemma recv_buffer_kept_witness :
  (5%nat, 1%nat) ∉ sv_todo sample2 ++ recv_queue (sv_st sample2).2 0 /\
  126 <= zlen (sv_todo sample2 ++ recv_queue (sv_st sample2).2 0).
Proof.
  destruct (recv_buffer_kept LOGRC 0 sample sample_mr sample1 (rounds 70) sample2 sample_side_constructed
    ltac:(done) (rounds_ok 70) ltac:(vm_compute; reflexivity) ltac:(vm_compute; reflexivity)) as [H1 H2].
  split.
  - apply (H1 (5%nat, 1%nat) (65536 + 11 * 128) 139); [vm_compute; reflexivity|vm_compute; discriminate].
  - assert (E : (POSTPIPE - 1) * kBatchRecv sample.1 - recv_processing_cnt (sv_st sample2).1 = 126)
      by (vm_compute; reflexivity).
    rewrite E in H2. exact H2.
Defined.

End QpRecv.
