(* ===== verification/RpcModel.v ===== *)
(** * The server loop

    Module [Rpc]: one turn of run_server_CPC of rpc/rpc.h on top of the queue pairs
    of [Qp] and [QpRecv]: up to 16 requests are polled, each is handled and its
    reply appended, and then the replies are posted.  The handler is the virtual
    method server_process_msg.  Memory is a map from addresses to bytes; the
    address handles of datagram queue pairs are not modelled. *)

From S2P Require Import Prelude QpModel QpDeviceModel QpCreditModel QpWaitModel QpRecvModel.

Module Rpc.
Import Qp QpCredit QpWait QpRecv.

Definition mem : Type := gmap Z Z.
Definition byte (m : mem) (a : Z) : Z := default 0 (m !! a).

(** RpcHeader, packed: dst_s_id, src_s_id, src_t_id, src_c_id, local_id, op, and
    payload_size in four bytes. *)
Definition sizeof_RpcHeader : nat := 10.

Fixpoint copy (m : mem) (dst src : Z) (n : nat) : mem :=
  match n with
  | O => m
  | S n => copy (<[dst := byte m src]> m) (dst + 1) (src + 1) n
  end.

(** Rdma::compute_gid, compute_port and get_thread_port; with FLAGS_port_func the
    source shifts 1 by at least 256 bits, which has no defined result. *)
Definition compute_gid (kMaxThread s_id t_id : Z) : Z := wrap 16 (s_id * kMaxThread + t_id).
Definition compute_port (kMaxQPNum t_id qp_id : Z) : Z :=
  wrap 16 (Z.shiftl (t_id * kMaxQPNum + qp_id + 1) 8).
Definition get_thread_port (port_func : bool) (undefined : Z) (kMaxQPNum t_id qp_id : Z) : Z :=
  if port_func then wrap 16 undefined else compute_port kMaxQPNum t_id qp_id.

(** RoCEHeader: the ports and sizes of the packet at [a]. *)
Definition set_dst_port (m : mem) (a port : Z) : mem :=
  <[a + 37 := Z.land port 255]> (<[a + 36 := wrap 8 (Z.shiftr port 8)]> m).

Definition get_dst_port (m : mem) (a : Z) : Z := wrap 16 (Z.shiftl (byte m (a + 36)) 8 + byte m (a + 37)).

Definition set_size (m : mem) (a size : Z) : mem :=
  let size := wrap 16 size in
  <[a + 39 := Z.land (8 + size) 255]> (<[a + 38 := wrap 8 (Z.shiftr (8 + size) 8)]>
    (<[a + 17 := Z.land (32 + size) 255]> (<[a + 16 := wrap 8 (Z.shiftr (32 + size) 8)]> m))).

Section server.
Context {V : Verbs}.

(** server_process_msg(req, reply, qp) as it changes memory; the result may
    hold the size it passes to modify_smsg_size. *)
Variable server_process_msg : mem -> Z -> Z -> outcome (mem * option Z).
(** The port of the requesting thread: get_thread_port. *)
Variable port_of : Z -> Z.

Record server := { ag : agent; rcv : list RecvSide; memory : mem }.

Definition wr_qp (r : wr_ref) : nat := match r with SendWr q _ _ => q | RecvWr q _ _ => q end.

Definition modify_smsg_dst_port (fuel : nat) (st : agent) (m : mem) (q : nat) (port : Z) : outcome (agent * mem) :=
  let! p := get_qp st q in
  if type p =? LOGRAW then
    let! (sg, st) := get_send_msg_sg fuel st q in
    Done (st, set_dst_port m (addr sg) port)
  else Done (st, m).

(** The header of the reply, and its route. *)
Definition prepare_reply (fuel : nat) (st : agent) (m : mem) (sq : nat) (req reply : Z) : outcome (agent * mem) :=
  let m := copy m reply req sizeof_RpcHeader in
  let! p := get_qp st sq in
  if type p =? LOGRAW then
    let! (st, m) := modify_smsg_dst_port fuel st m sq (port_of (byte m (req + 2))) in
    Done (st, <[reply := byte m (req + 1)]> m)
  else if type p =? LOGUD then Done (st, <[reply := byte m (req + 1)]> m)
  else Done (st, m).

Definition set_reply_size (fuel : nat) (st : agent) (m : mem) (sq : nat) (size : option Z) : outcome (agent * mem) :=
  match size with
  | None => Done (st, m)
  | Some n =>
      let! (a, st) := modify_smsg_size fuel st sq n in
      Done (st, match a with Some a => set_size m a (ALIGNMENT_XB n 64) | None => m end)
  end.

(** One completion; the result names the request and the reply. *)
Definition serve_wc (fuel : nat) (sq : nat) (s : server) (c : wc) : outcome ((Z * Z) * server) :=
  let q := wr_qp (wr_id c) in
  let! p := get_qp (ag s) q in
  let! r := of_option OutOfBounds (rcv s !! q) in
  let! (req, r) := get_recv_msg_addr (type p) r None in
  let! (reply, st) := get_send_msg_addr fuel (ag s) sq in
  let! (st, m) := prepare_reply fuel st (memory s) sq req reply in
  let! (m, size) := server_process_msg m req reply in
  let! (st, m) := set_reply_size fuel st m sq size in
  let! (r, d) := free_recv_msg 64 (type p) q (r, dev st) None in
  let! st := append_signal_smsg (with_dev st d) sq false None in
  Done ((req, reply), {| ag := st; rcv := <[q := r]> (rcv s); memory := m |}).

Fixpoint serve_wcs (fuel : nat) (sq : nat) (s : server) (cs : list wc) : outcome (list (Z * Z) * server) :=
  match cs with
  | [] => Done ([], s)
  | c :: cs =>
      let! (x, s) := serve_wc fuel sq s c in
      let! (xs, s) := serve_wcs fuel sq s cs in
      Done (x :: xs, s)
  end.

(** The posts of the replies, [n] = cnt. *)
Fixpoint post_replies (fuel : nat) (sq : nat) (st : agent) (n : nat) : outcome agent :=
  match n with
  | O => Done st
  | S n =>
      let! (_, st) := post_appended_smsg fuel st sq false false in
      post_replies fuel sq st n
  end.

(** One turn of the loop of run_server_CPC; [sq] is the queue pair all replies go
    through. *)
Definition run_server_CPC (fuel : nat) (sq : nat) (s : server) : outcome (list (Z * Z) * server) :=
  match ibv_poll_cq (dev (ag s)) RecvCq 16 with
  | (None, _) => Fault ProcessExit
  | (Some cs, d) =>
      let! (xs, s) := serve_wcs fuel sq
        {| ag := with_dev (ag s) d; rcv := rcv s; memory := memory s |} cs in
      let! st := post_replies fuel sq (ag s) (length cs) in
      Done (xs, {| ag := st; rcv := rcv s; memory := memory s |})
  end.
End server.

(** ** One request *)
Section laws.
Context {V : Verbs} {VL : VerbsLaws V} {VP : VerbsProgress V}.
Variable server_process_msg : mem -> Z -> Z -> outcome (mem * option Z).
Variable port_of : Z -> Z.
Implicit Types (st : agent) (q sq : nat).

Definition few (p : QPInfo) : Prop := pending_cnt (rpc_send p) <= kStaticSendBuf - kMaxSignal.

Lemma advanced_few n st q p st' p' :
  advanced n st q p st' p' -> pending_cnt (rpc_send p) + n <= kStaticSendBuf - kMaxSignal -> few p'.
Proof. intros H ?. unfold few. rewrite (ad_pending _ _ _ _ _ _ H). lia. Qed.

Lemma header_of st q p :
  ok st -> qps st !! q = Some p -> exists h, zget send_header_size (type p) = Some h.
Proof.
  intros Hok Hp. apply zget_is_Some. pose proof (qo_type _ _ _ _ _ (ao_qps _ _ _ Hok q p Hp)).
  unfold LOGDCT, send_header_size, zlen in *. simpl. lia.
Qed.

Lemma lookup_address p i s :
  zget (slots (rpc_send p)) i = Some s -> zget (addresses p) i = Some (addr (sg_list s)).
Proof.
  unfold zget, addresses. case_decide; [|done]. intros E.
  change (@map ?A ?B ?f) with (@fmap list _ A B f). by rewrite list_lookup_fmap, E.
Qed.

Lemma advanced_pos_0 st q p st' p' :
  ok st -> qps st !! q = Some p -> advanced 0 st q p st' p' ->
  buf_pos (rpc_send p') = buf_pos (rpc_send p).
Proof. intros Hok Hp H. rewrite (ad_pos _ _ _ _ _ _ H). eapply ring_pos_0. by apply (ao_qps _ _ _ Hok). Qed.

(** The address of the reply: the buffer at the write position, behind the header. *)
Lemma get_send_msg_addr_returns st q p :
  ok st -> qps st !! q = Some p -> few p ->
  returns (fun fuel => get_send_msg_addr fuel st q) (fun r => exists p' a h,
    advanced 0 st q p r.2 p' /\ room p' /\ zget send_header_size (type p) = Some h /\
    zget (addresses p) (buf_pos (rpc_send p)) = Some a /\ r.1 = wrap 64 (a + h)).
Proof.
  intros Hok Hp Hf. unfold get_send_msg_addr.
  eapply returns_bind; [by apply get_send_msg_sg_returns|].
  intros [sg st1] (p1 & s & Ha & Hr & Hs & E). simpl in *. unfold get_qp. rewrite (ad_qp _ _ _ _ _ _ Ha). simpl.
  destruct (header_of st q p Hok Hp) as [h Hh].
  rewrite (ad_type _ _ _ _ _ _ Ha), (load_in_range _ _ _ Hh). simpl.
  apply returns_done. exists p1, (addr sg), h. split; [done|]. split; [done|]. split; [done|]. split; [|done].
  rewrite <- (ad_addresses _ _ _ _ _ _ Ha), <- (advanced_pos_0 _ _ _ _ _ Hok Hp Ha), E. by apply lookup_address.
Qed.

Definition keeps (st : agent) (q : nat) (p : QPInfo) (r : agent * mem) : Prop :=
  exists p', advanced 0 st q p r.1 p'.

Lemma advanced_refl st q p : ok st -> qps st !! q = Some p -> advanced 0 st q p st p.
Proof.
  intros Hok Hp. split; try done; [by eauto| |simpl; lia|by exists []].
  symmetry. eapply ring_pos_0. by apply (ao_qps _ _ _ Hok).
Qed.

Lemma prepare_reply_returns st m q p req reply :
  ok st -> qps st !! q = Some p -> few p ->
  returns (fun fuel => prepare_reply port_of fuel st m q req reply) (keeps st q p).
Proof.
  intros Hok Hp Hf. unfold prepare_reply, modify_smsg_dst_port, get_qp. rewrite Hp. simpl of_option.
  assert (Hr : forall m, keeps st q p (st, m)) by (intros; exists p; by apply advanced_refl).
  destruct (Z.eqb_spec (type p) LOGRAW) as [E|E].
  - eapply (returns_ext (fun fuel => let! st_m := (let! (sg, st) := get_send_msg_sg fuel st q in
        Done (st, set_dst_port (copy m reply req sizeof_RpcHeader) (addr sg) (port_of (byte (copy m reply req sizeof_RpcHeader) (req + 2))))) in
        let '(st, m) := st_m in Done (st, <[reply:=byte m (req + 1)]> m))).
    { intros fuel. simpl. rewrite E. simpl. by destruct (get_send_msg_sg fuel st q) as [[]|]. }
    eapply (returns_bind _ _ (keeps st q p)).
    + eapply returns_bind; [by apply get_send_msg_sg_returns|]. intros [sg st1] (p1 & s & Ha & _). simpl in *.
      apply returns_done. by exists p1.
    + intros [st1 m1] H. apply returns_done. exact H.
  - simpl. rewrite (proj2 (Z.eqb_neq _ _)) by done.
    destruct (type p =? LOGUD); apply returns_done, Hr.
Qed.

Lemma set_reply_size_returns st m q p size :
  ok st -> qps st !! q = Some p -> few p ->
  returns (fun fuel => set_reply_size fuel st m q size) (keeps st q p).
Proof.
  intros Hok Hp Hf. destruct size as [n|]; [|apply returns_done; exists p; by apply advanced_refl].
  unfold set_reply_size, modify_smsg_size.
  eapply (returns_bind _ _ (fun r : option Z * agent => exists p', advanced 0 st q p r.2 p')).
  2:{ intros [a st1] [p1 H1]. apply returns_done. by exists p1. }
  eapply returns_bind; [by apply get_send_msg_sg_returns|].
  intros [sg st1] (p1 & s & Ha & Hr & Hs & E). simpl in *. unfold get_qp.
  pose proof (ad_qp _ _ _ _ _ _ Ha) as Hp1. pose proof (ad_ok _ _ _ _ _ _ Ha) as Hok1. rewrite Hp1. simpl.
  destruct (header_of st1 q p1 Hok1 Hp1) as [h Hh]. rewrite (load_in_range _ _ _ Hh). simpl.
  destruct (advanced_touch st1 q p1 (fun s =>
    {| sg_num := sg_num s; sg_list := {| addr := addr (sg_list s); len := wrap 32 (n + h) |};
       wr := wr s; exp_wr := exp_wr s; wr_info := wr_info s |})) as (st2 & p2 & s2 & E2 & Ha2 & Hr2 & _);
    [done|done|done|by intros|].
  rewrite E2. simpl. pose proof (advanced_trans 0 0 _ _ _ _ _ _ _ Ha Ha2) as Ha02.
  destruct (type p1 =? LOGRAW); [|apply returns_done; by exists p2].
  eapply returns_bind; [apply get_send_msg_sg_returns; [apply Ha2|apply Ha2|eapply advanced_few; [apply Ha02|]]|].
  { unfold few in Hf. lia. }
  intros [sg3 st3] (p3 & s3 & Ha3 & _). simpl in *. apply returns_done. exists p3.
  by eapply (advanced_trans 0 0).
Qed.

(** Receives that change leave the send side as it is. *)
Lemma advanced_recv q0 st sq p d :
  ok st -> qps st !! sq = Some p -> only_recv q0 (dev st) d -> ok (with_dev st d).
Proof.
  intros [A1 A2 A3 A4 A5 A6 A7] Hp (_ & H2 & H3).
  split; simpl; rewrite ?H3; try done; intros; rewrite H2; auto.
Qed.

Lemma append_advanced st q p :
  ok st -> qps st !! q = Some p -> few p ->
  room p -> exists st' p', append_signal_smsg st q false None = Done st' /\ advanced 1 st q p st' p' /\ dev st' = dev st.
Proof.
  intros Hok Hp Hf Hr. destruct (append_signal_smsg_ok st q p false None Hok Hp Hr) as
    (st' & p' & E & Hok' & Hp' & Ht & Hpos & Hpend & Hcnt & Hbuf & Hoth & Hsame & Hdev); [done|].
  exists st', p'. split; [done|]. split; [|done]. split; try done.
  - intros q' p1 Hp1. destruct (decide (q' = q)) as [->|Hne].
    + exists p. split; [done|]. congruence.
    + rewrite Hoth in Hp1 by done. by exists p1.
  - unfold addresses. rewrite <- !(map_map sg_list addr). by rewrite Hbuf.
  - intros. by rewrite Hdev.
  - exists []. by rewrite Hdev.
Qed.

Lemma advanced_room st q p st' p' :
  ok st -> qps st !! q = Some p -> advanced 0 st q p st' p' -> room p -> room p'.
Proof.
  intros Hok Hp H Hr. unfold room in *.
  destruct (counter_in_flight st q p Hok Hp) as (E & _).
  destruct (counter_in_flight st' q p' (ad_ok _ _ _ _ _ _ H) (ad_qp _ _ _ _ _ _ H)) as (E' & _).
  destruct (ad_flight _ _ _ _ _ _ H) as [D HD]. rewrite HD, zlen_app in E. pose proof (zlen_nonneg D).
  rewrite (ad_pending _ _ _ _ _ _ H). lia.
Qed.

(** ** The invariant of the server

    [todo q] are the completions of queue pair [q] that the turn has yet to serve. *)
Record server_ok (s : server) (todo : nat -> list (nat * nat)) : Prop := {
  se_ag : ok (ag s);
  se_len : length (rcv s) = length (qps (ag s));
  se_rcv : forall q r, rcv s !! q = Some r ->
    exists N R, recv_ok q (r, dev (ag s)) (todo q) N N R /\ 63 * kBatchRecv r <= (64 + R) * kBatchRecv r - N;
  se_none : forall q, rcv s !! q = None -> recv_queue (dev (ag s)) q = [] /\ todo q = [];
  se_types : forall q p, qps (ag s) !! q = Some p -> type p < LOGTSRQ }.

Definition handler_total : Prop :=
  forall m req reply, exists m' size, server_process_msg m req reply = Done (m', size).

Lemma recv_ok_same q r d d' todo N F R :
  recv_queue d' q = recv_queue d q -> recv_ok q (r, d) todo N F R -> recv_ok q (r, d') todo N F R.
Proof. intros E []. split; try done. simpl. by rewrite E. Qed.

(** The receive side of one request: its address is that of the buffer the
    completion names, and it is freed. *)
Lemma take_request q r d x todo N R type_ :
  0 <= type_ < LOGTSRQ -> recv_ok q (r, d) (x :: todo) N N R ->
  exists req r1 sg h, get_recv_msg_addr type_ r None = Done (req, r1) /\
    buffer_of r x = Some sg /\ zget recv_header_size type_ = Some h /\ req = wrap 64 (addr sg + h) /\
    forall d1, recv_queue d1 q = recv_queue d q ->
    exists r2 d2 R2, free_recv_msg 64 type_ q (r1, d1) None = Done (r2, d2) /\ only_recv q d1 d2 /\
      recv_ok q (r2, d2) todo (N + 1) (N + 1) R2 /\ rpc_recv_wr r2 = rpc_recv_wr r /\
      63 * kBatchRecv r2 <= (64 + R2) * kBatchRecv r2 - (N + 1).
Proof.
  intros Ht Hr. destruct (get_recv_msg_sg_ok _ _ _ _ _ _ _ Hr) as (sg & r1 & E & Hsg & Hb & Hr1). simpl in *.
  destruct (zget_is_Some recv_header_size type_) as [h Hh]; [unfold LOGTSRQ, recv_header_size, zlen in *; simpl; lia|].
  exists (wrap 64 (addr sg + h)), r1, sg, h.
  unfold get_recv_msg_addr, free_recv_msg.
  rewrite !(proj2 (Z.eqb_neq type_ _)) by (unfold LOGTSRQ, LOGGSRQ in *; lia). simpl orb. cbv iota.
  rewrite E, obind_done, (load_in_range _ _ _ Hh), obind_done. do 4 (split; [done|]).
  intros d1 Hd. apply (recv_ok_same _ _ _ d1) in Hr1; [|done].
  assert (Hfree : recv_ok q (with_counts r1 (wrap 32 (recv_buf_cnt r1 - recv_processing_cnt r1)) 0
      (recv_buf_pos r1) (recv_postpipe_pos r1), d1) todo (N + 1) (N + 1) R).
  { destruct Hr1 as [[K1 K2] B Hpos Hproc Hcnt Hpp Hq [O1 [O2 O3]] [W1 W2]]. simpl in *.
    assert (Ew : wrap 32 (recv_buf_cnt r1 - recv_processing_cnt r1) = (POSTPIPE + R) * kBatchRecv r1 - (N + 1)).
    { rewrite Hcnt, Hproc, wrap_small; [lia|]. unfold in_width. lia. }
    split; simpl; rewrite ?Ew; try done; try lia. }
  destruct (ro_order _ _ _ _ _ _ Hfree) as (O1 & O2 & O3). simpl in O2.
  destruct (check_recv_buf_cnt_ok q 64 _ _ _ _ _ Hfree) as ([r2 d2] & R2 & E2 & Hok2 & Hb2 & Hk2 & Hc2 & Ho2); [|lia|].
  { rewrite (ro_cnt _ _ _ _ _ _ Hfree). simpl. unfold POSTPIPE in *. lia. }
  exists r2, d2, R2. split; [done|]. split; [done|]. split; [done|]. simpl in *. split; [congruence|].
  pose proof (ro_cnt _ _ _ _ _ _ Hok2) as Hcnt2. simpl in Hcnt2. unfold POSTPIPE in *. lia.
Qed.

(** [n] requests have been served, their replies are pending at queue pair [sq]. *)
Record served (n : Z) (sq : nat) (s : server) (p : QPInfo) (s' : server) (p' : QPInfo) : Prop := {
  sd_qp : qps (ag s') !! sq = Some p';
  sd_types : forall q p1, qps (ag s') !! q = Some p1 -> exists p2, qps (ag s) !! q = Some p2 /\ type p2 = type p1;
  sd_type : type p' = type p;
  sd_pos : buf_pos (rpc_send p') = ring_pos (buf_pos (rpc_send p)) n;
  sd_pending : pending_cnt (rpc_send p') = pending_cnt (rpc_send p) + n;
  sd_addresses : addresses p' = addresses p;
  sd_same : same_but_credits (ag s) (ag s');
  sd_flight : exists done, in_flight (dev (ag s)) sq = done ++ in_flight (dev (ag s')) sq;
  sd_buffers : forall q r', rcv s' !! q = Some r' -> exists r, rcv s !! q = Some r /\ rpc_recv_wr r' = rpc_recv_wr r }.

(** The addresses of request [i] of batch [b] of queue pair [q] and of its reply. *)
Definition addresses_of (s : server) (p : QPInfo) (n : Z) (q : nat) (x : nat * nat) (a : Z * Z) : Prop :=
  exists r pq sg h a2 h2, rcv s !! q = Some r /\ qps (ag s) !! q = Some pq /\
    buffer_of r x = Some sg /\ zget recv_header_size (type pq) = Some h /\ a.1 = wrap 64 (addr sg + h) /\
    zget (addresses p) (ring_pos (buf_pos (rpc_send p)) n) = Some a2 /\
    zget send_header_size (type p) = Some h2 /\ a.2 = wrap 64 (a2 + h2).

Definition rest_of (q : nat) (rest : list (nat * nat)) (todo : nat -> list (nat * nat)) (q' : nat) : list (nat * nat) :=
  if decide (q' = q) then rest else todo q'.

(** What is left to prove when the request is taken and the reply appended. *)
Lemma serve_done s todo sq p q r x rest p3 st3 r2 d2 st4 p4 N R2 m :
  server_ok s todo -> rcv s !! q = Some r -> todo q = x :: rest -> qps (ag s) !! sq = Some p ->
  advanced 0 (ag s) sq p st3 p3 -> only_recv q (dev st3) d2 ->
  recv_ok q (r2, d2) rest (N + 1) (N + 1) R2 -> rpc_recv_wr r2 = rpc_recv_wr r ->
  63 * kBatchRecv r2 <= (64 + R2) * kBatchRecv r2 - (N + 1) ->
  advanced 1 (with_dev st3 d2) sq p3 st4 p4 -> dev st4 = d2 ->
  let s' := {| ag := st4; rcv := <[q := r2]> (rcv s); memory := m |} in
  server_ok s' (rest_of q rest todo) /\ served 1 sq s p s' p4.
Proof.
  intros Hs Hr Ht Hp H3 Ho Hr2 Hb Hc H4 Hd s'. destruct Hs as [S1 S2 S3 S4 S5].
  assert (Hq : (q < length (rcv s))%nat) by by eapply lookup_lt_Some.
  assert (Hsame : same_but_credits (ag s) st4).
  { destruct (ad_same _ _ _ _ _ _ H3), (ad_same _ _ _ _ _ _ H4). simpl in *. split; congruence. }
  assert (Htypes : forall q' p1, qps st4 !! q' = Some p1 -> exists p2, qps (ag s) !! q' = Some p2 /\ type p2 = type p1).
  { intros q' p1 (p5 & H5 & H6)%(ad_types _ _ _ _ _ _ H4). simpl in H5.
    apply (ad_types _ _ _ _ _ _ H3) in H5 as (p6 & H7 & H8). exists p6. split; [done|congruence]. }
  destruct Ho as (Ho1 & Ho2 & Ho3). split.
  - split; simpl; rewrite ?Hd.
    + apply H4.
    + rewrite length_insert, S2. symmetry. apply Hsame.
    + intros q' r'. unfold rest_of. destruct (decide (q' = q)) as [->|Hne].
      * rewrite list_lookup_insert_eq by done. intros [= <-]. by exists (N + 1), R2.
      * rewrite list_lookup_insert_ne by done. intros (N' & R' & H5 & H6)%S3. exists N', R'. split; [|done].
        eapply recv_ok_same; [|exact H5]. rewrite Ho1 by done. apply H3.
    + intros q' HN%lookup_ge_None. rewrite length_insert in HN.
      destruct (S4 q') as [E1 E2]; [by apply lookup_ge_None|].
      unfold rest_of. rewrite decide_False by lia. split; [|done].
      rewrite Ho1 by lia. rewrite (ad_recv _ _ _ _ _ _ H3). done.
    + intros q' p1 (p2 & H5 & <-)%Htypes. by eapply S5.
  - split; simpl; try done.
    + apply H4.
    + by rewrite (ad_type _ _ _ _ _ _ H4), (ad_type _ _ _ _ _ _ H3).
    + by rewrite (ad_pos _ _ _ _ _ _ H4), (advanced_pos_0 _ _ _ _ _ S1 Hp H3).
    + rewrite (ad_pending _ _ _ _ _ _ H4), (ad_pending _ _ _ _ _ _ H3). lia.
    + by rewrite (ad_addresses _ _ _ _ _ _ H4), (ad_addresses _ _ _ _ _ _ H3).
    + destruct (ad_flight _ _ _ _ _ _ H3) as [D1 E1], (ad_flight _ _ _ _ _ _ H4) as [D2 E2].
      simpl in E2. exists (D1 ++ D2). by rewrite E1, <- Ho2, E2, app_assoc.
    + intros q' r'. destruct (decide (q' = q)) as [->|Hne].
      * rewrite list_lookup_insert_eq by done. intros [= <-]. by exists r.
      * rewrite list_lookup_insert_ne by done. by exists r'.
Qed.

Lemma serve_wc_returns sq s p c q b i rest todo :
  handler_total -> wr_id c = RecvWr q b i -> server_ok s todo -> todo q = (b, i) :: rest ->
  qps (ag s) !! sq = Some p -> pending_cnt (rpc_send p) + 1 <= kStaticSendBuf - kMaxSignal ->
  returns (fun fuel => serve_wc server_process_msg port_of fuel sq s c) (fun r =>
    exists p', server_ok r.2 (rest_of q rest todo) /\ served 1 sq s p r.2 p' /\
      addresses_of s p 0 q (b, i) r.1).
Proof.
  intros Hh Hc Hs Ht Hp Hpend. pose proof (se_ag _ _ Hs) as Hok.
  destruct (rcv s !! q) as [r|] eqn:Hr; [|by apply (se_none _ _ Hs) in Hr as [_ Hr]; rewrite Hr in Ht].
  assert (Hlt : (q < length (qps (ag s)))%nat).
  { rewrite <- (se_len _ _ Hs). by eapply lookup_lt_Some. }
  apply lookup_lt_is_Some_2 in Hlt as [pq Hpq].
  destruct (se_rcv _ _ Hs q r Hr) as (N & R & Hro & _). rewrite Ht in Hro.
  assert (Htype : 0 <= type pq < LOGTSRQ).
  { pose proof (qo_type _ _ _ _ _ (ao_qps _ _ _ Hok q pq Hpq)). pose proof (se_types _ _ Hs q pq Hpq). lia. }
  destruct (take_request _ _ _ _ _ _ _ (type pq) Htype Hro) as (req & r1 & sg & h & Eget & Hsg & Hh1 & Ereq & Hfree).
  unfold serve_wc. rewrite Hc. simpl wr_qp. unfold get_qp. rewrite Hpq, Hr. simpl of_option.
  eapply (returns_ext (fun fuel => let! (reply, st) := get_send_msg_addr fuel (ag s) sq in
    let! (st, m) := prepare_reply port_of fuel st (memory s) sq req reply in
    let! (m, size) := server_process_msg m req reply in
    let! (st, m) := set_reply_size fuel st m sq size in
    let! (r, d) := free_recv_msg 64 (type pq) q (r1, dev st) None in
    let! st := append_signal_smsg (with_dev st d) sq false None in
    Done ((req, reply), {| ag := st; rcv := <[q := r]> (rcv s); memory := m |}))).
  { intros fuel. rewrite !obind_done, Eget, obind_done. done. }
  assert (Hf : few p) by (unfold few; lia).
  eapply returns_bind; [by apply get_send_msg_addr_returns|].
  intros [reply st1] (p1 & a & h2 & H1 & Hroom & Hh2 & Ha & Ereply). simpl in *.
  assert (Hf1 : few p1) by (eapply advanced_few; [exact H1|unfold few in *; lia]).
  eapply returns_bind; [eapply prepare_reply_returns; [apply H1|apply H1|done]|].
  intros [st2 m2] [p2 H2]. simpl in H2.
  assert (Hf2 : few p2) by (eapply advanced_few; [exact H2|unfold few in *; lia]).
  destruct (Hh m2 req reply) as (m3 & size & ->). cbn [obind].
  eapply returns_bind; [eapply set_reply_size_returns; [apply H2|apply H2|done]|].
  intros [st3 m4] [p3 H3]. simpl in H3.
  pose proof (advanced_trans 0 0 _ _ _ _ _ _ _ H1 (advanced_trans 0 0 _ _ _ _ _ _ _ H2 H3)) as H03. simpl in H03.
  destruct (Hfree (dev st3)) as (r2 & d2 & R2 & E2 & Ho & Hr2 & Hb2 & Hc2); [apply H03|].
  rewrite E2. cbn [obind].
  pose proof (advanced_recv q st3 sq p3 d2 (ad_ok _ _ _ _ _ _ H03) (ad_qp _ _ _ _ _ _ H03) Ho) as Hok3.
  destruct (append_advanced (with_dev st3 d2) sq p3 Hok3) as (st4 & p4 & E4 & H4 & Hd4).
  { apply H03. }
  { eapply advanced_few; [exact H03|unfold few in *; lia]. }
  { eapply (advanced_room st1); [apply H1|apply H1|exact (advanced_trans 0 0 _ _ _ _ _ _ _ H2 H3)|done]. }
  rewrite E4. apply returns_done. exists p4. simpl.
  destruct (serve_done s todo sq p q r (b, i) rest p3 st3 r2 d2 st4 p4 N R2 m4) as [Hs' Hd']; try done.
  split; [done|]. split; [done|]. exists r, pq, sg, h, a, h2. do 5 (split; [done|]).
  rewrite (ring_pos_0 _ _ _ _ _ (ao_qps _ _ _ Hok sq p Hp)). done.
Qed.

(** ** A turn *)
Lemma server_ok_ext s t t' : (forall q, t q = t' q) -> server_ok s t -> server_ok s t'.
Proof.
  intros E []. split; try done.
  - intros q r. rewrite <- E. auto.
  - intros q. rewrite <- E. auto.
Qed.

Lemma served_trans n m sq s1 p1 s2 p2 s3 p3 :
  served n sq s1 p1 s2 p2 -> served m sq s2 p2 s3 p3 -> served (n + m) sq s1 p1 s3 p3.
Proof.
  intros [A1 A2 A3 A4 A5 A6 A7 [D1 A8] A9] [B1 B2 B3 B4 B5 B6 B7 [D2 B8] B9].
  split; try done; try congruence; try lia.
  - intros q p (p5 & H5 & H6)%B2. apply A2 in H5 as (p6 & H7 & H8). exists p6. split; [done|congruence].
  - rewrite B4, A4. unfold ring_pos, kStaticSendBuf, kMaxSignal. lia.
  - by eapply same_but_credits_trans.
  - exists (D1 ++ D2). by rewrite A8, B8, app_assoc.
  - intros q r (r2 & H5 & H6)%B9. apply A9 in H5 as (r3 & H7 & H8). exists r3. split; [done|congruence].
Qed.

Lemma served_refl sq s p todo :
  server_ok s todo -> qps (ag s) !! sq = Some p -> served 0 sq s p s p.
Proof.
  intros H Hp. split; try done; [by eauto| |lia|by exists []|by eauto].
  symmetry. eapply ring_pos_0. by apply (ao_qps _ _ _ (se_ag _ _ H)).
Qed.

Lemma addresses_of_earlier m n sq s1 p1 s2 p2 q x a :
  served m sq s1 p1 s2 p2 -> addresses_of s2 p2 n q x a -> addresses_of s1 p1 (m + n) q x a.
Proof.
  intros [A1 A2 A3 A4 A5 A6 A7 _ A9] (r & pq & sg & h & a2 & h2 & H1 & H2 & H3 & H4 & H5 & H6 & H7 & H8).
  destruct (A9 _ _ H1) as (r0 & Hr0 & Hb). destruct (A2 _ _ H2) as (p0 & Hp0 & Ht).
  exists r0, p0, sg, h, a2, h2. rewrite Ht, <- A3, <- A6. do 2 (split; [done|]).
  split; [by unfold buffer_of in *; rewrite <- Hb|]. do 2 (split; [done|]). split; [|done].
  rewrite <- H6, A4. f_equal. unfold ring_pos, kStaticSendBuf, kMaxSignal. lia.
Qed.

Lemma recv_ids_cons q c cs q' b i :
  wr_id c = RecvWr q' b i ->
  recv_ids q (c :: cs) = if decide (q' = q) then (b, i) :: recv_ids q cs else recv_ids q cs.
Proof. intros E. unfold recv_ids. simpl. rewrite E. by case_decide. Qed.

Lemma serve_wcs_returns sq cs : forall s p,
  handler_total -> Forall (fun c => is_send c = false) cs ->
  server_ok s (fun q => recv_ids q cs) -> qps (ag s) !! sq = Some p ->
  pending_cnt (rpc_send p) + zlen cs <= kStaticSendBuf - kMaxSignal ->
  returns (fun fuel => serve_wcs server_process_msg port_of fuel sq s cs) (fun r =>
    exists p', server_ok r.2 (fun _ => []) /\ served (zlen cs) sq s p r.2 p' /\ length r.1 = length cs /\
      forall i c a, cs !! i = Some c -> r.1 !! i = Some a ->
        exists q b j, wr_id c = RecvWr q b j /\ addresses_of s p (Z.of_nat i) q (b, j) a).
Proof.
  induction cs as [|c cs IH]; intros s p Hh Hcs Hs Hp Hpend.
  { apply returns_done. exists p. split; [done|]. split; [by eapply served_refl|]. done. }
  apply Forall_cons in Hcs as [Hc Hcs]. rewrite zlen_cons in *. pose proof (zlen_nonneg cs).
  destruct (wr_id c) as [|q b j] eqn:Ec; [by unfold is_send in Hc; rewrite Ec in Hc|]. cbn [serve_wcs].
  eapply returns_bind.
  { apply (serve_wc_returns sq s p c q b j (recv_ids q cs) (fun q => recv_ids q (c :: cs)));
      [done|done|done| |done|lia]. cbv beta. rewrite (recv_ids_cons _ _ _ _ _ _ Ec). by rewrite decide_True. }
  intros [x s1] (p1 & Hs1 & Hd1 & Hx). cbn [fst snd] in *.
  eapply returns_bind.
  { apply (IH s1 p1); [done|done| |apply Hd1|rewrite (sd_pending _ _ _ _ _ _ Hd1); lia].
    eapply server_ok_ext; [|exact Hs1]. intros q'. unfold rest_of.
    destruct (decide (q' = q)) as [->|Hne]; [done|]. cbv beta.
    rewrite (recv_ids_cons _ _ _ _ _ _ Ec). by rewrite decide_False. }
  intros [xs s2] (p2 & Hs2 & Hd2 & Hl & Hxs). simpl in *. apply returns_done. exists p2. simpl.
  split; [done|]. split; [rewrite Z.add_comm; by eapply served_trans|]. split; [by rewrite Hl|].
  intros [|i] c' a; simpl.
  - intros [= <-] [= <-]. by exists q, b, j.
  - intros H1 H2. destruct (Hxs i c' a H1 H2) as (q' & b' & j' & E & Ha). exists q', b', j'. split; [done|].
    replace (Z.of_nat (S i)) with (1 + Z.of_nat i) by lia. by eapply addresses_of_earlier.
Qed.

Lemma post_nothing st q p n fuel :
  qps st !! q = Some p -> pending_cnt (rpc_send p) = 0 -> post_replies fuel q st n = Done st.
Proof.
  intros Hp H0. induction n as [|n IH]; [done|]. cbn [post_replies].
  unfold post_appended_smsg, get_qp. rewrite Hp. simpl of_option. by rewrite obind_done, H0.
Qed.

(** The first post takes all replies. *)
Lemma post_replies_returns st q p n :
  ok st -> qps st !! q = Some p -> pending_cnt (rpc_send p) < cq_len (send_cq st) ->
  (pending_cnt (rpc_send p) = 0 \/ 0 < n)%Z -> 0 <= n ->
  returns (fun fuel => post_replies fuel q st (Z.to_nat n)) (fun st' =>
    (pending_cnt (rpc_send p) = 0 /\ st' = st) \/ exists B, post_effect st q p B st').
Proof.
  intros Hok Hp Hcq Hn Hn0. destruct (Z.eq_dec (pending_cnt (rpc_send p)) 0) as [E0|Hne].
  { eapply (returns_ext (fun _ => Done st)); [intros; by erewrite post_nothing|]. apply returns_done. by left. }
  destruct (Z.to_nat n) as [|k] eqn:Ek; [lia|]. cbn [post_replies].
  eapply (returns_bind _ _ (fun r => exists B, post_effect st q p B r.2)).
  - apply returns_intro; [by eapply post_appended_smsg_halts|]. intros fuel r E.
    pose proof (safe_inv _ _ _ (post_appended_smsg_ok fuel st q p false Hok Hp) E) as H.
    rewrite (proj2 (Z.eqb_neq _ _)) in H by done. apply H.
  - intros [y st1] [B HB]. simpl in HB. destruct (pe_qp _ _ _ _ _ HB) as (p1 & Hp1 & _ & _ & Hz & _).
    eapply (returns_ext (fun _ => Done st1)); [intros; by erewrite post_nothing|]. apply returns_done. right. eauto.
Qed.

(** The server stays well-formed across the post. *)
Lemma server_ok_posted s st sq p B m :
  server_ok s (fun _ => []) -> qps (ag s) !! sq = Some p -> post_effect (ag s) sq p B st ->
  server_ok {| ag := st; rcv := rcv s; memory := m |} (fun _ => []).
Proof.
  intros [S1 S2 S3 S4 S5] Hp [P1 P2 P3 P4 P5 (p' & P6 & P7 & _) _]. split; simpl; try done.
  - rewrite S2. symmetry. apply P2.
  - intros q r (N & R & H1 & H2)%S3. exists N, R. split; [|done]. eapply recv_ok_same; [|exact H1]. apply P3.
  - intros q H. by rewrite P3; apply S4.
  - intros q p1 Hp1. destruct (decide (q = sq)) as [->|Hne].
    + rewrite P6 in Hp1. injection Hp1 as <-. rewrite P7. by eapply S5.
    + assert (Hlt : (q < length (qps (ag s)))%nat) by (rewrite <- (sb_qps _ _ P2); by eapply lookup_lt_Some).
      apply lookup_lt_is_Some_2 in Hlt as [p2 Hp2]. rewrite (P5 q p2 Hne Hp2) in Hp1. injection Hp1 as <-.
      by eapply (S5 q p2).
Qed.

(** A turn of the server serves what it polled. *)
Definition turn (sq : nat) (s : server) (p : QPInfo) (r : list (Z * Z) * server) : Prop :=
  exists cs d, ibv_poll_cq (dev (ag s)) RecvCq 16 = (Some cs, d) /\
    server_ok r.2 (fun _ => []) /\ length r.1 = length cs /\
    (forall i c a, cs !! i = Some c -> r.1 !! i = Some a ->
       exists q b j, wr_id c = RecvWr q b j /\ addresses_of s p (Z.of_nat i) q (b, j) a) /\
    exists p' rest B, qps (ag r.2) !! sq = Some p' /\ pending_cnt (rpc_send p') = 0 /\
      in_flight (dev (ag r.2)) sq = rest ++ B /\ (exists done, in_flight (dev (ag s)) sq = done ++ rest) /\
      map w_id B = map (ring_pos (buf_pos (rpc_send p))) (seqZ 0 (zlen cs)).

Lemma batch_ids st sq p p0 B st' n :
  ok st -> qps st !! sq = Some p -> post_effect st sq p B st' ->
  pending_cnt (rpc_send p) = n -> buf_pos (rpc_send p) = ring_pos p0 n ->
  map w_id B = map (ring_pos p0) (seqZ 0 n).
Proof.
  intros Hok Hp HB Hpend Hpos. destruct (pe_batch _ _ _ _ _ HB) as [Hl Hw].
  pose proof (qo_begin _ _ _ _ _ (ao_qps _ _ _ Hok sq p Hp)) as Hb.
  apply list_eq. intros i. change (@map ?A ?B ?f) with (@fmap list _ A B f). rewrite !list_lookup_fmap.
  destruct (decide (Z.of_nat i < n)).
  - rewrite lookup_seqZ_lt by lia. destruct (Hw (Z.of_nat i)) as (w & s0 & E & _ & Hid & _); [lia|].
    unfold zget in E. rewrite decide_True, Nat2Z.id in E by lia. rewrite E. simpl. f_equal.
    rewrite Hid, Hb, Hpos, Hpend. unfold ring_pos, kStaticSendBuf, kMaxSignal. lia.
  - rewrite lookup_seqZ_ge by lia. rewrite (proj2 (lookup_ge_None B i)); [done|]. unfold zlen in Hl. lia.
Qed.

(** A server between turns. *)
Definition idle (sq : nat) (s : server) : Prop :=
  server_ok s (fun _ => []) /\ kMaxWcCnt < cq_len (send_cq (ag s)) /\
  exists p, qps (ag s) !! sq = Some p /\ pending_cnt (rpc_send p) = 0.

(** The completions of a poll are what the turn has to do. *)
Lemma server_ok_polled s cs d :
  server_ok s (fun _ => []) -> ibv_poll_cq (dev (ag s)) RecvCq 16 = (Some cs, d) ->
  server_ok {| ag := with_dev (ag s) d; rcv := rcv s; memory := memory s |} (fun q => recv_ids q cs).
Proof.
  intros [[A1 A2 A3 A4 A5 A6 A7] S2 S3 S4 S5] E.
  destruct (poll_recv_law _ _ _ _ E ltac:(lia)) as (cs' & [= <-] & _ & _ & Hload & Hfl & Hq). split; try done.
  - split; simpl; rewrite ?Hload; try done; intros; rewrite Hfl; auto.
  - intros q r (N & R & [? ? ? ? ? ? Hqq ? ?] & H2)%S3. exists N, R. split; [|done].
    split; try done. simpl in *. by rewrite <- Hq.
  - intros q [H1 _]%S4. rewrite (Hq q) in H1. apply app_nil in H1 as [H1 H3]. done.
Qed.

(** The replies that were pending are posted. *)
Lemma replies_posted sq s p1 n p0 st m :
  server_ok s (fun _ => []) -> qps (ag s) !! sq = Some p1 ->
  pending_cnt (rpc_send p1) = n -> 0 <= n -> buf_pos (rpc_send p1) = ring_pos p0 n ->
  (pending_cnt (rpc_send p1) = 0 /\ st = ag s) \/ (exists B, post_effect (ag s) sq p1 B st) ->
  server_ok {| ag := st; rcv := rcv s; memory := m |} (fun _ => []) /\
  cq_len (send_cq st) = cq_len (send_cq (ag s)) /\
  exists p' rest B, qps st !! sq = Some p' /\ pending_cnt (rpc_send p') = 0 /\
    in_flight (dev st) sq = rest ++ B /\ (exists done, in_flight (dev (ag s)) sq = done ++ rest) /\
    map w_id B = map (ring_pos p0) (seqZ 0 n).
Proof.
  intros Hs Hp Hn Hn0 Hpos [[Hz ->]|[B HB]].
  - split; [destruct Hs; by split|]. split; [done|].
    exists p1, (in_flight (dev (ag s)) sq), []. do 2 (split; [done|]).
    split; [by rewrite app_nil_r|]. split; [by exists []|]. by rewrite seqZ_nil by lia.
  - split; [by eapply server_ok_posted|].
    split; [by rewrite (sb_len _ _ (pe_same _ _ _ _ _ HB))|].
    destruct (pe_qp _ _ _ _ _ HB) as (p2 & Hp2 & _ & _ & Hz & _).
    destruct (pe_flight _ _ _ _ _ HB sq) as (D2 & rest & E1 & _ & E2).
    exists p2, rest, B. do 2 (split; [done|]). unfold batch in E2. rewrite decide_True in E2 by done.
    split; [done|]. split; [by exists D2|].
    eapply (batch_ids (ag s)); [apply Hs|done..].
Qed.


End laws.

(** ** Witness: a queue pair with its receives posted, and a handler that answers
    with 100 bytes. *)
#[local] Existing Instances QpDevice.verbs QpDevice.laws QpDevice.progress.

Definition echo (m : mem) (req reply : Z) : outcome (mem * option Z) := Done (m, Some 100).

Lemma echo_total : handler_total echo.
Proof. intros m req reply. by exists m, (Some 100). Qed.

Definition sample_ag (d : QpDevice.queues) : agent (V := QpDevice.verbs) :=
  @Build_agent QpDevice.verbs [sample_qp]
    {| cq_len := 128; signal_counter := 0; recv_cq_only := false |}
    [{| free := true; async_op_cnt := -1 |}] d.

Definition sample_server : server (V := QpDevice.verbs) :=
  {| ag := sample_ag sample1.2; rcv := [sample1.1]; memory := ∅ |}.

Lemma sample_idle : idle 0 sample_server.
Proof.
  destruct (init_recv_ok 0 QpRecv.sample sample_mr sample_side_constructed) as (st1 & E & Hr & _).
  assert (st1 = sample1) as -> by (unfold sample1; rewrite E; done).
  rewrite (surjective_pairing sample1) in Hr.
  split; [|split; [done|exists sample_qp; split; [done|vm_compute; reflexivity]]].
  constructor.
  - apply fresh_ok. split.
    { intros [|q] p Hp; [|done]. injection Hp as <-. apply sample_qp_fresh. }
    vm_compute. repeat split; done || discriminate.
  - reflexivity.
  - intros [|q] r Hq; [|done]. apply (inj Some) in Hq. subst r. exists 0, 0. split; [exact Hr|].
    vm_compute. discriminate.
  - intros [|q] Hq; [done|]. split; [|done]. vm_compute. reflexivity.
  - intros [|q] p Hq; [|done]. injection Hq as <-. vm_compute. reflexivity.
Qed.


End Rpc.
