(* ===== verification/SecondaryModel.v ===== *)
(** * apps/kv/secondary_index.cc: the nodes of the secondary index

    [Module Secondary]: a table of rows (primary key, value, version) on the data
    node and an index from values to primary keys on the index node, both behind
    the message struct of [KvMessage].  Rows live in a libcuckoo table, the index
    in Masstree; both are interfaces.  The arrays the server loop fills
    (del_queue, write_queue) have their bounds written out. *)

From stdpp Require Import sorting.
From S2P Require Import Prelude KvMessageModel.
Import KvMessage.

(** ** The containers *)

(** libcuckoo::cuckoohash_map as this repository uses it: [new_insert] replaces
    and hands out the value it replaced ([None]: the key was new, the call
    returns true). *)
Class CuckooOps (M : Type -> Type) := {
  cuckoo_empty {V} : M V;
  cuckoo_find {V} : M V -> Z -> option V;
  cuckoo_new_insert {V} : M V -> Z -> V -> option V * M V }.

Class CuckooLaws (M : Type -> Type) `{CuckooOps M} := {
  find_empty {V} k : cuckoo_find (cuckoo_empty (V := V)) k = None;
  new_insert_old {V} (m : M V) k v : (cuckoo_new_insert m k v).1 = cuckoo_find m k;
  find_new_insert {V} (m : M V) k v k' :
    cuckoo_find (cuckoo_new_insert m k v).2 k' =
      if decide (k' = k) then Some v else cuckoo_find m k' }.

#[export] Instance gmap_cuckoo_ops : CuckooOps (gmap Z) := {
  cuckoo_empty V := ∅;
  cuckoo_find V m k := m !! k;
  cuckoo_new_insert V m k v := (m !! k, <[k := v]> m) }.

#[export] Instance gmap_cuckoo_laws : CuckooLaws (gmap Z).
Proof.
  split; intros; simpl; [apply lookup_empty|done|].
  case_decide as E; [subst; apply lookup_insert_eq|by apply lookup_insert_ne].
Qed.

(** The order of the keys in Masstree: bytes from the left, a proper prefix
    first. *)
Fixpoint lex_le (a b : list Z) : bool :=
  match a, b with
  | [], _ => true
  | _ :: _, [] => false
  | x :: a, y :: b => (x <? y) || ((x =? y) && lex_le a b)
  end.

Lemma lex_le_cons x y a b :
  lex_le (x :: a) (y :: b) = true <-> x < y \/ (x = y /\ lex_le a b = true).
Proof.
  simpl. rewrite orb_true_iff, andb_true_iff, Z.ltb_lt, Z.eqb_eq. done.
Qed.

Lemma lex_le_trans a b c : lex_le a b = true -> lex_le b c = true -> lex_le a c = true.
Proof.
  revert b c. induction a as [|x a IH]; [done|]. intros [|y b] [|z c]; try done.
  rewrite !lex_le_cons. intros [|[-> ?]] [|[-> ?]]; try (left; lia). right. eauto.
Qed.

Lemma lex_le_total a b : lex_le a b = true \/ lex_le b a = true.
Proof.
  revert b. induction a as [|x a IH]; [by left|]. intros [|y b]; [by right|].
  rewrite !lex_le_cons. destruct (IH b), (Z.lt_trichotomy x y) as [|[]]; intuition.
Qed.

(** What lies between two keys with a common prefix has it too. *)
Lemma lex_between n a b c :
  take n a = take n c -> lex_le a b = true -> lex_le b c = true -> take n b = take n a.
Proof.
  revert a b c. induction n as [|n IH]; intros a b c E Hab Hbc; [done|].
  destruct a as [|x a], c as [|z c]; simplify_eq/=.
  - by destruct b.
  - destruct b as [|y b]; [done|]. apply lex_le_cons in Hab, Hbc.
    assert (y = z) as -> by (destruct Hab as [|[]], Hbc as [|[]]; lia). simpl. f_equal.
    destruct Hab as [|[_ Hab]], Hbc as [|[_ Hbc]]; try lia. by apply (IH a b c).
Qed.

Lemma lex_le_app p a b : lex_le (p ++ a) (p ++ b) = lex_le a b.
Proof. induction p as [|x p IH]; [done|]. simpl. by rewrite Z.ltb_irrefl, Z.eqb_refl, IH. Qed.

(** Zeros come before any key of bytes that are not all zero. *)
Lemma lex_le_zeros n b :
  Forall (fun x => 0 <= x) b -> Exists (fun x => x <> 0) b -> lex_le (replicate n 0) b = true.
Proof.
  intros Hb He. revert n. induction b as [|x b IH]; intros n; [by inversion He|].
  destruct n as [|n]; [done|]. change (replicate (S n) 0) with (0 :: replicate n 0).
  apply lex_le_cons. inversion Hb; subst. apply Exists_cons in He.
  destruct (decide (x = 0)) as [->|]; [right|left; lia]. split; [done|]. apply IH; [done|tauto].
Qed.

Definition entry_le (x y : list Z * Z) : Prop := lex_le x.1 y.1 = true.
#[export] Instance entry_le_dec : RelDecision entry_le.
Proof. intros x y. unfold entry_le. apply _. Defined.
#[export] Instance entry_le_trans : Transitive entry_le.
Proof. intros x y z. apply lex_le_trans. Qed.
#[export] Instance entry_le_total : Total entry_le.
Proof. intros x y. apply lex_le_total. Qed.

Definition sorted_entries (m : gmap (list Z) Z) : list (list Z * Z) :=
  merge_sort entry_le (map_to_list m).

(** The values of the first [cnt] keys from [k] on. *)
Definition scan_entries (m : gmap (list Z) Z) (k : list Z) (cnt : Z) : list Z :=
  take (Z.to_nat cnt) (map snd (filter (fun e => lex_le k e.1 = true) (sorted_entries m))).

(** Masstree with byte strings as keys, as MasstreeWrapper calls it. *)
Class StringIndexOps (T : Type) := {
  tree_insert : T -> list Z -> Z -> T;
  tree_remove : T -> list Z -> T;
  tree_scan : T -> list Z -> Z -> list Z }.

Class StringIndexLaws (T : Type) `{StringIndexOps T} := {
  entries : T -> gmap (list Z) Z;
  entries_insert t k v : entries (tree_insert t k v) = <[k := v]> (entries t);
  entries_remove t k : entries (tree_remove t k) = delete k (entries t);
  scan_law t k cnt : 0 < cnt -> tree_scan t k cnt = scan_entries (entries t) k cnt }.

#[export] Instance gmap_string_ops : StringIndexOps (gmap (list Z) Z) := {
  tree_insert m k v := <[k := v]> m;
  tree_remove m k := delete k m;
  tree_scan := scan_entries }.

#[export] Program Instance gmap_string_laws : StringIndexLaws (gmap (list Z) Z) := {|
  entries := id |}.
Solve Obligations with done.

Module Secondary.

Definition kKeySize : Z := 8.
(** kKeySize is an int. *)
Definition sizeof_kKeySize : Z := 4.
Definition kEnumDelSIndex : Z := 25.

(** enum TestType *)
Definition kEnumSRS : Z := 0.
Definition kEnumSW : Z := 1.
Definition kEnumSRP : Z := 2.

(** ** Messages: words of eight bytes behind the struct *)
Definition multiple_args_size (value_size count : Z) : Z :=
  wrap 32 (sizeof_RawKvMsg + wrap 64 (count * value_size)).

(** get_size(-1), the size of the message buffers. *)
Definition buffer_size : Z := 2 * 1024.
Definition payload_size : Z := buffer_size - sizeof_RawKvMsg.

Definition get_bytes (m : RawKvMsg) (off n : Z) : outcome (list Z) :=
  if (0 <=? off) && (0 <=? n) && (off + n <=? zlen (payload m)) then
    Done (take (Z.to_nat n) (drop (Z.to_nat off) (payload m)))
  else Fault OutOfBounds.

Definition put_bytes (m : RawKvMsg) (off : Z) (bs : list Z) : outcome RawKvMsg :=
  if (0 <=? off) && (off + zlen bs <=? zlen (payload m)) then
    Done (with_payload m (blit (payload m) (Z.to_nat off) bs))
  else Fault OutOfBounds.

(** What get_ith_key_addr points to. *)
Definition get_word (m : RawKvMsg) (id : Z) : outcome Z :=
  let! bs := get_bytes m (kKeySize * id) 8 in Done (little_endian_to_Z 8 bs).

Definition put_word (m : RawKvMsg) (id v : Z) : outcome RawKvMsg :=
  put_bytes m (kKeySize * id) (key_bytes v).

(** config() *)
Definition server_config (f : flags) : list ServerConfig :=
  [ mkServer 0 (FLAGS_dn_thread f) 0 12 0 ens2 128;
    mkServer 1 (FLAGS_mn_thread f) 1 12 0 ens2 188;
    mkServer 2 1 1 12 1 ens6 136;
    mkServer 2 (FLAGS_c_thread f) 1 12 0 ens2 180;
    mkServer 2 (FLAGS_c_thread f) 1 12 1 ens6 172 ].

Definition test_percent (f : flags) : list Z :=
  [signed 32 (FLAGS_read f); signed 32 (100 - FLAGS_read f); 0].

Definition pre_sum (f : flags) : list Z := prefix_sums 0 (test_percent f).

Fixpoint fill_test_type (sums : list Z) (indices : list Z) (cnt : Z) : outcome (list Z) :=
  match indices with
  | [] => Done []
  | i :: indices' =>
      let! c := advance 3 sums i cnt in
      let! rest := fill_test_type sums indices' c in
      Done (c :: rest)
  end.

Definition test_type (f : flags) : outcome (list Z) := fill_test_type (pre_sum f) (seqZ 0 100) 0.

(** ** index_wrapper.h: rows *)
Record ValueAndVersion := { value : Z; version : Z }.

#[export] Instance ValueAndVersion_eq_dec : EqDecision ValueAndVersion.
Proof. solve_decision. Defined.

Section nodes.
Context {M : Type -> Type} `{CuckooOps M} {T : Type} `{StringIndexOps T}.

Record ThreadLocalIndex := { table2 : M Z; table3 : M ValueAndVersion }.

(** get_instance("cuckoo128"): only the rows are reserved, every table is empty. *)
Definition new_index : ThreadLocalIndex := {| table2 := cuckoo_empty; table3 := cuckoo_empty |}.

(** The cell keeps its value when the key is not found. *)
Definition get_long (t : ThreadLocalIndex) (key cell : Z) : Z := default cell (cuckoo_find (table2 t) key).

Definition get_value_version (t : ThreadLocalIndex) (key : Z) (cell : ValueAndVersion) : ValueAndVersion :=
  default cell (cuckoo_find (table3 t) key).

Definition get_and_put_value_version (t : ThreadLocalIndex) (key : Z) (v : ValueAndVersion) : option ValueAndVersion * ThreadLocalIndex :=
  let '(old, t3) := cuckoo_new_insert (table3 t) key v in
  (old, {| table2 := table2 t; table3 := t3 |}).

(** *** index_wrapper.h and masstree_wrapper_string.h: the index *)
Definition put_vector_key (t : T) (key : list Z) (v : Z) : bool * T := (true, tree_insert t key v).

Definition remove (t : T) (key : list Z) : bool * T := (true, tree_remove t key).

(** The scanner appends to [res] until it has [cnt] elements. *)
Definition scan (t : T) (key : list Z) (res : list Z) (cnt : Z) : Z * list Z :=
  let res := res ++ tree_scan t key (cnt - zlen res) in (zlen res, res).

(** ** A thread of a node.  The tables are shared by the threads of the node. *)
Record node := mkNode {
  pindex : ThreadLocalIndex;
  sindex : T;
  del_queue : list Z;
  del_queue_cnt : Z;
  local_max_del_timestamp : Z }.

Definition kMaxDelQueue : Z := 32.

(** server_prepare: the queue is not initialised. *)
Definition del_queue_words : Z := 3 * kMaxDelQueue * 2.

Definition with_pindex (n : node) (t : ThreadLocalIndex) : node :=
  mkNode t (sindex n) (del_queue n) (del_queue_cnt n) (local_max_del_timestamp n).
Definition with_sindex (n : node) (t : T) : node :=
  mkNode (pindex n) t (del_queue n) (del_queue_cnt n) (local_max_del_timestamp n).
Definition with_del_queue (n : node) (q : list Z) (cnt : Z) : node :=
  mkNode (pindex n) (sindex n) q cnt (local_max_del_timestamp n).
Definition with_max_del (n : node) (v : Z) : node :=
  mkNode (pindex n) (sindex n) (del_queue n) (del_queue_cnt n) v.

(** [now] is what the clock returns. *)
Definition get_version (now thread_id : Z) : Z := wrap 64 (Z.shiftl now 4 + thread_id).

(** *** server_process_msg *)

(** kEnumReadLog.  [tmp_value] is not reset between the rounds. *)
Fixpoint check_pkeys (k : nat) (t : ThreadLocalIndex) (req reply : RawKvMsg) (value_check i ret_cnt : Z) (tmp_value : ValueAndVersion) : outcome (Z * RawKvMsg) :=
  match k with
  | O => Done (ret_cnt, reply)
  | S k =>
      let! pkey := get_word req (i + 2) in
      let tmp_value := get_value_version t pkey tmp_value in
      if value tmp_value =? value_check then
        let! reply := put_word reply (ret_cnt + 1) pkey in
        check_pkeys k t req reply value_check (i + 1) (ret_cnt + 1) tmp_value
      else check_pkeys k t req reply value_check (i + 1) ret_cnt tmp_value
  end.

Definition read_log (n : node) (stale_version : Z) (req reply : RawKvMsg) : outcome (RawKvMsg * node * Z) :=
  let! value_check := get_word req 0 in
  let! cnt := get_word req 1 in
  let! (ret_cnt, reply) := check_pkeys (Z.to_nat (signed 32 cnt)) (pindex n) req reply value_check 0 0
                             {| value := 0; version := stale_version |} in
  let! reply := put_word reply 0 ret_cnt in
  Done (with_op reply kEnumReadReply, n, multiple_args_size 8 (ret_cnt + 2)).

(** The old row goes to the queue of deletions. *)
Definition queue_del (n : node) (old : ValueAndVersion) (pkey : Z) : outcome node :=
  let c := del_queue_cnt n in
  let! q := store (del_queue n) (c * 3) (value old) in
  let! q := store q (c * 3 + 1) (version old) in
  let! q := store q (c * 3 + 2) pkey in
  Done (with_del_queue n q (c + 1)).

Definition append_row (n : node) (thread_id now : Z) (req reply : RawKvMsg) : outcome (RawKvMsg * node * Z) :=
  let! pkey := get_word req 0 in
  let! old := get_word reply 2 in
  let! reply := put_word reply 2 (get_long (pindex n) pkey old) in
  let! v := get_word req 1 in
  let row := {| value := v; version := get_version now thread_id |} in
  let (old, t) := get_and_put_value_version (pindex n) pkey row in
  let n := with_pindex n t in
  let! n := match old with
            | Some old => queue_del n old pkey
            | None => Done n
            end in
  let! reply := put_word reply 0 (version row) in
  Done (with_route_map (with_op reply kEnumAppendReply) (route_map req), n, multiple_args_size 8 1).

Fixpoint put_words (m : RawKvMsg) (id : Z) (vs : list Z) : outcome RawKvMsg :=
  match vs with
  | [] => Done m
  | v :: vs => let! m := put_word m id v in put_words m (id + 1) vs
  end.

Definition read_index (n : node) (req reply : RawKvMsg) : outcome (RawKvMsg * node * Z) :=
  let! skey := get_bytes req 0 8 in
  let key192 := skey ++ replicate 16 0 in
  let (cnt, res) := scan (sindex n) key192 [] 10 in
  let! reply := put_words reply 1 res in
  let! reply := put_word reply 0 cnt in
  Done (with_op reply kEnumReadIndexReply, n, multiple_args_size 8 (cnt + 1)).

(** kEnumMultiCastPkt and kEnumUpdateIndexReq: sizeof(kKeySize) * 3 bytes are
    the key. *)
Definition write_index (n : node) (req reply : RawKvMsg) (reply_op : Z) : outcome (RawKvMsg * node * Z) :=
  let! primary_key := get_word req 2 in
  let! ver := get_word req 1 in
  let! n := (if local_max_del_timestamp n <? ver then
               let! key := get_bytes req 0 (sizeof_kKeySize * 3) in
               Done (with_sindex n (put_vector_key (sindex n) key primary_key).2)
             else Done n) in
  Done (with_op reply reply_op, n, multiple_args_size 0 0).

Definition process_op (n : node) (thread_id now stale : Z) (req reply : RawKvMsg) : outcome (RawKvMsg * node * Z) :=
  let o := msg_op req in
  if o =? kEnumReadLog then read_log n stale req reply
  else if o =? kEnumAppendReq then append_row n thread_id now req reply
  else if o =? kEnumReadIndexReq then read_index n req reply
  else if o =? kEnumMultiCastPkt then write_index n req reply ReplySwitch
  else if o =? kEnumUpdateIndexReq then write_index n req reply kEnumUpdateIndexReply
  else Fault ProcessExit.

(** The assignments before the switch and after it. *)
Definition reply_prologue (req reply : RawKvMsg) : RawKvMsg :=
  let h := rpc_header req in
  mkMsg (mkHeader (src_s_id h) (src_s_id h) (src_t_id h) (src_c_id h) (local_id h) (op h)
           (KvMessage.payload_size h))
    (flag reply) (switch_key reply) (kv_g_id reply) (kv_c_id reply) (magic reply)
    (server_map reply) (qp_map reply) (coro_id reply) (key req) (log_id reply)
    (route_port reply) (route_map reply) (client_port reply) 0 (index_port req)
    (magic_in_switch reply) (timestamp reply) (payload reply).

Definition reply_epilogue (req reply : RawKvMsg) (port : Z) : RawKvMsg :=
  mkMsg (rpc_header reply) (flag req) (switch_key req) (kv_g_id req) (kv_c_id req) (magic req)
    0 0 (coro_id req) (key reply) (log_id reply) (toBigEndian16 port) (route_map reply)
    (client_port req) (send_cnt reply) (index_port reply) (magic_in_switch req)
    (timestamp reply) (payload reply).

Definition server_process_msg (f : flags) (n : node) (thread_id now stale : Z) (req reply : RawKvMsg) : outcome (RawKvMsg * node * Z) :=
  let! (r, n, size) := process_op n thread_id now stale req (reply_prologue req reply) in
  let! conf := of_option OutOfBounds (zget (server_config f) (src_s_id (rpc_header req))) in
  Done (reply_epilogue req r (port_id conf), n, size).

(** *** Deletions *)

(** The message of send_sindex_del; [m] is the send buffer.  It goes to index
    thread [thread_id % FLAGS_mn_thread]. *)
Definition send_sindex_del (n : node) (server_id thread_id : Z) (m : RawKvMsg) : outcome (RawKvMsg * Z) :=
  let cnt := del_queue_cnt n in
  let m := with_rpc_header m (mkHeader get_index_server_id server_id thread_id 0 0 kEnumDelSIndex 0) in
  let m := mkMsg (rpc_header m) 0 (wrap 16 cnt) (kv_g_id m) (kv_c_id m) (magic m) (server_map m)
             (qp_map m) (coro_id m) (key m) (log_id m) (route_port m) (route_map m)
             (client_port m) (send_cnt m) (index_port m) (magic_in_switch m) (timestamp m)
             (payload m) in
  if (0 <=? cnt) && (3 * cnt <=? zlen (del_queue n)) then
    let! m := put_bytes m 0 (concat (map key_bytes (take (Z.to_nat (3 * cnt)) (del_queue n)))) in
    Done (m, multiple_args_size (8 * 3) cnt)
  else Fault OutOfBounds.

Fixpoint del_each (k : nat) (n : node) (req : RawKvMsg) (i : Z) : outcome node :=
  match k with
  | O => Done n
  | S k =>
      let! ver := get_word req (i * 3 + 1) in
      let n := with_max_del n (Z.max (local_max_del_timestamp n) ver) in
      let! key := get_bytes req (kKeySize * (i * 3)) (3 * 8) in
      del_each k (with_sindex n (remove (sindex n) key).2) req (i + 1)
  end.

Definition process_sindex_del (n : node) (req : RawKvMsg) : outcome node :=
  del_each (Z.to_nat (switch_key req)) n req 0.
End nodes.

#[global] Arguments ThreadLocalIndex : clear implicits.
#[global] Arguments node : clear implicits.
#[global] Arguments get_bytes : simpl never.
#[global] Arguments put_bytes : simpl never.
#[global] Arguments multiple_args_size : simpl never.

(** ** Words of a message *)
Definition bytes (bs : list Z) : Prop := Forall (in_width 8) bs.

Definition word (m : RawKvMsg) (i : Z) : Z :=
  little_endian_to_Z 8 (take 8 (drop (Z.to_nat (kKeySize * i)) (payload m))).

Fixpoint words (m : RawKvMsg) (i : Z) (k : nat) : list Z :=
  match k with
  | O => []
  | S k => word m i :: words m (i + 1) k
  end.

(** [k] words from the start are inside the buffer. *)
Definition room (m : RawKvMsg) (k : Z) : Prop := kKeySize * k <= zlen (payload m).

Ltac room_lia := unfold room, kKeySize, sizeof_kKeySize in *; lia.

Record edited (m m' : RawKvMsg) : Prop := {
  ed_fields : m' = with_payload m (payload m');
  ed_len : zlen (payload m') = zlen (payload m);
  ed_bytes : bytes (payload m) -> bytes (payload m') }.

Lemma edited_refl m : edited m m.
Proof. split; [by destruct m|done|done]. Qed.

Lemma edited_trans m1 m2 m3 : edited m1 m2 -> edited m2 m3 -> edited m1 m3.
Proof.
  intros [F1 L1 B1] [F2 L2 B2]. split; [by rewrite F2, F1|congruence|auto].
Qed.

Lemma room_edited m m' k : edited m m' -> room m k -> room m' k.
Proof. intros []. unfold room. lia. Qed.

Lemma bytes_key v : bytes (key_bytes v).
Proof. apply Z_to_little_endian_bound; lia. Qed.

Lemma word_width m i : bytes (payload m) -> in_width 64 (word m i).
Proof.
  intros Hb. unfold word.
  pose proof (little_endian_to_Z_bound 8 (take 8 (drop (Z.to_nat (kKeySize * i)) (payload m))) ltac:(lia)) as B.
  unfold in_width. destruct B as [B1 B2]; [by apply Forall_take, Forall_drop|]. split; [done|].
  eapply Z.lt_le_trans; [exact B2|]. apply Z.pow_le_mono_r; [lia|]. rewrite length_take. lia.
Qed.

Lemma length_words m i k : length (words m i k) = k.
Proof. revert i. induction k; intros i; simpl; auto. Qed.

Lemma words_lookup m i k j v :
  words m i k !! j = Some v -> v = word m (i + Z.of_nat j) /\ (j < k)%nat.
Proof.
  revert i j. induction k as [|k IH]; intros i [|j] E; simplify_eq/=.
  - split; [f_equal; lia|lia].
  - apply IH in E as [-> ?]. split; [f_equal; lia|lia].
Qed.

Lemma words_ext m m' i k :
  (forall j, i <= j < i + Z.of_nat k -> word m' j = word m j) -> words m' i k = words m i k.
Proof.
  revert i. induction k as [|k IH]; intros i E; [done|]. simpl. rewrite E by lia. f_equal.
  apply IH. intros. apply E. lia.
Qed.

Lemma words_width m i k : bytes (payload m) -> Forall (in_width 64) (words m i k).
Proof. intros Hb. revert i. induction k; intros i; constructor; auto. by apply word_width. Qed.

Lemma get_bytes_done m off n :
  0 <= off -> 0 <= n -> off + n <= zlen (payload m) ->
  get_bytes m off n = Done (take (Z.to_nat n) (drop (Z.to_nat off) (payload m))).
Proof.
  intros. unfold get_bytes. rewrite !(proj2 (Z.leb_le _ _)) by lia. done.
Qed.

Lemma put_bytes_done m off bs : 0 <= off -> off + zlen bs <= zlen (payload m) ->
  put_bytes m off bs = Done (with_payload m (blit (payload m) (Z.to_nat off) bs)).
Proof. intros. unfold put_bytes. by rewrite !(proj2 (Z.leb_le _ _)) by lia. Qed.

Lemma get_word_done m i : 0 <= i -> room m (i + 1) -> get_word m i = Done (word m i).
Proof.
  unfold room, get_word. intros. rewrite get_bytes_done by (room_lia). done.
Qed.

Lemma put_bytes_spec m off bs :
  0 <= off -> off + zlen bs <= zlen (payload m) -> bytes bs ->
  exists m', put_bytes m off bs = Done m' /\ edited m m' /\
    payload m' = blit (payload m) (Z.to_nat off) bs.
Proof.
  intros H1 H2 Hb. rewrite put_bytes_done by done.
  eexists. split; [done|]. split; [|done]. split; [done| |]; simpl.
  - unfold zlen in *. by rewrite blit_length by lia.
  - intros Hp. unfold blit. apply Forall_app_2; [by apply Forall_take|].
    apply Forall_app_2; [done|by apply Forall_drop].
Qed.

(** Writing any value in range. *)
Lemma put_word_any m i v :
  0 <= i -> room m (i + 1) ->
  exists m', put_word m i v = Done m' /\ edited m m' /\ (in_width 64 v -> word m' i = v) /\
    forall j, 0 <= j -> j <> i -> word m' j = word m j.
Proof.
  unfold put_word. intros Hi Hr. pose proof (length_key_bytes v) as Hl.
  assert (zlen (key_bytes v) = 8) by (unfold zlen; lia).
  destruct (put_bytes_spec m (kKeySize * i) (key_bytes v)) as (m' & -> & Hed & Ep);
    [room_lia|room_lia|apply bytes_key|].
  exists m'. split; [done|]. split; [done|]. unfold word. rewrite Ep.
  unfold room, zlen, kKeySize in *. split.
  - intros Hv. rewrite <- Hl at 1. rewrite blit_slice_eq by lia. by apply key_bytes_value.
  - intros j Hj Hne. by rewrite blit_slice_ne by lia.
Qed.

Lemma put_word_spec m i v :
  0 <= i -> room m (i + 1) -> in_width 64 v ->
  exists m', put_word m i v = Done m' /\ edited m m' /\ word m' i = v /\
    forall j, 0 <= j -> j <> i -> word m' j = word m j.
Proof.
  intros Hi Hr Hv. destruct (put_word_any m i v Hi Hr) as (m' & E & Ed & W & N).
  exists m'. auto.
Qed.

Lemma put_words_spec m id vs :
  0 <= id -> room m (id + zlen vs) -> Forall (in_width 64) vs ->
  exists m', put_words m id vs = Done m' /\ edited m m' /\ words m' id (length vs) = vs /\
    forall j, 0 <= j < id -> word m' j = word m j.
Proof.
  revert m id. induction vs as [|v vs IH]; intros m id Hi Hr Hv; simpl.
  { exists m. split; [done|]. split; [apply edited_refl|done]. }
  rewrite zlen_cons in Hr. inversion Hv; subst. pose proof (zlen_nonneg vs).
  destruct (put_word_spec m id v) as (m1 & -> & E1 & W1 & N1); [done|room_lia|done|].
  simpl. destruct (IH m1 (id + 1)) as (m2 & -> & E2 & W2 & N2);
    [lia|eapply room_edited; [done|]; room_lia|done|].
  exists m2. split; [done|]. split; [by eapply edited_trans|]. split.
  - rewrite N2 by lia. by rewrite W1, W2.
  - intros j Hj. rewrite N2, N1 by lia. done.
Qed.

(** A message on the wire: its first [size] bytes land in the buffer of the
    receiver, which keeps its other bytes. *)
Definition deliver (size : Z) (m : RawKvMsg) (stale : list Z) : RawKvMsg :=
  let n := Z.to_nat (size - sizeof_RawKvMsg) in
  with_payload m (take n (payload m) ++ drop n stale).

Lemma length_deliver size m stale :
  zlen stale = zlen (payload m) -> zlen (payload (deliver size m stale)) = zlen (payload m).
Proof. unfold zlen, deliver. simpl. intros. rewrite length_app, length_take, length_drop. lia. Qed.

Lemma bytes_deliver size m stale :
  bytes (payload m) -> bytes stale -> bytes (payload (deliver size m stale)).
Proof. intros. apply Forall_app_2; [by apply Forall_take|by apply Forall_drop]. Qed.

Lemma word_deliver size m stale i :
  zlen stale = zlen (payload m) -> 0 <= i -> sizeof_RawKvMsg + kKeySize * (i + 1) <= size -> room m (i + 1) ->
  word (deliver size m stale) i = word m i.
Proof.
  intros Hs Hi Hsz Hr. unfold word, deliver, room, kKeySize, zlen in *. cbn [payload with_payload]. f_equal.
  set (n := Z.to_nat (size - sizeof_RawKvMsg)). assert (8 * (i + 1) <= Z.of_nat n) by lia.
  rewrite drop_app. rewrite take_app_le by (rewrite length_drop, length_take; lia).
  rewrite skipn_firstn_comm, take_take. f_equal. lia.
Qed.

Lemma words_deliver size m stale i k :
  zlen stale = zlen (payload m) -> 0 <= i -> sizeof_RawKvMsg + kKeySize * (i + Z.of_nat k) <= size ->
  room m (i + Z.of_nat k) -> words (deliver size m stale) i k = words m i k.
Proof.
  intros Hs Hi Hsz Hr. apply words_ext. intros j Hj. apply word_deliver; [done|lia|room_lia..].
Qed.

Lemma args_size v c :
  0 <= c * v < 2 ^ 31 -> multiple_args_size v c = sizeof_RawKvMsg + c * v.
Proof.
  intros Hc. unfold multiple_args_size. rewrite (wrap_small 64) by (unfold in_width; lia).
  apply wrap_small. unfold in_width, sizeof_RawKvMsg, sizeof_RpcHeader. simpl. lia.
Qed.

(** A message buffer of the nodes and clients. *)
Record buffer (m : RawKvMsg) : Prop := {
  buf_bytes : bytes (payload m);
  buf_len : zlen (payload m) = payload_size }.

Lemma buffer_room m k : buffer m -> k <= 248 -> room m k.
Proof.
  intros [_ Hl] Hk. unfold room. rewrite Hl. unfold kKeySize.
  assert (payload_size = 1991) as -> by reflexivity. lia.
Qed.

Lemma buffer_edited m m' : edited m m' -> buffer m -> buffer m'.
Proof. intros [_ L B] [Hb Hl]. split; [auto|congruence]. Qed.

Lemma buffer_deliver size m stale : buffer m -> buffer (with_payload m stale) -> buffer (deliver size m stale).
Proof.
  intros [B1 L1] [B2 L2]. simpl in *. split; [by apply bytes_deliver|]. rewrite length_deliver; congruence.
Qed.

#[global] Arguments get_word : simpl never.
#[global] Arguments put_word : simpl never.

End Secondary.
