(* ===== verification/SecondaryNodeModel.v ===== *)
(** * What the nodes of the secondary index answer

    Module [SecondaryNode]: the handlers of [Secondary] one by one.  Reads of rows
    keep the primary keys whose row has the value, reads of the index find the
    entries of a value while there are at most ten of them, and deletions have no
    effect on the index because they use longer keys than insertions. *)

From stdpp Require Import sorting.
From S2P Require Import Prelude KvMessageModel SecondaryModel.
Import KvMessage.

Module SecondaryNode.
Import Secondary.

Section laws.
Context {M : Type -> Type} `{CM : CuckooLaws M} {T : Type} `{ST : StringIndexLaws T}.
Notation node := (node M T).
Implicit Types (n : node) (t : ThreadLocalIndex M).

Definition row t (k : Z) : option ValueAndVersion := cuckoo_find (table3 t) k.

(** ** Reading rows *)

(** The keys kEnumReadLog answers with: a key without a row is compared with the
    last row found before it. *)
Fixpoint kept t (v : Z) (tmp : ValueAndVersion) (pks : list Z) : list Z :=
  match pks with
  | [] => []
  | p :: pks =>
      let tmp := get_value_version t p tmp in
      if value tmp =? v then p :: kept t v tmp pks else kept t v tmp pks
  end.

Definition has_value t (v p : Z) : Prop := value <$> row t p = Some v.
#[export] Instance has_value_dec t v p : Decision (has_value t v p).
Proof. unfold has_value. apply _. Defined.

Lemma kept_present t v tmp pks :
  Forall (fun p => is_Some (row t p)) pks -> kept t v tmp pks = filter (has_value t v) pks.
Proof.
  intros Hp. revert tmp. induction Hp as [|p pks [r Hr] _ IH]; intros tmp; [done|]. simpl.
  unfold get_value_version. fold (row t p). rewrite Hr. simpl. rewrite !IH.
  destruct (Z.eqb_spec (value r) v) as [E|E].
  - rewrite filter_cons_True; [done|]. unfold has_value. by rewrite Hr, <- E.
  - rewrite filter_cons_False; [done|]. unfold has_value. rewrite Hr. simpl. congruence.
Qed.

Lemma length_kept t v tmp pks : (length (kept t v tmp pks) <= length pks)%nat.
Proof.
  revert tmp. induction pks as [|p pks IH]; intros tmp; simpl; [done|].
  destruct (_ =? _); simpl; specialize (IH (get_value_version t p tmp)); lia.
Qed.

Lemma check_pkeys_ok k t req reply v : forall i ret tmp,
  0 <= i -> 0 <= ret -> room req (i + 2 + Z.of_nat k) -> room reply (ret + 1 + Z.of_nat k) ->
  bytes (payload req) ->
  let ks := kept t v tmp (words req (i + 2) k) in
  exists r, check_pkeys k t req reply v i ret tmp = Done (ret + zlen ks, r) /\ edited reply r /\
    words r (ret + 1) (length ks) = ks /\ forall j, 0 <= j <= ret -> word r j = word reply j.
Proof.
  revert reply. induction k as [|k IH]; intros reply i ret tmp Hi Hret Hreq Hrep Hb; cbn [check_pkeys words kept length zlen].
  { exists reply. replace (ret + zlen (A := Z) []) with ret by (unfold zlen; simpl; lia).
    split; [done|]. split; [apply edited_refl|done]. }
  rewrite get_word_done by (room_lia). cbn [obind].
  set (p := word req (i + 2)). set (tmp' := get_value_version t p tmp).
  replace (i + 2 + 1) with (i + 1 + 2) by lia.
  destruct (Z.eqb_spec (value tmp') v) as [E|E].
  - destruct (put_word_spec reply (ret + 1) p) as (r1 & -> & E1 & W1 & N1);
      [lia|room_lia|by apply word_width|]. cbn [obind].
    destruct (IH r1 (i + 1) (ret + 1) tmp') as (r & -> & E2 & W2 & N2);
      [lia|lia|room_lia|eapply room_edited; [done|]; room_lia|done|].
    exists r. rewrite zlen_cons. split; [do 2 f_equal; lia|]. split; [by eapply edited_trans|]. split.
    + simpl. by rewrite N2, W1, W2 by lia.
    + intros j Hj. rewrite N2, N1 by lia. done.
  - apply (IH reply (i + 1) ret tmp'); [lia|lia|room_lia..|done].
Qed.


(** The pkeys of a request for rows. *)
Definition req_pkeys (req : RawKvMsg) : list Z := words req 2 (Z.to_nat (word req 1)).

Lemma read_log_ok n sv req reply :
  let cnt := word req 1 in
  let ks := kept (pindex n) (word req 0) {| value := 0; version := sv |} (req_pkeys req) in
  bytes (payload req) -> cnt < 2 ^ 31 -> room req (cnt + 2) -> room reply (cnt + 1) ->
  exists r, read_log n sv req reply =
      Done (with_op r kEnumReadReply, n, multiple_args_size 8 (zlen ks + 2)) /\
    edited reply r /\ word r 0 = zlen ks /\ words r 1 (length ks) = ks.
Proof.
  intros cnt ks Hb Hc Hreq Hrep. pose proof (word_width req 1 Hb) as [Hc0 _]. fold cnt in Hc0.
  unfold read_log. rewrite !get_word_done by (room_lia). cbn [obind]. fold cnt.
  rewrite signed_small by lia.
  destruct (check_pkeys_ok (Z.to_nat cnt) (pindex n) req reply (word req 0) 0 0
    {| value := 0; version := sv |}) as (r1 & -> & E1 & W1 & N1);
    [lia|lia|room_lia..|done|].
  change (kept _ _ _ (words req (0 + 2) (Z.to_nat cnt))) with ks in W1 |- *.
  assert (Hk : (length ks <= Z.to_nat cnt)%nat).
  { unfold ks. etrans; [apply length_kept|]. unfold req_pkeys. by rewrite length_words. }
  cbn [obind].
  destruct (put_word_spec r1 0 (0 + zlen ks)) as (r & -> & E2 & W2 & N2);
    [lia|eapply room_edited; [done|]; room_lia|unfold in_width, zlen; lia|].
  exists r. cbn [obind]. rewrite Z.add_0_l in *. split; [done|]. split; [by eapply edited_trans|]. split; [done|].
  etrans; [apply words_ext|exact W1]. intros j Hj. apply N2; lia.
Qed.

(** ** Reading the index *)

(** The entries of a table of the index: keys of twelve bytes. *)
Definition index_ok (m : gmap (list Z) Z) : Prop :=
  map_Forall (fun k v => length k = 12%nat /\ bytes k /\ in_width 64 v) m.

(** Whether an entry belongs to the value [s]. *)
Definition of_value (s : list Z) (e : list Z * Z) : Prop := take 8 e.1 = s.

#[export] Instance of_value_dec s e : Decision (of_value s e).
Proof. unfold of_value. apply _. Defined.

Definition value_entries (m : gmap (list Z) Z) (s : list Z) : list (list Z * Z) :=
  filter (of_value s) (map_to_list m).

Lemma sublist_kept {A} (P : A -> Prop) `{forall x, Decision (P x)} l l' :
  l `sublist_of` l' -> Forall P l -> l `sublist_of` filter P l'.
Proof.
  induction 1 as [|x l l' _ IH|x l l' _ IH]; intros HP; [constructor| |].
  - inversion HP; subst. rewrite filter_cons_True by done. constructor. auto.
  - rewrite filter_cons. case_decide; [constructor|]; auto.
Qed.

Lemma sublist_sorted {A} (R : relation A) l l' :
  l `sublist_of` l' -> StronglySorted R l' -> StronglySorted R l.
Proof.
  induction 1 as [|x l l' Hl IH|x l l' _ IH]; intros HR; [done| |];
    apply StronglySorted_cons in HR as [Hx HR]; [|auto].
  apply StronglySorted_cons. split; [|auto]. rewrite Forall_forall in Hx |- *.
  intros y Hy. apply Hx. by eapply sublist_subseteq.
Qed.

Lemma sorted_entries_perm m : sorted_entries m ≡ₚ map_to_list m.
Proof. apply merge_sort_Permutation. Qed.

Lemma elem_of_sorted_entries m k v : (k, v) ∈ sorted_entries m <-> m !! k = Some v.
Proof. by rewrite sorted_entries_perm, elem_of_map_to_list. Qed.

(** In a sorted list, what comes before an entry of the value and not before [k]
    is of the value too. *)
Lemma scan_prefix s k m l1 e l2 :
  take 8 k = s -> of_value s e ->
  filter (fun e => lex_le k e.1 = true) (sorted_entries m) = l1 ++ e :: l2 ->
  Forall (of_value s) l1.
Proof.
  intros Hk He E. rewrite Forall_forall. intros x Hx.
  assert (Hf : x ∈ filter (fun e => lex_le k e.1 = true) (sorted_entries m)) by (rewrite E; set_solver).
  apply list_elem_of_filter in Hf as [Hlo _].
  assert (Hs : StronglySorted entry_le (l1 ++ e :: l2)).
  { rewrite <- E. eapply sublist_sorted; [apply sublist_filter|]. apply StronglySorted_merge_sort; apply _. }
  assert (Hhi : entry_le x e) by (eapply StronglySorted_app_1_elem_of; [exact Hs|done|set_solver]).
  unfold of_value, entry_le in *. rewrite <- Hk.
  eapply lex_between; [|exact Hlo|exact Hhi]. by rewrite He.
Qed.

Lemma scan_finds s k m e c :
  take 8 k = s -> of_value s e -> e ∈ sorted_entries m -> lex_le k e.1 = true ->
  (length (value_entries m s) <= c)%nat ->
  e ∈ take c (filter (fun e => lex_le k e.1 = true) (sorted_entries m)).
Proof.
  intros Hk He Hin Hlo Hn.
  assert (Hf : e ∈ filter (fun e => lex_le k e.1 = true) (sorted_entries m)) by (by apply list_elem_of_filter).
  apply list_elem_of_split in Hf as (l1 & l2 & E). pose proof (scan_prefix s k m l1 e l2 Hk He E) as Hp.
  rewrite E. rewrite cons_middle, app_assoc.
  assert (Hl : (length (l1 ++ [e]) <= c)%nat).
  { etrans; [|exact Hn]. unfold value_entries. rewrite <- (sorted_entries_perm m).
    apply sublist_length, sublist_kept.
    - etrans; [|apply (sublist_filter (fun e => lex_le k e.1 = true))].
      rewrite E, (cons_middle e l1 l2), app_assoc. by apply sublist_inserts_r.
    - apply Forall_app. split; [done|]. by constructor. }
  rewrite take_app_ge by lia. set_solver.
Qed.

Lemma scan_entries_values m k c :
  index_ok m -> Forall (fun v => in_width 64 v /\ exists k', m !! k' = Some v) (scan_entries m k c).
Proof.
  intros Hm. unfold scan_entries. apply Forall_take. rewrite Forall_forall. intros v Hv.
  apply list_elem_of_fmap in Hv as ([k' v'] & -> & Hv). apply list_elem_of_filter in Hv as [_ Hv].
  apply elem_of_sorted_entries in Hv. split; [|by exists k']. by apply (Hm _ _ Hv).
Qed.

Lemma scan_entries_length m k c : 0 <= c -> zlen (scan_entries m k c) <= c.
Proof. intros. unfold scan_entries, zlen. rewrite length_take. lia. Qed.

Lemma payload_key m i :
  bytes (payload m) -> 0 <= i -> room m (i + 1) ->
  take 8 (drop (Z.to_nat (kKeySize * i)) (payload m)) = key_bytes (word m i).
Proof.
  intros Hb Hi Hr. unfold key_bytes, word. symmetry. apply Z_to_little_endian_to_Z; [|lia|].
  - rewrite length_take, length_drop. unfold zlen in *. unfold room, kKeySize, zlen in *. lia.
  - by apply Forall_take, Forall_drop.
Qed.

Lemma read_index_ok n req reply :
  index_ok (entries (sindex n)) -> bytes (payload req) -> room req 1 -> room reply 11 ->
  let res := scan_entries (entries (sindex n)) (key_bytes (word req 0) ++ replicate 16 0) 10 in
  exists r, read_index n req reply =
      Done (with_op r kEnumReadIndexReply, n, multiple_args_size 8 (zlen res + 1)) /\
    edited reply r /\ word r 0 = zlen res /\ words r 1 (length res) = res.
Proof.
  intros Hm Hb Hreq Hrep res. unfold read_index, scan. rewrite get_bytes_done by room_lia. cbn [obind].
  change (Z.to_nat 0) with (Z.to_nat (kKeySize * 0)). change (Z.to_nat 8) with 8%nat.
  rewrite payload_key by (done || room_lia). change (zlen []) with 0. rewrite Z.sub_0_r, scan_law by lia.
  rewrite app_nil_l. fold res.
  assert (Hl : zlen res <= 10) by (apply scan_entries_length; lia). pose proof (zlen_nonneg res).
  assert (Hw : Forall (in_width 64) res).
  { eapply Forall_impl; [by apply scan_entries_values|]. by intros ? []. }
  destruct (put_words_spec reply 1 res) as (r1 & -> & E1 & W1 & N1); [lia|room_lia|done|]. cbn [obind].
  destruct (put_word_spec r1 0 (zlen res)) as (r & -> & E2 & W2 & N2);
    [lia|eapply room_edited; [done|]; room_lia|unfold in_width; lia|]. cbn [obind].
  exists r. split; [done|]. split; [by eapply edited_trans|]. split; [done|].
  etrans; [apply words_ext|exact W1]. intros j Hj. apply N2; lia.
Qed.

(** ** Writing the index *)

(** The key of an entry: the value and the lower half of the version. *)
Definition entry_key (s ver : Z) : list Z := key_bytes s ++ Z_to_little_endian 4 8 ver.

Lemma take_key_bytes v : take 4 (key_bytes v) = Z_to_little_endian 4 8 v.
Proof. reflexivity. Qed.

Lemma length_entry_key s ver : length (entry_key s ver) = 12%nat.
Proof. unfold entry_key. by rewrite length_app, length_key_bytes. Qed.

Lemma bytes_entry_key s ver : bytes (entry_key s ver).
Proof. apply Forall_app_2; [apply bytes_key|]. apply Z_to_little_endian_bound; lia. Qed.

Lemma take_entry_key s ver : take 8 (entry_key s ver) = key_bytes s.
Proof. unfold entry_key. rewrite take_app_length'; [done|]. by rewrite length_key_bytes. Qed.

(** Two versions have the same key when their lower halves agree. *)
Lemma entry_key_version s v v' :
  entry_key s v = entry_key s v' <-> v mod 2 ^ 32 = v' mod 2 ^ 32.
Proof.
  unfold entry_key. split.
  - intros E%app_inv_head. apply (f_equal (little_endian_to_Z 8)) in E.
    by rewrite !little_endian_to_Z_to_little_endian in E by lia.
  - intros E. f_equal.
    rewrite <- (Z_to_little_endian_to_Z 4 8 (Z_to_little_endian 4 8 v)),
            <- (Z_to_little_endian_to_Z 4 8 (Z_to_little_endian 4 8 v'));
      try (symmetry; apply length_Z_to_little_endian); try apply Z_to_little_endian_bound; try lia.
    rewrite !little_endian_to_Z_to_little_endian by lia. f_equal. exact E.
Qed.

Lemma payload_entry_key m :
  bytes (payload m) -> room m 2 -> take 12 (payload m) = entry_key (word m 0) (word m 1).
Proof.
  intros Hb Hr. unfold entry_key. rewrite <- take_key_bytes, <- !payload_key by (done || room_lia).
  change (Z.to_nat (kKeySize * 0)) with 0%nat. change (Z.to_nat (kKeySize * 1)) with 8%nat.
  rewrite drop_0, take_take. change (4 `min` 8)%nat with 4%nat.
  rewrite <- (take_drop 8 (take 12 (payload m))), take_take, skipn_firstn_comm. done.
Qed.

Lemma index_ok_insert m s ver pk :
  index_ok m -> in_width 64 pk -> index_ok (<[entry_key s ver := pk]> m).
Proof.
  intros Hm Hp. apply map_Forall_insert_2; [|done].
  split; [apply length_entry_key|]. split; [apply bytes_entry_key|done].
Qed.

Lemma write_index_ok n req reply o :
  index_ok (entries (sindex n)) -> bytes (payload req) -> room req 3 ->
  exists n', write_index n req reply o = Done (with_op reply o, n', multiple_args_size 0 0) /\
    pindex n' = pindex n /\ del_queue n' = del_queue n /\ del_queue_cnt n' = del_queue_cnt n /\
    local_max_del_timestamp n' = local_max_del_timestamp n /\
    entries (sindex n') = (if local_max_del_timestamp n <? word req 1
                           then <[entry_key (word req 0) (word req 1) := word req 2]> (entries (sindex n))
                           else entries (sindex n)) /\
    index_ok (entries (sindex n')).
Proof.
  intros Hm Hb Hr. unfold write_index. rewrite !get_word_done by room_lia. cbn [obind].
  destruct (local_max_del_timestamp n <? word req 1) eqn:E.
  - rewrite get_bytes_done by room_lia. cbn [obind]. change (Z.to_nat 0) with 0%nat.
    change (Z.to_nat (sizeof_kKeySize * 3)) with 12%nat. rewrite drop_0, payload_entry_key by (done || room_lia).
    eexists. split; [reflexivity|]. simpl. rewrite entries_insert. do 5 (split; [done|]).
    apply index_ok_insert; [done|]. by apply word_width.
  - exists n. done.
Qed.

(** ** Deletions *)

(** The versions in a message of deletions. *)
Definition del_versions (req : RawKvMsg) (i : Z) (k : nat) : list Z :=
  map (fun j => word req (j * 3 + 1)) (seqZ i (Z.of_nat k)).

Lemma del_each_ok k req : forall n i,
  index_ok (entries (sindex n)) -> 0 <= i -> room req ((i + Z.of_nat k) * 3) ->
  exists n', del_each k n req i = Done n' /\
    pindex n' = pindex n /\ del_queue n' = del_queue n /\ del_queue_cnt n' = del_queue_cnt n /\
    entries (sindex n') = entries (sindex n) /\
    local_max_del_timestamp n' = foldl Z.max (local_max_del_timestamp n) (del_versions req i k).
Proof.
  induction k as [|k IH]; intros n i Hm Hi Hr; cbn [del_each]; [by exists n|].
  rewrite get_word_done by room_lia. cbn [obind]. rewrite get_bytes_done by room_lia. cbn [obind].
  set (key := take _ _).
  assert (Hk : entries (tree_remove (sindex n) key) = entries (sindex n)).
  { rewrite entries_remove. apply delete_id. destruct (entries (sindex n) !! key) as [v|] eqn:E; [|done].
    apply Hm in E as [E _]. exfalso. revert E. unfold key. rewrite length_take, length_drop.
    unfold room, kKeySize, zlen in *. lia. }
  set (n1 := with_max_del n (Z.max (local_max_del_timestamp n) (word req (i * 3 + 1)))).
  edestruct (IH (with_sindex n1 (remove (sindex n1) key).2) (i + 1)) as (n' & -> & P & Q & C & S & V);
    [simpl; by rewrite Hk|lia|room_lia|].
  exists n'. simpl in *. rewrite Hk in S. do 5 (split; [done|]).
  rewrite V. unfold del_versions. rewrite (seqZ_cons i) by lia. simpl. do 3 f_equal; lia.
Qed.

(** ** Writing rows *)

(** The queue of deletions as far as it is filled: three words per row. *)
Definition del_words n : list Z := take (Z.to_nat (del_queue_cnt n * 3)) (del_queue n).

Definition del_triple (old : ValueAndVersion) (pkey : Z) : list Z := [value old; version old; pkey].

Lemma queue_del_ok n old pkey :
  0 <= del_queue_cnt n -> (del_queue_cnt n + 1) * 3 <= zlen (del_queue n) ->
  exists n', queue_del n old pkey = Done n' /\ pindex n' = pindex n /\ sindex n' = sindex n /\
    local_max_del_timestamp n' = local_max_del_timestamp n /\
    zlen (del_queue n') = zlen (del_queue n) /\ del_queue_cnt n' = del_queue_cnt n + 1 /\
    del_words n' = del_words n ++ del_triple old pkey.
Proof.
  intros Hc Hr. unfold queue_del.
  rewrite !store_in_range by (rewrite ?zlen_zset; lia). cbn [obind].
  rewrite store_in_range by (rewrite !zlen_zset; lia). cbn [obind].
  rewrite store_in_range by (rewrite !zlen_zset; lia). cbn [obind].
  eexists. split; [reflexivity|]. simpl. do 3 (split; [done|]). split; [by rewrite !zlen_zset|].
  split; [done|]. unfold del_words, del_triple; simpl.
  replace ((del_queue_cnt n + 1) * 3) with (del_queue_cnt n * 3 + 1 + 1 + 1) by lia.
  replace (del_queue_cnt n * 3 + 2) with (del_queue_cnt n * 3 + 1 + 1) by lia.
  rewrite !take_zset_snoc by (rewrite ?zlen_zset; lia). by rewrite <- !app_assoc.
Qed.

Definition new_row (req : RawKvMsg) (thread_id now : Z) : ValueAndVersion :=
  {| value := word req 1; version := get_version now thread_id |}.

Lemma replaced_row t k v : (get_and_put_value_version t k v).1 = row t k.
Proof.
  unfold get_and_put_value_version, row. pose proof (new_insert_old (table3 t) k v) as E.
  by destruct (cuckoo_new_insert _ _ _).
Qed.

Lemma row_put t k v k' :
  row (get_and_put_value_version t k v).2 k' = if decide (k' = k) then Some v else row t k'.
Proof.
  unfold get_and_put_value_version, row. pose proof (find_new_insert (table3 t) k v k') as E.
  by destruct (cuckoo_new_insert _ _ _).
Qed.

Lemma append_row_ok n thread_id now req reply :
  bytes (payload req) -> room req 2 -> room reply 3 -> 0 <= del_queue_cnt n ->
  (del_queue_cnt n + 1) * 3 <= zlen (del_queue n) ->
  let pkey := word req 0 in
  exists r n', append_row n thread_id now req reply =
      Done (with_route_map (with_op r kEnumAppendReply) (route_map req), n', multiple_args_size 8 1) /\
    edited reply r /\ word r 0 = get_version now thread_id /\
    sindex n' = sindex n /\ local_max_del_timestamp n' = local_max_del_timestamp n /\
    pindex n' = (get_and_put_value_version (pindex n) pkey (new_row req thread_id now)).2 /\
    zlen (del_queue n') = zlen (del_queue n) /\
    match row (pindex n) pkey with
    | Some old => del_queue_cnt n' = del_queue_cnt n + 1 /\ del_words n' = del_words n ++ del_triple old pkey
    | None => del_queue_cnt n' = del_queue_cnt n /\ del_words n' = del_words n
    end.
Proof.
  intros Hb Hreq Hrep Hc Hq pkey. unfold append_row. rewrite !get_word_done by room_lia. cbn [obind]. fold pkey.
  destruct (put_word_any reply 2 (get_long (pindex n) pkey (word reply 2))) as (r1 & -> & E1 & _ & _); [lia|done|].
  cbn [obind]. fold (new_row req thread_id now).
  pose proof (replaced_row (pindex n) pkey (new_row req thread_id now)) as Hold.
  destruct (get_and_put_value_version _ _ _) as [old t]. cbn [fst] in Hold. subst old. cbn beta iota zeta. cbn [snd].
  set (n1 := with_pindex n t).
  assert (Hn : exists n', match row (pindex n) pkey with Some old => queue_del n1 old pkey | None => Done n1 end = Done n' /\
    pindex n' = pindex n1 /\ sindex n' = sindex n /\ local_max_del_timestamp n' = local_max_del_timestamp n /\
    zlen (del_queue n') = zlen (del_queue n) /\
    match row (pindex n) pkey with
    | Some old => del_queue_cnt n' = del_queue_cnt n + 1 /\ del_words n' = del_words n ++ del_triple old pkey
    | None => del_queue_cnt n' = del_queue_cnt n /\ del_words n' = del_words n
    end).
  { destruct (row (pindex n) pkey) as [old|]; [|by exists n1].
    destruct (queue_del_ok n1 old pkey) as (n' & -> & ?); [done|done|]. exists n'. naive_solver. }
  destruct Hn as (n' & -> & Hp & Hs & Hm & Hl & Hd). cbn [obind].
  destruct (put_word_spec r1 0 (version (new_row req thread_id now))) as (r & -> & E2 & W2 & _);
    [lia|eapply room_edited; [done|]; room_lia|by apply wrap_range|]. cbn [obind].
  exists r, n'. split; [done|]. split; [by eapply edited_trans|]. do 3 (split; [done|]). split; [|done].
  by rewrite Hp.
Qed.

(** ** The message of deletions *)
Lemma words_blocks m ws rest : forall i,
  0 <= i -> Forall (in_width 64) ws ->
  drop (Z.to_nat (kKeySize * i)) (payload m) = concat (map key_bytes ws) ++ rest ->
  words m i (length ws) = ws.
Proof.
  induction ws as [|w ws IH]; intros i Hi Hw E; [done|]. inversion Hw; subst. simpl. f_equal.
  - unfold word. rewrite E. cbn [map concat]. rewrite <- app_assoc, take_app_length' by (by rewrite length_key_bytes).
    by apply key_bytes_value.
  - apply IH; [lia|done|]. unfold kKeySize in *.
    replace (Z.to_nat (8 * (i + 1))) with (Z.to_nat (8 * i) + 8)%nat by lia.
    rewrite <- drop_drop, E. cbn [map concat].
    by rewrite <- app_assoc, drop_app_length' by (by rewrite length_key_bytes).
Qed.

Lemma length_blocks ws : length (concat (map key_bytes ws)) = (8 * length ws)%nat.
Proof. induction ws as [|w ws IH]; [done|]. cbn [map concat length]. rewrite length_app, length_key_bytes, IH. lia. Qed.

Lemma send_sindex_del_ok n server_id thread_id m :
  0 <= del_queue_cnt n < 2 ^ 16 -> del_queue_cnt n * 3 <= zlen (del_queue n) ->
  room m (del_queue_cnt n * 3) -> Forall (in_width 64) (del_words n) ->
  exists m', send_sindex_del n server_id thread_id m = Done (m', sizeof_RawKvMsg + del_queue_cnt n * 24) /\
    switch_key m' = del_queue_cnt n /\ zlen (payload m') = zlen (payload m) /\
    (bytes (payload m) -> bytes (payload m')) /\
    words m' 0 (Z.to_nat (del_queue_cnt n * 3)) = del_words n.
Proof.
  intros Hc Hq Hr Hw. unfold send_sindex_del. rewrite !(proj2 (Z.leb_le _ _)) by lia. cbn [andb].
  rewrite (Z.mul_comm 3). fold (del_words n). set (m0 := mkMsg _ _ _ _ _ _ _ _ _ _ _ _ _ _ _ _ _ _ _).
  assert (Hl : length (del_words n) = Z.to_nat (del_queue_cnt n * 3)).
  { unfold del_words, zlen in *. rewrite length_take. lia. }
  destruct (put_bytes_spec m0 0 (concat (map key_bytes (del_words n)))) as (m' & -> & [E L B] & P).
  - lia.
  - simpl. unfold zlen at 1. rewrite length_blocks. room_lia.
  - apply Forall_concat, Forall_map, Forall_true. intros; apply bytes_key.
  - exists m'. cbn [obind]. rewrite args_size by lia. split; [done|]. rewrite E. simpl.
    rewrite wrap_small by (unfold in_width; lia). do 3 (split; [done|]).
    rewrite <- Hl. apply (words_blocks _ _ (drop (length (concat (map key_bytes (del_words n)))) (payload m))); [done|done|].
    simpl. rewrite P. done.
Qed.

(** ** Dispatch *)
Lemma server_process_msg_ok f n tid now stale req reply conf r n' size :
  zget (server_config f) (src_s_id (rpc_header req)) = Some conf ->
  process_op n tid now stale req (reply_prologue req reply) = Done (r, n', size) ->
  server_process_msg f n tid now stale req reply = Done (reply_epilogue req r (port_id conf), n', size).
Proof. unfold server_process_msg. intros -> ->. done. Qed.

Lemma op_of_epilogue req r port : msg_op (reply_epilogue req r port) = msg_op r.
Proof. reflexivity. Qed.

Lemma word_epilogue req r port i : word (reply_epilogue req r port) i = word r i.
Proof. reflexivity. Qed.

Lemma words_epilogue req r port i k : words (reply_epilogue req r port) i k = words r i k.
Proof. by apply words_ext. Qed.

Lemma words_with_op r o i k : words (with_op r o) i k = words r i k.
Proof. by apply words_ext. Qed.

Lemma buffer_prologue req reply : buffer reply -> buffer (reply_prologue req reply).
Proof. by intros []. Qed.

Lemma room_prologue req reply k : room reply k -> room (reply_prologue req reply) k.
Proof. done. Qed.

Lemma foldl_max_ge a l : a <= foldl Z.max a l /\ Forall (fun x => x <= foldl Z.max a l) l.
Proof.
  revert a. induction l as [|x l IH]; intros a; simpl; [by split|].
  destruct (IH (Z.max a x)) as [H1 H2]. split; [lia|]. constructor; [lia|done].
Qed.

Lemma little_endian_zero w bs : Forall (fun b => b = 0) bs -> little_endian_to_Z w bs = 0.
Proof. induction 1 as [|b bs -> _ IH]; [done|]. simpl. rewrite IH. by rewrite Z.shiftl_0_l. Qed.

Lemma version_nonzero v :
  v mod 2 ^ 32 <> 0 -> Exists (fun b => b <> 0) (Z_to_little_endian 4 8 v).
Proof.
  intros Hv. destruct (decide (Forall (fun b => b = 0) (Z_to_little_endian 4 8 v))) as [Hz|Hz].
  - apply (little_endian_zero 8) in Hz. rewrite little_endian_to_Z_to_little_endian in Hz by lia. done.
  - apply not_Forall_Exists in Hz; [|apply _]. by eapply Exists_impl.
Qed.

(** The scan starts behind an entry whose lower half of the version is 0. *)
Lemma entry_zero_missed s : lex_le (key_bytes s ++ replicate 16 0) (entry_key s 0) = false.
Proof. unfold entry_key. by rewrite lex_le_app. Qed.

Lemma entry_after_scan_start s ver :
  ver mod 2 ^ 32 <> 0 -> lex_le (key_bytes s ++ replicate 16 0) (entry_key s ver) = true.
Proof.
  intros Hv. unfold entry_key. rewrite lex_le_app. apply lex_le_zeros; [|by apply version_nonzero].
  eapply Forall_impl; [apply Z_to_little_endian_bound; lia|]. simpl. lia.
Qed.

(** The index node finds every entry of a value as long as the index holds at
    most ten of them and the lower half of the entry's version is not zero; what
    it answers are values of entries. *)
Theorem index_lookup_complete f n tid now sv req reply conf ver pk :
  msg_op req = kEnumReadIndexReq -> zget (server_config f) (src_s_id (rpc_header req)) = Some conf ->
  index_ok (entries (sindex n)) -> buffer req -> buffer reply ->
  entries (sindex n) !! entry_key (word req 0) ver = Some pk -> ver mod 2 ^ 32 <> 0 ->
  (length (value_entries (entries (sindex n)) (key_bytes (word req 0))) <= 10)%nat ->
  exists r size, server_process_msg f n tid now sv req reply = Done (r, n, size) /\
    msg_op r = kEnumReadIndexReply /\ word r 0 <= 10 /\
    pk ∈ words r 1 (Z.to_nat (word r 0)) /\
    Forall (fun p => exists k, entries (sindex n) !! k = Some p) (words r 1 (Z.to_nat (word r 0))).
Proof.
  intros Hop Hconf Hm Hreq Hrep He Hv Hten.
  destruct (read_index_ok n req (reply_prologue req reply)) as (r & E & _ & W0 & W1);
    [done|apply Hreq|by apply buffer_room|apply buffer_room; [by apply buffer_prologue|lia]|].
  set (res := scan_entries _ _ _) in *. eexists _, _. split.
  { apply server_process_msg_ok; [done|]. unfold process_op. rewrite Hop. simpl. exact E. }
  rewrite op_of_epilogue, words_epilogue, word_epilogue, words_with_op. change (word (with_op r _) 0) with (word r 0).
  rewrite W0. replace (Z.to_nat (zlen res)) with (length res) by (unfold zlen; lia). rewrite W1.
  split; [done|]. split; [by apply scan_entries_length|]. split.
  - unfold res, scan_entries. rewrite firstn_map. apply (list_elem_of_fmap_2' snd _ (entry_key (word req 0) ver, pk)); [|done].
    apply (scan_finds (key_bytes (word req 0))).
    + by rewrite take_app_length' by (by rewrite length_key_bytes).
    + apply take_entry_key.
    + by apply elem_of_sorted_entries.
    + by apply entry_after_scan_start.
    + done.
  - eapply Forall_impl; [by apply scan_entries_values|]. by intros ? [].
Qed.

Record del_queue_ok n : Prop := {
  dq_cnt : 0 <= del_queue_cnt n;
  dq_room : del_queue_cnt n * 3 <= zlen (del_queue n);
  dq_len : zlen (del_queue n) = del_queue_words;
  dq_width : Forall (in_width 64) (del_words n) }.

(** Deletions reach the index node but change no entry: the keys they carry have
    24 bytes, those of the entries 12.  What they do is block updates: from then on
    every update of any row whose version is not above one of the deleted versions
    is acknowledged and ignored. *)
Theorem deletions_only_block d n server_id thread_id buf stale :
  del_queue_ok d -> buffer buf -> buffer (with_payload buf stale) -> index_ok (entries (sindex n)) ->
  exists m size n', send_sindex_del d server_id thread_id buf = Done (m, size) /\
    process_sindex_del n (deliver size m stale) = Done n' /\
    entries (sindex n') = entries (sindex n) /\ pindex n' = pindex n /\
    forall f tid now sv req reply conf i v,
      del_words d !! (3 * i + 1)%nat = Some v -> word req 1 <= v ->
      msg_op req = kEnumUpdateIndexReq -> zget (server_config f) (src_s_id (rpc_header req)) = Some conf ->
      buffer req -> exists r size', server_process_msg f n' tid now sv req reply = Done (r, n', size') /\
        msg_op r = kEnumUpdateIndexReply.
Proof.
  intros [Hc Hr Hl Hw] Hbuf Hst Hm. assert (Hd : del_queue_words = 192) by reflexivity.
  assert (Hroom : room buf (del_queue_cnt d * 3)) by (apply buffer_room; [done|lia]).
  destruct (send_sindex_del_ok d server_id thread_id buf) as (m & E & Hk & Hlen & Hby & Hwords); [lia|done|done|done|].
  set (size := sizeof_RawKvMsg + del_queue_cnt d * 24) in *.
  assert (Hbm : buffer m) by (destruct Hbuf; split; [auto|congruence]).
  assert (Hbd : buffer (deliver size m stale)) by (apply buffer_deliver; [done|by destruct Hst]).
  assert (Hdw : words (deliver size m stale) 0 (Z.to_nat (del_queue_cnt d * 3)) = del_words d).
  { rewrite words_deliver; [done| |lia|unfold size, kKeySize; lia|apply buffer_room; [done|lia]].
    destruct Hst as [_ L], Hbm as [_ L']. simpl in L. congruence. }
  assert (Hsk : Z.to_nat (switch_key (deliver size m stale)) = Z.to_nat (del_queue_cnt d)) by (simpl; by rewrite Hk).
  destruct (del_each_ok (Z.to_nat (del_queue_cnt d)) (deliver size m stale) n 0) as (n' & En & Hp & _ & _ & He & Hv);
    [done|done|apply buffer_room; [done|lia]|].
  exists m, size, n'. split; [done|]. split; [unfold process_sindex_del; by rewrite Hsk|]. do 2 (split; [done|]).
  intros f tid now sv req reply conf i v Hi Hle Hop Hconf Hreq.
  assert (Hmax : v <= local_max_del_timestamp n').
  { rewrite Hv. pose proof (proj2 (foldl_max_ge (local_max_del_timestamp n)
      (del_versions (deliver size m stale) 0 (Z.to_nat (del_queue_cnt d))))) as HF.
    rewrite Forall_forall in HF. apply HF. unfold del_versions. apply list_elem_of_fmap.
    pose proof (lookup_lt_Some _ _ _ Hi) as Hlt. unfold del_words in Hlt. rewrite length_take in Hlt.
    exists (Z.of_nat i). split; [|apply elem_of_seqZ; lia].
    rewrite <- Hdw in Hi. apply words_lookup in Hi as [-> _]. f_equal. lia. }
  eexists _, _. split.
  { apply server_process_msg_ok; [done|]. unfold process_op. rewrite Hop. simpl. unfold write_index.
    rewrite !get_word_done by (lia || by apply buffer_room). cbn [obind].
    rewrite (proj2 (Z.ltb_ge _ _)) by lia. reflexivity. }
  done.
Qed.
End laws.

(** ** Witnesses *)
Definition sample_tree : gmap (list Z) Z :=
  <[entry_key 500 (2 ^ 40 + 77) := 11]> (<[entry_key 500 99 := 12]> (<[entry_key 900 5 := 13]> ∅)).

Definition sample_node : node (gmap Z) (gmap (list Z) Z) :=
  mkNode new_index sample_tree (replicate 192 0) 0 0.

Definition sample_msg (o : Z) (ws : list Z) : RawKvMsg :=
  mkMsg (mkHeader 1 2 0 0 0 o 0) 0 0 0 0 0 0 0 0 0 0 0 0 0 0 0 0 0
    (concat (map key_bytes ws) ++ replicate (Z.to_nat payload_size - 8 * length ws) 0).

Lemma sample_tree_ok : index_ok sample_tree.
Proof. repeat apply index_ok_insert; [apply map_Forall_empty|done..]. Qed.

Lemma sample_msg_buffer o ws : 8 * zlen ws <= payload_size -> buffer (sample_msg o ws).
Proof.
  intros Hl. split; simpl.
  - apply Forall_app_2; [apply Forall_concat, Forall_map, Forall_true; intros; apply bytes_key|].
    by apply Forall_replicate.
  - assert (payload_size = 1991) by reflexivity. unfold zlen in *. rewrite length_app, length_replicate, length_blocks. lia.
Qed.

Lemma index_lookup_complete_witness :
  exists r size, server_process_msg default_flags sample_node 0 0 0
      (sample_msg kEnumReadIndexReq [500]) (sample_msg 0 []) = Done (r, sample_node, size) /\
    11 ∈ words r 1 (Z.to_nat (word r 0)).
Proof.
  destruct (index_lookup_complete default_flags sample_node 0 0 0 (sample_msg kEnumReadIndexReq [500])
    (sample_msg 0 []) (mkServer 2 1 1 12 1 ens6 136) (2 ^ 40 + 77) 11) as (r & size & E & _ & _ & H & _).
  - reflexivity.
  - reflexivity.
  - exact sample_tree_ok.
  - apply sample_msg_buffer. done.
  - apply sample_msg_buffer. done.
  - vm_compute. reflexivity.
  - done.
  - apply Nat.leb_le. vm_compute. reflexivity.
  - exists r, size. split; [exact E|exact H].
Defined.

(** A data node with one deletion. *)
Definition sample_deleter : node (gmap Z) (gmap (list Z) Z) :=
  mkNode new_index ∅ ([500; 123; 7] ++ replicate 189 0) 1 0.

Lemma deletions_only_block_witness :
  exists m size n', send_sindex_del sample_deleter 0 0 (sample_msg 0 []) = Done (m, size) /\
    process_sindex_del sample_node (deliver size m (payload (sample_msg 0 []))) = Done n' /\
    sindex n' = sample_tree /\
    exists r size', server_process_msg default_flags n' 0 0 0
      (sample_msg kEnumUpdateIndexReq [500; 120; 8]) (sample_msg 0 []) = Done (r, n', size').
Proof.
  destruct (deletions_only_block sample_deleter sample_node 0 0 (sample_msg 0 []) (payload (sample_msg 0 [])))
    as (m & size & n' & E1 & E2 & E3 & _ & H).
  - split; [done|done|done|]. repeat constructor; done.
  - apply sample_msg_buffer. done.
  - apply (sample_msg_buffer 0 []). done.
  - exact sample_tree_ok.
  - exists m, size, n'. split; [exact E1|]. split; [exact E2|]. split; [exact E3|].
    destruct (H default_flags 0 0 0 (sample_msg kEnumUpdateIndexReq [500; 120; 8]) (sample_msg 0 [])
      (mkServer 2 1 1 12 1 ens6 136) 0%nat 123) as (r & size' & E & _); [reflexivity|done|reflexivity|reflexivity| |].
    + apply sample_msg_buffer. done.
    + exists r, size'. exact E.
Defined.

(** ** What goes wrong *)
Definition sample_rows : ThreadLocalIndex (gmap Z) :=
  {| table2 := ∅; table3 := {[7 := {| value := 500; version := 3 |}]} |}.

(** A key without a row counts as having the value of the row before it. *)
Example missing_key_reported :
  exists r size, server_process_msg default_flags (mkNode (T := gmap (list Z) Z) sample_rows ∅ [] 0 0) 0 0 0
      (sample_msg kEnumReadLog [500; 2; 7; 99]) (sample_msg 0 []) = Done (r, mkNode sample_rows ∅ [] 0 0, size) /\
    words r 1 2 = [7; 99].
Proof. vm_compute. by eexists _, _. Qed.

(** The reply to a write of a row carries only the version.  When the switch sends
    it to the index node, the version is taken for the value, and the rest of the
    entry is what the receive buffer held. *)
Example multicast_indexes_version :
  exists r n size n' r' size',
    server_process_msg default_flags (mkNode (T := gmap (list Z) Z) sample_rows ∅ (replicate 192 0) 0 0) 0 1000 0
      (sample_msg kEnumAppendReq [8; 500]) (sample_msg 0 []) = Done (r, n, size) /\
    server_process_msg default_flags (mkNode sample_rows ∅ [] 0 0) 0 0 0
      (with_op (deliver size r (payload (sample_msg 0 [1; 2; 3]))) kEnumMultiCastPkt) (sample_msg 0 []) = Done (r', n', size') /\
    sindex n' = {[entry_key (get_version 1000 0) 2 := 3]}.
Proof. vm_compute. by eexists _, _, _, _, _, _. Qed.

End SecondaryNode.
