(* ===== verification/SecondaryLoopModel.v ===== *)
(** * The server loop of the secondary index

    Module [SecondaryLoop]: run_server_CPC of apps/kv/secondary_index.cc, one turn
    of its loop.  Polled requests are served at once, except that with
    FLAGS_read_first the index node queues updates until the queue is full, an
    update of a waiting client or a deletion arrives, or nothing was polled ten
    times; the data node collects deletions and sends them in batches. *)

From S2P Require Import Prelude KvMessageModel SecondaryModel SecondaryNodeModel.
Import KvMessage.

Module SecondaryLoop.
Import Secondary SecondaryNode.

Definition kMaxWriteQueue : Z := 256.
Definition kMaxNullPoll : Z := 10.
Definition kMaxWcCnt : Z := 16.

(** The length of rc_qp_array. *)
Definition rc_qps : Z := 16.

(** struct bg_write_msg: the payload of the message is key[3]. *)
Record bg_write_msg := { kv_header : RawKvMsg; bg_qp : nat; bg_type : Z }.

(** A polled request: the queue pair it came from with its type, the message, and
    what serving it finds in the send buffer, on the clock and in its locals. *)
Record polled := mkPolled {
  p_qp : nat; p_type : Z; p_req : RawKvMsg; p_stale : RawKvMsg; p_now : Z; p_version : Z }.

(** A message handed to a queue pair: with the thread whose port it got if the
    queue pair is a raw one, and its size. *)
Record posted := mkPosted { o_qp : nat; o_port : option Z; o_msg : RawKvMsg; o_size : Z }.

Definition bg_write (p : polled) : bg_write_msg :=
  {| kv_header := with_payload (p_req p) (take 24 (payload (p_req p))); bg_qp := p_qp p; bg_type := p_type p |}.

Definition dst_port (type_ : Z) (req : RawKvMsg) : option Z :=
  if type_ =? 1 then Some (src_t_id (rpc_header req)) else None.

(** reply_header = req_header, and back to the sender on a raw queue pair. *)
Definition start_reply (p : polled) : RawKvMsg :=
  let h := rpc_header (p_req p) in
  let dst := if p_type p =? 1 then src_s_id h else dst_s_id h in
  with_rpc_header (p_stale p)
    (mkHeader dst (src_s_id h) (src_t_id h) (src_c_id h) (local_id h) (op h) (KvMessage.payload_size h)).

Section loop.
Context {M : Type -> Type} `{CuckooOps M} {T : Type} `{StringIndexOps T}.
Context (f : flags) (FLAGS_read_first : bool) (server_id thread_id : Z) (default_switch_qp : nat).

Record server := mkServer {
  snode : node M T;
  write_queue : list bg_write_msg;
  write_cnt : Z;
  slow_write_flag : bool;
  null_poll : Z }.

Definition with_node (s : server) (n : node M T) : server :=
  mkServer n (write_queue s) (write_cnt s) (slow_write_flag s) (null_poll s).

Definition serve_one (n : node M T) (p : polled) : outcome (posted * node M T) :=
  let! (r, n, size) := server_process_msg f n thread_id (p_now p) (p_version p) (p_req p) (start_reply p) in
  Done (mkPosted (p_qp p) (dst_port (p_type p) (p_req p)) r size, n).

Definition is_update (m : RawKvMsg) : bool :=
  (msg_op m =? kEnumMultiCastPkt) || (msg_op m =? kEnumUpdateIndexReq).

Definition deferred (p : polled) : bool :=
  FLAGS_read_first && (server_id =? 1) && is_update (p_req p).

(** write_queue[write_cnt++] *)
Definition defer (s : server) (p : polled) : outcome server :=
  let! q := store (write_queue s) (write_cnt s) (bg_write p) in
  Done (mkServer (snode s) q (signed 32 (write_cnt s + 1))
          (slow_write_flag s || (msg_op (p_req p) =? kEnumUpdateIndexReq)) (null_poll s)).

(** The loop over the completions; [rc] are the requests of rc_qp_array. *)
Fixpoint receive (s : server) (rc : list RawKvMsg) (ps : list polled) : outcome (list posted * list RawKvMsg * server) :=
  match ps with
  | [] => Done ([], rc, s)
  | p :: ps =>
      if p_type p =? 0 then
        if zlen rc <? rc_qps then receive s (rc ++ [p_req p]) ps else Fault OutOfBounds
      else if deferred p then
        let! s := defer s p in receive s rc ps
      else
        let! (o, n) := serve_one (snode s) p in
        let! (os, rc, s) := receive (with_node s n) rc ps in
        Done (o :: os, rc, s)
  end.

(** The queued updates from [i] on; [buf] are the send buffers they find.  The
    replies of the default queue pair are posted after the others. *)
Fixpoint flush_each (k : nat) (n : node M T) (q : list bg_write_msg) (buf : nat -> RawKvMsg) (i : nat) : outcome (list posted * list posted * node M T) :=
  match k with
  | O => Done ([], [], n)
  | S k =>
      let! w := load q (Z.of_nat i) in
      let! (r, n, size) := server_process_msg f n thread_id 0 0 (kv_header w) (buf i) in
      let o := mkPosted (bg_qp w) (dst_port (bg_type w) (kv_header w)) r size in
      let! (now, last, n) := flush_each k n q buf (S i) in
      if decide (bg_qp w = default_switch_qp) then Done (now, o :: last, n) else Done (o :: now, last, n)
  end.

Definition must_flush (s : server) (rc : list RawKvMsg) : bool :=
  slow_write_flag s || negb (zlen rc =? 0) || (kMaxWriteQueue <=? write_cnt s) || (kMaxNullPoll <=? null_poll s).

Definition flush (s : server) (buf : nat -> RawKvMsg) : outcome (list posted * server) :=
  let! (now, last, n) := flush_each (Z.to_nat (write_cnt s)) (snode s) (write_queue s) buf 0 in
  Done (now ++ last, mkServer n (write_queue s) 0 false 0).

(** process_sindex_del for every request of rc_qp_array. *)
Fixpoint del_all (n : node M T) (rc : list RawKvMsg) : outcome (node M T) :=
  match rc with
  | [] => Done n
  | m :: rc => let! n := process_sindex_del n m in del_all n rc
  end.

(** The data node's batch of deletions, [dbuf] its send buffer. *)
Definition flush_dels (n : node M T) (dbuf : RawKvMsg) : outcome (list (RawKvMsg * Z) * node M T) :=
  if (server_id =? 0) && (kMaxDelQueue <=? del_queue_cnt n) then
    let! m := send_sindex_del n server_id thread_id dbuf in
    Done ([m], with_del_queue n (del_queue n) 0)
  else Done ([], n).

Definition turn (s : server) (ps : list polled) (buf : nat -> RawKvMsg) (dbuf : RawKvMsg) : outcome (list posted * list (RawKvMsg * Z) * server) :=
  let np := if zlen ps =? 0 then signed 32 (null_poll s + 1) else 0 in
  let! (os, rc, s) := receive (mkServer (snode s) (write_queue s) (write_cnt s) (slow_write_flag s) np) [] ps in
  let! (os', s) := (if FLAGS_read_first && (server_id =? 1) && must_flush s rc then flush s buf else Done ([], s)) in
  let! (ds, n) := flush_dels (snode s) dbuf in
  let! n := (if server_id =? 1 then del_all n rc else Done n) in
  Done (os ++ os', ds, with_node s n).

(** Turn after turn. *)
Record input := { i_polls : list polled; i_buf : nat -> RawKvMsg; i_dbuf : RawKvMsg }.

Fixpoint run (s : server) (ins : list input) : outcome (list posted * server) :=
  match ins with
  | [] => Done ([], s)
  | x :: ins =>
      let! (os, _, s) := turn s (i_polls x) (i_buf x) (i_dbuf x) in
      let! (os', s) := run s ins in
      Done (os ++ os', s)
  end.
End loop.

#[global] Arguments server : clear implicits.

Section laws.
Context {M : Type -> Type} `{CM : CuckooLaws M} {T : Type} `{ST : StringIndexLaws T}.
Context (f : flags) (thread_id : Z) (default_switch_qp : nat).
Notation node := (node M T).
Notation server := (server M T).
Implicit Types (n : node) (s : server) (p : polled) (m : RawKvMsg) (q : nat).

Definition known (m : RawKvMsg) : Prop := is_Some (zget (server_config f) (src_s_id (rpc_header m))).

(** ** What an update does *)
Definition update n m : node :=
  if local_max_del_timestamp n <? word m 1
  then with_sindex n (tree_insert (sindex n) (take 12 (payload m)) (word m 2)) else n.

(** What identifies an acknowledgement for its client and for the switch. *)
Definition ack (r : RawKvMsg) : list Z :=
  [msg_op r; key r; switch_key r; magic r; kv_g_id r; kv_c_id r; coro_id r; client_port r;
   magic_in_switch r; index_port r; src_t_id (rpc_header r); src_c_id (rpc_header r)].

Definition ack_of m : list Z :=
  [if msg_op m =? kEnumMultiCastPkt then ReplySwitch else kEnumUpdateIndexReply; key m; switch_key m; magic m;
   kv_g_id m; kv_c_id m; coro_id m; client_port m; magic_in_switch m; index_port m;
   src_t_id (rpc_header m); src_c_id (rpc_header m)].

Definition is_ack (r : RawKvMsg) : bool := (msg_op r =? ReplySwitch) || (msg_op r =? kEnumUpdateIndexReply).

Lemma write_index_update n m reply o :
  room m 3 -> write_index n m reply o = Done (with_op reply o, update n m, multiple_args_size 0 0).
Proof.
  intros Hr. unfold write_index, update. rewrite !get_word_done by room_lia. cbn [obind].
  destruct (_ <? _); [|done]. rewrite get_bytes_done by room_lia. cbn [obind].
  change (Z.to_nat 0) with 0%nat. by rewrite drop_0.
Qed.

Lemma update_served n tid now sv m reply :
  is_update m = true -> known m -> room m 3 ->
  exists r size, server_process_msg f n tid now sv m reply = Done (r, update n m, size) /\
    ack r = ack_of m /\ is_ack r = true.
Proof.
  intros Hu [conf Hconf] Hr. unfold is_update in Hu. unfold ack_of.
  destruct (Z.eqb_spec (msg_op m) kEnumMultiCastPkt) as [E|E].
  - eexists _, _. split.
    { apply server_process_msg_ok; [done|]. unfold process_op. rewrite E. simpl. by apply write_index_update. }
    done.
  - simpl in Hu. apply Z.eqb_eq in Hu. eexists _, _. split.
    { apply server_process_msg_ok; [done|]. unfold process_op. rewrite Hu. simpl. by apply write_index_update. }
    done.
Qed.

(** The copy in the queue has the effect of the message. *)
Lemma update_bg_write n p : update n (kv_header (bg_write p)) = update n (p_req p).
Proof.
  unfold update, bg_write, word; cbn [kv_header payload with_payload].
  change (Z.to_nat (kKeySize * 1)) with 8%nat. change (Z.to_nat (kKeySize * 2)) with 16%nat.
  rewrite !skipn_firstn_comm, !take_take. done.
Qed.

Lemma index_ok_update n m :
  index_ok (entries (sindex n)) -> bytes (payload m) -> room m 3 -> index_ok (entries (sindex (update n m))).
Proof.
  intros Hn Hb Hr. unfold update. destruct (_ <? _); [|done]. simpl.
  rewrite entries_insert, payload_entry_key by (done || room_lia).
  apply index_ok_insert; [done|]. by apply word_width.
Qed.

(** ** The requests of a poll *)
Definition dels (ps : list polled) : list RawKvMsg := map p_req (filter (fun p => p_type p = 0) ps).

Definition updates (ps : list polled) : list polled :=
  filter (fun p => p_type p <> 0 /\ is_update (p_req p) = true) ps.

Record index_request p : Prop := {
  ir_req : buffer (p_req p);
  ir_stale : buffer (p_stale p);
  ir_known : known (p_req p);
  ir_op : if decide (p_type p = 0) then 0 <= switch_key (p_req p) <= 82
          else is_update (p_req p) = true \/ msg_op (p_req p) = kEnumReadIndexReq }.

(** The acknowledgements posted on queue pair [q], in order. *)
Definition acks q (os : list posted) : list (list Z) :=
  map (fun o => ack (o_msg o)) (filter (fun o => o_qp o = q /\ is_ack (o_msg o) = true) os).

Definition queue_acks q (ws : list bg_write_msg) : list (list Z) :=
  map (fun w => ack_of (kv_header w)) (filter (fun w => bg_qp w = q) ws).

Lemma acks_app q os os' : acks q (os ++ os') = acks q os ++ acks q os'.
Proof. unfold acks. by rewrite filter_app, map_app. Qed.

Lemma queue_acks_app q ws ws' : queue_acks q (ws ++ ws') = queue_acks q ws ++ queue_acks q ws'.
Proof. unfold queue_acks. by rewrite filter_app, map_app. Qed.

Lemma acks_cons_ack q o os r :
  is_ack (o_msg o) = true -> ack (o_msg o) = r ->
  acks q (o :: os) = if decide (o_qp o = q) then r :: acks q os else acks q os.
Proof.
  intros Ha <-. unfold acks. rewrite filter_cons. repeat case_decide; naive_solver.
Qed.

Lemma acks_cons_other q o os : is_ack (o_msg o) = false -> acks q (o :: os) = acks q os.
Proof. intros Ha. unfold acks. rewrite filter_cons_False; [done|]. rewrite Ha. naive_solver. Qed.

Lemma queue_acks_cons q w ws :
  queue_acks q (w :: ws) = if decide (bg_qp w = q) then ack_of (kv_header w) :: queue_acks q ws else queue_acks q ws.
Proof. unfold queue_acks. rewrite filter_cons. by case_decide. Qed.

Lemma start_reply_buffer p : buffer (p_stale p) -> buffer (start_reply p).
Proof. by intros []. Qed.

(** Serving a read of the index leaves the node alone. *)
Lemma read_served n p :
  index_request p -> p_type p <> 0 -> is_update (p_req p) = false -> index_ok (entries (sindex n)) ->
  exists o, serve_one f thread_id n p = Done (o, n) /\ is_ack (o_msg o) = false.
Proof.
  intros [Hb Hs [conf Hc] Hop] Ht Hu Hn. rewrite decide_False in Hop by done.
  destruct Hop as [Hop|Hop]; [congruence|]. unfold serve_one.
  destruct (read_index_ok n (p_req p) (reply_prologue (p_req p) (start_reply p))) as (r & E & _);
    [done|apply Hb|by apply buffer_room|apply buffer_room; [by apply buffer_prologue, start_reply_buffer|lia]|].
  erewrite server_process_msg_ok; [|done|unfold process_op; rewrite Hop; simpl; exact E].
  eexists. split; [reflexivity|]. done.
Qed.

Lemma update_served_one n p :
  index_request p -> is_update (p_req p) = true ->
  exists o, serve_one f thread_id n p = Done (o, update n (p_req p)) /\ o_qp o = p_qp p /\
    is_ack (o_msg o) = true /\ ack (o_msg o) = ack_of (p_req p).
Proof.
  intros [Hb Hs Hk _] Hu. unfold serve_one.
  destruct (update_served n thread_id (p_now p) (p_version p) (p_req p) (start_reply p)) as (r & size & E & Ha & Hi);
    [done|done|by apply buffer_room|].
  rewrite E. eexists. split; [reflexivity|]. done.
Qed.

(** ** The queue of updates *)
Definition queued s : list bg_write_msg := take (Z.to_nat (write_cnt s)) (write_queue s).

Definition settled s : node := foldl update (snode s) (map kv_header (queued s)).

Record bg_ok (w : bg_write_msg) : Prop := {
  bg_update : is_update (kv_header w) = true;
  bg_known : known (kv_header w);
  bg_bytes : bytes (payload (kv_header w));
  bg_room : room (kv_header w) 3 }.

Lemma bg_write_ok p : index_request p -> is_update (p_req p) = true -> bg_ok (bg_write p).
Proof.
  intros [[Hb Hl] _ Hk _] Hu. split; [done|done|by apply Forall_take|]. unfold room, zlen in *. simpl.
  rewrite length_take. assert (payload_size = 1991) by reflexivity. unfold kKeySize. lia.
Qed.

Lemma dels_cons p ps : dels (p :: ps) = if decide (p_type p = 0) then p_req p :: dels ps else dels ps.
Proof. unfold dels. rewrite filter_cons. by case_decide. Qed.

Lemma updates_cons p ps :
  updates (p :: ps) = if decide (p_type p <> 0 /\ is_update (p_req p) = true) then p :: updates ps else updates ps.
Proof. unfold updates. by rewrite filter_cons. Qed.

Lemma updates_ok ps :
  Forall index_request ps -> Forall (fun p => index_request p /\ is_update (p_req p) = true) (updates ps).
Proof.
  intros Hps. rewrite Forall_forall in Hps |- *. intros p Hp. unfold updates in Hp.
  apply list_elem_of_filter in Hp as [[_ ?] ?]. auto.
Qed.

Lemma index_ok_updates n ps :
  Forall index_request ps -> index_ok (entries (sindex n)) ->
  index_ok (entries (sindex (foldl update n (map p_req (updates ps))))).
Proof.
  intros Hps%updates_ok. revert n. induction Hps as [|p ps' [[[Hb Hl] _ _ _] _] _ IH]; intros n Hn; [done|].
  simpl. apply IH, index_ok_update; [done|done|]. by apply buffer_room.
Qed.

(** Without deferral: served in the order of arrival. *)
Lemma receive_direct_ok sid ps : forall s rc,
  Forall index_request ps -> index_ok (entries (sindex (snode s))) -> zlen rc + zlen ps <= rc_qps ->
  exists os, receive f false sid thread_id s rc ps =
      Done (os, rc ++ dels ps, with_node s (foldl update (snode s) (map p_req (updates ps)))) /\
    forall q, acks q os = queue_acks q (map bg_write (updates ps)).
Proof.
  induction ps as [|p ps IH]; intros s rc Hps Hn Hrc.
  { exists []. simpl. rewrite app_nil_r. by destruct s. }
  inversion Hps as [|? ? Hp Hps']; subst. rewrite zlen_cons in Hrc. pose proof (zlen_nonneg ps). cbn [receive].
  rewrite dels_cons, updates_cons. destruct (Z.eqb_spec (p_type p) 0) as [Et|Et].
  - rewrite decide_True by done. rewrite (decide_False (P := _ /\ _)) by tauto.
    rewrite (proj2 (Z.ltb_lt _ _)) by lia.
    destruct (IH s (rc ++ [p_req p])) as (os & -> & Ha); [done|done|unfold zlen in *; rewrite length_app; simpl; lia|].
    exists os. by rewrite <- app_assoc.
  - rewrite (decide_False (P := p_type p = 0)) by done. change (deferred false sid p) with false. cbn iota.
    destruct (is_update (p_req p)) eqn:Hu.
    + rewrite decide_True by done. destruct (update_served_one (snode s) p Hp Hu) as (o & -> & Eq & Hi & Hack). cbn [obind].
      destruct (IH (with_node s (update (snode s) (p_req p))) rc) as (os & -> & Ha); [done| |lia|].
      { simpl. apply index_ok_update; [done|apply Hp|apply buffer_room; [apply Hp|lia]]. }
      cbn [obind]. eexists. split; [reflexivity|]. intros q. cbn [map].
      erewrite acks_cons_ack by done. rewrite queue_acks_cons, Ha, Eq. done.
    + rewrite decide_False by (intros []; congruence).
      destruct (read_served (snode s) p Hp Et Hu Hn) as (o & -> & Hi). cbn [obind].
      destruct (IH (with_node s (snode s)) rc) as (os & -> & Ha); [done|done|lia|]. cbn [obind].
      eexists. split; [reflexivity|]. intros q. by rewrite acks_cons_other.
Qed.

Lemma defer_ok s p :
  zlen (write_queue s) = kMaxWriteQueue + 16 -> 0 <= write_cnt s < kMaxWriteQueue + 16 ->
  exists s', defer s p = Done s' /\ snode s' = snode s /\ queued s' = queued s ++ [bg_write p] /\
    write_cnt s' = write_cnt s + 1 /\ zlen (write_queue s') = zlen (write_queue s) /\
    null_poll s' = null_poll s /\
    slow_write_flag s' = slow_write_flag s || (msg_op (p_req p) =? kEnumUpdateIndexReq).
Proof.
  intros Hl Hc. unfold defer. rewrite store_in_range by lia. cbn [obind]. eexists. split; [reflexivity|].
  unfold kMaxWriteQueue in *. simpl. split; [done|]. rewrite signed_small by lia. split.
  { unfold queued. simpl. apply take_zset_snoc. lia. }
  split; [done|]. by rewrite zlen_zset.
Qed.

(** With deferral: updates go to the queue. *)
Lemma receive_deferred_ok ps : forall s rc,
  Forall index_request ps -> index_ok (entries (sindex (snode s))) -> zlen rc + zlen ps <= rc_qps ->
  zlen (write_queue s) = kMaxWriteQueue + 16 -> 0 <= write_cnt s -> write_cnt s + zlen ps <= kMaxWriteQueue + 16 ->
  exists os s', receive f true 1 thread_id s rc ps = Done (os, rc ++ dels ps, s') /\
    snode s' = snode s /\ queued s' = queued s ++ map bg_write (updates ps) /\
    (forall q, acks q os = []) /\ write_cnt s' = write_cnt s + zlen (updates ps) /\
    zlen (write_queue s') = zlen (write_queue s) /\ null_poll s' = null_poll s /\
    (slow_write_flag s' = false -> slow_write_flag s = false /\
      Forall (fun p => msg_op (p_req p) = kEnumMultiCastPkt) (updates ps)).
Proof.
  induction ps as [|p ps IH]; intros s rc Hps Hn Hrc Hq Hc0 Hc.
  { exists [], s. simpl. rewrite !app_nil_r. unfold zlen; simpl. repeat (split; [done || lia|]). done. }
  inversion Hps as [|? ? Hp Hps']; subst. rewrite zlen_cons in Hrc, Hc. pose proof (zlen_nonneg ps). cbn [receive].
  rewrite dels_cons, updates_cons. destruct (Z.eqb_spec (p_type p) 0) as [Et|Et].
  - rewrite decide_True by done. rewrite (decide_False (P := _ /\ _)) by tauto.
    rewrite (proj2 (Z.ltb_lt _ _)) by (unfold zlen in *; lia).
    destruct (IH s (rc ++ [p_req p])) as (os & s' & -> & Ha); [done|done| |done|done|lia|].
    { unfold zlen in *. rewrite length_app. simpl. lia. }
    exists os, s'. by rewrite <- app_assoc.
  - rewrite (decide_False (P := p_type p = 0)) by done. unfold deferred. cbn [andb Z.eqb Pos.eqb].
    destruct (is_update (p_req p)) eqn:Hu.
    + rewrite decide_True by done. pose proof (zlen_nonneg ps).
      destruct (defer_ok s p) as (s1 & -> & N1 & Q1 & C1 & L1 & P1 & F1); [done|lia|]. cbn [obind].
      destruct (IH s1 rc) as (os & s' & -> & N2 & Q2 & A2 & C2 & L2 & P2 & F2);
        [done|by rewrite N1|lia|congruence|lia|lia|].
      exists os, s'. split; [done|]. split; [congruence|]. split; [by rewrite Q2, Q1, <- app_assoc|].
      split; [done|]. rewrite zlen_cons. split; [lia|]. split; [congruence|]. split; [congruence|].
      intros Hf. apply F2 in Hf as [Hf HF]. rewrite F1 in Hf. apply orb_false_iff in Hf as [Hf1 Hf2].
      split; [done|]. constructor; [|done]. unfold is_update in Hu. rewrite Hf2, orb_false_r in Hu. by apply Z.eqb_eq.
    + rewrite decide_False by (intros []; congruence).
      destruct (read_served (snode s) p Hp Et Hu Hn) as (o & -> & Hi). cbn [obind].
      destruct (IH (with_node s (snode s)) rc) as (os & s' & -> & N2 & Q2 & A2 & R); [done|done|lia|done|done|simpl; lia|].
      cbn [obind]. exists (o :: os), s'. split; [done|]. split; [done|]. split; [done|].
      split; [intros q; rewrite acks_cons_other; done|done].
Qed.

(** Serving the queue. *)
Lemma flush_each_ok ws queue buf : forall n i,
  (forall j w, ws !! j = Some w -> zget queue (Z.of_nat (i + j)) = Some w) -> Forall bg_ok ws ->
  exists now last, flush_each f thread_id default_switch_qp (length ws) n queue buf i =
      Done (now, last, foldl update n (map kv_header ws)) /\
    forall q, acks q now = (if decide (q = default_switch_qp) then [] else queue_acks q ws) /\
              acks q last = (if decide (q = default_switch_qp) then queue_acks q ws else []).
Proof.
  induction ws as [|w ws IH]; intros n i Hq Hws; [exists [], []; split; [done|]; intros; by case_decide|].
  inversion Hws as [|? ? [Hu Hk Hb Hr] Hws']; subst. cbn [flush_each length].
  rewrite (load_in_range _ _ w) by (rewrite <- (Hq 0%nat w) by done; f_equal; lia). cbn [obind].
  destruct (update_served n thread_id 0 0 (kv_header w) (buf i)) as (r & size & -> & Ha & Hi); [done..|]. cbn [obind].
  destruct (IH (update n (kv_header w)) (S i)) as (now & last & -> & H2).
  { intros j w' Hj. rewrite <- (Hq (S j) w') by done. f_equal. lia. }
  { done. }
  cbn [obind]. destruct (decide (bg_qp w = default_switch_qp)) as [Ed|Ed]; eexists _, _; (split; [reflexivity|]);
    intros q; destruct (H2 q) as [A1 A2]; rewrite queue_acks_cons; erewrite acks_cons_ack by done; cbn [o_qp];
    rewrite A1, A2; repeat case_decide; naive_solver.
Qed.

Lemma flush_ok s buf :
  0 <= write_cnt s <= zlen (write_queue s) -> Forall bg_ok (queued s) ->
  exists os, flush f thread_id default_switch_qp s buf =
      Done (os, mkServer (settled s) (write_queue s) 0 false 0) /\
    forall q, acks q os = queue_acks q (queued s).
Proof.
  intros Hc Hw. unfold flush.
  assert (Hl : Z.to_nat (write_cnt s) = length (queued s)).
  { unfold queued, zlen in *. rewrite length_take. lia. }
  rewrite Hl. destruct (flush_each_ok (queued s) (write_queue s) buf (snode s) 0) as (now & last & -> & Ha).
  { intros j w Hj. unfold zget. rewrite decide_True by lia. unfold queued in Hj.
    rewrite lookup_take in Hj. case_decide; [|done]. by replace (Z.to_nat _) with j by lia. }
  { done. }
  cbn [obind]. eexists. split; [reflexivity|]. intros q. rewrite acks_app. destruct (Ha q) as [-> ->].
  case_decide; [done|]. by rewrite app_nil_r.
Qed.

(** ** Turns *)
Definition del_effect n m : node :=
  match process_sindex_del n m with
  | Done n' => n'
  | Fault _ => n
  end.

Definition spec_turn n (ps : list polled) : node :=
  foldl del_effect (foldl update n (map p_req (updates ps))) (dels ps).

Lemma del_all_ok rc : forall n,
  Forall (fun m => buffer m /\ 0 <= switch_key m <= 82) rc -> index_ok (entries (sindex n)) ->
  del_all n rc = Done (foldl del_effect n rc) /\ index_ok (entries (sindex (foldl del_effect n rc))).
Proof.
  induction rc as [|m rc IH]; intros n Hrc Hn; [done|]. inversion Hrc as [|? ? [Hb Hk] Hrc']; subst. simpl.
  unfold del_effect at 2 4, process_sindex_del.
  destruct (del_each_ok (Z.to_nat (switch_key m)) m n 0) as (n' & -> & _ & _ & _ & E & _);
    [done|done|apply buffer_room; [done|lia]|]. cbn [obind]. apply IH; [done|]. by rewrite E.
Qed.

Lemma dels_ok ps :
  Forall index_request ps -> Forall (fun m => buffer m /\ 0 <= switch_key m <= 82) (dels ps).
Proof.
  intros Hps. unfold dels. rewrite Forall_map. rewrite Forall_forall in Hps |- *. intros p Hp.
  apply list_elem_of_filter in Hp as [Et Hp]. destruct (Hps p Hp) as [Hb _ _ Hk].
  by rewrite decide_True in Hk.
Qed.

Lemma length_updates ps : zlen (updates ps) <= zlen ps.
Proof. unfold zlen, updates. pose proof (length_filter (fun p => p_type p <> 0 /\ is_update (p_req p) = true) ps). lia. Qed.

Record loop_ok s : Prop := {
  lo_array : zlen (write_queue s) = kMaxWriteQueue + 16;
  lo_cnt : 0 <= write_cnt s < kMaxWriteQueue;
  lo_index : index_ok (entries (sindex (snode s)));
  lo_queue : Forall bg_ok (queued s);
  lo_slow : slow_write_flag s = false;
  lo_multicast : Forall (fun w => msg_op (kv_header w) = kEnumMultiCastPkt) (queued s) }.

Definition poll_ok (ps : list polled) : Prop := Forall index_request ps /\ zlen ps <= kMaxWcCnt.

Lemma flush_dels_index n dbuf : flush_dels 1 thread_id n dbuf = Done ([], n).
Proof. reflexivity. Qed.

Lemma settled_index s : loop_ok s -> index_ok (entries (sindex (settled s))).
Proof.
  intros [_ _ Hn Hq _ _]. unfold settled. revert Hn. generalize (snode s). induction Hq as [|w ws [] _ IH]; intros n Hn; [done|].
  simpl. by apply IH, index_ok_update.
Qed.

Lemma foldl_bg_write us : forall n,
  foldl update n (map kv_header (map bg_write us)) = foldl update n (map p_req us).
Proof. induction us as [|p us IH]; intros n; [done|]. cbn [map foldl]. by rewrite update_bg_write, IH. Qed.

(** A turn with deferral: the updates go behind the queue, and the queue is served
    before any deletion. *)
Lemma turn_deferred_ok s ps buf dbuf :
  loop_ok s -> poll_ok ps ->
  exists os s', turn f true 1 thread_id default_switch_qp s ps buf dbuf = Done (os, [], s') /\
    loop_ok s' /\ settled s' = spec_turn (settled s) ps /\
    forall q, acks q os ++ queue_acks q (queued s') = queue_acks q (queued s) ++ queue_acks q (map bg_write (updates ps)).
Proof.
  intros [Hl Hc Hn Hq Hsl Hmc] [Hps H16]. unfold turn. set (s0 := mkServer _ _ _ _ _).
  pose proof (length_updates ps) as Hlu. unfold kMaxWriteQueue, kMaxWcCnt, rc_qps in *.
  destruct (receive_deferred_ok ps s0 []) as (os & s1 & -> & N1 & Q1 & A1 & C1 & L1 & P1 & F1);
    [done|done|unfold zlen, rc_qps in *; simpl; lia|done|simpl; lia|unfold kMaxWriteQueue; simpl; lia|]. cbn [obind app].
  simpl in N1, C1, L1. change (queued s0) with (queued s) in Q1.
  assert (Hq1 : Forall bg_ok (queued s1)).
  { rewrite Q1. apply Forall_app_2; [done|]. rewrite Forall_map. eapply Forall_impl; [by apply updates_ok|].
    intros p [? ?]. by apply bg_write_ok. }
  assert (Hset : settled s1 = foldl update (settled s) (map p_req (updates ps))).
  { unfold settled. by rewrite N1, Q1, map_app, foldl_app, foldl_bg_write. }
  change (true && (1 =? 1)) with true. cbn [andb]. destruct (must_flush s1 (dels ps)) eqn:Hf.
  - destruct (flush_ok s1 buf) as (os' & -> & Ha); [unfold zlen in *; lia|done|]. cbn [obind].
    rewrite flush_dels_index. cbn [obind].
    destruct (del_all_ok (dels ps) (settled s1)) as [E Hi]; [by apply dels_ok| |].
    { rewrite Hset. apply index_ok_updates; [done|]. by apply settled_index. }
    change (1 =? 1) with true. cbn iota. simpl snode. rewrite E. cbn [obind]. eexists _, _. split; [reflexivity|]. split.
    { split; simpl; [unfold kMaxWriteQueue; lia|unfold kMaxWriteQueue; lia|done|constructor|done|constructor]. }
    split; [unfold settled at 1; simpl; unfold spec_turn; by rewrite Hset|].
    intros q. rewrite acks_app, A1, Ha, Q1. simpl. by rewrite app_nil_r, queue_acks_app.
  - cbn [obind]. rewrite flush_dels_index. unfold must_flush in Hf.
    apply orb_false_iff in Hf as [[[Hf1 Hf2]%orb_false_iff Hf3]%orb_false_iff _].
    assert (Hd : dels ps = []).
    { apply negb_false_iff, Z.eqb_eq in Hf2. by apply length_zero_iff_nil; unfold zlen in Hf2; lia. }
    pose proof (F1 Hf1) as [_ Hmc']. rewrite Hd. cbn [obind del_all]. change (1 =? 1) with true. cbn iota. cbn [obind].
    eexists _, _. split; [reflexivity|]. unfold kMaxWriteQueue in Hf3. apply Z.leb_gt in Hf3.
    assert (Hs1 : with_node s1 (snode s1) = s1) by (by destruct s1).
    rewrite Hs1. split.
    { split; [unfold kMaxWriteQueue; lia|unfold kMaxWriteQueue, zlen in *; lia|by rewrite N1|done|done|].
      rewrite Q1. apply Forall_app_2; [done|]. by rewrite Forall_map. }
    split; [unfold spec_turn; by rewrite Hd, Hset|].
    intros q. rewrite app_nil_r, A1, Q1. by rewrite queue_acks_app.
Qed.

(** A turn without deferral. *)
Lemma turn_direct_ok s ps buf dbuf :
  index_ok (entries (sindex (snode s))) -> poll_ok ps ->
  exists os s', turn f false 1 thread_id default_switch_qp s ps buf dbuf = Done (os, [], s') /\
    snode s' = spec_turn (snode s) ps /\ index_ok (entries (sindex (snode s'))) /\
    forall q, acks q os = queue_acks q (map bg_write (updates ps)).
Proof.
  intros Hn [Hps H16]. unfold turn. set (s0 := mkServer _ _ _ _ _).
  destruct (receive_direct_ok 1 ps s0 []) as (os & -> & Ha); [done|done|unfold zlen, kMaxWcCnt, rc_qps in *; simpl; lia|].
  cbn [obind app andb]. rewrite flush_dels_index. cbn [obind].
  destruct (del_all_ok (dels ps) (foldl update (snode s) (map p_req (updates ps)))) as [E Hi];
    [by apply dels_ok|by apply index_ok_updates|].
  change (1 =? 1) with true. cbn iota. cbn [snode with_node]. simpl snode. rewrite E. cbn [obind].
  eexists _, _. split; [reflexivity|]. split; [done|]. split; [done|]. intros q. by rewrite app_nil_r.
Qed.

Lemma run_both ins : forall s1 s2,
  loop_ok s1 -> index_ok (entries (sindex (snode s2))) -> settled s1 = snode s2 ->
  Forall (fun x => poll_ok (i_polls x)) ins ->
  exists o1 s1' o2 s2', run f true 1 thread_id default_switch_qp s1 ins = Done (o1, s1') /\
    run f false 1 thread_id default_switch_qp s2 ins = Done (o2, s2') /\
    loop_ok s1' /\ settled s1' = snode s2' /\
    forall q, acks q o1 ++ queue_acks q (queued s1') = queue_acks q (queued s1) ++ acks q o2.
Proof.
  induction ins as [|x ins IH]; intros s1 s2 H1 H2 Hs Hins.
  { exists [], s1, [], s2. do 4 (split; [done|]). intros q. simpl. by rewrite app_nil_r. }
  inversion Hins as [|? ? Hx Hins']; subst. cbn [run].
  destruct (turn_deferred_ok s1 (i_polls x) (i_buf x) (i_dbuf x)) as (os1 & t1 & -> & K1 & S1 & A1); [done|done|].
  destruct (turn_direct_ok s2 (i_polls x) (i_buf x) (i_dbuf x)) as (os2 & t2 & -> & S2 & K2 & A2); [done|done|].
  cbn [obind]. destruct (IH t1 t2) as (o1 & s1' & o2 & s2' & -> & -> & K & S & A); [done|done|by rewrite S1, S2, Hs|done|].
  cbn [obind]. eexists _, _, _, _. split; [reflexivity|]. split; [reflexivity|]. split; [done|]. split; [done|].
  intros q. rewrite !acks_app, A2, <- !app_assoc, A, !app_assoc, A1. done.
Qed.

(** C26. Deferring updates changes when they are applied, not what they do: on any
    sequence of polls the index node with FLAGS_read_first, once its queue is
    applied, is the node without it, and on every queue pair the acknowledgements
    it has posted and still owes are those the other has posted, in the same order.
    Its queue never overflows and owes nothing to a waiting client: it holds
    multicast packets only. *)
Theorem read_first_equivalent n wq ins :
  index_ok (entries (sindex n)) -> zlen wq = kMaxWriteQueue + 16 ->
  Forall (fun x => poll_ok (i_polls x)) ins ->
  let start := mkServer n wq 0 false 0 in
  exists o1 s1 o2 s2,
    run f true 1 thread_id default_switch_qp start ins = Done (o1, s1) /\
    run f false 1 thread_id default_switch_qp start ins = Done (o2, s2) /\
    settled s1 = snode s2 /\ 0 <= write_cnt s1 < kMaxWriteQueue /\
    Forall (fun w => msg_op (kv_header w) = kEnumMultiCastPkt) (queued s1) /\
    forall q, acks q o1 ++ queue_acks q (queued s1) = acks q o2.
Proof.
  intros Hn Hl Hins start. destruct (run_both ins start start) as (o1 & s1 & o2 & s2 & E1 & E2 & [] & S & A);
    [|done|done|done|exists o1, s1, o2, s2; done].
  split; simpl; [done|unfold kMaxWriteQueue; lia|done|constructor|done|constructor].
Qed.

(** ** The data node *)
Definition rows_ok (t : ThreadLocalIndex M) : Prop :=
  forall k v, row t k = Some v -> in_width 64 (value v) /\ in_width 64 (version v).

Record data_ok n : Prop := { do_queue : del_queue_ok n; do_rows : rows_ok (pindex n) }.

Record data_request p : Prop := {
  dr_req : buffer (p_req p);
  dr_stale : buffer (p_stale p);
  dr_known : known (p_req p);
  dr_type : p_type p <> 0;
  dr_op : msg_op (p_req p) = kEnumAppendReq \/
          (msg_op (p_req p) = kEnumReadLog /\ word (p_req p) 1 <= 246) }.

(** The rows that the requests of a poll replace, as the queue holds them. *)
Fixpoint replaced (t : ThreadLocalIndex M) (ps : list polled) : list Z :=
  match ps with
  | [] => []
  | p :: ps =>
      if msg_op (p_req p) =? kEnumAppendReq then
        let pkey := word (p_req p) 0 in
        let '(old, t') := get_and_put_value_version t pkey (new_row (p_req p) thread_id (p_now p)) in
        match old with Some o => del_triple o pkey | None => [] end ++ replaced t' ps
      else replaced t ps
  end.

Lemma new_row_ok p : buffer (p_req p) ->
  in_width 64 (value (new_row (p_req p) thread_id (p_now p))) /\ in_width 64 (version (new_row (p_req p) thread_id (p_now p))).
Proof. intros [Hb _]. split; [by apply word_width|by apply wrap_range]. Qed.

Lemma rows_ok_put t k v :
  rows_ok t -> in_width 64 (value v) /\ in_width 64 (version v) -> rows_ok (get_and_put_value_version t k v).2.
Proof.
  intros Ht Hv k' v' E. rewrite row_put in E. case_decide; [|by eapply Ht]. by injection E as <-.
Qed.

Lemma serve_data_ok n p :
  data_ok n -> data_request p -> del_queue_cnt n < 64 ->
  exists o n', serve_one f thread_id n p = Done (o, n') /\ data_ok n' /\
    del_queue_cnt n <= del_queue_cnt n' <= del_queue_cnt n + 1 /\
    (forall ps, del_words n ++ replaced (pindex n) (p :: ps) = del_words n' ++ replaced (pindex n') ps).
Proof.
  intros [[Hc Hr Hl Hw] Hrows] [Hb Hs [conf Hconf] Ht Hop] H64. unfold serve_one.
  assert (Hd : del_queue_words = 192) by reflexivity.
  pose proof (buffer_prologue (p_req p) _ (start_reply_buffer p Hs)) as Hrep.
  destruct Hop as [Hop|[Hop Hcnt]].
  - destruct (append_row_ok n thread_id (p_now p) (p_req p) (reply_prologue (p_req p) (start_reply p)))
      as (r & n' & E & _ & _ & _ & _ & Hp & Hlen & Hq);
      [apply Hb|by apply buffer_room|by apply buffer_room|done|lia|].
    erewrite server_process_msg_ok; [|done|unfold process_op; rewrite Hop; simpl; exact E]. cbn [obind].
    eexists _, n'. split; [reflexivity|].
    assert (Hro : rows_ok (pindex n')) by (rewrite Hp; apply rows_ok_put; [done|by apply new_row_ok]).
    assert (Hrep' : forall ps, replaced (pindex n) (p :: ps) =
      match row (pindex n) (word (p_req p) 0) with Some o => del_triple o (word (p_req p) 0) | None => [] end ++ replaced (pindex n') ps).
    { intros ps. cbn [replaced]. rewrite Hop, Z.eqb_refl, Hp.
      pose proof (replaced_row (pindex n) (word (p_req p) 0) (new_row (p_req p) thread_id (p_now p))) as E'.
      destruct (get_and_put_value_version _ _ _) as [o t']. simpl in E'. by subst. }
    destruct (row (pindex n) (word (p_req p) 0)) as [old|] eqn:Eo; destruct Hq as [Hq1 Hq2].
    + split; [|split; [lia|intros ps; by rewrite Hrep', Hq2, <- app_assoc]]. split; [|done].
      split; [lia|lia|congruence|]. rewrite Hq2. apply Forall_app_2; [done|].
      destruct (Hrows _ _ Eo). do 2 (constructor; [done|]). constructor; [|constructor]. apply word_width, Hb.
    + split; [|split; [lia|intros ps; by rewrite Hrep', Hq2]]. split; [|done].
      split; [lia|lia|congruence|by rewrite Hq2].
  - destruct (read_log_ok n (p_version p) (p_req p) (reply_prologue (p_req p) (start_reply p))) as (r & E & _);
      [apply Hb|lia|apply buffer_room; [done|lia]|apply buffer_room; [done|lia]|].
    erewrite server_process_msg_ok; [|done|unfold process_op; rewrite Hop; simpl; exact E]. cbn [obind].
    eexists _, n. split; [reflexivity|]. split; [done|]. split; [lia|]. intros ps. cbn [replaced]. by rewrite Hop.
Qed.

Lemma receive_data_ok rf ps : forall s rc,
  data_ok (snode s) -> Forall data_request ps -> del_queue_cnt (snode s) + zlen ps <= 64 ->
  exists os n', receive f rf 0 thread_id s rc ps = Done (os, rc, with_node s n') /\ data_ok n' /\
    del_queue_cnt n' <= del_queue_cnt (snode s) + zlen ps /\
    del_words n' = del_words (snode s) ++ replaced (pindex (snode s)) ps.
Proof.
  induction ps as [|p ps IH]; intros s rc Hn Hps Hc.
  { exists [], (snode s). simpl. rewrite app_nil_r. unfold zlen; simpl. split; [by destruct s|]. split; [done|]. split; [lia|done]. }
  inversion Hps as [|? ? Hp Hps']; subst. rewrite zlen_cons in *. pose proof (zlen_nonneg ps). cbn [receive].
  rewrite (proj2 (Z.eqb_neq _ _)) by apply Hp. unfold deferred. rewrite andb_false_r. cbn [andb].
  destruct (serve_data_ok (snode s) p) as (o & n1 & -> & Hn1 & Hc1 & Hr1); [done|done|lia|]. cbn [obind].
  destruct (IH (with_node s n1) rc) as (os & n' & -> & Hn' & Hc' & Hr'); [done|done|simpl; lia|]. cbn [obind].
  exists (o :: os), n'. simpl in *. split; [done|]. split; [done|]. split; [lia|]. by rewrite Hr1, Hr'.
Qed.

(** C27. The queue of deletions never overflows, and no replaced row is forgotten: a
    turn of the data node that starts with fewer than 32 entries always succeeds and
    ends with fewer than 32; the entries it sends, in a message that fits a buffer,
    and those it keeps are the ones it had followed by the rows it replaced. *)
Theorem del_queue_bounded rf s ps buf dbuf :
  data_ok (snode s) -> del_queue_cnt (snode s) < kMaxDelQueue -> Forall data_request ps ->
  zlen ps <= kMaxWcCnt -> buffer dbuf ->
  exists os ds s', turn f rf 0 thread_id default_switch_qp s ps buf dbuf = Done (os, ds, s') /\
    data_ok (snode s') /\ del_queue_cnt (snode s') < kMaxDelQueue /\
    Forall (fun d => d.2 <= buffer_size) ds /\
    concat (map (fun d => words d.1 0 (Z.to_nat (switch_key d.1 * 3))) ds) ++ del_words (snode s') =
      del_words (snode s) ++ replaced (pindex (snode s)) ps.
Proof.
  intros Hn Hc Hps H16 Hbuf. unfold turn. set (s0 := mkServer _ _ _ _ _). unfold kMaxDelQueue, kMaxWcCnt in *.
  destruct (receive_data_ok rf ps s0 []) as (os & n1 & -> & Hn1 & Hc1 & Hr1); [done|done|simpl; lia|].
  cbn [obind]. rewrite andb_false_r. cbn [andb obind]. simpl snode in *. unfold flush_dels.
  change (0 =? 0) with true. change (0 =? 1) with false. cbn [andb].
  destruct (kMaxDelQueue <=? del_queue_cnt n1) eqn:Ef; cbn [obind].
  - destruct Hn1 as [[D1 D2 D3 D4] Hrows]. assert (Hd : del_queue_words = 192) by reflexivity.
    destruct (send_sindex_del_ok n1 0 thread_id dbuf) as (m & -> & Hk & _ & _ & Hwords);
      [lia|done|apply buffer_room; [done|lia]|done|]. cbn [obind].
    eexists _, _, _. split; [reflexivity|]. simpl snode. split.
    { split; [|done]. split; simpl; [lia|pose proof (zlen_nonneg (del_queue n1)); lia|done|constructor]. }
    split; [simpl; lia|]. split.
    { constructor; [|done]. simpl. assert (sizeof_RawKvMsg = 57) as -> by reflexivity.
      assert (buffer_size = 2048) as -> by reflexivity. lia. }
    simpl. by rewrite Hk, app_nil_r, Hwords, <- Hr1, app_nil_r.
  - unfold kMaxDelQueue in Ef. apply Z.leb_gt in Ef. eexists _, _, _. split; [reflexivity|]. simpl snode.
    split; [done|]. split; [done|]. split; [constructor|]. simpl. done.
Qed.
End laws.

(** ** Witnesses *)
Definition sample_poll (q : nat) (o : Z) (ws : list Z) : polled :=
  mkPolled q 1 (sample_msg o ws) (sample_msg 0 []) 1000 0.

Definition sample_input (ps : list polled) : input :=
  {| i_polls := ps; i_buf := fun _ => sample_msg 0 []; i_dbuf := sample_msg 0 [] |}.

Definition sample_inputs : list input :=
  [sample_input [sample_poll 0 kEnumMultiCastPkt [500; 3; 7]; sample_poll 1 kEnumReadIndexReq [500]];
   sample_input []; sample_input [sample_poll 1 kEnumUpdateIndexReq [501; 4; 8]];
   sample_input [sample_poll 0 kEnumMultiCastPkt [502; 5; 9]]].

Lemma sample_known o ws : known default_flags (sample_msg o ws).
Proof. by eexists. Qed.

Lemma sample_index_request q o ws :
  8 * zlen ws <= payload_size -> is_update (sample_msg o ws) = true \/ o = kEnumReadIndexReq ->
  index_request default_flags (sample_poll q o ws).
Proof.
  intros Hl Ho. split; [by apply sample_msg_buffer|by apply sample_msg_buffer|apply sample_known|].
  simpl. tauto.
Qed.

Lemma sample_inputs_ok : Forall (fun x => poll_ok default_flags (i_polls x)) sample_inputs.
Proof.
  assert (H1 : forall q o ws, 8 * zlen ws <= payload_size -> is_update (sample_msg o ws) = true \/ o = kEnumReadIndexReq ->
    Forall (index_request default_flags) [sample_poll q o ws]) by (intros; by apply Forall_singleton, sample_index_request).
  unfold sample_inputs. rewrite !Forall_cons, Forall_nil. unfold poll_ok, sample_input; cbn [i_polls].
  split_and!; try done; try (apply H1; [done|by left]).
  apply (Forall_app_2 _ [_] [_]); apply H1; first [done|left; reflexivity|right; reflexivity].
Qed.

Lemma read_first_equivalent_witness :
  let start := mkServer sample_node (replicate 272 (bg_write (sample_poll 0 0 []))) 0 false 0 in
  exists o1 s1 o2 s2,
    run default_flags true 1 0 0 start sample_inputs = Done (o1, s1) /\
    run default_flags false 1 0 0 start sample_inputs = Done (o2, s2) /\ settled s1 = snode s2 /\
    write_cnt s1 < kMaxWriteQueue.
Proof.
  destruct (read_first_equivalent default_flags 0 0 sample_node (replicate 272 (bg_write (sample_poll 0 0 []))) sample_inputs)
    as (o1 & s1 & o2 & s2 & E1 & E2 & E3 & E4 & _); [exact sample_tree_ok|reflexivity|exact sample_inputs_ok|].
  exists o1, s1, o2, s2. split; [exact E1|]. split; [exact E2|]. split; [exact E3|]. apply E4.
Defined.

(** The first turn leaves its multicast packet in the queue. *)
Example deferral_happens :
  exists o s, run (M := gmap Z) (T := gmap (list Z) Z) default_flags true 1 0 0
    (mkServer sample_node (replicate 272 (bg_write (sample_poll 0 0 []))) 0 false 0) (take 1 sample_inputs) = Done (o, s) /\
    write_cnt s = 1 /\ length o = 1%nat.
Proof. vm_compute. eexists _, _. done. Qed.

Definition sample_data_server : server (gmap Z) (gmap (list Z) Z) :=
  mkServer (mkNode {| table2 := ∅; table3 := {[7 := {| value := 500; version := 3 |}]} |} ∅ (replicate 192 0) 31 0) [] 0 false 0.

Lemma sample_data_ok : data_ok (snode sample_data_server).
Proof.
  split; [split|]; [done|done|done| |].
  - by apply Forall_take, Forall_replicate.
  - intros k v Hv. unfold row in Hv. simpl in Hv. apply lookup_singleton_Some in Hv as [<- <-]. done.
Qed.

Lemma del_queue_bounded_witness :
  exists os ds s', turn default_flags false 0 0 0 sample_data_server [sample_poll 0 kEnumAppendReq [7; 501]]
      (fun _ => sample_msg 0 []) (sample_msg 0 []) = Done (os, ds, s') /\
    del_queue_cnt (snode s') < kMaxDelQueue.
Proof.
  destruct (del_queue_bounded default_flags 0 0 false sample_data_server [sample_poll 0 kEnumAppendReq [7; 501]]
    (fun _ => sample_msg 0 []) (sample_msg 0 [])) as (os & ds & s' & E & _ & Hc & _).
  - exact sample_data_ok.
  - done.
  - constructor; [|constructor]. split; [by apply sample_msg_buffer|by apply sample_msg_buffer|apply sample_known|done|by left].
  - done.
  - by apply sample_msg_buffer.
  - exists os, ds, s'. split; [exact E|exact Hc].
Defined.
End SecondaryLoop.
