(* ===== verification/SecondaryClientModel.v ===== *)
(** * The client of the secondary index

    Module [SecondaryClient]: the coroutines of apps/kv/secondary_index.cc, as state
    machines like those of [KvClient]: si_test writes a row and then its index
    entry, or reads the primary keys of a value and then keeps those whose row has
    it.  A coroutine suspends in post_appended_smsg and goes on with the reply. *)

From S2P Require Import Prelude KvMessageModel KvServerModel KvClientModel SecondaryModel.
Import KvMessage.

Module SecondaryClient.
Import Secondary.

(** struct KvCtx: the fields the operations use. *)
Record KvCtx := mkCtx {
  test : Z;
  coro : Z;
  ckey : Z;
  data_s_id : Z;
  index_s_id : Z;
  cmagic : Z;
  long_key : Z;
  long_value_read : Z;
  long_value_write : Z;
  clog_id : Z;
  index_in_switch : bool;
  read_ok : bool }.

Record client := mkClient {
  cflags : flags;
  FLAGS_secondary_test : bool;
  server_id : Z;
  thread_id : Z }.

Definition kIBitmap : Z := 2.
Definition kInitInsert : Z := 3 * 2 ^ 20.

(** What rpc_get_qp is asked for, and the message with its size. *)
Record request := mkReq { to_server : Z; to_thread : Z; rmsg : RawKvMsg; rsize : Z }.

Inductive phase := InPutPrimary | InPutSecondary | InGetSecondary | InGetSecondary2 | InGetPrimary.

(** [Waiting] without a request waits for another reply to the last one. *)
Inductive progress :=
  | Waiting (x : KvCtx) (p : phase) (r : option request)
  | Finished (x : KvCtx) (reply : RawKvMsg).

Section ops.
Context (c : client).
Let f := cflags c.

Definition qp_of (x : KvCtx) : Z := coro x mod KvClient.kConfigMaxQPCnt.
Definition vis_flag : Z := if FLAGS_visibility f then visibility else 0.
Definition route : Z := wrap 16 (Z.lor kIBitmap (Z.shiftl 1 (server_id c))).
Definition header (dst o : Z) (x : KvCtx) : RpcHeader :=
  mkHeader dst (server_id c) (thread_id c) (coro x) 0 o 0.
Definition port (tid : Z) (x : KvCtx) : Z := toBigEndian16 (KvClient.get_thread_port tid (qp_of x)).
Definition gid : Z := wrap 8 (KvClient.compute_gid (server_id c) (thread_id c)).
Definition index_tid (x : KvCtx) : Z := get_index_thread_id f (ckey x).

(** In each request [m] is the send buffer. *)
Definition get_secondary_req (x : KvCtx) (m : RawKvMsg) : outcome request :=
  let! conf := of_option OutOfBounds (zget (server_config f) (server_id c)) in
  let m := mkMsg (header get_index_server_id kEnumReadIndexReq x) vis_flag
    (get_switch_key (long_value_read x)) (kv_g_id m) (kv_c_id m) (magic m) (server_map m) (qp_map m)
    (coro_id m) (get_fingerprint (long_value_read x)) (log_id m) (toBigEndian16 (port_id conf)) route
    (port (thread_id c) x) (send_cnt m) (port (index_tid x) x) (magic_in_switch m) (timestamp m) (payload m) in
  let! m := put_word m 0 (long_value_read x) in
  Done (mkReq (index_s_id x) (index_tid x) m (multiple_args_size 8 1)).

Definition get_primary_req (x : KvCtx) (reply m : RawKvMsg) : outcome request :=
  let! cnt := get_word reply 0 in
  let m := mkMsg (header (data_s_id x) kEnumReadLog x) vis_flag
    (get_switch_key (long_value_read x)) gid (coro x) (magic m) (server_map m) (qp_map m)
    (coro_id m) (wrap 32 (ckey x)) (clog_id x) (route_port m) (route_map m)
    (client_port m) (send_cnt m) (port (index_tid x) x) (magic_in_switch m) (timestamp m) (payload m) in
  let! m := put_word m 0 (long_value_read x) in
  let! m := put_word m 1 cnt in
  let! pkeys := get_bytes reply (kKeySize * 1) (8 * cnt) in
  let! m := put_bytes m (kKeySize * 2) pkeys in
  Done (mkReq (data_s_id x) (wrap 8 (logid_2_threadid f (clog_id x))) m
          (multiple_args_size 8 (wrap 64 (2 + cnt)))).

Definition put_secondary_req (x : KvCtx) (reply m : RawKvMsg) : outcome request :=
  let m := mkMsg (header (index_s_id x) kEnumUpdateIndexReq x) vis_flag
    (get_switch_key (long_key x)) (kv_g_id m) (kv_c_id m) (cmagic x) (server_map m) (qp_map m)
    (coro_id m) (wrap 32 (ckey x)) (clog_id x) (route_port m) route
    (port (thread_id c) x) (send_cnt m) (port (index_tid x) x) (magic_in_switch m) (timestamp m) (payload m) in
  let! m := put_word m 0 (long_value_write x) in
  let! ver := get_word reply 0 in
  let! m := put_word m 1 ver in
  let! m := put_word m 2 (long_key x) in
  Done (mkReq (index_s_id x) (index_tid x) m (multiple_args_size 8 3)).

Definition put_primary_req (x : KvCtx) (m : RawKvMsg) : outcome request :=
  let m := mkMsg (header (data_s_id x) kEnumAppendReq x) vis_flag
    (get_switch_key (long_key x)) gid (coro x) (cmagic x) (server_map m) (qp_map m)
    (coro_id m) (wrap 32 (ckey x)) (log_id m) (route_port m) route
    (port (thread_id c) x) (send_cnt m) (port (index_tid x) x) (magic_in_switch m) (timestamp m) (payload m) in
  let! m := put_word m 0 (long_key x) in
  let! m := put_word m 1 (long_value_write x) in
  Done (mkReq (data_s_id x) (get_data_thread_id_by_load f (thread_id c) (coro x)) m
          (multiple_args_size kKeySize 2)).

Definition put_primary_done (x : KvCtx) (reply : RawKvMsg) : outcome KvCtx :=
  if key reply =? ckey x then Done x else Fault ProcessExit.

Definition multicast (reply : RawKvMsg) : bool := FLAGS_visibility f && (msg_op reply =? kEnumMultiCastPkt).

Definition put_secondary_done (x : KvCtx) (reply : RawKvMsg) : outcome KvCtx :=
  if negb (key reply =? ckey x) then Fault ProcessExit
  else if negb (src_t_id (rpc_header reply) =? thread_id c) then Fault ProcessExit
  else if multicast reply then Done x
  else if msg_op reply =? kEnumUpdateIndexReply then Done x
  else Fault ProcessExit.

Definition get_primary_done (x : KvCtx) (reply : RawKvMsg) : outcome KvCtx :=
  if msg_op reply =? kEnumReadReply then Done x else Fault ProcessExit.

Definition in_switch (x : KvCtx) : KvCtx :=
  mkCtx (test x) (coro x) (ckey x) (data_s_id x) (index_s_id x) (cmagic x) (long_key x) (long_value_read x)
    (long_value_write x) (clog_id x) true (read_ok x).

(** *** si_test *)
Definition begin_op (x : KvCtx) (t : Z) : KvCtx :=
  mkCtx t (coro x) (get_fingerprint (long_key x)) get_data_server_id get_index_server_id
    (KvClient.new_magic (cmagic x)) (long_key x) (long_value_read x) (long_value_write x) (clog_id x) false true.

(** The first kInitInsert operations of a thread are writes. *)
Definition warm_up (t warmup_insert : Z) : Z * Z :=
  if warmup_insert <? kInitInsert then (Z.lor t 1, warmup_insert + 1) else (t, warmup_insert).

Definition si_test_start (x : KvCtx) (t warmup_insert : Z) (m : RawKvMsg) : outcome (progress * Z) :=
  let '(t, w) := warm_up t warmup_insert in
  let x := begin_op x t in
  if t =? kEnumSW then let! r := put_primary_req x m in Done (Waiting x InPutPrimary (Some r), w)
  else if t =? kEnumSRS then let! r := get_secondary_req x m in Done (Waiting x InGetSecondary (Some r), w)
  else Fault ProcessExit.

Definition read_rows (x : KvCtx) (reply m : RawKvMsg) : outcome progress :=
  let! r := get_primary_req x reply m in Done (Waiting x InGetPrimary (Some r)).

Definition si_test_resume (x : KvCtx) (p : phase) (reply m : RawKvMsg) : outcome progress :=
  match p with
  | InPutPrimary =>
      let! x := put_primary_done x reply in
      if multicast reply then Done (Finished x reply)
      else let! r := put_secondary_req x reply m in Done (Waiting x InPutSecondary (Some r))
  | InPutSecondary => let! x := put_secondary_done x reply in Done (Finished x reply)
  | InGetSecondary =>
      if msg_op reply =? kEnumReadIndexReq then
        let x := in_switch x in
        if FLAGS_secondary_test c then Done (Waiting x InGetSecondary2 None) else read_rows x reply m
      else read_rows x reply m
  | InGetSecondary2 => read_rows x reply m
  | InGetPrimary => let! x := get_primary_done x reply in Done (Finished x reply)
  end.

(** *** Flow control *)
Definition kMaxCurrentIndexReq : Z := 1024.

(** cworker_new_request: whether the worker asks the switch instead of starting. *)
Definition throttled (index_buf_cnt : list Z) (x : KvCtx) : outcome bool :=
  let! cnt := load index_buf_cnt (get_index_thread_id_by_load f (thread_id c) (coro x)) in
  Done (kMaxCurrentIndexReq <? cnt).

(** after_process_reply: index_buf_cnt has 24 entries and the port of a thread is a
    multiple of 256. *)
Definition after_process_reply (index_buf_cnt : list Z) (reply : RawKvMsg) : outcome (list Z) :=
  if FLAGS_visibility f then
    store index_buf_cnt (Z.log2 (toBigEndian16 (index_port reply))) (toBigEndian16 (send_cnt reply))
  else Done index_buf_cnt.

(** check_req_cnt: the message goes to the client's own port. *)
Definition check_req_cnt_req (x : KvCtx) (m : RawKvMsg) : request :=
  let tid := get_index_thread_id_by_load f (thread_id c) (coro x) in
  mkReq 0 (thread_id c)
    (mkMsg (header (server_id c) kEnumReadSend x) 0 (switch_key m) (kv_g_id m) (kv_c_id m) (magic m)
       (server_map m) (qp_map m) (coro_id m) 1 (log_id m) (route_port m) (route_map m) (client_port m) 0
       (toBigEndian16 (KvClient.get_thread_port tid 0)) (magic_in_switch m) (timestamp m) (payload m))
    sizeof_RawKvMsg.

Definition check_req_cnt_done (reply : RawKvMsg) : outcome unit :=
  if msg_op reply =? kEnumReadSend then Done tt else Fault ProcessExit.
End ops.
End SecondaryClient.
