(* ===== verification/SecondarySystemModel.v ===== *)
(** * Clients, data node and index node of the secondary index

    Module [SecondarySystem]: the coroutines of [SecondaryClient] and the threads of
    [Secondary], each request and reply a message on the wire.  A message arrives
    with its first bytes in a buffer that keeps its other bytes; messages of
    different coroutines overtake each other.  No packet is answered or copied by a
    switch.  [inv] is the invariant: the primary keys that the index holds, or that
    travel in an update, an answer or a request for rows, all have rows. *)

From stdpp Require Import functions.
From S2P Require Import Prelude KvMessageModel SecondaryModel SecondaryNodeModel SecondaryClientModel SecondaryLoopModel.
Import KvMessage.

Module SecondarySystem.
Import Secondary SecondaryNode SecondaryClient SecondaryLoop.

Inductive cstate :=
  | Idle (x : KvCtx)
  | Sent (x : KvCtx) (p : phase) (r : request)
  | Got (x : KvCtx) (p : phase) (reply : RawKvMsg).

Section system.
Context {M : Type -> Type} `{CM : CuckooLaws M} {T : Type} `{ST : StringIndexLaws T}.
Context (f : flags) (clients : nat -> client).

(** The tables are shared by the threads of a node; queues of deletions and the
    largest deleted version are per thread. *)
Record sys := mkSys {
  rows : ThreadLocalIndex M;
  tree : T;
  queues : Z -> list Z * Z;
  maxdel : Z -> Z;
  dmsgs : list RawKvMsg;
  coros : nat -> cstate }.

Definition thread_node (s : sys) (tid : Z) : node M T :=
  mkNode (rows s) (tree s) (queues s tid).1 (queues s tid).2 (maxdel s tid).

(** A thread has handled a message: [data] tells of which node. *)
Definition after (s : sys) (data : bool) (tid : Z) (n : node M T) (cs : nat -> cstate) : sys :=
  if data then mkSys (pindex n) (tree s) (<[tid := (del_queue n, del_queue_cnt n)]> (queues s)) (maxdel s) (dmsgs s) cs
  else mkSys (rows s) (sindex n) (queues s) (<[tid := local_max_del_timestamp n]> (maxdel s)) (dmsgs s) cs.

Definition with_coros (s : sys) (cs : nat -> cstate) : sys :=
  mkSys (rows s) (tree s) (queues s) (maxdel s) (dmsgs s) cs.

Definition resample (x : KvCtx) (lk lr lw : Z) : KvCtx :=
  mkCtx (test x) (coro x) (ckey x) (data_s_id x) (index_s_id x) (cmagic x) lk lr lw (clog_id x)
    (index_in_switch x) (read_ok x).

Definition suspended (pr : progress) : option cstate :=
  match pr with
  | Waiting x p (Some r) => Some (Sent x p r)
  | Waiting x p None => None
  | Finished x _ => Some (Idle x)
  end.

Definition stale_ok (m : RawKvMsg) (stale : list Z) : Prop := buffer (with_payload m stale).

Inductive step (s : sys) : sys -> Prop :=
  | s_start i x lk lr lw t w m pr w' c :
      coros s i = Idle x -> in_width 64 lk -> in_width 64 lr -> in_width 64 lw -> buffer m ->
      t = kEnumSRS \/ t = kEnumSW ->
      si_test_start (clients i) (resample x lk lr lw) t w m = Done (pr, w') ->
      suspended pr = Some c -> step s (with_coros s (<[i := c]> (coros s)))
  | s_serve i x p r tid now sv recv m back reply n size :
      coros s i = Sent x p r -> buffer m -> stale_ok m recv -> stale_ok m back ->
      (to_server r = get_data_server_id -> (queues s tid).2 < 64) ->
      server_process_msg f (thread_node s tid) tid now sv (deliver (rsize r) (rmsg r) recv) m = Done (reply, n, size) ->
      step s (after s (to_server r =? get_data_server_id) tid n
                (<[i := Got x p (deliver size reply back)]> (coros s)))
  | s_resume i x p reply m pr c :
      coros s i = Got x p reply -> buffer m ->
      si_test_resume (clients i) x p reply m = Done pr -> suspended pr = Some c ->
      step s (with_coros s (<[i := c]> (coros s)))
  | s_send_del tid sid m recv d size :
      (queues s tid).2 < 64 -> buffer m -> stale_ok m recv ->
      send_sindex_del (thread_node s tid) sid tid m = Done (d, size) ->
      step s (mkSys (rows s) (tree s) (<[tid := ((queues s tid).1, 0)]> (queues s)) (maxdel s)
                (deliver size d recv :: dmsgs s) (coros s))
  | s_recv_del d tid n :
      d ∈ dmsgs s -> process_sindex_del (thread_node s tid) d = Done n ->
      step s (after s false tid n (coros s)).

Definition start_sys (x : nat -> KvCtx) (t : T) (dq : Z -> list Z) (d0 : Z) : sys :=
  mkSys new_index t (fun tid => (dq tid, 0)) (fun _ => d0) [] (fun i => Idle (x i)).

Inductive reachable (s0 : sys) : sys -> Prop :=
  | r_start : reachable s0 s0
  | r_step s s' : reachable s0 s -> step s s' -> reachable s0 s'.

(** ** The invariant *)
Definition has_row (t : ThreadLocalIndex M) (k : Z) : Prop := is_Some (row t k).

Definition grows (t t' : ThreadLocalIndex M) : Prop := forall k, has_row t k -> has_row t' k.

Definition tree_ok (t : ThreadLocalIndex M) (m : gmap (list Z) Z) : Prop :=
  index_ok m /\ map_Forall (fun _ v => has_row t v) m.

Record ctx_ok (x : KvCtx) : Prop := {
  cx_key : in_width 64 (long_key x);
  cx_read : in_width 64 (long_value_read x);
  cx_write : in_width 64 (long_value_write x) }.

(** A coroutine in the middle of an operation. *)
Record busy (x : KvCtx) : Prop := {
  by_ctx : ctx_ok x;
  by_key : ckey x = get_fingerprint (long_key x);
  by_data : data_s_id x = get_data_server_id;
  by_index : index_s_id x = get_index_server_id }.

Record request_ok (t : ThreadLocalIndex M) (c : client) (x : KvCtx) (p : phase) (r : request) : Prop := {
  rq_buffer : buffer (rmsg r);
  rq_src : src_s_id (rpc_header (rmsg r)) = server_id c;
  rq_thread : src_t_id (rpc_header (rmsg r)) = thread_id c;
  rq_phase : match p with
    | InPutPrimary => to_server r = get_data_server_id /\ msg_op (rmsg r) = kEnumAppendReq /\
        key (rmsg r) = ckey x /\ word (rmsg r) 0 = long_key x /\ rsize r = multiple_args_size 8 2
    | InPutSecondary => to_server r = get_index_server_id /\ msg_op (rmsg r) = kEnumUpdateIndexReq /\
        key (rmsg r) = ckey x /\ word (rmsg r) 2 = long_key x /\ has_row t (long_key x) /\
        rsize r = multiple_args_size 8 3
    | InGetSecondary => to_server r = get_index_server_id /\ msg_op (rmsg r) = kEnumReadIndexReq /\
        word (rmsg r) 0 = long_value_read x /\ rsize r = multiple_args_size 8 1
    | InGetSecondary2 => False
    | InGetPrimary => to_server r = get_data_server_id /\ msg_op (rmsg r) = kEnumReadLog /\
        word (rmsg r) 0 = long_value_read x /\ word (rmsg r) 1 <= 10 /\
        Forall (has_row t) (req_pkeys (rmsg r)) /\ rsize r = multiple_args_size 8 (2 + word (rmsg r) 1)
    end }.

Record reply_ok (t : ThreadLocalIndex M) (c : client) (x : KvCtx) (p : phase) (m : RawKvMsg) : Prop := {
  rp_buffer : buffer m;
  rp_phase : match p with
    | InPutPrimary => msg_op m = kEnumAppendReply /\ key m = ckey x /\ has_row t (long_key x)
    | InPutSecondary => msg_op m = kEnumUpdateIndexReply /\ key m = ckey x /\ src_t_id (rpc_header m) = thread_id c
    | InGetSecondary => msg_op m = kEnumReadIndexReply /\ word m 0 <= 10 /\
        Forall (has_row t) (words m 1 (Z.to_nat (word m 0)))
    | InGetSecondary2 => False
    | InGetPrimary => msg_op m = kEnumReadReply
    end }.

Definition coro_ok (t : ThreadLocalIndex M) (c : client) (cs : cstate) : Prop :=
  match cs with
  | Idle x => True
  | Sent x p r => busy x /\ request_ok t c x p r
  | Got x p m => busy x /\ reply_ok t c x p m
  end.

Definition queue_ok (q : list Z * Z) : Prop :=
  0 <= q.2 /\ q.2 * 3 <= zlen q.1 /\ zlen q.1 = del_queue_words /\
  Forall (in_width 64) (take (Z.to_nat (q.2 * 3)) q.1).

Record inv (s : sys) : Prop := {
  in_rows : rows_ok (rows s);
  in_tree : tree_ok (rows s) (entries (tree s));
  in_queues : forall tid, queue_ok (queues s tid);
  in_dels : Forall (fun d => buffer d /\ 0 <= switch_key d <= 82) (dmsgs s);
  in_coros : forall i, coro_ok (rows s) (clients i) (coros s i) }.

(** What the clients are: servers the nodes know, with the flags of the nodes. *)
Definition client_ok (c : client) : Prop :=
  cflags c = f /\ is_Some (zget (server_config f) (server_id c)).

Implicit Types (s : sys).

Lemma index_server_ne : get_index_server_id <> get_data_server_id.
Proof. done. Qed.

(** ** Rows stay *)
Lemma rows_grow_refl t : grows t t.
Proof. by intros k. Qed.

Lemma grows_put t k v : grows t (get_and_put_value_version t k v).2.
Proof. intros k' Hk. unfold has_row. rewrite row_put. by case_decide; [eexists|]. Qed.

Lemma has_row_put t k v : has_row (get_and_put_value_version t k v).2 k.
Proof. unfold has_row. rewrite row_put, decide_True by done. by eexists. Qed.

Lemma Forall_grows t t' l : grows t t' -> Forall (has_row t) l -> Forall (has_row t') l.
Proof. intros Hg Hl. eapply Forall_impl; [exact Hl|exact Hg]. Qed.

Lemma tree_ok_grows t t' m : grows t t' -> tree_ok t m -> tree_ok t' m.
Proof. intros Hg [Hi Hm]. split; [done|]. intros k v Hk. apply Hg. by eapply Hm. Qed.

Lemma coro_ok_grows t t' c cs : grows t t' -> coro_ok t c cs -> coro_ok t' c cs.
Proof.
  intros Hg. destruct cs as [x|x p r|x p m]; [done| |].
  - intros [Hb [H1 H2 H3 H4]]. split; [done|]. split; try done. destruct p; try done.
    + naive_solver.
    + destruct H4 as (?&?&?&?&?&?). do 4 (split; [done|]). split; [by eapply Forall_grows|done].
  - intros [Hb [H1 H2]]. split; [done|]. split; [done|]. destruct p; try done.
    + naive_solver.
    + destruct H2 as (?&?&?). do 2 (split; [done|]). by eapply Forall_grows.
Qed.

(** ** Requests *)
Lemma put_word_step m i v : buffer m -> 0 <= i < 248 -> in_width 64 v ->
  exists m', put_word m i v = Done m' /\ buffer m' /\ edited m m' /\ word m' i = v /\
    forall j, 0 <= j -> j <> i -> word m' j = word m j.
Proof.
  intros Hb Hi Hv. destruct (put_word_spec m i v) as (m' & E & Ed & W & N); [lia|apply buffer_room; [done|lia]|done|].
  exists m'. split; [done|]. split; [by eapply buffer_edited|]. done.
Qed.

Lemma buffer_fields h fl sk g kc mg sm qm co k l rp rm cp sc ip ms ts m :
  buffer m -> buffer (mkMsg h fl sk g kc mg sm qm co k l rp rm cp sc ip ms ts (payload m)).
Proof. by intros []. Qed.

Lemma edited_header m m' : edited m m' -> rpc_header m' = rpc_header m /\ key m' = key m.
Proof. intros [-> _ _]. done. Qed.

Ltac next_word m :=
  match goal with |- context [put_word ?a ?i ?v] =>
    let E := fresh "E" in let B := fresh "B" in let Ed := fresh "Ed" in let W := fresh "W" in let N := fresh "N" in
    destruct (put_word_step a i v) as (m & E & B & Ed & W & N);
      [first [done|by apply buffer_fields]|lia| |rewrite E; cbn [obind]; apply edited_header in Ed as [? ?]]
  end.

(** The header and the key of an edited message are those it was made with. *)
Ltac headers :=
  unfold msg_op; repeat match goal with
  | E : rpc_header ?a = _ |- context [rpc_header ?a] => rewrite E
  | E : key ?a = _ |- context [key ?a] => rewrite E
  end; cbn [rpc_header key op src_s_id src_t_id].

Lemma ckey_small x : busy x -> wrap 32 (ckey x) = ckey x.
Proof.
  intros [_ E _ _]. pose proof (fingerprint_range (long_key x)). rewrite E. apply wrap_small. unfold in_width. lia.
Qed.

Lemma put_primary_req_ok t c x m :
  busy x -> buffer m -> exists r, put_primary_req c x m = Done r /\ request_ok t c x InPutPrimary r.
Proof.
  intros Hb Hm. destruct (by_ctx x Hb) as [Hk Hr Hw]. unfold put_primary_req.
  next_word m1; [done|]. next_word m2; [done|]. eexists. split; [reflexivity|].
  split; cbn [rmsg to_server rsize]; [done|by headers|by headers|].
  split; [apply Hb|]. split; [by headers|]. split; [headers; by apply ckey_small|]. split; [by rewrite N0|done].
Qed.

Lemma get_secondary_req_ok t c x m :
  busy x -> client_ok c -> buffer m -> exists r, get_secondary_req c x m = Done r /\ request_ok t c x InGetSecondary r.
Proof.
  intros Hb [<- [conf Hc]] Hm. destruct (by_ctx x Hb) as [Hk Hr Hw]. unfold get_secondary_req. rewrite Hc. cbn [of_option obind].
  next_word m1; [done|]. eexists. split; [reflexivity|].
  split; cbn [rmsg to_server rsize]; [done|by headers|by headers|].
  split; [apply Hb|]. split; [by headers|]. done.
Qed.

Lemma put_secondary_req_ok t c x reply m :
  busy x -> buffer m -> buffer reply -> has_row t (long_key x) ->
  exists r, put_secondary_req c x reply m = Done r /\ request_ok t c x InPutSecondary r.
Proof.
  intros Hb Hm Hrep Hrow. destruct (by_ctx x Hb) as [Hk Hr Hw]. unfold put_secondary_req.
  next_word m1; [done|]. rewrite get_word_done by (lia || by apply buffer_room). cbn [obind].
  next_word m2; [apply word_width, Hrep|]. next_word m3; [done|]. eexists. split; [reflexivity|].
  split; cbn [rmsg to_server rsize]; [done|by headers|by headers|].
  split; [apply Hb|]. split; [by headers|]. split; [headers; by apply ckey_small|]. done.
Qed.


(** Words copied from one message into another. *)
Lemma put_words_copied src m i j k :
  buffer src -> buffer m -> 0 <= i -> 0 <= j -> i + Z.of_nat k <= 248 -> j + Z.of_nat k <= 248 ->
  exists bs m', get_bytes src (kKeySize * i) (8 * Z.of_nat k) = Done bs /\
    put_bytes m (kKeySize * j) bs = Done m' /\ buffer m' /\ edited m m' /\
    words m' j k = words src i k /\ forall l, 0 <= l < j -> word m' l = word m l.
Proof.
  intros Hs Hm Hi Hj Hik Hjk. pose proof (buffer_room src (i + Z.of_nat k) Hs Hik) as R1.
  pose proof (buffer_room m (j + Z.of_nat k) Hm Hjk) as R2.
  rewrite get_bytes_done by room_lia. eexists. set (bs := take _ _).
  assert (Hl : length bs = (8 * k)%nat).
  { unfold bs, room, kKeySize, zlen in *. rewrite length_take, length_drop. lia. }
  destruct (put_bytes_spec m (kKeySize * j) bs) as (m' & E & Ed & P);
    [room_lia|unfold zlen at 1; rewrite Hl; room_lia|apply Forall_take, Forall_drop, Hs|].
  exists m'. do 2 (split; [done|]). split; [by eapply buffer_edited|]. split; [done|].
  unfold room, kKeySize, zlen in *. split.
  - assert (Hw : forall a : nat, (a < k)%nat -> word m' (j + Z.of_nat a) = word src (i + Z.of_nat a)).
    { intros a Ha. unfold word, kKeySize. f_equal. rewrite P. apply list_eq. intros b. rewrite !lookup_take. case_decide; [|done].
      rewrite !lookup_drop, blit_lookup by lia. rewrite decide_True by lia. unfold bs, kKeySize.
      rewrite lookup_take, decide_True by lia. rewrite lookup_drop. f_equal. lia. }
    clear -Hw. revert i j Hw. induction k as [|k IH]; intros i j Hw; [done|]. cbn [words]. f_equal.
    + specialize (Hw 0%nat ltac:(lia)). by rewrite !Z.add_0_r in Hw.
    + apply IH. intros a Ha. specialize (Hw (S a) ltac:(lia)).
      by replace (i + 1 + Z.of_nat a) with (i + Z.of_nat (S a)) by lia; replace (j + 1 + Z.of_nat a) with (j + Z.of_nat (S a)) by lia.
  - intros l Hl'. unfold word, kKeySize. rewrite P. f_equal. apply blit_slice_ne; lia.
Qed.

Lemma get_primary_req_ok t c x reply m :
  busy x -> buffer m -> buffer reply -> word reply 0 <= 10 ->
  Forall (has_row t) (words reply 1 (Z.to_nat (word reply 0))) ->
  exists r, get_primary_req c x reply m = Done r /\ request_ok t c x InGetPrimary r /\
    req_pkeys (rmsg r) = words reply 1 (Z.to_nat (word reply 0)).
Proof.
  intros Hb Hm Hrep Hcnt Hrows. destruct (by_ctx x Hb) as [Hk Hr Hw]. unfold get_primary_req.
  pose proof (word_width reply 0 (buf_bytes _ Hrep)) as [Hc0 _].
  rewrite get_word_done by (lia || by apply buffer_room). cbn [obind].
  next_word m1; [done|]. next_word m2; [by apply word_width, Hrep|].
  destruct (put_words_copied reply m2 1 2 (Z.to_nat (word reply 0))) as (bs & m3 & E3 & E4 & B4 & Ed4 & W4 & N4); [done|done|lia..|].
  rewrite Z2Nat.id in E3 by lia. rewrite E3. cbn [obind]. rewrite E4. cbn [obind]. apply edited_header in Ed4 as [? ?].
  eexists. split; [reflexivity|].
  assert (Hp : req_pkeys m3 = words reply 1 (Z.to_nat (word reply 0))).
  { unfold req_pkeys. by rewrite N4, W0 by lia. }
  split; [|exact Hp].
  split; cbn [rmsg to_server rsize]; [done|by headers|by headers|].
  split; [apply Hb|]. split; [by headers|]. split; [rewrite N4, N0 by lia; done|].
  rewrite N4, W0 by lia. split; [done|]. split; [by rewrite Hp|]. f_equal. apply wrap_small. unfold in_width. lia.
Qed.

(** ** Starting and resuming *)
Lemma busy_begin x t :
  in_width 64 (long_key x) -> in_width 64 (long_value_read x) -> in_width 64 (long_value_write x) -> busy (begin_op x t).
Proof. by split. Qed.

Lemma warm_up_op t w : t = kEnumSRS \/ t = kEnumSW ->
  (warm_up t w).1 = kEnumSRS \/ (warm_up t w).1 = kEnumSW.
Proof. unfold warm_up. destruct (_ <? _); [|done]. intros [->| ->]; by right. Qed.

Lemma si_test_start_ok tb c x t w m :
  in_width 64 (long_key x) -> in_width 64 (long_value_read x) -> in_width 64 (long_value_write x) ->
  client_ok c -> buffer m -> t = kEnumSRS \/ t = kEnumSW ->
  exists x' p r w', si_test_start c x t w m = Done (Waiting x' p (Some r), w') /\ busy x' /\ request_ok tb c x' p r.
Proof.
  intros Hk Hr Hw Hc Hm Ht. unfold si_test_start. pose proof (warm_up_op t w Ht) as Ht'.
  destruct (warm_up t w) as [t' w']. simpl in Ht'. pose proof (busy_begin x t' Hk Hr Hw) as Hb.
  destruct Ht' as [-> | ->]; cbn [Z.eqb kEnumSRS kEnumSW Pos.eqb].
  - destruct (get_secondary_req_ok tb c (begin_op x kEnumSRS) m Hb Hc Hm) as (r & E & H1).
    unfold kEnumSRS in *. rewrite E. cbn [obind]. by eexists _, _, _, _.
  - destruct (put_primary_req_ok tb c (begin_op x kEnumSW) m Hb Hm) as (r & E & H1).
    unfold kEnumSW in *. rewrite E. cbn [obind]. by eexists _, _, _, _.
Qed.

Lemma si_test_resume_ok tb c x p reply m :
  busy x -> reply_ok tb c x p reply -> buffer m ->
  exists pr cs, si_test_resume c x p reply m = Done pr /\ suspended pr = Some cs /\ coro_ok tb c cs.
Proof.
  intros Hb [Hrep Hp] Hm. destruct p; cbn [si_test_resume] in *; [| | |done|].
  - destruct Hp as (Ho & Hkey & Hrow). unfold put_primary_done. rewrite Hkey, Z.eqb_refl. cbn [obind].
    unfold multicast. rewrite Ho. rewrite andb_false_r.
    destruct (put_secondary_req_ok tb c x reply m Hb Hm Hrep Hrow) as (r & -> & Hr). cbn [obind].
    eexists _, _. split; [reflexivity|]. by split.
  - destruct Hp as (Ho & Hkey & Hth). unfold put_secondary_done. rewrite Hkey, Z.eqb_refl, Hth, Z.eqb_refl. cbn [negb].
    unfold multicast. rewrite Ho, andb_false_r, Z.eqb_refl. cbn [obind]. eexists _, _. by split.
  - destruct Hp as (Ho & Hc & Hrows). rewrite Ho. cbn [Z.eqb kEnumReadIndexReply kEnumReadIndexReq Pos.eqb]. unfold read_rows.
    destruct (get_primary_req_ok tb c x reply m Hb Hm Hrep Hc Hrows) as (r & -> & Hr & _). cbn [obind].
    eexists _, _. split; [reflexivity|]. by split.
  - unfold get_primary_done. rewrite Hp, Z.eqb_refl. cbn [obind]. eexists _, _. by split.
Qed.

(** ** Serving *)
Lemma stale_ok_any m m' stale : stale_ok m stale -> stale_ok m' stale.
Proof. intros [? ?]. by split. Qed.

Lemma sent_buffer r recv m : buffer (rmsg r) -> stale_ok m recv -> buffer (deliver (rsize r) (rmsg r) recv).
Proof. intros Hr Hs. apply buffer_deliver; [done|by eapply stale_ok_any]. Qed.

Lemma buffer_payload m m' : payload m' = payload m -> buffer m -> buffer m'.
Proof. intros E [? ?]. by split; rewrite E. Qed.

Lemma answer_buffer req m r port :
  buffer m -> edited (reply_prologue req m) r -> buffer (reply_epilogue req r port).
Proof.
  intros Hm Hed. apply (buffer_payload r); [done|]. apply (buffer_edited _ _ Hed). by apply buffer_prologue.
Qed.

Lemma answer_buffer_op req m r o port :
  buffer m -> edited (reply_prologue req m) r -> buffer (reply_epilogue req (with_op r o) port).
Proof. intros Hm Hed. apply (buffer_payload (reply_epilogue req r port)); [done|]. by eapply answer_buffer. Qed.

Lemma back_word size m back i :
  buffer m -> stale_ok m back -> 0 <= i < 248 -> sizeof_RawKvMsg + 8 * (i + 1) <= size ->
  word (deliver size m back) i = word m i.
Proof.
  intros Hm Hs Hi Hsz. apply word_deliver; [|lia|done|apply buffer_room; [done|lia]].
  destruct Hs as [_ L], Hm as [_ L']. simpl in L. congruence.
Qed.

Lemma back_words size m back i k :
  buffer m -> stale_ok m back -> 0 <= i -> i + Z.of_nat k <= 248 -> sizeof_RawKvMsg + 8 * (i + Z.of_nat k) <= size ->
  words (deliver size m back) i k = words m i k.
Proof.
  intros Hm Hs Hi Hk Hsz. apply words_deliver; [|lia|done|apply buffer_room; [done|lia]].
  destruct Hs as [_ L], Hm as [_ L']. simpl in L. congruence.
Qed.

(** What a handler leaves behind, and what it answers. *)
Record served (s : sys) (c : client) (x : KvCtx) (p : phase) (s' : sys) (reply : RawKvMsg) (size : Z) : Prop := {
  sv_grows : grows (rows s) (rows s');
  sv_rows : rows_ok (rows s');
  sv_tree : tree_ok (rows s') (entries (tree s'));
  sv_queues : forall tid, queue_ok (queues s' tid);
  sv_dels : dmsgs s' = dmsgs s;
  sv_reply : forall back, stale_ok reply back -> reply_ok (rows s') c x p (deliver size reply back) }.

Lemma queue_ok_insert (q : Z -> list Z * Z) tid v :
  (forall tid, queue_ok (q tid)) -> queue_ok v -> forall tid', queue_ok (<[tid := v]> q tid').
Proof. intros Hq Hv tid'. destruct (decide (tid = tid')) as [<-|]; [by rewrite fn_lookup_insert|by rewrite fn_lookup_insert_ne]. Qed.

Section serve.
Context (s : sys) (c : client) (x : KvCtx) (r : request) (tid now sv : Z) (recv : list Z) (m : RawKvMsg).
Hypothesis Hinv : inv s.
Hypothesis Hclient : client_ok c.
Hypothesis Hbuf : buffer m.
Hypothesis Hrecv : stale_ok m recv.
Let q := deliver (rsize r) (rmsg r) recv.

Lemma known_client p : request_ok (rows s) c x p r ->
  exists conf, zget (server_config f) (src_s_id (rpc_header q)) = Some conf.
Proof. intros [_ E _ _]. destruct Hclient as [_ [conf Hc]]. exists conf. unfold q. simpl. by rewrite E. Qed.

Lemma serve_put_primary cs :
  request_ok (rows s) c x InPutPrimary r -> busy x -> (queues s tid).2 < 64 ->
  exists reply n size, server_process_msg f (thread_node s tid) tid now sv q m = Done (reply, n, size) /\
    served s c x InPutPrimary (after s true tid n cs) reply size.
Proof.
  intros Hr Hb H64. destruct (known_client _ Hr) as [conf Hconf]. destruct Hr as [Hrb _ _ (_ & Hop & Hkey & W & Hsz)].
  pose proof (sent_buffer r recv m Hrb Hrecv) as Hq. fold q in Hq.
  assert (Wq : word q 0 = long_key x).
  { rewrite <- W. apply back_word; [done|by eapply stale_ok_any|lia|]. rewrite Hsz, args_size by lia. lia. }
  destruct (in_queues s Hinv tid) as (Q1 & Q2 & Q3 & Q4). assert (del_queue_words = 192) by reflexivity.
  destruct (append_row_ok (thread_node s tid) tid now q (reply_prologue q m)) as (r0 & n & E & Ed & W0 & Hs & Hm' & Hp & Hl & Hd);
    [apply Hq|by apply buffer_room|apply buffer_room; [by apply buffer_prologue|lia]|done|simpl; lia|].
  eexists _, n, _. split.
  { apply server_process_msg_ok; [done|]. unfold process_op. change (msg_op q) with (msg_op (rmsg r)). rewrite Hop. simpl. exact E. }
  assert (Hnew : in_width 64 (value (new_row q tid now)) /\ in_width 64 (version (new_row q tid now))).
  { split; [apply word_width, Hq|by apply wrap_range]. }
  assert (Hg : grows (rows s) (pindex n)) by (rewrite Hp; apply grows_put).
  split; simpl; [done| | | |done|].
  - rewrite Hp. apply rows_ok_put; [apply Hinv|done].
  - eapply tree_ok_grows; [exact Hg|apply Hinv].
  - apply queue_ok_insert; [apply Hinv|]. unfold queue_ok; simpl. simpl in Hl, Hd.
    unfold del_words in Hd. simpl in Hd. destruct (row (rows s) (word q 0)) as [old|] eqn:Eo; destruct Hd as [-> ->].
    + split; [lia|]. split; [lia|]. split; [congruence|]. apply Forall_app_2; [done|].
      destruct (in_rows s Hinv _ _ Eo). do 2 (constructor; [done|]). constructor; [|constructor]. rewrite Wq. by apply Hb.
    + split; [lia|]. split; [lia|]. split; [congruence|done].
  - intros back Hback. split.
    + apply buffer_deliver; [|by eapply stale_ok_any].
      apply (buffer_payload (reply_epilogue q r0 0)); [done|by apply (answer_buffer _ m)].
    + split; [done|]. split.
      * apply edited_header in Ed as [_ Ek]. change (key r0 = ckey x). rewrite Ek. simpl. exact Hkey.
      * rewrite Hp. simpl. rewrite Wq. apply has_row_put.
Qed.

Lemma serve_get_primary cs :
  request_ok (rows s) c x InGetPrimary r ->
  exists reply size, server_process_msg f (thread_node s tid) tid now sv q m = Done (reply, thread_node s tid, size) /\
    served s c x InGetPrimary (after s true tid (thread_node s tid) cs) reply size /\
    let ks := filter (has_value (rows s) (long_value_read x)) (req_pkeys (rmsg r)) in
    forall back, stale_ok m back ->
      word (deliver size reply back) 0 = zlen ks /\ words (deliver size reply back) 1 (length ks) = ks.
Proof.
  intros Hr. destruct (known_client _ Hr) as [conf Hconf]. destruct Hr as [Hrb _ _ (_ & Hop & W & Hcnt & Hrows & Hsz)].
  pose proof (sent_buffer r recv m Hrb Hrecv) as Hq. fold q in Hq.
  pose proof (word_width (rmsg r) 1 (buf_bytes _ Hrb)) as [Hc0 _].
  rewrite args_size in Hsz by lia.
  assert (W0 : word q 0 = long_value_read x) by (rewrite <- W; apply back_word; [done|by eapply stale_ok_any|lia|lia]).
  assert (W1 : word q 1 = word (rmsg r) 1) by (apply back_word; [done|by eapply stale_ok_any|lia|lia]).
  assert (Wp : req_pkeys q = req_pkeys (rmsg r)).
  { unfold req_pkeys. rewrite W1. apply back_words; [done|by eapply stale_ok_any|lia..]. }
  destruct (read_log_ok (thread_node s tid) sv q (reply_prologue q m)) as (r0 & E & Ed & A0 & A1);
    [apply Hq|rewrite W1; lia|apply buffer_room; [done|lia]|apply buffer_room; [by apply buffer_prologue|lia]|].
  rewrite W0, Wp in *. simpl pindex in *. rewrite kept_present in * by exact Hrows.
  set (ks := filter _ _) in *.
  assert (Hk : zlen ks <= 10).
  { unfold ks, zlen. pose proof (length_filter (has_value (rows s) (long_value_read x)) (req_pkeys (rmsg r))) as Hl.
    unfold req_pkeys in Hl at 2. rewrite length_words in Hl. lia. }
  pose proof (zlen_nonneg ks). eexists _, _. split.
  { apply server_process_msg_ok; [done|]. unfold process_op. change (msg_op q) with (msg_op (rmsg r)). rewrite Hop. simpl. exact E. }
  assert (Hrb' : forall port, buffer (reply_epilogue q (with_op r0 kEnumReadReply) port)) by (intros; by apply (answer_buffer_op _ m)).
  split.
  - split; simpl; [apply rows_grow_refl|apply Hinv|apply Hinv| |done|].
    + apply queue_ok_insert; [apply Hinv|]. destruct (in_queues s Hinv tid) as (?&?&?&?). done.
    + intros back Hback. split; [|done]. apply buffer_deliver; [done|by eapply stale_ok_any].
  - intros ks0 back Hback. change ks0 with ks. clear ks0. rewrite args_size by lia. split.
    + rewrite back_word; [exact A0|done|by eapply stale_ok_any|lia|lia].
    + rewrite back_words; [by rewrite words_epilogue, words_with_op|done|by eapply stale_ok_any|lia|unfold zlen in *; lia|unfold zlen in *; lia].
Qed.

Lemma serve_get_secondary cs :
  request_ok (rows s) c x InGetSecondary r ->
  exists reply size, server_process_msg f (thread_node s tid) tid now sv q m = Done (reply, thread_node s tid, size) /\
    served s c x InGetSecondary (after s false tid (thread_node s tid) cs) reply size.
Proof.
  intros Hr. destruct (known_client _ Hr) as [conf Hconf]. destruct Hr as [Hrb _ _ (_ & Hop & W & Hsz)].
  pose proof (sent_buffer r recv m Hrb Hrecv) as Hq. fold q in Hq. destruct (in_tree s Hinv) as [Ht1 Ht2].
  destruct (read_index_ok (thread_node s tid) q (reply_prologue q m)) as (r0 & E & Ed & A0 & A1);
    [done|apply Hq|by apply buffer_room|apply buffer_room; [by apply buffer_prologue|lia]|].
  set (res := scan_entries _ _ _) in *.
  assert (Hk : zlen res <= 10) by (apply scan_entries_length; lia). pose proof (zlen_nonneg res).
  eexists _, _. split.
  { apply server_process_msg_ok; [done|]. unfold process_op. change (msg_op q) with (msg_op (rmsg r)). rewrite Hop. simpl. exact E. }
  assert (Hrb' : forall port, buffer (reply_epilogue q (with_op r0 kEnumReadIndexReply) port)) by (intros; by apply (answer_buffer_op _ m)).
  split; simpl; [apply rows_grow_refl|apply Hinv|by split|apply Hinv|done|].
  intros back Hback. split; [apply buffer_deliver; [done|by eapply stale_ok_any]|].
  rewrite args_size by lia. split; [done|].
  rewrite back_word; [|done|by eapply stale_ok_any|lia|lia].
  change (word (reply_epilogue _ _ _) 0) with (word r0 0). rewrite A0. split; [done|].
  rewrite back_words; [|done|by eapply stale_ok_any|lia|unfold zlen in *; lia|unfold zlen in *; lia].
  replace (Z.to_nat (zlen res)) with (length res) by (unfold zlen; lia). rewrite words_epilogue, words_with_op, A1.
  eapply Forall_impl; [by apply scan_entries_values|]. intros v [_ [k Hv]]. by eapply Ht2.
Qed.

Lemma serve_put_secondary cs :
  request_ok (rows s) c x InPutSecondary r ->
  exists reply n size, server_process_msg f (thread_node s tid) tid now sv q m = Done (reply, n, size) /\
    served s c x InPutSecondary (after s false tid n cs) reply size.
Proof.
  intros Hr. destruct (known_client _ Hr) as [conf Hconf]. destruct Hr as [Hrb _ Hth (_ & Hop & Hkey & W & Hrow & Hsz)].
  pose proof (sent_buffer r recv m Hrb Hrecv) as Hq. fold q in Hq. destruct (in_tree s Hinv) as [Ht1 Ht2].
  rewrite args_size in Hsz by lia.
  assert (W2 : word q 2 = long_key x) by (rewrite <- W; apply back_word; [done|by eapply stale_ok_any|lia|lia]).
  destruct (write_index_ok (thread_node s tid) q (reply_prologue q m) kEnumUpdateIndexReply) as (n & E & Hp & _ & _ & _ & He & Hi);
    [done|apply Hq|by apply buffer_room|].
  eexists _, n, _. split.
  { apply server_process_msg_ok; [done|]. unfold process_op. change (msg_op q) with (msg_op (rmsg r)). rewrite Hop. simpl. exact E. }
  split; simpl; [apply rows_grow_refl|apply Hinv| |apply Hinv|done|].
  - split; [done|]. rewrite He. destruct (_ <? _); [|exact Ht2].
    apply map_Forall_insert_2; [by rewrite W2|exact Ht2].
  - intros back Hback. split.
    + apply buffer_deliver; [|by eapply stale_ok_any]. apply (answer_buffer_op _ m); [done|apply edited_refl].
    + split; [done|]. split; [exact Hkey|exact Hth].
Qed.
End serve.

Lemma serve_sent s c x p r tid now sv recv m cs :
  inv s -> client_ok c -> busy x -> request_ok (rows s) c x p r -> buffer m -> stale_ok m recv ->
  (to_server r = get_data_server_id -> (queues s tid).2 < 64) ->
  exists reply n size,
    server_process_msg f (thread_node s tid) tid now sv (deliver (rsize r) (rmsg r) recv) m = Done (reply, n, size) /\
    served s c x p (after s (to_server r =? get_data_server_id) tid n cs) reply size.
Proof.
  intros Hi Hc Hb Hr Hm Hs H64. pose proof (rq_phase _ _ _ _ _ Hr) as Hp. destruct p; [| | |done|];
    destruct Hp as [Et _]; rewrite Et in *.
  - by apply serve_put_primary; auto.
  - by apply serve_put_secondary.
  - destruct (serve_get_secondary s c x r tid now sv recv m Hi Hc Hm Hs cs Hr) as (reply & size & E & Hsv).
    by eexists reply, _, size.
  - destruct (serve_get_primary s c x r tid now sv recv m Hi Hc Hm Hs cs Hr) as (reply & size & E & Hsv & _).
    by eexists reply, _, size.
Qed.

Lemma coros_insert t i cs (all : nat -> cstate) :
  (forall j, coro_ok t (clients j) (all j)) -> coro_ok t (clients i) cs ->
  forall j, coro_ok t (clients j) (<[i := cs]> all j).
Proof.
  intros Hall Hi j. destruct (decide (i = j)) as [<-|]; [by rewrite fn_lookup_insert|by rewrite fn_lookup_insert_ne].
Qed.

Lemma suspended_ok t c x p r : busy x -> request_ok t c x p r ->
  coro_ok t c (Sent x p r).
Proof. by split. Qed.

Lemma del_served s tid d :
  inv s -> d ∈ dmsgs s -> exists n, process_sindex_del (thread_node s tid) d = Done n /\
    entries (sindex n) = entries (tree s).
Proof.
  intros Hi Hd. pose proof (in_dels s Hi) as HF. rewrite Forall_forall in HF. destruct (HF d Hd) as [Hb Hk].
  destruct (del_each_ok (Z.to_nat (switch_key d)) d (thread_node s tid) 0) as (n & E & _ & _ & _ & He & _);
    [apply (in_tree s Hi)|done|apply buffer_room; [done|lia]|]. by exists n.
Qed.

Lemma secondary_inv_step s s' : (forall i, client_ok (clients i)) -> inv s -> step s s' -> inv s'.
Proof.
  intros Hcl Hi Hstep. pose proof Hi as [I1 I2 I3 I4 I5].
  destruct Hstep as [i x lk lr lw t w m pr w' cs Hco Hlk Hlr Hlw Hm Ht E Hsus
    |i x p r tid now sv recv m back reply n size Hco Hm Hrecv Hback H64 E
    |i x p reply m pr cs Hco Hm E Hsus|tid sid m recv d size H64 Hm Hrecv E|d tid n Hd E].
  - destruct (si_test_start_ok (rows s) (clients i) (resample x lk lr lw) t w m) as (x' & p & r & w2 & E' & Hb & Hr); try done.
    rewrite E in E'. injection E' as -> ->. injection Hsus as <-.
    split; simpl; try done. apply coros_insert; [done|]. by split.
  - specialize (I5 i) as Hci. rewrite Hco in Hci. destruct Hci as [Hb Hr].
    destruct (serve_sent s (clients i) x p r tid now sv recv m (<[i := Got x p (deliver size reply back)]> (coros s)))
      as (reply' & n' & size' & E' & [G1 G2 G3 G4 G5 G6]); try done.
    rewrite E in E'. injection E' as <- <- <-. split; try done; [by rewrite G5|].
    assert (Hcoros : coros (after s (to_server r =? get_data_server_id) tid n (<[i := Got x p (deliver size reply back)]> (coros s))) =
      <[i := Got x p (deliver size reply back)]> (coros s)) by (by unfold after; destruct (_ =? _)).
    rewrite Hcoros. apply coros_insert; [intros j; by eapply coro_ok_grows|]. split; [done|].
    apply G6. by eapply stale_ok_any.
  - specialize (I5 i) as Hci. rewrite Hco in Hci. destruct Hci as [Hb Hr].
    destruct (si_test_resume_ok (rows s) (clients i) x p reply m Hb Hr Hm) as (pr' & cs' & E' & Hs' & Hok).
    rewrite E in E'. injection E' as <-. rewrite Hsus in Hs'. injection Hs' as <-.
    split; simpl; try done. by apply coros_insert.
  - destruct (I3 tid) as (Q1 & Q2 & Q3 & Q4).
    destruct (send_sindex_del_ok (thread_node s tid) sid tid m) as (d' & E' & Hk & Hl & Hb' & _);
      [simpl; lia|done|apply buffer_room; [done|simpl; lia]|done|].
    rewrite E in E'. injection E' as <- ->. split; simpl; try done.
    + apply queue_ok_insert; [done|]. split; [done|]. simpl. split; [pose proof (zlen_nonneg (queues s tid).1); lia|].
      split; [done|constructor].
    + constructor; [|done]. simpl in *. split; [|lia]. apply buffer_deliver; [|by eapply stale_ok_any].
      destruct Hm. split; [auto|congruence].
  - destruct (del_served s tid d Hi Hd) as (n' & E' & He). rewrite E in E'. injection E' as <-.
    split; simpl; try done. by rewrite He.
Qed.

Lemma inv_start x t dq d0 :
  entries t = ∅ -> (forall tid, zlen (dq tid) = del_queue_words) -> inv (start_sys x t dq d0).
Proof.
  intros Ht Hq. split; simpl.
  - intros k v E. unfold row in E. simpl in E. by rewrite find_empty in E.
  - rewrite Ht. split; apply map_Forall_empty.
  - intros tid. split; [done|]. simpl. split; [pose proof (zlen_nonneg (dq tid)); lia|]. split; [done|constructor].
  - constructor.
  - done.
Qed.

Lemma inv_reachable s0 s : (forall i, client_ok (clients i)) -> inv s0 -> reachable s0 s -> inv s.
Proof. intros Hc Hi. induction 1; [done|]. by eapply secondary_inv_step. Qed.

Section claims.
Context (Hclients : forall i, client_ok (clients i)).


(** C8. Reads by value are exact: when a data thread handles the request of a
    coroutine that looks up a value, the reply holds, in order, exactly those primary
    keys of the request whose rows have that value at that moment, however stale the
    index entries were; every key of the request has a row. *)
Theorem secondary_reads_exact x t dq d0 s i y r :
  entries t = ∅ -> (forall tid, zlen (dq tid) = del_queue_words) -> reachable (start_sys x t dq d0) s ->
  coros s i = Sent y InGetPrimary r ->
  Forall (has_row (rows s)) (req_pkeys (rmsg r)) /\
  forall tid now sv recv m, buffer m -> stale_ok m recv ->
    exists reply size,
      server_process_msg f (thread_node s tid) tid now sv (deliver (rsize r) (rmsg r) recv) m =
        Done (reply, thread_node s tid, size) /\
      let ks := filter (has_value (rows s) (long_value_read y)) (req_pkeys (rmsg r)) in
      forall back, stale_ok m back ->
        word (deliver size reply back) 0 = zlen ks /\ words (deliver size reply back) 1 (length ks) = ks.
Proof.
  intros Ht Hq Hs Hco. apply inv_reachable in Hs as Hi; [|done|by apply inv_start].
  pose proof (in_coros s Hi i) as Hc. rewrite Hco in Hc. destruct Hc as [Hb Hrq]. split.
  - apply (rq_phase _ _ _ _ _ Hrq).
  - intros tid now sv recv m Hm Hr.
    destruct (serve_get_primary s (clients i) y r tid now sv recv m Hi (Hclients i) Hm Hr (coros s) Hrq) as (a & size & E & _ & H1).
    by exists a, size.
Qed.
End claims.
End system.

(** ** Witnesses: one coroutine writes two rows with a value, moves one of them to
    another value, and looks the first value up *)
Notation concrete := (sys (M := gmap Z) (T := gmap (list Z) Z)).

Definition sample_clients (_ : nat) : client := mkClient default_flags true 2 0.

Definition sample_buffer : RawKvMsg := sample_msg 0 [].

Inductive command := CStart (t lk lr lw : Z) | CServe (now : Z) | CResume.

Definition word64 (v : Z) : bool := (0 <=? v) && (v <? 2 ^ 64).

Definition perform (s : concrete) (c : command) : option concrete :=
  match c, coros s 0%nat with
  | CStart t lk lr lw, Idle x =>
      if word64 lk && word64 lr && word64 lw && ((t =? kEnumSRS) || (t =? kEnumSW)) then
        match si_test_start (sample_clients 0) (resample x lk lr lw) t kInitInsert sample_buffer with
        | Done (pr, _) => (fun c => with_coros s (<[0%nat := c]> (coros s))) <$> suspended pr
        | Fault _ => None
        end
      else None
  | CServe now, Sent x p r =>
      if (queues s 0).2 <? 64 then
        match server_process_msg default_flags (thread_node s 0) 0 now 0
                (deliver (rsize r) (rmsg r) (payload sample_buffer)) sample_buffer with
        | Done (reply, n, size) =>
            Some (after s (to_server r =? get_data_server_id) 0 n
              (<[0%nat := Got x p (deliver size reply (payload sample_buffer))]> (coros s)))
        | Fault _ => None
        end
      else None
  | CResume, Got x p reply =>
      match si_test_resume (sample_clients 0) x p reply sample_buffer with
      | Done pr => (fun c => with_coros s (<[0%nat := c]> (coros s))) <$> suspended pr
      | Fault _ => None
      end
  | _, _ => None
  end.

Fixpoint perform_all (s : concrete) (cs : list command) : concrete :=
  match cs with
  | [] => s
  | c :: cs => match perform s c with
               | Some s => perform_all s cs
               | None => s
               end
  end.

Lemma sample_buffer_ok : buffer sample_buffer.
Proof. by apply sample_msg_buffer. Qed.

Lemma sample_stale_ok : stale_ok sample_buffer (payload sample_buffer).
Proof. apply sample_buffer_ok. Qed.

Lemma word64_width v : word64 v = true -> in_width 64 v.
Proof. unfold word64, in_width. rewrite andb_true_iff, Z.leb_le, Z.ltb_lt. done. Qed.

Lemma perform_step s c s' : perform s c = Some s' -> step default_flags sample_clients s s'.
Proof.
  pose proof sample_buffer_ok as Hb. pose proof sample_stale_ok as Hs.
  destruct c as [t lk lr lw|now|]; simpl; destruct (coros s 0%nat) as [x|x p r|x p m] eqn:Hco; try done.
  - destruct (word64 lk && _ && _ && _) eqn:E; [|done]. rewrite !andb_true_iff, orb_true_iff, !Z.eqb_eq in E.
    destruct (si_test_start _ _ _ _ _) as [[pr w]|] eqn:Est; [|done]. intros (cs & Hsus & ->)%fmap_Some.
    destruct E as [[[H1%word64_width H2%word64_width] H3%word64_width] Ht].
    eapply s_start; [exact Hco|exact H1|exact H2|exact H3|exact Hb|exact Ht|exact Est|exact Hsus].
  - destruct (_ <? 64) eqn:E; [|done]. apply Z.ltb_lt in E.
    destruct (server_process_msg _ _ _ _ _ _ _) as [[[reply n] size]|] eqn:Es; [|done]. intros [= <-].
    eapply s_serve; [exact Hco|exact Hb|exact Hs|exact Hs|intros _; exact E|exact Es].
  - destruct (si_test_resume _ _ _ _ _) as [pr|] eqn:Er; [|done]. intros (cs & Hsus & ->)%fmap_Some.
    eapply s_resume; [exact Hco|exact Hb|exact Er|exact Hsus].
Qed.

Lemma perform_all_reachable s0 cs : forall s,
  reachable default_flags sample_clients s0 s -> reachable default_flags sample_clients s0 (perform_all s cs).
Proof.
  induction cs as [|c cs IH]; intros s Hs; [done|]. simpl. destruct (perform s c) as [s'|] eqn:E; [|done].
  apply IH. eapply r_step; [done|]. by apply perform_step in E.
Qed.

Definition sample_ctx : KvCtx := mkCtx 0 0 0 0 0 0 0 0 0 0 false true.

Definition write_row (pkey v now : Z) : list command :=
  [CStart kEnumSW pkey 0 v; CServe now; CResume; CServe now; CResume].

Definition sample_run : list command :=
  write_row 7 500 100 ++ write_row 8 500 200 ++ write_row 8 501 300 ++ [CStart kEnumSRS 7 500 0; CServe 400; CResume].

Definition sample_start : concrete :=
  start_sys (fun _ => sample_ctx) ∅ (fun _ => replicate 192 0) 0.

Definition sample_system : concrete := perform_all sample_start sample_run.

Definition sample_read : KvCtx * request :=
  match coros sample_system 0%nat with
  | Sent y InGetPrimary r => (y, r)
  | _ => (sample_ctx, mkReq 0 0 sample_buffer 0)
  end.

Lemma sample_system_reachable : reachable default_flags sample_clients sample_start sample_system.
Proof. apply perform_all_reachable, r_start. Qed.

Lemma sample_sent : coros sample_system 0%nat = Sent sample_read.1 InGetPrimary sample_read.2.
Proof. vm_compute. reflexivity. Qed.

Lemma sample_clients_ok i : client_ok default_flags (sample_clients i).
Proof. split; [done|by eexists]. Qed.

(** The index names both rows, and one of them again for a neighbouring value; the
    reply keeps the row that still has the value. *)
Lemma secondary_reads_exact_witness :
  req_pkeys (rmsg sample_read.2) = [7; 8; 8] /\
  exists reply size,
    server_process_msg default_flags (thread_node sample_system 0) 0 0 0
      (deliver (rsize sample_read.2) (rmsg sample_read.2) (payload sample_buffer)) sample_buffer =
      Done (reply, thread_node sample_system 0, size) /\
    words (deliver size reply (payload sample_buffer)) 1 1 = [7].
Proof.
  split; [vm_compute; reflexivity|].
  destruct (secondary_reads_exact default_flags sample_clients sample_clients_ok (fun _ => sample_ctx) ∅
    (fun _ => replicate 192 0) 0 sample_system 0 sample_read.1 sample_read.2) as [_ H].
  - reflexivity.
  - reflexivity.
  - exact sample_system_reachable.
  - exact sample_sent.
  - destruct (H 0 0 0 (payload sample_buffer) sample_buffer sample_buffer_ok sample_stale_ok) as (reply & size & E & W).
    exists reply, size. split; [exact E|]. destruct (W (payload sample_buffer) sample_stale_ok) as [_ W1].
    replace (filter (has_value (rows sample_system) (long_value_read sample_read.1)) (req_pkeys (rmsg sample_read.2)))
      with [7] in W1 by (vm_compute; reflexivity). exact W1.
Defined.

End SecondarySystem.
