(* ===== verification/RpcClientModel.v ===== *)
(** * The client loop

    Module [RpcClient]: run_client_CPC of rpc/rpc.h with client_worker, for any
    application.  The coroutines of a client thread are suspended either at the
    sink() of client_worker or inside cworker_new_request; the application says what
    a coroutine does between two suspensions.  One turn of the loop starts the free
    coroutines, goes on with those whose one-sided operations are done, and hands
    every reply polled to its coroutine. *)

From S2P Require Import Prelude.

Module RpcClient.

(** kCoroWorkerNum *)
Definition kConfigCoroCnt : Z := 64.

Section loop.
(** The state of the application, what a coroutine keeps on its stack, the replies. *)
Context {A F R : Type}.

(** struct CoroCtx; [msg_ptr] is not initialised. *)
Record CoroCtx := mkCoro { free : bool; msg_ptr : option R; async_op_cnt : Z }.

Definition with_free (x : CoroCtx) (b : bool) : CoroCtx := mkCoro b (msg_ptr x) (async_op_cnt x).
Definition with_msg (x : CoroCtx) (r : R) : CoroCtx := mkCoro (free x) (Some r) (async_op_cnt x).
Definition with_ops (x : CoroCtx) (n : Z) : CoroCtx := mkCoro (free x) (msg_ptr x) n.

Definition add_op_cnt (x : CoroCtx) : CoroCtx :=
  with_ops x (if async_op_cnt x =? -1 then 1 else signed 32 (async_op_cnt x + 1)).

(** What a coroutine can change. *)
Record thread := mkThread { app : A; coro_ctx : list CoroCtx }.

Definition with_app (t : thread) (a : A) : thread := mkThread a (coro_ctx t).

Definition update_ctx (t : thread) (i : Z) (g : CoroCtx -> CoroCtx) : outcome thread :=
  let! x := load (coro_ctx t) i in
  let! xs := store (coro_ctx t) i (g x) in
  Done (mkThread (app t) xs).

(** The application: a new request, and going on from where a coroutine suspended;
    both end in a suspension ([Some]) or at the end of cworker_new_request. *)
Context (cworker_new_request : thread -> Z -> outcome (thread * option F)).
Context (cworker_resume : thread -> Z -> F -> outcome (thread * option F)).
Context (client_get_cid : thread -> R -> outcome (thread * Z)).

(** [None] in [coro_slave]: at a sink() of client_worker. *)
Record client := mkClient { th : thread; coro_slave : list (option F) }.

Definition with_th (c : client) (t : thread) : client := mkClient t (coro_slave c).

(** The body of client_worker from one sink() to the next: the call of a slave. *)
Definition call_slave (c : client) (i : Z) : outcome client :=
  let! fr := load (coro_slave c) i in
  let! (t, r) := match fr with
                 | None => let! t := update_ctx (th c) i (fun x => with_free x false) in cworker_new_request t i
                 | Some l => cworker_resume (th c) i l
                 end in
  let! t := match r with
            | None => update_ctx t i (fun x => with_free x true)
            | Some _ => Done t
            end in
  let! s := store (coro_slave c) i r in
  Done (mkClient t s).

Context (after_process_reply : client -> R -> Z -> outcome client).

(** One round of the loop over the coroutines. *)
Definition start_coro (c : client) (i one_side : Z) : outcome (client * Z) :=
  let! x := load (coro_ctx (th c)) i in
  let! c := if free x then call_slave c i else Done c in
  let! x := load (coro_ctx (th c)) i in
  let! c := (if (async_op_cnt x =? 0) && negb (free x) then
               let! t := update_ctx (th c) i (fun x => with_ops x (-1)) in call_slave (with_th c t) i
             else Done c) in
  let! x := load (coro_ctx (th c)) i in
  let n := async_op_cnt x in
  Done (c, if negb (n =? 0) && negb (n =? -1) then signed 32 (one_side + n) else one_side).

Fixpoint start_coros (ids : list Z) (c : client) (one_side : Z) : outcome (client * Z) :=
  match ids with
  | [] => Done (c, one_side)
  | i :: ids => let! (c, one_side) := start_coro c i one_side in start_coros ids c one_side
  end.

(** The completions of one-sided operations, each with its coroutine. *)
Fixpoint complete_ops (t : thread) (ids : list Z) : outcome thread :=
  match ids with
  | [] => Done t
  | i :: ids => let! t := update_ctx t i (fun x => with_ops x (signed 32 (async_op_cnt x - 1))) in complete_ops t ids
  end.

Definition serve_reply (c : client) (reply : R) : outcome client :=
  let! (t, c_id) := client_get_cid (th c) reply in
  let c := with_th c t in
  if c_id =? -1 then Done c
  else
    let! t := update_ctx (th c) c_id (fun x => with_msg x reply) in
    let! c := call_slave (with_th c t) c_id in
    after_process_reply c reply c_id.

Fixpoint serve_replies (c : client) (rs : list R) : outcome client :=
  match rs with
  | [] => Done c
  | r :: rs => let! c := serve_reply c r in serve_replies c rs
  end.

(** One turn: [ops] are the completions and [replies] the replies the device has;
    at most 16 of each are taken, and poll_cq_try refuses a negative number. *)
Definition turn (FLAGS_coro_num : Z) (c : client) (ops : list Z) (replies : list R) : outcome client :=
  let! (c, one_side) := start_coros (seqZ 0 FLAGS_coro_num) c 0 in
  let! t := (if one_side =? 0 then Done (th c)
             else if one_side <? 0 then Fault ProcessExit
             else complete_ops (th c) (take (Z.to_nat (Z.min one_side 16)) ops)) in
  serve_replies (with_th c t) (take 16 replies).

(** What run_client_CPC does before its loop: a slave runs up to the first sink()
    of client_worker.  [ctx] are the kCoroWorkerNum contexts as they were allocated. *)
Definition new_ctx : CoroCtx := mkCoro true None (-1).

Definition spawn (a : A) (FLAGS_coro_num : Z) : outcome client :=
  if (0 <=? FLAGS_coro_num) && (FLAGS_coro_num <=? kConfigCoroCnt) then
    Done (mkClient (mkThread a (replicate (Z.to_nat kConfigCoroCnt) new_ctx)) (replicate (Z.to_nat FLAGS_coro_num) None))
  else Fault OutOfBounds.
End loop.

#[global] Arguments CoroCtx : clear implicits.
#[global] Arguments thread : clear implicits.
#[global] Arguments client : clear implicits.
#[global] Arguments start_coro : simpl never.
#[global] Arguments serve_reply : simpl never.

(** ** Reasoning about turns *)
Section laws.
Context {A F R : Type}.
Context (nr : thread A R -> Z -> outcome (thread A R * option F)).
Context (re : thread A R -> Z -> F -> outcome (thread A R * option F)).
Context (gc : thread A R -> R -> outcome (thread A R * Z)).
Context (af : client A F R -> R -> Z -> outcome (client A F R)).
Notation client := (client A F R).
Implicit Types (c : client) (t : thread A R).

Lemma update_ctx_ok t i g x :
  zget (coro_ctx t) i = Some x -> update_ctx t i g = Done (mkThread (app t) (zset (coro_ctx t) i (g x))).
Proof.
  intros E. unfold update_ctx. rewrite (load_in_range _ _ _ E). cbn [obind].
  by rewrite store_in_range by (by eapply zget_Some_range).
Qed.

(** Calling a slave at the sink() of client_worker. *)
Lemma call_slave_new c i x t r :
  zget (coro_slave c) i = Some None -> zget (coro_ctx (th c)) i = Some x ->
  nr (mkThread (app (th c)) (zset (coro_ctx (th c)) i (with_free x false))) i = Done (t, Some r) ->
  call_slave nr re c i = Done (mkClient t (zset (coro_slave c) i (Some r))).
Proof.
  intros Es Ex Er. unfold call_slave. rewrite (load_in_range _ _ _ Es). cbn [obind].
  rewrite (update_ctx_ok _ _ _ _ Ex). cbn [obind]. rewrite Er. cbn [obind].
  by rewrite store_in_range by (by eapply zget_Some_range).
Qed.

(** Calling a slave inside cworker_new_request. *)
Lemma call_slave_resume c i l t r x :
  zget (coro_slave c) i = Some (Some l) -> re (th c) i l = Done (t, r) -> zget (coro_ctx t) i = Some x ->
  call_slave nr re c i =
    Done (mkClient (if r then t else mkThread (app t) (zset (coro_ctx t) i (with_free x true))) (zset (coro_slave c) i r)).
Proof.
  intros Es Er Ex. unfold call_slave. rewrite (load_in_range _ _ _ Es). cbn [obind]. rewrite Er. cbn [obind].
  destruct r; cbn [obind]; [|rewrite (update_ctx_ok _ _ _ _ Ex); cbn [obind]];
    by rewrite store_in_range by (by eapply zget_Some_range).
Qed.

(** An invariant of the calls of free coroutines holds after the loop over them; no
    one-sided operations. *)
Definition startable (P : client -> Prop) (i : Z) : Prop :=
  forall c, P c -> exists x, zget (coro_ctx (th c)) i = Some x /\ async_op_cnt x = -1 /\
    (free x = true -> exists c', call_slave nr re c i = Done c' /\ P c').

Lemma start_coro_rule P i c :
  startable P i -> P c -> exists c', start_coro nr re c i 0 = Done (c', 0) /\ P c'.
Proof.
  intros Hs Hp. destruct (Hs c Hp) as (x & Ex & Ea & Hf). unfold start_coro.
  rewrite (load_in_range _ _ _ Ex). cbn [obind].
  assert (exists c', (if free x then call_slave nr re c i else Done c) = Done c' /\ P c') as (c' & -> & Hc').
  { destruct (free x); [auto|]. by exists c. }
  cbn [obind]. destruct (Hs c' Hc') as (x' & Ex' & Ea' & _).
  rewrite !(load_in_range _ _ _ Ex'). cbn [obind]. rewrite Ea'. simpl. rewrite (load_in_range _ _ _ Ex'). cbn [obind].
  rewrite Ea'. simpl. by exists c'.
Qed.

Lemma start_coros_rule P ids c :
  Forall (startable P) ids -> P c -> exists c', start_coros nr re ids c 0 = Done (c', 0) /\ P c'.
Proof.
  intros Hs. revert c. induction Hs as [|i ids Hi _ IH]; intros c Hp; simpl; [by exists c|].
  destruct (start_coro_rule P i c Hi Hp) as (c' & -> & Hp'). cbn [obind]. auto.
Qed.

Lemma serve_replies_rule (Q : client -> list R -> Prop) rs c :
  (forall c r rs, Q c (r :: rs) -> exists c', serve_reply nr re gc af c r = Done c' /\ Q c' rs) ->
  Q c rs -> exists c', serve_replies nr re gc af c rs = Done c' /\ Q c' [].
Proof.
  intros Hs. revert c. induction rs as [|r rs IH]; intros c Hq; simpl; [by exists c|].
  destruct (Hs _ _ _ Hq) as (c' & -> & Hq'). cbn [obind]. auto.
Qed.

Lemma turn_rule (P : client -> Prop) (Q : client -> list R -> Prop) n c ops rs :
  (forall i, 0 <= i < n -> startable P i) ->
  (forall c, P c -> Q c (take 16 rs)) ->
  (forall c r rs, Q c (r :: rs) -> exists c', serve_reply nr re gc af c r = Done c' /\ Q c' rs) ->
  P c -> exists c', turn nr re gc af n c ops rs = Done c' /\ Q c' [].
Proof.
  intros Hs Hpq Hq Hp. unfold turn.
  destruct (start_coros_rule P (seqZ 0 n) c) as (c1 & -> & Hp1); [|done|].
  { rewrite Forall_forall. intros i Hi%elem_of_seqZ. apply Hs. lia. }
  cbn [obind]. simpl (0 =? 0). cbn iota. cbn [obind].
  apply serve_replies_rule; [done|]. destruct c1. by apply Hpq.
Qed.
End laws.
End RpcClient.
