(* ===== verification/CableModel.v ===== *)
(** * The cable cache

    Module [Cable]: apps/kv/kv_cable_cache.cc.  Coroutines of a client thread that
    ask for the key of a running request wait for its reply ([CableCache]); the
    request handler of its data and index nodes; and the client coroutine
    cworker_new_request_kv with client_get_cid and after_process_reply, an
    application of [RpcClient]. *)

From S2P Require Import Prelude KvMessageModel KvServerModel KvClientModel SecondaryModel RpcClientModel.
Import KvMessage.

Module Cable.
Import RpcClient.

Definition kDataThread : Z := 16.
Definition kIndexThread : Z := 16.
Definition kClientId : Z := 2.

Definition server_config : list ServerConfig :=
  [ mkServer 0 kDataThread 0 12 0 ens2 128;
    mkServer 1 kIndexThread 1 12 0 ens2 188;
    mkServer 2 8 1 12 1 ens6 136 ].

(** RawKvMsg::get_size *)
Definition get_size (f : flags) (op : Z) : Z :=
  if op =? kEnumWriteReq then wrap 32 (sizeof_RawKvMsg + sizeof_KvKeyType + FLAGS_kv_size_b f)
  else KvMessage.get_size f op.

(** ** struct CableCache: arrays with one entry per coroutine *)
Record CableCache := mkCache {
  key_ : list Z;
  reorder_wait_flag : list Z;
  running : list bool;
  magic_check : list Z;
  same_coro : list (list Z);
  running_write : list Z }.

(** The constructor; [magics] is what magic_check happens to hold. *)
Definition new_cache (FLAGS_coro_num : Z) (magics : list Z) : outcome CableCache :=
  let n := Z.to_nat kConfigCoroCnt in
  let k := Z.to_nat FLAGS_coro_num in
  if FLAGS_coro_num <=? kConfigCoroCnt then
    Done (mkCache (replicate n 0) (replicate n 0) (replicate n false) magics
            (replicate k (replicate k 0) ++ replicate (n - k) []) (replicate n (-1)))
  else Fault OutOfBounds.

Definition with_reorder (s : CableCache) (l : list Z) : CableCache :=
  mkCache (key_ s) l (running s) (magic_check s) (same_coro s) (running_write s).
Definition with_same (s : CableCache) (l : list (list Z)) : CableCache :=
  mkCache (key_ s) (reorder_wait_flag s) (running s) (magic_check s) l (running_write s).
Definition with_running_write (s : CableCache) (l : list Z) : CableCache :=
  mkCache (key_ s) (reorder_wait_flag s) (running s) (magic_check s) (same_coro s) l.

Definition check_fisrt (s : CableCache) (coro_id : Z) : outcome Z :=
  let! r := load (running s) coro_id in Done (if (r : bool) then coro_id else 0).

(** The first running coroutine with the key, from [i] on. *)
Fixpoint find_running (k : nat) (s : CableCache) (read_key i : Z) : outcome (option Z) :=
  match k with
  | O => Done None
  | S k =>
      let! r := load (running s) i in
      if negb r then find_running k s read_key (i + 1)
      else
        let! x := load (key_ s) i in
        if wrap 64 x =? read_key then Done (Some i) else find_running k s read_key (i + 1)
  end.

Definition push_same (s : CableCache) (h coro_id : Z) : outcome CableCache :=
  let! l := load (same_coro s) h in
  let! ls := store (same_coro s) h (l ++ [coro_id]) in
  Done (with_same s ls).

(** The end of new_request: the coroutine becomes the running one of its key. *)
Definition become_head (s : CableCache) (read_key coro_id op magic : Z) : outcome CableCache :=
  let! r := store (running s) coro_id true in
  let! k := store (key_ s) coro_id (signed 64 read_key) in
  let! l := store (same_coro s) coro_id [] in
  if op =? kEnumWriteAndRead then
    let! w := store (running_write s) coro_id coro_id in
    Done (mkCache k (reorder_wait_flag s) r (magic_check s) l w)
  else
    let! m := store (magic_check s) coro_id magic in
    Done (mkCache k (reorder_wait_flag s) r m l (running_write s)).

(** Whether the request waits for the reply of another one, and the coroutine
    whose reply it is. *)
Definition new_request (FLAGS_coro_num : Z) (s : CableCache) (read_key coro_id op magic head_id : Z) : outcome (bool * Z * CableCache) :=
  let! found := find_running (Z.to_nat FLAGS_coro_num) s read_key 0 in
  match found with
  | Some h =>
      let! s := push_same s h coro_id in
      if op =? kEnumReadReq then Done (true, h, s)
      else if op =? kEnumWriteAndRead then
        let! w := load (running_write s) h in
        if negb (w =? -1) then Done (true, h, s)
        else
          let! ws := store (running_write s) h coro_id in
          Done (false, h, with_running_write s ws)
      else let! s := become_head s read_key coro_id op magic in Done (false, coro_id, s)
  | None => let! s := become_head s read_key coro_id op magic in Done (false, coro_id, s)
  end.

Definition get_low (coro_id : Z) : Z := wrap 8 (Z.land coro_id 15 - 1).
Definition get_high (coro_id : Z) : Z := wrap 8 (Z.shiftr (Z.land coro_id 240) 4 - 1).

(** struct CableCache's clear *)
Definition clear (s : CableCache) (coro_id : Z) : outcome CableCache :=
  let! l := store (same_coro s) coro_id [] in
  let! w := store (running_write s) coro_id (-1) in
  let! r := store (running s) coro_id false in
  let! m := store (magic_check s) coro_id (-1) in
  Done (mkCache (key_ s) (reorder_wait_flag s) r m l w).

(** ** The client *)

(** struct KvCtx: the fields of cworker_new_request_kv. *)
Record KvCtx := mkCtx { cop : Z; ckey : Z; cmagic : Z; cserver_id : Z; cthread_id : Z }.

(** What the workload generators and the send buffer hold for a request. *)
Record draw := mkDraw { d_op : Z; d_key : Z; d_buf : RawKvMsg; d_port : Z }.

Record fsrpc := mkRpc {
  cache : CableCache;
  kv_ctx : list KvCtx;
  index_buf_cnt : list Z;
  draws : nat;
  posted : list (RawKvMsg * Z) }.

Definition with_cache (a : fsrpc) (s : CableCache) : fsrpc :=
  mkRpc s (kv_ctx a) (index_buf_cnt a) (draws a) (posted a).

Notation thread := (RpcClient.thread fsrpc RawKvMsg).
(** On its stack a coroutine keeps cache_tag. *)
Notation client := (RpcClient.client fsrpc bool RawKvMsg).

Definition on_cache (t : thread) (g : CableCache -> outcome CableCache) : outcome thread :=
  let! s := g (cache (app t)) in Done (with_app t (with_cache (app t) s)).

(** free_reorder_wait and reorder_wait *)
Definition add_reorder (s : CableCache) (coro_id d : Z) : outcome CableCache :=
  let! n := load (reorder_wait_flag s) coro_id in
  let! l := store (reorder_wait_flag s) coro_id (signed 32 (n + d)) in
  Done (with_reorder s l).

Definition free_reorder_wait (t : thread) (coro_id : Z) : outcome thread :=
  let! t := on_cache t (fun s => add_reorder s coro_id (-1)) in
  let! n := load (reorder_wait_flag (cache (app t))) coro_id in
  if n =? 0 then update_ctx t coro_id (fun x => with_free x true) else Done t.

(** The byte of [thread_id] in the message: [write_coro_id + 1][read_coro_id + 1].
    Threads above 7 have none; the shift is undefined for them. *)
Definition coro_byte (msg : RawKvMsg) (thread_id : Z) : Z := Z.land (Z.shiftr (coro_id msg) (thread_id * 8)) 255.

Definition check_reply (t : thread) (msg : RawKvMsg) (thread_id : Z) : outcome (thread * Z) :=
  let c := coro_byte msg thread_id in
  let s := cache (app t) in
  if 16 <=? c then
    if get_high c =? get_low c then Done (t, get_low c)
    else
      let! w := load (running_write s) (get_high c) in
      if w =? get_high c then Done (t, get_high c)
      else
        let! t := on_cache t (fun s => add_reorder s (get_high c) 1) in
        Done (t, get_high c)
  else
    let! n := load (reorder_wait_flag s) (get_low c) in
    if n =? 1 then let! t := free_reorder_wait t (get_low c) in Done (t, -1)
    else
      let! w := load (running_write s) (get_low c) in
      if w =? -1 then Done (t, get_low c)
      else let! t := free_reorder_wait t (get_low c) in Done (t, -1).

Section ops.
Context (f : flags) (FLAGS_cable_cache FLAGS_switch_cache : bool).
Context (server_id thread_id : Z) (draws_of : nat -> draw).

(** *** cworker_new_request_kv *)
Definition begin_request (x : KvCtx) (d : draw) : KvCtx :=
  mkCtx (if d_op d <? FLAGS_read f then kEnumReadReq else kEnumWriteReq) (wrap 64 (d_key d + 1))
    (wrap 16 (cmagic x + 1)) 0 0.

Definition cacheable (x : KvCtx) : bool := (ckey x <? 65535) && FLAGS_cable_cache && FLAGS_switch_cache.

Definition write_and_read (x : KvCtx) : KvCtx :=
  if cacheable x && (cop x =? kEnumWriteReq)
  then mkCtx kEnumWriteAndRead (ckey x) (cmagic x) (cserver_id x) (cthread_id x) else x.

Definition request_msg (x : KvCtx) (coro : Z) (d : draw) : RawKvMsg :=
  let m := d_buf d in
  mkMsg (mkHeader (cserver_id x) server_id thread_id coro 0 (wrap 8 (cop x)) 0)
    (if cacheable x then 1 else 0) (wrap 16 (Z.land (ckey x) 65535))
    (wrap 8 (KvClient.compute_gid server_id thread_id)) coro (cmagic x) (server_map m) (wrap 16 (d_port d))
    (generate_coro_id coro (cop x) thread_id) (wrap 32 (ckey x)) (wrap 32 (ckey x)) (route_port m) (route_map m)
    (toBigEndian16 (KvClient.get_thread_port thread_id (coro mod KvClient.kConfigMaxQPCnt)))
    (send_cnt m) (index_port m) (magic_in_switch m) (timestamp m) (payload m).

Definition with_coro_id (m : RawKvMsg) (v : Z) : RawKvMsg :=
  mkMsg (rpc_header m) (flag m) (switch_key m) (kv_g_id m) (kv_c_id m) (magic m) (server_map m) (qp_map m) v
    (key m) (log_id m) (route_port m) (route_map m) (client_port m) (send_cnt m) (index_port m)
    (magic_in_switch m) (timestamp m) (payload m).

Definition post (a : fsrpc) (m : RawKvMsg) (size : Z) : fsrpc :=
  mkRpc (cache a) (kv_ctx a) (index_buf_cnt a) (draws a) (posted a ++ [(m, size)]).

(** Up to its suspension, with cache_tag. *)
Definition cworker_new_request_kv (t : thread) (coro_id : Z) : outcome (thread * option bool) :=
  let a := app t in
  let d := draws_of (draws a) in
  let! x := load (kv_ctx a) coro_id in
  let x := write_and_read (begin_request x d) in
  let! xs := store (kv_ctx a) coro_id x in
  let a := mkRpc (cache a) xs (index_buf_cnt a) (S (draws a)) (posted a) in
  let m := request_msg x coro_id d in
  if flag m =? 0 then Done (with_app t (post a m (get_size f (cop x))), Some false)
  else
    let! (joined, head_id, s) := new_request (FLAGS_coro_num f) (cache a) (key m) coro_id (cop x) (magic m) coro_id in
    let a := with_cache a s in
    if (joined : bool) then Done (with_app t a, Some true)
    else
      let m := with_coro_id m (generate_coro_id head_id (cop x) thread_id) in
      Done (with_app t (post a m (get_size f (cop x))), Some false).

(** The rest: the reply must have the key. *)
Definition cworker_resume_kv (t : thread) (coro_id : Z) (cache_tag : bool) : outcome (thread * option bool) :=
  let! x := load (kv_ctx (app t)) coro_id in
  let! c := load (coro_ctx t) coro_id in
  match msg_ptr c with
  | None => Fault NullDeref
  | Some reply => if key reply =? ckey x then Done (t, None) else Fault ProcessExit
  end.

(** The latency classes the end of a request reports. *)
Definition report (x : KvCtx) (cache_tag : bool) (reply : RawKvMsg) : list Z :=
  (if cop x =? kEnumReadReq then [4] else [5]) ++
  (if cache_tag then [1]
   else if negb (src_s_id (rpc_header reply) =? server_id) || negb (src_t_id (rpc_header reply) =? thread_id)
   then [2] else []) ++
  (if ckey x <? 65535 then [3] else []).

Definition client_get_cid (t : thread) (reply : RawKvMsg) : outcome (thread * Z) :=
  if flag reply =? 1 then
    let! (t, c) := check_reply t reply thread_id in Done (t, signed 8 c)
  else Done (t, signed 8 (src_c_id (rpc_header reply))).

(** *** after_process_reply *)

(** free stays false while a reply is still to come. *)
Definition hold (t : thread) (id : Z) : outcome thread :=
  let! n := load (reorder_wait_flag (cache (app t))) id in
  if n =? 1 then update_ctx t id (fun x => with_free x false) else Done t.

(** The loop over same_coro[c_id], from its [j]-th element on. *)
Fixpoint wake_same (fuel : nat) (c : client) (reply : RawKvMsg) (c_id j : Z) : outcome client :=
  let! l := load (same_coro (cache (app (th c)))) c_id in
  match zget l j with
  | None => Done c
  | Some id =>
      match fuel with
      | O => Fault Diverges
      | S fuel =>
          let! t := update_ctx (th c) id (fun x => with_msg x reply) in
          let! c := call_slave cworker_new_request_kv cworker_resume_kv (with_th c t) id in
          let! t := hold (th c) id in
          wake_same fuel (with_th c t) reply c_id (j + 1)
      end
  end.

Definition wake_fuel : nat := Z.to_nat kConfigCoroCnt.

Definition after_process_reply (c : client) (reply : RawKvMsg) (c_id : Z) : outcome client :=
  let! c := (if FLAGS_cable_cache && negb (flag reply =? 0) then
               let! c := wake_same wake_fuel c reply c_id 0 in
               let! t := hold (th c) c_id in
               let! t := on_cache t (fun s => clear s c_id) in
               Done (with_th c t)
             else Done c) in
  if FLAGS_visibility f then
    let a := app (th c) in
    let! l := store (index_buf_cnt a) (Z.log2 (toBigEndian16 (index_port reply))) (toBigEndian16 (send_cnt reply)) in
    Done (with_th c (with_app (th c) (mkRpc (cache a) (kv_ctx a) l (draws a) (posted a))))
  else Done c.

(** A turn of run_client_CPC with cworker_new_request_kv as the application. *)
Definition kv_turn (c : client) (replies : list RawKvMsg) : outcome client :=
  turn cworker_new_request_kv cworker_resume_kv client_get_cid after_process_reply (FLAGS_coro_num f) c [] replies.
End ops.

(** ** The nodes: server_process_msg *)
Section nodes.
Context {I : Type} `{IndexOps I}.
Import KvServer.

Record node := mkNode { nkv : SampleLog; nindex : I }.

Definition with_kv (n : node) (l : SampleLog) : node := mkNode l (nindex n).

(** Values start behind the key; get and put copy log_size bytes. *)
Definition process_op (f : flags) (thread_id : Z) (n : node) (req reply : RawKvMsg) : outcome (RawKvMsg * node) :=
  let o := msg_op req in
  if o =? kEnumReadReq then
    let! bs := get f (nkv n) (key req) in
    let! reply := Secondary.put_bytes reply sizeof_KvKeyType bs in
    Done (with_op reply kEnumReadReply, n)
  else if o =? kEnumWriteReq then
    let! bs := Secondary.get_bytes req sizeof_KvKeyType (log_size f) in
    let! l := put f (nkv n) (key req) bs in
    Done (with_op reply kEnumWriteReply, with_kv n l)
  else if o =? kEnumWriteAndRead then
    let! bs := Secondary.get_bytes req sizeof_KvKeyType (log_size f) in
    let! l := put f (nkv n) (key req) bs in
    let! v := Secondary.get_bytes req sizeof_KvKeyType (FLAGS_kv_size_b f) in
    let! reply := Secondary.put_bytes (with_op reply kEnumWriteReplyWithData) sizeof_KvKeyType v in
    Done (reply, with_kv n l)
  else if o =? kEnumReadLog then
    let! bs := get f (nkv n) (logid_2_locallogid f (log_id req)) in
    let! reply := Secondary.put_bytes reply 0 bs in
    Done (with_op reply kEnumReadReply, n)
  else if o =? kEnumAppendReq then
    let! bs := Secondary.get_bytes req 0 (log_size f) in
    let! (local, l) := append f (nkv n) bs in
    let reply := with_log_id reply (compute_log_id f local thread_id) in
    let! k := Secondary.get_bytes req 0 sizeof_KvKeyType in
    let! reply := Secondary.put_bytes reply 0 k in
    Done (with_route_map (with_op reply kEnumAppendReply) (route_map req), with_kv n l)
  else if o =? kEnumReadIndexReq then
    let! k := Secondary.get_word req 0 in
    let (found, return_value) := get_long (nindex n) k 0 in
    let reply := if (found : bool) then reply else with_key reply 4294967295 in
    Done (with_op (with_log_id reply (wrap 32 return_value)) kEnumReadIndexReply, n)
  else if o =? kEnumMultiCastPkt then
    let! k := Secondary.get_word req 0 in
    Done (with_op reply ReplySwitch, mkNode (nkv n) (put_long (nindex n) k (log_id req)).2)
  else if o =? kEnumUpdateIndexReq then
    let! k := Secondary.get_word req 0 in
    Done (with_op reply kEnumUpdateIndexReply, mkNode (nkv n) (put_long (nindex n) k (log_id req)).2)
  else Fault ProcessExit.

(** The assignments before the switch and after it. *)
Definition reply_prologue (req reply : RawKvMsg) : RawKvMsg :=
  mkMsg (rpc_header reply) (flag reply) (switch_key reply) (kv_g_id reply) (kv_c_id reply) (magic reply)
    (server_map reply) (qp_map reply) (coro_id reply) (key req) (log_id reply) (route_port reply)
    (route_map reply) (client_port reply) 0 (index_port req) (magic_in_switch reply) (timestamp reply)
    (payload reply).

Definition server_process_msg (f : flags) (thread_id : Z) (n : node) (req reply : RawKvMsg) : outcome (RawKvMsg * node * Z) :=
  let! (r, n) := process_op f thread_id n req (reply_prologue req reply) in
  let! conf := of_option OutOfBounds (zget server_config kClientId) in
  Done (KvServer.reply_epilogue req r (port_id conf), n, get_size f (msg_op r)).

Definition serve (f : flags) (thread_id : Z) (n : node) (req stale : RawKvMsg) : outcome (RawKvMsg * node * Z) :=
  server_process_msg f thread_id n req (with_rpc_header stale (reply_header (rpc_header req))).
End nodes.
#[global] Arguments node : clear implicits.
End Cable.
