(* ===== verification/CableCoroModel.v ===== *)
(** * Why the cable cache loses no request

    Module [CableCoro]: the coroutines of one client thread of [Cable].  [inv] says of
    every coroutine what it waits for: which messages of its are under way, and whose
    reply will wake it.  Starting a request and handling any reply under way succeed
    and keep it. *)

From stdpp Require Import functions.
From S2P Require Import Prelude KvMessageModel KvServerModel KvClientModel SecondaryModel RpcClientModel CableModel.
Import KvMessage.

Module CableCoro.
Import RpcClient Cable.

(** ** What a coroutine waits for *)
Inductive role :=
  | Reading            (* the read of the key is under way *)
  | Writing            (* a write is, and no read *)
  | Both (w : Z)       (* the read, and a write by [w] *)
  | WriteLeft (w : Z). (* the reply of the read was dropped *)

Inductive status :=
  | Idle
  | Parked             (* done, but the reply of its read is still under way *)
  | Alone              (* its request bypasses the cache *)
  | Leader (r : role)
  | Follower (h : Z).  (* woken with [h] *)

#[export] Instance role_eq_dec : EqDecision role.
Proof. solve_decision. Defined.
#[export] Instance status_eq_dec : EqDecision status.
Proof. solve_decision. Defined.

Definition reorder_of (s : status) : Z :=
  match s with Parked => 1 | Leader (WriteLeft _) => -1 | _ => 0 end.
Definition writer_of (i : Z) (s : status) : Z :=
  match s with Leader Writing => i | Leader (Both w) | Leader (WriteLeft w) => w | _ => -1 end.
Definition leads (s : status) : bool := match s with Leader _ => true | _ => false end.
Definition free_of (s : status) : bool := match s with Idle => true | _ => false end.
Definition waiting (s : status) : bool := match s with Idle | Parked => false | _ => true end.

(** The reply of a read or of a write that [i] leads. *)
Definition is_read (tid i : Z) (m : RawKvMsg) : Prop := flag m = 1 /\ coro_byte m tid = i + 1.
Definition is_write (tid i : Z) (m : RawKvMsg) : Prop := flag m = 1 /\ coro_byte m tid = 16 * (i + 1).
Definition is_plain (i : Z) (m : RawKvMsg) : Prop := flag m = 0 /\ src_c_id (rpc_header m) = i.

(** The messages of [i] that are under way, [k] the key it asked for. *)
Definition under_way (tid i k : Z) (s : status) (ms : list RawKvMsg) : Prop :=
  match s with
  | Idle | Follower _ => ms = []
  | Parked => exists m, ms = [m] /\ is_read tid i m
  | Alone => exists m, ms = [m] /\ is_plain i m /\ key m = k
  | Leader Reading => exists m, ms = [m] /\ is_read tid i m /\ key m = k
  | Leader Writing | Leader (WriteLeft _) => exists m, ms = [m] /\ is_write tid i m /\ key m = k
  | Leader (Both _) => exists m m', ms ≡ₚ [m; m'] /\ is_read tid i m /\ is_write tid i m' /\ key m = k /\ key m' = k
  end.

Section system.
Context (f : flags) (tid : Z).
Notation n := (FLAGS_coro_num f).
Notation thread := (RpcClient.thread fsrpc RawKvMsg).
Notation client := (RpcClient.client fsrpc bool RawKvMsg).
Implicit Types (c : client) (t : thread) (i j h : Z).

(** The arrays of a client. *)
Definition slave c i : option (option bool) := zget (coro_slave c) i.
Definition ctx c i : option (CoroCtx RawKvMsg) := zget (coro_ctx (th c)) i.
Definition csh c : CableCache := cache (app (th c)).
Definition kctx c i : option KvCtx := zget (kv_ctx (app (th c))) i.

Record sized c : Prop := {
  sz_slave : zlen (coro_slave c) = n;
  sz_ctx : zlen (coro_ctx (th c)) = kConfigCoroCnt;
  sz_key : zlen (key_ (csh c)) = kConfigCoroCnt;
  sz_reorder : zlen (reorder_wait_flag (csh c)) = kConfigCoroCnt;
  sz_running : zlen (running (csh c)) = kConfigCoroCnt;
  sz_magic : zlen (magic_check (csh c)) = kConfigCoroCnt;
  sz_same : zlen (same_coro (csh c)) = kConfigCoroCnt;
  sz_write : zlen (running_write (csh c)) = kConfigCoroCnt;
  sz_kv : zlen (kv_ctx (app (th c))) = kConfigCoroCnt }.

(** What the arrays say of coroutine [i], in status [σ i], with [k] its key. *)
Record cell c (σ : Z -> status) i k : Prop := {
  ce_slave : exists b, slave c i = Some b /\ (b = None <-> waiting (σ i) = false);
  ce_ctx : exists x, ctx c i = Some x /\ free x = free_of (σ i) /\ async_op_cnt x = -1;
  ce_reorder : zget (reorder_wait_flag (csh c)) i = Some (reorder_of (σ i));
  ce_writer : zget (running_write (csh c)) i = Some (writer_of i (σ i));
  ce_running : zget (running (csh c)) i = Some (leads (σ i));
  ce_kv : exists x, kctx c i = Some x /\ ckey x = k }.

(** Who follows [i] stands in its list. *)
Definition followers_ok c (σ : Z -> status) i k : Prop :=
  match σ i with
  | Leader r =>
      zget (key_ (csh c)) i = Some k /\ in_width 32 k /\
      (match r with Both w | WriteLeft w => 0 <= w /\ w <> i | _ => True end) /\
      exists l, zget (same_coro (csh c)) i = Some l /\ NoDup l /\
        forall j, j ∈ l <-> 0 <= j < n /\ σ j = Follower i
  | _ => True
  end.

Definition follows_ok (σ : Z -> status) (K : Z -> Z) i : Prop :=
  match σ i with
  | Follower h => 0 <= h < n /\ leads (σ h) = true /\ K h = K i
  | _ => True
  end.

Record inv c (σ : Z -> status) (K : Z -> Z) (M : Z -> list RawKvMsg) : Prop := {
  iv_sized : sized c;
  iv_cell i : 0 <= i < n -> cell c σ i (K i);
  iv_list i : 0 <= i < n -> followers_ok c σ i (K i);
  iv_follow i : 0 <= i < n -> follows_ok σ K i;
  iv_msgs i : 0 <= i < n -> under_way tid i (K i) (σ i) (M i) }.

(** All messages under way. *)
Definition all_msgs (M : Z -> list RawKvMsg) : list RawKvMsg := concat (map M (seqZ 0 n)).

(** ** Frames *)
Record agree c c' j : Prop := {
  ag_slave : slave c' j = slave c j;
  ag_ctx : ctx c' j = ctx c j;
  ag_kv : kctx c' j = kctx c j;
  ag_reorder : zget (reorder_wait_flag (csh c')) j = zget (reorder_wait_flag (csh c)) j;
  ag_writer : zget (running_write (csh c')) j = zget (running_write (csh c)) j;
  ag_running : zget (running (csh c')) j = zget (running (csh c)) j;
  ag_key : zget (key_ (csh c')) j = zget (key_ (csh c)) j;
  ag_same : zget (same_coro (csh c')) j = zget (same_coro (csh c)) j }.

Lemma cell_frame c c' σ σ' j k : agree c c' j -> σ' j = σ j -> cell c σ j k -> cell c' σ' j k.
Proof.
  intros [] Hs []. split; rewrite ?Hs; try congruence.
  - destruct ce_slave0 as (b & ? & ?). exists b. split; [congruence|done].
  - destruct ce_ctx0 as (x & ? & ?). exists x. split; [congruence|done].
  - destruct ce_kv0 as (x & ? & ?). exists x. split; [congruence|done].
Qed.

Lemma followers_frame c c' σ σ' j k :
  agree c c' j -> σ' j = σ j -> (forall i, 0 <= i < n -> σ' i = Follower j <-> σ i = Follower j) ->
  followers_ok c σ j k -> followers_ok c' σ' j k.
Proof.
  intros [] Hs Hf. unfold followers_ok. rewrite Hs. destruct (σ j) as [| | |r|]; try done.
  intros (? & ? & ? & l & ? & ? & Hl). split; [congruence|]. do 2 (split; [done|]). exists l. split; [congruence|].
  split; [done|]. intros i. rewrite Hl. split; intros [? ?]; (split; [done|]); by apply Hf.
Qed.

Lemma follows_frame (σ σ' : Z -> status) (K K' : Z -> Z) j :
  σ' j = σ j -> K' j = K j -> (forall h, 0 <= h < n -> σ j = Follower h -> leads (σ h) = true -> leads (σ' h) = true /\ K' h = K h) ->
  follows_ok σ K j -> follows_ok σ' K' j.
Proof.
  intros Hs Hk Hh. unfold follows_ok. rewrite Hs. destruct (σ j) as [| | | |h]; try done.
  intros (? & Hl & E). destruct (Hh h) as [? ->]; [done|done|done|]. by rewrite Hk.
Qed.

(** An operation that touches the coroutines of [S] only. *)
Lemma inv_change c c' (σ σ' : Z -> status) (K K' : Z -> Z) (M M' : Z -> list RawKvMsg) (S : list Z) :
  inv c σ K M -> sized c' ->
  (forall j, 0 <= j < n -> j ∉ S -> agree c c' j /\ σ' j = σ j /\ K' j = K j /\ M' j = M j) ->
  (forall j, 0 <= j < n -> j ∉ S -> leads (σ j) = true -> forall i, 0 <= i < n -> σ' i = Follower j <-> σ i = Follower j) ->
  (forall j h, 0 <= j < n -> j ∉ S -> 0 <= h < n -> σ j = Follower h -> leads (σ h) = true ->
     leads (σ' h) = true /\ K' h = K h) ->
  (forall j, 0 <= j < n -> j ∈ S ->
     cell c' σ' j (K' j) /\ followers_ok c' σ' j (K' j) /\ follows_ok σ' K' j /\ under_way tid j (K' j) (σ' j) (M' j)) ->
  inv c' σ' K' M'.
Proof.
  intros [I1 I2 I3 I4 I5] Hsz Ho Hl Hf Hs.
  split; [done|..]; intros j Hj; (destruct (decide (j ∈ S)) as [Hin|Hin]; [by apply Hs|]);
    destruct (Ho j Hj Hin) as (Ha & Eσ & EK & EM); rewrite ?EK.
  - eapply cell_frame; eauto.
  - destruct (leads (σ j)) eqn:El; [eapply followers_frame; eauto|].
    unfold followers_ok. rewrite Eσ. by destruct (σ j).
  - eapply follows_frame; eauto.
  - rewrite Eσ, EM. auto.
Qed.

(** ** Messages under way *)
Lemma seqZ_split i : 0 <= i < n -> seqZ 0 n = seqZ 0 i ++ i :: seqZ (i + 1) (n - i - 1).
Proof.
  intros Hi. replace n with (i + (n - i)) at 1 by lia. rewrite seqZ_app by lia. f_equal.
  rewrite (seqZ_cons (0 + i)) by lia. by rewrite Z.add_0_l, <- Z.add_1_r, <- Z.sub_1_r.
Qed.

Lemma map_fn_insert {B} (M : Z -> B) i b l : i ∉ l -> map (<[i := b]> M) l = map M l.
Proof.
  intros Hi. apply map_ext_in. intros j Hj. apply fn_lookup_insert_ne. intros ->. apply Hi. by apply list_elem_of_In.
Qed.

Lemma all_msgs_insert M i ms : 0 <= i < n -> all_msgs (<[i := ms]> M) ++ M i ≡ₚ all_msgs M ++ ms.
Proof.
  intros Hi. unfold all_msgs. rewrite (seqZ_split i Hi), !map_app, !concat_app. cbn [map concat].
  rewrite fn_lookup_insert, !map_fn_insert by (rewrite elem_of_seqZ; lia). solve_Permutation.
Qed.

Lemma elem_of_all_msgs M m : m ∈ all_msgs M <-> exists i, 0 <= i < n /\ m ∈ M i.
Proof.
  unfold all_msgs. rewrite list_elem_of_In, in_concat. split.
  - intros (ms & (i & <- & Hi)%in_map_iff & Hm). apply list_elem_of_In in Hi, Hm. apply elem_of_seqZ in Hi. exists i. split; [lia|done].
  - intros (i & Hi & Hm). exists (M i). split; [|by apply list_elem_of_In].
    apply in_map, list_elem_of_In, elem_of_seqZ. lia.
Qed.

(** ** The byte of a thread *)
Hypothesis threads : 0 <= tid < 8.
Hypothesis coros : 0 <= n <= 15.

Lemma byte_of_id b (v : RawKvMsg) s :
  0 <= b < 16 -> 0 <= s <= 4 -> coro_id v = wrap 64 (Z.shiftl b (tid * 8 + s)) -> coro_byte v tid = b * 2 ^ s.
Proof.
  intros Hb Hs E. unfold coro_byte. rewrite E.
  assert (H2 : b * 2 ^ s < 256).
  { assert (2 ^ s <= 2 ^ 4) by (apply Z.pow_le_mono_r; lia). change (2 ^ 4) with 16 in *. nia. }
  assert (0 <= b * 2 ^ s) by (pose proof (Z.pow_nonneg 2 s); nia).
  rewrite Z.shiftl_mul_pow2, Z.pow_add_r by lia.
  replace (b * (2 ^ (tid * 8) * 2 ^ s)) with (b * 2 ^ s * 2 ^ (tid * 8)) by lia.
  rewrite wrap_small.
  - rewrite Z.shiftr_div_pow2, Z.div_mul by lia. change 255 with (Z.ones 8). rewrite Z.land_ones by lia.
    apply Z.mod_small. change (2 ^ 8) with 256. lia.
  - unfold in_width. split; [nia|]. apply Z.lt_le_trans with (256 * 2 ^ (tid * 8)); [nia|].
    change 256 with (2 ^ 8). rewrite <- Z.pow_add_r by lia. apply Z.pow_le_mono_r; lia.
Qed.

Lemma low_of_read i : 0 <= i < n -> get_low (i + 1) = i.
Proof.
  intros Hi. unfold get_low. change 15 with (Z.ones 4). rewrite Z.land_ones, Z.mod_small by (change (2 ^ 4) with 16; lia).
  rewrite Z.add_simpl_r. apply wrap_small. unfold in_width. lia.
Qed.

Lemma bits_of_write i : 0 <= i < n -> get_high (16 * (i + 1)) = i /\ get_low (16 * (i + 1)) = 255.
Proof.
  intros Hi. assert (Hc : i ∈ seqZ 0 15) by (apply elem_of_seqZ; lia). clear Hi.
  revert i Hc. apply Forall_forall. vm_compute. repeat constructor.
Qed.

(** ** Starting a request *)
Context (FLAGS_cable_cache FLAGS_switch_cache : bool) (server_id : Z) (draws_of : nat -> draw).
(** The keys the workload draws are entries of the log, and the send buffers hold
    [B] bytes behind the struct. *)
Context (B : Z).
Hypothesis logspace_32 : FLAGS_logspace f <= 2 ^ 32.
Hypothesis draws_ok : forall k, 0 <= d_key (draws_of k) < FLAGS_logspace f - 1 /\ zlen (payload (d_buf (draws_of k))) = B.
Notation nr := (cworker_new_request_kv f FLAGS_cable_cache FLAGS_switch_cache server_id tid draws_of).
Notation re := cworker_resume_kv.

Lemma find_running_ok c σ K M rk : inv c σ K M -> forall k i, 0 <= i -> i + Z.of_nat k <= n ->
  exists r, find_running k (csh c) rk i = Done r /\
    match r with Some h => 0 <= h < n /\ leads (σ h) = true /\ K h = rk | None => True end.
Proof.
  intros Hi. induction k as [|k IH]; intros i H0 Hn; cbn [find_running]; [by exists None|].
  pose proof (iv_cell _ _ _ _ Hi i ltac:(lia)) as [_ _ _ _ Hr _]. rewrite (load_in_range _ _ _ Hr). cbn [obind].
  destruct (leads (σ i)) eqn:El; cbn [negb]; [|apply IH; lia].
  pose proof (iv_list _ _ _ _ Hi i ltac:(lia)) as Hl. unfold followers_ok in Hl. destruct (σ i) eqn:Es; try done.
  destruct Hl as (Hk & Hw & _). rewrite (load_in_range _ _ _ Hk). cbn [obind].
  destruct (Z.eqb_spec (wrap 64 (K i)) rk) as [E|E]; [|apply IH; lia].
  eexists. split; [done|]. split; [lia|]. split; [by rewrite Es|].
  rewrite wrap_small in E; [done|]. unfold in_width in *. lia.
Qed.

(** What new_request does to the cache: a new leader, a follower, or a follower that
    sends its write. *)
Definition leader_cache (s : CableCache) (i rk o mg : Z) : CableCache :=
  mkCache (zset (key_ s) i (signed 64 rk)) (reorder_wait_flag s) (zset (running s) i true)
    (if o =? kEnumWriteAndRead then magic_check s else zset (magic_check s) i mg)
    (zset (same_coro s) i []) (if o =? kEnumWriteAndRead then zset (running_write s) i i else running_write s).

Lemma become_head_ok c rk i o mg : sized c -> 0 <= i < n ->
  become_head (csh c) rk i o mg = Done (leader_cache (csh c) i rk o mg).
Proof.
  intros [] Hi. unfold become_head, leader_cache, kConfigCoroCnt in *. repeat rewrite store_in_range by lia. cbn [obind].
  destruct (o =? kEnumWriteAndRead); rewrite ?store_in_range by lia; done.
Qed.

Inductive joins c (σ : Z -> status) i rk o mg : bool * Z * CableCache -> Prop :=
  | j_lead : joins c σ i rk o mg (false, i, leader_cache (csh c) i rk o mg)
  | j_wait h l : 0 <= h < n -> leads (σ h) = true -> zget (same_coro (csh c)) h = Some l ->
      joins c σ i rk o mg (true, h, with_same (csh c) (zset (same_coro (csh c)) h (l ++ [i])))
  | j_write h l : 0 <= h < n -> σ h = Leader Reading -> zget (same_coro (csh c)) h = Some l ->
      o = kEnumWriteAndRead ->
      joins c σ i rk o mg (false, h,
        with_running_write (with_same (csh c) (zset (same_coro (csh c)) h (l ++ [i]))) (zset (running_write (csh c)) h i)).

Lemma new_request_ok c σ K M i rk o mg hd : inv c σ K M -> 0 <= i < n ->
  o = kEnumReadReq \/ o = kEnumWriteAndRead ->
  exists r, new_request n (csh c) rk i o mg hd = Done r /\ joins c σ i rk o mg r /\
    (r.1.2 <> i -> K r.1.2 = rk).
Proof.
  intros Hi Hr Ho. unfold new_request.
  destruct (find_running_ok c σ K M rk Hi (Z.to_nat n) 0) as (r & -> & Hf); [lia|lia|]. cbn [obind].
  destruct r as [h|].
  - destruct Hf as (Hh & Hl & Hk). pose proof (iv_cell _ _ _ _ Hi h Hh) as [_ _ _ Hw _ _].
    pose proof (iv_list _ _ _ _ Hi h Hh) as Hs. unfold followers_ok in Hs. destruct (σ h) as [| | |r|] eqn:Es; try done.
    destruct Hs as (_ & _ & Hrole & l & El & _). unfold push_same. rewrite (load_in_range _ _ _ El). cbn [obind].
    rewrite store_in_range by (by eapply zget_Some_range). cbn [obind].
    destruct Ho as [-> | ->].
    + eexists. split; [reflexivity|]. split; [|done]. apply j_wait; [done|by rewrite Es|done].
    + simpl (kEnumWriteAndRead =? kEnumReadReq). simpl (kEnumWriteAndRead =? kEnumWriteAndRead). cbn iota.
      change (running_write (with_same (csh c) _)) with (running_write (csh c)).
      rewrite (load_in_range _ _ _ Hw). cbn [obind]. destruct (Z.eqb_spec (writer_of h (Leader r)) (-1)) as [E|E]; cbn [negb].
      * rewrite store_in_range by (by eapply zget_Some_range). cbn [obind]. eexists. split; [reflexivity|]. split; [|done].
        apply j_write; [done| |done|done]. rewrite Es. destruct r; simpl in *; [done|lia..].
      * eexists. split; [reflexivity|]. split; [|done]. apply j_wait; [done|by rewrite Es|done].
  - rewrite (become_head_ok c) by (done || apply Hi). cbn [obind]. eexists. split; [reflexivity|]. split; [apply j_lead|done].
Qed.

Definition started c i (x : CoroCtx RawKvMsg) (xs : list KvCtx) (s : CableCache) (d : nat) (ps : list (RawKvMsg * Z)) (tag : bool) : client :=
  mkClient (mkThread (mkRpc s xs (index_buf_cnt (app (th c))) d ps) (zset (coro_ctx (th c)) i (with_free x false)))
    (zset (coro_slave c) i (Some tag)).

Lemma cacheable_op x0 d y :
  y = write_and_read FLAGS_cable_cache FLAGS_switch_cache (begin_request f x0 d) ->
  cacheable FLAGS_cable_cache FLAGS_switch_cache y = true -> cop y = kEnumReadReq \/ cop y = kEnumWriteAndRead.
Proof.
  intros ->. unfold write_and_read. destruct (cacheable _ _ (begin_request f x0 d)) eqn:Ec; cbn [andb].
  - intros _. unfold begin_request. cbn [cop]. destruct (_ <? _); [by left|by right].
  - intros Ec'. congruence.
Qed.

(** What a coroutine does first: at the sink() of client_worker. *)
Lemma start_computes c σ K M i : inv c σ K M -> 0 <= i < n -> σ i = Idle ->
  exists x y0 d, ctx c i = Some x /\ kctx c i = Some y0 /\ d = draws_of (draws (app (th c))) /\
    let y := write_and_read FLAGS_cable_cache FLAGS_switch_cache (begin_request f y0 d) in
    let xs := zset (kv_ctx (app (th c))) i y in
    let m := request_msg FLAGS_cable_cache FLAGS_switch_cache server_id tid y i d in
    if cacheable FLAGS_cable_cache FLAGS_switch_cache y then
      exists r, joins c σ i (ckey y) (cop y) (magic m) r /\ (r.1.2 <> i -> K r.1.2 = ckey y) /\
        call_slave nr re c i = Done (started c i x xs r.2 (S (draws (app (th c))))
          (if r.1.1 then posted (app (th c))
           else posted (app (th c)) ++ [(with_coro_id m (generate_coro_id r.1.2 (cop y) tid), get_size f (cop y))]) r.1.1)
    else call_slave nr re c i = Done (started c i x xs (csh c) (S (draws (app (th c))))
           (posted (app (th c)) ++ [(m, get_size f (cop y))]) false).
Proof.
  intros Hi Hr Es. pose proof (iv_cell _ _ _ _ Hi i Hr) as [Hs Hx _ _ _ Hk].
  destruct Hs as (b & Hs & Hb). rewrite Es in Hb. apply proj2 in Hb. specialize (Hb eq_refl). subst b.
  destruct Hx as (x & Hx & _). destruct Hk as (y0 & Hy & _).
  exists x, y0, (draws_of (draws (app (th c)))). do 3 (split; [done|]). cbn zeta.
  set (d := draws_of _). set (y := write_and_read _ _ _). set (xs := zset _ i y). set (m := request_msg _ _ _ _ _ _ _).
  assert (Ht : forall t r, nr (mkThread (app (th c)) (zset (coro_ctx (th c)) i (with_free x false))) i = Done (t, Some r) ->
    call_slave nr re c i = Done (mkClient t (zset (coro_slave c) i (Some r)))).
  { intros t r E. by apply (call_slave_new _ _ _ _ x). }
  set (t0 := mkThread (app (th c)) _) in Ht.
  assert (HN : nr t0 i = ltac:(let e := eval unfold cworker_new_request_kv in (nr t0 i) in exact e)) by reflexivity.
  cbn [app t0] in HN. fold d in HN.
  rewrite (load_in_range _ _ _ Hy) in HN. cbn [obind] in HN. fold y in HN.
  rewrite store_in_range in HN by (by eapply zget_Some_range). cbn [obind] in HN. fold xs in HN. fold m in HN.
  change (flag m) with (if cacheable FLAGS_cable_cache FLAGS_switch_cache y then 1 else 0) in HN.
  destruct (cacheable FLAGS_cable_cache FLAGS_switch_cache y) eqn:Ec; simpl (_ =? 0) in HN; cbn iota in HN.
  - assert (Ho : cop y = kEnumReadReq \/ cop y = kEnumWriteAndRead).
    { by eapply cacheable_op. }
    assert (Hk : key m = ckey y).
    { apply wrap_small. unfold cacheable in Ec. rewrite !andb_true_iff, Z.ltb_lt in Ec.
      assert (0 <= ckey y).
      { unfold y, write_and_read. destruct (_ && _); simpl; apply wrap_range; lia. }
      unfold in_width. lia. }
    cbn [cache] in HN. fold (csh c) in HN. rewrite Hk in HN.
    destruct (new_request_ok c σ K M i (ckey y) (cop y) (magic m) i Hi Hr Ho) as ([[j hd] s] & E & Hj & Hkk).
    rewrite E in HN. cbn [obind] in HN. exists (j, hd, s). split; [done|]. split; [done|].
    destruct j; by rewrite (Ht _ _ HN).
  - by rewrite (Ht _ _ HN).
Qed.

Lemma sized_started c i x xs s d ps tag :
  sized c -> zlen xs = kConfigCoroCnt -> zlen (key_ s) = kConfigCoroCnt -> zlen (reorder_wait_flag s) = kConfigCoroCnt ->
  zlen (running s) = kConfigCoroCnt -> zlen (magic_check s) = kConfigCoroCnt -> zlen (same_coro s) = kConfigCoroCnt ->
  zlen (running_write s) = kConfigCoroCnt -> sized (started c i x xs s d ps tag).
Proof. intros []. split; unfold csh; cbn; rewrite ?zlen_zset; done. Qed.

(** The cell of the coroutine that started. *)
Lemma cell_started c σ K M i x xs s d ps tag st k : inv c σ K M -> 0 <= i < n -> ctx c i = Some x -> σ i = Idle ->
  waiting st = true -> (exists y, zget xs i = Some y /\ ckey y = k) ->
  zget (reorder_wait_flag s) i = Some (reorder_of st) -> zget (running_write s) i = Some (writer_of i st) ->
  zget (running s) i = Some (leads st) -> cell (started c i x xs s d ps tag) (<[i := st]> σ) i k.
Proof.
  intros Hi Hr Hx Es Hw Hy H1 H2 H3.
  assert (Hf : free_of st = false) by (by destruct st).
  pose proof (iv_sized _ _ _ _ Hi) as []. pose proof (iv_cell _ _ _ _ Hi i Hr) as [_ Hc _ _ _ _].
  destruct Hc as (x0 & Hx0 & _ & Ha). rewrite Hx in Hx0. injection Hx0 as <-.
  split; rewrite ?fn_lookup_insert; [| |done..]; unfold slave, ctx, started; cbn [coro_slave th coro_ctx].
  - exists (Some tag). rewrite zget_zset_eq by lia. split; [done|]. by rewrite Hw.
  - exists (with_free x false). rewrite zget_zset_eq by (unfold kConfigCoroCnt in *; lia). by rewrite Hf.
Qed.

Ltac agree_tac := split; unfold slave, ctx, kctx, csh, started; cbn; rewrite ?zget_zset_ne by done; done.

(** The cell of another coroutine whose list of followers grew. *)
Lemma insert_other (σ : Z -> status) i st j : j <> i -> (<[i := st]> σ) j = σ j.
Proof. intros. by apply fn_lookup_insert_ne. Qed.

(** A request the data node can serve. *)
Record good (m : RawKvMsg) : Prop := {
  gd_op : msg_op m = kEnumReadReq \/ msg_op m = kEnumWriteReq \/ msg_op m = kEnumWriteAndRead;
  gd_key : 0 <= key m < FLAGS_logspace f;
  gd_len : zlen (payload m) = B }.

Definition posts c c' (M M' : Z -> list RawKvMsg) : Prop :=
  exists ps, posted (app (th c')) = posted (app (th c)) ++ ps /\ all_msgs M' ≡ₚ all_msgs M ++ map fst ps /\
    Forall good (map fst ps).

Lemma start_alone c σ K M i x xs m d sz : inv c σ K M -> 0 <= i < n -> σ i = Idle -> ctx c i = Some x ->
  (exists y, zget xs i = Some y /\ ckey y = key m) -> zlen xs = kConfigCoroCnt ->
  (forall j, j <> i -> zget xs j = kctx c j) -> is_plain i m -> good m ->
  let c' := started c i x xs (csh c) d (posted (app (th c)) ++ [(m, sz)]) false in
  inv c' (<[i := Alone]> σ) (<[i := key m]> K) (<[i := [m]]> M) /\ posts c c' M (<[i := [m]]> M).
Proof.
  intros Hi Hr Es Hx Hy Hlen Hxs Hm Hg c'. pose proof (iv_sized _ _ _ _ Hi) as Hsz. split.
  - apply (inv_change c c' σ _ K _ M _ [i]); [done|by destruct Hsz; apply sized_started|..].
    + intros j Hj Hne%not_elem_of_cons. destruct Hne as [Hne _]. split; [|by rewrite !fn_lookup_insert_ne by done].
      split; unfold slave, ctx, kctx, csh, c', started; cbn; rewrite ?zget_zset_ne by done; try done. by rewrite Hxs.
    + intros j Hj Hne%not_elem_of_cons Hl i' Hi'. destruct (decide (i' = i)) as [->|]; [|by rewrite insert_other].
      rewrite fn_lookup_insert, Es. done.
    + intros j h Hj _ Hh _ Hl. destruct (decide (h = i)) as [->|]; [by rewrite Es in Hl|by rewrite !fn_lookup_insert_ne].
    + intros j Hj ->%list_elem_of_singleton. pose proof (iv_cell _ _ _ _ Hi i Hr) as [_ _ H1 H2 H3 _]. rewrite Es in *.
      rewrite fn_lookup_insert. split; [by eapply cell_started|]. unfold followers_ok, follows_ok. rewrite !fn_lookup_insert.
      split; [done|]. split; [done|]. by exists m.
  - exists [(m, sz)]. split; [done|]. pose proof (all_msgs_insert M i [m] Hr) as E.
    pose proof (iv_msgs _ _ _ _ Hi i Hr) as Hms. rewrite Es in Hms. simpl in Hms. rewrite Hms, app_nil_r in E. split; [done|]. by apply Forall_singleton.
Qed.

(** Nobody follows a coroutine that does not lead. *)
Lemma no_followers c σ K M i j : inv c σ K M -> 0 <= j < n -> leads (σ i) = false -> σ j <> Follower i.
Proof.
  intros Hi Hj Hl E. pose proof (iv_follow _ _ _ _ Hi j Hj) as H. unfold follows_ok in H. rewrite E in H.
  destruct H as (_ & H & _). congruence.
Qed.

Lemma posts_one c c' M i m sz : 0 <= i < n -> good m ->
  posted (app (th c')) = posted (app (th c)) ++ [(m, sz)] -> posts c c' M (<[i := M i ++ [m]]> M).
Proof.
  intros Hr Hg Hp. exists [(m, sz)]. split; [done|]. cbn [map fst]. split; [|by apply Forall_singleton].
  apply (Permutation_app_inv_r (M i)). etrans; [by apply all_msgs_insert|]. solve_Permutation.
Qed.

Definition lead_role (o : Z) : role := if o =? kEnumWriteAndRead then Writing else Reading.

Definition sent (i k o : Z) (m : RawKvMsg) : Prop :=
  key m = k /\ (if o =? kEnumWriteAndRead then is_write tid i m else is_read tid i m).

Lemma start_lead c σ K M i x xs k o mg m d sz : inv c σ K M -> 0 <= i < n -> σ i = Idle -> ctx c i = Some x ->
  (exists y, zget xs i = Some y /\ ckey y = k) -> zlen xs = kConfigCoroCnt ->
  (forall j, j <> i -> zget xs j = kctx c j) -> in_width 32 k -> sent i k o m -> good m ->
  let c' := started c i x xs (leader_cache (csh c) i k o mg) d (posted (app (th c)) ++ [(m, sz)]) false in
  inv c' (<[i := Leader (lead_role o)]> σ) (<[i := k]> K) (<[i := M i ++ [m]]> M) /\ posts c c' M (<[i := M i ++ [m]]> M).
Proof.
  intros Hi Hr Es Hx Hy Hlen Hxs Hk Hm Hg c'. pose proof (iv_sized _ _ _ _ Hi) as Hsz. split; [|by eapply posts_one].
  pose proof Hsz as []. unfold kConfigCoroCnt in *.
  apply (inv_change c c' σ _ K _ M _ [i]); [done| |..].
  - apply sized_started; try done; unfold leader_cache; cbn; rewrite ?zlen_zset; try done; case_match; by rewrite ?zlen_zset.
  - intros j Hj Hne%not_elem_of_cons. destruct Hne as [Hne _]. split; [|by rewrite !fn_lookup_insert_ne by done].
    split; unfold slave, ctx, kctx, csh, c', started, leader_cache; cbn; rewrite ?zget_zset_ne by done; try done; [by rewrite Hxs|].
    case_match; [by rewrite zget_zset_ne by done|done].
  - intros j Hj Hne%not_elem_of_cons Hl i' Hi'. destruct (decide (i' = i)) as [->|]; [|by rewrite insert_other].
    rewrite fn_lookup_insert, Es. done.
  - intros j h Hj _ Hh _ Hl. destruct (decide (h = i)) as [->|]; [by rewrite Es in Hl|by rewrite !fn_lookup_insert_ne].
  - intros j Hj ->%list_elem_of_singleton. pose proof (iv_cell _ _ _ _ Hi i Hr) as [_ _ H1 H2 H3 _].
    pose proof (iv_msgs _ _ _ _ Hi i Hr) as Hms. rewrite Es in *. simpl in Hms. rewrite Hms.
    rewrite !fn_lookup_insert. split; [|split; [|split]].
    + eapply cell_started; try done; unfold leader_cache, lead_role; cbn [reorder_wait_flag running_write running].
      * by destruct (o =? _).
      * destruct (o =? _); [by rewrite zget_zset_eq by lia|done].
      * by rewrite zget_zset_eq by lia.
    + unfold followers_ok. rewrite fn_lookup_insert. unfold c', csh, started, leader_cache in *; cbn.
      rewrite !zget_zset_eq by lia. rewrite signed_small by (unfold in_width in *; lia).
      split; [done|]. split; [done|]. split; [unfold lead_role; by destruct (o =? _)|]. exists []. split; [done|].
      split; [constructor|]. intros j. split; [by intros ?%elem_of_nil|]. intros [Hj' E]. exfalso.
      destruct (decide (j = i)) as [->|Hji]; [by rewrite fn_lookup_insert in E|]. rewrite insert_other in E by done.
      eapply (no_followers c σ K M i j); [done|done| |exact E]. by rewrite Es.
    + unfold follows_ok. by rewrite fn_lookup_insert.
    + destruct Hm as [E Hm]. unfold lead_role. destruct (o =? _); simpl; exists m; done.
Qed.

(** A coroutine joins the followers of [h], whose role may change. *)
Definition joined_cache (s : CableCache) h i (l : list Z) (rw : list Z) : CableCache :=
  mkCache (key_ s) (reorder_wait_flag s) (running s) (magic_check s) (zset (same_coro s) h (l ++ [i])) rw.

Lemma start_follow c σ K M i h r r' x xs l rw M' d ps tag : inv c σ K M -> 0 <= i < n -> 0 <= h < n ->
  σ i = Idle -> ctx c i = Some x -> (exists y, zget xs i = Some y /\ ckey y = K h) -> zlen xs = kConfigCoroCnt ->
  (forall j, j <> i -> zget xs j = kctx c j) ->
  σ h = Leader r -> zget (same_coro (csh c)) h = Some l ->
  zlen rw = kConfigCoroCnt -> zget rw h = Some (writer_of h (Leader r')) ->
  (forall j, j <> h -> zget rw j = zget (running_write (csh c)) j) ->
  (forall j, j <> h -> M' j = M j) -> under_way tid h (K h) (Leader r') (M' h) ->
  reorder_of (Leader r') = reorder_of (Leader r) -> (match r' with Both w | WriteLeft w => 0 <= w /\ w <> h | _ => True end) ->
  inv (started c i x xs (joined_cache (csh c) h i l rw) d ps tag)
    (<[h := Leader r']> (<[i := Follower h]> σ)) (<[i := K h]> K) M'.
Proof.
  intros Hi Hr Hh Es Hx Hy Hlen Hxs Eh El Hrw Hwh Hwj HMj HMh Hre Hro. set (c' := started _ _ _ _ _ _ _ _).
  assert (Hne : h <> i) by congruence.
  pose proof (iv_sized _ _ _ _ Hi) as Hsz. pose proof Hsz as [].
  pose proof (iv_cell _ _ _ _ Hi i Hr) as [_ _ C1 C2 C3 _]. rewrite Es in C1, C2, C3.
  pose proof (iv_cell _ _ _ _ Hi h Hh) as [H1 H2 H3 _ H5 H6]. rewrite Eh in *.
  pose proof (iv_list _ _ _ _ Hi h Hh) as Hl. unfold followers_ok in Hl. rewrite Eh in Hl.
  destruct Hl as (L1 & L2 & _ & l0 & L4 & L5 & L6). rewrite El in L4. injection L4 as <-.
  assert (Ei : (<[h:=Leader r']> (<[i:=Follower h]> σ)) i = Follower h) by (rewrite insert_other by done; apply fn_lookup_insert).
  assert (Ej : forall j, j <> i -> j <> h -> (<[h:=Leader r']> (<[i:=Follower h]> σ)) j = σ j) by (intros; by rewrite !insert_other by done).
  apply (inv_change c c' σ _ K _ M _ [i; h]); [done| |..].
  - unfold csh in *. apply sized_started; try done; unfold joined_cache, csh; cbn; by rewrite ?zlen_zset.
  - intros j Hj Hn. assert (j <> i /\ j <> h) as [Hj1 Hj2] by set_solver.
    split; [|split; [by apply Ej|split; [by rewrite fn_lookup_insert_ne by done|by apply HMj]]].
    split; unfold slave, ctx, kctx, csh, c', started, joined_cache in *; cbn; rewrite ?zget_zset_ne by done; auto.
  - intros j Hj Hn Hlj i' Hi'. assert (j <> i /\ j <> h) as [Hj1 Hj2] by set_solver.
    destruct (decide (i' = h)) as [->|]; [by rewrite fn_lookup_insert, Eh|]. rewrite insert_other by done.
    destruct (decide (i' = i)) as [->|]; [rewrite fn_lookup_insert, Es; naive_solver|by rewrite insert_other].
  - intros j h' Hj Hn Hh' Eh' Hl'. destruct (decide (h' = h)) as [->|].
    + rewrite fn_lookup_insert. by rewrite fn_lookup_insert_ne by done.
    + destruct (decide (h' = i)) as [->|]; [by rewrite Es in Hl'|]. rewrite Ej by done. by rewrite fn_lookup_insert_ne by done.
  - intros j Hj [-> | ->%list_elem_of_singleton]%elem_of_cons.
    + rewrite fn_lookup_insert. split; [|split; [|split]].
      * assert (Hc : cell c' (<[i:=Follower h]> σ) i (K h)).
        { eapply cell_started; try done; unfold joined_cache; cbn [reorder_wait_flag running_write running]; try done. by rewrite Hwj. }
        destruct Hc as [Q1 Q2 Q3 Q4 Q5 Q6]. rewrite fn_lookup_insert in *. split; by rewrite ?Ei.
      * unfold followers_ok. by rewrite Ei.
      * unfold follows_ok. rewrite Ei. split; [done|]. split; [by rewrite fn_lookup_insert|].
        by rewrite fn_lookup_insert, fn_lookup_insert_ne.
      * rewrite Ei, HMj by done. pose proof (iv_msgs _ _ _ _ Hi i Hr) as Hms. by rewrite Es in Hms.
    + rewrite fn_lookup_insert_ne by done. rewrite fn_lookup_insert. split; [|split; [|split]]; [| | |exact HMh].
      * split; rewrite ?fn_lookup_insert; unfold slave, ctx, kctx, csh, c', started, joined_cache in *; cbn;
          rewrite ?zget_zset_ne by done; try done; [exact (eq_trans H3 (f_equal Some (eq_sym Hre)))|by rewrite Hxs].
      * unfold followers_ok. rewrite fn_lookup_insert. unfold csh, c', started, joined_cache in *; cbn.
        split; [done|]. split; [done|]. split; [done|]. exists (l ++ [i]).
        rewrite zget_zset_eq by (by eapply zget_Some_range). split; [done|]. split.
        { apply NoDup_app. split; [done|]. split; [|apply NoDup_singleton].
          intros j Hjl Hji%list_elem_of_singleton. subst. apply L6 in Hjl as [_ Hjl]. congruence. }
        intros j. rewrite elem_of_app, list_elem_of_singleton, L6. split.
        -- intros [[Hj' Ej'] | ->]; [|done]. split; [done|]. rewrite Ej; [done|congruence|congruence].
        -- intros [Hj' Ej']. destruct (decide (j = i)) as [->|]; [by right|left]. split; [done|].
           destruct (decide (j = h)) as [->|]; [by rewrite fn_lookup_insert in Ej'|]. by rewrite Ej in Ej'.
      * unfold follows_ok. by rewrite fn_lookup_insert.
Qed.

Lemma sent_by_head h k o m : 0 <= h < n -> o = kEnumReadReq \/ o = kEnumWriteAndRead -> flag m = 1 -> key m = k ->
  sent h k o (with_coro_id m (generate_coro_id h o tid)).
Proof.
  intros Hh Ho Hf Hk. set (m' := with_coro_id _ _). split; [done|].
  assert (Hc : coro_id m' = generate_coro_id h o tid) by done. unfold generate_coro_id in Hc.
  destruct Ho as [-> | ->]; [change (if _ =? _ then 0 else 4) with 0 in Hc|change (if _ =? _ then 0 else 4) with 4 in Hc];
    apply byte_of_id in Hc; [|lia|lia| |lia|lia]; simpl; (split; [done|]); rewrite Hc; lia.
Qed.

(** A free coroutine starts a request: nothing fails, and the messages it posts are
    those it then waits for. *)
Lemma start_idle c σ K M i : inv c σ K M -> 0 <= i < n -> σ i = Idle ->
  exists c' σ' K' M', call_slave nr re c i = Done c' /\ inv c' σ' K' M' /\ posts c c' M M'.
Proof.
  intros Hi Hr Es. pose proof (iv_sized _ _ _ _ Hi) as Hsz.
  destruct (start_computes c σ K M i Hi Hr Es) as (x & y0 & d & Hx & Hy0 & Ed & H). cbn zeta in H.
  set (y := write_and_read _ _ _) in H. set (xs := zset _ i y) in H.
  assert (Hlen : zlen xs = kConfigCoroCnt) by (unfold xs; rewrite zlen_zset; apply Hsz).
  assert (Hy : zget xs i = Some y) by (apply zget_zset_eq; by eapply zget_Some_range).
  assert (Hxs : forall j, j <> i -> zget xs j = kctx c j) by (intros; unfold xs; by rewrite zget_zset_ne).
  destruct (draws_ok (draws (app (th c)))) as [Hd HB]. rewrite <- Ed in Hd, HB.
  assert (Hw : 0 <= ckey y < FLAGS_logspace f).
  { assert (ckey y = d_key d + 1) as ->; [|lia].
    unfold y, write_and_read. destruct (_ && _); apply wrap_small; unfold in_width; lia. }
  assert (Hgood : good (request_msg FLAGS_cable_cache FLAGS_switch_cache server_id tid y i d)).
  { split; [|simpl; rewrite wrap_small by (unfold in_width; lia); done|done].
    unfold y, write_and_read. destruct (_ && _); [by right; right|].
    unfold begin_request; cbn. destruct (_ <? _); [by left|by right; left]. }
  assert (Hgood' : forall v, good (with_coro_id (request_msg FLAGS_cable_cache FLAGS_switch_cache server_id tid y i d) v)).
  { intros v. by destruct Hgood. }
  destruct (cacheable _ _ y) eqn:Ec.
  - assert (Hlt : ckey y < 65535).
    { unfold cacheable in Ec. rewrite !andb_true_iff, Z.ltb_lt in Ec. lia. }
    assert (Ho : cop y = kEnumReadReq \/ cop y = kEnumWriteAndRead) by (by eapply cacheable_op).
    assert (Hfl : flag (request_msg FLAGS_cable_cache FLAGS_switch_cache server_id tid y i d) = 1) by (simpl; by rewrite Ec).
    assert (Hkm : key (request_msg FLAGS_cable_cache FLAGS_switch_cache server_id tid y i d) = ckey y).
    { simpl. apply wrap_small. unfold in_width. lia. }
    destruct H as (r & Hj & Hk & E). rewrite E.
    destruct Hj as [|h l Hh Hl El|h l Hh Eh El Eo]; cbn [fst snd] in *.
    + eexists _, _, _, _. split; [reflexivity|]. eapply (start_lead c σ K M i x xs (ckey y)); eauto.
      * unfold in_width. lia.
      * by apply sent_by_head.
    + destruct (σ h) as [| | |r|] eqn:Eh; try done. assert (Hne : h <> i) by congruence. specialize (Hk Hne).
      pose proof (iv_cell _ _ _ _ Hi h Hh) as [_ _ _ H4 _ _]. rewrite Eh in H4.
      pose proof (iv_list _ _ _ _ Hi h Hh) as Hll. unfold followers_ok in Hll. rewrite Eh in Hll.
      destruct Hll as (_ & _ & Hro & _). pose proof (iv_msgs _ _ _ _ Hi h Hh) as Hms. rewrite Eh in Hms.
      eexists _, _, _, M. split; [reflexivity|]. split; [|exists []; rewrite !app_nil_r; split; [done|split; [done|constructor]]].
      eapply (start_follow c σ K M i h r r x xs l (running_write (csh c)) M); eauto. apply Hsz.
    + assert (Hne : h <> i) by congruence. specialize (Hk Hne).
      pose proof (iv_cell _ _ _ _ Hi h Hh) as [_ _ _ H4 _ _].
      pose proof (iv_msgs _ _ _ _ Hi h Hh) as Hms. rewrite Eh in Hms. destruct Hms as (m1 & Em & Hm1 & Hk1).
      set (m := with_coro_id _ _) in *.
      assert (Hsent : sent h (K h) (cop y) m) by (apply sent_by_head; [done|done|done|congruence]).
      destruct Hsent as [S1 S2]. rewrite Eo in S2. simpl in S2.
      eexists _, _, _, (<[h := M h ++ [m]]> M). split; [reflexivity|]. split; [|apply (posts_one _ _ M h m (get_size f (cop y))); [done|apply Hgood'|done]].
      eapply (start_follow c σ K M i h Reading (Both i) x xs l _ _); eauto.
      * rewrite zlen_zset. apply Hsz.
      * simpl. apply zget_zset_eq. by eapply zget_Some_range.
      * intros j Hjh. by rewrite zget_zset_ne.
      * intros j Hjh. by rewrite fn_lookup_insert_ne.
      * rewrite fn_lookup_insert, Em. by exists m1, m.
      * split; [lia|congruence].
  - rewrite H. eexists _, _, _, _. split; [reflexivity|].
    assert (Hf : cacheable FLAGS_cable_cache FLAGS_switch_cache y = false) by done.
    eapply (start_alone c σ K M i x xs); eauto; [|split; [simpl; by rewrite Ec|done]].
    exists y. split; [done|]. symmetry. apply wrap_small. unfold in_width. lia.
Qed.

(** ** Replies *)
Hypothesis cable_on : FLAGS_cable_cache = true.
Hypothesis no_visibility : FLAGS_visibility f = false.
Notation gc := (client_get_cid tid).
Notation af := (after_process_reply f FLAGS_cable_cache FLAGS_switch_cache server_id tid draws_of).

Definition woken c i (x : CoroCtx RawKvMsg) (m : RawKvMsg) : client :=
  mkClient (mkThread (app (th c)) (zset (coro_ctx (th c)) i (mkCoro true (Some m) (async_op_cnt x)))) (zset (coro_slave c) i None).

(** A coroutine goes on with a reply to its key. *)
Lemma wake_ok c i b x y m : slave c i = Some (Some b) -> ctx c i = Some x -> kctx c i = Some y -> key m = ckey y ->
  (let! t := update_ctx (th c) i (fun x => with_msg x m) in call_slave nr re (with_th c t) i) = Done (woken c i x m).
Proof.
  intros Hs Hx Hy Hk. rewrite (update_ctx_ok _ _ _ _ Hx). cbn [obind].
  assert (Hz : zget (zset (coro_ctx (th c)) i (with_msg x m)) i = Some (with_msg x m))
    by (apply zget_zset_eq; by eapply zget_Some_range).
  set (t1 := mkThread (app (th c)) (zset (coro_ctx (th c)) i (with_msg x m))).
  rewrite (call_slave_resume _ _ (with_th c t1) i b t1 None (with_msg x m)); [|exact Hs| |exact Hz].
  - unfold woken. cbn [th with_th coro_ctx app coro_slave t1]. by rewrite zset_zset.
  - unfold cworker_resume_kv. cbn [th with_th coro_ctx app t1]. rewrite (load_in_range _ _ _ Hy). cbn [obind].
    rewrite (load_in_range _ _ _ Hz). cbn [obind msg_ptr with_msg]. by rewrite Hk, Z.eqb_refl.
Qed.

Definition follower_of c (m : RawKvMsg) i : Prop :=
  (exists b, slave c i = Some (Some b)) /\ (exists x, ctx c i = Some x /\ async_op_cnt x = -1) /\
  (exists y, kctx c i = Some y /\ key m = ckey y) /\ zget (reorder_wait_flag (csh c)) i = Some 0.

Record woke c c' (l : list Z) : Prop := {
  wk_app : app (th c') = app (th c);
  wk_slaves : zlen (coro_slave c') = zlen (coro_slave c);
  wk_ctxs : zlen (coro_ctx (th c')) = zlen (coro_ctx (th c));
  wk_other j : j ∉ l -> slave c' j = slave c j /\ ctx c' j = ctx c j;
  wk_in j : j ∈ l -> slave c' j = Some None /\ exists x, ctx c' j = Some x /\ free x = true /\ async_op_cnt x = -1 }.

Lemma wake_same_ok m h : forall rest pre c fuel,
  zget (same_coro (csh c)) h = Some (pre ++ rest) -> (length rest <= fuel)%nat -> NoDup rest ->
  Forall (follower_of c m) rest ->
  exists c', wake_same f FLAGS_cable_cache FLAGS_switch_cache server_id tid draws_of fuel c m h (zlen pre) = Done c' /\ woke c c' rest.
Proof.
  induction rest as [|i rest IH]; intros pre c fuel Hl Hf Hnd HF.
  - exists c. split; [|split; try done; set_solver]. destruct fuel; simpl; fold (csh c); rewrite (load_in_range _ _ _ Hl); cbn [obind];
      rewrite app_nil_r; (destruct (zget pre (zlen pre)) eqn:E; [apply zget_Some_range in E; lia|done]).
  - destruct fuel as [|fuel]; [simpl in Hf; lia|]. apply NoDup_cons in Hnd as [Hni Hnd]. apply Forall_cons in HF as [Hi HF].
    destruct Hi as ((b & Hs) & (x & Hx & Ha) & (y & Hy & Hk) & Hr). cbn [wake_same]. fold (csh c).
    rewrite (load_in_range _ _ _ Hl). cbn [obind].
    assert (zget (pre ++ i :: rest) (zlen pre) = Some i) as ->.
    { unfold zget. rewrite decide_True by apply zlen_nonneg. unfold zlen. rewrite Nat2Z.id. by apply list_lookup_middle. }
    pose proof (wake_ok c i b x y m Hs Hx Hy Hk) as E. destruct (update_ctx (th c) i _) as [t|]; [|done]. cbn [obind] in E |- *.
    rewrite E. cbn [obind]. set (c1 := woken c i x m). unfold hold. change (cache (app (th c1))) with (csh c).
    rewrite (load_in_range _ _ _ Hr). cbn [obind]. simpl (0 =? 1). cbn iota. cbn [obind].
    assert (with_th c1 (th c1) = c1) as -> by done.
    assert (Hoth : forall j, j <> i -> slave c1 j = slave c j /\ ctx c1 j = ctx c j).
    { intros j Hj. unfold c1, slave, ctx, woken; cbn. by rewrite !zget_zset_ne by done. }
    destruct (IH (pre ++ [i]) c1 fuel) as (c' & E' & W); [by rewrite <- app_assoc|simpl in Hf; lia|done| |].
    { rewrite Forall_forall in HF |- *. intros j Hj. destruct (HF j Hj) as (? & ? & ? & ?).
      destruct (Hoth j) as [E1 E2]; [congruence|]. by split; rewrite ?E1, ?E2. }
    assert (zlen (pre ++ [i]) = zlen pre + 1) as El by (unfold zlen; rewrite length_app; simpl; lia).
    rewrite El in E'. exists c'. split; [done|]. destruct W as [W1 W2 W3 W4 W5].
    assert (Hin : slave c1 i = Some None /\ exists x, ctx c1 i = Some x /\ free x = true /\ async_op_cnt x = -1).
    { unfold c1, slave, ctx, woken; cbn. rewrite !zget_zset_eq by (by eapply zget_Some_range). split; [done|]. by eexists. }
    split; [done|by rewrite W2; apply zlen_zset|by rewrite W3; apply zlen_zset| |].
    + intros j [Hj1 Hj2]%not_elem_of_cons. destruct (W4 j Hj2) as [-> ->]. by apply Hoth.
    + intros j [-> | Hj]%elem_of_cons; [|by apply W5]. destruct (W4 i Hni) as [-> ->]. done.
Qed.

(** The statuses after the reply of leader [i], itself in status [st]. *)
Definition settle (σ : Z -> status) i (st : status) (j : Z) : status :=
  if decide (j = i) then st else if decide (σ j = Follower i) then Idle else σ j.

Lemma followers_few l : NoDup l -> (forall j, j ∈ l -> 0 <= j < n) -> (length l <= wake_fuel)%nat.
Proof.
  intros Hnd Hl. assert (Hs : l ⊆+ seqZ 0 n).
  { apply NoDup_submseteq; [done|]. intros j Hj. apply elem_of_seqZ. specialize (Hl j Hj). lia. }
  apply submseteq_length in Hs. rewrite length_seqZ in Hs. assert (wake_fuel = 64%nat) as -> by reflexivity. lia.
Qed.

Definition on_reorder c (R : list Z) : client :=
  mkClient (mkThread (with_cache (app (th c)) (with_reorder (csh c) R)) (coro_ctx (th c))) (coro_slave c).

Definition handed c i m : outcome client :=
  let! t := update_ctx (th c) i (fun x => with_msg x m) in let! c := call_slave nr re (with_th c t) i in af c m i.

(** clear and hold at the end of after_process_reply. *)
Definition cleared (s : CableCache) i : CableCache :=
  mkCache (key_ s) (reorder_wait_flag s) (zset (running s) i false) (zset (magic_check s) i (-1))
    (zset (same_coro s) i []) (zset (running_write s) i (-1)).

Lemma handed_computes c σ K M i r m R v : inv c σ K M -> 0 <= i < n -> σ i = Leader r -> key m = K i -> flag m = 1 ->
  zget R i = Some v -> (forall j, j <> i -> zget R j = zget (reorder_wait_flag (csh c)) j) ->
  exists c3 l x, zget (same_coro (csh c)) i = Some l /\ ctx c i = Some x /\ woke (woken (on_reorder c R) i x m) c3 l /\
    handed (on_reorder c R) i m = Done (mkClient
      (mkThread (with_cache (app (th c)) (cleared (with_reorder (csh c) R) i))
        (if v =? 1 then zset (coro_ctx (th c3)) i (mkCoro false (Some m) (async_op_cnt x)) else coro_ctx (th c3)))
      (coro_slave c3)).
Proof.
  intros Hi Hr Es Hk Hfl HR HRj. pose proof (iv_sized _ _ _ _ Hi) as [].
  pose proof (iv_cell _ _ _ _ Hi i Hr) as [Hs Hx _ _ _ Hy]. rewrite Es in Hs.
  destruct Hs as (b & Hs & Hb). destruct b as [b|]; [|by destruct Hb as [Hb _]; specialize (Hb eq_refl)].
  destruct Hx as (x & Hx & _). destruct Hy as (y & Hy & Hky).
  pose proof (iv_list _ _ _ _ Hi i Hr) as Hl. unfold followers_ok in Hl. rewrite Es in Hl.
  destruct Hl as (_ & _ & _ & l & El & Hnd & Hl). unfold handed.
  pose proof (wake_ok (on_reorder c R) i b x y m Hs Hx Hy ltac:(congruence)) as E.
  destruct (update_ctx (th (on_reorder c R)) i _) as [t|]; [|done]. cbn [obind] in E |- *. rewrite E. cbn [obind].
  set (c2 := woken _ _ _ _). unfold after_process_reply. rewrite cable_on, Hfl, no_visibility. cbn [andb negb].
  change (1 =? 0) with false. cbn [negb].
  destruct (wake_same_ok m i l [] c2 wake_fuel) as (c3 & E3 & W); [done| |done| |].
  - apply followers_few; [done|]. intros j Hj. by apply Hl.
  - rewrite Forall_forall. intros j Hj. apply Hl in Hj as [Hj Ej]. assert (Hji : j <> i) by congruence.
    pose proof (iv_cell _ _ _ _ Hi j Hj) as [S1 S2 S3 _ _ S6]. pose proof (iv_follow _ _ _ _ Hi j Hj) as Hfo.
    unfold follows_ok in Hfo. rewrite Ej in *. destruct Hfo as (_ & _ & EK).
    unfold follower_of, c2, woken, on_reorder, slave, ctx, kctx, csh in *; cbn. rewrite !zget_zset_ne by done.
    split; [|split; [|split]].
    + destruct S1 as ([b'|] & S1 & Hb'); [by exists b'|]. by destruct Hb' as [Hb' _]; specialize (Hb' eq_refl).
    + destruct S2 as (x' & ? & _ & ?). by exists x'.
    + destruct S6 as (y' & ? & ?). exists y'. split; [done|congruence].
    + by rewrite HRj.
  - change (zlen []) with 0 in E3. rewrite cable_on in E3. rewrite E3. cbn [obind]. exists c3, l, x. do 3 (split; [done|]).
    destruct W as [W1 W2 W3 W4 W5]. unfold hold, on_cache. rewrite W1. unfold c2, woken, on_reorder in *; cbn in HR |- *.
    rewrite (load_in_range _ _ _ HR). cbn [obind].
    assert (Hni : i ∉ l) by (intros [_ E']%Hl; congruence). destruct (W4 i Hni) as [_ Wc].
    assert (Hx2 : ctx c3 i = Some (mkCoro true (Some m) (async_op_cnt x))).
    { rewrite Wc. unfold ctx; cbn. apply zget_zset_eq. by eapply zget_Some_range. }
    assert (Hcl : clear (with_reorder (csh c) R) i = Done (cleared (with_reorder (csh c) R) i)).
    { unfold clear, cleared, csh, kConfigCoroCnt in *; cbn. repeat rewrite store_in_range by lia. cbn [obind]. done. }
    destruct (v =? 1).
    + unfold ctx in Hx2. rewrite (update_ctx_ok _ _ _ _ Hx2). cbn [obind app]. rewrite W1; cbn. fold (csh c).
      rewrite Hcl. cbn [obind]. done.
    + cbn [obind]. rewrite W1; cbn. fold (csh c). rewrite Hcl. cbn [obind]. done.
Qed.

Lemma finish_leader c σ K M i r m R st rest : inv c σ K M -> 0 <= i < n -> σ i = Leader r -> key m = K i -> flag m = 1 ->
  zlen R = kConfigCoroCnt -> zget R i = Some (reorder_of st) ->
  (forall j, j <> i -> zget R j = zget (reorder_wait_flag (csh c)) j) ->
  st = Idle \/ st = Parked -> under_way tid i (K i) st rest ->
  exists c', handed (on_reorder c R) i m = Done c' /\ inv c' (settle σ i st) K (<[i := rest]> M) /\
    posted (app (th c')) = posted (app (th c)).
Proof.
  intros Hi Hr Es Hk Hfl HlR HR HRj Hst Hrest.
  destruct (handed_computes c σ K M i r m R _ Hi Hr Es Hk Hfl HR HRj) as (c3 & l & x & El & Hx & [W1 W2 W3 W4 W5] & E).
  eexists. split; [exact E|]. split; [|done]. set (c' := mkClient _ _). pose proof (iv_sized _ _ _ _ Hi) as Hsz.
  pose proof (iv_list _ _ _ _ Hi i Hr) as Hl. unfold followers_ok in Hl. rewrite Es in Hl.
  destruct Hl as (_ & _ & _ & l' & El' & Hnd & Hl). rewrite El in El'. injection El' as <-.
  assert (Hni : i ∉ l) by (intros [_ E']%Hl; congruence).
  assert (Hlen : zlen (coro_ctx (th c3)) = kConfigCoroCnt) by (rewrite W3; unfold woken; cbn; rewrite zlen_zset; apply Hsz).
  assert (Hctx : forall j, j <> i -> ctx c' j = ctx c3 j).
  { intros j Hj. unfold c', ctx; cbn. destruct (_ =? 1); [by rewrite zget_zset_ne|done]. }
  assert (Hold : forall j, j <> i -> j ∉ l -> slave c' j = slave c j /\ ctx c' j = ctx c j).
  { intros j Hj Hjl. rewrite (Hctx j Hj). destruct (W4 j Hjl) as [Ws Wc]. unfold woken, on_reorder, slave, ctx in *; cbn in *.
    rewrite Ws, Wc. by rewrite !zget_zset_ne by done. }
  apply (inv_change c c' σ _ K _ M _ (i :: l)); [done| |..].
  - destruct Hsz. split; unfold c', csh, cleared in *; cbn; rewrite ?zlen_zset; try done.
    + rewrite W2. unfold woken, on_reorder; cbn. by rewrite zlen_zset.
    + destruct (_ =? 1); by rewrite ?zlen_zset.
  - intros j Hj [Hji Hjl]%not_elem_of_cons. split; [|split; [|by rewrite fn_lookup_insert_ne by done]].
    + destruct (Hold j Hji Hjl). split; try done; unfold kctx, csh, c', cleared; cbn; rewrite ?zget_zset_ne by done; try done. by apply HRj.
    + unfold settle. rewrite decide_False by done. rewrite decide_False; [done|]. intros Ej. apply Hjl. by apply Hl.
  - intros j Hj [Hji Hjl]%not_elem_of_cons Hlj i' Hi'. unfold settle. destruct (decide (i' = i)) as [->|].
    + rewrite Es. destruct Hst as [-> | ->]; done.
    + case_decide as E'; [|done]. rewrite E'. naive_solver.
  - intros j h Hj [Hji Hjl]%not_elem_of_cons Hh Ej Hlh. split; [|done]. unfold settle.
    assert (h <> i) by (intros ->; apply Hjl; by apply Hl). rewrite decide_False by done.
    rewrite decide_False; [done|]. intros E'. by rewrite E' in Hlh.
  - intros j Hj Hin. pose proof (iv_cell _ _ _ _ Hi j Hj) as [_ _ S3 S4 S5 S6].
    assert (Hlw : settle σ i st j = Idle \/ settle σ i st j = Parked).
    { unfold settle. destruct (decide (j = i)) as [->|]; [done|]. left. rewrite decide_True; [done|].
      apply elem_of_cons in Hin as [|Hin]; [done|]. by apply Hl in Hin as [_ ?]. }
    split; [|split; [|split]].
    + apply elem_of_cons in Hin as [->|Hin].
      * assert (Est : settle σ i st i = st) by (unfold settle; by rewrite decide_True).
        destruct (W4 i Hni) as [Ws Wc]. pose proof (iv_cell _ _ _ _ Hi i Hr) as [_ (x0 & Hx0 & _ & Ha) _ _ _ _].
        rewrite Hx in Hx0. injection Hx0 as <-.
        split; rewrite ?Est; unfold kctx, csh, c', cleared; cbn.
        -- exists None. unfold slave in *; cbn. rewrite Ws. unfold woken; cbn. rewrite zget_zset_eq
             by (unfold on_reorder; cbn; destruct Hsz; lia). by destruct Hst as [-> | ->].
        -- unfold ctx in *; cbn. destruct Hst as [-> | ->]; simpl (_ =? 1); cbn iota.
           ++ rewrite Wc. unfold woken; cbn. rewrite zget_zset_eq by (by eapply zget_Some_range). by eexists.
           ++ rewrite zget_zset_eq by (destruct Hsz; unfold kConfigCoroCnt in *; lia). by eexists.
        -- done.
        -- rewrite zget_zset_eq by (by eapply zget_Some_range). by destruct Hst as [-> | ->].
        -- rewrite zget_zset_eq by (by eapply zget_Some_range). by destruct Hst as [-> | ->].
        -- done.
      * assert (Hji : j <> i) by congruence. pose proof (proj1 (Hl j) Hin) as [_ Ej]. rewrite Ej in *.
        assert (Est : settle σ i st j = Idle) by (unfold settle; by rewrite decide_False, decide_True).
        destruct (W5 j Hin) as (Ws & x' & Hx' & Hfx & Hax).
        split; rewrite ?Est; unfold kctx, csh, c', cleared; cbn; rewrite ?zget_zset_ne by done; try done.
        -- exists None. done.
        -- exists x'. rewrite Hctx by done. done.
        -- by rewrite HRj.
    + unfold followers_ok. by destruct Hlw as [-> | ->].
    + unfold follows_ok. by destruct Hlw as [-> | ->].
    + apply elem_of_cons in Hin as [->|Hin].
      * rewrite fn_lookup_insert. unfold settle. by rewrite decide_True.
      * assert (Hji : j <> i) by congruence. pose proof (proj1 (Hl j) Hin) as [_ Ej]. rewrite fn_lookup_insert_ne by done.
        pose proof (iv_msgs _ _ _ _ Hi j Hj) as Hms. rewrite Ej in Hms. simpl in Hms. rewrite Hms.
        unfold settle. by rewrite decide_False, decide_True.
Qed.

Lemma all_msgs_take M i m rest : 0 <= i < n -> M i ≡ₚ m :: rest -> all_msgs M ≡ₚ m :: all_msgs (<[i := rest]> M).
Proof.
  intros Hr E. apply (Permutation_app_inv_r rest). rewrite <- (all_msgs_insert M i rest Hr), E. solve_Permutation.
Qed.

(** What a reply leads to. *)
Definition replied c i m rest (M : Z -> list RawKvMsg) (K : Z -> Z) : Prop :=
  exists c' σ', serve_reply nr re gc af c m = Done c' /\ inv c' σ' K (<[i := rest]> M) /\
    posted (app (th c')) = posted (app (th c)).

Lemma serve_alone c σ K M i m : inv c σ K M -> 0 <= i < n -> σ i = Alone -> M i = [m] -> replied c i m [] M K.
Proof.
  intros Hi Hr Es Em. pose proof (iv_sized _ _ _ _ Hi) as Hsz.
  pose proof (iv_cell _ _ _ _ Hi i Hr) as [S1 S2 S3 S4 S5 (y & Hy & Hk)]. pose proof (iv_msgs _ _ _ _ Hi i Hr) as Hms.
  rewrite Es in *. destruct Hms as (m0 & E0 & [Hf Hc] & Hkm). rewrite Em in E0. injection E0 as <-.
  destruct S1 as (b & Hs & Hb). destruct b as [b|]; [|by destruct Hb as [Hb _]; specialize (Hb eq_refl)].
  destruct S2 as (x & Hx & _ & Ha).
  unfold replied, serve_reply, client_get_cid. rewrite Hf. change (0 =? 1) with false. cbn [obind].
  rewrite Hc, signed_small by lia. rewrite (proj2 (Z.eqb_neq i (-1))) by lia.
  pose proof (wake_ok c i b x y m Hs Hx Hy ltac:(congruence)) as E.
  change (th (with_th c (th c))) with (th c). destruct (update_ctx (th c) i _) as [t|]; [|done]. cbn [obind] in E |- *.
  change (with_th (with_th c (th c)) t) with (with_th c t). rewrite E. cbn [obind].
  unfold after_process_reply. rewrite Hf, no_visibility. change (0 =? 0) with true. rewrite andb_false_r. cbn [obind].
  exists (woken c i x m), (<[i := Idle]> σ). split; [done|]. split; [|done].
  apply (inv_change c _ σ _ K _ M _ [i]); [done| |..].
  - destruct Hsz. unfold csh in *. split; unfold woken, csh; cbn; rewrite ?zlen_zset; done.
  - intros j Hj Hne%not_elem_of_cons. destruct Hne as [Hne _].
    split; [|split; [by apply insert_other|split; [done|by rewrite fn_lookup_insert_ne by done]]].
    split; unfold slave, ctx, kctx, csh, woken; cbn; rewrite ?zget_zset_ne by done; done.
  - intros j Hj Hne%not_elem_of_cons Hl i' Hi'. destruct (decide (i' = i)) as [->|]; [|by rewrite insert_other].
    rewrite fn_lookup_insert, Es. done.
  - intros j h Hj _ Hh _ Hl. destruct (decide (h = i)) as [->|]; [by rewrite Es in Hl|by rewrite fn_lookup_insert_ne].
  - intros j Hj ->%list_elem_of_singleton. rewrite !fn_lookup_insert. split; [|split; [|split]].
    + split; rewrite ?fn_lookup_insert; unfold slave, ctx, kctx, csh, woken in *; cbn; try done.
      * exists None. by rewrite zget_zset_eq by (by eapply zget_Some_range).
      * rewrite zget_zset_eq by (by eapply zget_Some_range). by eexists.
      * by exists y.
    + unfold followers_ok. by rewrite fn_lookup_insert.
    + unfold follows_ok. by rewrite fn_lookup_insert.
    + done.
Qed.

Lemma add_reorder_ok c i v d : zget (reorder_wait_flag (csh c)) i = Some v -> -2 <= v + d <= 2 ->
  on_cache (th c) (fun s => add_reorder s i d) = Done (th (on_reorder c (zset (reorder_wait_flag (csh c)) i (v + d)))).
Proof.
  intros Hv Hd. unfold on_cache, add_reorder. fold (csh c). rewrite (load_in_range _ _ _ Hv). cbn [obind].
  rewrite store_in_range by (by eapply zget_Some_range). cbn [obind]. by rewrite signed_small by lia.
Qed.

(** A read's reply that does not wake anybody. *)
Definition drop_reply c i v (x : CoroCtx RawKvMsg) : client :=
  let c1 := on_reorder c (zset (reorder_wait_flag (csh c)) i (v - 1)) in
  if v - 1 =? 0 then mkClient (mkThread (app (th c1)) (zset (coro_ctx (th c)) i (with_free x true))) (coro_slave c) else c1.

Lemma dropped_computes c i v x m w : is_read tid i m -> 0 <= i < n -> ctx c i = Some x ->
  zget (reorder_wait_flag (csh c)) i = Some v -> zget (running_write (csh c)) i = Some w ->
  -1 <= v <= 1 -> v = 1 \/ w <> -1 ->
  serve_reply nr re gc af c m = Done (drop_reply c i v x).
Proof.
  intros [Hf Hb] Hr Hx Hv Hw Hv1 Hor. unfold serve_reply, client_get_cid. rewrite Hf. change (1 =? 1) with true. cbn iota.
  unfold check_reply. rewrite Hb, low_of_read by done. rewrite (proj2 (Z.leb_gt 16 (i + 1))) by lia. fold (csh c).
  rewrite (load_in_range _ _ _ Hv). cbn [obind].
  assert (Hfree : free_reorder_wait (th c) i = Done (th (drop_reply c i v x))).
  { unfold free_reorder_wait, drop_reply. rewrite (add_reorder_ok c i v (-1)) by (done || lia). cbn [obind].
    change (v + -1) with (v - 1). unfold on_reorder at 1; cbn [th app cache with_cache with_reorder reorder_wait_flag].
    rewrite (load_in_range _ _ (v - 1)) by (apply zget_zset_eq; by eapply zget_Some_range). cbn [obind].
    destruct (v - 1 =? 0); [|done]. unfold ctx in Hx. by rewrite (update_ctx_ok _ _ _ x) by done. }
  assert (Hsl : forall c', c' = drop_reply c i v x -> with_th c (th c') = c').
  { intros c' ->. unfold drop_reply. destruct (_ =? 0); done. }
  destruct (Z.eqb_spec v 1) as [E|E].
  - rewrite Hfree. cbn [obind]. change (signed 8 (-1) =? -1) with true. cbn iota. f_equal. by apply Hsl.
  - rewrite (load_in_range _ _ _ Hw). cbn [obind]. rewrite (proj2 (Z.eqb_neq w (-1))) by (destruct Hor; congruence).
    rewrite Hfree. cbn [obind]. change (signed 8 (-1) =? -1) with true. cbn iota. f_equal. by apply Hsl.
Qed.

Lemma serve_dropped c σ K M i m rest st : inv c σ K M -> 0 <= i < n -> is_read tid i m ->
  (σ i = Parked /\ st = Idle) \/ (exists w, σ i = Leader (Both w) /\ st = Leader (WriteLeft w)) ->
  under_way tid i (K i) st rest -> replied c i m rest M K.
Proof.
  intros Hi Hr Hm Hst Hrest. pose proof (iv_sized _ _ _ _ Hi) as Hsz.
  pose proof (iv_cell _ _ _ _ Hi i Hr) as [S1 (x & Hx & Hfx & Ha) S3 S4 S5 S6].
  set (v := reorder_of (σ i)) in *.
  assert (Hv : -1 <= v <= 1) by (unfold v; destruct (σ i) as [| | |[]|]; simpl; lia).
  pose proof (iv_list _ _ _ _ Hi i Hr) as Hl.
  assert (E : serve_reply nr re gc af c m = Done (drop_reply c i v x)).
  { eapply dropped_computes; [done|done|done|exact S3|exact S4|done|].
    destruct Hst as [[Es _]|(w & Es & _)]; unfold v; rewrite Es; [by left|right]. unfold followers_ok in Hl. rewrite Es in Hl. simpl. lia. }
  assert (Hre : v - 1 = reorder_of st) by (destruct Hst as [[Es ->]|(w & Es & ->)]; unfold v; rewrite Es; done).
  exists (drop_reply c i v x), (<[i := st]> σ). split; [done|]. split; [|by unfold drop_reply; destruct (_ =? 0)].
  assert (Hother : forall j, j <> i -> agree c (drop_reply c i v x) j).
  { intros j Hne. unfold drop_reply, on_reorder. destruct (_ =? 0); split; unfold slave, ctx, kctx, csh; cbn; rewrite ?zget_zset_ne by done; done. }
  assert (Hself : slave (drop_reply c i v x) i = slave c i /\ kctx (drop_reply c i v x) i = kctx c i /\
    zget (running_write (csh (drop_reply c i v x))) i = zget (running_write (csh c)) i /\
    zget (running (csh (drop_reply c i v x))) i = zget (running (csh c)) i /\
    zget (key_ (csh (drop_reply c i v x))) i = zget (key_ (csh c)) i /\
    zget (same_coro (csh (drop_reply c i v x))) i = zget (same_coro (csh c)) i /\
    zget (reorder_wait_flag (csh (drop_reply c i v x))) i = Some (v - 1)).
  { unfold drop_reply, on_reorder, csh in *. destruct (_ =? 0); unfold slave, kctx; cbn;
      rewrite (zget_zset_eq (reorder_wait_flag _)) by (by eapply zget_Some_range); done. }
  destruct Hself as (T1 & T2 & T3 & T4 & T5 & T6 & T7).
  assert (Hfol : forall j, σ j = Follower i <-> (<[i:=st]> σ) j = Follower i).
  { intros j. destruct (decide (j = i)) as [->|]; [|by rewrite insert_other]. rewrite fn_lookup_insert.
    destruct Hst as [[-> ->]|(w & -> & ->)]; done. }
  apply (inv_change c _ σ _ K _ M _ [i]); [done| |..].
  - destruct Hsz. unfold drop_reply, on_reorder, csh in *. destruct (_ =? 0); split; unfold csh; cbn; rewrite ?zlen_zset; done.
  - intros j Hj Hne%not_elem_of_cons. destruct Hne as [Hne _].
    split; [by apply Hother|split; [by apply insert_other|split; [done|by rewrite fn_lookup_insert_ne by done]]].
  - intros j Hj Hne%not_elem_of_cons Hlj i' Hi'. destruct (decide (i' = i)) as [->|]; [|by rewrite insert_other].
    rewrite fn_lookup_insert. destruct Hst as [[-> ->]|(w & -> & ->)]; done.
  - intros j h Hj _ Hh _ Hlh. split; [|done]. destruct (decide (h = i)) as [->|]; [|by rewrite fn_lookup_insert_ne].
    rewrite fn_lookup_insert. destruct Hst as [[Es ->]|(w & Es & ->)]; [by rewrite Es in Hlh|done].
  - intros j Hj ->%list_elem_of_singleton. rewrite !fn_lookup_insert. split; [|split; [|split]]; [| | |done].
    + split; rewrite ?fn_lookup_insert, ?T1, ?T2, ?T3, ?T4; rewrite ?T7, ?Hre; try done.
      * destruct S1 as (b & ? & Hb). exists b. split; [done|]. rewrite Hb. destruct Hst as [[-> ->]|(w & -> & ->)]; done.
      * destruct Hst as [[Es ->]|(w & Es & ->)]; unfold drop_reply, v, ctx in *; rewrite Es in *; cbn; (change (1 - 1 =? 0) with true || change (0 - 1 =? 0) with false); cbn.
        -- rewrite zget_zset_eq by (by eapply zget_Some_range). by eexists.
        -- by exists x.
      * rewrite S4. destruct Hst as [[-> ->]|(w & -> & ->)]; done.
      * rewrite S5. destruct Hst as [[-> ->]|(w & -> & ->)]; done.
    + unfold followers_ok in *. rewrite fn_lookup_insert. destruct Hst as [[Es ->]|(w & Es & ->)]; [done|]. rewrite Es in Hl.
      rewrite T5, T6. destruct Hl as (? & ? & ? & l & ? & ? & Hl). do 3 (split; [done|]). exists l. do 2 (split; [done|]).
      intros j. rewrite Hl. by rewrite Hfol.
    + unfold follows_ok. rewrite fn_lookup_insert. destruct Hst as [[Es ->]|(w & Es & ->)]; done.
Qed.

Lemma on_reorder_same c : on_reorder c (reorder_wait_flag (csh c)) = c.
Proof. by destruct c as [[[[]]]]. Qed.

(** The replies that wake their leader. *)
Lemma leader_hands c σ K M i r m : inv c σ K M -> 0 <= i < n -> σ i = Leader r ->
  match r with Reading => is_read tid i m | _ => is_write tid i m end ->
  serve_reply nr re gc af c m = handed (on_reorder c
    (match r with Reading | Writing => reorder_wait_flag (csh c)
     | _ => zset (reorder_wait_flag (csh c)) i (reorder_of (Leader r) + 1) end)) i m.
Proof.
  intros Hi Hr Es Hm. pose proof (iv_cell _ _ _ _ Hi i Hr) as [_ _ S3 S4 _ _]. rewrite Es in *.
  pose proof (iv_list _ _ _ _ Hi i Hr) as Hl. unfold followers_ok in Hl. rewrite Es in Hl. destruct Hl as (_ & _ & Hro & _).
  destruct (bits_of_write i Hr) as [Hh Hlo].
  assert (H8 : signed 8 i = i) by (apply signed_small; lia).
  unfold serve_reply, client_get_cid. destruct r; destruct Hm as [Hf Hb]; rewrite Hf; change (1 =? 1) with true; cbn iota;
    unfold check_reply; rewrite Hb; fold (csh c).
  - rewrite low_of_read by done. rewrite (proj2 (Z.leb_gt 16 (i + 1))) by lia.
    rewrite (load_in_range _ _ _ S3). cbn [obind]. simpl (_ =? 1). cbn iota. rewrite (load_in_range _ _ _ S4). cbn [obind].
    simpl (_ =? -1). cbn iota. cbn [obind]. rewrite H8, (proj2 (Z.eqb_neq i (-1))) by lia. by rewrite on_reorder_same.
  - rewrite Hh, Hlo. rewrite (proj2 (Z.leb_le 16 _)) by lia. rewrite (proj2 (Z.eqb_neq i 255)) by lia.
    rewrite (load_in_range _ _ _ S4). cbn [obind writer_of]. rewrite Z.eqb_refl. cbn [obind].
    rewrite H8, (proj2 (Z.eqb_neq i (-1))) by lia. by rewrite on_reorder_same.
  - rewrite Hh, Hlo. rewrite (proj2 (Z.leb_le 16 _)) by lia. rewrite (proj2 (Z.eqb_neq i 255)) by lia.
    rewrite (load_in_range _ _ _ S4). cbn [obind writer_of]. rewrite (proj2 (Z.eqb_neq w i)) by lia.
    rewrite (add_reorder_ok c i _ 1 S3) by (simpl; lia). cbn [obind]. rewrite H8, (proj2 (Z.eqb_neq i (-1))) by lia. done.
  - rewrite Hh, Hlo. rewrite (proj2 (Z.leb_le 16 _)) by lia. rewrite (proj2 (Z.eqb_neq i 255)) by lia.
    rewrite (load_in_range _ _ _ S4). cbn [obind writer_of]. rewrite (proj2 (Z.eqb_neq w i)) by lia.
    rewrite (add_reorder_ok c i _ 1 S3) by (simpl; lia). cbn [obind]. rewrite H8, (proj2 (Z.eqb_neq i (-1))) by lia. done.
Qed.

Lemma serve_leader c σ K M i r m rest st : inv c σ K M -> 0 <= i < n -> σ i = Leader r ->
  match r with Reading => is_read tid i m | _ => is_write tid i m end -> key m = K i ->
  st = (match r with Both _ => Parked | _ => Idle end) -> under_way tid i (K i) st rest -> replied c i m rest M K.
Proof.
  intros Hi Hr Es Hm Hk Hst Hrest. pose proof (iv_cell _ _ _ _ Hi i Hr) as [_ _ S3 _ _ _]. rewrite Es in S3.
  unfold replied. rewrite (leader_hands c σ K M i r m Hi Hr Es Hm).
  assert (Hf : flag m = 1) by (destruct r; apply Hm).
  set (R := match r with Reading | Writing => _ | _ => _ end).
  destruct (finish_leader c σ K M i r m R st rest Hi Hr Es Hk Hf) as (c' & E & Hi' & Hp); [| | | |done|].
  - destruct r; unfold R; rewrite ?zlen_zset; apply (iv_sized _ _ _ _ Hi).
  - unfold R. destruct r; subst st; [done|done|..]; apply zget_zset_eq; by eapply zget_Some_range.
  - intros j Hj. unfold R. destruct r; [done|done|..]; by rewrite zget_zset_ne.
  - destruct r; subst st; auto.
  - exists c', (settle σ i st). done.
Qed.

(** Every reply under way is handled. *)
Lemma serve_any c σ K M m : inv c σ K M -> m ∈ all_msgs M ->
  exists c' σ' M', serve_reply nr re gc af c m = Done c' /\ inv c' σ' K M' /\
    posted (app (th c')) = posted (app (th c)) /\ all_msgs M ≡ₚ m :: all_msgs M'.
Proof.
  intros Hi (i & Hr & Hm)%elem_of_all_msgs.
  assert (exists rest, M i ≡ₚ m :: rest /\ replied c i m rest M K) as (rest & Ep & c' & σ' & E & Hi' & Hp).
  { pose proof (iv_msgs _ _ _ _ Hi i Hr) as Hms. destruct (σ i) as [| | |r|h] eqn:Es; simpl in Hms.
    - rewrite Hms in Hm. by apply elem_of_nil in Hm.
    - destruct Hms as (m0 & E0 & Hm0). rewrite E0 in Hm |- *. apply list_elem_of_singleton in Hm as ->.
      exists []. split; [done|]. eapply (serve_dropped c σ K M i m0 [] Idle); auto. done.
    - pose proof Hms as (m0 & E0 & _). rewrite E0 in Hm |- *. apply list_elem_of_singleton in Hm as ->.
      exists []. split; [done|]. by eapply serve_alone.
    - destruct r as [| |w|w].
      + destruct Hms as (m0 & E0 & Hm0 & Hk). rewrite E0 in Hm |- *. apply list_elem_of_singleton in Hm as ->.
        exists []. split; [done|]. by eapply serve_leader.
      + destruct Hms as (m0 & E0 & Hm0 & Hk). rewrite E0 in Hm |- *. apply list_elem_of_singleton in Hm as ->.
        exists []. split; [done|]. by eapply serve_leader.
      + destruct Hms as (m1 & m2 & Ep & H1 & H2 & K1 & K2). rewrite Ep in Hm.
        apply elem_of_cons in Hm as [-> | ->%list_elem_of_singleton].
        * exists [m2]. split; [done|]. eapply (serve_dropped c σ K M i m1 [m2] (Leader (WriteLeft w))); [done|done|done| |by exists m2].
          right. by exists w.
        * exists [m1]. split; [rewrite Ep; solve_Permutation|]. eapply serve_leader; try done. by exists m1.
      + destruct Hms as (m0 & E0 & Hm0 & Hk). rewrite E0 in Hm |- *. apply list_elem_of_singleton in Hm as ->.
        exists []. split; [done|]. by eapply serve_leader.
    - rewrite Hms in Hm. by apply elem_of_nil in Hm. }
  exists c', σ', (<[i := rest]> M). do 3 (split; [done|]). by apply all_msgs_take.
Qed.
End system.
End CableCoro.
