(* ===== verification/CableSystemModel.v ===== *)
(** * A client thread with the cable cache and its data node

    Module [CableSystem]: run_client_CPC with the coroutines of [Cable] and a data
    node that answers their requests, each request and reply a message on the wire
    that other messages overtake.  The data node serves others too; messages carry
    their first bytes only, the rest of a buffer is stale. *)

From stdpp Require Import functions.
From S2P Require Import Prelude KvMessageModel KvServerModel SecondaryModel RpcClientModel CableModel CableCoroModel.
Import KvMessage.

Module CableSystem.
Import RpcClient Cable CableCoro.

(** What the client looks at in a reply. *)
Definition alike (m m' : RawKvMsg) : Prop :=
  flag m' = flag m /\ coro_id m' = coro_id m /\ src_c_id (rpc_header m') = src_c_id (rpc_header m) /\ key m' = key m.

Section system.
Context {I : Type} `{IndexOps I}.
Context (f : flags) (tid dtid : Z) (FLAGS_cable_cache FLAGS_switch_cache : bool) (server_id : Z) (draws_of : nat -> draw) (B : Z).
Notation n := (FLAGS_coro_num f).
Notation thread := (RpcClient.thread fsrpc RawKvMsg).
Notation client := (RpcClient.client fsrpc bool RawKvMsg).
Implicit Types (c : client).
Notation kv_turn := (kv_turn f FLAGS_cable_cache FLAGS_switch_cache server_id tid draws_of).

(** The client, the messages with their sizes, and the data node. *)
Inductive dir := Request | Reply.
Record sys := mkSys { cl : client; net : list (dir * (RawKvMsg * Z)); dn : node I }.

Definition posts_of c : list (dir * (RawKvMsg * Z)) := map (fun p => (Request, p)) (posted (app (th c))).

Definition sent_off c : client :=
  let a := app (th c) in with_th c (with_app (th c) (mkRpc (cache a) (kv_ctx a) (index_buf_cnt a) (draws a) [])).

(** A message as its receiver finds it. *)
Definition received (p : RawKvMsg * Z) (m : RawKvMsg) : Prop :=
  exists stale, zlen stale = B /\ m = Secondary.deliver p.2 p.1 stale.

Inductive step (s : sys) : sys -> Prop :=
  | s_serve p net' req buf r dn' size :
      net s ≡ₚ (Request, p) :: net' -> received p req -> zlen (payload buf) = B ->
      serve f dtid (dn s) req buf = Done (r, dn', size) ->
      step s (mkSys (cl s) ((Reply, (r, size)) :: net') dn')
  | s_others dn' : KvServer.log_ok f (nkv dn') -> step s (mkSys (cl s) (net s) dn')
  | s_turn ps net' replies c' :
      net s ≡ₚ map (fun p => (Reply, p)) ps ++ net' -> (length ps <= 16)%nat -> Forall2 received ps replies ->
      kv_turn (cl s) replies = Done c' ->
      step s (mkSys (sent_off c') (net' ++ posts_of c') (dn s)).

Inductive reachable (s0 : sys) : sys -> Prop :=
  | r_start : reachable s0 s0
  | r_step s s' : reachable s0 s -> step s s' -> reachable s0 s'.

(** run_client_CPC before its loop, no message under way. *)
Definition started_sys (magics : list Z) (xs : list KvCtx) (cnts : list Z) (d : node I) : outcome sys :=
  let! ch := new_cache n magics in
  let! c := spawn (mkRpc ch xs cnts 0 []) n in
  Done (mkSys c [] d).

Hypothesis threads : 0 <= tid < 8.
Hypothesis coros : 0 <= n <= 15.
Hypothesis logspace_32 : FLAGS_logspace f <= 2 ^ 32.
Hypothesis draws_ok : forall k, 0 <= d_key (draws_of k) < FLAGS_logspace f - 1 /\ zlen (payload (d_buf (draws_of k))) = B.
Hypothesis cable_on : FLAGS_cable_cache = true.
Hypothesis no_visibility : FLAGS_visibility f = false.
(** A buffer holds what the data node copies into it. *)
Hypothesis buffers : sizeof_KvKeyType + KvServer.log_size f <= B.

Notation inv := (inv f tid).
Notation all_msgs := (all_msgs f).
Notation good := (good f B).

(** ** Replacing messages by what becomes of them *)
Lemma alike_byte m m' : alike m m' -> coro_byte m' tid = coro_byte m tid.
Proof. intros (_ & E & _). unfold coro_byte. by rewrite E. Qed.

Lemma under_way_replace i k s m m' ms rest :
  alike m m' -> under_way tid i k s ms -> ms ≡ₚ m :: rest -> under_way tid i k s (m' :: rest).
Proof.
  intros Ha Hu Ep. pose proof (alike_byte m m' Ha) as Eb. destruct Ha as (Ef & _ & Ec & Ek).
  assert (Hr : is_read tid i m -> is_read tid i m') by (unfold is_read; rewrite Ef, Eb; auto).
  assert (Hw : is_write tid i m -> is_write tid i m') by (unfold is_write; rewrite Ef, Eb; auto).
  assert (Hp : is_plain i m -> is_plain i m') by (unfold is_plain; rewrite Ef, Ec; auto).
  assert (H1 : forall x, ms = [x] -> m = x /\ rest = []).
  { intros x ->. apply Permutation_singleton_l in Ep. by simplify_eq. }
  destruct s as [| | |[| |w|w]|h]; simpl in *; try (subst ms; by apply Permutation_nil_l in Ep).
  - destruct Hu as (x & E & ?). destruct (H1 x E) as [-> ->]. exists m'. auto.
  - destruct Hu as (x & E & ? & ?). destruct (H1 x E) as [-> ->]. exists m'. rewrite Ek. auto.
  - destruct Hu as (x & E & ? & ?). destruct (H1 x E) as [-> ->]. exists m'. rewrite Ek. auto.
  - destruct Hu as (x & E & ? & ?). destruct (H1 x E) as [-> ->]. exists m'. rewrite Ek. auto.
  - destruct Hu as (x & y & E & Hx & Hy & Kx & Ky). rewrite E in Ep.
    assert (Hm : m ∈ [x; y]) by (rewrite Ep; left). apply elem_of_cons in Hm as [-> | ->%list_elem_of_singleton].
    + apply Permutation_cons_inv, Permutation_singleton_l in Ep. subst rest. exists m', y. rewrite Ek. auto.
    + rewrite Permutation_swap in Ep. apply Permutation_cons_inv, Permutation_singleton_l in Ep. subst rest.
      exists x, m'. split; [apply Permutation_swap|]. rewrite Ek. auto.
  - destruct Hu as (x & E & ? & ?). destruct (H1 x E) as [-> ->]. exists m'. rewrite Ek. auto.
Qed.

Lemma inv_replace c σ K M m m' rest : inv c σ K M -> all_msgs M ≡ₚ m :: rest -> alike m m' ->
  exists M', inv c σ K M' /\ all_msgs M' ≡ₚ m' :: rest.
Proof.
  intros Hi Ep Ha. assert (Hm : m ∈ all_msgs M) by (rewrite Ep; left).
  apply (elem_of_all_msgs f) in Hm as (i & Hr & Hm).
  apply elem_of_Permutation in Hm as (r0 & Er).
  exists (<[i := m' :: r0]> M). split.
  - pose proof Hi as [I1 I2 I3 I4 I5]. split; try done. intros j Hj. destruct (decide (j = i)) as [->|Hne].
    + rewrite fn_lookup_insert. by eapply under_way_replace; [|apply I5|].
    + rewrite fn_lookup_insert_ne by done. auto.
  - pose proof (all_msgs_take f M i m r0 Hr Er) as E1. rewrite Ep in E1. apply Permutation_cons_inv in E1.
    apply (Permutation_app_inv_r (M i)). etrans; [by apply all_msgs_insert|]. rewrite Ep, Er. solve_Permutation.
Qed.

(** ** The data node *)
Lemma put_done s q bs : KvServer.log_ok f s -> 0 <= q < FLAGS_logspace f -> zlen bs = KvServer.log_size f ->
  exists s', KvServer.put f s q bs = Done s' /\ KvServer.log_ok f s'.
Proof.
  intros O Hq Hb. destruct (KvServer.region_in f s q O Hq). unfold KvServer.put. rewrite leb_and by lia.
  eexists. split; [done|]. destruct O. split; simpl; try done. unfold zlen in *. by rewrite blit_length by lia.
Qed.

Lemma get_bytes_len m off k : 0 <= off -> 0 <= k -> off + k <= zlen (payload m) ->
  exists bs, Secondary.get_bytes m off k = Done bs /\ zlen bs = k.
Proof.
  intros. rewrite Secondary.get_bytes_done by lia. eexists. split; [done|].
  unfold zlen in *. rewrite length_take, length_drop. lia.
Qed.

Lemma put_bytes_any m off bs : 0 <= off -> off + zlen bs <= zlen (payload m) ->
  exists p, Secondary.put_bytes m off bs = Done (with_payload m p).
Proof. intros. rewrite Secondary.put_bytes_done by done. by eexists. Qed.

Lemma process_serves d req reply : KvServer.log_ok f (nkv d) -> good req -> zlen (payload reply) = B ->
  exists p o d', process_op f dtid d req reply = Done (with_op (with_payload reply p) o, d') /\ KvServer.log_ok f (nkv d').
Proof.
  intros O [Hop Hk Hl] Hb. unfold process_op, sizeof_KvKeyType in *. pose proof (KvServer.ok_size _ _ O) as H0.
  assert (H8 : KvServer.log_size f = FLAGS_kv_size_b f + 8) by done.
  destruct Hop as [-> | [-> | ->]].
  - change (kEnumReadReq =? kEnumReadReq) with true. cbn iota. rewrite (KvServer.get_done f (nkv d)) by done. cbn [obind].
    destruct (KvServer.region_in f (nkv d) (key req) O Hk).
    destruct (put_bytes_any reply 8 (take (Z.to_nat (KvServer.log_size f)) (drop (Z.to_nat (key req * KvServer.stride f)) (KvServer.buffer (nkv d)))))
      as (p & ->); [lia|unfold zlen in *; rewrite length_take, length_drop; lia|]. cbn [obind]. by exists p, kEnumReadReply, d.
  - change (kEnumWriteReq =? kEnumReadReq) with false. change (kEnumWriteReq =? kEnumWriteReq) with true. cbn iota.
    destruct (get_bytes_len req 8 (KvServer.log_size f)) as (bs & -> & Hbs); [lia..|]. cbn [obind].
    destruct (put_done (nkv d) (key req) bs O Hk Hbs) as (l & -> & Hl'). cbn [obind].
    exists (payload reply), kEnumWriteReply, (with_kv d l). by destruct reply.
  - change (kEnumWriteAndRead =? kEnumReadReq) with false. change (kEnumWriteAndRead =? kEnumWriteReq) with false.
    change (kEnumWriteAndRead =? kEnumWriteAndRead) with true. cbn iota.
    destruct (get_bytes_len req 8 (KvServer.log_size f)) as (bs & -> & Hbs); [lia..|]. cbn [obind].
    destruct (put_done (nkv d) (key req) bs O Hk Hbs) as (l & -> & Hl'). cbn [obind].
    destruct (get_bytes_len req 8 (FLAGS_kv_size_b f)) as (v & -> & Hv); [lia..|]. cbn [obind].
    destruct (put_bytes_any (with_op reply kEnumWriteReplyWithData) 8 v) as (p & ->); [lia|simpl; lia|]. cbn [obind].
    exists p, kEnumWriteReplyWithData, (with_kv d l). by destruct reply.
Qed.

Lemma serves d req buf : KvServer.log_ok f (nkv d) -> good req -> zlen (payload buf) = B ->
  exists r d' size, serve f dtid d req buf = Done (r, d', size) /\ alike req r /\ KvServer.log_ok f (nkv d').
Proof.
  intros O Hg Hb. unfold serve, server_process_msg.
  destruct (process_serves d req (reply_prologue req (with_rpc_header buf (KvServer.reply_header (rpc_header req)))) O Hg Hb)
    as (p & o & d' & -> & O'). cbn [obind].
  assert (zget server_config kClientId = Some (mkServer 2 8 1 12 1 ens6 136)) as -> by done. cbn [obind of_option].
  eexists _, d', _. split; [reflexivity|]. done.
Qed.

Lemma good_received p m : received p m -> good p.1 -> good m /\ alike p.1 m.
Proof.
  intros (stale & Hs & ->) [Ho Hk Hl]. split; [|done]. split; [done|done|].
  rewrite Secondary.length_deliver; [done|congruence].
Qed.

Lemma alike_received p m : received p m -> alike p.1 m.
Proof. by intros (stale & _ & ->). Qed.

(** ** The invariant of the system *)
Record sinv (s : sys) : Prop := {
  si_client : exists σ K M, inv (cl s) σ K M /\ all_msgs M ≡ₚ map (fun e => e.2.1) (net s);
  si_posted : posted (app (th (cl s))) = [];
  si_good : Forall (fun e => e.1 = Request -> good e.2.1) (net s);
  si_node : KvServer.log_ok f (nkv (dn s)) }.

Lemma inv_replace_all c σ K : forall ms ms' M rest,
  Forall2 alike ms ms' -> inv c σ K M -> all_msgs M ≡ₚ ms ++ rest ->
  exists M', inv c σ K M' /\ all_msgs M' ≡ₚ ms' ++ rest.
Proof.
  intros ms ms' M rest Ha. revert M rest. induction Ha as [|m m' ms ms' Hm _ IH]; intros M rest Hi Ep; [by exists M|].
  destruct (inv_replace c σ K M m m' (ms ++ rest) Hi Ep Hm) as (M1 & H1 & E1).
  destruct (IH M1 (m' :: rest) H1) as (M2 & H2 & E2); [rewrite E1; solve_Permutation|].
  exists M2. split; [done|]. rewrite E2. solve_Permutation.
Qed.

(** A turn succeeds whatever replies it polls. *)
Lemma turn_ok c σ K M replies rest :
  inv c σ K M -> posted (app (th c)) = [] -> all_msgs M ≡ₚ replies ++ rest -> (length replies <= 16)%nat ->
  exists c', kv_turn c replies = Done c' /\
    (exists σ' K' M', inv c' σ' K' M' /\ all_msgs M' ≡ₚ rest ++ map fst (posted (app (th c')))) /\
    Forall good (map fst (posted (app (th c')))).
Proof.
  intros Hi Hp Ep Hlen.
  set (P := fun c => exists σ K M, inv c σ K M /\ all_msgs M ≡ₚ replies ++ rest ++ map fst (posted (app (th c))) /\
    Forall good (map fst (posted (app (th c))))).
  set (Q := fun c (rs : list RawKvMsg) => exists σ K M, inv c σ K M /\
    all_msgs M ≡ₚ rs ++ rest ++ map fst (posted (app (th c))) /\ Forall good (map fst (posted (app (th c))))).
  assert (exists c', kv_turn c replies = Done c' /\ Q c' []) as (c' & E & σ' & K' & M' & Hi' & Ep' & Hg); [|by exists c'; naive_solver].
  apply (turn_rule _ _ _ _ P Q).
  - intros i Hr c0 (σ0 & K0 & M0 & Hi0 & Ep0 & Hg0).
    pose proof (iv_cell _ _ _ _ _ _ Hi0 i Hr) as [_ (x & Hx & Hf & Ha) _ _ _ _]. exists x. do 2 (split; [done|]).
    rewrite Hf. intros Hfree. assert (Es : σ0 i = Idle) by (by destruct (σ0 i)).
    destruct (start_idle f tid threads coros FLAGS_cable_cache FLAGS_switch_cache server_id draws_of B logspace_32 draws_ok c0 σ0 K0 M0 i Hi0 Hr Es)
      as (c1 & σ1 & K1 & M1 & E1 & Hi1 & ps & Eps & Ep1 & Hg1).
    exists c1. split; [done|]. exists σ1, K1, M1. split; [done|]. rewrite Eps, map_app. split; [|by apply Forall_app].
    rewrite Ep1, Ep0. by rewrite !app_assoc.
  - intros c0 Hc0. rewrite take_ge by done. exact Hc0.
  - intros c0 r rs (σ0 & K0 & M0 & Hi0 & Ep0 & Hg0).
    destruct (serve_any f tid threads coros FLAGS_cable_cache FLAGS_switch_cache server_id draws_of B logspace_32 draws_ok cable_on no_visibility c0 σ0 K0 M0 r Hi0)
      as (c1 & σ1 & M1 & E1 & Hi1 & Epo & Ep1); [rewrite Ep0; left|].
    exists c1. split; [done|]. exists σ1, K0, M1. split; [done|]. rewrite Epo. split; [|done].
    rewrite Ep1 in Ep0. by apply Permutation_cons_inv in Ep0.
  - exists σ, K, M. split; [done|]. rewrite Hp, app_nil_r. done.
Qed.

Lemma inv_sent_off c σ K M : inv c σ K M -> inv (sent_off c) σ K M.
Proof.
  intros [[] I2 I3 I4 I5]. assert (Ha : forall j, agree c (sent_off c) j) by done.
  split; [done| | |done|done]; intros i Hr.
  - eapply cell_frame; [apply Ha|done|auto].
  - eapply followers_frame; [apply Ha|done|done|auto].
Qed.

Lemma polled_alike ps replies : Forall2 received ps replies -> Forall2 alike (map fst ps) replies.
Proof. intros HF. apply Forall2_fmap_l. eapply Forall2_impl; [exact HF|]. apply alike_received. Qed.

(** Polling some of the replies under way. *)
Lemma poll_ok s ps net' replies : sinv s -> net s ≡ₚ map (fun p => (Reply, p)) ps ++ net' -> Forall2 received ps replies ->
  exists σ K M, inv (cl s) σ K M /\ all_msgs M ≡ₚ replies ++ map (fun e => e.2.1) net'.
Proof.
  intros [(σ & K & M & Hi & Ep) _ _ _] Hn Hps.
  destruct (inv_replace_all (cl s) σ K (map fst ps) replies M (map (fun e => e.2.1) net')) as (M' & Hi' & Ep'); [|done| |].
  - by apply polled_alike.
  - rewrite Ep, Hn, map_app, map_map. done.
  - by exists σ, K, M'.
Qed.

Lemma sinv_step s s' : sinv s -> step s s' -> sinv s'.
Proof.
  intros Hs Hstep. pose proof Hs as [(σ & K & M & Hi & Ep) Hp Hg Hn].
  destruct Hstep as [p net' req buf r dn' size Hnet Hrec Hbuf E|dn' Hn'|ps net' replies c' Hnet Hlen Hps E].
  - rewrite Hnet in Hg, Ep. apply Forall_cons in Hg as [Hgp Hg]. destruct (good_received p req Hrec (Hgp eq_refl)) as [Hgr Ha].
    destruct (serves (dn s) req buf Hn Hgr Hbuf) as (r' & d' & size' & E' & Ha' & Hd'). rewrite E in E'. injection E' as <- <- <-.
    split; simpl; [|done| |done].
    + simpl in Ep. destruct (inv_replace (cl s) σ K M p.1 r _ Hi Ep) as (M' & Hi' & Ep').
      { destruct Ha as (?&?&?&?), Ha' as (?&?&?&?). repeat split; congruence. }
      by exists σ, K, M'.
    + by constructor.
  - split; simpl; try done. by exists σ, K, M.
  - destruct (poll_ok s ps net' replies Hs Hnet Hps) as (σ1 & K1 & M1 & Hi1 & Ep1).
    assert (Hl : (length replies <= 16)%nat) by (by rewrite <- (Forall2_length _ _ _ Hps)).
    destruct (turn_ok (cl s) σ1 K1 M1 replies _ Hi1 Hp Ep1 Hl) as (c1 & E1 & (σ' & K' & M' & Hi' & Ep') & Hgn).
    rewrite E in E1. injection E1 as <-. split; simpl; [|done| |done].
    + exists σ', K', M'. split; [by apply inv_sent_off|]. rewrite Ep', map_app. unfold posts_of. by rewrite map_map.
    + rewrite Hnet in Hg. apply Forall_app in Hg as [_ Hg]. apply Forall_app. split; [done|].
      unfold posts_of. apply Forall_map. eapply Forall_impl; [apply Forall_map; exact Hgn|]. done.
Qed.

(** The client before its loop: [N] is kConfigCoroCnt and [k] FLAGS_coro_num. *)
Definition fresh_client (N k : nat) (magics : list Z) (xs : list KvCtx) (cnts : list Z) : client :=
  mkClient (mkThread (mkRpc (mkCache (replicate N 0) (replicate N 0) (replicate N false) magics
      (replicate k (replicate k 0) ++ replicate (N - k) []) (replicate N (-1))) xs cnts 0 []) (replicate N new_ctx))
    (replicate k None).

Lemma zget_replicate {X} (N : nat) (x : X) i : 0 <= i < Z.of_nat N -> zget (replicate N x) i = Some x.
Proof. intros Hi. unfold zget. rewrite decide_True by lia. apply lookup_replicate. split; [done|lia]. Qed.

Lemma inv_fresh (N k : nat) magics xs cnts : Z.of_nat N = kConfigCoroCnt -> Z.of_nat k = n ->
  zlen magics = kConfigCoroCnt -> zlen xs = kConfigCoroCnt ->
  inv (fresh_client N k magics xs cnts) (fun _ => Idle) (fun i => default 0 (ckey <$> zget xs i)) (fun _ => []).
Proof.
  intros HN Hk Hm Hx. assert (H64 : kConfigCoroCnt = 64) by done. split; [| | |done|done].
  - split; unfold csh, fresh_client; cbn [coro_slave th coro_ctx app cache kv_ctx key_ reorder_wait_flag running magic_check same_coro running_write];
      unfold zlen in *; rewrite ?length_app, ?length_replicate; lia.
  - intros i Hi. split; unfold slave, ctx, kctx, csh, fresh_client;
      cbn [coro_slave th coro_ctx app cache kv_ctx key_ reorder_wait_flag running magic_check same_coro running_write].
    + exists None. rewrite zget_replicate by lia. done.
    + exists new_ctx. rewrite zget_replicate by lia. done.
    + by rewrite zget_replicate by lia.
    + by rewrite zget_replicate by lia.
    + by rewrite zget_replicate by lia.
    + destruct (zget_is_Some xs i) as (x & Ex); [lia|]. exists x. by rewrite Ex.
  - done.
Qed.

Lemma started_fresh magics xs cnts d :
  started_sys magics xs cnts d = Done (mkSys (fresh_client (Z.to_nat kConfigCoroCnt) (Z.to_nat n) magics xs cnts) [] d).
Proof.
  unfold started_sys, new_cache, spawn. rewrite (proj2 (Z.leb_le n _)), (proj2 (Z.leb_le 0 _)) by (unfold kConfigCoroCnt; lia).
  reflexivity.
Qed.

Lemma sinv_started magics xs cnts d s : zlen magics = kConfigCoroCnt -> zlen xs = kConfigCoroCnt ->
  KvServer.log_ok f (nkv d) -> started_sys magics xs cnts d = Done s -> sinv s.
Proof.
  intros Hm Hx Hd. rewrite started_fresh. intros [= <-]. split; [|done|constructor|done].
  eexists (fun _ => Idle), _, (fun _ => []). split; [apply inv_fresh; unfold kConfigCoroCnt in *; try done; lia|].
  unfold all_msgs. induction (seqZ 0 n); done.
Qed.

Lemma sinv_reachable s0 s : sinv s0 -> reachable s0 s -> sinv s.
Proof. intros Hs. induction 1; [done|]. by eapply sinv_step. Qed.

Lemma idle_when_drained s i : sinv s -> net s = [] -> 0 <= i < n ->
  slave (cl s) i = Some None /\ (exists x, ctx (cl s) i = Some x /\ free x = true) /\
  zget (running (csh (cl s))) i = Some false /\ zget (reorder_wait_flag (csh (cl s))) i = Some 0.
Proof.
  intros [(σ & K & M & Hi & Ep) _ _ _] Hn Hr. rewrite Hn in Ep. simpl in Ep. apply Permutation_nil_r in Ep.
  assert (HM : forall j, 0 <= j < n -> M j = []).
  { intros j Hj. destruct (M j) as [|m ms] eqn:Em; [done|]. exfalso.
    assert (m ∈ all_msgs M) as Hm by (apply elem_of_all_msgs; exists j; split; [done|]; rewrite Em; left).
    rewrite Ep in Hm. by apply elem_of_nil in Hm. }
  assert (Hno : forall j, 0 <= j < n -> leads (σ j) = false).
  { intros j Hj. pose proof (iv_msgs _ _ _ _ _ _ Hi j Hj) as Hms. rewrite (HM j Hj) in Hms.
    destruct (σ j) as [| | |[| |w|w]|]; try done; simpl in Hms.
    - by destruct Hms as (? & ? & _).
    - by destruct Hms as (? & ? & _).
    - destruct Hms as (? & ? & E & _). by apply Permutation_nil_l in E.
    - by destruct Hms as (? & ? & _). }
  pose proof (iv_msgs _ _ _ _ _ _ Hi i Hr) as Hms. rewrite (HM i Hr) in Hms.
  assert (Es : σ i = Idle).
  { pose proof Hno as Hall. specialize (Hno i Hr). destruct (σ i) as [| | |r|h] eqn:Es; try done.
    - by destruct Hms as (? & ? & _).
    - by destruct Hms as (? & ? & _).
    - pose proof (iv_follow _ _ _ _ _ _ Hi i Hr) as Hf. unfold follows_ok in Hf. rewrite Es in Hf.
      destruct Hf as (Hh & Hl & _). rewrite (Hall h Hh) in Hl. done. }
  pose proof (iv_cell _ _ _ _ _ _ Hi i Hr) as [(b & Hs & Hb) (x & Hx & Hf & _) H3 _ H5 _]. rewrite Es in *.
  assert (b = None) as -> by (by apply Hb). split; [done|]. split; [by exists x|]. done.
Qed.

(** A message under way is the message of some coroutine. *)
Lemma leader_message i k st ms : waiting st = true -> (forall h, st <> Follower h) -> under_way tid i k st ms ->
  exists m, m ∈ ms /\ key m = k.
Proof.
  intros Hw Hf. destruct st as [| | |[| |w|w]|h]; try done; simpl.
  - intros (m & -> & _ & Ek). exists m. split; [left|done].
  - intros (m & -> & _ & Ek). exists m. split; [left|done].
  - intros (m & -> & _ & Ek). exists m. split; [left|done].
  - intros (m & m' & E & _ & _ & Ek & _). exists m. split; [rewrite E; left|done].
  - intros (m & -> & _ & Ek). exists m. split; [left|done].
  - by destruct (Hf h).
Qed.

Lemma waits_for_message s i tag : sinv s -> 0 <= i < n -> slave (cl s) i = Some (Some tag) ->
  exists x e, kctx (cl s) i = Some x /\ e ∈ net s /\ key e.2.1 = ckey x.
Proof.
  intros [(σ & K & M & Hi & Ep) _ _ _] Hr Hs. pose proof (iv_cell _ _ _ _ _ _ Hi i Hr) as [(b & Hb & Hw) _ _ _ _ (x & Hx & Ek)].
  rewrite Hs in Hb. injection Hb as <-.
  assert (Hwt : waiting (σ i) = true) by (destruct (waiting (σ i)); [done|discriminate (proj2 Hw eq_refl)]).
  assert (exists h m, 0 <= h < n /\ m ∈ M h /\ key m = K i) as (h & m & Hh & Hm & Em).
  { destruct (σ i) as [| | |r|h] eqn:Es; try done.
    1,2: destruct (leader_message i (K i) (σ i) (M i)) as (m & Hm & Em);
      [by rewrite Es|intros h'; by rewrite Es|by apply (iv_msgs _ _ _ _ _ _ Hi)|by exists i, m].
    pose proof (iv_follow _ _ _ _ _ _ Hi i Hr) as Hf. unfold follows_ok in Hf. rewrite Es in Hf. destruct Hf as (Hh & Hl & E).
    destruct (leader_message h (K h) (σ h) (M h)) as (m & Hm & Em);
      [by destruct (σ h)|by destruct (σ h)|by apply (iv_msgs _ _ _ _ _ _ Hi)|exists h, m; by rewrite Em]. }
  assert (Hin : m ∈ map (fun e => e.2.1) (net s)) by (rewrite <- Ep; apply (elem_of_all_msgs f); by exists h).
  apply list_elem_of_In, in_map_iff in Hin as (e & <- & He). exists x, e. split; [done|].
  split; [by apply list_elem_of_In|]. by rewrite Em.
Qed.

(** ** What a run may rely on *)


End system.

(** ** Runs: coroutines that all ask for key 4, reads first *)
Definition sample_flags (coro_num : Z) : flags := mkFlags 8 8 4 false false 4 50 1 1 1 coro_num.

Definition sample_buffer : RawKvMsg :=
  mkMsg (mkHeader 0 0 0 0 0 0 0) 0 0 0 0 0 0 0 0 0 0 0 0 0 0 0 0 0 (replicate 20 0).

Definition sample_draws (reads k : nat) : draw := mkDraw (if (k <? reads)%nat then 10 else 90) 3 sample_buffer 0.

Definition sample_ctxs : list KvCtx := replicate 64 (mkCtx 0 0 0 0 0).
Definition sample_magics : list Z := replicate 64 0.
Definition sample_node (coro_num : Z) : node (gmap Z Z) := mkNode (KvServer.init (sample_flags coro_num)) ∅.
Definition no_client : client := mkClient (mkThread (mkRpc (mkCache [] [] [] [] [] []) [] [] 0 []) []) [].

(** The first request of the net, and its replies at the front. *)
Fixpoint first_request (es : list (dir * (RawKvMsg * Z))) : option ((RawKvMsg * Z) * list (dir * (RawKvMsg * Z))) :=
  match es with
  | [] => None
  | (Request, p) :: es => Some (p, es)
  | e :: es => match first_request es with Some (p, es') => Some (p, e :: es') | None => None end
  end.

Fixpoint first_replies (k : nat) (es : list (dir * (RawKvMsg * Z))) : list (RawKvMsg * Z) * list (dir * (RawKvMsg * Z)) :=
  match k, es with
  | S k, (Reply, p) :: es => let (ps, es') := first_replies k es in (p :: ps, es')
  | _, _ => ([], es)
  end.

Lemma first_request_split es p es' : first_request es = Some (p, es') -> es ≡ₚ (Request, p) :: es'.
Proof.
  revert es'. induction es as [|[[] q] es IH]; intros es'; simpl; [done|by intros [= -> ->]|].
  destruct (first_request es) as [[p1 es1]|]; [|done]. intros [= -> <-]. rewrite (IH es1 eq_refl). apply Permutation_swap.
Qed.

Lemma first_replies_split k es : es = map (fun p => (Reply, p)) (first_replies k es).1 ++ (first_replies k es).2 /\
  (length (first_replies k es).1 <= k)%nat.
Proof.
  revert es. induction k as [|k IH]; intros [|[[] p] es]; simpl; try (split; [done|lia]).
  destruct (first_replies k es) as [ps es'] eqn:E. simpl. specialize (IH es). rewrite E in IH. simpl in IH. destruct IH as [-> ?].
  simpl. split; [done|lia].
Qed.

Section run.
Context (coro_num : Z) (reads : nat).
Notation f := (sample_flags coro_num).
Notation sys := (sys (I := gmap Z Z)).
Notation reachable := (reachable f 0 0 true true 2 (sample_draws reads) 20).

(** What a receiver finds in a buffer of zeros. *)
Definition arrived (p : RawKvMsg * Z) : RawKvMsg := Secondary.deliver p.2 p.1 (payload sample_buffer).

Lemma arrived_received p : received 20 p (arrived p).
Proof. by exists (payload sample_buffer). Qed.

Definition sample_serve (s : sys) : sys :=
  match first_request (net s) with
  | Some (p, net') =>
      match serve f 0 (dn s) (arrived p) sample_buffer with
      | Done (r, dn', size) => mkSys (cl s) ((Reply, (r, size)) :: net') dn'
      | Fault _ => s
      end
  | None => s
  end.

Definition sample_turn (k : nat) (s : sys) : sys :=
  let (ps, net') := first_replies k (net s) in
  match kv_turn f true true 2 0 (sample_draws reads) (cl s) (map arrived ps) with
  | Done c' => mkSys (sent_off c') (net' ++ posts_of c') (dn s)
  | Fault _ => s
  end.

Definition sample_start : sys :=
  match started_sys f sample_magics sample_ctxs [] (sample_node coro_num) with Done s => s | Fault _ => mkSys no_client [] (sample_node coro_num) end.

Lemma sample_serve_reach s0 s : reachable s0 s -> reachable s0 (sample_serve s).
Proof.
  intros Hs. unfold sample_serve. destruct (first_request (net s)) as [[p net']|] eqn:Ef; [|done].
  destruct (serve f 0 (dn s) (arrived p) sample_buffer) as [[[r dn'] size]|] eqn:E; [|done].
  eapply r_step; [exact Hs|]. eapply s_serve; [by apply first_request_split|apply arrived_received| |exact E]. done.
Qed.

Lemma sample_turn_reach s0 k s : (k <= 16)%nat -> reachable s0 s -> reachable s0 (sample_turn k s).
Proof.
  intros Hk Hs. unfold sample_turn. destruct (first_replies_split k (net s)) as [En Hl].
  destruct (first_replies k (net s)) as [ps net'] eqn:Ef.
  destruct (kv_turn _ _ _ _ _ _ _ _) as [c'|] eqn:E; [|done].
  eapply r_step; [exact Hs|]. eapply s_turn; [|simpl in Hl; by etrans| |exact E].
  - simpl in En. by rewrite En.
  - apply Forall2_fmap_r. apply Forall_Forall2_diag, Forall_true, arrived_received.
Qed.
End run.

(** A coroutine that reads and one that writes: a request each, both answered. *)
Definition read_and_write_sent : sys := sample_turn 2 1 0 (sample_start 2).
Definition read_and_write : sys := sample_serve 2 (sample_serve 2 read_and_write_sent).

Notation sample_reachable coro_num reads :=
  (reachable (sample_flags coro_num) 0 0 true true 2 (sample_draws reads) 20 (sample_start coro_num)).

Lemma read_and_write_sent_reach : sample_reachable 2 1 read_and_write_sent.
Proof. apply sample_turn_reach; [lia|apply r_start]. Qed.

Lemma read_and_write_reach : sample_reachable 2 1 read_and_write.
Proof. do 2 apply sample_serve_reach. apply read_and_write_sent_reach. Qed.

(** The reply of the write overtakes that of the read. *)
Definition both_replies : list (RawKvMsg * Z) := map snd (net read_and_write).



(** ** What the protocol does not promise *)

(** The second of two writes of one key posts no message; when the reply of the first
    arrives both are done, and its value is nowhere. *)
Example coalesced_write_lost :
  let s := sample_turn 2 0 0 (sample_start 2) in
  length (net s) = 1%nat /\ coro_slave (cl s) = [Some false; Some true] /\
  coro_slave (cl (sample_turn 2 0 1 (sample_serve 2 s))) = [None; None].
Proof. vm_compute. auto. Qed.

(** get_size has no case for kEnumWriteAndRead: the message ends before the value, and
    the data node stores what its receive buffer held. *)
Lemma written_value_stale f m stale : payload (Secondary.deliver (get_size f kEnumWriteAndRead) m stale) = stale.
Proof. done. Qed.

(** The sixteenth coroutine has no number in the four bits: the reply of its read is
    taken for a write's of the first. *)
Example sixteenth_coroutine :
  let m := request_msg true true 2 0 (mkCtx kEnumReadReq 4 1 0 0) 15 (sample_draws 1 0) in
  coro_byte m 0 = coro_byte (request_msg true true 2 0 (mkCtx kEnumWriteReq 4 1 0 0) 0 (sample_draws 1 0)) 0 /\
  snd <$> (match check_reply (th (cl (sample_start 16))) m 0 with Done r => Some r | Fault _ => None end) = Some 0.
Proof. vm_compute. auto. Qed.
End CableSystem.
