(* ===== verification/CableClientModel.v ===== *)
(** * The client of kv_cable_cache.cc

    Module [CableClient]: the coroutines that apps/kv/kv_cable_cache.cc runs, as
    state machines like those of [KvClient]: kv_test with its four requests, the
    older cworker_new_request_index, and the flow control.  A coroutine suspends in
    post_appended_smsg and goes on with the reply.  The nodes are those of [Cable]. *)

From stdpp Require Import functions.
From S2P Require Import Prelude KvMessageModel KvServerModel KvClientModel SecondaryModel CableModel.
Import KvMessage.

Module CableClient.
Import Secondary (put_word, put_bytes, get_word, get_bytes).

(** struct KvCtx: the fields these operations use. *)
Record KvCtx := mkCtx {
  cop : Z;
  test : TestType;
  coro : Z;
  ckey : Z;
  data_s_id : Z;
  index_s_id : Z;
  cmagic : Z;
  long_key : Z;
  clog_id : Z;
  index_in_switch : bool;
  read_ok : bool }.

(** The client thread. *)
Record client := mkClient {
  cflags : flags;
  server_id : Z;
  thread_id : Z;
  userbuf : list Z }.

(** What rpc_get_qp is asked for, and the message with its size. *)
Record request := mkReq { to_server : Z; to_thread : Z; rmsg : RawKvMsg; rsize : Z }.

Definition kInitInsert : Z := 3 * 2 ^ 20.
Definition kMaxCurrentIndexReq : Z := 1024.

Definition get_data_thread_id_by_key (key : Z) : Z := wrap 8 (wrap 32 key mod Cable.kDataThread).
Definition get_index_thread_id (key : Z) : Z := wrap 8 (wrap 32 key mod Cable.kIndexThread).

Section ops.
Context (c : client).
Let f := cflags c.

Definition get_data_thread_id_by_load (coro_id : Z) : Z :=
  by_load Cable.kDataThread (FLAGS_coro_num f) (thread_id c) coro_id.
Definition get_index_thread_id_by_load (coro_id : Z) : Z :=
  by_load Cable.kIndexThread (FLAGS_coro_num f) (thread_id c) coro_id.

Definition qp_of (x : KvCtx) : Z := coro x mod KvClient.kConfigMaxQPCnt.
Definition vis_flag : Z := if FLAGS_visibility f then visibility else 0.
Definition header (dst o : Z) (x : KvCtx) : RpcHeader := mkHeader dst (server_id c) (thread_id c) (coro x) 0 o 0.
Definition port (tid : Z) (x : KvCtx) : Z := toBigEndian16 (KvClient.get_thread_port tid (qp_of x)).
Definition gid : Z := wrap 8 (KvClient.compute_gid (server_id c) (thread_id c)).

(** *** The requests, for a given index thread; [m] is the send buffer *)
Definition read_index_msg (dst tid k : Z) (x : KvCtx) (m : RawKvMsg) : outcome RawKvMsg :=
  let! conf := of_option OutOfBounds (zget Cable.server_config Cable.kClientId) in
  put_word (mkMsg (header dst kEnumReadIndexReq x) vis_flag (get_switch_key (long_key x))
    (kv_g_id m) (kv_c_id m) (magic m) (server_map m) (qp_map m) (coro_id m) (wrap 32 k) (log_id m)
    (toBigEndian16 (port_id conf)) (route_map m) (port (thread_id c) x) (send_cnt m)
    (port tid x) (magic_in_switch m) (timestamp m) (payload m)) 0 (long_key x).

Definition read_log_msg (tid l : Z) (x : KvCtx) (m : RawKvMsg) : RawKvMsg :=
  mkMsg (header (data_s_id x) kEnumReadLog x) vis_flag (get_switch_key (long_key x))
    gid (coro x) (magic m) (server_map m) (qp_map m) (coro_id m) (wrap 32 (ckey x)) l
    (route_port m) (route_map m) (client_port m) (send_cnt m)
    (port tid x) (magic_in_switch m) (timestamp m) (payload m).

Definition append_msg (tid : Z) (x : KvCtx) (m : RawKvMsg) : outcome RawKvMsg :=
  let! m := put_word (mkMsg (header (data_s_id x) kEnumAppendReq x) vis_flag (get_switch_key (long_key x))
    gid (coro x) (cmagic x) (server_map m) (qp_map m) (coro_id m) (wrap 32 (ckey x)) (log_id m)
    (route_port m) (route_map m) (port (thread_id c) x) (send_cnt m)
    (port tid x) (magic_in_switch m) (timestamp m) (payload m)) 0 (long_key x) in
  put_bytes m sizeof_KvKeyType (take (Z.to_nat (FLAGS_kv_size_b f)) (userbuf c)).

Definition update_msg (tid l : Z) (x : KvCtx) (m : RawKvMsg) : outcome RawKvMsg :=
  put_word (mkMsg (header (index_s_id x) kEnumUpdateIndexReq x) vis_flag (get_switch_key (long_key x))
    (kv_g_id m) (kv_c_id m) (cmagic x) (server_map m) (qp_map m) (coro_id m) (wrap 32 (ckey x)) l
    (route_port m) (route_map m) (port (thread_id c) x) (send_cnt m)
    (port tid x) (magic_in_switch m) (timestamp m) (payload m)) 0 (long_key x).

(** *** get_index, put_index, get_value, put_value *)
Definition get_index_req (x : KvCtx) (m : RawKvMsg) : outcome request :=
  let tid := get_index_thread_id (ckey x) in
  let! m := read_index_msg get_index_server_id tid (get_fingerprint (long_key x)) x m in
  Done (mkReq (index_s_id x) tid m (Cable.get_size f kEnumReadIndexReq)).

Definition with_log (x : KvCtx) (l : Z) (in_switch : bool) : KvCtx :=
  mkCtx (cop x) (test x) (coro x) (ckey x) (data_s_id x) (index_s_id x) (cmagic x) (long_key x) l in_switch (read_ok x).

Definition get_index_done (x : KvCtx) (reply : RawKvMsg) : outcome KvCtx :=
  if negb (key reply =? ckey x) then
    if key reply =? 4294967295 then Done (with_log x 4294967295 (index_in_switch x)) else Fault ProcessExit
  else Done (with_log x (log_id reply) (if msg_op reply =? kEnumReadIndexReq then true else index_in_switch x)).

Definition put_index_req (x : KvCtx) (m : RawKvMsg) : outcome request :=
  let tid := get_index_thread_id (ckey x) in
  let! m := update_msg tid (clog_id x) x m in
  Done (mkReq (index_s_id x) tid m (Cable.get_size f kEnumUpdateIndexReq)).

Definition multicast (reply : RawKvMsg) : bool := FLAGS_visibility f && (msg_op reply =? kEnumMultiCastPkt).

Definition put_index_done (x : KvCtx) (reply : RawKvMsg) : outcome KvCtx :=
  if negb (key reply =? ckey x) then Fault ProcessExit
  else if negb (src_t_id (rpc_header reply) =? thread_id c) then Fault ProcessExit
  else if multicast reply then Done x
  else if msg_op reply =? kEnumUpdateIndexReply then Done x
  else Fault ProcessExit.

Definition get_value_req (x : KvCtx) (m : RawKvMsg) : request :=
  mkReq (data_s_id x) (wrap 8 (logid_2_threadid f (clog_id x)))
    (read_log_msg (get_index_thread_id (ckey x)) (clog_id x) x m) (Cable.get_size f kEnumReadLog).

Definition with_read_ok (x : KvCtx) (b : bool) : KvCtx :=
  mkCtx (cop x) (test x) (coro x) (ckey x) (data_s_id x) (index_s_id x) (cmagic x) (long_key x) (clog_id x) (index_in_switch x) b.

(** The value lands in userbuf; the second result. *)
Definition get_value_done (x : KvCtx) (reply : RawKvMsg) : outcome (KvCtx * list Z) :=
  let! v := get_bytes reply sizeof_KvKeyType (FLAGS_kv_size_b f) in
  if negb (msg_op reply =? kEnumReadReply) then Fault ProcessExit
  else
    let! k := get_word reply 0 in
    let bad := negb (key reply =? 4294967295) && negb (k =? long_key x) && (get_fingerprint (long_key x) =? get_fingerprint k) in
    Done (if bad then with_read_ok x false else x, v).

Definition put_value_req (x : KvCtx) (m : RawKvMsg) : outcome request :=
  let! m := append_msg (get_index_thread_id (ckey x)) x m in
  Done (mkReq (data_s_id x) (get_data_thread_id_by_load (coro x)) m (Cable.get_size f kEnumAppendReq)).

(** The log id of the reply is not kept. *)
Definition put_value_done (x : KvCtx) (reply : RawKvMsg) : outcome KvCtx :=
  if key reply =? ckey x then Done x else Fault ProcessExit.

(** *** kv_test *)
Inductive phase := InGetIndex | InGetValue | InPutValue | InPutIndex.

Inductive progress :=
  | Waiting (x : KvCtx) (p : phase) (r : request)
  | Finished (x : KvCtx) (reply : RawKvMsg)
  | Skipped (x : KvCtx).

(** (TestType)(test_type | 1); kEnumSRS | 1 is no enumerator and, like kEnumSRS, no case. *)
Definition to_write (t : TestType) : TestType :=
  match t with
  | kEnumRI | kEnumWI => kEnumWI
  | kEnumRV | kEnumWV => kEnumWV
  | kEnumR | kEnumW => kEnumW
  | kEnumSW | kEnumSRP => kEnumSRP
  | kEnumSRS => kEnumSRS
  end.

Definition warm_up (t : TestType) (warmup_insert : Z) : TestType * Z :=
  if warmup_insert <? kInitInsert then (to_write t, signed 32 (warmup_insert + 1)) else (t, warmup_insert).

Definition begin_op (x : KvCtx) (t : TestType) : KvCtx :=
  mkCtx (cop x) t (coro x) (get_fingerprint (long_key x)) get_data_server_id get_index_server_id
    (KvClient.new_magic (cmagic x)) (long_key x) (clog_id x) false true.

Definition kv_test_start (x : KvCtx) (t : TestType) (warmup_insert : Z) (m : RawKvMsg) : outcome (progress * Z) :=
  let '(t, w) := warm_up t warmup_insert in
  let x := begin_op x t in
  match t with
  | kEnumR | kEnumRI => let! r := get_index_req x m in Done (Waiting x InGetIndex r, w)
  | kEnumW => let! r := put_value_req x m in Done (Waiting x InPutValue r, w)
  | kEnumWI => let! r := put_index_req x m in Done (Waiting x InPutIndex r, w)
  | kEnumRV | kEnumWV => Done (Skipped x, w)
  | _ => Fault ProcessExit
  end.

Definition kv_test_resume (x : KvCtx) (p : phase) (reply m : RawKvMsg) : outcome progress :=
  match p with
  | InGetIndex =>
      let! x := get_index_done x reply in
      if bool_decide (test x = kEnumRI) || (clog_id x =? 4294967295) then Done (Finished x reply)
      else Done (Waiting x InGetValue (get_value_req x m))
  | InGetValue => let! (x, _) := get_value_done x reply in Done (Finished x reply)
  | InPutValue =>
      let! x := put_value_done x reply in
      if multicast reply then Done (Finished x reply)
      else let! r := put_index_req x m in Done (Waiting x InPutIndex r)
  | InPutIndex => let! x := put_index_done x reply in Done (Finished x reply)
  end.

(** *** cworker_new_request_index: reads and writes in one function *)
Inductive iphase :=
  | AtIndex
  | AtLog (in_switch : bool)
  | AtAppend
  | AtUpdate.

Inductive iprogress :=
  | IWaiting (p : iphase) (r : request)
  | IFinished (reply : RawKvMsg) (in_switch read_ok : bool) (value : option (list Z)).

Definition begin_index (x : KvCtx) (op warmup_insert : Z) : KvCtx * Z :=
  let '(o, w) := (if warmup_insert <? kInitInsert then (kEnumWriteReq, signed 32 (warmup_insert + 1))
                  else (if op <? FLAGS_read f then kEnumReadReq else kEnumWriteReq, warmup_insert)) in
  (mkCtx o (test x) (coro x) (get_fingerprint (long_key x)) get_data_server_id get_index_server_id
     (wrap 16 (cmagic x + 1)) (long_key x) (clog_id x) (index_in_switch x) (read_ok x), w).

Definition index_start (x : KvCtx) (op warmup_insert : Z) (m : RawKvMsg) : outcome (KvCtx * iprogress * Z) :=
  let '(x, w) := begin_index x op warmup_insert in
  let tid := get_index_thread_id_by_load (coro x) in
  if cop x =? kEnumReadReq then
    let! m := read_index_msg (index_s_id x) tid (ckey x) x m in
    Done (x, IWaiting AtIndex (mkReq (index_s_id x) tid m (Cable.get_size f kEnumReadIndexReq)), w)
  else
    let! m := append_msg tid x m in
    Done (x, IWaiting AtAppend (mkReq (data_s_id x) (get_data_thread_id_by_load (coro x)) m (Cable.get_size f (cop x))), w).

Definition at_index (x : KvCtx) (reply m : RawKvMsg) : outcome iprogress :=
  if negb (key reply =? ckey x) then
    if key reply =? 4294967295 then Done (IFinished reply false true None) else Fault ProcessExit
  else
    let m := read_log_msg (get_index_thread_id_by_load (coro x)) (log_id reply) x m in
    Done (IWaiting (AtLog (msg_op reply =? kEnumReadIndexReq))
            (mkReq (data_s_id x) (wrap 8 (logid_2_threadid f (log_id reply))) m (Cable.get_size f (cop x)))).

Definition at_log (x : KvCtx) (in_switch : bool) (reply : RawKvMsg) : outcome iprogress :=
  let! v := get_bytes reply sizeof_KvKeyType (FLAGS_kv_size_b f) in
  if negb (msg_op reply =? kEnumReadReply) then Fault ProcessExit
  else
    let! k := get_word reply 0 in
    Done (IFinished reply in_switch (negb (negb (key reply =? 4294967295) && negb (k =? long_key x))) (Some v)).

Definition at_append (x : KvCtx) (reply m : RawKvMsg) : outcome iprogress :=
  if negb (key reply =? ckey x) then Fault ProcessExit
  else if multicast reply then Done (IFinished reply false true None)
  else if negb (msg_op reply =? kEnumAppendReply) then Fault ProcessExit
  else if negb (src_t_id (rpc_header reply) =? thread_id c) then Fault ProcessExit
  else
    let tid := get_index_thread_id_by_load (coro x) in
    let! m := update_msg tid (log_id reply) x m in
    Done (IWaiting AtUpdate (mkReq (index_s_id x) tid m (Cable.get_size f (cop x)))).

Definition at_update (x : KvCtx) (reply : RawKvMsg) : outcome iprogress :=
  let! _ := put_index_done x reply in Done (IFinished reply false true None).

Definition index_resume (x : KvCtx) (p : iphase) (reply m : RawKvMsg) : outcome iprogress :=
  match p with
  | AtIndex => at_index x reply m
  | AtLog b => at_log x b reply
  | AtAppend => at_append x reply m
  | AtUpdate => at_update x reply
  end.

(** *** Flow control *)
Inductive admission := Run | AskCount.

(** cworker_new_request draws keys and looks at the count of an index thread. *)
Definition draw_keys (x : KvCtx) (k lk : Z) : KvCtx :=
  mkCtx (cop x) (test x) (coro x) (wrap 64 (k + 1)) (data_s_id x) (index_s_id x) (cmagic x) lk (clog_id x)
    (index_in_switch x) (read_ok x).

Definition cworker_admit (index_buf_cnt : list Z) (coro_id : Z) : outcome admission :=
  let! cnt := load index_buf_cnt (get_index_thread_id_by_load coro_id) in
  Done (if kMaxCurrentIndexReq <? cnt then AskCount else Run).

Definition check_req_cnt_req (coro : Z) (m : RawKvMsg) : request :=
  mkReq 0 (thread_id c)
    (mkMsg (mkHeader (server_id c) (server_id c) (thread_id c) coro 0 kEnumReadSend 0) 0 (switch_key m)
      (kv_g_id m) (kv_c_id m) (magic m) (server_map m) (qp_map m) (KvMessage.coro_id m) 1 (log_id m)
      (route_port m) (route_map m) (client_port m) 0
      (toBigEndian16 (KvClient.get_thread_port (get_index_thread_id_by_load coro) 0))
      (magic_in_switch m) (timestamp m) (payload m))
    (Cable.get_size f kEnumReadSend).

Definition check_req_cnt_done (reply : RawKvMsg) : outcome unit :=
  if msg_op reply =? kEnumReadSend then Done tt else Fault ProcessExit.
End ops.

(** ** Clients and nodes together *)
Section exchange.
Context {I : Type} `{IndexLaws I}.
Context (f : flags).
Notation node := (Cable.node I).

(** A request to thread [tid] and its reply; [stale] are the bytes of the receive
    buffers, [buf] the send buffer of the node. *)
Definition exchange (tid : Z) (n : node) (r : request) (stale : list Z) (buf : RawKvMsg) : outcome (RawKvMsg * node) :=
  let! (a, n, size) := Cable.serve f tid n (Secondary.deliver (rsize r) (rmsg r) stale) buf in
  Done (Secondary.deliver size a stale, n).

Record answered (q : RawKvMsg) (a : RawKvMsg) (o : Z) : Prop := {
  an_op : msg_op a = o;
  an_key : key a = key q;
  an_thread : src_t_id (rpc_header a) = src_t_id (rpc_header q) }.

Context (B : Z).
Hypothesis value_size : 0 <= FLAGS_kv_size_b f < 2 ^ 31.
Hypothesis buffers : KvServer.log_size f <= B.

Definition sized (m : RawKvMsg) : Prop := zlen (payload m) = B.

Lemma log_size_eq : KvServer.log_size f = FLAGS_kv_size_b f + 8.
Proof. done. Qed.

Lemma append_size : Cable.get_size f kEnumAppendReq = sizeof_RawKvMsg + KvServer.log_size f.
Proof.
  change (Cable.get_size f kEnumAppendReq) with (wrap 32 (sizeof_RawKvMsg + sizeof_KvKeyType + FLAGS_kv_size_b f)).
  unfold KvServer.log_size. rewrite wrap_small; [lia|]. change sizeof_RawKvMsg with 57. unfold in_width, sizeof_KvKeyType. lia.
Qed.

(** What arrives of a message that was sent in full. *)
Lemma take_deliver size m stale k : zlen stale = zlen (payload m) -> 0 <= k <= zlen (payload m) -> sizeof_RawKvMsg + k <= size ->
  take (Z.to_nat k) (payload (Secondary.deliver size m stale)) = take (Z.to_nat k) (payload m).
Proof.
  intros Hs Hk Hsz. unfold Secondary.deliver, zlen in *. cbn [payload with_payload].
  rewrite take_app_le by (rewrite length_take; lia). rewrite take_take. f_equal. lia.
Qed.

Lemma deliver_sized size m stale : sized m -> zlen stale = B -> sized (Secondary.deliver size m stale).
Proof. unfold sized. intros Hm Hs. rewrite Secondary.length_deliver; [done|congruence]. Qed.

Lemma room_for m : sized m -> 8 <= zlen (payload m) /\ KvServer.log_size f <= zlen (payload m).
Proof. unfold sized. pose proof log_size_eq. lia. Qed.

(** *** Payloads *)
Lemma put_word_done m k : sized m -> put_word m 0 k = Done (put_key m k).
Proof.
  intros Hm. destruct (room_for m Hm). unfold put_word. apply Secondary.put_bytes_done; [done|].
  pose proof (length_key_bytes k). unfold zlen in *. change (Secondary.kKeySize * 0) with 0. lia.
Qed.

Lemma put_key_sized m k : sized m -> sized (put_key m k).
Proof.
  intros Hm. destruct (room_for m Hm). unfold sized, zlen in *. cbn [payload put_key with_payload].
  rewrite blit_length; [done|]. rewrite length_key_bytes. lia.
Qed.

Lemma get_word_key m : sized m -> get_word m 0 = Done (get_key m).
Proof. intros Hm. destruct (room_for m Hm). by rewrite Secondary.get_word_done by (unfold Secondary.room, Secondary.kKeySize, Secondary.sizeof_kKeySize; lia). Qed.

Lemma get_log_done m k : sized m -> 0 <= k <= KvServer.log_size f -> get_bytes m 0 k = Done (take (Z.to_nat k) (payload m)).
Proof. intros Hm Hk. destruct (room_for m Hm). rewrite Secondary.get_bytes_done by lia. done. Qed.

Lemma get_value_bytes m : sized m -> get_bytes m sizeof_KvKeyType (FLAGS_kv_size_b f) = Done (get_value f m).
Proof. intros Hm. destruct (room_for m Hm). pose proof log_size_eq. unfold sizeof_KvKeyType. by rewrite Secondary.get_bytes_done by lia. Qed.

(** A key and a value, as append_msg puts them. *)
Definition row (k : Z) (v : list Z) : list Z := key_bytes k ++ take (Z.to_nat (FLAGS_kv_size_b f)) v.

Lemma row_length k v : FLAGS_kv_size_b f <= zlen v -> zlen (row k v) = KvServer.log_size f.
Proof. intros Hv. unfold row, zlen in *. rewrite length_app, length_key_bytes, length_take, log_size_eq. lia. Qed.

Lemma row_of_message m k v : FLAGS_kv_size_b f <= zlen v -> take (Z.to_nat (KvServer.log_size f)) (payload m) = row k v ->
  in_width 64 k -> get_key m = k /\ get_value f m = take (Z.to_nat (FLAGS_kv_size_b f)) v.
Proof.
  intros Hv E Hk. assert (E8 : take 8 (payload m) = key_bytes k).
  { apply (f_equal (take 8)) in E. rewrite take_take in E. pose proof log_size_eq. rewrite Nat.min_l in E by lia.
    rewrite E. unfold row. apply take_app_length'. by rewrite length_key_bytes. }
  split; [unfold get_key; rewrite E8; by apply key_bytes_value|]. unfold get_value.
  rewrite take_drop_commute. replace (8 + Z.to_nat (FLAGS_kv_size_b f))%nat with (Z.to_nat (KvServer.log_size f))
    by (pose proof log_size_eq; lia).
  rewrite E. unfold row. apply drop_app_length'. by rewrite length_key_bytes.
Qed.

Lemma append_msg_done c tid x m : cflags c = f -> FLAGS_kv_size_b f <= zlen (userbuf c) -> sized m ->
  exists m', append_msg c tid x m = Done m' /\ sized m' /\
    take (Z.to_nat (KvServer.log_size f)) (payload m') = row (long_key x) (userbuf c) /\
    msg_op m' = kEnumAppendReq /\ key m' = wrap 32 (ckey x) /\ src_t_id (rpc_header m') = thread_id c.
Proof.
  intros Hf Hv Hm. pose proof log_size_eq as Hl. unfold append_msg. rewrite put_word_done by done. cbn [obind].
  set (m1 := put_key _ _). assert (Hm1 : sized m1) by (by apply put_key_sized).
  set (v := take (Z.to_nat (FLAGS_kv_size_b f)) (userbuf c)).
  assert (Hvl : length v = Z.to_nat (FLAGS_kv_size_b f)) by (unfold v, zlen in *; rewrite length_take; lia).
  rewrite Hf. fold v. destruct (room_for m1 Hm1).
  rewrite Secondary.put_bytes_done by (unfold zlen, sizeof_KvKeyType in *; lia). eexists. split; [done|].
  destruct (key_value_payload (payload m) (long_key x) v) as (H8 & Hval & _). split_and!; try done.
  - unfold sized, zlen in *. cbn [payload with_payload]. rewrite blit_length; [done|].
    unfold sizeof_KvKeyType. change (Z.to_nat 8) with 8%nat. lia.
  - replace (Z.to_nat (KvServer.log_size f)) with (8 + length v)%nat by lia.
    rewrite <- take_take_drop. cbn [payload with_payload]. change (Z.to_nat sizeof_KvKeyType) with 8%nat.
    unfold row. refine (f_equal2 app _ _); [exact H8|exact Hval].
Qed.

(** *** What the nodes answer *)
Lemma client_conf : zget Cable.server_config Cable.kClientId = Some (mkServer 2 8 1 12 1 ens6 136).
Proof. done. Qed.

Lemma node_append tid n req buf : KvServer.log_ok f (Cable.nkv n) -> msg_op req = kEnumAppendReq -> sized req -> sized buf ->
  exists a l, Cable.serve f tid n req buf = Done (a, Cable.mkNode l (Cable.nindex n), Cable.get_size f kEnumAppendReply) /\
    answered req a kEnumAppendReply /\ sized a /\ log_id a = compute_log_id f (KvServer.pos (Cable.nkv n)) tid /\
    KvServer.log_ok f l /\
    KvServer.get f l (KvServer.pos (Cable.nkv n)) = Done (take (Z.to_nat (KvServer.log_size f)) (payload req)).
Proof.
  intros O Hop Hr Hb. destruct (room_for req Hr), (room_for buf Hb). pose proof log_size_eq as Hl.
  set (bs := take (Z.to_nat (KvServer.log_size f)) (payload req)).
  assert (Hbs : zlen bs = KvServer.log_size f) by (unfold bs, zlen in *; rewrite length_take; lia).
  destruct (KvServer.append_spec f (Cable.nkv n) bs O Hbs) as (l & Ha & Ol & _ & Hg).
  unfold Cable.serve, Cable.server_process_msg, Cable.process_op. rewrite Hop. cbn -[Cable.get_size put_bytes get_bytes Z.to_nat].
  rewrite (get_log_done req) by (try done; lia). cbn [obind]. fold bs. rewrite Ha. cbn [obind].
  rewrite (get_log_done req) by (try done; unfold sizeof_KvKeyType; lia). cbn [obind].
  rewrite Secondary.put_bytes_done by (cbn; unfold zlen, sizeof_KvKeyType in *; rewrite ?length_take; lia). cbn -[Cable.get_size].
  eexists _, l. split; [reflexivity|]. split_and!; try done.
  - unfold sized, zlen in *. cbn. rewrite blit_length; [done|]. rewrite length_take. lia.
  - rewrite Hg by apply O. by rewrite Z.eqb_refl.
Qed.

Lemma node_update tid n req buf : msg_op req = kEnumUpdateIndexReq -> sized req -> sized buf ->
  exists a, Cable.serve f tid n req buf =
      Done (a, Cable.mkNode (Cable.nkv n) (mt_insert (Cable.nindex n) (get_key req) (log_id req)), sizeof_RawKvMsg) /\
    answered req a kEnumUpdateIndexReply /\ sized a.
Proof.
  intros Hop Hr Hb. unfold Cable.serve, Cable.server_process_msg, Cable.process_op. rewrite Hop. cbn -[Cable.get_size get_word].
  rewrite (get_word_key req) by done. cbn. eexists. split; [reflexivity|]. done.
Qed.

Lemma node_read_index tid n req buf : msg_op req = kEnumReadIndexReq -> sized req -> sized buf ->
  exists a, Cable.serve f tid n req buf = Done (a, n, sizeof_RawKvMsg) /\ sized a /\
    msg_op a = kEnumReadIndexReply /\
    match mt_search (Cable.nindex n) (get_key req) with
    | Some v => key a = key req /\ log_id a = wrap 32 v
    | None => key a = 4294967295
    end.
Proof.
  intros Hop Hr Hb. unfold Cable.serve, Cable.server_process_msg, Cable.process_op. rewrite Hop. cbn -[Cable.get_size get_word].
  rewrite (get_word_key req) by done. cbn. unfold KvServer.get_long.
  destruct (mt_search (Cable.nindex n) (get_key req)) as [v|]; cbn; (eexists; split; [reflexivity|]; done).
Qed.

Lemma node_read_log tid n req buf bs : msg_op req = kEnumReadLog -> sized buf ->
  KvServer.get f (Cable.nkv n) (logid_2_locallogid f (log_id req)) = Done bs -> zlen bs = KvServer.log_size f ->
  exists a, Cable.serve f tid n req buf = Done (a, n, Cable.get_size f kEnumReadReply) /\
    answered req a kEnumReadReply /\ sized a /\ take (Z.to_nat (KvServer.log_size f)) (payload a) = bs.
Proof.
  intros Hop Hb Hg Hl. destruct (room_for buf Hb).
  unfold Cable.serve, Cable.server_process_msg, Cable.process_op. rewrite Hop. cbn -[Cable.get_size put_bytes]. rewrite Hg. cbn [obind].
  rewrite Secondary.put_bytes_done by (cbn; lia). cbn -[Cable.get_size]. eexists. split; [reflexivity|]. split_and!; try done.
  - unfold sized, zlen in *. cbn. rewrite blit_length; [done|lia].
  - cbn. apply take_blit. unfold zlen in Hl. lia.
Qed.

(** *** Whole exchanges *)
Lemma size_of o : o = kEnumAppendReq \/ o = kEnumWriteReq \/ o = kEnumReadReply ->
  Cable.get_size f o = sizeof_RawKvMsg + KvServer.log_size f.
Proof. intros [-> | [-> | ->]]; exact append_size. Qed.

Lemma row_arrives size m stale : sized m -> zlen stale = B -> sizeof_RawKvMsg + KvServer.log_size f <= size ->
  take (Z.to_nat (KvServer.log_size f)) (payload (Secondary.deliver size m stale)) =
  take (Z.to_nat (KvServer.log_size f)) (payload m).
Proof. intros Hm Hs Hsz. destruct (room_for m Hm). pose proof log_size_eq. apply take_deliver; [congruence|lia|done]. Qed.

Lemma key_arrives size m stale : sized m -> zlen stale = B -> sizeof_RawKvMsg + 8 <= size ->
  get_key (Secondary.deliver size m stale) = get_key m.
Proof. intros Hm Hs Hsz. destruct (room_for m Hm). unfold get_key. f_equal. apply (take_deliver size m stale 8); [congruence|lia|done]. Qed.

Lemma exchange_append tid n r stale buf bs : KvServer.log_ok f (Cable.nkv n) -> msg_op (rmsg r) = kEnumAppendReq ->
  sized (rmsg r) -> zlen stale = B -> sized buf -> rsize r = sizeof_RawKvMsg + KvServer.log_size f ->
  take (Z.to_nat (KvServer.log_size f)) (payload (rmsg r)) = bs ->
  exists a l, exchange tid n r stale buf = Done (a, Cable.mkNode l (Cable.nindex n)) /\
    answered (rmsg r) a kEnumAppendReply /\ sized a /\ log_id a = compute_log_id f (KvServer.pos (Cable.nkv n)) tid /\
    KvServer.log_ok f l /\ KvServer.get f l (KvServer.pos (Cable.nkv n)) = Done bs.
Proof.
  intros O Hop Hm Hs Hb Hsz <-. unfold exchange.
  destruct (node_append tid n (Secondary.deliver (rsize r) (rmsg r) stale) buf O Hop (deliver_sized _ _ _ Hm Hs) Hb)
    as (a & l & -> & [A1 A2 A3] & Ha & Hl & Ol & Hg). cbn [obind]. eexists _, l. split; [reflexivity|].
  rewrite row_arrives in Hg by (done || lia). split_and!; try done. by apply deliver_sized.
Qed.

Lemma exchange_update tid n r stale buf k : msg_op (rmsg r) = kEnumUpdateIndexReq ->
  sized (rmsg r) -> zlen stale = B -> sized buf -> sizeof_RawKvMsg + 8 <= rsize r -> get_key (rmsg r) = k ->
  exists a, exchange tid n r stale buf =
      Done (a, Cable.mkNode (Cable.nkv n) (mt_insert (Cable.nindex n) k (log_id (rmsg r)))) /\
    answered (rmsg r) a kEnumUpdateIndexReply.
Proof.
  intros Hop Hm Hs Hb Hsz <-. unfold exchange.
  destruct (node_update tid n (Secondary.deliver (rsize r) (rmsg r) stale) buf Hop (deliver_sized _ _ _ Hm Hs) Hb)
    as (a & -> & [A1 A2 A3] & _). cbn [obind]. rewrite key_arrives by done. eexists. split; [reflexivity|]. by split.
Qed.

Lemma exchange_read_index tid n r stale buf v : msg_op (rmsg r) = kEnumReadIndexReq ->
  sized (rmsg r) -> zlen stale = B -> sized buf -> sizeof_RawKvMsg + 8 <= rsize r ->
  mt_search (Cable.nindex n) (get_key (rmsg r)) = Some v ->
  exists a, exchange tid n r stale buf = Done (a, n) /\ msg_op a = kEnumReadIndexReply /\
    key a = key (rmsg r) /\ log_id a = wrap 32 v.
Proof.
  intros Hop Hm Hs Hb Hsz Hv. unfold exchange.
  destruct (node_read_index tid n (Secondary.deliver (rsize r) (rmsg r) stale) buf Hop (deliver_sized _ _ _ Hm Hs) Hb)
    as (a & -> & _ & Ho & Ha). cbn [obind]. rewrite key_arrives, Hv in Ha by done. destruct Ha.
  eexists. split; [reflexivity|]. done.
Qed.

Lemma exchange_read_log tid n r stale buf bs : msg_op (rmsg r) = kEnumReadLog -> zlen stale = B -> sized buf ->
  KvServer.get f (Cable.nkv n) (logid_2_locallogid f (log_id (rmsg r))) = Done bs -> zlen bs = KvServer.log_size f ->
  exists a, exchange tid n r stale buf = Done (a, n) /\ answered (rmsg r) a kEnumReadReply /\ sized a /\
    take (Z.to_nat (KvServer.log_size f)) (payload a) = bs.
Proof.
  intros Hop Hs Hb Hg Hl. unfold exchange.
  destruct (node_read_log tid n (Secondary.deliver (rsize r) (rmsg r) stale) buf bs Hop Hb Hg Hl)
    as (a & -> & [A1 A2 A3] & Ha & Hp). cbn [obind]. eexists. split; [reflexivity|]. split_and!; try done.
  - by apply deliver_sized.
  - rewrite row_arrives; [done|done|done|]. rewrite size_of by auto. lia.
Qed.

(** ** Runs: data threads and the index, which its threads share *)
Record world := mkWorld { data : Z -> node; idx : node }.

(** The client's send buffer, the node's and the bytes of the receive buffers, each
    time a message is built, answered and received. *)
Context (cbuf nbuf : nat -> RawKvMsg) (stale : nat -> list Z).

Definition call (k : nat) (w : world) (r : request) : outcome (RawKvMsg * world) :=
  if to_server r =? get_data_server_id then
    let! (a, n) := exchange (to_thread r) (data w (to_thread r)) r (stale k) (nbuf k) in
    Done (a, mkWorld (<[to_thread r := n]> (data w)) (idx w))
  else
    let! (a, n) := exchange (to_thread r) (idx w) r (stale k) (nbuf k) in Done (a, mkWorld (data w) n).

Fixpoint drive_test (k : nat) (c : client) (w : world) (p : progress) : outcome (progress * world) :=
  match p, k with
  | Waiting x ph r, S k =>
      let! (a, w) := call k w r in
      let! p := kv_test_resume c x ph a (cbuf k) in drive_test k c w p
  | Waiting _ _ _, O => Fault Diverges
  | p, _ => Done (p, w)
  end.

Fixpoint drive_index (k : nat) (c : client) (w : world) (x : KvCtx) (p : iprogress) : outcome (iprogress * world) :=
  match p, k with
  | IWaiting ph r, S k =>
      let! (a, w) := call k w r in
      let! p := index_resume c x ph a (cbuf k) in drive_index k c w x p
  | IWaiting _ _, O => Fault Diverges
  | p, _ => Done (p, w)
  end.

Hypothesis cbuf_sized : forall k, sized (cbuf k).
Hypothesis nbuf_sized : forall k, sized (nbuf k).
Hypothesis stale_sized : forall k, zlen (stale k) = B.

Lemma fingerprint_32 k : wrap 32 (get_fingerprint k) = get_fingerprint k.
Proof. apply wrap_small. pose proof (fingerprint_range k). unfold in_width. lia. Qed.

Lemma update_msg_done c tid l x m : sized m -> in_width 64 (long_key x) ->
  exists m', update_msg c tid l x m = Done m' /\ sized m' /\ get_key m' = long_key x /\
    msg_op m' = kEnumUpdateIndexReq /\ key m' = wrap 32 (ckey x) /\ log_id m' = l /\ src_t_id (rpc_header m') = thread_id c.
Proof.
  intros Hm Hk. unfold update_msg. rewrite put_word_done by done. eexists. split; [reflexivity|].
  split_and!; try done; [by apply put_key_sized|by apply get_put_key].
Qed.

Lemma call_index k w r a n : to_server r = 1 -> exchange (to_thread r) (idx w) r (stale k) (nbuf k) = Done (a, n) ->
  call k w r = Done (a, mkWorld (data w) n).
Proof. intros Hr E. unfold call. rewrite Hr, E. done. Qed.

Lemma call_data k w r a n : to_server r = 0 -> exchange (to_thread r) (data w (to_thread r)) r (stale k) (nbuf k) = Done (a, n) ->
  call k w r = Done (a, mkWorld (<[to_thread r := n]> (data w)) (idx w)).
Proof. intros Hr E. unfold call. rewrite Hr, E. done. Qed.

(** Updating the index with what [update_msg] builds. *)
Lemma call_update k c w x l tid size m : index_s_id x = 1 -> sized m -> in_width 64 (long_key x) ->
  ckey x = get_fingerprint (long_key x) -> sizeof_RawKvMsg + 8 <= size ->
  exists m' a w', update_msg c tid l x m = Done m' /\ call k w (mkReq (index_s_id x) tid m' size) = Done (a, w') /\
    put_index_done c x a = Done x /\ data w' = data w /\ Cable.nindex (idx w') = mt_insert (Cable.nindex (idx w)) (long_key x) l.
Proof.
  intros Hi Hm Hk Hc Hsz. destruct (update_msg_done c tid l x m Hm Hk) as (m' & E & Hs & Hg & Hop & Hkey & Hl & Ht).
  set (r := mkReq (index_s_id x) tid m' size).
  destruct (exchange_update tid (idx w) r (stale k) (nbuf k) (long_key x) Hop Hs (stale_sized k) (nbuf_sized k) Hsz Hg) as (a & Ex & [B1 B2 B3]).
  eexists m', a, _. split; [done|]. split; [by apply call_index|]. cbn [data idx Cable.nindex]. split; [|by rewrite <- Hl].
  unfold put_index_done, multicast. rewrite B2, B1, B3. change (key (rmsg r)) with (key m').
  change (src_t_id (rpc_header (rmsg r))) with (src_t_id (rpc_header m')).
  rewrite Hkey, Hc, fingerprint_32, Ht, !Z.eqb_refl, andb_false_r. done.
Qed.

(** Appending what [append_msg] builds. *)
Lemma call_append k c w x tid to size m : cflags c = f -> data_s_id x = 0 -> sized m -> FLAGS_kv_size_b f <= zlen (userbuf c) ->
  KvServer.log_ok f (Cable.nkv (data w to)) -> size = sizeof_RawKvMsg + KvServer.log_size f ->
  exists m' a w', append_msg c tid x m = Done m' /\ call k w (mkReq (data_s_id x) to m' size) = Done (a, w') /\
    msg_op a = kEnumAppendReply /\ key a = wrap 32 (ckey x) /\ src_t_id (rpc_header a) = thread_id c /\
    log_id a = compute_log_id f (KvServer.pos (Cable.nkv (data w to))) to /\ idx w' = idx w /\
    KvServer.get f (Cable.nkv (data w' to)) (KvServer.pos (Cable.nkv (data w to))) = Done (row (long_key x) (userbuf c)).
Proof.
  intros Hf Hd Hm Hv O Hsz. destruct (append_msg_done c tid x m Hf Hv Hm) as (m' & E & Hs & Hrow & Hop & Hkey & Ht).
  set (r := mkReq (data_s_id x) to m' size).
  destruct (exchange_append to (data w to) r (stale k) (nbuf k) _ O Hop Hs (stale_sized k) (nbuf_sized k) Hsz Hrow)
    as (a & l & Ex & [B1 B2 B3] & _ & Hid & _ & Hg).
  eexists m', a, _. split; [done|]. split; [by apply call_data|]. rewrite B2, B3. split_and!; try done.
  cbn [data]. change (to_thread r) with to. by rewrite fn_lookup_insert.
Qed.

Definition placed (w w' : world) (t : Z) (bs : list Z) : Prop :=
  KvServer.get f (Cable.nkv (data w' t)) (KvServer.pos (Cable.nkv (data w t))) = Done bs.

(** C13. A write of kv_test stores its value and then indexes another: whatever the index and the
    data threads hold, a client that meets no switch (put_value is answered by the data node)
    finishes the write without an error, the key and value are in the log at the position the
    reply named, but the index then maps the key to the log id the coroutine last read, not to it. *)
Theorem cable_write_unindexed c w x warm :
  cflags c = f -> in_width 64 (long_key x) -> FLAGS_kv_size_b f <= zlen (userbuf c) ->
  let t := get_data_thread_id_by_load c (coro x) in
  KvServer.log_ok f (Cable.nkv (data w t)) ->
  exists p warm' x' a w', kv_test_start c x kEnumW warm (cbuf 2) = Done (p, warm') /\
    drive_test 2 c w p = Done (Finished x' a, w') /\
    placed w w' t (row (long_key x) (userbuf c)) /\
    mt_search (Cable.nindex (idx w')) (long_key x) = Some (clog_id x).
Proof.
  intros Hf Hk Hv t O. set (x1 := begin_op x kEnumW).
  destruct (call_append 1 c w x1 (get_index_thread_id (ckey x1)) t (Cable.get_size f kEnumAppendReq) (cbuf 2))
    as (m1 & a1 & w1 & E1 & C1 & Ho & Hkey & _ & _ & _ & Hg); try done; [exact append_size|].
  destruct (call_update 0 c w1 x1 (clog_id x1) (get_index_thread_id (ckey x1)) (Cable.get_size f kEnumUpdateIndexReq) (cbuf 1))
    as (m2 & a2 & w2 & E2 & C2 & Hdone & Hd & Hidx); try done.
  assert (E0 : exists warm', kv_test_start c x kEnumW warm (cbuf 2) =
     Done (Waiting x1 InPutValue (mkReq (data_s_id x1) t m1 (Cable.get_size f kEnumAppendReq)), warm')).
  { unfold kv_test_start, warm_up. destruct (warm <? kInitInsert); cbn [to_write]; fold x1; unfold put_value_req; rewrite E1, Hf; by eexists. }
  destruct E0 as (warm' & E0). eexists _, warm', x1, a2, w2. split; [exact E0|]. split.
  - cbn [drive_test]. rewrite C1. cbn [obind kv_test_resume]. unfold put_value_done, multicast, put_index_req.
    assert (Hkey' : key a1 = ckey x1) by (rewrite Hkey; apply fingerprint_32).
    rewrite Hkey', Z.eqb_refl, Ho. cbn [obind].
    rewrite andb_false_r, E2, Hf. cbn [obind]. cbn [drive_test]. rewrite C2. cbn [obind kv_test_resume]. rewrite Hdone. done.
  - unfold placed. rewrite Hd. split; [exact Hg|]. rewrite Hidx, search_insert. by rewrite decide_True.
Qed.

(** *** The same through cworker_new_request_index *)
Lemma read_index_msg_done c dst tid k x m : sized m -> in_width 64 (long_key x) ->
  exists m', read_index_msg c dst tid k x m = Done m' /\ sized m' /\ get_key m' = long_key x /\
    msg_op m' = kEnumReadIndexReq /\ key m' = wrap 32 k.
Proof.
  intros Hm Hk. unfold read_index_msg. rewrite client_conf. cbn [obind of_option]. rewrite put_word_done by done.
  eexists. split; [reflexivity|]. split_and!; try done; [by apply put_key_sized|by apply get_put_key].
Qed.

(** Who writes and who reads: the draw and the warm-up of a thread. *)
Definition writes (op warm : Z) : Prop := warm < kInitInsert \/ FLAGS_read f <= op.
Definition reads (op warm : Z) : Prop := kInitInsert <= warm /\ op < FLAGS_read f.

Definition index_ctx (x : KvCtx) (o : Z) : KvCtx :=
  mkCtx o (test x) (coro x) (get_fingerprint (long_key x)) 0 1 (wrap 16 (cmagic x + 1)) (long_key x) (clog_id x)
    (index_in_switch x) (read_ok x).

Lemma begin_writes c x op warm : cflags c = f -> writes op warm -> exists w, begin_index c x op warm = (index_ctx x kEnumWriteReq, w).
Proof.
  intros Hf Hw. unfold begin_index. rewrite Hf. destruct (Z.ltb_spec warm kInitInsert); [by eexists|].
  destruct Hw as [?|Hr]; [lia|]. rewrite (proj2 (Z.ltb_ge op (FLAGS_read f))) by lia. by eexists.
Qed.

Lemma begin_reads c x op warm : cflags c = f -> reads op warm -> begin_index c x op warm = (index_ctx x kEnumReadReq, warm).
Proof.
  intros Hf [Hw Hr]. unfold begin_index. by rewrite Hf, (proj2 (Z.ltb_ge warm kInitInsert)), (proj2 (Z.ltb_lt op (FLAGS_read f))) by lia.
Qed.

Lemma index_write c w x op warm : cflags c = f -> in_width 64 (long_key x) -> FLAGS_kv_size_b f <= zlen (userbuf c) ->
  writes op warm -> let t := get_data_thread_id_by_load c (coro x) in KvServer.log_ok f (Cable.nkv (data w t)) ->
  exists x1 p warm' a w', index_start c x op warm (cbuf 2) = Done (x1, p, warm') /\
    drive_index 2 c w x1 p = Done (IFinished a false true None, w') /\
    placed w w' t (row (long_key x) (userbuf c)) /\
    mt_search (Cable.nindex (idx w')) (long_key x) = Some (compute_log_id f (KvServer.pos (Cable.nkv (data w t))) t).
Proof.
  intros Hf Hk Hv Hw t O. destruct (begin_writes c x op warm Hf Hw) as (warm' & Eb). set (x1 := index_ctx x kEnumWriteReq) in *.
  set (tid := get_index_thread_id_by_load c (coro x1)).
  destruct (call_append 1 c w x1 tid t (Cable.get_size f kEnumWriteReq) (cbuf 2))
    as (m1 & a1 & w1 & E1 & C1 & Ho & Hkey & Ht & Hid & _ & Hg); try done; [apply size_of; auto|].
  destruct (call_update 0 c w1 x1 (log_id a1) tid (Cable.get_size f kEnumWriteReq) (cbuf 1))
    as (m2 & a2 & w2 & E2 & C2 & Hdone & Hd & Hidx); try done.
  { rewrite size_of, log_size_eq by auto. lia. }
  exists x1, (IWaiting AtAppend (mkReq (data_s_id x1) t m1 (Cable.get_size f kEnumWriteReq))), warm', a2, w2. split.
  { unfold index_start. rewrite Eb. change (cop x1 =? kEnumReadReq) with false. cbn iota. fold tid. rewrite E1, Hf. reflexivity. }
  split.
  - cbn [drive_index]. rewrite C1. cbn [obind index_resume]. unfold at_append, multicast.
    assert (Hkey' : key a1 = ckey x1) by (rewrite Hkey; apply fingerprint_32).
    rewrite Hkey', Ht, !Z.eqb_refl, Ho, andb_false_r. cbn [negb]. change (kEnumAppendReply =? kEnumAppendReply) with true.
    cbn [negb]. fold tid. rewrite E2, Hf. change (cop x1) with kEnumWriteReq. cbn [obind drive_index]. rewrite C2. cbn [obind index_resume].
    unfold at_update. rewrite Hdone. done.
  - unfold placed. rewrite Hd. split; [exact Hg|]. rewrite Hidx, search_insert, decide_True by done. by rewrite Hid.
Qed.

Lemma index_read c w x op warm l v : cflags c = f -> in_width 64 (long_key x) -> reads op warm ->
  mt_search (Cable.nindex (idx w)) (long_key x) = Some l -> in_width 32 l -> FLAGS_kv_size_b f <= zlen v ->
  KvServer.get f (Cable.nkv (data w (wrap 8 (logid_2_threadid f l)))) (logid_2_locallogid f l) = Done (row (long_key x) v) ->
  exists x1 p warm' a w', index_start c x op warm (cbuf 2) = Done (x1, p, warm') /\
    drive_index 2 c w x1 p = Done (IFinished a false true (Some (take (Z.to_nat (FLAGS_kv_size_b f)) v)), w').
Proof.
  intros Hf Hk Hr Hl Hw Hv Hg. set (x1 := index_ctx x kEnumReadReq).
  set (tid := get_index_thread_id_by_load c (coro x1)).
  destruct (read_index_msg_done c (index_s_id x1) tid (ckey x1) x1 (cbuf 2) (cbuf_sized 2) Hk) as (m1 & E1 & Hs & Hkm & Hop & Hkey).
  set (r1 := mkReq (index_s_id x1) tid m1 (Cable.get_size f kEnumReadIndexReq)).
  destruct (exchange_read_index tid (idx w) r1 (stale 1) (nbuf 1) l Hop Hs (stale_sized 1) (nbuf_sized 1)) as (a1 & X1 & Ho & Ha & Hla);
    [done|by change (rmsg r1) with m1; rewrite Hkm|].
  pose proof (call_index 1 w r1 a1 _ eq_refl X1) as C1. rewrite (wrap_small 32 l Hw) in Hla.
  set (w1 := mkWorld (data w) (idx w)) in C1.
  set (r2 := mkReq (data_s_id x1) (wrap 8 (logid_2_threadid f l)) (read_log_msg c tid l x1 (cbuf 1)) (Cable.get_size f kEnumReadReq)).
  destruct (exchange_read_log (to_thread r2) (data w (to_thread r2)) r2 (stale 0) (nbuf 0) _ eq_refl (stale_sized 0) (nbuf_sized 0) Hg (row_length _ _ Hv))
    as (a2 & X2 & [B1 B2 B3] & Ha2 & Hrow).
  pose proof (call_data 0 w1 r2 a2 _ eq_refl X2) as C2.
  destruct (row_of_message a2 (long_key x) v Hv Hrow Hk) as [Hk2 Hv2].
  eexists x1, (IWaiting AtIndex r1), warm, a2, _. split.
  { unfold index_start. rewrite (begin_reads c x op warm Hf Hr). fold x1. change (cop x1 =? kEnumReadReq) with true. cbn iota.
    fold tid. rewrite E1, Hf. fold r1. reflexivity. }
  cbn [drive_index]. rewrite C1. cbn [obind index_resume]. unfold at_index.
  assert (Hkey' : key a1 = ckey x1) by (rewrite Ha; change (rmsg r1) with m1; rewrite Hkey; apply fingerprint_32).
  rewrite Hkey', Z.eqb_refl, Hla, Ho, Hf. cbn [negb obind]. fold tid. change (kEnumReadIndexReply =? kEnumReadIndexReq) with false.
  change (cop x1) with kEnumReadReq. fold r2. cbn [drive_index]. rewrite C2. cbn [obind index_resume]. unfold at_log.
  rewrite Hf, (get_value_bytes a2 Ha2), B1, (get_word_key a2 Ha2), Hk2, Hv2. cbn [obind]. change (long_key x1) with (long_key x).
  rewrite (Z.eqb_refl (long_key x)), andb_false_r. done.
Qed.

(** C12. What cworker_new_request_index writes it reads: a write that meets no switch ends without
    an error after two exchanges, and then any client of the same index that asks for the key is
    handed exactly the bytes written, with its check of the key passing. *)
Theorem cable_index_roundtrip c1 w x1 op1 warm1 :
  cflags c1 = f -> in_width 64 (long_key x1) -> FLAGS_kv_size_b f <= zlen (userbuf c1) -> writes op1 warm1 ->
  FLAGS_logspace f <= FLAGS_keyspace f ->
  let t := get_data_thread_id_by_load c1 (coro x1) in
  KvServer.log_ok f (Cable.nkv (data w t)) -> (t + 1) * FLAGS_keyspace f <= 2 ^ 32 ->
  exists y1 p1 warm1' a1 w', index_start c1 x1 op1 warm1 (cbuf 2) = Done (y1, p1, warm1') /\
    drive_index 2 c1 w y1 p1 = Done (IFinished a1 false true None, w') /\
    forall c2 x2 op2 warm2, cflags c2 = f -> long_key x2 = long_key x1 -> reads op2 warm2 ->
    exists y2 p2 warm2' a2 w'', index_start c2 x2 op2 warm2 (cbuf 2) = Done (y2, p2, warm2') /\
      drive_index 2 c2 w' y2 p2 = Done (IFinished a2 false true (Some (take (Z.to_nat (FLAGS_kv_size_b f)) (userbuf c1))), w'').
Proof.
  intros Hf Hk Hv Hw Hsp t O Ht.
  assert (Ht8 : 0 <= t < 2 ^ 8) by (unfold t, get_data_thread_id_by_load, by_load; apply wrap_range; lia).
  pose proof (KvServer.ok_pos _ _ O) as Hp. set (q := KvServer.pos (Cable.nkv (data w t))) in *.
  destruct (logid_decode f q t) as (Hl & Htid & Hloc); [lia..|].
  destruct (index_write c1 w x1 op1 warm1 Hf Hk Hv Hw O) as (y1 & p1 & w1 & a1 & w' & E1 & D1 & Hpl & Hidx).
  eexists y1, p1, w1, a1, w'. do 2 (split; [done|]). intros c2 x2 op2 warm2 Hf2 Hk2 Hr.
  apply (index_read c2 w' x2 op2 warm2 (compute_log_id f q t)); rewrite ?Hk2; try done.
  rewrite Htid, Hloc, (wrap_small 8) by done. exact Hpl.
Qed.
End exchange.

(** ** A run *)
Definition sample_flags : flags := mkFlags 8 8 4 false false 4 50 1 1 1 1.
Definition sample_buffer : RawKvMsg :=
  mkMsg (mkHeader 0 0 0 0 0 0 0) 0 0 0 0 0 0 0 0 0 0 0 0 0 0 0 0 0 (replicate 12 0).
Definition sample_client : client := mkClient sample_flags 2 3 [1; 2; 3; 4].
(** A coroutine that last read log id 77. *)
Definition sample_ctx : KvCtx := mkCtx 0 kEnumR 0 0 0 0 0 1234567 77 false true.
Definition sample_node : Cable.node (gmap Z Z) := Cable.mkNode (KvServer.init sample_flags) ∅.
Definition sample_world : world (I := gmap Z Z) := mkWorld (fun _ => sample_node) sample_node.

Notation sample_test k := (drive_test sample_flags (fun _ => sample_buffer) (fun _ => sample_buffer) (fun _ => replicate 12 0) k sample_client).
Notation sample_index k := (drive_index sample_flags (fun _ => sample_buffer) (fun _ => sample_buffer) (fun _ => replicate 12 0) k sample_client).

Lemma cable_write_unindexed_witness :
  exists p warm' x' a w', kv_test_start sample_client sample_ctx kEnumW 0 sample_buffer = Done (p, warm') /\
    sample_test 2 sample_world p = Done (Finished x' a, w') /\
    placed sample_flags sample_world w' 3 (row sample_flags 1234567 [1; 2; 3; 4]) /\
    mt_search (Cable.nindex (idx w')) 1234567 = Some 77.
Proof.
  apply (cable_write_unindexed sample_flags 12) with (w := sample_world) (x := sample_ctx) (c := sample_client)
    (cbuf := fun _ => sample_buffer); done.
Defined.

Lemma cable_index_roundtrip_witness :
  exists y p warm a w', index_start sample_client sample_ctx 50 kInitInsert sample_buffer = Done (y, p, warm) /\
    sample_index 2 sample_world y p = Done (IFinished a false true None, w') /\
    exists y2 p2 warm2 a2 w'', index_start sample_client sample_ctx 0 kInitInsert sample_buffer = Done (y2, p2, warm2) /\
      sample_index 2 w' y2 p2 = Done (IFinished a2 false true (Some [1; 2; 3; 4]), w'').
Proof.
  destruct (cable_index_roundtrip sample_flags 12) with (w := sample_world) (x1 := sample_ctx) (c1 := sample_client)
    (op1 := 50) (warm1 := kInitInsert) (cbuf := fun _ : nat => sample_buffer) (nbuf := fun _ : nat => sample_buffer)
    (stale := fun _ : nat => replicate 12 0) as (y & p & warm & a & w' & E & D & HR); try done; [by right|].
  exists y, p, warm, a, w'. do 2 (split; [done|]). apply HR; done.
Defined.
End CableClient.
