(* ===== verification/Sha256Model.v ===== *)
(** * SHA-256

    Module [Sha256]: apps/fs/src/sha256.cc, which hashtable.cc used before it went
    over to Crypto++.  The reference is the algorithm of FIPS 180-4: a message is
    padded, cut into blocks of 64 bytes and folded with a compression function,
    which is written here with a window of sixteen words instead of an array. *)

From S2P Require Import Prelude.

Module Sha256.

(** ** The code *)
Definition ROTRIGHT (a b : Z) : Z := Z.lor (Z.shiftr a b) (wrap 32 (Z.shiftl a (32 - b))).
Definition not32 (x : Z) : Z := Z.lxor x (Z.ones 32).
Definition CH (x y z : Z) : Z := Z.lxor (Z.land x y) (Z.land (not32 x) z).
Definition MAJ (x y z : Z) : Z := Z.lxor (Z.lxor (Z.land x y) (Z.land x z)) (Z.land y z).
Definition EP0 (x : Z) : Z := Z.lxor (Z.lxor (ROTRIGHT x 2) (ROTRIGHT x 13)) (ROTRIGHT x 22).
Definition EP1 (x : Z) : Z := Z.lxor (Z.lxor (ROTRIGHT x 6) (ROTRIGHT x 11)) (ROTRIGHT x 25).
Definition SIG0 (x : Z) : Z := Z.lxor (Z.lxor (ROTRIGHT x 7) (ROTRIGHT x 18)) (Z.shiftr x 3).
Definition SIG1 (x : Z) : Z := Z.lxor (Z.lxor (ROTRIGHT x 17) (ROTRIGHT x 19)) (Z.shiftr x 10).

(** A row of the table is eight words. *)
Definition words (row : Z) : list Z :=
  map (fun i => wrap 32 (Z.shiftr row (32 * (7 - i)))) (seqZ 0 8).

Definition k : list Z := Eval vm_compute in concat (map words
  [0x428a2f9871374491b5c0fbcfe9b5dba53956c25b59f111f1923f82a4ab1c5ed5;
   0xd807aa9812835b01243185be550c7dc372be5d7480deb1fe9bdc06a7c19bf174;
   0xe49b69c1efbe47860fc19dc6240ca1cc2de92c6f4a7484aa5cb0a9dc76f988da;
   0x983e5152a831c66db00327c8bf597fc7c6e00bf3d5a7914706ca635114292967;
   0x27b70a852e1b21384d2c6dfc53380d13650a7354766a0abb81c2c92e92722c85;
   0xa2bfe8a1a81a664bc24b8b70c76c51a3d192e819d6990624f40e3585106aa070;
   0x19a4c1161e376c082748774c34b0bcb5391c0cb34ed8aa4a5b9cca4f682e6ff3;
   0x748f82ee78a5636f84c878148cc7020890befffaa4506cebbef9a3f7c67178f2]).

(** SHA256_CTX *)
Record SHA256_CTX := mkCtx {
  data : list Z;     (* BYTE[64] *)
  datalen : Z;       (* 32 bits *)
  bitlen : Z;        (* 64 bits *)
  state : list Z }.  (* WORD[8] *)

Fixpoint foldM {A B} (f : A -> B -> outcome A) (l : list B) (a : A) : outcome A :=
  match l with
  | [] => Done a
  | b :: l => let! a := f a b in foldM f l a
  end.

(** m[i] for i < 16, then for i < 64; m holds the entries written so far. *)
Definition read_word (d : list Z) (m : list Z) (i : Z) : outcome (list Z) :=
  let j := 4 * i in
  let! b0 := load d j in
  let! b1 := load d (j + 1) in
  let! b2 := load d (j + 2) in
  let! b3 := load d (j + 3) in
  Done (m ++ [Z.lor (Z.lor (Z.lor (wrap 32 (Z.shiftl b0 24)) (Z.shiftl b1 16)) (Z.shiftl b2 8)) b3]).

Definition extend (m : list Z) (i : Z) : outcome (list Z) :=
  let! x2 := load m (i - 2) in
  let! x7 := load m (i - 7) in
  let! x15 := load m (i - 15) in
  let! x16 := load m (i - 16) in
  Done (m ++ [wrap 32 (SIG1 x2 + x7 + SIG0 x15 + x16)]).

Record regs := mkRegs { ra : Z; rb : Z; rc : Z; rd : Z; re : Z; rf : Z; rg : Z; rh : Z }.

Definition round (r : regs) (ki mi : Z) : regs :=
  let t1 := wrap 32 (rh r + EP1 (re r) + CH (re r) (rf r) (rg r) + ki + mi) in
  let t2 := wrap 32 (EP0 (ra r) + MAJ (ra r) (rb r) (rc r)) in
  mkRegs (wrap 32 (t1 + t2)) (ra r) (rb r) (rc r) (wrap 32 (rd r + t1)) (re r) (rf r) (rg r).

Definition round_at (m : list Z) (r : regs) (i : Z) : outcome regs :=
  let! ki := load k i in
  let! mi := load m i in
  Done (round r ki mi).

Definition regs_of (s : list Z) : outcome regs :=
  match s with
  | [a; b; c; d; e; f; g; h] => Done (mkRegs a b c d e f g h)
  | _ => Fault OutOfBounds
  end.

Definition to_list (r : regs) : list Z := [ra r; rb r; rc r; rd r; re r; rf r; rg r; rh r].

Definition add_state (s : list Z) (r : regs) : list Z := zip_with (fun x y => wrap 32 (x + y)) s (to_list r).

Definition sha256_transform (ctx : SHA256_CTX) (d : list Z) : outcome SHA256_CTX :=
  let! m := foldM (read_word d) (seqZ 0 16) [] in
  let! m := foldM extend (seqZ 16 48) m in
  let! r := regs_of (state ctx) in
  let! r := foldM (round_at m) (seqZ 0 64) r in
  Done (mkCtx (data ctx) (datalen ctx) (bitlen ctx) (add_state (state ctx) r)).

Definition initial_state : list Z := Eval vm_compute in
  words 0x6a09e667bb67ae853c6ef372a54ff53a510e527f9b05688c1f83d9ab5be0cd19.

Definition sha256_init (ctx : SHA256_CTX) : SHA256_CTX := mkCtx (data ctx) 0 0 initial_state.

(** One round of the loop of sha256_update. *)
Definition update_byte (ctx : SHA256_CTX) (b : Z) : outcome SHA256_CTX :=
  let! d := store (data ctx) (datalen ctx) b in
  let ctx := mkCtx d (wrap 32 (datalen ctx + 1)) (bitlen ctx) (state ctx) in
  if datalen ctx =? 64 then
    let! ctx := sha256_transform ctx (data ctx) in
    Done (mkCtx (data ctx) 0 (wrap 64 (bitlen ctx + 512)) (state ctx))
  else Done ctx.

(** The index is a WORD, the length a size_t. *)
Fixpoint update_loop (fuel : nat) (ctx : SHA256_CTX) (d : list Z) (len i : Z) : outcome SHA256_CTX :=
  match fuel with
  | O => Fault Diverges
  | S fuel =>
      if i <? len then
        let! b := load d i in
        let! ctx := update_byte ctx b in
        update_loop fuel ctx d len (wrap 32 (i + 1))
      else Done ctx
  end.

Definition sha256_update (fuel : nat) (ctx : SHA256_CTX) (d : list Z) (len : Z) : outcome SHA256_CTX :=
  update_loop fuel ctx d len 0.

(** while (i < n) ctx->data[i++] = 0x00 *)
Fixpoint zero_until (fuel : nat) (d : list Z) (i n : Z) : outcome (list Z) :=
  match fuel with
  | O => Fault Diverges
  | S fuel =>
      if i <? n then let! d := store d i 0 in zero_until fuel d (i + 1) n
      else Done d
  end.

Definition with_data (ctx : SHA256_CTX) (d : list Z) : SHA256_CTX := mkCtx d (datalen ctx) (bitlen ctx) (state ctx).

Definition pad_data (ctx : SHA256_CTX) : outcome SHA256_CTX :=
  let i := datalen ctx in
  let! d := store (data ctx) i 128 in
  if i <? 56 then
    let! d := zero_until 65 d (i + 1) 56 in
    Done (with_data ctx d)
  else
    let! d := zero_until 65 d (i + 1) 64 in
    let! ctx := sha256_transform (with_data ctx d) d in
    Done (with_data ctx (blit (data ctx) 0 (replicate 56 0))).

Definition put_length (d : list Z) (n : Z) : outcome (list Z) :=
  foldM (fun d i => store d (63 - i) (wrap 8 (Z.shiftr n (8 * i)))) (seqZ 0 8) d.

Definition output (s : list Z) : list Z :=
  concat (map (fun x => map (fun i => Z.land (Z.shiftr x (24 - i * 8)) 255) (seqZ 0 4)) s).

Definition sha256_final (ctx : SHA256_CTX) : outcome (list Z) :=
  let! ctx := pad_data ctx in
  let n := wrap 64 (bitlen ctx + wrap 32 (datalen ctx * 8)) in
  let! d := put_length (data ctx) n in
  let! ctx := sha256_transform (with_data ctx d) d in
  Done (output (state ctx)).

(** A digest the way a caller takes it: the message comes in pieces. *)
Definition hash_pieces (fuel : nat) (ctx : SHA256_CTX) (pieces : list (list Z)) : outcome (list Z) :=
  let! ctx := foldM (fun c d => sha256_update fuel c d (zlen d)) pieces (sha256_init ctx) in
  sha256_final ctx.

(** ** The reference *)
Definition be_word (b : list Z) : Z :=
  match b with
  | [b0; b1; b2; b3] => Z.lor (Z.lor (Z.lor (wrap 32 (Z.shiftl b0 24)) (Z.shiftl b1 16)) (Z.shiftl b2 8)) b3
  | _ => 0
  end.

Fixpoint chunks (size n : nat) (l : list Z) : list (list Z) :=
  match n with
  | O => []
  | S n => take size l :: chunks size n (drop size l)
  end.

(** The next word of the schedule from the last sixteen. *)
Definition next_word (w : list Z) : Z :=
  match w with
  | [w0; w1; _; _; _; _; _; _; _; w9; _; _; _; _; w14; _] => wrap 32 (SIG1 w14 + w9 + SIG0 w1 + w0)
  | _ => 0
  end.

Fixpoint rounds (ks w : list Z) (r : regs) : regs :=
  match ks with
  | [] => r
  | ki :: ks => rounds ks (tail w ++ [next_word w]) (round r ki (nth 0 w 0))
  end.

Definition compress (s block : list Z) : list Z :=
  match s with
  | [a; b; c; d; e; f; g; h] =>
      add_state s (rounds k (map be_word (chunks 4 16 block)) (mkRegs a b c d e f g h))
  | _ => s
  end.

Definition be64 (n : Z) : list Z := map (fun i => wrap 8 (Z.shiftr n (8 * (7 - i)))) (seqZ 0 8).

Definition pad (m : list Z) : list Z :=
  m ++ [128] ++ replicate (Z.to_nat ((55 - zlen m) mod 64)) 0 ++ be64 (8 * zlen m).

Definition digest (m : list Z) : list Z :=
  let p := pad m in
  output (fold_left compress (chunks 64 (length p / 64) p) initial_state).

Example digest_abc : digest [97; 98; 99] =
  concat (map (be64) [0xba7816bf8f01cfea; 0x414140de5dae2223; 0xb00361a396177a9c; 0xb410ff61f20015ad]).
Proof. vm_compute. reflexivity. Qed.

Example digest_empty : digest [] =
  concat (map (be64) [0xe3b0c44298fc1c14; 0x9afbf4c8996fb924; 0x27ae41e4649b934c; 0xa495991b7852b855]).
Proof. vm_compute. reflexivity. Qed.

(** The constants are what FIPS 180-4 says: the first 32 bits of the fractional parts of
    the cube roots of the first 64 primes, and of the square roots of the first eight. *)
Definition is_prime (n : Z) : bool := (1 <? n) && forallb (fun d => negb (n mod d =? 0)) (seqZ 2 (n - 2)).
Definition primes : list Z := List.filter is_prime (seqZ 0 312).
Definition root_bits (e x p : Z) : bool :=
  existsb (fun c => ((c * 2 ^ 32 + x) ^ e <=? p * 2 ^ (32 * e)) && (p * 2 ^ (32 * e) <? (c * 2 ^ 32 + x + 1) ^ e)) (seqZ 0 18).

Lemma k_cube_roots : length primes = 64%nat /\ forallb id (zip_with (root_bits 3) k primes) = true /\
  forallb id (zip_with (root_bits 2) initial_state (take 8 primes)) = true.
Proof. vm_compute. auto. Qed.

(** ** Words *)
Lemma rotright_bits x n i : in_width 32 x -> 0 <= n < 32 -> 0 <= i < 32 ->
  Z.testbit (ROTRIGHT x n) i = Z.testbit x ((i + n) mod 32).
Proof.
  intros Hx Hn Hi. unfold ROTRIGHT, wrap. rewrite Z.lor_spec, Z.shiftr_spec, Z.mod_pow2_bits_low by lia.
  rewrite Z.shiftl_spec by lia. destruct (decide (i + n < 32)).
  - rewrite (Z.mod_small (i + n)), (Z.testbit_neg_r x (i - _)) by lia. by rewrite orb_false_r.
  - rewrite (testbit_in_width 32 x (i + n)) by (done || lia). simpl. f_equal. lia.
Qed.

(** ** Loops *)
Lemma foldM_app {A B} (f : A -> B -> outcome A) l1 l2 a :
  foldM f (l1 ++ l2) a = let! a := foldM f l1 a in foldM f l2 a.
Proof. revert a. induction l1 as [|b l1 IH]; intros a; simpl; [done|]. destruct (f a b); simpl; auto. Qed.

Lemma load_app_r {A} (l l' : list A) i x : zget l' i = Some x -> load (l ++ l') (zlen l + i) = Done x.
Proof.
  intros E. pose proof (zget_Some_range _ _ _ E). apply load_in_range. revert E. unfold zget, zlen in *.
  rewrite !decide_True by lia. intros E. rewrite lookup_app_r by lia. rewrite <- E. f_equal. lia.
Qed.

Lemma list_of_nth (l : list Z) n : length l = n -> l = map (fun i => nth i l 0) (seq 0 n).
Proof.
  intros <-. induction l as [|x l IH]; [done|]. simpl. f_equal. rewrite <- seq_shift, map_map. apply IH.
Qed.

Lemma read_words_done d : length d = 64%nat ->
  foldM (read_word d) (seqZ 0 16) [] = Done (map be_word (chunks 4 16 d)).
Proof. intros E. rewrite (list_of_nth d 64 E). generalize (fun i => nth i d 0). intros g. reflexivity. Qed.

(** *** The schedule *)
Fixpoint sched (n : nat) (m : list Z) : list Z :=
  match n with
  | O => m
  | S n => sched n (m ++ [next_word (drop (length m - 16) m)])
  end.

Lemma extend_done m : (16 <= length m)%nat -> extend m (zlen m) = Done (m ++ [next_word (drop (length m - 16) m)]).
Proof.
  intros Hm. rewrite <- (take_drop (length m - 16) m) at 1 2 3. 
  set (p := take (length m - 16) m). pose proof (length_drop m (length m - 16)) as E.
  rewrite (list_of_nth (drop _ m) 16) by lia. generalize (fun i => nth i (drop (length m - 16) m) 0). intros g.
  unfold extend. 
  assert (Hz : zlen (p ++ map g (seq 0 16)) = zlen p + 16).
  { unfold zlen. rewrite length_app. simpl length. lia. }
  rewrite Hz. replace (zlen p + 16 - 2) with (zlen p + 14) by lia. replace (zlen p + 16 - 7) with (zlen p + 9) by lia.
  replace (zlen p + 16 - 15) with (zlen p + 1) by lia. replace (zlen p + 16 - 16) with (zlen p + 0) by lia.
  rewrite (load_app_r _ _ 14 (g 14%nat)), (load_app_r _ _ 9 (g 9%nat)), (load_app_r _ _ 1 (g 1%nat)),
    (load_app_r _ _ 0 (g 0%nat)) by done.
  reflexivity.
Qed.

Lemma extends_done n m i c : (16 <= length m)%nat -> i = zlen m -> c = Z.of_nat n ->
  foldM extend (seqZ i c) m = Done (sched n m).
Proof.
  intros Hm -> ->. revert m Hm. induction n as [|n IH]; intros m Hm; [done|].
  rewrite seqZ_cons by lia. simpl foldM. rewrite extend_done by done. cbn [obind sched].
  rewrite <- IH by (rewrite length_app; lia). f_equal. f_equal; [|lia]. unfold zlen. rewrite length_app. cbn. lia.
Qed.

Lemma sched_prefix n m : m `prefix_of` sched n m.
Proof. revert m. induction n as [|n IH]; intros m; [done|]. cbn [sched]. etrans; [|apply IH]. by eexists. Qed.

Lemma sched_add n1 n2 m : sched (n1 + n2) m = sched n2 (sched n1 m).
Proof. revert m. induction n1 as [|n1 IH]; intros m; [done|apply IH]. Qed.

Lemma sched_length n m : length (sched n m) = (length m + n)%nat.
Proof. revert m. induction n as [|n IH]; intros m; [cbn; lia|]. cbn [sched]. rewrite IH, length_app. simpl. lia. Qed.

Lemma sched_lookup n m i : (16 <= length m)%nat -> (i < n)%nat ->
  sched n m !! (length m + i)%nat = Some (next_word (take 16 (drop (length m + i - 16) (sched n m)))).
Proof.
  revert m i. induction n as [|n IH]; intros m i Hm Hi; [lia|]. cbn [sched]. set (x := next_word _). destruct i as [|i].
  - destruct (sched_prefix n (m ++ [x])) as [t ->]. rewrite Nat.add_0_r.
    replace ((m ++ [x]) ++ t) with (m ++ x :: t) by (by rewrite <- app_assoc). rewrite list_lookup_middle by done. 
    rewrite drop_app_le, take_app_le, take_ge by (rewrite ?length_drop; lia). done.
  - specialize (IH (m ++ [x]) i). rewrite length_app in IH. simpl in IH.
    replace (length m + 1 + i)%nat with (length m + S i)%nat in IH by lia. apply IH; lia.
Qed.

Definition window (i : nat) (m : list Z) : list Z := take 16 (drop i m).

Lemma window_next n m i : length m = 16%nat -> (i < n)%nat ->
  tail (window i (sched n m)) ++ [next_word (window i (sched n m))] = window (S i) (sched n m).
Proof.
  intros Hm Hi. unfold window. pose proof (sched_lookup n m i ltac:(lia) Hi) as E. rewrite Hm in E.
  replace (16 + i - 16)%nat with i in E by lia.
  pose proof (sched_length n m) as L. destruct (lookup_lt_is_Some_2 (sched n m) i) as [x Hx]; [lia|].
  rewrite (drop_S _ _ _ Hx) at 1. simpl. symmetry.
  erewrite (take_S_r _ 15); [done|]. rewrite lookup_drop. by replace (S i + 15)%nat with (16 + i)%nat by lia.
Qed.

Lemma rounds_done n i m r z c : length m = 16%nat -> (i + n <= 64)%nat -> z = Z.of_nat i -> c = Z.of_nat n ->
  foldM (round_at (sched 48 m)) (seqZ z c) r =
  Done (rounds (take n (drop i k)) (window i (sched 64 m)) r).
Proof.
  intros Hm Hn -> ->. revert Hn. pose proof (sched_length 48 m) as HM. pose proof (fun i => window_next 64 m i Hm) as HW.
  assert (HS : sched 64 m = sched 16 (sched 48 m)) by apply (sched_add 48 16).
  rewrite HS in HW |- *. destruct (sched_prefix 16 (sched 48 m)) as [t Ht]. rewrite Ht in HW |- *. clear HS Ht.
  revert HM HW. generalize (sched 48 m). intros M HM HW. revert i r. induction n as [|n IH]; intros i r Hn; [done|].
  rewrite seqZ_cons by lia. cbn [foldM]. unfold round_at at 1.
  destruct (lookup_lt_is_Some_2 k i) as [ki Hk]; [cbn; lia|].
  destruct (lookup_lt_is_Some_2 M i) as [mi Hmi]; [lia|].
  assert (Hz : forall l (x : Z), l !! i = Some x -> load l (Z.of_nat i) = Done x).
  { intros l x Hl. apply load_in_range. unfold zget. rewrite decide_True, Nat2Z.id by lia. done. }
  rewrite (Hz _ _ Hk), (Hz _ _ Hmi), (drop_S _ _ _ Hk). cbn [obind firstn rounds]. rewrite HW by lia.
  replace (nth 0 (window i (M ++ t)) 0) with mi.
  - rewrite <- IH by lia. f_equal. f_equal; lia.
  - unfold window. by rewrite (drop_S (M ++ t) mi) by by apply lookup_app_l_Some.
Qed.

Lemma transform_done ctx d : length (state ctx) = 8%nat -> length d = 64%nat ->
  sha256_transform ctx d = Done (mkCtx (data ctx) (datalen ctx) (bitlen ctx) (compress (state ctx) d)).
Proof.
  intros Hs Hd. unfold sha256_transform. rewrite read_words_done by done. rewrite obind_done.
  assert (Hm : length (map be_word (chunks 4 16 d)) = 16%nat) by reflexivity.
  destruct (state ctx) as [|a [|b [|c [|e [|f [|g [|h [|i [|]]]]]]]]]; try discriminate. unfold compress.
  revert Hm. generalize (map be_word (chunks 4 16 d)). intros m Hm.
  rewrite (extends_done 48) by (unfold zlen; lia). rewrite obind_done.
  change (regs_of _) with (Done (mkRegs a b c e f g h i)). rewrite obind_done.
  rewrite (rounds_done 64 0) by (done || lia). rewrite obind_done.
  replace (take 64 (drop 0 k)) with k by reflexivity.
  replace (window 0 (sched 64 m)) with m; [done|].
  unfold window. destruct (sched_prefix 64 m) as [t ->]. rewrite drop_0, take_app_le, take_ge by lia. done.
Qed.

(** ** The context after a message *)
Lemma chunks_app n1 n2 l1 l2 : length l1 = (64 * n1)%nat ->
  chunks 64 (n1 + n2) (l1 ++ l2) = chunks 64 n1 l1 ++ chunks 64 n2 l2.
Proof.
  revert l1. induction n1 as [|n1 IH]; intros l1 E.
  - destruct l1; [done|discriminate].
  - cbn [chunks Nat.add app]. rewrite take_app_le, drop_app_le by lia. f_equal. apply IH. rewrite length_drop. lia.
Qed.

Lemma compress_length s b : length s = 8%nat -> length (compress s b) = 8%nat.
Proof.
  intros E. destruct s as [|x0 [|x1 [|x2 [|x3 [|x4 [|x5 [|x6 [|x7 [|]]]]]]]]]; try discriminate.
  unfold compress, add_state. by rewrite length_zip_with.
Qed.

Lemma compress_all_length bs s : length s = 8%nat -> length (fold_left compress bs s) = 8%nat.
Proof. revert s. induction bs as [|b bs IH]; intros s E; [done|]. apply IH. by apply compress_length. Qed.

(** The state after the first n blocks of m. *)
Definition hashed (n : nat) (m : list Z) : list Z := fold_left compress (chunks 64 n m) initial_state.

Lemma hashed_length n m : length (hashed n m) = 8%nat.
Proof. by apply compress_all_length. Qed.

Lemma hashed_app n1 n2 l1 l2 : length l1 = (64 * n1)%nat ->
  hashed (n1 + n2) (l1 ++ l2) = fold_left compress (chunks 64 n2 l2) (hashed n1 l1).
Proof. intros E. unfold hashed. by rewrite chunks_app, fold_left_app. Qed.

Lemma hashed_prefix n m x : (64 * n <= length m)%nat -> hashed n (m ++ x) = hashed n (take (64 * n) m).
Proof.
  intros E. rewrite <- (take_drop (64 * n) m) at 1. rewrite <- app_assoc.
  pose proof (hashed_app n 0 (take (64 * n) m) (drop (64 * n) m ++ x)) as H. rewrite Nat.add_0_r in H. apply H.
  rewrite length_take. lia.
Qed.

Lemma hashed_take n m : (64 * n <= length m)%nat -> hashed n m = hashed n (take (64 * n) m).
Proof. intros E. rewrite <- (app_nil_r m) at 1. by apply hashed_prefix. Qed.

(** [blk] whole blocks of [m] are in the state, and the rest is in the buffer. *)
Record repr (ctx : SHA256_CTX) (m : list Z) (blk : nat) : Prop := {
  repr_len : length m = (64 * blk + Z.to_nat (datalen ctx))%nat;
  repr_datalen : 0 <= datalen ctx < 64;
  repr_data : length (data ctx) = 64%nat;
  repr_tail : take (Z.to_nat (datalen ctx)) (data ctx) = drop (64 * blk) m;
  repr_state : state ctx = hashed blk (take (64 * blk) m);
  repr_bits : bitlen ctx = wrap 64 (512 * Z.of_nat blk) }.

Lemma repr_init ctx : length (data ctx) = 64%nat -> repr (sha256_init ctx) [] 0.
Proof. split; done. Qed.

Lemma update_byte_repr ctx m blk b : repr ctx m blk ->
  exists ctx' blk', update_byte ctx b = Done ctx' /\ repr ctx' (m ++ [b]) blk'.
Proof.
  intros [Hl Hd Hn Ht Hs Hb]. unfold update_byte. rewrite store_in_range by (unfold zlen; lia). rewrite obind_done.
  cbn [datalen data bitlen state]. rewrite (wrap_small 32) by (unfold in_width; lia).
  assert (E : take (S (Z.to_nat (datalen ctx))) (zset (data ctx) (datalen ctx) b) = drop (64 * blk) m ++ [b]).
  { rewrite <- Ht. pose proof (take_zset_snoc (data ctx) (datalen ctx) b ltac:(unfold zlen; lia)) as T.
    rewrite <- T. f_equal. lia. }
  assert (Hz : length (zset (data ctx) (datalen ctx) b) = 64%nat).
  { pose proof (zlen_zset (data ctx) (datalen ctx) b) as Z1. unfold zlen in Z1. lia. }
  destruct (Z.eqb_spec (datalen ctx + 1) 64) as [Hf|Hf].
  - rewrite transform_done by (cbn; rewrite ?Hs, ?hashed_length; done). rewrite obind_done.
    eexists _, (S blk). split; [done|]. cbn [data datalen bitlen state].
    rewrite take_ge in E by lia.
    assert (Hm : take (64 * S blk) (m ++ [b]) = m ++ [b]) by (apply take_ge; rewrite length_app; cbn; lia).
    split; cbn [datalen data state bitlen].
    + rewrite length_app. cbn. lia.
    + lia.
    + done.
    + rewrite take_0, drop_ge; [done|]. rewrite length_app. cbn. lia.
    + rewrite Hm, E, Hs. rewrite <- (take_drop (64 * blk) m) at 3. rewrite <- app_assoc.
      replace (S blk) with (blk + 1)%nat by lia. rewrite hashed_app by (rewrite length_take; lia).
      cbn [chunks fold_left]. rewrite (take_ge (drop (64 * blk) m ++ [b])); [done|]. rewrite length_app, length_drop. cbn. lia.
    + rewrite Hb. unfold wrap. rewrite Z.add_mod_idemp_l by done. f_equal. lia.
  - eexists _, blk. split; [done|]. split; cbn [datalen data state bitlen].
    + rewrite length_app. cbn. lia.
    + lia.
    + done.
    + replace (Z.to_nat (datalen ctx + 1)) with (S (Z.to_nat (datalen ctx))) by lia.
      rewrite E, drop_app_le by lia. done.
    + rewrite Hs, take_app_le by lia. done.
    + done.
Qed.

Lemma update_loop_repr n ctx d i m blk : repr ctx m blk -> zlen d < 2 ^ 32 -> 0 <= i -> zlen d - i <= Z.of_nat n ->
  exists ctx' blk', update_loop (S n) ctx d (zlen d) i = Done ctx' /\ repr ctx' (m ++ drop (Z.to_nat i) d) blk'.
Proof.
  intros R Hd. revert ctx i m blk R. induction n as [|n IH]; intros ctx i m blk R Hi Hn.
  - cbn [update_loop]. rewrite (proj2 (Z.ltb_ge _ _)) by lia. eexists _, _. split; [done|].
    rewrite (drop_ge d) by (unfold zlen in *; lia). by rewrite app_nil_r.
  - cbn [update_loop]. destruct (Z.ltb_spec i (zlen d)) as [Hlt|Hge].
    + destruct (zget_is_Some d i ltac:(lia)) as [b Eb]. rewrite (load_in_range _ _ _ Eb), obind_done.
      destruct (update_byte_repr ctx m blk b R) as (c1 & blk1 & -> & R1). rewrite obind_done.
      rewrite (wrap_small 32) by (unfold in_width; lia).
      destruct (IH c1 (i + 1) (m ++ [b]) blk1 R1 ltac:(lia) ltac:(lia)) as (c2 & blk2 & E2 & R2).
      exists c2, blk2. split; [exact E2|].
      replace (m ++ drop (Z.to_nat i) d) with ((m ++ [b]) ++ drop (Z.to_nat (i + 1)) d); [done|].
      rewrite <- app_assoc. f_equal. unfold zget in Eb. rewrite decide_True in Eb by lia.
      rewrite (drop_S _ _ _ Eb). cbn [app]. f_equal. f_equal. lia.
    + eexists _, _. split; [done|]. rewrite drop_ge, app_nil_r by (unfold zlen in *; lia). done.
Qed.
(** ** Padding *)
Lemma zero_until_done n d i j : 0 <= i <= j -> j <= zlen d -> j - i < Z.of_nat n ->
  exists d', zero_until n d i j = Done d' /\ zlen d' = zlen d /\
    take (Z.to_nat j) d' = take (Z.to_nat i) d ++ replicate (Z.to_nat (j - i)) 0.
Proof.
  revert d i. induction n as [|n IH]; intros d i Hi Hj Hn; [lia|]. cbn [zero_until].
  destruct (Z.ltb_spec i j) as [Hlt|Hge].
  - rewrite store_in_range, obind_done by lia.
    destruct (IH (zset d i 0) (i + 1)) as (d' & -> & L & T); rewrite ?zlen_zset; try lia.
    exists d'. rewrite zlen_zset in L. do 2 (split; [done|]). rewrite T, take_zset_snoc by lia.
    replace (Z.to_nat (j - i)) with (S (Z.to_nat (j - (i + 1)))) by lia. by rewrite <- app_assoc.
  - exists d. do 2 (split; [done|]). replace j with i by lia. rewrite Z.sub_diag. symmetry. apply app_nil_r.
Qed.

Lemma put_length_done d n : length d = 64%nat -> put_length d n = Done (take 56 d ++ be64 n).
Proof. intros E. rewrite (list_of_nth d 64 E). generalize (fun i => nth i d 0). intros g. vm_compute. reflexivity. Qed.

Lemma byte_of_wrap x j : 0 <= j <= 56 -> wrap 8 (Z.shiftr (wrap 64 x) j) = wrap 8 (Z.shiftr x j).
Proof.
  intros Hj. apply Z.bits_inj'. intros i Hi. unfold wrap. destruct (Z.lt_ge_cases i 8).
  - rewrite !Z.mod_pow2_bits_low, !Z.shiftr_spec, Z.mod_pow2_bits_low by lia. done.
  - by rewrite !Z.mod_pow2_bits_high by lia.
Qed.

Lemma be64_wrap x : be64 (wrap 64 x) = be64 x.
Proof. unfold be64. cbn [seqZ map fmap list_fmap seq Z.to_nat Pos.to_nat]. apply map_ext_in. intros i Hi%list_elem_of_In%elem_of_seqZ. apply byte_of_wrap. lia. Qed.

(** The buffer filled up with the mark and zeros. *)
Lemma mark_done ctx m blk j : repr ctx m blk -> datalen ctx < j <= 64 ->
  exists d, zlen d = 64 /\ take (Z.to_nat j) d = drop (64 * blk) m ++ 128 :: replicate (Z.to_nat (j - datalen ctx - 1)) 0 /\
    (let! d := store (data ctx) (datalen ctx) 128 in zero_until 65 d (datalen ctx + 1) j) = Done d.
Proof.
  intros [Hl Hd Hn Ht Hs Hb] Hj. rewrite store_in_range by (unfold zlen; lia). rewrite obind_done.
  destruct (zero_until_done 65 (zset (data ctx) (datalen ctx) 128) (datalen ctx + 1) j) as (d & -> & L & T);
    rewrite ?zlen_zset; [lia|unfold zlen; lia|lia|].
  exists d. split; [rewrite L, zlen_zset; unfold zlen; lia|]. split; [|done].
  rewrite T, take_zset_snoc, Ht by (unfold zlen; lia). rewrite <- app_assoc. cbn [app].
  by replace (j - (datalen ctx + 1)) with (j - datalen ctx - 1) by lia.
Qed.

Lemma bit_count ctx m blk : repr ctx m blk ->
  be64 (wrap 64 (bitlen ctx + wrap 32 (datalen ctx * 8))) = be64 (8 * zlen m).
Proof.
  intros [Hl Hd Hn Ht Hs Hb]. rewrite (wrap_small 32) by (unfold in_width; lia). rewrite Hb. unfold zlen.
  rewrite <- (be64_wrap (8 * _)). f_equal. unfold wrap. rewrite Z.add_mod_idemp_l by done. f_equal. lia.
Qed.

Lemma be64_length n : length (be64 n) = 8%nat.
Proof. reflexivity. Qed.

(** The last block of a message that is padded to [n] whole blocks and [m']. *)
Lemma last_block ctx (n : nat) l m x : length (data ctx) = 64%nat -> length l = (64 * n)%nat -> state ctx = hashed n l ->
  be64 x = be64 (8 * zlen m) -> pad m = l ++ take 56 (data ctx) ++ be64 (8 * zlen m) ->
  (let! d := put_length (data ctx) x in
   let! ctx := sha256_transform (with_data ctx d) d in Done (output (state ctx))) = Done (digest m).
Proof.
  intros Hd Hl Hs B P. rewrite put_length_done, obind_done, B by done.
  assert (L : length (take 56 (data ctx) ++ be64 (8 * zlen m)) = 64%nat).
  { rewrite length_app, length_take, be64_length. lia. }
  rewrite transform_done by (done || (cbn; rewrite Hs; apply hashed_length)). rewrite obind_done. cbn [state with_data].
  unfold digest. cbv zeta. do 2 f_equal.
  assert (LP : (length (pad m) / 64)%nat = (n + 1)%nat).
  { rewrite P, length_app, L, Hl. replace (64 * n + 64)%nat with ((n + 1) * 64)%nat by lia. apply Nat.div_mul. lia. }
  rewrite LP, P. fold (hashed (n + 1) (l ++ take 56 (data ctx) ++ be64 (8 * zlen m))).
  rewrite hashed_app, Hs by done. cbn [chunks fold_left]. by rewrite (take_ge (take 56 (data ctx) ++ _)) by lia.
Qed.

Lemma sha256_final_done ctx m blk : repr ctx m blk -> sha256_final ctx = Done (digest m).
Proof.
  intros R. pose proof (bit_count ctx m blk R) as B. unfold sha256_final, pad_data.
  assert (Hz : zlen m mod 64 = datalen ctx) by (destruct R; unfold zlen; lia).
  destruct (Z.ltb_spec (datalen ctx) 56) as [Hr|Hr].
  - destruct (mark_done ctx m blk 56 R ltac:(lia)) as (d & Ld & Td & Ed). destruct R as [Hl Hd Hn Ht Hs Hb].
    destruct (store (data ctx) (datalen ctx) 128) as [d0|]; [|discriminate]. cbn [obind] in Ed.
    rewrite obind_done, Ed, !obind_done. change (Z.to_nat 56) with 56%nat in Td.
    apply (last_block (with_data ctx d) blk (take (64 * blk) m)); cbn [data state with_data]; try done.
    + unfold zlen in Ld. lia.
    + rewrite length_take. lia.
    + rewrite Td. unfold pad. rewrite <- (take_drop (64 * blk) m) at 1. rewrite <- !app_assoc. cbn [app].
      replace ((55 - zlen m) mod 64) with (56 - datalen ctx - 1) by lia. done.
  - destruct (mark_done ctx m blk 64 R ltac:(destruct R; lia)) as (d & Ld & Td & Ed). destruct R as [Hl Hd Hn Ht Hs Hb].
    destruct (store (data ctx) (datalen ctx) 128) as [d0|]; [|discriminate]. cbn [obind] in Ed.
    assert (L64 : length d = 64%nat) by (unfold zlen in Ld; lia).
    change (Z.to_nat 64) with 64%nat in Td. rewrite take_ge in Td by lia.
    rewrite obind_done, Ed, obind_done, transform_done by (done || (cbn; rewrite Hs; apply hashed_length)).
    rewrite !obind_done. cbn [data datalen bitlen state with_data].
    assert (LB : length (blit d 0 (replicate 56 0)) = 64%nat) by (rewrite blit_length; [done|rewrite length_replicate; lia]).
    assert (H56 : take 56 (blit d 0 (replicate 56 0)) = replicate 56 0) by (apply take_blit; by rewrite length_replicate).
    assert (Hbl : length (take (64 * blk) m) = (64 * blk)%nat) by (rewrite length_take; lia).
    revert LB H56. generalize (blit d 0 (replicate 56 0)). intros e LB H56.
    apply (last_block (mkCtx e (datalen ctx) (bitlen ctx) (compress (state ctx) d)) (blk + 1) (take (64 * blk) m ++ d));
      cbn [data state]; try done.
    + rewrite length_app, Hbl. lia.
    + rewrite hashed_app, Hs by done. cbn [chunks fold_left]. by rewrite (take_ge d) by lia.
    + rewrite H56, Td. unfold pad. rewrite <- (take_drop (64 * blk) m) at 1. rewrite <- !app_assoc. cbn [app].
      do 3 f_equal. rewrite app_assoc, <- replicate_add. do 2 f_equal. lia.
Qed.

(** A context can be fed a message in any pieces. *)
Lemma pieces_repr fuel ps ctx m blk : repr ctx m blk -> Forall (fun p => zlen p < 2 ^ 32 /\ zlen p < Z.of_nat fuel) ps ->
  exists ctx' blk', foldM (fun c d => sha256_update fuel c d (zlen d)) ps ctx = Done ctx' /\ repr ctx' (m ++ concat ps) blk'.
Proof.
  intros R H. revert ctx m blk R. induction H as [|p ps [Hp Hf] _ IH]; intros ctx m blk R.
  - eexists _, _. split; [done|]. cbn. by rewrite app_nil_r.
  - cbn [foldM concat]. destruct fuel as [|n]; [pose proof (zlen_nonneg p); lia|]. unfold sha256_update at 1.
    destruct (update_loop_repr n ctx p 0 m blk R Hp ltac:(lia) ltac:(lia)) as (c1 & blk1 & -> & R1). rewrite obind_done.
    cbn [drop Z.to_nat] in R1. rewrite app_assoc. by eapply IH.
Qed.

(** C22. sha256_init, sha256_update for every piece of a message, and sha256_final give
    the digest of FIPS 180-4 of the whole message, however it was cut; the loops end as
    soon as the fuel exceeds the longest piece. *)
Theorem sha256_refines_fips ctx ps fuel :
  length (data ctx) = 64%nat -> Forall (fun p => zlen p < 2 ^ 32 /\ zlen p < Z.of_nat fuel) ps ->
  hash_pieces fuel ctx ps = Done (digest (concat ps)).
Proof.
  intros Hc Hps. unfold hash_pieces.
  destruct (pieces_repr fuel ps _ [] 0 (repr_init ctx Hc) Hps) as (c & blk & -> & R). by eapply sha256_final_done.
Qed.

Lemma sha256_refines_fips_witness :
  let ctx := mkCtx (replicate 64 7) 3 9 [] in
  hash_pieces 70 ctx [[97]; []; [98; 99]; replicate 61 5; [1; 2]] = Done (digest ([97; 98; 99] ++ replicate 61 5 ++ [1; 2])).
Proof.
  apply (sha256_refines_fips (mkCtx (replicate 64 7) 3 9 []) [[97]; []; [98; 99]; replicate 61 5; [1; 2]] 70).
  - reflexivity.
  - repeat constructor; vm_compute; congruence.
Defined.

(** Beyond 2^32 bytes the index of sha256_update wraps around before it reaches the
    length: it never returns. *)
Lemma sha256_update_endless fuel ctx d len m blk : repr ctx m blk -> zlen d >= 2 ^ 32 -> len >= 2 ^ 32 ->
  sha256_update fuel ctx d len = Fault Diverges.
Proof.
  intros R Hd Hlen. unfold sha256_update. assert (Hi : in_width 32 0) by (unfold in_width; lia). revert Hi. generalize 0.
  revert ctx m blk R. induction fuel as [|fuel IH]; intros ctx m blk R i Hi; [done|]. cbn [update_loop].
  rewrite (proj2 (Z.ltb_lt _ _)) by (unfold in_width in Hi; lia).
  destruct (zget_is_Some d i ltac:(unfold in_width in Hi; lia)) as [b Eb]. rewrite (load_in_range _ _ _ Eb), obind_done.
  destruct (update_byte_repr ctx m blk b R) as (c1 & blk1 & -> & R1). rewrite obind_done.
  eapply IH; [done|]. apply wrap_range. lia.
Qed.
End Sha256.
