(* ===== verification/NoOrderModel.v ===== *)
(** * no_order.cc

    Module [NoOrder]: apps/kv/no_order.cc, which measures a write to two servers, one
    after the other ("order"), the second in the background ("norder"), or to one
    server only ("one").  A server collects FLAGS_batch requests before it answers any.
    apps/kv/batch_Index_moti.cc is the same program with one server. *)

From S2P Require Import Prelude.

Module NoOrder.

Definition kReadReq : Z := 0.
Definition kReadReply : Z := 1.
Definition kWriteReq : Z := 2.
Definition kWriteReply : Z := 3.
Definition kMaxQPSize : Z := 64.
Definition kMaxClientReq : Z := 8.

(** BatchHeader and RawKvMsg *)
Record RawKvMsg := mkMsg {
  dst_s_id : Z;
  src_s_id : Z;
  src_t_id : Z;
  fake_src_c_id : Z;
  local_id : Z;
  op : Z;
  src_c_id : Z;
  key : Z;
  value : Z }.

Definition with_op (m : RawKvMsg) (o : Z) : RawKvMsg :=
  mkMsg (dst_s_id m) (src_s_id m) (src_t_id m) (fake_src_c_id m) (local_id m) o (src_c_id m) (key m) (value m).
Definition with_value (m : RawKvMsg) (v : Z) : RawKvMsg :=
  mkMsg (dst_s_id m) (src_s_id m) (src_t_id m) (fake_src_c_id m) (local_id m) (op m) (src_c_id m) (key m) v.

(** FLAGS_index and FLAGS_order, by the strings the code compares them with. *)
Inductive index_flag := IndexHash | IndexTree | IndexOther.
Inductive order_flag := One | NOrder | Order.
#[export] Instance order_flag_eq_dec : EqDecision order_flag.
Proof. solve_decision. Defined.

(** ** The server *)
Section server.
Context (FLAGS_batch : Z) (FLAGS_index : index_flag).

(** server_prepare returns before it makes an index: the pointers are not initialised. *)
Definition read (v : Z) : outcome Z :=
  match FLAGS_index with
  | IndexHash | IndexTree => Fault NullDeref
  | IndexOther => Done v
  end.

(** write returns at once.  The result is the reply and the request, which changes. *)
Definition server_process_msg (req reply : RawKvMsg) (last_req : option RawKvMsg) : outcome (RawKvMsg * RawKvMsg) :=
  let reply := mkMsg (dst_s_id req) (src_s_id req) (src_t_id req) (fake_src_c_id req) (local_id req) (op req)
    (src_c_id req) (key req) (value reply) in
  if op req =? kReadReq then
    let reply := with_op reply kReadReply in
    let! v := match last_req with None => read (value reply) | Some _ => Done (value req) end in
    Done (with_value reply v, with_value req v)
  else if op req =? kWriteReq then
    let reply := with_op reply kWriteReply in
    match last_req with
    | None => Done (reply, req)
    | Some l => Done (with_value reply (value req), with_value req (value l))
    end
  else Fault ProcessExit.

(** struct Batch_req: the pointers are positions in [req]. *)
Record server := mkServer { req_ptr : list Z; req : list RawKvMsg; batch_cnt : Z }.

(** The loop of batch_process; [stale i] is the i-th send buffer. *)
Fixpoint process_from (n : nat) (i : Z) (stale : Z -> RawKvMsg) (s : server) (last_key : Z)
    : outcome (list RawKvMsg * server) :=
  match n with
  | O => Done ([], s)
  | S n =>
      let! p := load (req_ptr s) i in
      let! r := load (req s) p in
      let! last := (if last_key =? key r then
                      let! q := load (req_ptr s) (i - 1) in
                      let! l := load (req s) q in Done (Some l)
                    else Done None) in
      let! (reply, r') := server_process_msg r (stale i) last in
      let! rs := store (req s) p r' in
      let! (out, s) := process_from n (i + 1) stale (mkServer (req_ptr s) rs (batch_cnt s)) (key r') in
      Done (reply :: out, s)
  end.

Definition batch_process (stale : Z -> RawKvMsg) (s : server) : outcome (list RawKvMsg * server) :=
  let! (out, s) := process_from (Z.to_nat (batch_cnt s)) 0 stale s (2 ^ 64 - 1) in
  Done (out, mkServer (req_ptr s) (req s) 0).

(** run_server_CPC for one request. *)
Definition collect (stale : Z -> RawKvMsg) (s : server) (m : RawKvMsg) : outcome (list RawKvMsg * server) :=
  let! ptrs := store (req_ptr s) (batch_cnt s) (batch_cnt s) in
  let! rs := store (req s) (batch_cnt s) m in
  let s := mkServer ptrs rs (wrap 32 (batch_cnt s + 1)) in
  if batch_cnt s =? FLAGS_batch then batch_process stale s else Done ([], s).
End server.

(** ** The client *)
Record SimpleCtx := mkCtx {
  cop : Z; ckey : Z; cvalue : Z; cserver : Z; cthread : Z; cserver_bg : Z; cthread_bg : Z; wait : bool }.

(** Where a coroutine is suspended. *)
Inductive stage := Free | First | Second.
#[export] Instance stage_eq_dec : EqDecision stage.
Proof. solve_decision. Defined.

Record client := mkClient { ctxs : list SimpleCtx; stages : list stage; bg_cnt : Z }.

(** A request and the thread it goes to: rpc_get_qp. *)
Record request := mkReq { to_server : Z; to_thread : Z; msg : RawKvMsg }.

Section client.
Context (FLAGS_order : order_flag) (FLAGS_first FLAGS_second : Z).
Context (server_id thread_id : Z).

Definition make_req (s t coro_id : Z) (x : SimpleCtx) : request :=
  mkReq s t (mkMsg s server_id thread_id (wrap 8 coro_id) 0 (wrap 8 (cop x)) coro_id (ckey x) (cvalue x)).

(** The start of cworker_new_request_order with its three random numbers. *)
Definition draw (x : SimpleCtx) (d1 d2 d3 : Z) : SimpleCtx :=
  mkCtx (if 100 <=? d3 then kReadReq else kWriteReq) (ckey x) (cvalue x)
    0 (wrap 8 (d1 mod FLAGS_first)) 1 (wrap 8 (d2 mod FLAGS_second)) true.

Definition start (c : client) (i d1 d2 d3 : Z) : outcome (client * list request) :=
  let! x := load (ctxs c) i in
  let x := draw x d1 d2 d3 in
  let! xs := store (ctxs c) i x in
  let! ss := store (stages c) i First in
  Done (mkClient xs ss (bg_cnt c), [make_req (cserver x) (cthread x) i x]).

(** CLIENT_END *)
Definition finish (c : client) (i : Z) (reply : RawKvMsg) (out : list request) : outcome (client * list request) :=
  if (op reply =? kReadReply) || (op reply =? kWriteReply) then
    let! ss := store (stages c) i Free in Done (mkClient (ctxs c) ss (bg_cnt c), out)
  else Fault ProcessExit.

(** After the first reply. *)
Definition second (c : client) (i : Z) (reply : RawKvMsg) : outcome (client * list request) :=
  match FLAGS_order with
  | One => finish c i reply []
  | NOrder =>
      let! x := load (ctxs c) i in
      let r := make_req (cserver_bg x) (cthread_bg x) i x in
      let! xs := store (ctxs c) i (mkCtx (cop x) (ckey x) (cvalue x) (cserver x) (cthread x) (cserver_bg x) (cthread_bg x) false) in
      finish (mkClient xs (stages c) (signed 32 (bg_cnt c + 1))) i reply [r]
  | Order =>
      let! x := load (ctxs c) i in
      let! ss := store (stages c) i Second in
      Done (mkClient (ctxs c) ss (bg_cnt c), [make_req (cserver_bg x) (cthread_bg x) i x])
  end.

(** Calling the slave: a coroutine at the sink() of client_worker_ starts over. *)
Definition call_slave (c : client) (i d1 d2 d3 : Z) (reply : RawKvMsg) : outcome (client * list request) :=
  let! st := load (stages c) i in
  match st with
  | Free => start c i d1 d2 d3
  | First => second c i reply
  | Second => finish c i reply []
  end.

(** The first loop of run_client_CPC for one coroutine; async_op_cnt is never 0. *)
Definition try_start (c : client) (i d1 d2 d3 : Z) : outcome (client * list request) :=
  let! st := load (stages c) i in
  if bool_decide (st = Free) && (bg_cnt c <? kMaxQPSize) then start c i d1 d2 d3 else Done (c, []).

Definition client_get_cid_32 (reply : RawKvMsg) : Z := signed 32 (src_c_id reply).

(** The second loop for one reply. *)
Definition handle_reply (c : client) (reply : RawKvMsg) (d1 d2 d3 : Z) : outcome (client * list request) :=
  let c_id := client_get_cid_32 reply in
  if c_id =? -1 then Done (c, [])
  else if bool_decide (FLAGS_order = NOrder) && (dst_s_id reply =? 1) then
    Done (mkClient (ctxs c) (stages c) (signed 32 (bg_cnt c - 1)), [])
  else call_slave c c_id d1 d2 d3 reply.
End client.

(** client_prepare sets the contexts of FLAGS_coro_num coroutines, in an array of
    kMaxClientReq; run_client_CPC makes no more than kMaxClientReq coroutines. *)
Definition client_prepare (FLAGS_coro_num : Z) (xs : list SimpleCtx) : outcome client :=
  if FLAGS_coro_num <=? kMaxClientReq then
    Done (mkClient xs (replicate (Z.to_nat (Z.min FLAGS_coro_num kMaxClientReq)) Free) 0)
  else Fault OutOfBounds.

(** ** Clients, servers, and the messages between them *)
Record system := mkSys {
  clients : gmap (Z * Z) client;
  servers : gmap (Z * Z) server;
  net : list request;
  replies : list RawKvMsg }.

Definition dest (r : request) : Z * Z := (to_server r, to_thread r).
Definition source (m : RawKvMsg) : Z * Z := (src_s_id m, src_t_id m).

Section system.
Context (order : order_flag) (FLAGS_batch : Z) (FLAGS_index : index_flag) (FLAGS_first FLAGS_second coro : Z).

(** Random numbers below 100 are what mehcached_zipf_next gives for op_state. *)
Inductive step : system -> system -> Prop :=
  | s_start cs sv n rp cl c i d1 d2 d3 c' out :
      cs !! cl = Some c -> 0 <= i < coro -> 0 <= d1 -> 0 <= d2 -> 0 <= d3 < 100 ->
      try_start FLAGS_first FLAGS_second cl.1 cl.2 c i d1 d2 d3 = Done (c', out) ->
      step (mkSys cs sv n rp) (mkSys (<[cl := c']> cs) sv (n ++ out) rp)
  | s_collect cs sv n1 r n2 rp s stale out s' :
      sv !! dest r = Some s -> collect FLAGS_batch FLAGS_index stale s (msg r) = Done (out, s') ->
      step (mkSys cs sv (n1 ++ r :: n2) rp) (mkSys cs (<[dest r := s']> sv) (n1 ++ n2) (rp ++ out))
  | s_reply cs sv n r1 m r2 c d1 d2 d3 c' out :
      cs !! source m = Some c -> 0 <= d1 -> 0 <= d2 -> 0 <= d3 < 100 ->
      handle_reply order FLAGS_first FLAGS_second (src_s_id m) (src_t_id m) c m d1 d2 d3 = Done (c', out) ->
      step (mkSys cs sv n (r1 ++ m :: r2)) (mkSys (<[source m := c']> cs) sv (n ++ out) (r1 ++ r2)).

Inductive reachable (s0 : system) : system -> Prop :=
  | reach_here : reachable s0 s0
  | reach_step s s' : reachable s0 s -> step s s' -> reachable s0 s'.

Hypothesis batch_size : 0 < FLAGS_batch < 2 ^ 32.
Hypothesis threads : 0 < FLAGS_first <= 256 /\ 0 < FLAGS_second <= 256.
Hypothesis coros : 0 < coro <= kMaxClientReq.

(** *** A server *)
Record server_ok (s : server) (ms : list RawKvMsg) : Prop := {
  sv_ptrs : zlen (req_ptr s) = FLAGS_batch;
  sv_reqs : zlen (req s) = FLAGS_batch;
  sv_cnt : batch_cnt s = zlen ms;
  sv_room : zlen ms < FLAGS_batch;
  sv_ptr i : 0 <= i < zlen ms -> zget (req_ptr s) i = Some i;
  sv_req i m : zget ms i = Some m -> zget (req s) i = Some m }.

(** A write of a key that is not the initial last_key. *)
Definition write_req (m : RawKvMsg) : Prop := op m = kWriteReq /\ key m <> 2 ^ 64 - 1.

(** What a reply keeps of its request. *)
Definition tag : Type := (Z * Z) * Z * Z.
Definition tag_of (m : RawKvMsg) : tag := (source m, src_c_id m, dst_s_id m).

Lemma write_processed r reply last : write_req r -> exists a r',
  server_process_msg FLAGS_index r reply last = Done (a, r') /\ tag_of a = tag_of r /\ op a = kWriteReply /\ key r' = key r.
Proof. intros [Ho _]. unfold server_process_msg. rewrite Ho. cbn. destruct last; eexists _, _; done. Qed.

Lemma process_done n i stale s last_key (ms : list RawKvMsg) : 0 <= i ->
  length ms = n -> Forall write_req ms -> (i = 0 -> last_key = 2 ^ 64 - 1) -> zlen (req s) = FLAGS_batch -> i + Z.of_nat n <= FLAGS_batch ->
  (forall j, 0 <= j < i + Z.of_nat n -> zget (req_ptr s) j = Some j) ->
  (forall k m, ms !! k = Some m -> zget (req s) (i + Z.of_nat k) = Some m) ->
  exists out s', process_from FLAGS_index n i stale s last_key = Done (out, s') /\ map tag_of out = map tag_of ms /\
    Forall (fun a => op a = kWriteReply) out /\ req_ptr s' = req_ptr s /\ zlen (req s') = FLAGS_batch.
Proof.
  intros Hi E Hw H0 Hz Hr Hp Hq. revert i s last_key ms Hi E Hw H0 Hz Hr Hp Hq.
  induction n as [|n IH]; intros i s last_key ms Hi E Hw H0 Hz Hr Hp Hq.
  - destruct ms; [|done]. eexists _, _. split; [done|]. by split_and!.
  - destruct ms as [|m ms]; [done|]. apply Forall_cons in Hw as [Hm Hw]. cbn [process_from].
    rewrite (load_in_range _ _ _ (Hp i ltac:(lia))), obind_done.
    pose proof (Hq 0%nat m eq_refl) as Hm0. rewrite Z.add_0_r in Hm0. rewrite (load_in_range _ _ _ Hm0), obind_done.
    assert (Hl : exists last, (if last_key =? key m then
        let! q := load (req_ptr s) (i - 1) in let! l := load (req s) q in Done (Some l) else Done None) = Done last).
    { destruct (Z.eqb_spec last_key (key m)) as [Ek|]; [|eauto].
      assert (i <> 0) by (intros Ei; destruct Hm as [_ Hk]; apply Hk; rewrite <- Ek; auto).
      rewrite (load_in_range _ _ _ (Hp (i - 1) ltac:(lia))), obind_done.
      destruct (zget_is_Some (req s) (i - 1) ltac:(lia)) as [l El]. rewrite (load_in_range _ _ _ El). eauto. }
    destruct Hl as [last ->]. rewrite obind_done.
    destruct (write_processed m (stale i) last Hm) as (a & r' & -> & Ha & Ho & Hk). rewrite obind_done.
    rewrite store_in_range, obind_done by lia.
    destruct (IH (i + 1) (mkServer (req_ptr s) (zset (req s) i r') (batch_cnt s)) (key r') ms) as (out & s' & -> & Ht & Hf & Ep & Er);
      cbn [req req_ptr]; try done; try lia; try (by rewrite zlen_zset).
    + by injection E.
    + intros j Hj. apply Hp. lia.
    + intros k m' Hk'. rewrite zget_zset_ne by lia. replace (i + 1 + Z.of_nat k) with (i + Z.of_nat (S k)) by lia. by apply Hq.
    + rewrite obind_done. eexists _, _. split; [done|]. cbn [map]. rewrite Ha, Ht. split_and!; try done. by constructor.
Qed.

(** A request joins the batch, or completes it and all are answered. *)
Lemma collect_one stale s ms m : server_ok s ms -> Forall write_req ms -> write_req m ->
  exists out s', collect FLAGS_batch FLAGS_index stale s m = Done (out, s') /\
    (zlen ms + 1 < FLAGS_batch /\ out = [] /\ server_ok s' (ms ++ [m]) \/
     zlen ms + 1 = FLAGS_batch /\ map tag_of out = map tag_of (ms ++ [m]) /\ server_ok s' [] /\
     Forall (fun a => op a = kWriteReply) out).
Proof.
  intros [Hp Hr Hc Hroom Hptr Hreq] Hw Hm. unfold collect. pose proof (zlen_nonneg ms).
  rewrite !store_in_range, !obind_done by lia. rewrite Hc, (wrap_small 32) by (unfold in_width; lia). cbn [batch_cnt].
  assert (Hptr' : forall i, 0 <= i < zlen ms + 1 -> zget (zset (req_ptr s) (zlen ms) (zlen ms)) i = Some i).
  { intros i Hi. destruct (decide (i = zlen ms)) as [->|]; [apply zget_zset_eq; lia|].
    rewrite zget_zset_ne by done. apply Hptr. lia. }
  assert (Hreq' : forall i x, zget (ms ++ [m]) i = Some x -> zget (zset (req s) (zlen ms) m) i = Some x).
  { intros i x Hx. pose proof (zget_Some_range _ _ _ Hx) as Hi. unfold zlen in Hi. rewrite length_app in Hi. cbn in Hi.
    destruct (decide (i = zlen ms)) as [->|Hne].
    - rewrite zget_zset_eq by lia. unfold zget, zlen in Hx. rewrite decide_True, Nat2Z.id, list_lookup_middle in Hx by lia. done.
    - rewrite zget_zset_ne by done. apply Hreq. unfold zget, zlen in *. rewrite decide_True in Hx |- * by lia.
      rewrite lookup_app_l in Hx by lia. done. }
  assert (Hlen : zlen (ms ++ [m]) = zlen ms + 1) by (unfold zlen; rewrite length_app; cbn; lia).
  destruct (Z.eqb_spec (zlen ms + 1) FLAGS_batch) as [Hfull|Hmore].
  - unfold batch_process. cbn [batch_cnt].
    destruct (process_done (Z.to_nat (zlen ms + 1)) 0 stale
      (mkServer (zset (req_ptr s) (zlen ms) (zlen ms)) (zset (req s) (zlen ms) m) (zlen ms + 1)) (2 ^ 64 - 1) (ms ++ [m]))
      as (out & s' & -> & Ht & Ho & Ep & Er); cbn [req req_ptr]; try done; try lia.
    + rewrite <- Hlen. unfold zlen. lia.
    + by apply Forall_app; split; [|apply Forall_singleton].
    + rewrite zlen_zset. lia.
    + intros j Hj. apply Hptr'. lia.
    + intros k x Hk. apply Hreq'. unfold zget. rewrite decide_True by lia. by replace (Z.to_nat (0 + Z.of_nat k)) with k by lia.
    + rewrite obind_done. eexists _, _. split; [done|]. right. split_and!; try done. split; cbn [req_ptr req batch_cnt]; try done.
      * rewrite Ep. cbn [req_ptr]. by rewrite zlen_zset.
      * unfold zlen; cbn; lia.
      * unfold zlen at 1. cbn. lia.
      * intros i x Hx%zget_Some_range. unfold zlen in Hx. cbn in Hx. lia.
  - eexists _, _. split; [done|]. left. split; [lia|]. split; [done|].
    split; cbn [req_ptr req batch_cnt]; rewrite ?zlen_zset, ?Hlen; try done; lia.
Qed.
(** *** A client and the messages it has under way *)
Definition bg (t : tag) : bool := bool_decide (order = NOrder) && (t.2 =? 1).

(** The server a coroutine waits for. *)
Definition awaited (st : stage) : option Z :=
  match st with Free => None | First => Some 0 | Second => Some 1 end.

Definition firsts (ss : list stage) : Z := zlen (filter (fun st => st = First) ss).
Definition is_first (st : stage) : Z := if decide (st = First) then 1 else 0.

Lemma firsts_zset ss i st st' : zget ss i = Some st -> firsts (zset ss i st') = firsts ss - is_first st + is_first st'.
Proof.
  intros E. pose proof (zget_Some_range _ _ _ E) as Hi. unfold zget in E. rewrite decide_True in E by lia.
  unfold zset. rewrite decide_True by lia. rewrite insert_take_drop by (unfold zlen in Hi; lia).
  rewrite <- (take_drop_middle _ _ _ E) at 3. unfold firsts.
  rewrite !filter_app, !filter_cons. unfold is_first, zlen.
  repeat case_decide; rewrite ?length_app; cbn [length]; rewrite ?length_app; cbn [length]; lia.
Qed.
Lemma firsts_nonneg ss : 0 <= firsts ss.
Proof. apply zlen_nonneg. Qed.

Lemma firsts_le ss : firsts ss <= zlen ss.
Proof. unfold firsts, zlen. pose proof (length_filter (fun st => st = First) ss). lia. Qed.

(** [l]: the tags of what the client has under way. *)
Record client_ok (cl : Z * Z) (c : client) (l : list tag) : Prop := {
  c_ctxs : zlen (ctxs c) = kMaxClientReq;
  c_stages : zlen (stages c) = coro;
  c_keys : Forall (fun x => ckey x <> 2 ^ 64 - 1) (ctxs c);
  c_first i x : zget (stages c) i = Some First -> zget (ctxs c) i = Some x ->
    cop x = kWriteReq /\ cserver_bg x = 1 /\ 0 <= cthread_bg x < FLAGS_second;
  c_fg i d : bg (cl, i, d) = false ->
    ((cl, i, d) ∈ l <-> exists st, zget (stages c) i = Some st /\ awaited st = Some d);
  c_nodup : NoDup (filter (fun t => bg t = false) l);
  c_bg : bg_cnt c = zlen (filter (fun t => bg t = true) l);
  c_bound : bg_cnt c + firsts (stages c) <= kMaxQPSize - 1 + coro }.

Lemma client_ok_perm cl c l l' : l ≡ₚ l' -> client_ok cl c l -> client_ok cl c l'.
Proof.
  intros P [H1 H2 H3 H4 H5 H6 H7 H8]. split; try done.
  - intros i d Hb. rewrite <- P. by apply H5.
  - by rewrite <- P.
  - rewrite H7. unfold zlen. by rewrite P.
Qed.

(** A request that may be sent. *)
Definition valid_dest (d : Z * Z) : Prop :=
  d.1 = 0 /\ 0 <= d.2 < FLAGS_first \/ d.1 = 1 /\ 0 <= d.2 < FLAGS_second.
Definition good (r : request) : Prop := write_req (msg r) /\ valid_dest (dest r).

Lemma bg_fg (cl : Z * Z) i : bg (cl, i, 0) = false.
Proof. unfold bg. cbn. apply andb_false_r. Qed.

(** Sending one more message, of a coroutine that had none. *)
Lemma fg_stage_change ss i st st' cl (l : list tag) d :
  (forall j d, bg (cl, j, d) = false -> ((cl, j, d) ∈ l <-> exists st, zget ss j = Some st /\ awaited st = Some d)) ->
  zget ss i = Some st -> awaited st = None -> awaited st' = Some d -> bg (cl, i, d) = false ->
  (cl, i, d) ∉ l /\
  forall j d', bg (cl, j, d') = false ->
    ((cl, j, d') ∈ l ++ [(cl, i, d)] <-> exists st, zget (zset ss i st') j = Some st /\ awaited st = Some d').
Proof.
  intros H E Hn Ha Hb. pose proof (zget_Some_range _ _ _ E). split.
  - intros (st0 & E0 & A0)%H; [|done]. congruence.
  - intros j d' Hb'. rewrite elem_of_app, list_elem_of_singleton, H by done. destruct (decide (j = i)) as [->|Hne].
    + rewrite zget_zset_eq by done. split.
      * intros [(st0 & E0 & A0)|E0]; [congruence|]. injection E0 as ->. eauto.
      * intros (st0 & [= <-] & A0). right. congruence.
    + rewrite zget_zset_ne by done. split; [|by left]. intros [?|E0]; [done|]. by injection E0 as ->.
Qed.

Lemma fg_stage_answered ss i st st' cl (l : list tag) d :
  (forall j d', bg (cl, j, d') = false ->
    ((cl, j, d') ∈ (cl, i, d) :: l <-> exists st, zget ss j = Some st /\ awaited st = Some d')) ->
  zget ss i = Some st -> awaited st = Some d -> awaited st' = None -> (cl, i, d) ∉ l ->
  forall j d', bg (cl, j, d') = false ->
    ((cl, j, d') ∈ l <-> exists st, zget (zset ss i st') j = Some st /\ awaited st = Some d').
Proof.
  intros H E Ha Hn Hni j d' Hb. pose proof (zget_Some_range _ _ _ E). specialize (H j d' Hb). rewrite elem_of_cons in H.
  destruct (decide (j = i)) as [->|Hne].
  - rewrite zget_zset_eq by done. split.
    + intros Hin. destruct (proj1 H (or_intror Hin)) as (st0 & E0 & A0). congruence.
    + intros (st0 & [= <-] & A0). congruence.
  - rewrite zget_zset_ne by done. rewrite <- H. split; [by right|]. intros [E0|?]; [|done]. by injection E0.
Qed.

Lemma draw_ok x d1 d2 d3 : 0 <= d1 -> 0 <= d2 -> 0 <= d3 < 100 ->
  let y := draw FLAGS_first FLAGS_second x d1 d2 d3 in
  cop y = kWriteReq /\ ckey y = ckey x /\ cserver y = 0 /\ 0 <= cthread y < FLAGS_first /\
  cserver_bg y = 1 /\ 0 <= cthread_bg y < FLAGS_second.
Proof.
  intros H1 H2 H3. cbn. rewrite (proj2 (Z.leb_gt _ _)) by lia.
  pose proof (Z.mod_pos_bound d1 FLAGS_first ltac:(lia)). pose proof (Z.mod_pos_bound d2 FLAGS_second ltac:(lia)).
  rewrite !wrap_small by (unfold in_width; lia). split_and!; done || lia.
Qed.

Lemma start_new cl c l i d1 d2 d3 : client_ok cl c l -> zget (stages c) i = Some Free -> bg_cnt c < kMaxQPSize ->
  0 <= d1 -> 0 <= d2 -> 0 <= d3 < 100 ->
  exists c' r, start FLAGS_first FLAGS_second cl.1 cl.2 c i d1 d2 d3 = Done (c', [r]) /\ good r /\
    tag_of (msg r) = (cl, i, 0) /\ client_ok cl c' (l ++ [(cl, i, 0)]).
Proof.
  intros [H1 H2 H3 H4 H5 H6 H7 H8] E Hbg Hd1 Hd2 Hd3. pose proof (zget_Some_range _ _ _ E) as Hi. unfold kMaxClientReq in *.
  destruct (zget_is_Some (ctxs c) i ltac:(lia)) as [x Ex]. unfold start.
  rewrite (load_in_range _ _ _ Ex), obind_done, !store_in_range, !obind_done by lia.
  destruct (draw_ok x d1 d2 d3 Hd1 Hd2 Hd3) as (Ho & Hk & Hs & Ht & Hsb & Htb). revert Ho Hk Hs Ht Hsb Htb. generalize (draw FLAGS_first FLAGS_second x d1 d2 d3). intros y Ho Hk Hs Ht Hsb Htb.
  assert (Hkx : ckey x <> 2 ^ 64 - 1) by (exact (Forall_zget _ _ _ _ H3 Ex)).
  destruct (fg_stage_change (stages c) i Free First cl l 0 H5 E eq_refl eq_refl (bg_fg cl i)) as [Hni Hfg].
  eexists _, _. split; [done|]. split_and!.
  - split; [split|].
    + cbn. by rewrite Ho.
    + cbn. by rewrite Hk.
    + left. cbn. rewrite Hs. done.
  - destruct cl. cbn. by rewrite Hs.
  - split; cbn [ctxs stages bg_cnt]; rewrite ?zlen_zset; try done.
    + apply Forall_zset; [done|]. by rewrite Hk.
    + intros j z Ej Ez. destruct (decide (j = i)) as [->|Hne].
      * rewrite zget_zset_eq in Ez by lia. by injection Ez as <-.
      * rewrite zget_zset_ne in Ej by lia. rewrite zget_zset_ne in Ez by lia. by eapply H4.
    + rewrite filter_app, filter_cons_True by apply bg_fg. apply NoDup_app. split; [done|]. split.
      * intros t [_ Hin]%list_elem_of_filter ->%list_elem_of_singleton. done.
      * apply NoDup_singleton.
    + rewrite filter_app, filter_cons_False by (by rewrite bg_fg). rewrite filter_nil, app_nil_r. done.
    + rewrite (firsts_zset _ _ _ _ E). unfold is_first. cbn.
      pose proof (firsts_le (zset (stages c) i First)) as Hle. rewrite (firsts_zset _ _ _ _ E), zlen_zset in Hle. unfold is_first in Hle. cbn in Hle. lia.
Qed.
(** The reply to a background request. *)
Lemma client_bg_answered cl c i d (l : list tag) : client_ok cl c ((cl, i, d) :: l) -> bg (cl, i, d) = true ->
  client_ok cl (mkClient (ctxs c) (stages c) (signed 32 (bg_cnt c - 1))) l.
Proof.
  intros [H1 H2 H3 H4 H5 H6 H7 H8] Hb.
  rewrite filter_cons_True in H7 by done. rewrite filter_cons_False in H6 by congruence. rewrite zlen_cons in H7.
  pose proof (zlen_nonneg (filter (fun t => bg t = true) l)). pose proof (firsts_nonneg (stages c)). pose proof coros.
  assert (Hs : signed 32 (bg_cnt c - 1) = bg_cnt c - 1).
  { unfold kMaxQPSize, kMaxClientReq in *. apply signed_small; [lia|change (2 ^ (32 - 1)) with 2147483648; lia]. }
  split; cbn [ctxs stages bg_cnt]; rewrite ?Hs; try done; try lia.
  - intros j d' Hj. rewrite <- H5 by done. rewrite elem_of_cons. split; [by right|]. intros [E|?]; [|done]. congruence.
Qed.

(** The reply a coroutine waits for. *)
Lemma client_answered cl c i d (l : list tag) st : client_ok cl c ((cl, i, d) :: l) -> bg (cl, i, d) = false ->
  zget (stages c) i = Some st -> awaited st = Some d ->
  client_ok cl (mkClient (ctxs c) (zset (stages c) i Free) (bg_cnt c)) l /\
  firsts (zset (stages c) i Free) = firsts (stages c) - is_first st.
Proof.
  intros [H1 H2 H3 H4 H5 H6 H7 H8] Hb E Ha. pose proof (zget_Some_range _ _ _ E) as Hi.
  rewrite filter_cons_False in H7 by congruence. rewrite filter_cons_True in H6 by done. apply NoDup_cons in H6 as [Hni H6].
  assert (Hf : firsts (zset (stages c) i Free) = firsts (stages c) - is_first st).
  { rewrite (firsts_zset _ _ _ _ E). change (is_first Free) with 0. lia. }
  split; [|done]. split; cbn [ctxs stages bg_cnt]; rewrite ?zlen_zset; try done.
  - intros j x Ej Ex. destruct (decide (j = i)) as [->|]; [by rewrite zget_zset_eq in Ej by done|].
    rewrite zget_zset_ne in Ej by lia. by eapply H4.
  - eapply fg_stage_answered; try done. intros Hin. apply Hni. by apply list_elem_of_filter.
  - rewrite Hf. unfold is_first. case_decide; lia.
Qed.

Lemma client_bg_sent cl c i (l : list tag) x : client_ok cl c l -> bg (cl, i, 1) = true -> bg_cnt c + 1 + firsts (stages c) <= kMaxQPSize - 1 + coro ->
  ckey x <> 2 ^ 64 - 1 -> cop x = kWriteReq /\ cserver_bg x = 1 /\ 0 <= cthread_bg x < FLAGS_second -> 0 <= i < zlen (ctxs c) ->
  client_ok cl (mkClient (zset (ctxs c) i x) (stages c) (signed 32 (bg_cnt c + 1))) (l ++ [(cl, i, 1)]).
Proof.
  intros [H1 H2 H3 H4 H5 H6 H7 H8] Hb Hr Hk Hx Hi.
  pose proof (zlen_nonneg (filter (fun t => bg t = true) l)). pose proof (firsts_nonneg (stages c)). pose proof coros.
  assert (Hs : signed 32 (bg_cnt c + 1) = bg_cnt c + 1).
  { unfold kMaxQPSize, kMaxClientReq in *. apply signed_small; [lia|change (2 ^ (32 - 1)) with 2147483648; lia]. }
  split; cbn [ctxs stages bg_cnt]; rewrite ?zlen_zset, ?Hs; try done.
  - by apply Forall_zset.
  - intros j z Ej Ez. destruct (decide (j = i)) as [->|]; [|rewrite zget_zset_ne in Ez by lia; by eapply H4].
    rewrite zget_zset_eq in Ez by done. by injection Ez as <-.
  - intros j d Hj. rewrite <- H5 by done. rewrite elem_of_app, list_elem_of_singleton. split; [|by left].
    intros [?|E]; [done|]. congruence.
  - rewrite filter_app, filter_cons_False by congruence. by rewrite filter_nil, app_nil_r.
  - rewrite filter_app, filter_cons_True by done. unfold zlen in *. rewrite length_app. cbn. lia.
Qed.

Lemma client_second cl c i (l : list tag) : client_ok cl c l -> bg (cl, i, 1) = false -> zget (stages c) i = Some Free ->
  client_ok cl (mkClient (ctxs c) (zset (stages c) i Second) (bg_cnt c)) (l ++ [(cl, i, 1)]).
Proof.
  intros [H1 H2 H3 H4 H5 H6 H7 H8] Hb E. pose proof (zget_Some_range _ _ _ E) as Hi.
  destruct (fg_stage_change (stages c) i Free Second cl l 1 H5 E eq_refl eq_refl Hb) as [Hni Hfg].
  split; cbn [ctxs stages bg_cnt]; rewrite ?zlen_zset; try done.
  - intros j z Ej Ez. destruct (decide (j = i)) as [->|]; [by rewrite zget_zset_eq in Ej by done|].
    rewrite zget_zset_ne in Ej by lia. by eapply H4.
  - rewrite filter_app, filter_cons_True by done. apply NoDup_app. split; [done|]. split.
    + intros t [_ Hin]%list_elem_of_filter ->%list_elem_of_singleton. done.
    + apply NoDup_singleton.
  - rewrite filter_app, filter_cons_False by congruence. by rewrite filter_nil, app_nil_r.
  - rewrite (firsts_zset _ _ _ _ E). change (is_first Free) with 0. change (is_first Second) with 0. lia.
Qed.

Lemma finish_write c i reply out : op reply = kWriteReply -> 0 <= i < zlen (stages c) ->
  finish c i reply out = Done (mkClient (ctxs c) (zset (stages c) i Free) (bg_cnt c), out).
Proof. intros Ho Hi. unfold finish. rewrite Ho. cbn. by rewrite store_in_range, obind_done. Qed.

(** Every reply is one that is awaited, or one to a background request. *)
Lemma reply_ok c l m d1 d2 d3 : let cl := source m in
  client_ok cl c (tag_of m :: l) -> op m = kWriteReply -> 0 <= src_c_id m < coro ->
  exists c' out, handle_reply order FLAGS_first FLAGS_second cl.1 cl.2 c m d1 d2 d3 = Done (c', out) /\
    Forall good out /\ client_ok cl c' (l ++ map (fun r => tag_of (msg r)) out) /\
    Forall (fun r => source (msg r) = cl /\ src_c_id (msg r) = src_c_id m) out /\
    (bg (tag_of m) = false -> exists st, zget (stages c) (src_c_id m) = Some st /\ awaited st = Some (dst_s_id m)).
Proof.
  intros cl H Ho Hc. subst cl. set (i := src_c_id m) in *. change (tag_of m) with (source m, i, dst_s_id m) in *. generalize dependent (source m). intros cl H.
  unfold handle_reply, client_get_cid_32. fold i. unfold kMaxClientReq in *.
  rewrite (signed_small 32 i) by (change (2 ^ (32 - 1)) with 2147483648; lia). rewrite (proj2 (Z.eqb_neq i (-1))) by lia.
  destruct (bg (cl, i, dst_s_id m)) eqn:Hb; pose proof Hb as Hb'; unfold bg in Hb; cbn [snd] in Hb; rewrite Hb.
  - eexists _, []. split; [done|]. cbn [map]. rewrite app_nil_r. split_and!; try done. by eapply client_bg_answered.
  - destruct (proj1 (c_fg _ _ _ H i (dst_s_id m) Hb') ltac:(left)) as (st & E & Ha).
    destruct (client_answered _ _ _ _ _ _ H Hb' E Ha) as [Hok Hf]. pose proof (zget_Some_range _ _ _ E) as Hi.
    assert (Hst : exists st0, zget (stages c) i = Some st0 /\ awaited st0 = Some (dst_s_id m)) by eauto.
    unfold call_slave. rewrite (load_in_range _ _ _ E), obind_done. destruct st; [done| |].
    + destruct (zget_is_Some (ctxs c) i) as [x Ex]; [rewrite (c_ctxs _ _ _ H); unfold kMaxClientReq; lia|].
      destruct (c_first _ _ _ H i x E Ex) as (Hop & Hsb & Htb). pose proof (Forall_zget _ _ _ _ (c_keys _ _ _ H) Ex) as Hk. cbn in Hk.
      pose proof (zget_Some_range _ _ _ Ex) as Hix.
      assert (Hg : good (make_req cl.1 cl.2 (cserver_bg x) (cthread_bg x) i x)).
      { split; [split; cbn; by rewrite ?Hop|]. right. cbn. rewrite Hsb. done. }
      assert (Ht : tag_of (msg (make_req cl.1 cl.2 (cserver_bg x) (cthread_bg x) i x)) = (cl, i, 1)) by (destruct cl; cbn; by rewrite Hsb).
      assert (Hsrc : source (msg (make_req cl.1 cl.2 (cserver_bg x) (cthread_bg x) i x)) = cl) by (by destruct cl).
      unfold second. destruct order eqn:Eo.
      * rewrite finish_write by done. eexists _, []. split; [done|]. cbn [map]. rewrite app_nil_r. by split_and!.
      * rewrite (load_in_range _ _ _ Ex), obind_done, store_in_range, obind_done, finish_write by done. cbn [ctxs stages bg_cnt].
        eexists _, [_]. split; [done|]. split; [by constructor|]. split; [|split; [by constructor|done]]. cbn [map]. rewrite Ht.
        apply (client_bg_sent cl (mkClient (ctxs c) (zset (stages c) i Free) (bg_cnt c)) i l); cbn [ctxs stages bg_cnt]; try done; [by unfold bg; rewrite Eo|].
        rewrite Hf. pose proof (c_bound _ _ _ H). change (is_first First) with 1. lia.
      * rewrite (load_in_range _ _ _ Ex), obind_done, store_in_range, obind_done by done.
        eexists _, [_]. split; [done|]. split; [by constructor|]. split; [|split; [by constructor|done]]. cbn [map]. rewrite Ht.
        rewrite <- (zset_zset _ _ Free Second).
        apply (client_second cl (mkClient (ctxs c) (zset (stages c) i Free) (bg_cnt c))); [done|unfold bg; by rewrite Eo|].
        cbn [stages]. by rewrite zget_zset_eq.
    + rewrite finish_write by done. eexists _, []. split; [done|]. cbn [map]. rewrite app_nil_r. by split_and!.
Qed.
(** *** The whole *)
Definition req_tag (r : request) : tag := tag_of (msg r).
Definition mine (cl : Z * Z) (ts : list tag) : list tag := filter (fun t => t.1.1 = cl) ts.
Definition pending (d : Z * Z) (held : list request) : list RawKvMsg := map msg (filter (fun r => dest r = d) held).

(** Everything under way; [held] is what the servers keep in their batches. *)
Definition tags (s : system) (held : list request) : list tag :=
  map req_tag (net s) ++ map req_tag held ++ map tag_of (replies s).

Record inv (s : system) (held : list request) : Prop := {
  i_clients cl c : clients s !! cl = Some c -> client_ok cl c (mine cl (tags s held));
  i_msgs : Forall (fun t : tag => is_Some (clients s !! t.1.1) /\ 0 <= t.1.2 < coro) (tags s held);
  i_good : Forall good (net s ++ held);
  i_replies : Forall (fun a => op a = kWriteReply) (replies s);
  i_dom d : valid_dest d -> is_Some (servers s !! d);
  i_servers d sv : servers s !! d = Some sv -> server_ok sv (pending d held) }.

Lemma mine_app cl a b : mine cl (a ++ b) = mine cl a ++ mine cl b.
Proof. apply filter_app. Qed.

Lemma mine_all cl (ts : list tag) : Forall (fun t => t.1.1 = cl) ts -> mine cl ts = ts.
Proof. induction 1; [done|]. unfold mine. rewrite filter_cons_True by done. by f_equal. Qed.

Lemma mine_none cl cl' (ts : list tag) : Forall (fun t => t.1.1 = cl) ts -> cl' <> cl -> mine cl' ts = [].
Proof. intros H Hne. induction H; [done|]. unfold mine. rewrite filter_cons_False by congruence. done. Qed.

(** A client takes [old] and sends [new]. *)
Lemma clients_move (cs : gmap (Z * Z) client) cl c c' (ts ts' old rest new : list tag) :
  (forall cl0 c0, cs !! cl0 = Some c0 -> client_ok cl0 c0 (mine cl0 ts)) -> cs !! cl = Some c ->
  ts ≡ₚ old ++ rest -> ts' ≡ₚ rest ++ new -> Forall (fun t => t.1.1 = cl) old -> Forall (fun t => t.1.1 = cl) new ->
  (client_ok cl c (old ++ mine cl rest) -> client_ok cl c' (mine cl rest ++ new)) ->
  forall cl0 c0, <[cl := c']> cs !! cl0 = Some c0 -> client_ok cl0 c0 (mine cl0 ts').
Proof.
  intros H Hc P P' Ho Hn Hk cl0 c0. destruct (decide (cl0 = cl)) as [->|Hne].
  - rewrite lookup_insert_eq. intros [= <-]. eapply client_ok_perm; [|apply Hk; eapply client_ok_perm; [|by apply H]].
    + unfold mine. rewrite P'. fold (mine cl (rest ++ new)). by rewrite mine_app, (mine_all _ _ Hn).
    + unfold mine at 1. rewrite P. fold (mine cl (old ++ rest)). by rewrite mine_app, (mine_all _ _ Ho).
  - rewrite lookup_insert_ne by done. intros Hl. eapply client_ok_perm; [|by apply H].
    unfold mine. rewrite P, P'. fold (mine cl0 (old ++ rest)) (mine cl0 (rest ++ new)).
    by rewrite !mine_app, (mine_none _ _ _ Ho Hne), (mine_none _ _ _ Hn Hne), app_nil_r.
Qed.

Lemma msgs_move (cs cs' : gmap (Z * Z) client) (ts ts' old rest new : list tag) :
  Forall (fun t : tag => is_Some (cs !! t.1.1) /\ 0 <= t.1.2 < coro) ts -> ts ≡ₚ old ++ rest -> ts' ≡ₚ rest ++ new ->
  (forall cl, is_Some (cs !! cl) -> is_Some (cs' !! cl)) ->
  Forall (fun t : tag => is_Some (cs' !! t.1.1) /\ 0 <= t.1.2 < coro) new ->
  Forall (fun t : tag => is_Some (cs' !! t.1.1) /\ 0 <= t.1.2 < coro) ts'.
Proof.
  intros H P P' Hc Hn. rewrite P'. rewrite P in H. apply Forall_app in H as [_ H]. apply Forall_app. split; [|done].
  eapply Forall_impl; [exact H|]. intros t [? ?]. eauto.
Qed.

Lemma insert_some (cs : gmap (Z * Z) client) cl c' cl0 : is_Some (cs !! cl0) -> is_Some (<[cl := c']> cs !! cl0).
Proof. intros. destruct (decide (cl0 = cl)) as [->|]; [rewrite lookup_insert_eq; eauto|by rewrite lookup_insert_ne]. Qed.

Lemma pending_split d (held : list request) : filter (fun r => dest r = d) held ++ filter (fun r => dest r <> d) held ≡ₚ held.
Proof. apply filter_app_complement. Qed.

Lemma start_step s held cl c i d1 d2 d3 : inv s held -> clients s !! cl = Some c -> 0 <= i < coro ->
  0 <= d1 -> 0 <= d2 -> 0 <= d3 < 100 ->
  exists c' out, try_start FLAGS_first FLAGS_second cl.1 cl.2 c i d1 d2 d3 = Done (c', out) /\
    inv (mkSys (<[cl := c']> (clients s)) (servers s) (net s ++ out) (replies s)) held.
Proof.
  intros [H1 H2 H3 H4 H5 H6] Hc Hi Hd1 Hd2 Hd3. pose proof (H1 _ _ Hc) as Hok. unfold try_start.
  destruct (zget_is_Some (stages c) i ltac:(rewrite (c_stages _ _ _ Hok); lia)) as [st E].
  rewrite (load_in_range _ _ _ E), obind_done. destruct (bool_decide (st = Free) && (bg_cnt c <? kMaxQPSize)) eqn:Hb.
  - apply andb_true_iff in Hb as [->%bool_decide_eq_true Hb%Z.ltb_lt].
    destruct (start_new cl c _ i d1 d2 d3 Hok E Hb Hd1 Hd2 Hd3) as (c' & r & -> & Hg & Ht & Hok').
    exists c', [r]. split; [done|].
    assert (P : tags (mkSys (<[cl := c']> (clients s)) (servers s) (net s ++ [r]) (replies s)) held ≡ₚ tags s held ++ [(cl, i, 0)]).
    { unfold tags. cbn [net replies]. rewrite map_app. cbn [map]. change (req_tag r) with (tag_of (msg r)). rewrite Ht.
      rewrite <- !app_assoc. apply Permutation_app_head. by rewrite (Permutation_app_comm [_]), <- app_assoc. }
    split; cbn [clients servers net replies]; try done.
    + eapply (clients_move _ _ _ _ (tags s held) _ [] (tags s held) [(cl, i, 0)]); try done. by apply Forall_singleton.
    + eapply (msgs_move (clients s) _ (tags s held) _ [] (tags s held)); try done; [intros; by apply insert_some|].
      apply Forall_singleton. cbn. rewrite lookup_insert_eq. eauto.
    + rewrite Forall_app in *. split; [|by apply H3]. apply Forall_app. split; [by apply H3|by apply Forall_singleton].
  - exists c, []. split; [done|]. rewrite insert_id, app_nil_r by done. by destruct s.
Qed.
Lemma inv_same_tags cs sv n rp held sv' n' rp' held' :
  inv (mkSys cs sv n rp) held -> tags (mkSys cs sv' n' rp') held' ≡ₚ tags (mkSys cs sv n rp) held ->
  Forall good (n' ++ held') -> Forall (fun a => op a = kWriteReply) rp' ->
  (forall d, valid_dest d -> is_Some (sv' !! d)) ->
  (forall d s, sv' !! d = Some s -> server_ok s (pending d held')) ->
  inv (mkSys cs sv' n' rp') held'.
Proof.
  intros [H1 H2 H3 H4 H5 H6] P G R D S. split; try done; cbn in *.
  - intros cl c Hc. eapply client_ok_perm; [|by apply H1]. unfold mine. by rewrite P.
  - by rewrite P.
Qed.

Lemma pending_none d held : pending d (filter (fun r => dest r <> d) held) = [].
Proof.
  induction held as [|r held IH]; [done|]. rewrite filter_cons. case_decide; [|done].
  unfold pending. by rewrite filter_cons_False.
Qed.

Lemma pending_other d d' held held' : d' <> d -> filter (fun r => dest r <> d) held' = filter (fun r => dest r <> d) held ->
  pending d' held' = pending d' held.
Proof.
  intros Hne E. unfold pending. f_equal.
  assert (Hf : forall l : list request, filter (fun r => dest r = d') l = filter (fun r => dest r = d') (filter (fun r => dest r <> d) l)).
  { intros l. rewrite list_filter_filter_l; [done|]. intros r E' E''. congruence. }
  by rewrite (Hf held), (Hf held'), E.
Qed.

Lemma collect_step cs sv n1 r n2 rp held stale :
  inv (mkSys cs sv (n1 ++ r :: n2) rp) held ->
  exists s out s' held', sv !! dest r = Some s /\ collect FLAGS_batch FLAGS_index stale s (msg r) = Done (out, s') /\
    inv (mkSys cs (<[dest r := s']> sv) (n1 ++ n2) (rp ++ out)) held' /\
    (out <> [] -> zlen (pending (dest r) held) + 1 = FLAGS_batch).
Proof.
  intros HI. pose proof HI as [H1 H2 H3 H4 H5 H6]. cbn in *.
  assert (Hg : good r /\ Forall good (n1 ++ n2) /\ Forall good held).
  { rewrite !Forall_app in H3. destruct H3 as [[Ha [Hb Hc]%Forall_cons] Hd]. by rewrite Forall_app. }
  destruct Hg as (Hr & Hn & Hh). destruct (H5 _ (proj2 Hr)) as [s Hs]. pose proof (H6 _ _ Hs) as Hok.
  assert (Hpw : Forall write_req (pending (dest r) held)).
  { unfold pending. apply Forall_map. apply Forall_forall. intros x [_ Hx]%list_elem_of_filter. rewrite Forall_forall in Hh.
    apply (Hh x Hx). }
  destruct (collect_one stale s _ (msg r) Hok Hpw (proj1 Hr)) as (out & s' & Hcol & Hcase).
  exists s, out, s'. destruct Hcase as [(Hroom & -> & Hok')|(Hfull & Ht & Hok' & Ho)].
  - exists (held ++ [r]). split_and!; try done. rewrite app_nil_r. eapply inv_same_tags; [exact HI|..]; cbn; try done.
    + unfold tags. cbn [net replies]. rewrite !map_app. cbn [map]. rewrite <- !app_assoc. apply Permutation_app_head.
      cbn [app]. rewrite <- Permutation_middle. symmetry. apply Permutation_middle.
    + rewrite app_assoc. apply Forall_app. split; [by apply Forall_app|by apply Forall_singleton].
    + intros d Hd. destruct (decide (d = dest r)) as [->|]; [rewrite lookup_insert_eq; eauto|rewrite lookup_insert_ne by done; auto].
    + intros d s0. destruct (decide (d = dest r)) as [->|Hne].
      * rewrite lookup_insert_eq. intros [= <-]. unfold pending. rewrite filter_app, filter_cons_True, map_app by done. done.
      * rewrite lookup_insert_ne by done. intros Hd. rewrite (pending_other (dest r) d held); [by apply H6|done|].
        rewrite filter_app, filter_cons_False by (intros Hx; by apply Hx). by rewrite filter_nil, app_nil_r.
  - exists (filter (fun x => dest x <> dest r) held). split_and!; try done. eapply inv_same_tags; [exact HI|..]; cbn; try done.
    + unfold tags. cbn [net replies]. rewrite !map_app, Ht, !map_app. cbn [map].
      assert (P : map req_tag (filter (fun x => dest x = dest r) held) ++ map req_tag (filter (fun x => dest x <> dest r) held)
                  ≡ₚ map req_tag held) by (by rewrite <- map_app, pending_split).
      unfold pending. rewrite map_map. change (map (fun x => tag_of (msg x))) with (map req_tag).
      change (tag_of (msg r)) with (req_tag r). rewrite <- P.
      generalize (map req_tag n1), (map req_tag n2), (map req_tag (filter (fun x => dest x = dest r) held)),
        (map req_tag (filter (fun x => dest x <> dest r) held)), (map tag_of rp). intros N1 N2 D B C.
      rewrite <- !app_assoc. apply Permutation_app_head. cbn [app]. rewrite !(app_assoc N2), !(app_assoc (N2 ++ _)), !(app_assoc (_ ++ C)).
      rewrite <- Permutation_cons_append. constructor. rewrite <- !app_assoc. apply Permutation_app_head.
      rewrite (app_assoc B). apply Permutation_app_comm.
    + apply Forall_app. split; [done|]. apply Forall_forall. intros x [_ Hx]%list_elem_of_filter. rewrite Forall_forall in Hh. auto.
    + by apply Forall_app.
    + intros d Hd. destruct (decide (d = dest r)) as [->|]; [rewrite lookup_insert_eq; eauto|rewrite lookup_insert_ne by done; auto].
    + intros d s0. destruct (decide (d = dest r)) as [->|Hne].
      * rewrite lookup_insert_eq. intros [= <-]. by rewrite pending_none.
      * rewrite lookup_insert_ne by done. intros Hd. rewrite (pending_other (dest r) d held); [by apply H6|done|].
        rewrite list_filter_filter. apply list_filter_iff. tauto.
Qed.
Lemma reply_step cs sv n r1 m r2 held d1 d2 d3 :
  inv (mkSys cs sv n (r1 ++ m :: r2)) held ->
  exists c c' out, cs !! source m = Some c /\
    handle_reply order FLAGS_first FLAGS_second (src_s_id m) (src_t_id m) c m d1 d2 d3 = Done (c', out) /\
    inv (mkSys (<[source m := c']> cs) sv (n ++ out) (r1 ++ r2)) held /\
    (bg (tag_of m) = false -> exists st, zget (stages c) (src_c_id m) = Some st /\ awaited st = Some (dst_s_id m)).
Proof.
  intros [H1 H2 H3 H4 H5 H6]. cbn [clients servers net replies] in *.
  set (rest := map req_tag n ++ map req_tag held ++ map tag_of (r1 ++ r2)).
  assert (P : tags (mkSys cs sv n (r1 ++ m :: r2)) held ≡ₚ [tag_of m] ++ rest).
  { unfold tags, rest. cbn [net replies app]. rewrite !map_app. cbn [map].
    rewrite <- (Permutation_middle (map tag_of r1)), <- (Permutation_middle (map req_tag held)). symmetry. apply Permutation_middle. }
  assert (Hm : is_Some (cs !! source m) /\ 0 <= src_c_id m < coro).
  { rewrite P in H2. by apply Forall_cons in H2 as [? _]. }
  destruct Hm as [[c Hc] Hi].
  assert (Ho : op m = kWriteReply /\ Forall (fun a => op a = kWriteReply) (r1 ++ r2)).
  { apply Forall_app in H4 as [Ha [Hb Hd]%Forall_cons]. split; [done|]. by apply Forall_app. }
  assert (Hok : client_ok (source m) c (tag_of m :: mine (source m) rest)).
  { eapply client_ok_perm; [|by apply H1]. unfold mine. rewrite P. cbn [app]. by rewrite filter_cons_True. }
  destruct (reply_ok c _ m d1 d2 d3 Hok (proj1 Ho) Hi) as (c' & out & Hh & Hg & Hok' & Hsrc & Haw).
  exists c, c', out. split_and!; try done.
  assert (P' : tags (mkSys (<[source m:=c']> cs) sv (n ++ out) (r1 ++ r2)) held ≡ₚ rest ++ map req_tag out).
  { unfold tags, rest. cbn [net replies]. rewrite (map_app _ n), <- !app_assoc. apply Permutation_app_head.
    rewrite (Permutation_app_comm (map req_tag out)). by rewrite <- app_assoc. }
  split; cbn [clients servers net replies]; try done.
  - eapply (clients_move cs _ c c' (tags (mkSys cs sv n (r1 ++ m :: r2)) held) _ [tag_of m] rest (map req_tag out)); try done.
    + by apply Forall_singleton.
    + apply Forall_map. eapply Forall_impl; [exact Hsrc|]. by intros r [? _].
  - eapply (msgs_move cs _ (tags (mkSys cs sv n (r1 ++ m :: r2)) held) _ [tag_of m] rest); try done; [intros; by apply insert_some|].
    apply Forall_map. eapply Forall_impl; [exact Hsrc|]. intros r [Hs Hr]. cbn. rewrite Hs, Hr, lookup_insert_eq. eauto.
  - apply Forall_app in H3 as [Ha Hb]. rewrite !Forall_app. done.
  - by apply Ho.
Qed.

(** *** Reachable states *)
Record initial (s : system) : Prop := {
  in_net : net s = [];
  in_replies : replies s = [];
  in_clients cl c : clients s !! cl = Some c -> exists xs, client_prepare coro xs = Done c /\
    zlen xs = kMaxClientReq /\ Forall (fun x => ckey x <> 2 ^ 64 - 1) xs;
  in_dom d : valid_dest d -> is_Some (servers s !! d);
  in_servers d sv : servers s !! d = Some sv ->
    zlen (req_ptr sv) = FLAGS_batch /\ zlen (req sv) = FLAGS_batch /\ batch_cnt sv = 0 }.

Lemma zget_free (A : Type) n (x y : A) i : zget (replicate n x) i = Some y -> y = x.
Proof. unfold zget. case_decide; [|done]. intros E. by apply lookup_replicate in E as [-> _]. Qed.

Lemma firsts_replicate n : firsts (replicate n Free) = 0.
Proof. unfold firsts. induction n as [|n IH]; [done|]. cbn [replicate]. by rewrite filter_cons_False. Qed.

Lemma initial_sinv s : initial s -> inv s [].
Proof.
  intros [Hn Hr Hc Hd Hs]. split; unfold tags; rewrite ?Hn, ?Hr; cbn; try done.
  - intros cl c (xs & Hp & Hx & Hk)%Hc. unfold client_prepare in Hp. rewrite (proj2 (Z.leb_le _ _)) in Hp by lia.
    injection Hp as <-. rewrite Z.min_l by lia.
    split; cbn [ctxs stages bg_cnt]; try done.
    + unfold zlen. rewrite length_replicate. lia.
    + intros i x E%zget_free. done.
    + intros i d _. split; [by intros ?%elem_of_nil|]. intros (st & E%zget_free & Ha). by subst.
    + constructor.
    + rewrite firsts_replicate. unfold kMaxQPSize. lia.
  - intros d sv (H1 & H2 & H3)%Hs. split; try done; unfold pending; cbn.
    + unfold zlen. cbn. lia.
    + unfold zlen. cbn. lia.
    + intros i m Hx%zget_Some_range. unfold zlen in Hx. cbn in Hx. lia.
Qed.

Lemma step_inv s s' held : inv s held -> step s s' -> exists held', inv s' held'.
Proof.
  intros HI Hs. destruct Hs as [cs sv n rp cl c i d1 d2 d3 c' out Hc Hi H1 H2 H3 Ht|cs sv n1 r n2 rp s stale out s' Hs Hcol
    |cs sv n r1 m r2 c d1 d2 d3 c' out Hc H1 H2 H3 Hh].
  - destruct (start_step _ _ _ _ _ _ _ _ HI Hc Hi H1 H2 H3) as (c1 & out1 & E & HI'). rewrite E in Ht. injection Ht as -> ->. eauto.
  - destruct (collect_step _ _ _ _ _ _ _ stale HI) as (s1 & out1 & s1' & held' & E1 & E2 & HI' & _).
    rewrite Hs in E1. injection E1 as <-. rewrite E2 in Hcol. injection Hcol as -> ->. eauto.
  - destruct (reply_step _ _ _ _ _ _ _ d1 d2 d3 HI) as (c1 & c1' & out1 & E1 & E2 & HI' & _).
    rewrite Hc in E1. injection E1 as <-. rewrite E2 in Hh. injection Hh as -> ->. eauto.
Qed.

Lemma reachable_sinv s0 s : initial s0 -> reachable s0 s -> exists held, inv s held.
Proof.
  intros H0 Hr. induction Hr as [|s s' _ [held IH] Hs]; [by exists []; apply initial_sinv|by eapply step_inv].
Qed.


(** C16. The background requests of a client are bounded, but not by the kMaxQPSize the code checks:
    each coroutine that started below the bound can add one. *)
Theorem background_bounded s0 s cl c : initial s0 -> reachable s0 s -> clients s !! cl = Some c ->
  0 <= bg_cnt c <= kMaxQPSize - 1 + coro.
Proof.
  intros H0 Hr Hc. destruct (reachable_sinv _ _ H0 Hr) as [held HI]. pose proof (i_clients _ _ HI _ _ Hc) as Hok.
  pose proof (c_bound _ _ _ Hok). pose proof (firsts_nonneg (stages c)). rewrite (c_bg _ _ _ Hok) in *.
  pose proof (zlen_nonneg (filter (fun t => bg t = true) (mine cl (tags s held)))). lia.
Qed.
(** *** Batches that never fill *)
Lemma NoDup_mine (ts : list tag) : (forall t, t ∈ ts -> NoDup (map fst (mine t.1.1 ts))) -> NoDup (map fst ts).
Proof.
  induction ts as [|t ts IH]; intros H; [constructor|]. cbn [map]. constructor.
  - intros (u & E & Hu)%list_elem_of_In%in_map_iff. apply list_elem_of_In in Hu.
    specialize (H t ltac:(left)). unfold mine in H. rewrite filter_cons_True in H by done. cbn [map] in H. apply NoDup_cons in H as [H _].
    apply H. rewrite <- E. apply list_elem_of_In, in_map, list_elem_of_In, list_elem_of_filter. split; [by rewrite E|done].
  - apply IH. intros u Hu. specialize (H u ltac:(by right)). unfold mine in H |- *. rewrite filter_cons in H.
    case_decide; [|done]. cbn [map] in H. by apply NoDup_cons in H as [_ H].
Qed.

(** Without background requests a coroutine has at most one message under way. *)
Lemma one_each cl c l : order <> NOrder -> client_ok cl c l -> Forall (fun t => t.1.1 = cl) l -> NoDup (map fst l).
Proof.
  intros Ho Hok Hl. assert (Hb : forall t, bg t = false) by (intros t; unfold bg; by rewrite bool_decide_eq_false_2).
  pose proof (c_nodup _ _ _ Hok) as Hn.
  assert (E : filter (fun t => bg t = false) l = l).
  { clear -Hb. induction l as [|t l IH]; [done|]. rewrite filter_cons_True by done. by rewrite IH. }
  rewrite E in Hn. pose proof (c_fg _ _ _ Hok) as Hfg.
  assert (Hd : forall t u, t ∈ l -> u ∈ l -> t.1 = u.1 -> t = u).
  { intros [[cl1 i] d] [[cl2 j] d'] Ht Hu [= <- <-]. rewrite Forall_forall in Hl. pose proof (Hl _ Ht) as E1. cbn in E1. subst cl1.
    apply Hfg in Ht as (st & S1 & A1); [|done]. apply Hfg in Hu as (st' & S2 & A2); [|done]. congruence. }
  clear -Hn Hd. induction l as [|t l IH]; [constructor|]. apply NoDup_cons in Hn as [Hni Hn]. cbn [map]. constructor.
  - intros (u & E & Hu)%list_elem_of_In%in_map_iff. apply list_elem_of_In in Hu. apply Hni.
    rewrite (Hd t u); [done|left|by right|done].
  - apply IH; [done|]. intros a b Ha Hb'. apply Hd; by right.
Qed.

Lemma under_way s held : order <> NOrder -> inv s held -> zlen (tags s held) <= Z.of_nat (size (clients s)) * coro.
Proof.
  intros Ho HI. pose proof (i_msgs _ _ HI) as Hm.
  assert (Hn : NoDup (map fst (tags s held))).
  { apply NoDup_mine. intros t Ht. rewrite Forall_forall in Hm. destruct (Hm t Ht) as [[c Hc] _].
    eapply one_each; [done|by apply (i_clients _ _ HI)|]. apply Forall_forall. by intros u [? _]%list_elem_of_filter. }
  assert (Hs : map fst (tags s held) ⊆+ list_prod (map fst (map_to_list (clients s))) (seqZ 0 coro)).
  { apply NoDup_submseteq; [done|]. intros [cl i] (t & E & Ht)%list_elem_of_In%in_map_iff. apply list_elem_of_In in Ht.
    rewrite Forall_forall in Hm. destruct (Hm t Ht) as [[c Hc] Hi]. rewrite E in Hc, Hi. cbn in Hc, Hi.
    apply list_elem_of_In, in_prod.
    - apply (in_map fst _ (cl, c)), list_elem_of_In, elem_of_map_to_list. done.
    - apply list_elem_of_In, elem_of_seqZ. lia. }
  apply submseteq_length in Hs. rewrite length_map, prod_length, length_map, length_seqZ, length_map_to_list in Hs.
  apply Nat2Z.inj_le in Hs. rewrite Nat2Z.inj_mul, Z2Nat.id in Hs by lia. exact Hs.
Qed.

Lemma step_size s s' : step s s' -> size (clients s') = size (clients s).
Proof. intros Hs. destruct Hs as [? ? ? ? ? c|?|? ? ? ? ? ? c]; cbn; [|done|]; rewrite map_size_insert_Some; eauto. Qed.

(** A step of a system in which nothing can be answered. *)
Lemma starving_step s s' held : order <> NOrder -> inv s held -> replies s = [] -> step s s' ->
  Z.of_nat (size (clients s)) * coro < FLAGS_batch ->
  replies s' = [] /\ forall cl c i, clients s !! cl = Some c -> zget (stages c) i = Some First ->
    exists c', clients s' !! cl = Some c' /\ zget (stages c') i = Some First.
Proof.
  intros Ho HI Hr Hs Hsz. destruct Hs as [cs sv n rp cl c i d1 d2 d3 c' out Hc Hi H1 H2 H3 Ht|cs sv n1 r n2 rp s stale out s' Hs Hcol
    |cs sv n r1 m r2 c d1 d2 d3 c' out Hc H1 H2 H3 Hh]; cbn in *.
  - split; [done|]. intros cl0 c0 j Hc0 Hj. destruct (decide (cl0 = cl)) as [->|]; [|rewrite lookup_insert_ne by done; eauto].
    rewrite lookup_insert_eq. exists c'. split; [done|]. rewrite Hc in Hc0. injection Hc0 as <-. unfold try_start in Ht.
    apply obind_inv in Ht as (st & E & Ht). unfold load in E. destruct (zget (stages c) i) as [st0|] eqn:Ei; [|done]. injection E as ->.
    destruct (bool_decide (st = Free) && _) eqn:Hb; [|by injection Ht as <- _].
    apply andb_true_iff in Hb as [->%bool_decide_eq_true _]. unfold start in Ht.
    apply obind_inv in Ht as (x & _ & Ht). apply obind_inv in Ht as (xs & _ & Ht).
    apply obind_inv in Ht as (ss & Hss & Ht). injection Ht as <- _. cbn. unfold store in Hss. case_decide; [|done]. injection Hss as <-.
    rewrite zget_zset_ne by congruence. done.
  - subst rp. split; [|eauto]. destruct out as [|a out]; [done|].
    destruct (collect_step _ _ _ _ _ _ _ stale HI) as (s1 & out1 & s1' & held' & E1 & E2 & _ & Hout).
    rewrite Hs in E1. injection E1 as <-. rewrite E2 in Hcol. injection Hcol as -> ->. specialize (Hout ltac:(done)).
    pose proof (under_way _ _ Ho HI) as Hu. unfold tags in Hu. cbn [net replies clients] in Hu.
    pose proof (length_filter (fun x => dest x = dest r) held) as Hf. unfold pending, zlen in *.
    rewrite !length_app, !length_map, length_app in Hu. rewrite length_map in Hout. cbn [length] in Hu. lia.
  - by destruct r1.
Qed.

Lemma reachable_trans s0 s s' : reachable s0 s -> reachable s s' -> reachable s0 s'.
Proof. intros H H'. induction H' as [|s1 s2 _ IH Hst]; [done|]. by eapply reach_step. Qed.

Lemma reach_first s0 s1 s : step s0 s1 -> reachable s1 s -> reachable s0 s.
Proof. intros H. apply reachable_trans. by eapply reach_step; [apply reach_here|]. Qed.

Lemma starving s0 s : order <> NOrder -> initial s0 -> Z.of_nat (size (clients s0)) * coro < FLAGS_batch ->
  reachable s0 s -> replies s = [] /\ size (clients s) = size (clients s0) /\ exists held, inv s held.
Proof.
  intros Ho H0 Hsz Hr. induction Hr as [|s1 s2 _ (IHr & IHs & held & HI) Hst].
  - split; [by apply in_replies|]. split; [done|]. exists []. by apply initial_sinv.
  - destruct (starving_step _ _ _ Ho HI IHr Hst ltac:(by rewrite IHs)) as [? _].
    split; [done|]. split; [by rewrite (step_size _ _ Hst)|by eapply step_inv].
Qed.

(** C15. With more requests to a batch than there are coroutines, nothing is ever answered: no reply is
    sent, and a coroutine that has sent its request waits for ever.  The default of 1024
    requests of batch_Index_moti.cc is more than the 480 coroutines of its five clients. *)
Theorem large_batch_starves s0 s s' : order <> NOrder -> initial s0 ->
  Z.of_nat (size (clients s0)) * coro < FLAGS_batch -> reachable s0 s -> reachable s s' ->
  replies s' = [] /\ forall cl c i, clients s !! cl = Some c -> zget (stages c) i = Some First ->
    exists c', clients s' !! cl = Some c' /\ zget (stages c') i = Some First.
Proof.
  intros Ho H0 Hsz Hr Hr'. split; [by destruct (starving _ _ Ho H0 Hsz (reachable_trans _ _ _ Hr Hr'))|].
  induction Hr' as [|s1 s2 Hr1 IH Hst]; [eauto|]. intros cl c i Hc Hi. destruct (IH cl c i Hc Hi) as (c1 & Hc1 & Hi1).
  destruct (starving _ _ Ho H0 Hsz (reachable_trans _ _ _ Hr Hr1)) as (Hrep & Hsize & held & HI).
  destruct (starving_step _ _ _ Ho HI Hrep Hst ltac:(by rewrite Hsize)) as [_ Hkeep]. by apply (Hkeep cl c1 i).
Qed.
End system.

(** ** Runs *)
Definition blank : RawKvMsg := mkMsg 0 0 0 0 0 0 0 0 0.
Definition sample_client (n : nat) : client := mkClient (replicate 8 (mkCtx 0 5 6 0 0 0 0 false)) (replicate n Free) 0.
Definition sample_server (b : nat) : server := mkServer (replicate b 0) (replicate b blank) 0.
Definition sample (n b : nat) : system :=
  mkSys {[(2, 7) := sample_client n]} {[(0, 0) := sample_server b; (1, 0) := sample_server b]} [] [].

Lemma sample_initial (n b : nat) : (0 < n <= 8)%nat -> initial (Z.of_nat b) 1 1 (Z.of_nat n) (sample n b).
Proof.
  intros Hn. split; try done.
  - cbn. intros cl c Hc. apply lookup_singleton_Some in Hc as [<- <-]. exists (replicate 8 (mkCtx 0 5 6 0 0 0 0 false)). split; [|split; [done|apply Forall_replicate; cbn; lia]].
    unfold client_prepare, kMaxClientReq. rewrite (proj2 (Z.leb_le _ _)) by lia. by rewrite Z.min_l, Nat2Z.id by lia.
  - intros [s t] [[E Ht]|[E Ht]]; cbn in E, Ht; assert (t = 0) as -> by lia; subst; eexists; reflexivity.
  - intros d sv Hd. cbn in Hd.
    assert (sv = sample_server b) as ->.
    { apply lookup_insert_Some in Hd as [[_ <-]|[_ [_ <-]%lookup_singleton_Some]]; done. }
    cbn. unfold zlen. by rewrite !length_replicate.
Qed.

Ltac next_step := eapply reach_first; [first
  [eapply (s_reply _ _ _ _ _ _ _ _ _ [] _ [] _ 3 4 5); [reflexivity|lia..|vm_compute; reflexivity]
  |eapply (s_collect _ _ _ _ _ _ _ _ [] _ [] _ _ (fun _ => blank)); [reflexivity|vm_compute; reflexivity]
  |eapply (s_start _ _ _ _ _ _ _ _ _ _ (2, 7) _ 0 3 4 5); [reflexivity|lia..|vm_compute; reflexivity]]|].

(** A request is answered by the first server and the second one is under way. *)
Lemma short_run : exists s, reachable NOrder 1 IndexTree 1 1 1 (sample 1 1) s /\
  option_map bg_cnt (clients s !! (2, 7)) = Some 1 /\ length (net s) = 1%nat.
Proof. eexists. split; [do 3 next_step; apply reach_here|]. vm_compute. done. Qed.


Lemma background_bounded_witness :
  exists s c, reachable NOrder 1 IndexTree 1 1 1 (sample 1 1) s /\ clients s !! (2, 7) = Some c /\ bg_cnt c = 1 /\
    0 <= bg_cnt c <= kMaxQPSize - 1 + 1.
Proof.
  destruct short_run as (s & Hr & Hb & _). destruct (clients s !! (2, 7)) as [c|] eqn:Hc; [|discriminate].
  exists s, c. injection Hb as Hb. split; [exact Hr|]. split; [exact Hc|]. split; [exact Hb|].
  exact (background_bounded NOrder 1 IndexTree 1 1 1 ltac:(lia) ltac:(lia) ltac:(unfold kMaxClientReq; lia)
    (sample 1 1) s (2, 7) c (sample_initial 1 1 ltac:(lia)) Hr Hc).
Defined.

(** The bound is reached when all coroutines start with 63 background requests. *)
Example background_reaches :
  foldr (fun i c => match handle_reply NOrder 1 1 2 7 c (mkMsg 0 2 7 i 0 kWriteReply i 5 6) 0 0 0 with Done (c, _) => c | _ => c end)
    (mkClient (replicate 8 (mkCtx kWriteReq 5 6 0 0 1 0 true)) (replicate 8 First) 63) (seqZ 0 8) =
  mkClient (replicate 8 (mkCtx kWriteReq 5 6 0 0 1 0 false)) (replicate 8 Free) 71.
Proof. reflexivity. Qed.

(** One coroutine and batches of two requests. *)
Lemma starved_run : exists s, reachable One 2 IndexTree 1 1 1 (sample 1 2) s /\
  (fun c => zget (stages c) 0) <$> (clients s !! (2, 7)) = Some (Some First) /\ net s = [].
Proof. eexists. split; [do 2 next_step; apply reach_here|]. vm_compute. done. Qed.

Lemma large_batch_starves_witness :
  exists s, reachable One 2 IndexTree 1 1 1 (sample 1 2) s /\ forall s', reachable One 2 IndexTree 1 1 1 s s' ->
    replies s' = [] /\ exists c', clients s' !! (2, 7) = Some c' /\ zget (stages c') 0 = Some First.
Proof.
  destruct starved_run as (s & Hr & Hf & _). exists s. split; [exact Hr|]. intros s' Hr'.
  destruct (clients s !! (2, 7)) as [c|] eqn:Hc; [|discriminate]. injection Hf as Hf.
  destruct (large_batch_starves One 2 IndexTree 1 1 1 ltac:(lia) ltac:(lia) ltac:(unfold kMaxClientReq; lia)
    (sample 1 2) s s' ltac:(discriminate) (sample_initial 1 2 ltac:(lia)) ltac:(vm_compute; reflexivity) Hr Hr') as [E H].
  split; [exact E|]. exact (H (2, 7) c 0 Hc Hf).
Defined.

(** A first request of the greatest key is taken for a repeated one: batch_process reads
    before the array.  The keys of no_order.cc are never set. *)
Example greatest_key_fails :
  collect 1 IndexTree (fun _ => blank) (sample_server 1) (mkMsg 0 2 7 0 0 kWriteReq 0 (2 ^ 64 - 1) 6) = Fault OutOfBounds.
Proof. reflexivity. Qed.

(** A repeated read is answered with the value its own request carried. *)
Lemma repeated_read_echoes idx req reply last : op req = kReadReq ->
  exists r req', server_process_msg idx req reply (Some last) = Done (r, req') /\ value r = value req.
Proof. intros Ho. unfold server_process_msg. rewrite Ho. eexists _, _. split; [reflexivity|done]. Qed.

(** A first read uses an index that server_prepare never made. *)
Lemma first_read_fails req reply : op req = kReadReq -> server_process_msg IndexTree req reply None = Fault NullDeref.
Proof. intros Ho. unfold server_process_msg. by rewrite Ho. Qed.

Example many_coroutines_fail xs : client_prepare 9 xs = Fault OutOfBounds.
Proof. reflexivity. Qed.
End NoOrder.
