(* ===== verification/KvLoopModel.v ===== *)
(** * The client threads of the key-value store

    Module [KvLoop]: run_client_CPC of rpc/rpc.h with the coroutines of kv.cc:
    cworker_new_request with its flow control, kv_test, client_get_cid and
    after_process_reply as an application of [RpcClient].  [lsys] puts such threads
    around the switch and the nodes of [KvSystem]: a turn of a client thread is one
    step.  Every run is one of [KvSystem], so the store is linearizable with the
    scheduling of the loop, and no turn fails. *)

From S2P Require Import Prelude KvMessageModel KvServerModel KvClientModel SwitchModel VisibilityModel RpcClientModel KvSystemModel.
Import KvMessage.

Module KvLoop.
Import RpcClient KvSystem.

(** ** The application *)

(** What the workload generators and the send buffer hold when a coroutine starts or
    goes on: the position of the key in key_space, the number put in KvCtx::key when
    FLAGS_zipf is not above 0.992, the position in test_type, the buffer. *)
Record draw := mkDraw { d_sample : Z; d_key : Z; d_op : Z; d_buf : RawKvMsg }.

(** struct KvRpc; [history] is what the statements observe: the invocations and the
    returns of the operations. *)
Record app_state := mkApp {
  kv_ctx : list KvClient.KvCtx;
  index_buf_cnt : list Z;
  waiting : list bool;
  draws : nat;
  posted : list RawKvMsg;
  history : list kevent }.

(** On its stack a coroutine keeps where kv_test waits, or the index_tid of
    cworker_new_request while check_req_cnt waits. *)
Inductive frame := Test (p : KvClient.phase) | Ask (index_tid : Z).

Notation thread := (RpcClient.thread app_state RawKvMsg).
Notation client := (RpcClient.client app_state frame RawKvMsg).

Definition with_ctx (a : app_state) (xs : list KvClient.KvCtx) : app_state :=
  mkApp xs (index_buf_cnt a) (waiting a) (draws a) (posted a) (history a).
Definition with_cnt (a : app_state) (l : list Z) : app_state :=
  mkApp (kv_ctx a) l (waiting a) (draws a) (posted a) (history a).
Definition with_waiting (a : app_state) (l : list bool) : app_state :=
  mkApp (kv_ctx a) (index_buf_cnt a) l (draws a) (posted a) (history a).
Definition with_draws (a : app_state) (n : nat) : app_state :=
  mkApp (kv_ctx a) (index_buf_cnt a) (waiting a) n (posted a) (history a).
Definition post (a : app_state) (m : RawKvMsg) : app_state :=
  mkApp (kv_ctx a) (index_buf_cnt a) (waiting a) (draws a) (posted a ++ [m]) (history a).
Definition record_event (a : app_state) (e : option kevent) : app_state :=
  mkApp (kv_ctx a) (index_buf_cnt a) (waiting a) (draws a) (posted a) (history a ++ option_list e).

Section app.
Context (cl : KvClient.client) (FLAGS_zipf_high : bool).
Context (key_space : list Z) (test_types : list TestType) (draws_of : nat -> draw).
Notation f := (KvClient.cflags cl).

Definition this_coroutine (coro_id : Z) : cid := (KvClient.server_id cl, KvClient.thread_id cl, coro_id).

(** kv_test up to its next suspension, or its end. *)
Definition settle (a : app_state) (coro_id : Z) (g : KvClient.progress) : outcome (app_state * option frame) :=
  match g with
  | KvClient.Waiting x p r =>
      let! xs := store (kv_ctx a) coro_id x in
      Done (post (with_ctx a xs) (KvClient.rmsg r), Some (Test p))
  | KvClient.Finished x _ | KvClient.Skipped x =>
      let! xs := store (kv_ctx a) coro_id x in Done (with_ctx a xs, None)
  end.

Definition kv_test (a : app_state) (coro_id : Z) (d : draw) : outcome (app_state * option frame) :=
  let! x := load (kv_ctx a) coro_id in
  let! ty := load test_types (d_op d) in
  let! g := KvClient.kv_test_start cl x ty (d_buf d) in
  settle (record_event a (read_or_write ty (this_coroutine coro_id) (KvClient.long_key x))) coro_id g.

(** The key of a new request. *)
Definition choose_key (x : KvClient.KvCtx) (k : Z) (d : draw) : KvClient.KvCtx :=
  KvClient.mkCtx (KvClient.test x) (KvClient.coro x)
    (if FLAGS_zipf_high then KvClient.ckey x else wrap 64 (d_key d + 1))
    (KvClient.data_s_id x) (KvClient.index_s_id x) (KvClient.cmagic x) k (KvClient.clog_id x)
    (KvClient.index_in_switch x) (KvClient.read_ok x) (KvClient.ctimestamp x).

Definition cworker_new_request (t : thread) (coro_id : Z) : outcome (thread * option frame) :=
  let a := app t in
  let d := draws_of (draws a) in
  let a := with_draws a (S (draws a)) in
  let! k := load key_space (d_sample d) in
  let! x := load (kv_ctx a) coro_id in
  let x := choose_key x k d in
  let! xs := store (kv_ctx a) coro_id x in
  let a := with_ctx a xs in
  let index_tid := get_index_thread_id f (get_switch_key (KvClient.long_key x)) in
  let! adm := KvClient.cworker_admit cl (index_buf_cnt a) (waiting a) x in
  let! (a, r) := match adm with
                 | KvClient.Return => Done (a, None)
                 | KvClient.AskCount =>
                     let! w := store (waiting a) index_tid true in
                     Done (post (with_waiting a w) (KvClient.check_req_cnt_msg cl x (d_buf d)), Some (Ask index_tid))
                 | KvClient.Run => kv_test a coro_id d
                 end in
  Done (with_app t a, r).

(** What the end of an operation, or of its read of the index, is to an observer. *)
Definition returned (coro_id : Z) (p : KvClient.phase) (g : KvClient.progress) : option kevent :=
  match p, g with
  | KvClient.InGetValue, _ => None
  | _, KvClient.Finished x _ => Some (return_event (this_coroutine coro_id) x)
  | _, KvClient.Waiting x KvClient.InGetValue _ => Some (return_event (this_coroutine coro_id) x)
  | _, _ => None
  end.

(** From where the coroutine suspended, with the reply in msg_ptr. *)
Definition cworker_resume (t : thread) (coro_id : Z) (fr : frame) : outcome (thread * option frame) :=
  let a := app t in
  let! c := load (coro_ctx t) coro_id in
  match msg_ptr c with
  | None => Fault NullDeref
  | Some reply =>
      let! (a, r) := match fr with
                     | Ask index_tid =>
                         if msg_op reply =? kEnumReadSend then
                           let! w := store (waiting a) index_tid false in Done (with_waiting a w, None)
                         else Fault ProcessExit
                     | Test p =>
                         let! x := load (kv_ctx a) coro_id in
                         let! g := KvClient.kv_test_resume cl x p reply (d_buf (draws_of (draws a))) in
                         settle (record_event (with_draws a (S (draws a))) (returned coro_id p g)) coro_id g
                     end in
      Done (with_app t a, r)
  end.

(** int8_t client_get_cid *)
Definition client_get_cid (t : thread) (reply : RawKvMsg) : outcome (thread * Z) :=
  Done (t, signed 8 (src_c_id (rpc_header reply))).

Definition after_process_reply (c : client) (reply : RawKvMsg) (c_id : Z) : outcome client :=
  let! l := KvClient.after_process_reply cl (index_buf_cnt (app (th c))) reply in
  Done (with_th c (with_app (th c) (with_cnt (app (th c)) l))).

Definition kv_call (c : client) (i : Z) : outcome client := call_slave cworker_new_request cworker_resume c i.

(** A turn of run_client_CPC. *)
Definition kv_turn (c : client) (replies : list RawKvMsg) : outcome client :=
  turn cworker_new_request cworker_resume client_get_cid after_process_reply (FLAGS_coro_num f) c [] replies.

(** client_prepare: the counters and flags are cleared, the contexts numbered. *)
Definition number_ctx (n : Z) (xs : list KvClient.KvCtx) : list KvClient.KvCtx :=
  imap (fun i x => if Z.of_nat i <? n then
    KvClient.mkCtx (KvClient.test x) (wrap 8 (Z.of_nat i)) (KvClient.ckey x) (KvClient.data_s_id x)
      (KvClient.index_s_id x) (KvClient.cmagic x) (KvClient.long_key x) (KvClient.clog_id x)
      (KvClient.index_in_switch x) (KvClient.read_ok x) (KvClient.ctimestamp x) else x) xs.

Definition per_thread {A} (x : A) : list A := replicate (Z.to_nat KvClient.kConfigMaxThreadCnt) x.

Definition client_prepare (xs : list KvClient.KvCtx) : outcome app_state :=
  if FLAGS_coro_num f <=? zlen xs then
    Done (mkApp (number_ctx (FLAGS_coro_num f) xs) (per_thread 0) (per_thread false) 0 [] [])
  else Fault OutOfBounds.

Definition start_thread (xs : list KvClient.KvCtx) : outcome client :=
  let! a := client_prepare xs in spawn a (FLAGS_coro_num f).
End app.

(** ** Client threads, switch and nodes *)
Section system.
Context {I : Type} `{IndexLaws I}.
Context (f : flags) (val : list Z) (key_ok : Z -> Prop).
Context (FLAGS_zipf_high : bool) (key_space : list Z) (test_types : list TestType).
Context (draws_of : Z * Z -> nat -> draw).
Notation n_coro := (FLAGS_coro_num f).
Notation ksys := (ksys (I := I)).
Notation packets := (list (Visibility.place * RawKvMsg)).
Implicit Types (c : client) (kc : KvClient.client) (cl : Z * Z) (o : gmap cid (KvClient.KvCtx * KvClient.phase)) (n v : packets).

Definition client_thread (cl : Z * Z) : KvClient.client :=
  KvClient.mkClient f cl.1 cl.2 (KvClient.client_bitmap cl.1) val.

Notation new_request cl := (cworker_new_request (client_thread cl) FLAGS_zipf_high key_space test_types (draws_of cl)).
Notation resume cl := (cworker_resume (client_thread cl) (draws_of cl)).
Notation turn_of cl := (kv_turn (client_thread cl) FLAGS_zipf_high key_space test_types (draws_of cl)).

(** [lcl]: the client threads, by server and thread. *)
Record lsys := mkL {
  lsw : Switch.state;
  ldata : Z -> KvServer.node I;
  lindex : KvServer.node I;
  lnet : packets;
  lvals : packets;
  lcl : gmap (Z * Z) client }.

(** The same with its suspended coroutines as [KvSystem] knows them. *)
Definition view (L : lsys) (o : gmap cid (KvClient.KvCtx * KvClient.phase)) : ksys :=
  mkK (lsw L) (ldata L) (lindex L) (lnet L) (lvals L) o.

(** The replies a thread polls, in any order. *)
Inductive polls : packets * packets -> list RawKvMsg -> packets * packets -> Prop :=
  | polls_nil nv : polls nv [] nv
  | polls_net n v m n1 n2 ms nv :
      takes_msg n Visibility.ToClient m n1 n2 -> polls (n1 ++ n2, v) ms nv -> polls (n, v) (m :: ms) nv
  | polls_vals n v m v1 v2 ms nv :
      takes_msg v Visibility.ToClient m v1 v2 -> polls (n, v1 ++ v2) ms nv -> polls (n, v) (m :: ms) nv.

Definition is_value_request (m : RawKvMsg) : Prop := msg_op m = kEnumReadLog.
#[local] Instance is_value_request_dec m : Decision (is_value_request m).
Proof. unfold is_value_request. apply _. Defined.

Definition to_switch (m : RawKvMsg) : Visibility.place * RawKvMsg := (Visibility.ToSwitch, m).
Definition posted_net c : packets := map to_switch (filter (fun m => ~ is_value_request m) (posted (app (th c)))).
Definition posted_vals c : packets := map to_switch (filter is_value_request (posted (app (th c)))).

Definition sent_off c : client :=
  let a := app (th c) in
  with_th c (with_app (th c) (mkApp (kv_ctx a) (index_buf_cnt a) (waiting a) (draws a) [] [])).

Inductive lstep : lsys -> list kevent -> lsys -> Prop :=
  (* the switch or a node, whatever the coroutines are *)
  | l_nodes L w d ix n v :
      (forall o, kstep f val key_ok (view L o) None (mkK w d ix n v o)) ->
      lstep L [] (mkL w d ix n v (lcl L))
  (* a turn of a client thread *)
  | l_turn L cl c ms n v c' :
      lcl L !! cl = Some c -> polls (lnet L, lvals L) ms (n, v) -> (length ms <= 16)%nat ->
      Forall (fun m => (cid_of m).1 = cl) ms -> turn_of cl c ms = Done c' ->
      lstep L (history (app (th c')))
        (mkL (lsw L) (ldata L) (lindex L) (n ++ posted_net c') (v ++ posted_vals c') (<[cl := sent_off c']> (lcl L))).

Inductive lexec (L0 : lsys) : list kevent -> lsys -> Prop :=
  | lexec_here : lexec L0 [] L0
  | lexec_step tr L tr' L' : lexec L0 tr L -> lstep L tr' L' -> lexec L0 (tr ++ tr') L'.

(** Client threads before their loops, on servers that are clients. *)
Definition started (ts : gmap (Z * Z) client) : Prop :=
  forall cl c, ts !! cl = Some c -> is_client cl.1 /\ exists xs, start_thread (client_thread cl) xs = Done c.

Definition linitial (d : Z -> KvServer.node I) (ix : KvServer.node I) (ts : gmap (Z * Z) client) : lsys :=
  mkL Switch.init d ix [] [] ts.

(** *** Ports: the counter a reply updates *)
Hypothesis threads : 0 < FLAGS_mn_thread f <= 8.

Definition port_ok (m : RawKvMsg) : Prop :=
  exists t, 0 <= t < 8 /\ index_port m = toBigEndian16 (KvClient.get_thread_port t 0).

Lemma index_thread_small k : 0 <= get_index_thread_id f k < 8.
Proof.
  unfold get_index_thread_id. pose proof (Z.mod_pos_bound (wrap 32 k) (FLAGS_mn_thread f) ltac:(lia)).
  rewrite wrap_small by (unfold in_width; lia). lia.
Qed.

Lemma port_of_qp t x : KvClient.port_of t x = toBigEndian16 (KvClient.get_thread_port t 0).
Proof. unfold KvClient.port_of, KvClient.qp_of, KvClient.kConfigMaxQPCnt. by rewrite Z.mod_1_r. Qed.

Lemma port_ok_intro kc k x m :
  KvClient.cflags kc = f -> index_port m = KvClient.port_of (get_index_thread_id (KvClient.cflags kc) k) x -> port_ok m.
Proof. intros -> E. exists (get_index_thread_id f k). split; [apply index_thread_small|]. by rewrite E, port_of_qp. Qed.

Lemma requests_port kc x m r :
  KvClient.cflags kc = f ->
  port_ok (KvClient.rmsg (KvClient.put_index_req kc x m)) /\ port_ok (KvClient.rmsg (KvClient.get_value_req kc x m)) /\
  port_ok (KvClient.rmsg (KvClient.put_value_req kc x m)) /\
  (KvClient.get_index_req kc x m = Done r -> port_ok (KvClient.rmsg r)).
Proof.
  intros E. unfold KvClient.get_index_req, KvClient.put_index_req, KvClient.get_value_req, KvClient.put_value_req.
  unfold put_value, put_key, with_payload. cbn [KvClient.rmsg].
  assert (G := fun k m => port_ok_intro kc k x m E). split_and!.
  1,2: apply (G (get_switch_key (KvClient.long_key x))); by cbn [index_port].
  - apply (G (KvClient.long_key x)). by cbn [index_port].
  - intros (conf & _ & Hr)%obind_inv. injection Hr as <-. cbn [KvClient.rmsg].
    apply (G (get_switch_key (KvClient.long_key x))). by cbn [index_port].
Qed.

Lemma start_port kc x ty m x' p r :
  KvClient.cflags kc = f -> KvClient.kv_test_start kc x ty m = Done (KvClient.Waiting x' p r) -> port_ok (KvClient.rmsg r).
Proof.
  intros E. unfold KvClient.kv_test_start. set (y := KvClient.begin_op x ty). clearbody y.
  pose proof (fun r => requests_port kc y m r E) as G. destruct ty; try done.
  all: try (intros (r' & Hr & Hw)%obind_inv; injection Hw as <- <- <-; destruct (G r') as (_ & _ & _ & Gr); exact (Gr Hr)).
  all: intros Hw; injection Hw as <- <- <-; destruct (G (KvClient.mkReq 0 0 m)) as (Gi & _ & Gp & _); assumption.
Qed.

Lemma resume_port kc x p reply m x' p' r :
  KvClient.cflags kc = f -> KvClient.kv_test_resume kc x p reply m = Done (KvClient.Waiting x' p' r) -> port_ok (KvClient.rmsg r).
Proof.
  intros E. unfold KvClient.kv_test_resume.
  assert (G : forall y, port_ok (KvClient.rmsg (KvClient.put_index_req kc y m)) /\ port_ok (KvClient.rmsg (KvClient.get_value_req kc y m))).
  { intros y. destruct (requests_port kc y m (KvClient.mkReq 0 0 m) E) as (Gi & Gv & _). by split. }
  destruct p.
  - intros (x1 & _ & Hr)%obind_inv. case_decide; [done|]. destruct (_ =? _); [done|]. injection Hr as <- <- <-. apply (G x1).
  - by intros ([x1 bs] & _ & Hr)%obind_inv.
  - intros (x1 & _ & Hr)%obind_inv. destruct (_ && _); [done|]. injection Hr as <- <- <-. apply (G x1).
  - by intros (x1 & _ & Hr)%obind_inv.
Qed.

Lemma ingress_port w m w' vd : Switch.ingress w m = (w', vd) -> index_port (Switch.packet vd) = index_port m.
Proof.
  rewrite Switch.ingress_split. destruct (Switch.counter_table_fields w m) as (w1 & c & -> & _).
  unfold Switch.ingress_rest. set (m1 := with_send_cnt m c). change (index_port m) with (index_port m1). clearbody m1. clear c.
  destruct (flag m1 =? 2).
  - destruct (Switch.apply_visibility w1 m1) as [w2 k]. destruct (key m1 =? k).
    + unfold Switch.apply_logid. cbn [Switch.packet]. destruct (Switch.key2logid_table (msg_op m1)); cbn [Switch.packet];
        destruct (_ =? ReplySwitch); cbn [Switch.packet]; destruct (_ =? k); by intros [= _ <-].
    + cbn [Switch.packet]. destruct (_ =? ReplySwitch); cbn [Switch.packet]; destruct (_ =? k); by intros [= _ <-].
  - cbn [Switch.packet]. destruct (_ =? 0); by intros [= _ <-].
Qed.

Lemma serve_port tid (d : KvServer.node I) req stale r d' size :
  KvServer.serve f tid d req stale = Done (r, d', size) -> index_port r = index_port req.
Proof.
  unfold KvServer.serve, KvServer.server_process_msg. intros ([r0 n0] & Hp & Hs)%obind_inv.
  apply obind_inv in Hs as (conf & _ & [= <- _ _]). cbn [index_port KvServer.reply_epilogue].
  unfold KvServer.process_op, KvServer.get_long, KvServer.put_long in Hp. destruct (_ =? kEnumReadLog).
  { apply obind_inv in Hp as (bs & _ & Hp). by injection Hp as <- _. }
  destruct (_ =? kEnumAppendReq).
  { apply obind_inv in Hp as ([l kv'] & _ & Hp). apply obind_inv in Hp as ([ts tss'] & _ & Hp). by injection Hp as <- _. }
  destruct (_ =? kEnumReadIndexReq); [by destruct (mt_search _ _); injection Hp as <- _|].
  destruct (_ =? kEnumMultiCastPkt); [by injection Hp as <- _|].
  destruct (_ =? kEnumUpdateIndexReq); [by injection Hp as <- _|done].
Qed.

Lemma deliver_port vd : port_ok (Switch.packet vd) -> Forall (fun e => port_ok e.2) (deliver f vd).
Proof.
  intros Hp. unfold deliver. apply Forall_join, Forall_fmap, Forall_true. intros p. cbn.
  unfold arrives. repeat case_match; repeat (constructor; try done).
Qed.

Definition ports_ok (s : ksys) : Prop := Forall (fun e => port_ok e.2) (knet s) /\ Forall (fun e => port_ok e.2) (kvals s).

Lemma takes_ports n p m n1 n2 new : takes_msg n p m n1 n2 -> Forall (fun e => port_ok e.2) n ->
  (port_ok m -> Forall (fun e => port_ok e.2) new) -> Forall (fun e => port_ok e.2) (n1 ++ n2 ++ new).
Proof.
  intros [-> _] (H1 & H2)%Forall_app Hn. apply Forall_cons in H2 as [Hm H2]. rewrite !Forall_app. auto.
Qed.

Lemma takes_rest_ports n p m n1 n2 : takes_msg n p m n1 n2 -> Forall (fun e => port_ok e.2) n -> Forall (fun e => port_ok e.2) (n1 ++ n2).
Proof. intros Ht Hn. rewrite <- (app_nil_r n2). eapply takes_ports; [done..|constructor]. Qed.

Lemma same_port m m' : index_port m' = index_port m -> port_ok m -> port_ok m'.
Proof. intros E (t & Ht & Em). exists t. by rewrite E. Qed.

Lemma one_port p m : port_ok m -> Forall (fun e : Visibility.place * RawKvMsg => port_ok e.2) [(p, m)].
Proof. intros. by repeat constructor. Qed.

Lemma kstep_ports s e s' : kstep f val key_ok s e s' -> ports_ok s -> ports_ok s'.
Proof.
  assert (Hf : forall c : cid, KvClient.cflags (client_of f val c) = f) by by intros [[] ?].
  intros Hstep [Hn Hv]. destruct Hstep as [w d ix n v o s t co x0 ty ev buf x p r Ho Hc Hx Hk He Hst
    |w d ix n v o p m n1 n2 w' vd Ht Hb Hin|w d ix n v o m v1 v2 w' vd Ht Hin
    |w d ix n v o m n1 n2 tid stale r d' size Ht Htid Hs|w d ix n v o m v1 v2 tid stale r d' size Ht Htid Hs
    |w d ix n v o sk m n1 n2 tid stale r ix' size Ht Hs
    |w d ix n v o m n1 n2 x p buf x' p' r Ht Ho Hr Hp|w d ix n v o m n1 n2 x p buf x' r Ht Ho Hr
    |w d ix n v o m n1 n2 x p buf x' reply Ht Ho Hr|w d ix n v o m v1 v2 x p buf x' reply Ht Ho Hr]; cbn in Hn, Hv; split; cbn; try done.
  - apply Forall_app. split; [done|]. apply one_port. by eapply start_port; [apply Hf|].
  - eapply takes_ports; [done..|]. intros Hm. apply deliver_port. by eapply same_port; [eapply ingress_port|].
  - eapply takes_ports; [done..|]. intros Hm. apply deliver_port. by eapply same_port; [eapply ingress_port|].
  - eapply takes_ports; [done..|]. intros Hm. apply one_port. by eapply same_port; [eapply serve_port|].
  - eapply takes_ports; [done..|]. intros Hm. apply one_port. by eapply same_port; [eapply serve_port|].
  - eapply takes_ports; [done..|]. intros Hm. apply one_port. by eapply same_port; [eapply serve_port|].
  - eapply takes_ports; [done..|]. intros Hm. apply one_port. by eapply resume_port; [apply Hf|].
  - by eapply takes_rest_ports.
  - apply Forall_app. split; [done|]. apply one_port. by eapply resume_port; [apply Hf|].
  - by eapply takes_rest_ports.
  - by eapply takes_rest_ports.
Qed.

Lemma kexec_ports s tr s' : kexec f val key_ok s tr s' -> ports_ok s -> ports_ok s'.
Proof. induction 1; [done|]. intros. by eauto using kstep_ports. Qed.

(** The counter of a reply is filed above the entries that are read. *)
Lemma port_slot m : port_ok m -> 8 <= KvClient.buf_cnt_slot (index_port m) < KvClient.kConfigMaxThreadCnt.
Proof.
  intros (t & Ht & ->). unfold KvClient.buf_cnt_slot, KvClient.get_thread_port.
  rewrite KvClient.compute_port_value by (unfold KvClient.kConfigMaxThreadCnt; lia).
  rewrite toBigEndian16_invol by lia. rewrite Z.log2_mul_pow2 by lia.
  pose proof (Z.log2_nonneg (t + 1)). pose proof (Z.log2_lt_pow2 (t + 1) 4 ltac:(lia)). unfold KvClient.kConfigMaxThreadCnt. lia.
Qed.

(** *** What a client thread keeps of its coroutines *)
Definition slave_rel (fr : option frame) (cx : CoroCtx RawKvMsg) (x : KvClient.KvCtx)
    (e : option (KvClient.KvCtx * KvClient.phase)) : Prop :=
  match fr with
  | None => free cx = true /\ e = None
  | Some (Test p) => free cx = false /\ e = Some (x, p)
  | Some (Ask _) => False
  end.

Definition slave c i : option (option frame) := zget (coro_slave c) i.
Definition ctx c i : option (CoroCtx RawKvMsg) := zget (coro_ctx (th c)) i.
Definition kctx c i : option KvClient.KvCtx := zget (kv_ctx (app (th c))) i.

Record counters_ok (l : list Z) : Prop := {
  cn_len : zlen l = KvClient.kConfigMaxThreadCnt;
  cn_low t : 0 <= t < 8 -> zget l t = Some 0 }.

Record sized c : Prop := {
  sz_slave : zlen (coro_slave c) = n_coro;
  sz_ctx : zlen (coro_ctx (th c)) = kConfigCoroCnt;
  sz_kv : n_coro <= zlen (kv_ctx (app (th c)));
  sz_cnt : counters_ok (index_buf_cnt (app (th c))) }.

Definition cell c o cl i : Prop :=
  exists x cx fr, kctx c i = Some x /\ KvClient.coro x = i /\ ctx c i = Some cx /\ async_op_cnt cx = -1 /\
    slave c i = Some fr /\ slave_rel fr cx x (o !! (cl, i)).

Record loop_ok cl c o : Prop := {
  lo_client : is_client cl.1;
  lo_sized : sized c;
  lo_cell i : 0 <= i < n_coro -> cell c o cl i;
  lo_dom i : is_Some (o !! (cl, i)) -> 0 <= i < n_coro }.

Lemma started_frame c o c' o' cl i :
  slave c' i = slave c i -> ctx c' i = ctx c i -> kctx c' i = kctx c i -> o' !! (cl, i) = o !! (cl, i) ->
  cell c o cl i -> cell c' o' cl i.
Proof. intros Es Ec Ek Eo (x & cx & fr & ?). exists x, cx, fr. by rewrite Es, Ec, Ek, Eo. Qed.

(** One coroutine changes. *)
Lemma loop_ok_change cl c o c' o' i :
  loop_ok cl c o -> 0 <= i < n_coro -> sized c' -> cell c' o' cl i ->
  (forall j, j <> i -> slave c' j = slave c j /\ ctx c' j = ctx c j /\ kctx c' j = kctx c j) ->
  (forall j, j <> i -> o' !! (cl, j) = o !! (cl, j)) -> loop_ok cl c' o'.
Proof.
  intros [Hcl Hsz Hc Hd] Hi Hsz' Hcell Hf Ho. split; try done.
  - intros j Hj. destruct (decide (j = i)) as [->|Hne]; [done|]. destruct (Hf j Hne) as (?&?&?).
    apply (started_frame c o); auto.
  - intros j Hj. destruct (decide (j = i)) as [->|Hne]; [done|]. apply Hd. by rewrite <- Ho.
Qed.

Lemma load_stored {A} (l : list A) i x : 0 <= i < zlen l ->
  zget (zset l i x) i = Some x /\ forall j, j <> i -> zget (zset l i x) j = zget l j.
Proof. intros Hi. split; [by apply zget_zset_eq|]. intros j Hj. apply zget_zset_ne. congruence. Qed.

(** *** A new request *)
Hypothesis coros : 0 <= n_coro <= kConfigCoroCnt.
Hypothesis keys_in_use : Forall key_ok key_space.
Hypothesis operations : Forall (fun ty => ty = kEnumR \/ ty = kEnumRI \/ ty = kEnumW) test_types.
Hypothesis draws_ok : forall cl k, 0 <= d_sample (draws_of cl k) < zlen key_space /\ 0 <= d_op (draws_of cl k) < zlen test_types.

Lemma start_waits (id : cid) x ty m : is_client id.1.1 -> ty = kEnumR \/ ty = kEnumRI \/ ty = kEnumW ->
  exists x' p r ev, KvClient.kv_test_start (client_of f val id) x ty m = Done (KvClient.Waiting x' p r) /\
    read_or_write ty id (KvClient.long_key x) = Some ev /\ KvClient.coro x' = KvClient.coro x /\
    ~ is_value_request (KvClient.rmsg r).
Proof.
  intros Hcl Hty. destruct (client_config f _ Hcl) as [conf Hconf]. destruct id as [[s t] co]. cbn in Hconf.
  destruct Hty as [->|[->| ->]]; unfold KvClient.kv_test_start, KvClient.get_index_req; cbn [client_of KvClient.server_id KvClient.cflags];
    rewrite ?Hconf; cbn [of_option obind]; eexists _, _, _, _; (split; [reflexivity|]); by split_and!.
Qed.

Lemma admitted kc l w x : KvClient.cflags kc = f -> counters_ok l -> KvClient.cworker_admit kc l w x = Done KvClient.Run.
Proof.
  intros E [_ Hl]. unfold KvClient.cworker_admit. rewrite E.
  rewrite (load_in_range _ _ _ (Hl _ (index_thread_small _))). done.
Qed.

(** What a free coroutine does. *)
Lemma new_request_runs cl (t : thread) i x :
  is_client cl.1 -> counters_ok (index_buf_cnt (app t)) -> zget (kv_ctx (app t)) i = Some x ->
  exists k y ty x' p r ev a, new_request cl t i = Done (with_app t a, Some (Test p)) /\
    a = mkApp (zset (kv_ctx (app t)) i x') (index_buf_cnt (app t)) (waiting (app t)) (S (draws (app t)))
          (posted (app t) ++ [KvClient.rmsg r]) (history (app t) ++ [ev]) /\
    key_ok k /\ KvClient.long_key y = k /\ KvClient.coro y = KvClient.coro x /\ KvClient.coro x' = KvClient.coro x /\
    read_or_write ty (cl, i) k = Some ev /\ ~ is_value_request (KvClient.rmsg r) /\
    KvClient.kv_test_start (client_thread cl) y ty (d_buf (draws_of cl (draws (app t)))) = Done (KvClient.Waiting x' p r).
Proof.
  intros Hcl Hcnt Ex. pose proof (zget_Some_range _ _ _ Ex) as Hi.
  set (dr := draws_of cl (draws (app t))). destruct (draws_ok cl (draws (app t))) as [Hk Ht]. fold dr in Hk, Ht.
  destruct (zget_is_Some key_space _ Hk) as [k Ek]. destruct (zget_is_Some test_types _ Ht) as [ty Ety].
  set (y := choose_key FLAGS_zipf_high x k dr).
  destruct (start_waits (cl, i) y ty (d_buf dr) Hcl (Forall_zget _ _ _ _ operations Ety)) as (x' & p & r & ev & Est & Hev & Hco & Hnv).
  exists k, y, ty, x', p, r, ev, (mkApp (zset (kv_ctx (app t)) i x') (index_buf_cnt (app t)) (waiting (app t)) (S (draws (app t)))
          (posted (app t) ++ [KvClient.rmsg r]) (history (app t) ++ [ev])).
  assert (E : client_of f val (cl, i) = client_thread cl) by by destruct cl. rewrite E in Est.
  assert (Et : this_coroutine (client_thread cl) i = (cl, i)) by by destruct cl.
  unfold cworker_new_request. fold dr. rewrite (load_in_range _ _ _ Ek), obind_done. cbn [kv_ctx with_draws].
  rewrite (load_in_range _ _ _ Ex), obind_done, store_in_range, obind_done by done. fold y.
  rewrite (admitted (client_thread cl)) by done. rewrite obind_done. unfold kv_test. cbn [kv_ctx with_ctx with_draws].
  rewrite (load_in_range _ i y) by (by apply zget_zset_eq). rewrite obind_done, (load_in_range _ _ _ Ety), obind_done, Est, obind_done.
  cbn [settle]. cbn [kv_ctx record_event with_ctx]. rewrite store_in_range by (by rewrite zlen_zset). rewrite !obind_done.
  rewrite Et. change (KvClient.long_key y) with k in Hev |- *. rewrite Hev.
  rewrite zset_zset. split_and!; try done. by apply (Forall_zget _ _ _ _ keys_in_use Ek).
Qed.

(** *** A turn, coroutine by coroutine *)
Hypothesis visible : FLAGS_visibility f = true.
Hypothesis val_size : 0 <= FLAGS_kv_size_b f <= zlen val.
Hypothesis keys_64 : forall k, key_ok k -> in_width 64 k.
Hypothesis keys_distinct : forall k1 k2, key_ok k1 -> key_ok k2 ->
  get_switch_key k1 = get_switch_key k2 -> get_fingerprint k1 = get_fingerprint k2 -> k1 = k2.
Hypothesis log_space : FLAGS_logspace f <= FLAGS_keyspace f.
Hypothesis log_ids : FLAGS_dn_thread f * FLAGS_keyspace f <= 2 ^ 32.

(** The nodes and the map of the index at the start. *)
Context (d0 : Z -> KvServer.node I) (ix0 : KvServer.node I) (i0 : gmap Z Z).
Hypothesis index_0 : forall k, mt_search (KvServer.index ix0) k = i0 !! k.
Hypothesis logs_0 : forall k l, i0 !! k = Some l -> in_log f l.
Hypothesis nodes_0 : forall tid, KvServer.node_ok f (d0 tid).
Notation run := (kexec f val key_ok (kinitial d0 ix0)).

Lemma run_sim tr s : run tr s -> exists tr' a sp,
  Visibility.spec_exec (Visibility.mkSpec i0 ∅) tr' sp /\ tr = seen <$> tr' /\
  ksim f key_ok (in_log f) (KvServer.node_ok f) s a /\ Visibility.inv get_switch_key get_fingerprint key_ok a sp /\
  Visibility.co_owned a /\ fetching (kvals s) (kco s).
Proof.
  intros Hrun. eapply (reachable_attended f val key_ok (in_log f) (KvServer.node_ok f)); try done.
  - by intros l [].
  - intros tid n req stale r n' size. by apply (append_in_log f val).
Qed.

(** The coroutine of a polled reply goes on. *)
Lemma reply_finds tr s m p1 p2 :
  run tr s -> (takes_msg (knet s) Visibility.ToClient m p1 p2 \/ takes_msg (kvals s) Visibility.ToClient m p1 p2) ->
  exists x p, kco s !! cid_of m = Some (x, p) /\
    (forall buf, exists g, KvClient.kv_test_resume (client_of f val (cid_of m)) x p m buf = Done g) /\
    (takes_msg (knet s) Visibility.ToClient m p1 p2 -> p <> KvClient.InGetValue) /\
    (takes_msg (kvals s) Visibility.ToClient m p1 p2 -> p = KvClient.InGetValue).
Proof.
  intros Hrun Ht. destruct (run_sim _ _ Hrun) as (tr' & a & sp & _ & _ & Hs & Hinv & _).
  pose proof (ks_data _ _ _ _ _ _ Hs) as Hd.
  assert (Hh : handled f val s Visibility.ToClient m).
  { destruct Ht; [by eapply sim_handled|]. eapply value_handled; try done. by intros l []. }
  destruct Hh as (x & p & Ho & Hg). exists x, p. do 2 (split; [done|]). split; intros Ht'; [by eapply client_phase|].
  destruct (value_phase _ _ _ _ _ _ _ _ _ _ Hs Ht') as [y Hy]. rewrite Hy in Ho. by injection Ho as _ <-.
Qed.

Lemma reply_port tr s m p1 p2 : run tr s ->
  (takes_msg (knet s) Visibility.ToClient m p1 p2 \/ takes_msg (kvals s) Visibility.ToClient m p1 p2) -> port_ok m.
Proof.
  intros Hrun Ht. assert (ports_ok s) as [Hn Hv] by (eapply kexec_ports; [done|]; split; constructor).
  destruct Ht as [[E _]|[E _]]; rewrite E in *; [apply Forall_app in Hn as [_ [? _]%Forall_cons]|apply Forall_app in Hv as [_ [? _]%Forall_cons]]; done.
Qed.

Lemma kexec_snoc tr s e s' tr' : tr' = tr ++ option_list e -> run tr s -> kstep f val key_ok s e s' -> run tr' s'.
Proof.
  intros -> Hrun Hs. induction Hrun as [s|s e' s1 tr s2 H1 _ IH].
  - rewrite app_nil_l, <- (app_nil_r (option_list e)). econstructor; [done|constructor].
  - rewrite <- app_assoc. econstructor; eauto.
Qed.

Definition in_turn (L : lsys) (tr : list kevent) o0 cl (nv : packets * packets) c : Prop :=
  exists o, run (tr ++ history (app (th c)))
      (mkK (lsw L) (ldata L) (lindex L) (nv.1 ++ posted_net c) (nv.2 ++ posted_vals c) o) /\
    loop_ok cl c o /\ forall id, id.1 <> cl -> o !! id = o0 !! id.

Lemma start_one L tr o0 cl nv c i : in_turn L tr o0 cl nv c -> 0 <= i < n_coro ->
  (exists cx, ctx c i = Some cx /\ free cx = true) ->
  exists c', kv_call (client_thread cl) FLAGS_zipf_high key_space test_types (draws_of cl) c i = Done c' /\ in_turn L tr o0 cl nv c'.
Proof.
  destruct cl as [sv tid]. intros (o & Hrun & Hok & Ho) Hi (cx & Ecx & Hfree). pose proof Hok as [Hcl [S1 S2 S3 S4] Hc _].
  destruct (Hc i Hi) as (x & cx' & fr & Ex & Hco & Ecx' & Ha & Efr & Hrel). rewrite Ecx in Ecx'. injection Ecx' as <-.
  assert (fr = None) as -> by (destruct fr as [[]|]; simpl in Hrel; [destruct Hrel; congruence|done|done]).
  destruct Hrel as [_ Hnone].
  set (t := mkThread (app (th c)) (zset (coro_ctx (th c)) i (with_free cx false))).
  destruct (new_request_runs (sv, tid) t i x Hcl S4 Ex) as (k & y & ty & x' & p & r & ev & a & En & Ea & Hk & Hy & Hcy & Hcx & Hev & Hnv & Hst).
  exists (mkClient (with_app t a) (zset (coro_slave c) i (Some (Test p)))). split.
  { by apply (call_slave_new _ _ c i cx). }
  assert (Hr1 : 0 <= i < zlen (coro_slave c)) by lia. assert (Hr2 : 0 <= i < zlen (coro_ctx (th c))) by lia.
  exists (<[(sv, tid, i) := (x', p)]> o). split_and!.
  - rewrite Ea. cbn [app th with_app history t]. apply (kexec_snoc _ _ (Some ev) _ _ (app_assoc _ _ _) Hrun).
    unfold posted_net, posted_vals. cbn [app th with_app posted t]. rewrite !filter_app, !filter_cons.
    rewrite decide_True, decide_False by done. rewrite filter_nil, !map_app, app_nil_r, (app_assoc nv.1).
    eapply k_invoke with (x0 := y) (tt := ty); try done; try congruence.
  - destruct (load_stored (coro_slave c) i (Some (Test p)) ltac:(lia)) as [G1 F1].
    destruct (load_stored (coro_ctx (th c)) i (with_free cx false) ltac:(lia)) as [G2 F2].
    destruct (load_stored (kv_ctx (app (th c))) i x' ltac:(lia)) as [G3 F3]. rewrite Ea.
    apply (loop_ok_change (sv, tid) c o _ _ i Hok Hi).
    + split; cbn; rewrite ?zlen_zset; done.
    + exists x', (with_free cx false), (Some (Test p)). split_and!; try done; [congruence|]. split; [done|]. apply lookup_insert_eq.
    + intros j Hj. split_and!; [by apply F1|by apply F2|by apply F3].
    + intros j Hj. apply lookup_insert_ne. congruence.
  - intros id Hid. rewrite lookup_insert_ne by (intros <-; by apply Hid). by apply Ho.
Qed.

(** The reply of a coroutine. *)
Lemma settle_done (a : app_state) i g y : zget (kv_ctx a) i = Some y ->
  exists a' r x', settle a i g = Done (a', r) /\
    kv_ctx a' = zset (kv_ctx a) i x' /\ index_buf_cnt a' = index_buf_cnt a /\ history a' = history a /\
    match g with
    | KvClient.Waiting x p q => x' = x /\ posted a' = posted a ++ [KvClient.rmsg q] /\ r = Some (Test p)
    | KvClient.Finished x _ | KvClient.Skipped x => x' = x /\ posted a' = posted a /\ r = None
    end.
Proof.
  intros Hy. pose proof (zget_Some_range _ _ _ Hy).
  destruct g; cbn; rewrite store_in_range by done; cbn [obind]; eexists _, _, _; (split; [reflexivity|]); done.
Qed.

(** What a resumed coroutine is to the system. *)
Lemma resumed_coro kc x p m buf g : KvClient.kv_test_resume kc x p m buf = Done g ->
  match g with
  | KvClient.Waiting x' p' r => KvClient.coro x' = KvClient.coro x /\ p <> KvClient.InGetValue /\
      (is_value_request (KvClient.rmsg r) <-> p' = KvClient.InGetValue)
  | KvClient.Finished x' _ => KvClient.coro x' = KvClient.coro x
  | KvClient.Skipped _ => False
  end.
Proof.
  assert (Hi : forall y q, KvClient.get_index_done y m = Done q -> KvClient.coro q = KvClient.coro y).
  { intros y q. unfold KvClient.get_index_done. destruct (_ =? _); [by intros [= <-]|]. destruct (_ =? _); [by intros [= <-]|done]. }
  unfold KvClient.kv_test_resume. destruct p.
  - intros (x1 & H1%Hi & Hr)%obind_inv. case_decide; [by injection Hr as <-|]. destruct (_ =? _); injection Hr as <-; [done|]. by do 2 (split; [done|]).
  - intros ([x1 bs] & Hv & Hr)%obind_inv. injection Hr as <-. revert Hv. unfold KvClient.get_value_done.
    destruct (msg_op m =? kEnumReadReply); [|done]. by intros [= <- _].
  - intros (x1 & Hv & Hr)%obind_inv. revert Hv. unfold KvClient.put_value_done. destruct (key m =? KvClient.ckey x); [|done]. intros [= <-].
    destruct (_ && _); injection Hr as <-; [done|]. by do 2 (split; [done|]).
  - intros (x1 & Hv & Hr)%obind_inv. injection Hr as <-. revert Hv. unfold KvClient.put_index_done. repeat case_match; try done; by intros [= <-].
Qed.

Notation serve cl := (serve_reply (new_request cl) (resume cl) client_get_cid (after_process_reply (client_thread cl))).

(** One iteration of the loop over the replies, for a reply whose coroutine goes on
    with [g]. *)
Lemma serve_runs cl c m i x p cx g :
  sized c -> port_ok m -> 0 <= i < n_coro -> src_c_id (rpc_header m) = i ->
  kctx c i = Some x -> ctx c i = Some cx -> slave c i = Some (Some (Test p)) ->
  KvClient.kv_test_resume (client_thread cl) x p m (d_buf (draws_of cl (draws (app (th c))))) = Done g ->
  exists c' x' fr, serve cl c m = Done c' /\ sized c' /\ slave c' i = Some fr /\ kctx c' i = Some x' /\
    ctx c' i = Some (if fr then with_msg cx m else with_free (with_msg cx m) true) /\
    (forall j, j <> i -> slave c' j = slave c j /\ ctx c' j = ctx c j /\ kctx c' j = kctx c j) /\
    history (app (th c')) = history (app (th c)) ++ option_list (returned (client_thread cl) i p g) /\
    match g with
    | KvClient.Waiting y p' q => x' = y /\ posted (app (th c')) = posted (app (th c)) ++ [KvClient.rmsg q] /\ fr = Some (Test p')
    | KvClient.Finished y _ | KvClient.Skipped y => x' = y /\ posted (app (th c')) = posted (app (th c)) /\ fr = None
    end.
Proof.
  intros [S1 S2 S3 [S4 S5]] Hport Hi Eid Ex Ecx Efr Hg. unfold kctx, ctx, slave in Ex, Ecx, Efr.
  unfold serve_reply, client_get_cid. rewrite Eid, obind_done.
  assert (signed 8 i = i) as -> by (apply signed_small; [lia|]; change (2 ^ (8 - 1)) with 128; unfold kConfigCoroCnt in coros; lia).
  rewrite (proj2 (Z.eqb_neq i (-1))) by lia.
  set (c1 := with_th c (th c)). rewrite (update_ctx_ok (th c1) i _ cx Ecx), obind_done.
  set (t1 := mkThread (app (th c1)) (zset (coro_ctx (th c1)) i (with_msg cx m))).
  destruct (load_stored (coro_ctx (th c)) i (with_msg cx m) ltac:(lia)) as [G1 F1].
  set (a0 := record_event (with_draws (app (th c)) (S (draws (app (th c))))) (returned (client_thread cl) i p g)).
  destruct (settle_done a0 i g x Ex) as (a' & r & x' & Es & Ek & Ec & Eh & Hm).
  assert (Er : resume cl t1 i (Test p) = Done (with_app t1 a', r)).
  { unfold cworker_resume. cbn [t1 coro_ctx app c1 th with_th]. rewrite (load_in_range _ _ _ G1), obind_done. cbn [msg_ptr with_msg].
    rewrite (load_in_range _ _ _ Ex), obind_done, Hg, obind_done. fold a0. by rewrite Es. }
  rewrite (call_slave_resume (new_request cl) (resume cl) (with_th c1 t1) i (Test p) _ r (with_msg cx m) Efr Er G1), obind_done.
  pose proof (port_slot m Hport) as Hslot. set (sl := KvClient.buf_cnt_slot (index_port m)) in *.
  set (t2 := if r then with_app t1 a' else mkThread (app (with_app t1 a')) (zset (coro_ctx (with_app t1 a')) i (with_free (with_msg cx m) true))).
  assert (Ea : app t2 = a') by by destruct r.
  assert (Hx : zget (coro_ctx t2) i = Some (if r then with_msg cx m else with_free (with_msg cx m) true) /\
    (forall j, j <> i -> zget (coro_ctx t2) j = zget (coro_ctx (th c)) j) /\ zlen (coro_ctx t2) = kConfigCoroCnt).
  { unfold t2. destruct r; cbn [coro_ctx with_app t1]; change (coro_ctx (th c1)) with (coro_ctx (th c)); [by rewrite zlen_zset|].
    rewrite zset_zset, zlen_zset. destruct (load_stored (coro_ctx (th c)) i (with_free (with_msg cx m) true) ltac:(lia)). done. }
  destruct Hx as (Hx & Hxs & Hxl).
  unfold after_process_reply, KvClient.after_process_reply. cbn [th coro_slave with_th]. rewrite Ea, Ec.
  change (index_buf_cnt a0) with (index_buf_cnt (app (th c))). change (KvClient.cflags (client_thread cl)) with f. rewrite visible.
  fold sl. rewrite store_in_range, obind_done by lia.
  destruct (load_stored (kv_ctx a0) i x' (zget_Some_range _ _ _ Ex)) as [G3 F3].
  destruct (load_stored (coro_slave c) i r ltac:(lia)) as [G4 F4].
  eexists _, x', r. split; [reflexivity|]. split_and!; cbn [th with_th coro_slave coro_ctx with_app app with_cnt kv_ctx history posted]; rewrite ?Ek; try done.
  - split; cbn [th with_th coro_slave coro_ctx with_app app with_cnt kv_ctx index_buf_cnt]; rewrite ?Ek, ?zlen_zset; try done.
    split; [by rewrite zlen_zset|]. intros t Ht. rewrite zget_zset_ne by lia. by apply S5.
  - unfold kctx. cbn [th with_th app with_app kv_ctx with_cnt]. by rewrite Ek.
  - intros j Hj. unfold slave, ctx, kctx. cbn [th with_th coro_slave coro_ctx with_app app with_cnt kv_ctx]. rewrite Ek. auto.
Qed.

Lemma takes_more n m p1 p2 new : takes_msg n Visibility.ToClient m p1 p2 -> takes_msg (n ++ new) Visibility.ToClient m p1 (p2 ++ new).
Proof. intros [-> _]. split; [by rewrite <- app_assoc|]. intros []. Qed.

(** Which packet is polled. *)
Inductive polled (m : RawKvMsg) : packets * packets -> packets * packets -> Prop :=
  | polled_net n v p1 p2 : takes_msg n Visibility.ToClient m p1 p2 -> polled m (n, v) (p1 ++ p2, v)
  | polled_vals n v p1 p2 : takes_msg v Visibility.ToClient m p1 p2 -> polled m (n, v) (n, p1 ++ p2).

Lemma polls_cons nv m ms nv' : polls nv (m :: ms) nv' -> exists nv1, polled m nv nv1 /\ polls nv1 ms nv'.
Proof. inversion 1; subst; eexists; (split; [by constructor|done]). Qed.

(** The step of the system a resumed coroutine is. *)
Definition after_resume o (id : cid) (g : KvClient.progress) : gmap cid (KvClient.KvCtx * KvClient.phase) :=
  match g with KvClient.Waiting x p _ => <[id := (x, p)]> o | _ => delete id o end.
Definition new_packets (g : KvClient.progress) : packets * packets :=
  match g with
  | KvClient.Waiting _ KvClient.InGetValue q => ([], [to_switch (KvClient.rmsg q)])
  | KvClient.Waiting _ _ q => ([to_switch (KvClient.rmsg q)], [])
  | _ => ([], [])
  end.

Lemma filter_one x p q : (is_value_request (KvClient.rmsg q) <-> p = KvClient.InGetValue) ->
  map to_switch (filter (fun m => ~ is_value_request m) [KvClient.rmsg q]) = (new_packets (KvClient.Waiting x p q)).1 /\
  map to_switch (filter is_value_request [KvClient.rmsg q]) = (new_packets (KvClient.Waiting x p q)).2.
Proof.
  intros Hv. rewrite !filter_cons, !filter_nil. destruct (decide (is_value_request (KvClient.rmsg q))) as [Hy|Hn].
  - rewrite (proj1 Hv Hy). by rewrite decide_False by auto.
  - rewrite decide_True by done. destruct p; try done. by destruct Hn; apply Hv.
Qed.

Lemma returned_cid m p g : returned (client_of f val (cid_of m)) (src_c_id (rpc_header m)) p g = 
  match p, g with
  | KvClient.InGetValue, _ => None
  | _, KvClient.Finished x _ => Some (return_event (cid_of m) x)
  | _, KvClient.Waiting x KvClient.InGetValue _ => Some (return_event (cid_of m) x)
  | _, _ => None
  end.
Proof. done. Qed.

Lemma net_step w d ix n v an av m p1 p2 o x p buf g :
  takes_msg n Visibility.ToClient m p1 p2 -> o !! cid_of m = Some (x, p) -> p <> KvClient.InGetValue ->
  KvClient.kv_test_resume (client_of f val (cid_of m)) x p m buf = Done g ->
  kstep f val key_ok (mkK w d ix (n ++ an) (v ++ av) o)
    (returned (client_of f val (cid_of m)) (src_c_id (rpc_header m)) p g)
    (mkK w d ix ((p1 ++ p2) ++ an ++ (new_packets g).1) (v ++ av ++ (new_packets g).2) (after_resume o (cid_of m) g)).
Proof.
  intros Ht Ho Hp Hg. apply takes_more with (new := an) in Ht. rewrite returned_cid.
  pose proof (resumed_coro _ _ _ _ _ _ Hg) as Hr. destruct g as [x' p' q|x' reply|x']; [| |done].
  - assert (E : forall y, (p1 ++ p2) ++ an ++ [y] = p1 ++ (p2 ++ an) ++ [y]) by (intros; by rewrite <- !app_assoc).
    destruct p'; cbn [new_packets fst snd after_resume]; rewrite app_nil_r.
    2: rewrite (app_assoc v), <- app_assoc; destruct p; try done; by eapply k_fetch.
    all: rewrite E; destruct p; try done; by eapply k_resume.
  - cbn. rewrite !app_nil_r, <- app_assoc. destruct p; try done; by eapply k_finish.
Qed.

Lemma val_step w d ix n v an av m p1 p2 o x buf g :
  takes_msg v Visibility.ToClient m p1 p2 -> o !! cid_of m = Some (x, KvClient.InGetValue) ->
  KvClient.kv_test_resume (client_of f val (cid_of m)) x KvClient.InGetValue m buf = Done g ->
  kstep f val key_ok (mkK w d ix (n ++ an) (v ++ av) o) None
    (mkK w d ix (n ++ an ++ (new_packets g).1) ((p1 ++ p2) ++ av ++ (new_packets g).2) (after_resume o (cid_of m) g)).
Proof.
  intros Ht Ho Hg. apply takes_more with (new := av) in Ht.
  pose proof (resumed_coro _ _ _ _ _ _ Hg) as Hr. destruct g as [x' p' q|x' reply|x']; [by destruct Hr as (_ & [] & _)| |done].
  cbn. rewrite !app_nil_r, <- app_assoc. by eapply k_finish_value.
Qed.

Lemma serve_one L tr o0 cl nv nv' c m : in_turn L tr o0 cl nv c -> (cid_of m).1 = cl -> polled m nv nv' ->
  exists c', serve cl c m = Done c' /\ in_turn L tr o0 cl nv' c'.
Proof.
  destruct cl as [sv tid]. intros (o & Hrun & Hok & Ho) Hm Hp. pose proof Hok as [Hcl Hsz Hc Hd].
  set (i := src_c_id (rpc_header m)). assert (Eid : cid_of m = (sv, tid, i)) by (rewrite <- Hm; done).
  assert (Hfind : exists x p, o !! cid_of m = Some (x, p) /\
    (forall buf, exists g, KvClient.kv_test_resume (client_of f val (cid_of m)) x p m buf = Done g /\
      kstep f val key_ok (mkK (lsw L) (ldata L) (lindex L) (nv.1 ++ posted_net c) (nv.2 ++ posted_vals c) o)
        (returned (client_of f val (cid_of m)) i p g)
        (mkK (lsw L) (ldata L) (lindex L) (nv'.1 ++ posted_net c ++ (new_packets g).1) (nv'.2 ++ posted_vals c ++ (new_packets g).2)
          (after_resume o (cid_of m) g))) /\ port_ok m).
  { destruct Hp as [n v p1 p2 Ht|n v p1 p2 Ht]; cbn [fst snd] in *.
    - pose proof (takes_more _ _ _ _ (posted_net c) Ht) as Ht'.
      destruct (reply_finds _ _ m p1 (p2 ++ posted_net c) Hrun) as (x & p & Ex & Hg & Hnet & _); [by left|]. cbn [kco knet] in Ex, Hnet.
      exists x, p. split; [done|]. split; [|by eapply reply_port; [exact Hrun|left]].
      intros buf. destruct (Hg buf) as [g Eg]. exists g. split; [done|]. by eapply net_step; auto.
    - pose proof (takes_more _ _ _ _ (posted_vals c) Ht) as Ht'.
      destruct (reply_finds _ _ m p1 (p2 ++ posted_vals c) Hrun) as (x & p & Ex & Hg & _ & Hval); [by right|]. cbn [kco kvals] in Ex, Hval.
      rewrite (Hval Ht') in *. exists x, KvClient.InGetValue. split; [done|]. split; [|by eapply reply_port; [exact Hrun|right]].
      intros buf. destruct (Hg buf) as [g Eg]. exists g. split; [done|]. by eapply val_step. }
  destruct Hfind as (x & p & Ex & Hg & Hport). rewrite Eid in Ex, Hg.
  assert (Hi : 0 <= i < n_coro) by (apply Hd; by eexists).
  destruct (Hc i Hi) as (y & cx & fr & Ey & Hco & Ecx & Ha & Efr & Hrel).
  assert (Hrel' : slave_rel fr cx y (Some (x, p))) by (rewrite <- Ex; exact Hrel). clear Hrel. rename Hrel' into Hrel.
  destruct fr as [[p0|]|]; simpl in Hrel; [|done|by destruct Hrel]. destruct Hrel as [Hfree [= <- <-]].
  destruct (Hg (d_buf (draws_of (sv, tid) (draws (app (th c)))))) as (g & Eg & Hstep).
  pose proof (resumed_coro _ _ _ _ _ _ Eg) as Hrc.
  destruct (serve_runs (sv, tid) c m i x p cx g Hsz Hport Hi eq_refl Ey Ecx Efr Eg)
    as (c' & x' & fr & Es & Hsz' & Es' & Ek' & Ec' & Hf & Eh & Hg').
  exists c'. split; [done|]. exists (after_resume o (sv, tid, i) g). split_and!.
  - rewrite Eh, app_assoc. eapply kexec_snoc; [reflexivity|exact Hrun|].
    assert (posted_net c' = posted_net c ++ (new_packets g).1 /\ posted_vals c' = posted_vals c ++ (new_packets g).2) as [-> ->].
    { unfold posted_net, posted_vals. destruct g as [y p' q|y rep|y]; [| |done]; destruct Hg' as (_ & -> & _); cbn; [|by rewrite !app_nil_r].
      destruct Hrc as (_ & _ & Hv). rewrite !filter_app, !map_app.
      by destruct (filter_one y p' q Hv) as [-> ->]. }
    exact Hstep.
  - apply (loop_ok_change (sv, tid) c o _ _ i Hok Hi); try done.
    + exists x', (if fr then with_msg cx m else with_free (with_msg cx m) true), fr. split; [done|].
      assert (KvClient.coro x' = KvClient.coro x /\ slave_rel fr (if fr then with_msg cx m else with_free (with_msg cx m) true) x'
        (after_resume o (sv, tid, i) g !! (sv, tid, i))) as [-> Hsr].
      { destruct g as [y p' q|y rep|y]; [| |done]; destruct Hg' as (-> & _ & ->); cbn [after_resume slave_rel].
        - destruct Hrc as (-> & _). rewrite lookup_insert_eq. done.
        - rewrite lookup_delete_eq. done. }
      split_and!; try done. by destruct fr.
    + intros j Hj. destruct g; cbn [after_resume]; [apply lookup_insert_ne|apply lookup_delete_ne..]; congruence.
  - intros id Hid. rewrite <- Ho by done. assert ((sv, tid, i) <> id) by (intros <-; by apply Hid).
    destruct g; cbn [after_resume]; [by apply lookup_insert_ne|by apply lookup_delete_ne..].
Qed.

(** *** Turns *)
Definition linv (L : lsys) (tr : list kevent) o : Prop :=
  run tr (view L o) /\
  (forall cl c, lcl L !! cl = Some c -> loop_ok cl c o /\ posted (app (th c)) = [] /\ history (app (th c)) = []) /\
  (forall id : cid, is_Some (o !! id) -> is_Some (lcl L !! id.1)).

Lemma turn_done L tr o cl c ms nv : linv L tr o -> lcl L !! cl = Some c ->
  polls (lnet L, lvals L) ms nv -> (length ms <= 16)%nat -> Forall (fun m => (cid_of m).1 = cl) ms ->
  exists c', turn_of cl c ms = Done c' /\ in_turn L tr o cl nv c'.
Proof.
  intros (Hrun & Hcl & _) Hc Hp Hlen Hms. destruct (Hcl _ _ Hc) as (Hok & Hpo & Hhi).
  set (P := in_turn L tr o cl (lnet L, lvals L)).
  set (Q := fun c rs => exists nv1, polls nv1 rs nv /\ Forall (fun m => (cid_of m).1 = cl) rs /\ in_turn L tr o cl nv1 c).
  assert (Hturn : exists c', turn_of cl c ms = Done c' /\ Q c' []).
  { apply (turn_rule _ _ _ _ P Q).
    - intros i Hi c1 Hc1. pose proof Hc1 as (o1 & _ & [_ _ Hcell _] & _).
      destruct (Hcell i Hi) as (x & cx & fr & _ & _ & Ecx & Ha & _). exists cx. do 2 (split; [done|]).
      intros Hfree. apply start_one; [done|done|by exists cx].
    - intros c1 Hc1. rewrite take_ge by done. by exists (lnet L, lvals L).
    - intros c1 m rs (nv1 & Hp1 & [Hm Hms1]%Forall_cons & H1). apply polls_cons in Hp1 as (nv2 & Hm2 & Hp2).
      destruct (serve_one _ _ _ _ _ _ _ _ H1 Hm Hm2) as (c2 & E2 & H2). exists c2. split; [done|]. by exists nv2.
    - exists o. unfold posted_net, posted_vals. rewrite Hpo, Hhi, app_nil_r. cbn. rewrite !app_nil_r. by split_and!. }
  destruct Hturn as (c' & E & nv1 & Hp1 & _ & H1). exists c'. split; [done|]. inversion Hp1. by subst.
Qed.

Lemma loop_ok_frame cl c o o' : (forall i, o' !! (cl, i) = o !! (cl, i)) -> loop_ok cl c o -> loop_ok cl c o'.
Proof.
  intros E [H1 H2 H3 H4]. split; try done.
  - intros i Hi. by apply (started_frame c o); [..|auto].
  - intros i Hi. apply H4. by rewrite <- E.
Qed.

Lemma loop_ok_sent_off cl c o : loop_ok cl c o -> loop_ok cl (sent_off c) o.
Proof. by intros [H1 [] H3 H4]. Qed.

Lemma lstep_inv L tr o tr' L' : linv L tr o -> lstep L tr' L' -> exists o', linv L' (tr ++ tr') o'.
Proof.
  intros Hinv Hstep. pose proof Hinv as (Hrun & Hcl & Hdom).
  destruct Hstep as [L w d ix n v Hk|L cl c ms n v c' Hc Hp Hlen Hms E].
  - exists o. split; [|done]. by apply (kexec_snoc tr _ None _ _ eq_refl Hrun), Hk.
  - destruct (turn_done _ _ _ _ _ _ _ Hinv Hc Hp Hlen Hms) as (c1 & E1 & o1 & Hr1 & Hok1 & Ho1).
    rewrite E in E1. injection E1 as <-. exists o1. split; [exact Hr1|]. split.
    + intros cl2 c2. cbn [lcl]. destruct (decide (cl2 = cl)) as [->|Hne].
      * rewrite lookup_insert_eq. intros [= <-]. split; [by apply loop_ok_sent_off|done].
      * rewrite lookup_insert_ne by done. intros Hc2. destruct (Hcl _ _ Hc2) as (Hok2 & Hq). split; [|done].
        apply (loop_ok_frame _ _ o); [|done]. intros i. by apply Ho1.
    + intros id Hid. cbn [lcl]. destruct (decide (id.1 = cl)) as [->|Hne]; [rewrite lookup_insert_eq; by eexists|].
      rewrite lookup_insert_ne by done. apply Hdom. by rewrite <- Ho1.
Qed.


Lemma numbered xs i x : 0 <= i < n_coro -> zget (number_ctx n_coro xs) i = Some x -> KvClient.coro x = i.
Proof.
  intros Hi. unfold zget, number_ctx. rewrite decide_True by lia. rewrite list_lookup_imap.
  destruct (xs !! Z.to_nat i); [|done]. cbn. intros [= <-]. rewrite Z2Nat.id by lia. rewrite (proj2 (Z.ltb_lt _ _)) by lia.
  cbn. apply wrap_small. unfold in_width. unfold kConfigCoroCnt in coros. lia.
Qed.

Lemma started_inv ts : started ts -> linv (linitial d0 ix0 ts) [] ∅.
Proof.
  intros Hts. split; [constructor|]. split; [|by intros id [? ?]].
  intros cl c Hc. destruct (Hts _ _ Hc) as (Hcl & xs & Hs). revert Hs. unfold start_thread, client_prepare. cbn [KvClient.cflags client_thread].
  destruct (Z.leb_spec n_coro (zlen xs)) as [Hlen|]; [|done]. rewrite obind_done. unfold spawn.
  rewrite (proj2 (Z.leb_le 0 n_coro)), (proj2 (Z.leb_le n_coro kConfigCoroCnt)) by lia. cbn [andb]. intros [= <-].
  split; [|done]. assert (Hl : zlen (number_ctx n_coro xs) = zlen xs) by (unfold zlen, number_ctx; by rewrite length_imap).
  split; try done.
  - split; cbn [coro_slave coro_ctx th app kv_ctx index_buf_cnt]; rewrite ?zlen_replicated by (unfold kConfigCoroCnt; lia); [done|done|lia|].
    split; [by apply zlen_replicated|]. intros t Ht. apply zget_replicated. unfold KvClient.kConfigMaxThreadCnt. lia.
  - intros i Hi. destruct (zget_is_Some (number_ctx n_coro xs) i ltac:(lia)) as [x Ex].
    exists x, new_ctx, None. split_and!; try done.
    + by apply (numbered xs).
    + refine (zget_replicated kConfigCoroCnt new_ctx i _). unfold kConfigCoroCnt in *. lia.
    + by apply zget_replicated.
  - by intros i [? ?].
Qed.

Lemma lexec_inv ts tr L : started ts -> lexec (linitial d0 ix0 ts) tr L -> exists o, linv L tr o.
Proof.
  intros Hts. induction 1 as [|tr L tr' L' _ (o & IH) Hs]; [by eexists; apply started_inv|]. by eapply lstep_inv.
Qed.

(** *** The theorems *)


(** C4. No turn fails: in every state the client threads, switch and nodes reach, the
    turn of a client thread with any sixteen or fewer of its replies under way returns,
    so every reply finds its coroutine suspended where it expects it, every assertion
    holds and every access to the arrays of coroutines and counters is in range; and
    every request at a data node or an index node is answered. *)
Theorem loops_never_fail ts tr L :
  started ts -> lexec (linitial d0 ix0 ts) tr L ->
  (forall cl c ms nv, lcl L !! cl = Some c -> polls (lnet L, lvals L) ms nv -> (length ms <= 16)%nat ->
    Forall (fun m => (cid_of m).1 = cl) ms -> exists c', turn_of cl c ms = Done c') /\
  (forall p m n1 n2, p <> Visibility.ToClient ->
    takes_msg (lnet L) p m n1 n2 \/ takes_msg (lvals L) p m n1 n2 -> handled f val (view L ∅) p m).
Proof.
  intros Hts Hex. destruct (lexec_inv _ _ _ Hts Hex) as (o & Hinv). split.
  - intros cl c ms nv Hc Hp Hlen Hms. destruct (turn_done _ _ _ _ _ _ _ Hinv Hc Hp Hlen Hms) as (c' & E & _). by exists c'.
  - intros p m n1 n2 Hne Ht. destruct Hinv as (Hrun & _). destruct (run_sim _ _ Hrun) as (tr' & a & sp & _ & _ & Hs & Hi & _).
    pose proof (ks_data _ _ _ _ _ _ Hs) as Hd.
    assert (Hh : handled f val (view L o) p m).
    { destruct Ht; [by eapply sim_handled|]. eapply value_handled; try done. by intros l []. }
    by destruct p.
Qed.

(** C5. No request is lost: in every state reached, a suspended coroutine of a client
    thread has a message under way that brings its reply; and when nothing is under way
    every coroutine is back at the start of client_worker's loop and free, so the next
    turn starts it again. *)
Theorem no_coroutine_lost ts tr L cl c i :
  started ts -> lexec (linitial d0 ix0 ts) tr L -> lcl L !! cl = Some c -> 0 <= i < n_coro ->
  (forall fr, slave c i = Some (Some fr) ->
    exists e, (e ∈ lnet L \/ e ∈ lvals L) /\ cid_of e.2 = (cl, i) /\ answering e) /\
  (lnet L = [] -> lvals L = [] -> slave c i = Some None /\ exists cx, ctx c i = Some cx /\ free cx = true).
Proof.
  intros Hts Hex Hc Hi. destruct (lexec_inv _ _ _ Hts Hex) as (o & Hrun & Hcl & _). destruct (Hcl _ _ Hc) as ([_ _ Hcell _] & _).
  destruct (run_sim _ _ Hrun) as (tr' & a & sp & _ & _ & Hs & _ & Hown & Hf).
  destruct (Hcell i Hi) as (x & cx & fr & Ex & Hco & Ecx & Ha & Efr & Hrel).
  assert (Hatt : is_Some (o !! (cl, i)) -> exists e, (e ∈ lnet L \/ e ∈ lvals L) /\ cid_of e.2 = (cl, i) /\ answering e)
    by apply (attended _ _ _ _ _ _ _ Hs Hown Hf).
  split.
  - intros fr' Efr'. rewrite Efr in Efr'. injection Efr' as ->. destruct fr' as [p|t]; [|done]. apply Hatt. destruct Hrel as [_ ->]. by eexists.
  - intros En Ev. destruct fr as [[p|t]|]; [|done|].
    + destruct Hrel as [_ E]. destruct Hatt as (e & He & _); [rewrite E; by eexists|]. rewrite En, Ev in He. by destruct He as [?%elem_of_nil|?%elem_of_nil].
    + destruct Hrel as [Hfree _]. split; [done|]. by exists cx.
Qed.
End system.

(** ** A run: one client thread with two coroutines, a write and a read of key 42 *)
Definition sample_flags : flags := mkFlags 8 4 0 true true 4 50 1 1 1 2.
Definition sample_draws (_ : Z * Z) (k : nat) : draw := mkDraw 0 0 (if (k =? 0)%nat then 0 else 1) blank.
Definition sample_xs : list KvClient.KvCtx := replicate 64 (KvClient.mkCtx kEnumR 0 0 0 0 0 0 0 false false 0).
Definition sample_types : list TestType := [kEnumW; kEnumR].
Definition sample_cl : KvClient.client := client_thread sample_flags [] (2, 0).
Definition no_client : client := mkClient (mkThread (mkApp [] [] [] 0 [] []) []) [].
Definition sample_client : client :=
  match start_thread sample_cl sample_xs with Done c => c | Fault _ => no_client end.
Definition sample_threads : gmap (Z * Z) client := {[ (2, 0) := sample_client ]}.

Notation sys := (lsys (I := gmap Z Z)).
Notation packets := (list (Visibility.place * RawKvMsg)).
Notation runs := (lexec sample_flags [] sample_key true [42] sample_types sample_draws).
Definition sample_node : KvServer.node (gmap Z Z) := KvServer.mkNode (KvServer.init sample_flags) ∅ ∅.
Definition sample_start : sys := linitial (fun _ => sample_node) sample_node sample_threads.

(** The first packet at a place. *)
Fixpoint take_at (at_place : Visibility.place -> bool) (n : packets) : option (RawKvMsg * packets * packets) :=
  match n with
  | [] => None
  | (p, m) :: n =>
      if at_place p then Some (m, [], n)
      else match take_at at_place n with Some (m', n1, n2) => Some (m', (p, m) :: n1, n2) | None => None end
  end.

Definition is_to_switch (p : Visibility.place) : bool := match p with Visibility.ToSwitch => true | _ => false end.
Definition is_to_data (p : Visibility.place) : bool := match p with Visibility.ToData => true | _ => false end.
Definition is_to_client (p : Visibility.place) : bool := match p with Visibility.ToClient => true | _ => false end.

Lemma take_at_takes b p n m n1 n2 : (forall q, b q = true <-> q = p) -> take_at b n = Some (m, n1, n2) -> takes_msg n p m n1 n2.
Proof.
  intros Hb. revert n1. induction n as [|[q x] n IH]; intros n1; simpl; [done|]. destruct (b q) eqn:Eq.
  - apply Hb in Eq as ->. intros [= -> <- ->]. split; [done|]. constructor.
  - destruct (take_at b n) as [[[m' n1'] n2']|]; [|done]. intros [= -> <- ->].
    destruct (IH n1' eq_refl) as (-> & Ho). split; [done|]. intros Hop. constructor; [|by apply Ho].
    intros E. simpl in E. apply Hb in E. congruence.
Qed.

Lemma at_switch_place q : is_to_switch q = true <-> q = Visibility.ToSwitch.
Proof. by destruct q. Qed.
Lemma at_data_place q : is_to_data q = true <-> q = Visibility.ToData.
Proof. by destruct q. Qed.
Lemma at_client_place q : is_to_client q = true <-> q = Visibility.ToClient.
Proof. by destruct q. Qed.

Definition at_switch (L : sys) : sys :=
  match take_at is_to_switch (lnet L) with
  | Some (m, n1, n2) =>
      let (w, vd) := Switch.ingress (lsw L) m in
      mkL w (ldata L) (lindex L) (n1 ++ n2 ++ deliver sample_flags vd) (lvals L) (lcl L)
  | None => L
  end.

Definition at_data (L : sys) : sys :=
  match take_at is_to_data (lnet L) with
  | Some (m, n1, n2) =>
      match KvServer.serve sample_flags 0 (ldata L 0) m blank with
      | Done (r, d', _) =>
          mkL (lsw L) (fun t => if t =? 0 then d' else ldata L t) (lindex L) (n1 ++ n2 ++ [(Visibility.ToSwitch, r)]) (lvals L) (lcl L)
      | Fault _ => L
      end
  | None => L
  end.

Fixpoint poll_all (k : nat) (n : packets) : list RawKvMsg * packets :=
  match k with
  | O => ([], n)
  | S k => match take_at is_to_client n with
           | Some (m, n1, n2) => let (ms, n') := poll_all k (n1 ++ n2) in (m :: ms, n')
           | None => ([], n)
           end
  end.

Definition sample_turn (L : sys) (c : client) (ms : list RawKvMsg) : outcome client :=
  kv_turn sample_cl true [42] sample_types (sample_draws (2, 0)) c ms.

Definition run_turn (k : nat) (L : sys) : list kevent * sys :=
  match lcl L !! (2, 0) with
  | Some c =>
      let (ms, n') := poll_all k (lnet L) in
      match sample_turn L c ms with
      | Done c' => (history (app (th c')),
          mkL (lsw L) (ldata L) (lindex L) (n' ++ posted_net c') (lvals L ++ posted_vals c') (<[(2, 0) := sent_off c']> (lcl L)))
      | Fault _ => ([], L)
      end
  | None => ([], L)
  end.

Lemma at_switch_runs L0 tr L : runs L0 tr L -> runs L0 tr (at_switch L).
Proof.
  intros Hr. unfold at_switch. destruct (take_at is_to_switch (lnet L)) as [[[m n1] n2]|] eqn:Et; [|done].
  destruct (Switch.ingress (lsw L) m) as [w vd] eqn:Ei. rewrite <- (app_nil_r tr). eapply lexec_step; [exact Hr|].
  apply l_nodes. intros o. eapply k_switch; [exact (take_at_takes _ _ _ _ _ _ at_switch_place Et)|done|exact Ei].
Qed.

Lemma at_data_runs L0 tr L : runs L0 tr L -> runs L0 tr (at_data L).
Proof.
  intros Hr. unfold at_data. destruct (take_at is_to_data (lnet L)) as [[[m n1] n2]|] eqn:Et; [|done].
  destruct (KvServer.serve sample_flags 0 (ldata L 0) m blank) as [[[r d'] size]|] eqn:Es; [|done].
  rewrite <- (app_nil_r tr). eapply lexec_step; [exact Hr|].
  apply l_nodes. intros o. eapply k_data; [exact (take_at_takes _ _ _ _ _ _ at_data_place Et)|by vm_compute|exact Es].
Qed.

Lemma poll_all_polls k n v : polls (n, v) (poll_all k n).1 ((poll_all k n).2, v) /\ (length (poll_all k n).1 <= k)%nat.
Proof.
  revert n. induction k as [|k IH]; intros n; simpl; [split; [constructor|lia]|].
  destruct (take_at is_to_client n) as [[[m n1] n2]|] eqn:Et; [|split; [constructor|simpl; lia]].
  destruct (IH (n1 ++ n2)) as [H1 H2]. destruct (poll_all k (n1 ++ n2)) as [ms n']. simpl in *. split; [|lia].
  eapply polls_net; [exact (take_at_takes _ _ _ _ _ _ at_client_place Et)|exact H1].
Qed.

Lemma run_turn_runs L0 tr k L : (k <= 16)%nat -> forallb (fun m => bool_decide ((cid_of m).1 = (2, 0))) (poll_all k (lnet L)).1 = true ->
  runs L0 tr L -> runs L0 (tr ++ (run_turn k L).1) (run_turn k L).2.
Proof.
  intros Hk Hm Hr. unfold run_turn. destruct (lcl L !! (2, 0)) as [c|] eqn:Ec; [|by rewrite app_nil_r].
  destruct (poll_all_polls k (lnet L) (lvals L)) as [Hp Hl]. destruct (poll_all k (lnet L)) as [ms n']. simpl in Hm, Hp, Hl.
  destruct (sample_turn L c ms) as [c'|] eqn:Et; [|by rewrite app_nil_r]. eapply lexec_step; [exact Hr|].
  eapply l_turn; [exact Ec|exact Hp|lia| |exact Et].
  apply Forall_forall. intros m Hin%list_elem_of_In. rewrite forallb_forall in Hm. apply Hm, bool_decide_eq_true in Hin. done.
Qed.

(** Both coroutines start; the write is appended and made visible by the switch, and
    returns in the second turn; the third starts a read in its place, which the switch
    answers, and the fourth asks for its value.  The other read is still at the index. *)
Definition sample_sent : sys := (run_turn 0 sample_start).2.
Definition sample_answered : sys := at_switch (at_data (at_switch (at_switch sample_sent))).
Definition sample_written : sys := (run_turn 2 sample_answered).2.
Definition sample_again : sys := at_switch (run_turn 0 sample_written).2.
Definition sample_read : sys := (run_turn 2 sample_again).2.

Definition sample_events : list kevent :=
  [KInvW (2, 0, 0) 42; KInvR (2, 0, 1) 42; KRetW (2, 0, 0) 0; KInvR (2, 0, 0) 42; KRetR (2, 0, 0) 0].

Lemma turn_to (k : nat) (L : sys) tr ev L0 : (k <= 16)%nat ->
  forallb (fun m => bool_decide ((cid_of m).1 = (2, 0))) (poll_all k (lnet L)).1 = true ->
  (run_turn k L).1 = ev -> runs L0 tr L -> runs L0 (tr ++ ev) (run_turn k L).2.
Proof. intros Hk Hm <- Hr. by apply run_turn_runs. Qed.

Lemma sample_answered_runs : runs sample_start [KInvW (2, 0, 0) 42; KInvR (2, 0, 1) 42] sample_answered.
Proof.
  do 1 apply at_switch_runs. apply at_data_runs. do 2 apply at_switch_runs.
  apply (turn_to 0 sample_start []); [lia|vm_compute; reflexivity|vm_compute; reflexivity|constructor].
Qed.

Lemma sample_runs : runs sample_start sample_events sample_read.
Proof.
  change sample_events with ((([KInvW (2, 0, 0) 42; KInvR (2, 0, 1) 42] ++ [KRetW (2, 0, 0) 0]) ++ [KInvR (2, 0, 0) 42]) ++ [KRetR (2, 0, 0) 0]).
  apply turn_to; [lia|vm_compute; reflexivity|vm_compute; reflexivity|].
  apply at_switch_runs. apply turn_to; [lia|vm_compute; reflexivity|vm_compute; reflexivity|].
  apply turn_to; [lia|vm_compute; reflexivity|vm_compute; reflexivity|]. exact sample_answered_runs.
Qed.

Lemma sample_started : started sample_flags [] sample_threads.
Proof.
  intros cl c Hc. unfold sample_threads in Hc. apply lookup_singleton_Some in Hc as [<- <-]. split; [by left|]. exists sample_xs. vm_compute. reflexivity.
Qed.

Lemma sample_draws_ok cl k : 0 <= d_sample (sample_draws cl k) < zlen [42] /\ 0 <= d_op (sample_draws cl k) < zlen sample_types.
Proof. unfold sample_draws. cbn [d_sample d_op]. by destruct (k =? 0)%nat. Qed.

Lemma sample_types_ok : Forall (fun ty => ty = kEnumR \/ ty = kEnumRI \/ ty = kEnumW) sample_types.
Proof. apply Forall_cons. split; [auto|]. apply Forall_singleton. auto. Qed.

Lemma sample_keys_ok : Forall sample_key [42].
Proof. by repeat constructor. Qed.

Lemma sample_logs k l : (∅ : gmap Z Z) !! k = Some l -> in_log sample_flags l.
Proof. by rewrite lookup_empty. Qed.

Lemma sample_nodes_tied (tid : Z) : KvServer.node_ok sample_flags sample_node.
Proof.
  split; [apply KvServer.init_ok; vm_compute; congruence|].
  intros k. change (KvServer.tss_get _ k) with 1. unfold in_width. lia.
Qed.

Lemma sample_index k : mt_search (KvServer.index sample_node) k = (∅ : gmap Z Z) !! k.
Proof. reflexivity. Qed.
Lemma sample_mn : 0 < FLAGS_mn_thread sample_flags <= 8.
Proof. cbn. lia. Qed.
Lemma sample_coros : 0 <= FLAGS_coro_num sample_flags <= kConfigCoroCnt.
Proof. unfold kConfigCoroCnt. cbn. lia. Qed.
Lemma sample_space : FLAGS_logspace sample_flags <= FLAGS_keyspace sample_flags.
Proof. cbn. lia. Qed.
Lemma sample_ids : FLAGS_dn_thread sample_flags * FLAGS_keyspace sample_flags <= 2 ^ 32.
Proof. cbn. lia. Qed.


(** The turn that hands the reply of the second read to its coroutine. *)
Lemma loops_never_fail_witness :
  exists c, lcl sample_again !! (2, 0) = Some c /\
    exists c', sample_turn sample_again c (poll_all 2 (lnet sample_again)).1 = Done c'.
Proof.
  assert (Hr : runs sample_start [KInvW (2, 0, 0) 42; KInvR (2, 0, 1) 42; KRetW (2, 0, 0) 0; KInvR (2, 0, 0) 42] sample_again).
  { change [KInvW (2, 0, 0) 42; KInvR (2, 0, 1) 42; KRetW (2, 0, 0) 0; KInvR (2, 0, 0) 42]
      with (([KInvW (2, 0, 0) 42; KInvR (2, 0, 1) 42] ++ [KRetW (2, 0, 0) 0]) ++ [KInvR (2, 0, 0) 42]).
    apply at_switch_runs. apply turn_to; [lia|vm_compute; reflexivity|vm_compute; reflexivity|].
    apply turn_to; [lia|vm_compute; reflexivity|vm_compute; reflexivity|]. exact sample_answered_runs. }
  destruct (lcl sample_again !! (2, 0)) as [c|] eqn:Ec; [|vm_compute in Ec; discriminate]. exists c. split; [reflexivity|].
  destruct (loops_never_fail sample_flags [] sample_key true [42] sample_types sample_draws sample_mn sample_coros sample_keys_ok
    sample_types_ok sample_draws_ok eq_refl (conj (Z.le_refl 0) (Z.le_refl 0)) sample_key_64 sample_keys sample_space sample_ids
    (fun _ => sample_node) sample_node ∅ sample_index sample_logs sample_nodes_tied sample_threads _ _
    sample_started Hr) as [Ht _].
  eapply (Ht (2, 0) c); [exact Ec|apply poll_all_polls|..].
  - etrans; [apply (proj2 (poll_all_polls 2 (lnet sample_again) []))|lia].
  - vm_compute. by repeat constructor.
Defined.

(** After the first turn both coroutines wait, and both have a request under way. *)
Lemma no_coroutine_lost_witness :
  exists c, lcl sample_sent !! (2, 0) = Some c /\ slave c 1 = Some (Some (Test KvClient.InGetIndex)) /\
    exists e, (e ∈ lnet sample_sent \/ e ∈ lvals sample_sent) /\ cid_of e.2 = (2, 0, 1) /\ answering e.
Proof.
  assert (Hr : runs sample_start [KInvW (2, 0, 0) 42; KInvR (2, 0, 1) 42] sample_sent)
    by (apply (turn_to 0 sample_start []); [lia|vm_compute; reflexivity|vm_compute; reflexivity|constructor]).
  destruct (lcl sample_sent !! (2, 0)) as [c|] eqn:Ec; [|vm_compute in Ec; discriminate]. exists c. split; [reflexivity|].
  assert (Hs : slave c 1 = Some (Some (Test KvClient.InGetIndex))) by (vm_compute in Ec; injection Ec as <-; vm_compute; reflexivity).
  split; [exact Hs|].
  destruct (no_coroutine_lost sample_flags [] sample_key true [42] sample_types sample_draws sample_mn sample_coros sample_keys_ok
    sample_types_ok sample_draws_ok eq_refl (conj (Z.le_refl 0) (Z.le_refl 0)) sample_key_64 sample_keys sample_space sample_ids
    (fun _ => sample_node) sample_node ∅ sample_index sample_logs sample_nodes_tied sample_threads _ _ (2, 0) c 1
    sample_started Hr Ec (conj Z.le_0_1 Z.lt_1_2)) as [Ht _].
  exact (Ht _ Hs).
Defined.
End KvLoop.
