(* ===== verification/PerfModel.v ===== *)
(** * tools/perfv2.h: the performance report

    Module [Perf]: class PerfTool with the Timer of tools/timer.h, which every
    application reports its operations to: counters per thread and type, a histogram of
    the latencies of thread 0 per type, and the line of throughput and percentiles
    try_print makes of them every few seconds.  The clock is an input.  Doubles are exact
    numbers here; with fewer than 2^48 samples in an epoch the comparisons with 0.5, 0.9,
    0.99 and 0.999 come out the same.  The drawing of the table and the text of a line
    are left out. *)

From Stdlib Require Import QArith.
From stdpp Require Import pretty.
From S2P Require Import Prelude.
#[local] Open Scope Z_scope.

Module Perf.

(** ** The clock *)
Record timespec := mkTime { tv_sec : Z; tv_nsec : Z }.

(** Timer::end with its default loop = 1: nanoseconds since begin. *)
Definition timer_end (s e : timespec) : Z :=
  wrap 64 (wrap 64 ((tv_sec e - tv_sec s) * 1000000000) + (tv_nsec e - tv_nsec s)).

(** ** State *)
Record PerfConfig := mkConfig {
  thread_cnt : Z; coro_cnt : Z; type_cnt : Z; phase_cnt : Z;
  slowest_latency : Z; fastest_latency : Z; print_interval : Z }.

Definition kLatencyArray : Z := 10000.
Definition kUS : Z := 1000.
Definition ns2unit : Z := 10.

(** config_latency *)
Definition kLatencyRange (c : PerfConfig) : Z := wrap 64 (slowest_latency c - fastest_latency c).
Definition kLatencyUnit (c : PerfConfig) : Z := wrap 64 (kLatencyRange c * 10000) / kLatencyArray.
Definition tp_offset (c : PerfConfig) : Z := (type_cnt c + 7) / 8 * 8.

Record PerfTool := mkPerf {
  config : PerfConfig;
  running : bool;
  name : list string;
  report_ok : list Z;
  fast : list Z;
  last : list Z;
  latency_bucket : list (list Z);
  latency_bucket_back : list (list Z);
  timer : list (list timespec);          (* empty: not allocated *)
  req_count : list (option (list Z));
  tp_epoch_time : timespec;
  tp_epoch_id : Z }.

Definition with_running (p : PerfTool) (n : list string) : PerfTool :=
  mkPerf (config p) true n (report_ok p) (fast p) (last p) (latency_bucket p) (latency_bucket_back p)
    (timer p) (req_count p) (tp_epoch_time p) (tp_epoch_id p).
Definition with_name (p : PerfTool) (n : list string) : PerfTool :=
  mkPerf (config p) (running p) n (report_ok p) (fast p) (last p) (latency_bucket p) (latency_bucket_back p)
    (timer p) (req_count p) (tp_epoch_time p) (tp_epoch_id p).
Definition with_report_ok (p : PerfTool) (l : list Z) : PerfTool :=
  mkPerf (config p) (running p) (name p) l (fast p) (last p) (latency_bucket p) (latency_bucket_back p)
    (timer p) (req_count p) (tp_epoch_time p) (tp_epoch_id p).
Definition with_extremes (p : PerfTool) (f l : list Z) : PerfTool :=
  mkPerf (config p) (running p) (name p) (report_ok p) f l (latency_bucket p) (latency_bucket_back p)
    (timer p) (req_count p) (tp_epoch_time p) (tp_epoch_id p).
Definition with_buckets (p : PerfTool) (b k : list (list Z)) : PerfTool :=
  mkPerf (config p) (running p) (name p) (report_ok p) (fast p) (last p) b k
    (timer p) (req_count p) (tp_epoch_time p) (tp_epoch_id p).
Definition with_timer (p : PerfTool) (t : list (list timespec)) : PerfTool :=
  mkPerf (config p) (running p) (name p) (report_ok p) (fast p) (last p) (latency_bucket p) (latency_bucket_back p)
    t (req_count p) (tp_epoch_time p) (tp_epoch_id p).
Definition with_req_count (p : PerfTool) (r : list (option (list Z))) : PerfTool :=
  mkPerf (config p) (running p) (name p) (report_ok p) (fast p) (last p) (latency_bucket p) (latency_bucket_back p)
    (timer p) r (tp_epoch_time p) (tp_epoch_id p).
Definition with_epoch (p : PerfTool) (t : timespec) (n : Z) : PerfTool :=
  mkPerf (config p) (running p) (name p) (report_ok p) (fast p) (last p) (latency_bucket p) (latency_bucket_back p)
    (timer p) (req_count p) t n.

(** The constructor; [fast0], [last0] and [t0] are what the memory held.  A negative
    number of types makes operator new throw. *)
Definition PerfTool_new (c : PerfConfig) (fast0 last0 : list Z) (t0 : timespec) : outcome PerfTool :=
  if (type_cnt c <? 0) || (thread_cnt c * coro_cnt c <? 0) then Fault ProcessExit
  else
    let n := if phase_cnt c =? 1 then Z.to_nat (type_cnt c) else O in
    let buckets := replicate n (replicate (Z.to_nat (kLatencyArray + 1)) 0) in
    Done (mkPerf c false [] (replicate (Z.to_nat (thread_cnt c)) 0) fast0 last0 buckets buckets []
      (replicate (Z.to_nat (thread_cnt c * coro_cnt c)) None) t0 0).

Definition new_type (p : PerfTool) (s : string) (thread_id_ : Z) : PerfTool :=
  if thread_id_ =? 0 then with_name p (name p ++ [s]) else p.

Definition master_thread_init (p : PerfTool) : PerfTool :=
  with_running p (name p ++ map (fun i => String.append "type_" (pretty i)) (seqZ (zlen (name p)) (type_cnt (config p) - zlen (name p)))).

(** init_tp *)
Definition init_tp (p : PerfTool) (thread_id coro_id : Z) : outcome PerfTool :=
  if negb (running p) then Done p
  else if (thread_cnt (config p) <=? thread_id) || (coro_cnt (config p) <=? coro_id) then Fault ProcessExit
  else
    let! r := store (req_count p) thread_id (Some (replicate (Z.to_nat (tp_offset (config p) * 2)) 0)) in
    Done (with_req_count p r).

Fixpoint init_tps (p : PerfTool) (thread_id : Z) (coros : list Z) : outcome PerfTool :=
  match coros with
  | [] => Done p
  | i :: coros => let! p := init_tp p thread_id i in init_tps p thread_id coros
  end.

(** worker_init; [stale] is what new Timer leaves in a timer. *)
Definition worker_init (p : PerfTool) (stale : timespec) (thread_id : Z) : outcome PerfTool :=
  if negb (running p) then Done p
  else
    let! p := init_tps p thread_id (seqZ 0 (coro_cnt (config p))) in
    Done (if thread_id =? 0
          then with_timer p (replicate (Z.to_nat (type_cnt (config p))) (replicate (Z.to_nat (coro_cnt (config p))) stale))
          else p).

Fixpoint init_workers (p : PerfTool) (stale : timespec) (ids : list Z) : outcome PerfTool :=
  match ids with
  | [] => Done p
  | i :: ids => let! p := worker_init p stale i in init_workers p stale ids
  end.

Definition master_init_all_worker (p : PerfTool) (stale : timespec) : outcome PerfTool :=
  if negb (running p) then Done p else init_workers p stale (seqZ 0 (thread_cnt (config p))).

(** ** Reporting *)
Definition begin (p : PerfTool) (now : timespec) (thread_id coro_id type_id : Z) : outcome PerfTool :=
  if thread_id =? 0 then
    let! ts := load (timer p) type_id in
    let! ts := store ts coro_id now in
    let! t := store (timer p) type_id ts in
    Done (with_timer p t)
  else Done p.

Definition get_res (p : PerfTool) (now : timespec) (coro_id type_id : Z) : outcome Z :=
  let! ts := load (timer p) type_id in
  let! s := load ts coro_id in
  Done (timer_end s now).

(** The position of a latency in the histogram; a range of 0 divides by zero. *)
Definition position (c : PerfConfig) (res : Z) : outcome Z :=
  let lo := wrap 64 (fastest_latency c * kUS) in
  let hi := wrap 64 (slowest_latency c * kUS - 1) in
  let pos := Z.max lo (Z.min res hi) in
  if kLatencyUnit c =? 0 then Fault ProcessExit
  else Done (wrap 64 (wrap 64 (pos - lo) * ns2unit) / kLatencyUnit c).

Definition get_pos (p : PerfTool) (type_id res : Z) : outcome (PerfTool * Z) :=
  let! f := load (fast p) type_id in
  let! f' := store (fast p) type_id (Z.min res f) in
  let! l := load (last p) type_id in
  let! l' := store (last p) type_id (Z.max res l) in
  let! i := position (config p) res in
  Done (with_extremes p f' l', i).

(** req_count[thread_id][type_id] += cnt *)
Definition count (p : PerfTool) (thread_id type_id cnt : Z) : outcome PerfTool :=
  let! r := load (req_count p) thread_id in
  match r with
  | None => Fault NullDeref
  | Some r =>
      let! v := load r type_id in
      let! r := store r type_id (wrap 64 (v + cnt)) in
      let! rs := store (req_count p) thread_id (Some r) in
      Done (with_req_count p rs)
  end.

(** latency_bucket[type_id * phase_cnt + phase_id][get_pos(...)] += cnt *)
Definition add_latency (p : PerfTool) (type_id phase_id res cnt : Z) : outcome PerfTool :=
  let! (p, i) := get_pos p type_id res in
  let id := type_id * phase_cnt (config p) + phase_id in
  let! b := load (latency_bucket p) id in
  let! v := load b i in
  let! b := store b i (wrap 64 (v + cnt)) in
  let! bs := store (latency_bucket p) id b in
  Done (with_buckets p bs (latency_bucket_back p)).

(** many_end counts [cnt] requests and one latency; end is its case of one request. *)
Definition many_end (p : PerfTool) (now : timespec) (cnt thread_id coro_id type_id phase_id : Z) : outcome (PerfTool * Z) :=
  let! p := count p thread_id type_id cnt in
  if thread_id =? 0 then
    let! res := get_res p now coro_id type_id in
    let! p := add_latency p type_id phase_id res 1 in
    Done (p, res)
  else Done (p, 0).

Definition end_ (p : PerfTool) (now : timespec) (thread_id coro_id type_id phase_id : Z) : outcome (PerfTool * Z) :=
  many_end p now 1 thread_id coro_id type_id phase_id.

Definition many_end_copy (p : PerfTool) (cnt thread_id type_id res phase_id : Z) : outcome PerfTool :=
  let! p := count p thread_id type_id cnt in
  if thread_id =? 0 then add_latency p type_id phase_id res cnt else Done p.

Definition end_copy (p : PerfTool) (thread_id type_id res phase_id : Z) : outcome PerfTool :=
  many_end_copy p 1 thread_id type_id res phase_id.

Definition end_and_end_copy (p : PerfTool) (now : timespec) (thread_id coro_id type_id_A type_id_B : Z) : outcome PerfTool :=
  let! (p, ans) := end_ p now thread_id coro_id type_id_A 0 in
  end_copy p thread_id type_id_B ans 0.

Definition thread_begin (p : PerfTool) (thread_id : Z) : outcome PerfTool :=
  if thread_id <=? thread_cnt (config p) then
    let! l := store (report_ok p) thread_id 1 in Done (with_report_ok p l)
  else Fault ProcessExit.

(** One round of try_wait's loop: whether it ends. *)
Definition all_begun (p : PerfTool) : bool := forallb (fun v => negb (v =? 0)) (report_ok p).

(** ** The report of an epoch *)

(** merge_count_by_id: the requests of type [id] since its last call. *)
Fixpoint merge_from (p : PerfTool) (id : Z) (threads : list Z) (tp_of_this_epoch : Z) : outcome (PerfTool * Z) :=
  match threads with
  | [] => Done (p, tp_of_this_epoch)
  | i :: threads =>
      let! r := load (req_count p) i in
      match r with
      | None => merge_from p id threads tp_of_this_epoch
      | Some r =>
          let! tmp := load r id in
          let! old := load r (id + tp_offset (config p)) in
          let! r := store r (id + tp_offset (config p)) tmp in
          let! rs := store (req_count p) i (Some r) in
          merge_from (with_req_count p rs) id threads (wrap 64 (tp_of_this_epoch + wrap 64 (tmp - old)))
      end
  end.

Definition merge_count_by_id (p : PerfTool) (id : Z) : outcome (PerfTool * Z) :=
  let! _ := load (name p) id in
  merge_from p id (seqZ 0 (thread_cnt (config p))) 0.

(** The lower edge of position [i]. *)
Definition edge (c : PerfConfig) (i : Z) : Z :=
  wrap 64 (wrap 64 (i * kLatencyUnit c) / ns2unit + fastest_latency c * kUS).

(** ans[0], ans[1], ...: the sums of the new samples. *)
Fixpoint sums (ds : list Z) (acc : Z) : list Z :=
  match ds with
  | [] => []
  | d :: ds => let a := wrap 64 (acc + d) in a :: sums ds a
  end.

(** The new samples times their positions. *)
Fixpoint weigh (ds : list Z) (i acc : Z) : Z :=
  match ds with
  | [] => acc
  | d :: ds => weigh ds (i + 1) (acc + wrap 64 (d * i))
  end.

Record percentiles := mkPct { l_p50 : Z; l_p90 : Z; l_p99 : Z; l_p999 : Z }.

(** The loop over the percentiles, for position [i] with the sum [a]. *)
Definition pct_step (c : PerfConfig) (total i a : Z) (q : percentiles) : percentiles :=
  if a =? 0 then q
  else
    let v := edge c i in
    let p50 := if (2 * a <? 1 * total) || (l_p50 q =? 0) then v else l_p50 q in
    let p90 := if (10 * a <? 9 * total) || (l_p90 q =? 0) then v else l_p90 q in
    let p99 := if (100 * a <? 99 * total) || (l_p99 q =? 0) then v else l_p99 q in
    let p999 := if (1000 * a <? 999 * total) || (p99 =? 0) then v else l_p999 q in
    mkPct p50 p90 p99 p999.

Fixpoint pct_loop (c : PerfConfig) (total i : Z) (ans : list Z) (q : percentiles) : percentiles :=
  match ans with
  | [] => q
  | a :: ans => pct_loop c total (i + 1) ans (pct_step c total i a q)
  end.

(** print_latency_file: the total, the average and the percentiles of the samples since
    its last call. *)
Definition print_latency_file (p : PerfTool) (type_id : Z) : outcome (PerfTool * (Z * Q * percentiles)) :=
  let! b := load (latency_bucket p) type_id in
  let! k := load (latency_bucket_back p) type_id in
  let n := Z.to_nat kLatencyArray in
  let ds := zip_with (fun x y => wrap 64 (x - y)) (take n b) (take n k) in
  let! ks := store (latency_bucket_back p) type_id (take n b ++ drop n k) in
  let ans := sums ds 0 in
  let total := List.last ans 0 in
  let average := if total =? 0 then 0%Q
    else (inject_Z (weigh ds 0 0) / inject_Z total * inject_Z (kLatencyUnit (config p)) / inject_Z ns2unit
          + inject_Z (wrap 64 (fastest_latency (config p) * kUS)))%Q in
  Done (with_buckets p (latency_bucket p) ks, (total, average, pct_loop (config p) total 0 ans (mkPct 0 0 0 0))).

(** What try_print shows of a type. *)
Record line := mkLine {
  ln_name : string; ln_count : Z; ln_interval : Z; ln_fast : Z; ln_samples : Z; ln_average : Q;
  ln_pct : percentiles; ln_last : Z }.

Definition print_line (p : PerfTool) (now : timespec) (i : Z) : outcome (PerfTool * line) :=
  let interval := timer_end (tp_epoch_time p) now in
  let! (p, tp) := merge_count_by_id p i in
  let! (p, (total, average, pct)) := print_latency_file p i in
  let! s := load (name p) i in
  let! f := load (fast p) i in
  let! l := load (last p) i in
  Done (p, mkLine s tp interval f total average pct l).

Fixpoint print_lines (p : PerfTool) (clock : Z -> timespec) (ids : list Z) : outcome (PerfTool * list line) :=
  match ids with
  | [] => Done (p, [])
  | i :: ids =>
      let! (p, l) := print_line p (clock i) i in
      let! (p, ls) := print_lines p clock ids in
      Done (p, l :: ls)
  end.

(** try_print: [None] when the epoch is not over.  [now] is the clock at the start, [clock]
    for each line, [after] at the end. *)
Definition try_print (p : PerfTool) (now after : timespec) (clock : Z -> timespec) (print_num : Z) : outcome (PerfTool * option (list line)) :=
  if wrap 64 (1000000000 * print_interval (config p)) <? timer_end (tp_epoch_time p) now then
    let! (p, ls) := print_lines p clock (seqZ 0 (Z.min print_num (type_cnt (config p)))) in
    let n := Z.to_nat (type_cnt (config p)) in
    Done (with_extremes (with_epoch p after (signed 32 (tp_epoch_id p + 1)))
            (replicate n 4557430888798830399 ++ drop n (fast p)) (replicate n 0 ++ drop n (last p)), Some ls)
  else Done (p, None).

(** ** Positions *)
Definition range_ok (c : PerfConfig) : Prop :=
  0 <= fastest_latency c < slowest_latency c /\ slowest_latency c < 2 ^ 48.

(** The latency the histogram keeps: one in the range of the configuration. *)
Definition clamp (c : PerfConfig) (res : Z) : Z :=
  Z.max (fastest_latency c * kUS) (Z.min res (slowest_latency c * kUS - 1)).

Lemma unit_value c : range_ok c -> kLatencyUnit c = slowest_latency c - fastest_latency c.
Proof.
  intros [H1 H2]. unfold kLatencyUnit, kLatencyRange, kLatencyArray.
  rewrite (wrap_small 64 (slowest_latency c - fastest_latency c)) by (unfold in_width; lia).
  rewrite wrap_small by (unfold in_width; lia). apply Z.div_mul. lia.
Qed.

Lemma edge_value c i : range_ok c -> 0 <= i <= kLatencyArray ->
  edge c i = i * (slowest_latency c - fastest_latency c) / 10 + fastest_latency c * 1000.
Proof.
  intros Hr Hi. pose proof Hr as [H1 H2]. unfold edge. rewrite unit_value by done. unfold kLatencyArray, kUS, ns2unit in *.
  assert (0 <= i * (slowest_latency c - fastest_latency c) <= 10000 * 2 ^ 48) by nia.
  rewrite (wrap_small 64 (i * _)) by (unfold in_width; lia).
  assert (0 <= i * (slowest_latency c - fastest_latency c) / 10 <= 1000 * 2 ^ 48) by (split; [apply Z.div_pos|apply Z.div_le_upper_bound]; lia).
  apply wrap_small. unfold in_width. lia.
Qed.

Lemma edge_mono c i j : range_ok c -> 0 <= i <= j -> j <= kLatencyArray -> edge c i <= edge c j.
Proof.
  intros Hr Hi Hj. rewrite !edge_value by (done || lia). pose proof Hr as [H1 _].
  assert (i * (slowest_latency c - fastest_latency c) / 10 <= j * (slowest_latency c - fastest_latency c) / 10); [|lia].
  apply Z.div_le_mono; [lia|]. nia.
Qed.

Lemma position_in_range c res : range_ok c -> in_width 64 res ->
  exists i, position c res = Done i /\ 0 <= i < kLatencyArray /\ edge c i <= clamp c res <= edge c (i + 1).
Proof.
  intros Hr Hres. pose proof Hr as [H1 H2]. unfold in_width in Hres. unfold position. rewrite unit_value by done.
  unfold kUS. rewrite (wrap_small 64 (fastest_latency c * 1000)), (wrap_small 64 (slowest_latency c * 1000 - 1)) by (unfold in_width; lia).
  change 1000 with kUS. fold (clamp c res). rewrite (proj2 (Z.eqb_neq (slowest_latency c - fastest_latency c) 0)) by lia.
  assert (Hc : fastest_latency c * 1000 <= clamp c res < slowest_latency c * 1000) by (unfold clamp, kUS; lia).
  set (y := clamp c res - fastest_latency c * kUS). set (u := slowest_latency c - fastest_latency c).
  assert (Hy : 0 <= y < u * 1000) by (unfold y, u, kUS; lia). assert (Hu : 0 < u) by (unfold u; lia).
  assert (Hu48 : u < 2 ^ 48) by (unfold u; lia). unfold ns2unit.
  rewrite (wrap_small 64 y), (wrap_small 64 (y * 10)) by (unfold in_width; lia).
  eexists. split; [reflexivity|]. pose proof (Z.div_mod (y * 10) u ltac:(lia)). pose proof (Z.mod_pos_bound (y * 10) u ltac:(lia)).
  assert (0 <= y * 10 / u) by (apply Z.div_pos; lia).
  assert (y * 10 / u < 10000) by (apply Z.div_lt_upper_bound; lia).
  split; [unfold kLatencyArray; lia|]. rewrite !edge_value by (done || (unfold kLatencyArray; lia)). fold u.
  assert (Ey : clamp c res = y + fastest_latency c * 1000) by (unfold y, kUS; lia). rewrite Ey. set (i := y * 10 / u) in *.
  assert (i * u / 10 <= y) by (apply Z.div_le_upper_bound; lia).
  assert (y <= (i + 1) * u / 10) by (apply Z.div_le_lower_bound; lia). lia.
Qed.

(** ** Percentiles *)

(** One percentile, num/den, of the loop. *)
Fixpoint pct_one (num den : Z) (c : PerfConfig) (total i : Z) (ans : list Z) (l : Z) : Z :=
  match ans with
  | [] => l
  | a :: ans =>
      pct_one num den c total (i + 1) ans
        (if a =? 0 then l else if (den * a <? num * total) || (l =? 0) then edge c i else l)
  end.

Lemma pct_loop_parts c total i ans q :
  let r := pct_loop c total i ans q in
  l_p50 r = pct_one 1 2 c total i ans (l_p50 q) /\ l_p90 r = pct_one 9 10 c total i ans (l_p90 q) /\
  l_p99 r = pct_one 99 100 c total i ans (l_p99 q).
Proof.
  revert i q. induction ans as [|a ans IH]; intros i q; [done|]. cbn [pct_loop pct_one].
  destruct (IH (i + 1) (pct_step c total i a q)) as (-> & -> & ->). unfold pct_step. by destruct (a =? 0).
Qed.

Definition below (num den total a : Z) : bool := den * a <? num * total.

(** What the threshold of p999 comes to: the last position below it with a sample. *)
Fixpoint pct_last (num den : Z) (c : PerfConfig) (total i : Z) (ans : list Z) (l : Z) : Z :=
  match ans with
  | [] => l
  | a :: ans =>
      pct_last num den c total (i + 1) ans
        (if a =? 0 then l else if below num den total a then edge c i else l)
  end.

Lemma pct_one_app num den c total i l1 l2 l :
  pct_one num den c total i (l1 ++ l2) l = pct_one num den c total (i + zlen l1) l2 (pct_one num den c total i l1 l).
Proof.
  revert i l. induction l1 as [|a l1 IH]; intros i l; cbn [app pct_one]; [by rewrite Z.add_0_r|].
  rewrite IH, zlen_cons. by replace (i + (zlen l1 + 1)) with (i + 1 + zlen l1) by lia.
Qed.

Lemma pct_last_app num den c total i l1 l2 l :
  pct_last num den c total i (l1 ++ l2) l = pct_last num den c total (i + zlen l1) l2 (pct_last num den c total i l1 l).
Proof.
  revert i l. induction l1 as [|a l1 IH]; intros i l; cbn [app pct_last]; [by rewrite Z.add_0_r|].
  rewrite IH, zlen_cons. by replace (i + (zlen l1 + 1)) with (i + 1 + zlen l1) by lia.
Qed.

Lemma pct_one_zeros num den c total i ans l : Forall (fun a => a = 0) ans -> pct_one num den c total i ans l = l.
Proof. intros H. revert i. induction H as [|a ans -> _ IH]; intros i; cbn [pct_one]; [done|]. apply IH. Qed.

Lemma pct_last_zeros num den c total i ans l : Forall (fun a => a = 0) ans -> pct_last num den c total i ans l = l.
Proof. intros H. revert i. induction H as [|a ans -> _ IH]; intros i; cbn [pct_last]; [done|]. apply IH. Qed.

Lemma pct_one_above num den c total i ans l :
  Forall (fun a => below num den total a = false) ans -> l <> 0 -> pct_one num den c total i ans l = l.
Proof.
  intros H Hl. revert i. induction H as [|a ans Ha _ IH]; intros i; cbn [pct_one]; [done|].
  unfold below in Ha. rewrite Ha, (proj2 (Z.eqb_neq l 0)) by done. cbn [orb]. destruct (a =? 0); apply IH.
Qed.

Lemma pct_last_above num den c total i ans l :
  Forall (fun a => below num den total a = false) ans -> pct_last num den c total i ans l = l.
Proof.
  intros H. revert i. induction H as [|a ans Ha _ IH]; intros i; cbn [pct_last]; [done|].
  rewrite Ha. destruct (a =? 0); apply IH.
Qed.

(** The sums of a list grow. *)
Lemma zsum_take_le l n m : Forall (fun d => 0 <= d) l -> (n <= m)%nat -> zsum (take n l) <= zsum (take m l).
Proof.
  intros Hl Hnm. replace m with (n + (m - n))%nat by lia. rewrite <- take_take_drop, zsum_app.
  pose proof (zsum_nonneg (take (m - n) (drop n l))) as H. assert (Hf : Forall (fun d => 0 <= d) (take (m - n) (drop n l))) by (apply Forall_take, Forall_drop, Hl).
  specialize (H Hf). lia.
Qed.

Lemma sums_length ds acc : length (sums ds acc) = length ds.
Proof. revert acc. induction ds as [|d ds IH]; intros acc; simpl; [done|]. by rewrite IH. Qed.

Lemma sums_lookup ds acc i :
  Forall (fun d => 0 <= d) ds -> 0 <= acc -> acc + zsum ds < 2 ^ 64 -> (i < length ds)%nat ->
  sums ds acc !! i = Some (acc + zsum (take (S i) ds)).
Proof.
  revert acc i. induction ds as [|d ds IH]; intros acc i Hf Ha Hs Hi; [simpl in Hi; lia|].
  inversion Hf as [|? ? Hd Hf']; subst. cbn [zsum foldr] in Hs. fold (zsum ds) in Hs. pose proof (zsum_nonneg ds Hf') as H0.
  cbn [sums]. rewrite wrap_small by (unfold in_width; lia). destruct i as [|i].
  - cbn. f_equal. unfold zsum. simpl. lia.
  - cbn [lookup list_lookup]. change (sums ds (acc + d) !! i = Some (acc + zsum (take (S (S i)) (d :: ds)))).
    rewrite (IH (acc + d) i) by (done || lia || (simpl in Hi; lia)). f_equal. cbn [take zsum foldr]. unfold zsum. simpl. lia.
Qed.

Lemma sums_last ds : Forall (fun d => 0 <= d) ds -> zsum ds < 2 ^ 64 -> List.last (sums ds 0) 0 = zsum ds.
Proof.
  intros Hf Hs. destruct (decide (ds = [])) as [->|Hne]; [done|].
  assert (Hl : (0 < length ds)%nat) by (destruct ds; [done|simpl; lia]).
  pose proof (sums_lookup ds 0 (length ds - 1) Hf ltac:(lia) ltac:(lia) ltac:(lia)) as H.
  rewrite firstn_all2 in H by lia. apply list_elem_of_split_length in H as (l1 & l2 & E & Hn).
  pose proof (f_equal length E) as HL. rewrite sums_length, length_app in HL. cbn [length] in HL.
  assert (l2 = []) as -> by (destruct l2; [done|simpl in HL; lia]). rewrite E, List.last_last. lia.
Qed.

(** Position [q] is where num/den of the samples is reached. *)
Definition at_percentile (num den : Z) (ds : list Z) (q : nat) : Prop :=
  den * zsum (take q ds) < num * zsum ds <= den * zsum (take (S q) ds).

Section samples.
Context (c : PerfConfig) (ds : list Z).
Hypothesis Hr : range_ok c.
Hypothesis Hunit : 10 <= slowest_latency c - fastest_latency c.
Hypothesis Hds : Forall (fun d => 0 <= d) ds.
Hypothesis Hsum : zsum ds < 2 ^ 64.
Hypothesis Hlen : zlen ds = kLatencyArray.

Lemma edge_pos i : 1 <= i <= kLatencyArray -> 0 < edge c i.
Proof using Hr Hunit.
  intros Hi. rewrite edge_value by (done || lia). pose proof Hr as [H1 _].
  assert (1 <= i * (slowest_latency c - fastest_latency c) / 10) by (apply Z.div_le_lower_bound; nia). lia.
Qed.

Lemma percentile_position num den q : at_percentile num den ds q -> (q < length ds)%nat.
Proof using Hds.
  intros [H1 H2]. destruct (decide (q < length ds)%nat) as [|Hge]; [done|].
  rewrite firstn_all2 in H1 by lia. rewrite firstn_all2 in H2 by lia. lia.
Qed.

Lemma sums_elem (j : nat) a : sums ds 0 !! j = Some a -> a = zsum (take (S j) ds).
Proof using Hds Hsum.
  intros H. assert (j < length ds)%nat by (rewrite <- (sums_length ds 0); by eapply lookup_lt_Some).
  rewrite (sums_lookup ds 0 j) in H by (done || lia). by injection H as <-.
Qed.

(** The sums before position [q] are below the threshold, those from it are not. *)
Lemma sums_before num den q : 0 < den -> at_percentile num den ds q ->
  Forall (fun a => below num den (zsum ds) a = true) (take q (sums ds 0)).
Proof using Hds Hsum.
  intros Hd [H1 _]. apply Forall_lookup. intros j a [Hj Hlt]%lookup_take_Some. apply sums_elem in Hj as ->.
  unfold below. apply Z.ltb_lt. pose proof (zsum_take_le ds (S j) q Hds ltac:(lia)). nia.
Qed.

Lemma sums_from num den q : 0 < den -> 0 < num -> at_percentile num den ds q ->
  exists a rest, drop q (sums ds 0) = a :: rest /\ 0 < a /\ below num den (zsum ds) a = false /\
    Forall (fun a => a <> 0 /\ below num den (zsum ds) a = false) rest /\ (length rest + S q = length ds)%nat.
Proof using Hds Hsum.
  intros Hd Hn Hq. pose proof (percentile_position _ _ _ Hq) as Hlt. destruct Hq as [H1 H2].
  pose proof (zsum_nonneg (take q ds) (Forall_take _ _ _ Hds)) as H0.
  assert (Hpos : forall j, (q <= j)%nat -> 0 < zsum (take (S j) ds) /\ below num den (zsum ds) (zsum (take (S j) ds)) = false).
  { intros j Hj. pose proof (zsum_take_le ds (S q) (S j) Hds ltac:(lia)). unfold below. rewrite Z.ltb_ge. nia. }
  pose proof (sums_lookup ds 0 q Hds ltac:(lia) ltac:(lia) Hlt) as Hl. rewrite Z.add_0_l in Hl.
  exists (zsum (take (S q) ds)), (drop (S q) (sums ds 0)).
  split; [by apply drop_S|]. destruct (Hpos q ltac:(lia)) as [Ha Hb]. split; [done|]. split; [done|]. split.
  - apply Forall_lookup. intros j a Hj. rewrite lookup_drop in Hj. apply sums_elem in Hj as ->.
    destruct (Hpos (S q + j)%nat ltac:(lia)) as [? ?]. split; [lia|done].
  - rewrite length_drop, sums_length. lia.
Qed.

(** The last of the sums before [q]. *)
Lemma sums_low (q : nat) : (q <= length ds)%nat ->
  (zsum (take q ds) = 0 /\ Forall (fun a => a = 0) (take q (sums ds 0))) \/
  (zsum (take q ds) <> 0 /\ exists n : nat, q = S n /\ take q (sums ds 0) = take n (sums ds 0) ++ [zsum (take q ds)]).
Proof using Hds Hsum.
  intros Hq. destruct (decide (zsum (take q ds) = 0)) as [E|E]; [left; split; [done|]|right; split; [done|]].
  - apply Forall_lookup. intros j a [Hj Hlt]%lookup_take_Some. apply sums_elem in Hj as ->.
    pose proof (zsum_take_le ds (S j) q Hds ltac:(lia)). pose proof (zsum_nonneg (take (S j) ds) (Forall_take _ _ _ Hds)). lia.
  - destruct q as [|n]; [by destruct E|]. exists n. split; [done|].
    rewrite (take_S_r _ n (zsum (take (S n) ds))); [done|].
    rewrite (sums_lookup ds 0 n) by (done || lia). by rewrite Z.add_0_l.
Qed.

(** The percentile shown is the edge of [q] or of one of its neighbours. *)
Lemma pct_near num den q : 0 < den -> 0 < num -> at_percentile num den ds q ->
  exists r, Z.max 0 (Z.of_nat q - 1) <= r <= Z.of_nat q + 1 /\ pct_one num den c (zsum ds) 0 (sums ds 0) 0 = edge c r.
Proof using Hr Hunit Hds Hsum Hlen.
  intros Hd Hn Hq. pose proof (percentile_position _ _ _ Hq) as Hlt.
  destruct (sums_from num den q Hd Hn Hq) as (a & rest & E & Ha & Hb & Hrest & HL).
  pose proof (sums_before num den q Hd Hq) as Hlow.
  assert (Hzl : zlen (take q (sums ds 0)) = Z.of_nat q) by (unfold zlen; rewrite length_take, sums_length; lia).
  assert (Hz : Z.of_nat (length ds) = 10000) by exact Hlen.
  assert (Habove : Forall (fun a => below num den (zsum ds) a = false) rest) by (eapply Forall_impl; [exact Hrest|by intros ? []]).
  rewrite <- (take_drop q (sums ds 0)), E, pct_one_app, Hzl, Z.add_0_l. remember (a :: rest) as high eqn:Eh.
  assert (Hfirst : forall l, edge c (Z.of_nat q) <> 0 \/ l <> 0 ->
    pct_one num den c (zsum ds) (Z.of_nat q) high l = if l =? 0 then edge c (Z.of_nat q) else l).
  { intros l Hnz. rewrite Eh. cbn [pct_one]. unfold below in Hb. rewrite (proj2 (Z.eqb_neq a 0)), Hb by lia. cbn [orb].
    destruct (Z.eqb_spec l 0) as [->|]; apply pct_one_above; try done; tauto. }
  destruct (sums_low q ltac:(lia)) as [[_ Hzero]|[Hnz (n & -> & Esum)]].
  - rewrite (pct_one_zeros _ _ _ _ 0 _ _ Hzero). destruct (decide (edge c (Z.of_nat q) = 0)) as [E0|E0].
    + assert (q = 0)%nat as -> by (destruct q as [|q']; [done|]; pose proof (edge_pos (Z.of_nat (S q')) ltac:(unfold kLatencyArray; lia)); lia).
      exists 1. split; [lia|]. rewrite Eh. destruct rest as [|a2 rest]; [simpl in HL; lia|]. cbn [pct_one].
      inversion Hrest as [|? ? [Ha2 Hb2] Hrest']; subst. inversion Habove; subst. unfold below in Hb, Hb2.
      change (Z.of_nat 0) with 0 in *. rewrite (proj2 (Z.eqb_neq a 0)), (proj2 (Z.eqb_neq a2 0)), Hb, Hb2, E0 by lia. cbn [orb Z.eqb].
      apply pct_one_above; [done|]. pose proof (edge_pos 1 ltac:(unfold kLatencyArray; lia)). simpl. lia.
    + rewrite Hfirst by by left. exists (Z.of_nat q). split; [lia|done].
  - rewrite Esum in *. rewrite pct_one_app. apply Forall_app in Hlow as [_ Hlast]. apply Forall_cons in Hlast as [Hb' _].
    cbn [pct_one]. unfold below in Hb'. rewrite (proj2 (Z.eqb_neq _ 0) Hnz), Hb'. cbn [orb].
    assert (Hzn : zlen (take n (sums ds 0)) = Z.of_nat n) by (unfold zlen; rewrite length_take, sums_length; lia).
    rewrite Hzn, Z.add_0_l. destruct (decide (edge c (Z.of_nat n) = 0)) as [E0|E0].
    + rewrite E0. pose proof (edge_pos (Z.of_nat (S n)) ltac:(unfold kLatencyArray; lia)).
      rewrite Hfirst by (left; lia). exists (Z.of_nat (S n)). split; [lia|done].
    + rewrite Hfirst by by right. rewrite (proj2 (Z.eqb_neq _ 0)) by done. exists (Z.of_nat n). split; [lia|done].
Qed.

Lemma p999_tail total i ans q : 1 <= i -> i + zlen ans <= kLatencyArray ->
  l_p999 (pct_loop c total i ans q) = pct_last 999 1000 c total i ans (l_p999 q).
Proof using Hr Hunit.
  revert i q. induction ans as [|a ans IH]; intros i q Hi Hn; [done|]. rewrite zlen_cons in Hn. pose proof (zlen_nonneg ans).
  cbn [pct_loop pct_last]. rewrite IH by lia. f_equal. unfold pct_step, below. destruct (a =? 0); [done|]. cbn [l_p999].
  pose proof (edge_pos i ltac:(lia)). destruct (Z.eqb_spec (l_p99 q) 0) as [E|E].
  - rewrite orb_true_r, (proj2 (Z.eqb_neq (edge c i) 0)) by lia. by rewrite orb_false_r.
  - rewrite orb_false_r. destruct (100 * a <? 99 * total).
    + rewrite (proj2 (Z.eqb_neq (edge c i) 0)) by lia. by rewrite orb_false_r.
    + rewrite (proj2 (Z.eqb_neq (l_p99 q) 0)) by lia. by rewrite orb_false_r.
Qed.

Lemma p999_last total ans : zlen ans <= kLatencyArray ->
  l_p999 (pct_loop c total 0 ans (mkPct 0 0 0 0)) = pct_last 999 1000 c total 0 ans 0.
Proof using Hr Hunit.
  intros Hn. destruct ans as [|a ans]; [done|]. rewrite zlen_cons in Hn. cbn [pct_loop pct_last].
  rewrite p999_tail by lia. f_equal. unfold pct_step, below. destruct (a =? 0); [done|]. cbn [l_p999 l_p99].
  rewrite orb_true_r. destruct (Z.eqb_spec (edge c 0) 0) as [E|E]; [|by rewrite orb_false_r].
  rewrite orb_true_r, E. by destruct (1000 * a <? 999 * total).
Qed.

(** p999 is the edge of the last position before [q] with a sample below it, 0 if there
    is none. *)
Lemma p999_value q : at_percentile 999 1000 ds q ->
  l_p999 (pct_loop c (zsum ds) 0 (sums ds 0) (mkPct 0 0 0 0)) =
  if decide (zsum (take q ds) = 0) then 0 else edge c (Z.of_nat q - 1).
Proof using Hr Hunit Hds Hsum Hlen.
  intros Hq. pose proof (percentile_position _ _ _ Hq) as Hlt.
  destruct (sums_from 999 1000 q ltac:(lia) ltac:(lia) Hq) as (a & rest & E & Ha & Hb & Hrest & HL).
  pose proof (sums_before 999 1000 q ltac:(lia) Hq) as Hlow.
  assert (Habove : Forall (fun a => below 999 1000 (zsum ds) a = false) (a :: rest)).
  { constructor; [done|]. eapply Forall_impl; [exact Hrest|by intros ? []]. }
  rewrite p999_last by (unfold zlen; rewrite sums_length; fold (zlen ds); lia).
  rewrite <- (take_drop q (sums ds 0)), E, pct_last_app, (pct_last_above _ _ _ _ _ _ _ Habove).
  destruct (sums_low q ltac:(lia)) as [[E0 Hzero]|[Hnz (n & -> & Esum)]].
  - rewrite decide_True by done. by apply pct_last_zeros.
  - rewrite decide_False by done. rewrite Esum in Hlow |- *. rewrite pct_last_app.
    apply Forall_app in Hlow as [_ Hlast]. apply Forall_cons in Hlast as [Hb' _]. cbn [pct_last].
    rewrite (proj2 (Z.eqb_neq _ 0) Hnz), Hb'. f_equal. unfold zlen. rewrite length_take, sums_length. lia.
Qed.

(** [l] is the edge of [q] or of one of its neighbours. *)
Definition near (q : nat) (l : Z) : Prop := exists r, Z.max 0 (Z.of_nat q - 1) <= r <= Z.of_nat q + 1 /\ l = edge c r.

Lemma percentiles_of q50 q90 q99 q999 :
  at_percentile 1 2 ds q50 -> at_percentile 9 10 ds q90 -> at_percentile 99 100 ds q99 -> at_percentile 999 1000 ds q999 ->
  let r := pct_loop c (zsum ds) 0 (sums ds 0) (mkPct 0 0 0 0) in
  near q50 (l_p50 r) /\ near q90 (l_p90 r) /\ near q99 (l_p99 r) /\
  l_p999 r = if decide (zsum (take q999 ds) = 0) then 0 else edge c (Z.of_nat q999 - 1).
Proof using Hr Hunit Hds Hsum Hlen.
  intros H50 H90 H99 H999 r. destruct (pct_loop_parts c (zsum ds) 0 (sums ds 0) (mkPct 0 0 0 0)) as (E50 & E90 & E99).
  fold r in E50, E90, E99. rewrite E50, E90, E99. unfold near.
  split; [by apply pct_near|]. split; [by apply pct_near|]. split; [by apply pct_near|]. by apply p999_value.
Qed.
End samples.

(** ** What an epoch has been told *)

(** The requests counted per type, the latencies placed per type and position, when each
    coroutine's request began and when the epoch did. *)
Record epoch := mkEpoch {
  counted : Z -> Z; placed : Z -> Z -> Z; started : Z -> Z -> timespec; since : timespec }.

Inductive report :=
  | Begin (now : timespec) (thread_id coro_id type_id : Z)
  | End_ (now : timespec) (cnt thread_id coro_id type_id : Z)
  | EndCopy (cnt thread_id type_id res : Z).

(** A report as the applications make it, with the default phase. *)
Definition call (p : PerfTool) (r : report) : outcome PerfTool :=
  match r with
  | Begin now t co ty => begin p now t co ty
  | End_ now cnt t co ty => let! (p, _) := many_end p now cnt t co ty 0 in Done p
  | EndCopy cnt t ty res => many_end_copy p cnt t ty res 0
  end.

Fixpoint calls (p : PerfTool) (rs : list report) : outcome PerfTool :=
  match rs with
  | [] => Done p
  | r :: rs => let! p := call p r in calls p rs
  end.

(** The same on the epoch: only thread 0 is timed. *)
Definition position_of (c : PerfConfig) (res : Z) : Z :=
  match position c res with Done i => i | Fault _ => 0 end.

Definition add_at (i n : Z) (f : Z -> Z) : Z -> Z := fun j => if decide (j = i) then f j + n else f j.

Definition ep_count (e : epoch) (ty n : Z) : epoch := mkEpoch (add_at ty n (counted e)) (placed e) (started e) (since e).
Definition ep_place (e : epoch) (ty i n : Z) : epoch :=
  mkEpoch (counted e) (fun id => if decide (id = ty) then add_at i n (placed e id) else placed e id) (started e) (since e).

Definition ep_call (c : PerfConfig) (e : epoch) (r : report) : epoch :=
  match r with
  | Begin now t co ty =>
      if decide (t = 0)
      then mkEpoch (counted e) (placed e) (fun id j => if decide (id = ty /\ j = co) then now else started e id j) (since e)
      else e
  | End_ now cnt t co ty =>
      let e := ep_count e ty cnt in
      if decide (t = 0) then ep_place e ty (position_of c (timer_end (started e ty co) now)) 1 else e
  | EndCopy cnt t ty res =>
      let e := ep_count e ty cnt in
      if decide (t = 0) then ep_place e ty (position_of c res) cnt else e
  end.

(** A report of a type leaves the epoch with nothing of it. *)
Definition ep_clear (e : epoch) (ty : Z) : epoch :=
  mkEpoch (fun id => if decide (id = ty) then 0 else counted e id)
    (fun id => if decide (id = ty) then fun _ => 0 else placed e id) (started e) (since e).

Definition report_fits (c : PerfConfig) (r : report) : Prop :=
  match r with
  | Begin _ t co ty | End_ _ _ t co ty => 0 <= t < thread_cnt c /\ 0 <= co < coro_cnt c /\ 0 <= ty < type_cnt c
  | EndCopy _ t ty res => 0 <= t < thread_cnt c /\ 0 <= ty < type_cnt c /\ in_width 64 res
  end.

(** ** The counters of the threads *)

Definition cell (l : list Z) (i : Z) : Z := match zget l i with Some x => x | None => 0 end.

(** The requests of type [id] thread [t] made since the last report of them. *)
Definition diff (p : PerfTool) (id t : Z) : Z :=
  match zget (req_count p) t with
  | Some (Some r) => wrap 64 (cell r id - cell r (id + tp_offset (config p)))
  | _ => 0
  end.

Definition rows_ok (p : PerfTool) : Prop :=
  forall t, 0 <= t < thread_cnt (config p) ->
    exists r, zget (req_count p) t = Some (Some r) /\ zlen r = tp_offset (config p) * 2.

Lemma tp_offset_covers c : 0 <= type_cnt c -> type_cnt c <= tp_offset c.
Proof. intros H. unfold tp_offset. lia. Qed.

Lemma wrap_plus a b : wrap 64 (wrap 64 a + b) = wrap 64 (a + b).
Proof. apply Zplus_mod_idemp_l. Qed.

Lemma wrap_plus_r a b : wrap 64 (a + wrap 64 b) = wrap 64 (a + b).
Proof. apply Zplus_mod_idemp_r. Qed.

Lemma wrap_minus a b : wrap 64 (wrap 64 a - b) = wrap 64 (a - b).
Proof. apply Zminus_mod_idemp_l. Qed.

Lemma cell_zset l i x j : 0 <= i < zlen l -> cell (zset l i x) j = if decide (j = i) then x else cell l j.
Proof.
  intros Hi. unfold cell. destruct (decide (j = i)) as [->|Hne]; [by rewrite zget_zset_eq|].
  by rewrite zget_zset_ne by congruence.
Qed.

Lemma load_cell (l : list Z) i : 0 <= i < zlen l -> load l i = Done (cell l i).
Proof. intros Hi. destruct (zget_is_Some l i Hi) as [x E]. rewrite (load_in_range _ _ _ E). unfold cell. by rewrite E. Qed.

Lemma rows_store p t r : rows_ok p -> 0 <= t < thread_cnt (config p) -> zlen r = tp_offset (config p) * 2 ->
  store (req_count p) t (Some r) = Done (zset (req_count p) t (Some r)) /\
  rows_ok (with_req_count p (zset (req_count p) t (Some r))).
Proof.
  intros Hrows Ht Hr. destruct (Hrows t Ht) as (r0 & E & _). apply zget_Some_range in E. split; [by apply store_in_range|].
  intros t' Ht'. cbn. destruct (decide (t' = t)) as [->|Hne]; [exists r; by rewrite zget_zset_eq|].
  rewrite zget_zset_ne by congruence. by apply Hrows.
Qed.

Lemma count_spec p t ty cnt : rows_ok p -> 0 <= t < thread_cnt (config p) -> 0 <= ty < type_cnt (config p) ->
  exists rs, count p t ty cnt = Done (with_req_count p rs) /\ rows_ok (with_req_count p rs) /\
    forall id t', 0 <= id < type_cnt (config p) ->
      diff (with_req_count p rs) id t' = if decide (id = ty /\ t' = t) then wrap 64 (diff p id t' + cnt) else diff p id t'.
Proof.
  intros Hrows Ht Hty. destruct (Hrows t Ht) as (r & E & Hl). pose proof (tp_offset_covers (config p) ltac:(lia)) as Hoff.
  unfold count. rewrite (load_in_range _ _ _ E), obind_done, load_cell, obind_done, store_in_range, obind_done by lia.
  destruct (rows_store p t (zset r ty (wrap 64 (cell r ty + cnt))) Hrows Ht ltac:(by rewrite zlen_zset)) as [-> Hrows'].
  rewrite obind_done. eexists. split; [reflexivity|]. split; [exact Hrows'|]. intros id t' Hid. unfold diff. cbn.
  pose proof (zget_Some_range _ _ _ E) as Htr. destruct (decide (t' = t)) as [->|Hne].
  - rewrite zget_zset_eq, E, !cell_zset, (decide_False (P := _ + _ = _)) by lia. destruct (decide (id = ty)) as [->|Hid'].
    + rewrite decide_True by done. rewrite wrap_minus, wrap_plus. f_equal. lia.
    + rewrite decide_False by tauto. done.
  - rewrite zget_zset_ne, decide_False by (congruence || tauto). done.
Qed.

(** The report of a type sums what the threads counted and starts them from there. *)
Lemma merge_from_spec p id ts acc : rows_ok p -> 0 <= id < type_cnt (config p) -> NoDup ts ->
  (forall t, t ∈ ts -> 0 <= t < thread_cnt (config p)) -> in_width 64 acc ->
  exists rs, merge_from p id ts acc = Done (with_req_count p rs, wrap 64 (acc + zsum (map (diff p id) ts))) /\
    rows_ok (with_req_count p rs) /\
    forall id' t, 0 <= id' < type_cnt (config p) ->
      diff (with_req_count p rs) id' t = if decide (id' = id /\ t ∈ ts) then 0 else diff p id' t.
Proof.
  intros Hrows Hid Hnd Hts Hacc. revert p acc Hrows Hid Hts Hacc. induction Hnd as [|t ts Hnin Hnd IH]; intros p acc Hrows Hid Hts Hacc.
  - exists (req_count p). assert (Ep : with_req_count p (req_count p) = p) by (by destruct p). rewrite Ep. cbn. rewrite Z.add_0_r, wrap_small by done.
    split; [done|]. split; [done|]. intros id' t _. rewrite decide_False; [done|]. intros [_ H]. by apply elem_of_nil in H.
  - assert (Ht : 0 <= t < thread_cnt (config p)) by (apply Hts; set_solver).
    destruct (Hrows t Ht) as (r & E & Hl). pose proof (tp_offset_covers (config p) ltac:(lia)) as Hoff.
    cbn [merge_from]. rewrite (load_in_range _ _ _ E), obind_done, !load_cell, !obind_done, store_in_range, obind_done by lia.
    set (off := tp_offset (config p)) in *. set (r' := zset r (id + off) (cell r id)).
    destruct (rows_store p t r' Hrows Ht ltac:(by unfold r'; rewrite zlen_zset)) as [-> Hrows']. rewrite obind_done.
    set (p1 := with_req_count p (zset (req_count p) t (Some r'))) in *.
    assert (Hd : forall id' t', 0 <= id' < type_cnt (config p) -> diff p1 id' t' = if decide (id' = id /\ t' = t) then 0 else diff p id' t').
    { intros id' t' Hid'. pose proof (zget_Some_range _ _ _ E) as Htr. unfold diff, p1. cbn. fold off. destruct (decide (t' = t)) as [->|Hne].
      - rewrite zget_zset_eq, E by lia. unfold r'. rewrite !cell_zset, (decide_False (P := id' = id + off)) by lia. destruct (decide (id' = id)) as [->|Hne'].
        + rewrite !decide_True by done. by rewrite Z.sub_diag.
        + rewrite !decide_False by lia. done.
      - rewrite zget_zset_ne, decide_False by (congruence || tauto). done. }
    assert (Hd0 : wrap 64 (cell r id - cell r (id + off)) = diff p id t) by (unfold diff; by rewrite E).
    destruct (IH p1 (wrap 64 (acc + wrap 64 (cell r id - cell r (id + off)))) Hrows' Hid) as (rs & Em & Hrs & Hdiff).
    { intros t' Hin. apply Hts. set_solver. } { apply wrap_range. lia. }
    exists rs. rewrite Em. split; [|split].
    + f_equal. f_equal. rewrite wrap_plus, Hd0. f_equal. cbn [map zsum foldr]. fold (zsum (map (diff p id) ts)).
      rewrite <- Z.add_assoc. f_equal. f_equal. f_equal. apply map_ext_in. intros t' Hin%list_elem_of_In. rewrite Hd by done. apply decide_False. intros [_ ->]. done.
    + exact Hrs.
    + intros id' t' Hid'. etransitivity; [exact (Hdiff id' t' Hid')|]. rewrite Hd by done.
      destruct (decide (id' = id /\ t' ∈ ts)) as [[-> Hin]|Hn1]; [rewrite decide_True by set_solver; done|].
      destruct (decide (id' = id /\ t' = t)) as [[-> ->]|Hn2]; [rewrite decide_True by set_solver; done|].
      rewrite decide_False; [done|]. intros [-> Hin]. apply elem_of_cons in Hin as [->|]; tauto.
Qed.

(** ** The sum over the threads *)

Definition total (p : PerfTool) (id : Z) : Z := wrap 64 (zsum (map (diff p id) (seqZ 0 (thread_cnt (config p))))).

Lemma zsum_updated (f g : Z -> Z) t n ts : NoDup ts -> t ∈ ts ->
  (forall t', g t' = if decide (t' = t) then wrap 64 (f t' + n) else f t') ->
  wrap 64 (zsum (map g ts)) = wrap 64 (zsum (map f ts) + n).
Proof.
  intros Hnd Hin Hg. induction Hnd as [|t0 ts Hnin Hnd IH]; [by apply elem_of_nil in Hin|].
  unfold zsum in *. cbn [map foldr]. rewrite Hg. apply elem_of_cons in Hin as [<-|Hin].
  - rewrite decide_True, wrap_plus by done.
    replace (map g ts) with (map f ts); [f_equal; lia|]. apply map_ext_in. intros t' Hin%list_elem_of_In. rewrite Hg. symmetry. apply decide_False. congruence.
  - rewrite decide_False by congruence. specialize (IH Hin). rewrite <- wrap_plus_r, IH, wrap_plus_r. f_equal. lia.
Qed.

Lemma total_counted p p' t ty n id : config p' = config p -> 0 <= t < thread_cnt (config p) ->
  (forall t', diff p' id t' = if decide (id = ty /\ t' = t) then wrap 64 (diff p id t' + n) else diff p id t') ->
  total p' id = wrap 64 (total p id + if decide (id = ty) then n else 0).
Proof.
  intros Ec Ht Hd. unfold total. rewrite Ec, wrap_plus. destruct (decide (id = ty)) as [->|Hne].
  - apply (zsum_updated _ _ t); [apply NoDup_seqZ|apply elem_of_seqZ; lia|].
    intros t'. rewrite Hd. destruct (decide (t' = t)); [by rewrite decide_True by tauto|by rewrite decide_False by tauto].
  - rewrite Z.add_0_r. do 2 f_equal. apply map_ext. intros t'. rewrite Hd. apply decide_False. tauto.
Qed.

(** ** The tool represents the epoch *)

Definition config_ok (c : PerfConfig) : Prop :=
  range_ok c /\ 10 <= slowest_latency c - fastest_latency c /\ 0 <= type_cnt c /\ 1 <= thread_cnt c /\
  1 <= coro_cnt c /\ phase_cnt c = 1.

(** The histograms of a type: the second is the first as of the last report. *)
Definition histogram (p : PerfTool) (f : Z -> Z) (id : Z) : Prop :=
  exists b k, zget (latency_bucket p) id = Some b /\ zget (latency_bucket_back p) id = Some k /\
    zlen b = kLatencyArray + 1 /\ zlen k = kLatencyArray + 1 /\
    forall i, 0 <= i < kLatencyArray -> wrap 64 (cell b i - cell k i) = wrap 64 (f i).

Definition timed (p : PerfTool) (f : Z -> timespec) (id : Z) : Prop :=
  exists ts, zget (timer p) id = Some ts /\ zlen ts = coro_cnt (config p) /\
    forall co, 0 <= co < coro_cnt (config p) -> zget ts co = Some (f co).

Record represents (p : PerfTool) (e : epoch) : Prop := {
  rep_config : config_ok (config p);
  rep_extremes : type_cnt (config p) <= zlen (fast p) /\ type_cnt (config p) <= zlen (last p) /\
    type_cnt (config p) <= zlen (name p);
  rep_rows : rows_ok p;
  rep_counted : forall id, 0 <= id < type_cnt (config p) -> total p id = wrap 64 (counted e id);
  rep_placed : forall id, 0 <= id < type_cnt (config p) -> histogram p (placed e id) id;
  rep_started : forall id, 0 <= id < type_cnt (config p) -> timed p (started e id) id;
  rep_since : tp_epoch_time p = since e }.

Lemma represents_req p e ty n t rs : represents p e -> 0 <= t < thread_cnt (config p) ->
  rows_ok (with_req_count p rs) ->
  (forall id t', 0 <= id < type_cnt (config p) ->
    diff (with_req_count p rs) id t' = if decide (id = ty /\ t' = t) then wrap 64 (diff p id t' + n) else diff p id t') ->
  represents (with_req_count p rs) (ep_count e ty n).
Proof.
  intros [H1 H2 H3 H4 H5 H6 H7] Ht Hrows Hd. constructor; [done..| |done|done|done].
  intros id Hid. rewrite (total_counted p (with_req_count p rs) t ty n id eq_refl Ht) by (intros t'; by apply Hd).
  rewrite H4, wrap_plus by done. cbn. unfold add_at. destruct (decide (id = ty)); f_equal; lia.
Qed.

Lemma count_sim p e t ty cnt : represents p e -> 0 <= t < thread_cnt (config p) -> 0 <= ty < type_cnt (config p) ->
  exists p', count p t ty cnt = Done p' /\ represents p' (ep_count e ty cnt) /\ config p' = config p /\ timer p' = timer p.
Proof.
  intros Hp Ht Hty. destruct (count_spec p t ty cnt (rep_rows _ _ Hp) Ht Hty) as (rs & -> & Hrows & Hd).
  eexists. split; [reflexivity|]. split; [by apply (represents_req p e ty cnt t)|done].
Qed.

Lemma position_of_in_range c res : range_ok c -> in_width 64 res ->
  position c res = Done (position_of c res) /\ 0 <= position_of c res < kLatencyArray.
Proof. intros Hr Hres. destruct (position_in_range c res Hr Hres) as (i & E & Hi & _). unfold position_of. by rewrite E. Qed.

Lemma histogram_placed p f id b i n : histogram p f id -> 0 <= i < kLatencyArray -> zget (latency_bucket p) id = Some b ->
  forall q, latency_bucket q = zset (latency_bucket p) id (zset b i (wrap 64 (cell b i + n))) ->
    latency_bucket_back q = latency_bucket_back p -> histogram q (add_at i n f) id.
Proof.
  intros (b0 & k & Eb & Ek & Lb & Lk & Hc) Hi Eb' q Hb Hk. rewrite Eb in Eb'. injection Eb' as <-.
  eexists _, k. rewrite Hb, Hk. split; [apply zget_zset_eq; by eapply zget_Some_range|]. split; [done|]. rewrite zlen_zset.
  split; [done|]. split; [done|]. intros j Hj. rewrite cell_zset by lia. unfold add_at.
  destruct (decide (j = i)) as [->|Hne]; [|by apply Hc]. rewrite wrap_minus.
  replace (cell b0 i + n - cell k i) with (cell b0 i - cell k i + n) by lia.
  by rewrite <- wrap_plus, Hc, wrap_plus.
Qed.

Lemma histogram_kept p q f id : histogram p f id -> zget (latency_bucket q) id = zget (latency_bucket p) id ->
  zget (latency_bucket_back q) id = zget (latency_bucket_back p) id -> histogram q f id.
Proof. intros (b & k & Eb & Ek & H) Hb Hk. exists b, k. rewrite Hb, Hk. tauto. Qed.

Lemma add_latency_sim p e ty res cnt : represents p e -> 0 <= ty < type_cnt (config p) -> in_width 64 res ->
  exists p', add_latency p ty 0 res cnt = Done p' /\ represents p' (ep_place e ty (position_of (config p) res) cnt) /\ config p' = config p.
Proof.
  intros [H1 H2 H3 H4 H5 H6 H7] Hty Hres. pose proof H1 as (Hr & _ & _ & _ & _ & Hph).
  destruct (position_of_in_range (config p) res Hr Hres) as [Epos Hpos].
  destruct (H5 ty Hty) as (b & k & Eb & Ek & Lb & Lk & Hc). unfold add_latency, get_pos.
  destruct (zget_is_Some (fast p) ty) as [f Ef]; [lia|]. destruct (zget_is_Some (last p) ty) as [l El]; [lia|].
  rewrite (load_in_range _ _ _ Ef), obind_done, store_in_range, obind_done by lia.
  rewrite (load_in_range _ _ _ El), obind_done, store_in_range, obind_done, Epos, !obind_done by lia. cbn [config with_extremes latency_bucket latency_bucket_back].
  rewrite Hph, Z.mul_1_r, Z.add_0_r, (load_in_range _ _ _ Eb), obind_done, load_cell, obind_done, store_in_range, obind_done, store_in_range, obind_done
    by (try apply (zget_Some_range _ _ _ Eb); lia).
  eexists. split; [reflexivity|]. split; [|done]. constructor; cbn; [done| |done|done| |done|done].
  - rewrite !zlen_zset. done.
  - intros id Hid. destruct (decide (id = ty)) as [->|Hne]; [by eapply histogram_placed; [by apply H5|done|done|done|done]|].
    eapply histogram_kept; [by apply H5| |done]. cbn. by rewrite zget_zset_ne by congruence.
Qed.

Lemma begin_sim p e now t co ty : represents p e -> report_fits (config p) (Begin now t co ty) ->
  exists p', begin p now t co ty = Done p' /\ represents p' (ep_call (config p) e (Begin now t co ty)) /\ config p' = config p.
Proof.
  intros Hp (Ht & Hco & Hty). unfold begin. cbn [ep_call]. destruct (Z.eqb_spec t 0) as [->|Hne].
  2:{ rewrite decide_False by done. by exists p. }
  rewrite decide_True by done. destruct Hp as [H1 H2 H3 H4 H5 H6 H7]. destruct (H6 ty Hty) as (ts & Et & Lt & Hts).
  rewrite (load_in_range _ _ _ Et), obind_done, store_in_range, obind_done, store_in_range, obind_done by (try apply (zget_Some_range _ _ _ Et); lia).
  eexists. split; [reflexivity|]. split; [|done]. constructor; [done..| |done]. intros id Hid. cbn [started].
  destruct (decide (id = ty)) as [->|Hne].
  - exists (zset ts co now). split; [apply zget_zset_eq; by eapply zget_Some_range|]. split; [by rewrite zlen_zset|].
    intros j Hj. destruct (decide (ty = ty /\ j = co)) as [[_ ->]|Hn]; [apply zget_zset_eq; lia|]. rewrite zget_zset_ne by (intros ->; tauto). by apply Hts.
  - destruct (H6 id Hid) as (ts' & Et' & Lt' & Hts'). exists ts'. cbn. split; [by rewrite zget_zset_ne by congruence|]. split; [done|].
    intros j Hj. rewrite decide_False by tauto. by apply Hts'.
Qed.

Lemma timer_end_width s e : in_width 64 (timer_end s e).
Proof. apply wrap_range. lia. Qed.

Lemma end_sim p e now cnt t co ty : represents p e -> report_fits (config p) (End_ now cnt t co ty) ->
  exists p', call p (End_ now cnt t co ty) = Done p' /\ represents p' (ep_call (config p) e (End_ now cnt t co ty)) /\ config p' = config p.
Proof.
  intros Hp (Ht & Hco & Hty). cbn [call ep_call]. unfold many_end.
  destruct (count_sim p e t ty cnt Hp Ht Hty) as (p1 & -> & Hp1 & Ec & Etm). rewrite obind_done.
  destruct (Z.eqb_spec t 0) as [->|Hne]; [rewrite decide_True by done|rewrite decide_False by done; exists p1; by rewrite obind_done].
  destruct (rep_started _ _ Hp ty Hty) as (ts & Et & Lt & Hts). unfold get_res. rewrite Etm, (load_in_range _ _ _ Et), obind_done, (load_in_range _ _ _ (Hts co Hco)), !obind_done.
  destruct (add_latency_sim p1 _ ty (timer_end (started e ty co) now) 1 Hp1 ltac:(by rewrite Ec) (timer_end_width _ _)) as (p2 & -> & Hp2 & Ec2).
  rewrite !obind_done. exists p2. rewrite Ec in *. done.
Qed.

Lemma copy_sim p e cnt t ty res : represents p e -> report_fits (config p) (EndCopy cnt t ty res) ->
  exists p', call p (EndCopy cnt t ty res) = Done p' /\ represents p' (ep_call (config p) e (EndCopy cnt t ty res)) /\ config p' = config p.
Proof.
  intros Hp (Ht & Hty & Hres). cbn [call ep_call]. unfold many_end_copy.
  destruct (count_sim p e t ty cnt Hp Ht Hty) as (p1 & -> & Hp1 & Ec & _). rewrite obind_done.
  destruct (Z.eqb_spec t 0) as [->|Hne]; [rewrite decide_True by done|rewrite decide_False by done; by exists p1].
  destruct (add_latency_sim p1 _ ty res cnt Hp1 ltac:(by rewrite Ec) Hres) as (p2 & -> & Hp2 & Ec2).
  exists p2. rewrite Ec in *. done.
Qed.

Lemma call_sim p e r : represents p e -> report_fits (config p) r ->
  exists p', call p r = Done p' /\ represents p' (ep_call (config p) e r) /\ config p' = config p.
Proof. destruct r; [apply begin_sim|apply end_sim|apply copy_sim]. Qed.

Lemma calls_sim p e rs : represents p e -> Forall (report_fits (config p)) rs ->
  exists p', calls p rs = Done p' /\ represents p' (foldl (ep_call (config p)) e rs) /\ config p' = config p.
Proof.
  intros Hp Hrs. revert p e Hp Hrs. induction rs as [|r rs IH]; intros p e Hp Hrs; [by exists p|].
  apply Forall_cons in Hrs as [Hr Hrs]. cbn [calls foldl]. destruct (call_sim p e r Hp Hr) as (p1 & -> & Hp1 & Ec). rewrite obind_done.
  destruct (IH p1 _ Hp1 ltac:(by rewrite Ec)) as (p2 & -> & Hp2 & Ec2). exists p2. rewrite Ec in *. by split.
Qed.

(** ** The report *)

(** The new samples of a type by position. *)
Definition new_samples (f : Z -> Z) : list Z := map (fun i => wrap 64 (f i)) (seqZ 0 kLatencyArray).

Lemma new_samples_length f : zlen (new_samples f) = kLatencyArray.
Proof. unfold zlen, new_samples. rewrite length_map, length_seqZ. unfold kLatencyArray. lia. Qed.

Lemma new_samples_nonneg f : Forall (fun d => 0 <= d) (new_samples f).
Proof. apply Forall_forall. intros d Hin. apply list_elem_of_In, in_map_iff in Hin as (j & <- & _). by apply wrap_range. Qed.

Lemma new_samples_lookup f (i : nat) : Z.of_nat i < kLatencyArray -> new_samples f !! i = Some (wrap 64 (f (Z.of_nat i))).
Proof. intros Hi. unfold new_samples. by rewrite list_lookup_fmap, lookup_seqZ_lt. Qed.

Lemma lookup_cell (l : list Z) (i : nat) : (i < length l)%nat -> l !! i = Some (cell l (Z.of_nat i)).
Proof.
  intros Hi. unfold cell, zget. rewrite decide_True by lia. rewrite Nat2Z.id.
  by destruct (lookup_lt_is_Some_2 l i Hi) as [x ->].
Qed.

Lemma histogram_samples b k f : zlen b = kLatencyArray + 1 -> zlen k = kLatencyArray + 1 ->
  (forall i, 0 <= i < kLatencyArray -> wrap 64 (cell b i - cell k i) = wrap 64 (f i)) ->
  zip_with (fun x y => wrap 64 (x - y)) (take (Z.to_nat kLatencyArray) b) (take (Z.to_nat kLatencyArray) k) = new_samples f.
Proof.
  intros Lb Lk Hc. pose proof (new_samples_length f) as Ln. unfold zlen in *.
  assert (Hn : Z.of_nat (Z.to_nat kLatencyArray) = kLatencyArray) by done. set (n := Z.to_nat kLatencyArray) in *.
  apply list_eq_same_length with n; [lia|rewrite length_zip_with, !length_take; lia|].
  intros i x y Hi Hx Hy. rewrite lookup_zip_with, !lookup_take_lt, !lookup_cell in Hx by lia. rewrite new_samples_lookup in Hy by lia.
  cbn in Hx. rewrite Hc in Hx by lia. congruence.
Qed.

(** What a line shows of the epoch. *)
Definition shown (c : PerfConfig) (e : epoch) (i : Z) : Z * Z * percentiles :=
  let ans := sums (new_samples (placed e i)) 0 in
  let total := List.last ans 0 in
  (wrap 64 (counted e i), total, pct_loop c total 0 ans (mkPct 0 0 0 0)).

Definition summary (l : line) : Z * Z * percentiles := (ln_count l, ln_samples l, ln_pct l).

Lemma merge_sim p e id : represents p e -> 0 <= id < type_cnt (config p) ->
  exists p', merge_count_by_id p id = Done (p', wrap 64 (counted e id)) /\ config p' = config p /\
    represents p' (mkEpoch (fun j => if decide (j = id) then 0 else counted e j) (placed e) (started e) (since e)).
Proof.
  intros Hp Hid. pose proof Hp as [H1 H2 H3 H4 H5 H6 H7]. unfold merge_count_by_id.
  destruct (zget_is_Some (name p) id) as [s Es]; [lia|]. rewrite (load_in_range _ _ _ Es), obind_done.
  destruct (merge_from_spec p id (seqZ 0 (thread_cnt (config p))) 0 H3 Hid) as (rs & -> & Hrows & Hd).
  { apply NoDup_seqZ. } { intros t Ht%elem_of_seqZ. lia. } { unfold in_width. lia. }
  eexists. split; [rewrite Z.add_0_l; f_equal; f_equal; exact (H4 id Hid)|]. split; [done|]. constructor; [done..| |done|done|done].
  intros j Hj. cbn [counted]. unfold total at 1. cbn [config with_req_count]. destruct (decide (j = id)) as [->|Hne].
  - replace (map _ _) with (map (fun _ : Z => 0) (seqZ 0 (thread_cnt (config p)))).
    { f_equal. generalize (seqZ 0 (thread_cnt (config p))). intros ts. induction ts as [|t ts IH]; [done|]. unfold zsum in *. cbn [map foldr]. by rewrite IH. }
    apply map_ext_in. intros t Ht%list_elem_of_In. rewrite Hd by done. by rewrite decide_True.
  - rewrite <- H4 by done. unfold total. do 2 f_equal. apply map_ext. intros t. rewrite Hd by done. apply decide_False. tauto.
Qed.

Lemma latency_sim p e id : represents p e -> 0 <= id < type_cnt (config p) ->
  exists p' average, let '(_, n, pct) := shown (config p) e id in
    print_latency_file p id = Done (p', (n, average, pct)) /\ config p' = config p /\
    fast p' = fast p /\ last p' = last p /\ name p' = name p /\
    represents p' (mkEpoch (counted e) (fun j => if decide (j = id) then fun _ => 0 else placed e j) (started e) (since e)).
Proof.
  intros [H1 H2 H3 H4 H5 H6 H7] Hid. destruct (H5 id Hid) as (b & k & Eb & Ek & Lb & Lk & Hc). unfold print_latency_file, shown.
  rewrite (load_in_range _ _ _ Eb), obind_done, (load_in_range _ _ _ Ek), obind_done, store_in_range, obind_done by (by eapply zget_Some_range).
  rewrite (histogram_samples b k (placed e id)) by done. do 2 eexists. split; [reflexivity|]. do 4 (split; [done|]).
  constructor; [done..| |done|done]. intros j Hj. cbn [placed]. destruct (decide (j = id)) as [->|Hne].
  - eexists b, _. cbn. split; [done|]. split; [apply zget_zset_eq; by eapply zget_Some_range|]. split; [done|].
    unfold zlen in *. rewrite length_app, length_take, length_drop. unfold kLatencyArray in *. split; [lia|].
    intros i Hi. replace (cell (take _ b ++ _) i) with (cell b i); [by rewrite Z.sub_diag|].
    unfold cell, zget. rewrite !decide_True by lia. rewrite lookup_app_l by (rewrite length_take; lia). by rewrite lookup_take_lt by lia.
  - destruct (H5 j Hj) as (b' & k' & Eb' & Ek' & H). exists b', k'. cbn. rewrite zget_zset_ne by congruence. done.
Qed.

Lemma line_sim p e now id : represents p e -> 0 <= id < type_cnt (config p) ->
  exists p' l, print_line p now id = Done (p', l) /\ config p' = config p /\ summary l = shown (config p) e id /\
    represents p' (ep_clear e id).
Proof.
  intros Hp Hid. unfold print_line. destruct (merge_sim p e id Hp Hid) as (p1 & -> & Ec & Hp1). rewrite obind_done.
  destruct (latency_sim p1 _ id Hp1 ltac:(by rewrite Ec)) as (p2 & av & H). unfold shown in H. destruct H as (-> & Ec2 & Ef & El & En & Hp2).
  rewrite obind_done. pose proof (rep_extremes _ _ Hp2) as (L1 & L2 & L3). rewrite Ec2, Ec in L1, L2, L3.
  destruct (zget_is_Some (name p2) id) as [s Es]; [lia|]. destruct (zget_is_Some (fast p2) id) as [f Ef']; [lia|]. destruct (zget_is_Some (last p2) id) as [l El']; [lia|].
  rewrite (load_in_range _ _ _ Es), obind_done, (load_in_range _ _ _ Ef'), obind_done, (load_in_range _ _ _ El'), obind_done.
  do 2 eexists. split; [reflexivity|]. split; [congruence|]. split; [|exact Hp2]. unfold summary, shown. cbn. by rewrite Ec.
Qed.

(** The samples below a position when one is added. *)
Lemma samples_added f i n (q : nat) : 0 <= i -> Z.of_nat q <= kLatencyArray -> 0 <= f i -> 0 <= n -> f i + n < 2 ^ 64 ->
  zsum (take q (new_samples (add_at i n f))) = zsum (take q (new_samples f)) + if decide (i < Z.of_nat q) then n else 0.
Proof.
  intros Hi Hq Hf Hn Hw. induction q as [|q IH]; [by rewrite decide_False by lia|].
  rewrite (take_S_r _ q _ (new_samples_lookup (add_at i n f) q ltac:(lia))), (take_S_r _ q _ (new_samples_lookup f q ltac:(lia))), !zsum_app, IH by lia.
  unfold zsum at 2 4. cbn [foldr]. unfold add_at. destruct (decide (Z.of_nat q = i)) as [<-|Hne].
  - rewrite decide_False, decide_True, !wrap_small by (unfold in_width; lia). lia.
  - destruct (decide (i < Z.of_nat q)); [rewrite decide_True by lia|rewrite decide_False by lia]; lia.
Qed.

Lemma samples_none (q : nat) : zsum (take q (new_samples (fun _ => 0))) = 0.
Proof.
  unfold new_samples. revert q. generalize (seqZ 0 kLatencyArray). intros l. unfold zsum.
  induction l as [|x l IH]; intros [|q]; cbn; [done..|]. by rewrite IH.
Qed.

Lemma samples_total f : zsum (new_samples f) = zsum (take (Z.to_nat kLatencyArray) (new_samples f)).
Proof. rewrite firstn_all2; [done|]. pose proof (new_samples_length f) as H. unfold zlen in H. lia. Qed.

Lemma two_samples (q : nat) : Z.of_nat q <= kLatencyArray ->
  zsum (take q (new_samples (add_at 3 1 (add_at 5 1 (fun _ => 0))))) =
  (if decide (5 < Z.of_nat q) then 1 else 0) + if decide (3 < Z.of_nat q) then 1 else 0.
Proof. intros Hq. rewrite !samples_added, samples_none by (done || lia). lia. Qed.

Lemma two_samples_total : zsum (new_samples (add_at 3 1 (add_at 5 1 (fun _ => 0)))) = 2.
Proof. rewrite samples_total, two_samples by (rewrite Z2Nat.id; unfold kLatencyArray; lia). rewrite Z2Nat.id by (unfold kLatencyArray; lia). done. Qed.

(** ** From set-up on *)

(** What the main thread does before it starts the others. *)
Definition set_up (c : PerfConfig) (names : list string) (fast0 last0 : list Z) (t0 stale : timespec) : outcome PerfTool :=
  let! p := PerfTool_new c fast0 last0 t0 in
  master_init_all_worker (master_thread_init (foldl (fun p s => new_type p s 0) p names)) stale.

Inductive event :=
  | Reported (r : report)
  | Printed (now after : timespec) (clock : Z -> timespec) (print_num : Z).

Fixpoint run (p : PerfTool) (evs : list event) : outcome (list line) :=
  match evs with
  | [] => Done []
  | Reported r :: evs => let! p := call p r in run p evs
  | Printed now after clock n :: evs =>
      let! (p, ls) := try_print p now after clock n in
      let! rest := run p evs in
      Done (default [] ls ++ rest)
  end.

(** The same on the epoch. *)
Fixpoint ep_print (c : PerfConfig) (e : epoch) (ids : list Z) : epoch * list (Z * Z * percentiles) :=
  match ids with
  | [] => (e, [])
  | i :: ids => let '(e', ls) := ep_print c (ep_clear e i) ids in (e', shown c e i :: ls)
  end.

Fixpoint ep_run (c : PerfConfig) (e : epoch) (evs : list event) : list (Z * Z * percentiles) :=
  match evs with
  | [] => []
  | Reported r :: evs => ep_run c (ep_call c e r) evs
  | Printed now after clock n :: evs =>
      if wrap 64 (1000000000 * print_interval c) <? timer_end (since e) now then
        let '(e, ls) := ep_print c e (seqZ 0 (Z.min n (type_cnt c))) in
        ls ++ ep_run c (mkEpoch (counted e) (placed e) (started e) after) evs
      else ep_run c e evs
  end.

Definition event_fits (c : PerfConfig) (ev : event) : Prop :=
  match ev with Reported r => report_fits c r | Printed _ _ _ _ => True end.

Lemma lines_sim p e clock ids : represents p e -> (forall i, i ∈ ids -> 0 <= i < type_cnt (config p)) ->
  exists p' ls, print_lines p clock ids = Done (p', ls) /\ config p' = config p /\
    map summary ls = (ep_print (config p) e ids).2 /\ represents p' (ep_print (config p) e ids).1.
Proof.
  revert p e. induction ids as [|i ids IH]; intros p e Hp Hin; [by exists p, []|]. cbn [print_lines ep_print].
  destruct (line_sim p e (clock i) i Hp (Hin i ltac:(by left))) as (p1 & l & -> & Ec & Es & Hp1). rewrite obind_done.
  destruct (IH p1 _ Hp1) as (p2 & ls & -> & Ec2 & Els & Hp2); [intros j Hj; rewrite Ec; apply Hin; by right|]. rewrite obind_done.
  rewrite Ec in *. destruct (ep_print (config p) (ep_clear e i) ids) as [e' ls'] eqn:Ep. cbn [fst snd] in Els, Hp2 |- *.
  exists p2, (l :: ls). cbn [map]. split; [reflexivity|]. split; [exact Ec2|]. split; [rewrite Es, Els; reflexivity|exact Hp2].
Qed.

Lemma print_sim p e now after clock n : represents p e ->
  exists p' ls, try_print p now after clock n = Done (p', ls) /\ config p' = config p /\
    if wrap 64 (1000000000 * print_interval (config p)) <? timer_end (since e) now
    then let '(e', sh) := ep_print (config p) e (seqZ 0 (Z.min n (type_cnt (config p)))) in
      map summary (default [] ls) = sh /\ represents p' (mkEpoch (counted e') (placed e') (started e') after)
    else ls = None /\ p' = p.
Proof.
  intros Hp. unfold try_print. rewrite (rep_since _ _ Hp). destruct (_ <? _); [|by exists p, None].
  destruct (lines_sim p e clock (seqZ 0 (Z.min n (type_cnt (config p)))) Hp) as (p1 & ls & -> & Ec & Els & Hp1); [intros i Hi%elem_of_seqZ; lia|].
  rewrite obind_done. destruct (ep_print _ _ _) as [e' sh]. cbn [fst snd] in Els, Hp1. do 2 eexists. split; [reflexivity|]. split; [done|]. split; [done|].
  destruct Hp1 as [H1 (L1 & L2 & L3) H3 H4 H5 H6 H7]. constructor; cbn; try done. unfold zlen in *. pose proof (rep_config _ _ Hp) as (_ & _ & Hty & _).
  rewrite !length_app, !length_replicate, !length_drop. rewrite <- Ec in Hty. lia.
Qed.

Lemma run_shows p e evs : represents p e -> Forall (event_fits (config p)) evs ->
  exists ls, run p evs = Done ls /\ map summary ls = ep_run (config p) e evs.
Proof.
  intros Hp Hev. revert p e Hp Hev. induction evs as [|[r|now after clock n] evs IH]; intros p e Hp Hev; [by exists []|..];
    apply Forall_cons in Hev as [Hr Hev]; cbn [run ep_run].
  - destruct (call_sim p e r Hp Hr) as (p1 & -> & Hp1 & Ec). rewrite obind_done. rewrite <- Ec in Hev.
    destruct (IH p1 _ Hp1 Hev) as (ls & -> & Els). exists ls. by rewrite Els, Ec.
  - destruct (print_sim p e now after clock n Hp) as (p1 & ls & -> & Ec & H). rewrite obind_done.
    rewrite <- Ec in Hev. destruct (_ <? _).
    + destruct (ep_print _ _ _) as [e' sh]. destruct H as [<- Hp1]. destruct (IH p1 _ Hp1 Hev) as (rest & -> & Er). rewrite obind_done.
      eexists. split; [reflexivity|]. by rewrite map_app, Er, Ec.
    + destruct H as [-> ->]. destruct (IH p e Hp Hev) as (rest & -> & Er). rewrite obind_done. by exists rest.
Qed.

Section workers.
Context (c : PerfConfig) (stale : timespec).
Hypothesis Hc : config_ok c.

Definition zero_row : option (list Z) := Some (replicate (Z.to_nat (tp_offset c * 2)) 0).
Definition new_timers : list (list timespec) :=
  replicate (Z.to_nat (type_cnt c)) (replicate (Z.to_nat (coro_cnt c)) stale).

Definition begun (p : PerfTool) : Prop :=
  config p = c /\ running p = true /\ zlen (req_count p) = thread_cnt c * coro_cnt c.

Lemma init_tp_done p t co : begun p -> 0 <= t < thread_cnt c -> 0 <= co < coro_cnt c ->
  init_tp p t co = Done (with_req_count p (zset (req_count p) t zero_row)).
Proof using Hc.
  intros (Ec & Er & Hl) Ht Hco. unfold init_tp. rewrite Er, Ec. cbn [negb].
  rewrite (proj2 (Z.leb_gt (thread_cnt c) t)), (proj2 (Z.leb_gt (coro_cnt c) co)) by lia. cbn [orb].
  rewrite store_in_range; [done|]. destruct Hc as (_ & _ & _ & H1 & H2 & _). rewrite Hl. nia.
Qed.

Lemma init_tps_done p t co cos : begun p -> 0 <= t < thread_cnt c -> Forall (fun co => 0 <= co < coro_cnt c) (co :: cos) ->
  init_tps p t (co :: cos) = Done (with_req_count p (zset (req_count p) t zero_row)).
Proof using Hc.
  intros Hp Ht Hcos. revert p co Hp Hcos. induction cos as [|co' cos IH]; intros p co Hp Hcos; apply Forall_cons in Hcos as [Hco Hcos];
    cbn [init_tps]; rewrite init_tp_done, obind_done by done; [done|].
  change (init_tps (with_req_count p (zset (req_count p) t zero_row)) t (co' :: cos) = Done (with_req_count p (zset (req_count p) t zero_row))).
  rewrite IH; [|by destruct Hp as (? & ? & ?); split; [|split; [|cbn; rewrite zlen_zset]]|done]. cbn. rewrite zset_zset. done.
Qed.

Lemma worker_init_done p t : begun p -> 0 <= t < thread_cnt c ->
  worker_init p stale t =
  Done (with_timer (with_req_count p (zset (req_count p) t zero_row)) (if t =? 0 then new_timers else timer p)).
Proof using Hc.
  intros Hp Ht. unfold worker_init. pose proof Hp as (Ec & -> & _). rewrite Ec. cbn [negb]. pose proof Hc as (_ & _ & _ & _ & Hco & _).
  rewrite seqZ_cons by lia. rewrite init_tps_done, obind_done; [|done|done|].
  - destruct (t =? 0); [by cbn [config with_req_count]; rewrite Ec|by destruct p].
  - constructor; [lia|]. apply Forall_forall. intros co Hin%elem_of_seqZ. lia.
Qed.

Lemma init_workers_done p ts : begun p -> Forall (fun t => 0 <= t < thread_cnt c) ts ->
  exists rs tm, init_workers p stale ts = Done (with_timer (with_req_count p rs) tm) /\
    (forall t, t ∈ ts -> zget rs t = Some zero_row) /\ (forall t, t ∉ ts -> zget rs t = zget (req_count p) t) /\
    (0 ∈ ts -> tm = new_timers) /\ (0 ∉ ts -> tm = timer p).
Proof using Hc.
  intros Hp Hts. revert p Hp. induction Hts as [|t ts Ht Hts IH]; intros p Hp.
  - exists (req_count p), (timer p). split; [by destruct p|]. split; [by intros t ?%elem_of_nil|]. split; [done|]. split; [by intros ?%elem_of_nil|done].
  - cbn [init_workers]. rewrite worker_init_done, obind_done by done. pose proof Hp as (Ec & Er & Hl).
    destruct (IH (with_timer (with_req_count p (zset (req_count p) t zero_row)) (if t =? 0 then new_timers else timer p))) as (rs & tm & E & H1 & H2 & H3 & H4).
    { split; [done|]. split; [done|]. cbn. by rewrite zlen_zset. }
    exists rs, tm. rewrite E. split; [done|]. cbn [req_count timer with_timer with_req_count] in H2, H4.
    assert (Hr : 0 <= t < zlen (req_count p)) by (destruct Hc as (_ & _ & _ & Hn & Hco & _); nia). split; [|split; [|split]].
    + intros t' Hin. destruct (decide (t' ∈ ts)) as [|Hn]; [by apply H1|]. apply elem_of_cons in Hin as [->|]; [|done]. rewrite H2 by done. by apply zget_zset_eq.
    + intros t' [Hne Hn]%not_elem_of_cons. rewrite H2 by done. by apply zget_zset_ne.
    + intros Hin. destruct (decide (0 ∈ ts)) as [|Hn]; [by apply H3|]. apply elem_of_cons in Hin as [<-|]; [|done]. by apply H4.
    + intros [Hne Hn]%not_elem_of_cons. rewrite H4 by done. rewrite (proj2 (Z.eqb_neq t 0)) by congruence. done.
Qed.
End workers.

(** The epoch a set-up tool is in. *)
Definition fresh (t0 stale : timespec) : epoch := mkEpoch (fun _ => 0) (fun _ _ => 0) (fun _ _ => stale) t0.

Lemma new_types p names : foldl (fun p s => new_type p s 0) p names = with_name p (name p ++ names).
Proof.
  revert p. induction names as [|s names IH]; intros p; cbn [foldl]; [rewrite app_nil_r; by destruct p|].
  rewrite IH. cbn. by rewrite <- app_assoc.
Qed.

Lemma cell_replicate n i : cell (replicate n 0) i = 0.
Proof. unfold cell. destruct (zget (replicate n 0) i) as [x|] eqn:E; [|done]. unfold zget in E. destruct (decide _); [|done]. by apply lookup_replicate in E as [-> _]. Qed.

Lemma set_up_represents c names fast0 last0 t0 stale : config_ok c -> zlen fast0 = type_cnt c -> zlen last0 = type_cnt c ->
  exists p, set_up c names fast0 last0 t0 stale = Done p /\ config p = c /\ represents p (fresh t0 stale).
Proof.
  intros Hc Hf Hl. pose proof Hc as (_ & _ & Hty & Hth & Hco & Hph). unfold set_up, PerfTool_new.
  rewrite (proj2 (Z.ltb_ge (type_cnt c) 0)), (proj2 (Z.ltb_ge (thread_cnt c * coro_cnt c) 0)) by nia. cbn [orb].
  rewrite Hph, obind_done, new_types. set (p := master_thread_init _).
  assert (Hp : begun c p) by (split; [done|]; split; [done|]; unfold p; cbn; rewrite zlen_replicated; nia).
  unfold master_init_all_worker. destruct Hp as (Ec & Er & Hn) eqn:Eh. rewrite Er, Ec. cbn [negb]. clear Eh.
  destruct (init_workers_done c stale Hc p (seqZ 0 (thread_cnt c))) as (rs & tm & -> & H1 & _ & H3 & _).
  { done. } { apply Forall_forall. intros t Ht%elem_of_seqZ. lia. }
  rewrite (H3 ltac:(apply elem_of_seqZ; lia)). eexists. split; [reflexivity|]. split; [done|].
  assert (Hrow : forall t, 0 <= t < thread_cnt c -> zget rs t = Some (zero_row c)) by (intros t Ht; apply H1, elem_of_seqZ; lia).
  pose proof (tp_offset_covers c Hty) as Hoff. constructor; cbn; [done| | | | | |done].
  - split; [lia|]. split; [lia|]. unfold zlen. rewrite length_app, length_map, length_seqZ. lia.
  - intros t Ht. exists (replicate (Z.to_nat (tp_offset c * 2)) 0). split; [by apply Hrow|]. cbn. apply zlen_replicated. lia.
  - intros id Hid. unfold total. cbn. replace (map _ _) with (map (fun _ : Z => 0) (seqZ 0 (thread_cnt c))).
    { f_equal. generalize (seqZ 0 (thread_cnt c)). intros ts. induction ts as [|t ts IH]; [done|]. unfold zsum in *. cbn [map foldr]. by rewrite IH. }
    apply map_ext_in. intros t Ht%list_elem_of_In%elem_of_seqZ. unfold diff. cbn. rewrite Hrow by lia. unfold zero_row. by rewrite !cell_replicate.
  - intros id Hid. do 2 eexists. cbn. rewrite zget_replicated by done. split; [done|]. split; [done|].
    split; [apply zlen_replicated; by unfold kLatencyArray|]. split; [apply zlen_replicated; by unfold kLatencyArray|]. intros i Hi. by rewrite !cell_replicate.
  - intros id Hid. eexists. cbn. unfold new_timers. rewrite zget_replicated by done. split; [done|]. split; [apply zlen_replicated; lia|].
    intros co Hco'. by apply zget_replicated.
Qed.

Lemma init_tps_report_ok p t cos p' : init_tps p t cos = Done p' -> report_ok p' = report_ok p.
Proof.
  revert p. induction cos as [|co cos IH]; intros p; cbn [init_tps]; [by intros [= ->]|].
  intros (p1 & E & H)%obind_inv. rewrite (IH _ H). unfold init_tp in E. destruct (negb _); [by injection E as ->|]. destruct (_ || _); [done|].
  apply obind_inv in E as (rs & _ & [= <-]). done.
Qed.

Lemma init_workers_report_ok p stale ids p' : init_workers p stale ids = Done p' -> report_ok p' = report_ok p.
Proof.
  revert p. induction ids as [|t ids IH]; intros p; cbn [init_workers]; [by intros [= ->]|].
  intros (p1 & E & H)%obind_inv. rewrite (IH _ H). unfold worker_init in E. destruct (negb _); [by injection E as ->|].
  apply obind_inv in E as (p2 & E & E2). injection E2 as <-. rewrite <- (init_tps_report_ok _ _ _ _ E). by destruct (t =? 0).
Qed.

Lemma set_up_report_ok c names fast0 last0 t0 stale p : set_up c names fast0 last0 t0 stale = Done p ->
  report_ok p = replicate (Z.to_nat (thread_cnt c)) 0.
Proof.
  unfold set_up, PerfTool_new. destruct (_ || _); [done|]. rewrite obind_done, new_types. unfold master_init_all_worker.
  destruct (negb _); [by intros [= <-]|]. by intros ->%init_workers_report_ok.
Qed.

(** ** The reports *)

(** C31.  Whatever the threads report between the lines printed, and however the epochs
    fall, a tool set up with a configuration in range never faults, and every line shows,
    modulo 2^64, the number of requests of its type since the last line of it, and the
    count and percentiles of the latencies thread 0 reported since: no request is counted
    twice or lost between two epochs. *)
Theorem epochs_reported c names fast0 last0 t0 stale evs :
  config_ok c -> zlen fast0 = type_cnt c -> zlen last0 = type_cnt c -> Forall (event_fits c) evs ->
  exists p ls, set_up c names fast0 last0 t0 stale = Done p /\ run p evs = Done ls /\
    map summary ls = ep_run c (fresh t0 stale) evs.
Proof.
  intros Hc Hf Hl Hev. destruct (set_up_represents c names fast0 last0 t0 stale Hc Hf Hl) as (p & E & Ec & Hp).
  destruct (run_shows p _ evs Hp) as (ls & Er & Els); [by rewrite Ec|]. exists p, ls. rewrite Ec in Els. done.
Qed.

Definition sample_config : PerfConfig := mkConfig 2 1 1 1 200 0 5.

(** Two threads: three requests, the two of thread 0 of 100 ns and 60 ns; then an epoch of
    one request. *)
Definition sample_events : list event :=
  [Reported (Begin (mkTime 1 0) 0 0 0); Reported (End_ (mkTime 1 100) 1 0 0 0); Reported (EndCopy 1 1 0 0);
   Reported (EndCopy 1 0 0 60);
   Printed (mkTime 3 0) (mkTime 3 0) (fun _ => mkTime 3 0) 1;
   Printed (mkTime 6 0) (mkTime 6 5) (fun _ => mkTime 6 0) 1;
   Reported (EndCopy 1 0 0 60);
   Printed (mkTime 12 0) (mkTime 12 0) (fun _ => mkTime 12 0) 1].

Lemma epochs_reported_witness :
  exists p ls, set_up sample_config ["ops"%string] [0] [0] (mkTime 0 0) (mkTime 0 0) = Done p /\ run p sample_events = Done ls /\
    map ln_count ls = [3; 1].
Proof.
  destruct (epochs_reported sample_config ["ops"%string] [0] [0] (mkTime 0 0) (mkTime 0 0) sample_events) as (p & ls & E1 & E2 & E3).
  - unfold config_ok, range_ok. cbn. lia.
  - reflexivity.
  - reflexivity.
  - unfold sample_events. repeat constructor; vm_compute; done.
  - exists p, ls. split; [exact E1|]. split; [exact E2|]. assert (E := f_equal (map (fun x => x.1.1)) E3). rewrite map_map in E.
    etransitivity; [exact E|]. lazy. reflexivity.
Defined.

(** C32.  The percentiles of a line: with [q50], [q90] and [q99] the positions where half,
    nine tenths and 99 hundredths of the new samples are reached, the line shows the lower
    edge of that position or of one of its neighbours.  p999 is the edge below that of
    999 thousandths where a sample lies below that position, and 0 where none does. *)
Theorem percentiles_reported p e now i q50 q90 q99 q999 :
  represents p e -> 0 <= i < type_cnt (config p) -> zsum (new_samples (placed e i)) < 2 ^ 64 ->
  at_percentile 1 2 (new_samples (placed e i)) q50 -> at_percentile 9 10 (new_samples (placed e i)) q90 ->
  at_percentile 99 100 (new_samples (placed e i)) q99 -> at_percentile 999 1000 (new_samples (placed e i)) q999 ->
  exists p' l, print_line p now i = Done (p', l) /\ ln_samples l = zsum (new_samples (placed e i)) /\
    near (config p) q50 (l_p50 (ln_pct l)) /\ near (config p) q90 (l_p90 (ln_pct l)) /\ near (config p) q99 (l_p99 (ln_pct l)) /\
    l_p999 (ln_pct l) =
      if decide (zsum (take q999 (new_samples (placed e i))) = 0) then 0 else edge (config p) (Z.of_nat q999 - 1).
Proof.
  intros Hp Hi. destruct (line_sim p e now i Hp Hi) as (p' & l & E & _ & Es & _). unfold summary, shown in Es.
  pose proof (rep_config _ _ Hp) as (Hr & Hu & _). pose proof (new_samples_nonneg (placed e i)) as Hf.
  pose proof (new_samples_length (placed e i)) as Hlen.
  revert Es Hf Hlen. generalize (new_samples (placed e i)). intros ds Es Hf Hlen Hs H50 H90 H99 H999.
  rewrite sums_last in Es by done. assert (En := f_equal (fun x => x.1.2) Es). assert (Epct := f_equal snd Es). cbn [fst snd] in En, Epct.
  exists p', l. split; [exact E|]. split; [exact En|]. rewrite Epct. by apply percentiles_of.
Qed.

(** The two samples of the first epoch above, at positions 5 and 3. *)
Definition sample_reports : list report :=
  [Begin (mkTime 1 0) 0 0 0; End_ (mkTime 1 100) 1 0 0 0; EndCopy 1 1 0 0; EndCopy 1 0 0 60].

Lemma percentiles_reported_witness : exists p p' l,
  print_line p (mkTime 3 0) 0 = Done (p', l) /\ ln_samples l = 2 /\ l_p999 (ln_pct l) = 80 /\
  exists r, 4 <= r <= 6 /\ l_p90 (ln_pct l) = edge sample_config r.
Proof.
  destruct (set_up_represents sample_config ["ops"%string] [0] [0] (mkTime 0 0) (mkTime 0 0)) as (p0 & _ & Ec0 & Hp0);
    [unfold config_ok, range_ok; cbn; lia|reflexivity|reflexivity|].
  destruct (calls_sim p0 _ sample_reports Hp0) as (p & _ & Hp & Ec);
    [rewrite Ec0; unfold sample_reports; repeat constructor; vm_compute; done|].
  rewrite Ec0 in Hp, Ec. set (e := foldl _ _ _) in Hp.
  assert (Es : new_samples (placed e 0) = new_samples (add_at 3 1 (add_at 5 1 (fun _ => 0)))) by exact eq_refl.
  pose proof two_samples as Hq. pose proof two_samples_total as Ht. rewrite <- Es in Hq, Ht. clear Es. clearbody e.
  destruct (percentiles_reported p e (mkTime 3 0) 0 3 5 5 5) as (p' & l & E & En & _ & (r & Hr & E90) & _ & E999).
  - exact Hp.
  - rewrite Ec. cbn. lia.
  - rewrite Ht. lia.
  - split; rewrite Hq, Ht by done; vm_compute; done.
  - split; rewrite Hq, Ht by done; vm_compute; done.
  - split; rewrite Hq, Ht by done; vm_compute; done.
  - split; rewrite Hq, Ht by done; vm_compute; done.
  - exists p, p', l. split; [exact E|]. split; [rewrite En; exact Ht|]. rewrite Hq, Ec in E999 by done. rewrite Ec in E90.
    split; [rewrite E999; vm_compute; reflexivity|]. exists r. split; [lia|exact E90].
Defined.

(** ** Waiting for the threads *)

Fixpoint begins (p : PerfTool) (ids : list Z) : outcome PerfTool :=
  match ids with
  | [] => Done p
  | i :: ids => let! p := thread_begin p i in begins p ids
  end.

Lemma begins_marks p ids : zlen (report_ok p) = thread_cnt (config p) -> Forall (fun i => 0 <= i < thread_cnt (config p)) ids ->
  exists p', begins p ids = Done p' /\ config p' = config p /\ zlen (report_ok p') = thread_cnt (config p) /\
    forall i, zget (report_ok p') i = if decide (i ∈ ids) then Some 1 else zget (report_ok p) i.
Proof.
  intros Hl Hids. revert p Hl Hids. induction ids as [|i ids IH]; intros p Hl Hids.
  - exists p. do 3 (split; [done|]). intros i. rewrite decide_False; [done|]. by intros ?%elem_of_nil.
  - apply Forall_cons in Hids as [Hi Hids]. cbn [begins]. unfold thread_begin.
    rewrite (proj2 (Z.leb_le _ _)), store_in_range, !obind_done by lia.
    destruct (IH (with_report_ok p (zset (report_ok p) i 1))) as (p' & -> & Ec & Hl' & H); [cbn; by rewrite zlen_zset|done|].
    exists p'. split; [done|]. split; [done|]. split; [done|]. intros j. rewrite H. cbn.
    destruct (decide (j ∈ ids)) as [|Hn]; [by rewrite decide_True by by right|]. destruct (decide (j = i)) as [->|Hne].
    + rewrite decide_True by by left. apply zget_zset_eq. lia.
    + rewrite decide_False by (rewrite elem_of_cons; tauto). apply zget_zset_ne. congruence.
Qed.

(** C33.  try_wait, which a reporting thread calls first, ends exactly when every thread
    of the configuration has begun: the applications that leave thread_cnt at its
    default of 48 wait for ever with fewer threads. *)
Theorem wait_for_every_thread c names fast0 last0 t0 stale ids :
  config_ok c -> zlen fast0 = type_cnt c -> zlen last0 = type_cnt c -> Forall (fun i => 0 <= i < thread_cnt c) ids ->
  exists p p', set_up c names fast0 last0 t0 stale = Done p /\ begins p ids = Done p' /\
    (all_begun p' = true <-> forall i, 0 <= i < thread_cnt c -> i ∈ ids).
Proof.
  intros Hc Hf Hl Hids. destruct (set_up_represents c names fast0 last0 t0 stale Hc Hf Hl) as (p & E & Ec & Hp).
  assert (Hok : report_ok p = replicate (Z.to_nat (thread_cnt c)) 0) by exact (set_up_report_ok _ _ _ _ _ _ _ E).
  pose proof Hc as (_ & _ & _ & Hth & _).
  destruct (begins_marks p ids) as (p' & Eb & Ec' & Hl' & H); [by rewrite Hok, Ec, zlen_replicated by lia|by rewrite Ec|].
  exists p, p'. split; [exact E|]. split; [exact Eb|]. rewrite Ec in Hl'. unfold all_begun. rewrite forallb_forall. split.
  - intros Hall i Hi. destruct (decide (i ∈ ids)) as [|Hn]; [done|]. specialize (H i). rewrite decide_False, Hok, zget_replicated in H by done.
    unfold zget in H. destruct (decide _); [|done]. apply list_elem_of_lookup_2, list_elem_of_In, Hall in H. done.
  - intros Hall v Hv%list_elem_of_In%list_elem_of_lookup. destruct Hv as [j Ej]. pose proof (lookup_lt_Some _ _ _ Ej) as Hj.
    specialize (H (Z.of_nat j)). unfold zlen in Hl'. rewrite decide_True in H by (apply Hall; lia). unfold zget in H.
    rewrite decide_True, Nat2Z.id, Ej in H by lia. by injection H as ->.
Qed.

Lemma wait_for_every_thread_witness : exists p p',
  set_up sample_config ["ops"%string] [0] [0] (mkTime 0 0) (mkTime 0 0) = Done p /\ begins p [0] = Done p' /\ all_begun p' <> true.
Proof.
  destruct (wait_for_every_thread sample_config ["ops"%string] [0] [0] (mkTime 0 0) (mkTime 0 0) [0]) as (p & p' & E & Eb & H);
    [unfold config_ok, range_ok; cbn; lia|reflexivity|reflexivity|constructor; [cbn; lia|constructor]|].
  exists p, p'. split; [exact E|]. split; [exact Eb|]. intros Hall. apply H with (i := 1) in Hall; [|cbn; lia].
  apply list_elem_of_singleton in Hall. discriminate.
Defined.
End Perf.
