(* ===== verification/AgentModel.v ===== *)
(** * The set-up of a thread's queue pairs

    Module [Agent]: the constructor of class Rdma of rdma/rdma.h with
    config_send_region and config_recv_region: which queue pairs a thread makes for
    which remote threads, and where in its two regions their messages lie.  The verbs
    that create the queue pairs, multi-packet receives and the shared state of
    RdmaGSRQ are left out, except for its buffers. *)

From S2P Require Import Prelude QpModel QpDeviceModel QpCreditModel QpRecvModel.

Module Agent.
Import Qp QpRecv.

(** ** Configuration *)

(** ServerConfig and GlobalConfig; the matrices say where the type is TopoType::All. *)
Record topology := mkTopology {
  kServerNum : Z;
  thread_num : Z -> Z;
  srq_receiver : Z -> bool;
  srq_sender : Z -> bool;
  matrix : Z -> Z -> bool;
  matrix_TSRQ : Z -> Z -> bool;
  matrix_GSRQ : Z -> Z -> bool;
  func : Z;
  rc_msg_size : Z;
  raw_msg_size : Z;
  ud_msg_size : Z;
  normal_srq_len : Z }.

(** The bits of func. *)
Definition RC : Z := 0.
Definition RAW : Z := 1.
Definition UD : Z := 2.
Definition T_LOCAL_SRQ : Z := 3.
Definition G_SRQ : Z := 4.
Definition DCT : Z := 5.

Definition has (t : topology) (ty : Z) : bool := Z.testbit (func t) ty.

(** The queue pairs of a thread: connects->remote_node_[gid].qp[k], raw_qp[k], ud_qp_[k],
    dct_qp_[k], remote_node_[gid].dci_qp_[k], tsrq->srq, and the qp[k] of
    tsrq_connects and gsrq_connects. *)
Inductive qp_name :=
  | Rc (gid k : Z) | Raw (k : Z) | Ud (k : Z) | Dct (k : Z) | Dci (gid k : Z)
  | Tsrq | TRc (gid k : Z) | GRc (gid k : Z).

Definition code (n : qp_name) : nat * (Z * Z) :=
  match n with
  | Rc g k => (0%nat, (g, k)) | Raw k => (1%nat, (k, 0)) | Ud k => (2%nat, (k, 0)) | Dct k => (3%nat, (k, 0))
  | Dci g k => (4%nat, (g, k)) | Tsrq => (5%nat, (0, 0)) | TRc g k => (6%nat, (g, k)) | GRc g k => (7%nat, (g, k))
  end.

Definition decode (c : nat * (Z * Z)) : option qp_name :=
  match c with
  | (0%nat, (g, k)) => Some (Rc g k) | (1%nat, (k, _)) => Some (Raw k) | (2%nat, (k, _)) => Some (Ud k)
  | (3%nat, (k, _)) => Some (Dct k) | (4%nat, (g, k)) => Some (Dci g k) | (5%nat, _) => Some Tsrq
  | (6%nat, (g, k)) => Some (TRc g k) | (7%nat, (g, k)) => Some (GRc g k) | _ => None
  end.

#[export] Instance qp_name_eq_dec : EqDecision qp_name.
Proof. solve_decision. Defined.
#[export] Instance qp_name_countable : Countable qp_name.
Proof. apply (inj_countable code decode). by intros []. Defined.

(** The number a device knows the queue pair by. *)
Definition qp_id (n : qp_name) : nat := encode_nat n.

Section agent.
Context (kMaxServer kMaxThread kMaxQPNum FLAGS_qp_len : Z).
(** What new leaves in send_flags and in the counters of a shared receive queue. *)
Context (stale_flags : Z) (stale_counts : list Z).

Definition compute_gid (s_id t_id : Z) : Z := wrap 16 (wrap 8 s_id * kMaxThread + wrap 8 t_id).

(** The threads of the servers [sel] other than [server_id], by gid. *)
Definition others (t : topology) (server_id : Z) (sel : Z -> bool) : list Z :=
  flat_map (fun i => if sel i && negb (i =? server_id) then map (compute_gid i) (seqZ 0 (thread_num t i)) else [])
    (seqZ 0 (kServerNum t)).

(** remote_node_[gid].valid, ud_valid and dct_valid of connects, and valid of the two
    groups for shared receive queues. *)
Definition rc_valid (t : topology) (s : Z) : list Z :=
  if has t RC then others t s (fun i => matrix t i s) else [].
Definition ud_valid (t : topology) (s : Z) : list Z :=
  if has t UD then others t s (fun _ => true) else [].
Definition dct_valid (t : topology) (s : Z) : list Z :=
  if has t DCT then others t s (fun _ => true) else [].
Definition tsrq_valid (t : topology) (s : Z) : list Z :=
  if has t T_LOCAL_SRQ then others t s (fun i => matrix_TSRQ t i s) else [].
Definition gsrq_recv_valid (t : topology) (s : Z) : list Z :=
  if has t G_SRQ && srq_receiver t s then others t s (fun i => matrix_GSRQ t i s) else [].
Definition gsrq_send_valid (t : topology) (s : Z) : list Z :=
  if has t G_SRQ && srq_sender t s then others t s (fun i => matrix_GSRQ t i s && srq_receiver t i) else [].

(** ** The constructor *)

Record endpoint := mkEndpoint {
  e_send_offset : Z; e_send_msg_size : Z; e_recv : RecvSide; e_qp : QPInfo }.

(** A queue pair the constructor makes: its type, whether config_raw_msg_buf or
    config_ud_msg_buf makes its buffers, the length of its shared receive queue and the
    sizes of its messages. *)
Record spec := mkSpec {
  sp_name : qp_name; sp_type : Z; sp_typed : bool; sp_srq : Z; sp_send : Z; sp_recv : Z }.

Definition per_node (gids : list Z) (mk : Z -> Z -> spec) : list spec :=
  flat_map (fun gid => map (mk gid) (seqZ 0 kMaxQPNum)) gids.

(** In the order of the constructor. *)
Definition specs (t : topology) (s : Z) : list spec :=
  let rc := rc_msg_size t in
  per_node (rc_valid t s) (fun g k => mkSpec (Rc g k) LOGRC false 0 rc rc) ++
  (if has t RAW then map (fun k => mkSpec (Raw k) LOGRAW true 0 (raw_msg_size t) (raw_msg_size t)) (seqZ 0 kMaxQPNum) else []) ++
  (if has t UD then map (fun k => mkSpec (Ud k) LOGUD true 0 (ud_msg_size t) (ud_msg_size t)) (seqZ 0 kMaxQPNum) else []) ++
  (if has t DCT then map (fun k => mkSpec (Dct k) LOGDCT false 0 0 rc) (seqZ 0 kMaxQPNum) else []) ++
  per_node (dct_valid t s) (fun g k => mkSpec (Dci g k) LOGDCT false 0 rc 0) ++
  (if has t T_LOCAL_SRQ && srq_receiver t s then [mkSpec Tsrq LOGRC false (normal_srq_len t) 0 rc] else []) ++
  per_node (tsrq_valid t s) (fun g k => mkSpec (TRc g k) LOGRC false 0 rc (if srq_receiver t s then 0 else rc)) ++
  per_node (gsrq_send_valid t s) (fun g k => mkSpec (GRc g k) LOGRC false 0 rc rc).

(** The queue pairs made so far, total_send_buf_size and total_recv_buf_size. *)
Definition build : Type := list (qp_name * endpoint) * (Z * Z).

(** remote_node_ has kMaxServer * kMaxThread elements. *)
Definition in_nodes (n : qp_name) : bool :=
  match n with
  | Rc g _ | Dci g _ | TRc g _ | GRc g _ => g <? kMaxServer * kMaxThread
  | _ => true
  end.

Definition place (b : build) (sp : spec) : outcome build :=
  if in_nodes (sp_name sp) then
    let '(adds, (ts, tr)) := b in
    let r := construct FLAGS_qp_len (sp_srq sp) stale_counts in
    let! ((so, ss, r), (ts, tr)) :=
      if sp_typed sp then config_typed_msg_buf (sp_type sp) r ts tr (sp_send sp) (sp_recv sp)
      else Done (config_msg_buf r ts tr (sp_send sp) (sp_recv sp)) in
    Done (adds ++ [(sp_name sp, mkEndpoint so ss r (init_qp stale_flags (sp_type sp) (qp_id (sp_name sp))))], (ts, tr))
  else Fault OutOfBounds.

Fixpoint place_all (b : build) (sps : list spec) : outcome build :=
  match sps with
  | [] => Done b
  | sp :: sps => let! b := place b sp in place_all b sps
  end.

Notation endpoints := (gmap qp_name endpoint).

Record agent := mkAgent {
  a_eps : endpoints; total_send_buf_size : Z; total_recv_buf_size : Z }.

(** Making a queue pair twice replaces it. *)
Definition Rdma_new (t : topology) (server_id thread_id : Z) : outcome agent :=
  if (kServerNum t <=? kMaxServer) && (thread_id <? kMaxThread) then
    let! (adds, (ts, tr)) := place_all ([], (0, 0)) (specs t server_id) in
    Done (mkAgent (list_to_map (reverse adds)) ts tr)
  else Fault ProcessExit.

(** ** The regions *)

(** for (qp_i < kServerNum * kMaxThread) if (valid) for (i < kMaxQPNum) *)
Definition each (t : topology) (valid : list Z) (mk : Z -> Z -> qp_name) : list qp_name :=
  flat_map (fun gid => if decide (gid ∈ valid) then map (mk gid) (seqZ 0 kMaxQPNum) else [])
    (seqZ 0 (kServerNum t * kMaxThread)).

Definition send_names (t : topology) (s : Z) : list qp_name :=
  each t (rc_valid t s) Rc ++
  (if has t RAW then map Raw (seqZ 0 kMaxQPNum) else []) ++
  (if has t UD then map Ud (seqZ 0 kMaxQPNum) else []) ++
  each t (dct_valid t s) Dci ++ each t (tsrq_valid t s) TRc ++ each t (gsrq_send_valid t s) GRc.

Fixpoint init_sends (mr : Region) (ns : list qp_name) (eps : endpoints) : outcome endpoints :=
  match ns with
  | [] => Done eps
  | n :: ns =>
      let! e := of_option NullDeref (eps !! n) in
      let! q := init_send_with_one_mr (e_qp e) mr (e_send_offset e) (e_send_msg_size e) in
      init_sends mr ns (<[n := mkEndpoint (e_send_offset e) (e_send_msg_size e) (e_recv e) q]> eps)
  end.

Definition config_send_region (t : topology) (s : Z) (a : agent) (addr key size : Z) : outcome agent :=
  if total_send_buf_size a <=? size then
    let! eps := init_sends {| rg_addr := addr; rg_key := key; rg_size := size |} (send_names t s) (a_eps a) in
    Done (mkAgent eps (total_send_buf_size a) (total_recv_buf_size a))
  else Fault ProcessExit.

(** *** The receive region *)
Section receive.
Context {V : Verbs}.

(** The queue pairs of config_recv_region, [true] where their buffers are those of a
    shared receive queue.  The global one has a region of its own. *)
Definition recv_names (t : topology) (s : Z) : list (qp_name * bool) :=
  map (fun n => (n, false)) (each t (rc_valid t s) Rc ++
    (if has t RAW then map Raw (seqZ 0 kMaxQPNum) else []) ++
    (if has t UD then map Ud (seqZ 0 kMaxQPNum) else [])) ++
  (if has t DCT then map (fun k => (Dct k, true)) (seqZ 0 kMaxQPNum) else []) ++
  (if has t T_LOCAL_SRQ then
     if srq_receiver t s then [(Tsrq, true)] else map (fun n => (n, false)) (each t (tsrq_valid t s) TRc)
   else []).

(** What init_srq_with_one_wr and change_type_for_tsrq make of the type. *)
Definition srq_type (n : qp_name) (q : QPInfo) : QPInfo :=
  {| type := match n with Tsrq => LOGTSRQ | _ => if type q =? LOGDCT then LOGDCT else LOGGSRQ end;
     rpc_send := rpc_send q; one_side := one_side q |}.

Fixpoint init_recvs (mr : Region) (ns : list (qp_name * bool)) (eps : endpoints) (d : device) : outcome (endpoints * device) :=
  match ns with
  | [] => Done (eps, d)
  | (n, srq) :: ns =>
      let! e := of_option NullDeref (eps !! n) in
      let! (r, d) := (if srq then init_srq_with_one_wr else init_recv_with_one_mr) (qp_id n) (e_recv e, d) mr in
      let q := if srq then srq_type n (e_qp e) else e_qp e in
      init_recvs mr ns (<[n := mkEndpoint (e_send_offset e) (e_send_msg_size e) r q]> eps) d
  end.

Definition config_recv_region (t : topology) (s : Z) (a : agent) (d : device) (addr key size : Z) : outcome (agent * device) :=
  if total_recv_buf_size a <=? size then
    let! (eps, d) := init_recvs {| rg_addr := addr; rg_key := key; rg_size := size |} (recv_names t s) (a_eps a) d in
    Done (mkAgent eps (total_send_buf_size a) (total_recv_buf_size a), d)
  else Fault ProcessExit.

(** gsrq_config_recv_region of thread 0: the queue of the process and its region, whose
    address malloc returns. *)
Definition gsrq_config_recv_region (rc_size srq_len : Z) (buffer key : Z) (d : device) (q : nat) : outcome (RecvSide * device) :=
  let '((_, _, r), (_, total)) := config_msg_buf (construct FLAGS_qp_len srq_len stale_counts) 0 0 0 rc_size in
  init_srq_with_one_wr q (r, d) {| rg_addr := buffer; rg_key := key; rg_size := total |}.
End receive.

(** *** Where the constructor puts the messages *)

(** What a queue pair takes of the two regions. *)
Definition header (sizes : list Z) (sp : spec) : Z :=
  if sp_typed sp then default 0 (zget sizes (sp_type sp)) else 0.
Definition send_size (sp : spec) : Z := ALIGNMENT_XB (sp_send sp + header send_header_size sp) 64.
Definition recv_size (sp : spec) : Z := ALIGNMENT_XB (sp_recv sp + header recv_header_size sp) 64.
Definition send_room (sp : spec) : Z := send_size sp * kStaticSendBuf.
Definition recv_room (sp : spec) : Z := recv_size sp * (batch_size FLAGS_qp_len (sp_srq sp) * POSTPIPE).

(** Messages of 16 bits, and some receive buffers. *)
Record spec_ok (sp : spec) : Prop := {
  so_send : in_width 16 (sp_send sp);
  so_recv : in_width 16 (sp_recv sp);
  so_type : 0 <= sp_type sp <= LOGDCT;
  so_batch : 0 < batch_size FLAGS_qp_len (sp_srq sp) < 2 ^ 26;
  so_node : in_nodes (sp_name sp) = true }.

(** The queue pair of a specification with its messages at the given offsets. *)
Definition made (sp : spec) (ts tr : Z) : endpoint :=
  mkEndpoint ts (send_size sp)
    (config_msg_buf (construct FLAGS_qp_len (sp_srq sp) stale_counts) 0 tr 0 (sp_recv sp + header recv_header_size sp)).1.2
    (init_qp stale_flags (sp_type sp) (qp_id (sp_name sp))).

Fixpoint lay (sps : list spec) (ts tr : Z) : list (qp_name * endpoint) :=
  match sps with
  | [] => []
  | sp :: sps => (sp_name sp, made sp ts tr) :: lay sps (ts + send_room sp) (tr + recv_room sp)
  end.

Lemma header_small sizes sp : spec_ok sp -> (sizes = send_header_size \/ sizes = recv_header_size) ->
  zget sizes (sp_type sp) = Some (default 0 (zget sizes (sp_type sp))) /\ 0 <= header sizes sp <= 42.
Proof.
  intros [_ _ Ht _ _] Hs. unfold header. unfold LOGDCT in Ht.
  assert (H : sp_type sp = 0 \/ sp_type sp = 1 \/ sp_type sp = 2 \/ sp_type sp = 3 \/ sp_type sp = 4 \/ sp_type sp = 5) by lia.
  destruct Hs as [-> | ->]; destruct H as [-> |[-> |[-> |[-> |[-> | ->]]]]]; cbn; destruct (sp_typed sp); (split; [reflexivity|split; vm_compute; congruence]).
Qed.

Lemma size_small x h : in_width 16 x -> 0 <= h <= 42 -> 0 <= ALIGNMENT_XB (x + h) 64 < 2 ^ 17.
Proof. unfold in_width. intros Hx Hh. pose proof (alignment_ge (x + h) 64 ltac:(lia)). lia. Qed.

Lemma place_made adds ts tr sp : spec_ok sp -> 0 <= ts -> 0 <= tr -> ts + send_room sp < 2 ^ 32 -> tr + recv_room sp < 2 ^ 32 ->
  place (adds, (ts, tr)) sp = Done (adds ++ [(sp_name sp, made sp ts tr)], (ts + send_room sp, tr + recv_room sp)).
Proof.
  intros Hok Hts Htr Hs Hr. pose proof Hok as [H1 H2 H3 [K1 K2] H5]. unfold place. rewrite H5.
  destruct (header_small send_header_size sp Hok ltac:(by left)) as [Es Ls]. destruct (header_small recv_header_size sp Hok ltac:(by right)) as [Er Lr].
  pose proof (size_small _ _ H1 Ls) as Ss. pose proof (size_small _ _ H2 Lr) as Sr. fold (send_size sp) in Ss. fold (recv_size sp) in Sr.
  assert (Hn : wrap 32 (batch_size FLAGS_qp_len (sp_srq sp) * POSTPIPE) = batch_size FLAGS_qp_len (sp_srq sp) * POSTPIPE).
  { apply wrap_small. unfold in_width, POSTPIPE. lia. }
  assert (E : (if sp_typed sp then config_typed_msg_buf (sp_type sp) (construct FLAGS_qp_len (sp_srq sp) stale_counts) ts tr (sp_send sp) (sp_recv sp)
               else Done (config_msg_buf (construct FLAGS_qp_len (sp_srq sp) stale_counts) ts tr (sp_send sp) (sp_recv sp))) =
              Done (config_msg_buf (construct FLAGS_qp_len (sp_srq sp) stale_counts) ts tr
                     (sp_send sp + header send_header_size sp) (sp_recv sp + header recv_header_size sp))).
  { unfold config_typed_msg_buf, header. destruct (sp_typed sp); [|by rewrite !Z.add_0_r].
    by rewrite (load_in_range _ _ _ Es), obind_done, (load_in_range _ _ _ Er), obind_done. }
  rewrite E, obind_done. unfold made, config_msg_buf, get_recv_msg_num, get_send_msg_num. cbn [kBatchRecv construct].
  fold (send_size sp). fold (recv_size sp). rewrite Hn, (wrap_small 32 (send_size sp)), (wrap_small 32 (recv_size sp)) by (unfold in_width; lia).
  fold (send_room sp). fold (recv_room sp). rewrite (wrap_small 32 (ts + _)), (wrap_small 32 (tr + _)); [reflexivity| |]; unfold in_width; split; try lia.
  - unfold recv_room, POSTPIPE. nia.
  - unfold send_room, kStaticSendBuf, kMaxSignal. lia.
Qed.

Lemma rooms_nonneg sp : spec_ok sp -> 0 <= send_room sp /\ 0 <= recv_room sp.
Proof.
  intros Hok. pose proof Hok as [H1 H2 H3 [K1 K2] H5].
  destruct (header_small send_header_size sp Hok ltac:(by left)) as [Es Ls]. destruct (header_small recv_header_size sp Hok ltac:(by right)) as [Er Lr].
  pose proof (size_small _ _ H1 Ls) as Ss. pose proof (size_small _ _ H2 Lr) as Sr. fold (send_size sp) in Ss. fold (recv_size sp) in Sr.
  unfold send_room, recv_room, kStaticSendBuf, kMaxSignal, POSTPIPE. nia.
Qed.

Lemma room_sums sps : Forall spec_ok sps -> 0 <= zsum (map send_room sps) /\ 0 <= zsum (map recv_room sps).
Proof.
  unfold zsum. induction 1 as [|sp sps Hsp _ IH]; cbn; [lia|]. pose proof (rooms_nonneg sp Hsp). lia.
Qed.

Lemma place_all_lay sps : forall adds ts tr, Forall spec_ok sps -> 0 <= ts -> 0 <= tr ->
  ts + zsum (map send_room sps) < 2 ^ 32 -> tr + zsum (map recv_room sps) < 2 ^ 32 ->
  place_all (adds, (ts, tr)) sps =
  Done (adds ++ lay sps ts tr, (ts + zsum (map send_room sps), tr + zsum (map recv_room sps))).
Proof.
  induction sps as [|sp sps IH]; intros adds ts tr Hsps Hts Htr Hs Hr; [cbn; by rewrite app_nil_r, !Z.add_0_r|].
  apply Forall_cons in Hsps as [Hsp Hsps]. pose proof (room_sums sps Hsps) as [S1 S2]. pose proof (rooms_nonneg sp Hsp) as [R1 R2].
  unfold zsum in Hs, Hr, S1, S2. cbn [map foldr] in Hs, Hr. cbn [place_all]. rewrite place_made, obind_done by (done || lia).
  rewrite IH by (done || (unfold zsum; lia)). unfold zsum. cbn [map foldr lay]. by rewrite <- app_assoc, !Z.add_assoc.
Qed.

(** Between the two offsets, and apart from one another. *)
Definition send_bytes (e : endpoint) : Z := e_send_msg_size e * kStaticSendBuf.
Definition recv_bytes (e : endpoint) : Z := recv_msg_size (e_recv e) * (kBatchRecv (e_recv e) * POSTPIPE).

Lemma made_bytes sp ts tr : spec_ok sp -> send_bytes (made sp ts tr) = send_room sp /\ recv_bytes (made sp ts tr) = recv_room sp.
Proof.
  intros Hok. pose proof Hok as [_ H2 _ _ _]. destruct (header_small recv_header_size sp Hok ltac:(by right)) as [Er Lr].
  pose proof (size_small _ _ H2 Lr) as Sr. fold (recv_size sp) in Sr. split; [done|].
  unfold recv_bytes, made, config_msg_buf. cbn [e_recv fst snd recv_msg_size kBatchRecv construct]. fold (recv_size sp).
  by rewrite wrap_small by (unfold in_width; lia).
Qed.

Lemma lay_in sps : forall ts tr n e, Forall spec_ok sps -> (n, e) ∈ lay sps ts tr ->
  (ts <= e_send_offset e /\ e_send_offset e + send_bytes e <= ts + zsum (map send_room sps)) /\
  (tr <= recv_offset (e_recv e) /\ recv_offset (e_recv e) + recv_bytes e <= tr + zsum (map recv_room sps)).
Proof.
  induction sps as [|sp sps IH]; intros ts tr n e Hsps Hin; [by apply elem_of_nil in Hin|].
  apply Forall_cons in Hsps as [Hsp Hsps]. pose proof (room_sums sps Hsps) as [S1 S2]. pose proof (rooms_nonneg sp Hsp) as [R1 R2].
  cbn [map zsum foldr]. fold (zsum (map send_room sps)). fold (zsum (map recv_room sps)).
  cbn [lay] in Hin. apply elem_of_cons in Hin as [Ee|Hin].
  - injection Ee as -> ->. destruct (made_bytes sp ts tr Hsp) as [-> ->]. cbn [e_send_offset made e_recv config_msg_buf fst snd recv_offset]. lia.
  - destruct (IH _ _ _ _ Hsps Hin). unfold zsum in *. lia.
Qed.

Definition apart (o1 n1 o2 n2 : Z) : Prop := o1 + n1 <= o2 \/ o2 + n2 <= o1.

Lemma lay_apart sps : forall ts tr n1 e1 n2 e2, Forall spec_ok sps ->
  (n1, e1) ∈ lay sps ts tr -> (n2, e2) ∈ lay sps ts tr -> n1 <> n2 ->
  apart (e_send_offset e1) (send_bytes e1) (e_send_offset e2) (send_bytes e2) /\
  apart (recv_offset (e_recv e1)) (recv_bytes e1) (recv_offset (e_recv e2)) (recv_bytes e2).
Proof.
  induction sps as [|sp sps IH]; intros ts tr n1 e1 n2 e2 Hsps H1 H2 Hne; [by apply elem_of_nil in H1|].
  apply Forall_cons in Hsps as [Hsp Hsps]. cbn [lay] in H1, H2. destruct (made_bytes sp ts tr Hsp) as [B1 B2]. unfold apart.
  apply elem_of_cons in H1 as [E1|H1]; apply elem_of_cons in H2 as [E2|H2].
  - injection E1 as -> ->. injection E2 as -> ->. done.
  - injection E1 as -> ->. rewrite B1, B2. pose proof (lay_in _ _ _ _ _ Hsps H2). cbn [e_send_offset made e_recv config_msg_buf fst snd recv_offset]. lia.
  - injection E2 as -> ->. rewrite B1, B2. pose proof (lay_in _ _ _ _ _ Hsps H1). cbn [e_send_offset made e_recv config_msg_buf fst snd recv_offset]. lia.
  - exact (IH _ _ _ _ _ _ Hsps H1 H2 Hne).
Qed.

(** *** The specifications of a topology *)

Record topology_ok (t : topology) : Prop := {
  to_servers : 0 <= kServerNum t <= kMaxServer /\ kMaxServer <= 256;
  to_threads : 0 <= kMaxThread <= 256 /\ kMaxServer * kMaxThread <= 2 ^ 16 /\ forall i, thread_num t i <= kMaxThread;
  to_sizes : in_width 16 (rc_msg_size t) /\ in_width 16 (raw_msg_size t) /\ in_width 16 (ud_msg_size t);
  to_batches : 0 < batch_size FLAGS_qp_len 0 < 2 ^ 26 /\ 0 < batch_size FLAGS_qp_len (normal_srq_len t) < 2 ^ 26 }.

Lemma others_spec t s sel g : topology_ok t -> g ∈ others t s sel ->
  exists i j, 0 <= i < kServerNum t /\ 0 <= j < thread_num t i /\ sel i = true /\ i <> s /\
    g = i * kMaxThread + j /\ 0 <= g < kServerNum t * kMaxThread.
Proof.
  intros [[H1 H1'] (H2 & H3 & H4) _ _] Hin. unfold others in Hin. apply list_elem_of_In, in_flat_map in Hin as (i & Hi & Hg).
  apply list_elem_of_In, elem_of_seqZ in Hi. destruct (sel i) eqn:Es; [|done]. destruct (Z.eqb_spec i s) as [|Hne]; [done|]. cbn [negb andb] in Hg.
  apply in_map_iff in Hg as (j & Eg & Hj%list_elem_of_In%elem_of_seqZ). exists i, j. specialize (H4 i).
  assert (Eg' : g = i * kMaxThread + j).
  { rewrite <- Eg. unfold compute_gid. rewrite (wrap_small 8 i), (wrap_small 8 j) by (unfold in_width; lia).
    apply wrap_small. unfold in_width. nia. }
  do 5 (split; [first [done|lia]|]). rewrite Eg'. nia.
Qed.

(** The gids a topology names are below kServerNum * kMaxThread. *)
Definition gids_ok (t : topology) (gids : list Z) : Prop := Forall (fun g => 0 <= g < kServerNum t * kMaxThread) gids.

Lemma others_ok t s sel : topology_ok t -> gids_ok t (others t s sel).
Proof. intros Ht. apply Forall_forall. intros g Hg. destruct (others_spec t s sel g Ht Hg) as (i & j & _ & _ & _ & _ & _ & H). exact H. Qed.

Lemma valid_ok t s : topology_ok t ->
  gids_ok t (rc_valid t s) /\ gids_ok t (ud_valid t s) /\ gids_ok t (dct_valid t s) /\ gids_ok t (tsrq_valid t s) /\ gids_ok t (gsrq_send_valid t s).
Proof.
  intros Ht. unfold rc_valid, ud_valid, dct_valid, tsrq_valid, gsrq_send_valid.
  repeat split; match goal with |- gids_ok _ (if ?b then _ else _) => destruct b; [by apply others_ok|constructor] end.
Qed.

Lemma per_node_spec gids mk sp : sp ∈ per_node gids mk <-> exists g k, g ∈ gids /\ 0 <= k < kMaxQPNum /\ sp = mk g k.
Proof.
  unfold per_node. rewrite list_elem_of_In, in_flat_map. split.
  - intros (g & Hg & Hk). apply in_map_iff in Hk as (k & <- & Hk%list_elem_of_In%elem_of_seqZ). exists g, k. rewrite list_elem_of_In. repeat split; (done || lia).
  - intros (g & k & Hg & Hk & ->). exists g. rewrite <- list_elem_of_In. split; [done|]. apply in_map, list_elem_of_In, elem_of_seqZ. lia.
Qed.

Lemma node_spec_ok t gids mk : topology_ok t -> gids_ok t gids ->
  (forall g k, 0 <= g < kMaxServer * kMaxThread -> spec_ok (mk g k)) -> Forall spec_ok (per_node gids mk).
Proof.
  intros [[H1 H1'] (H2 & _) _ _] Hg Hmk. apply Forall_forall. intros sp (g & k & Hin & _ & ->)%per_node_spec.
  apply Hmk. unfold gids_ok in Hg. rewrite Forall_forall in Hg. specialize (Hg g Hin). cbn in Hg. nia.
Qed.

Lemma specs_ok t s : topology_ok t -> Forall spec_ok (specs t s).
Proof.
  intros Ht. pose proof (valid_ok t s Ht) as (V1 & V2 & V3 & V4 & V5). pose proof Ht as [_ _ (S1 & S2 & S3) (B1 & B2)].
  assert (Hn : forall g, 0 <= g < kMaxServer * kMaxThread -> (g <? kMaxServer * kMaxThread) = true) by (intros; apply Z.ltb_lt; lia).
  assert (H0 : in_width 16 0) by (unfold in_width; lia).
  unfold specs. rewrite !Forall_app. split_and!.
  - apply (node_spec_ok t); [done..|]. intros g k Hg. constructor; cbn; auto; unfold LOGDCT, LOGRC; lia.
  - destruct (has t RAW); [|constructor]. apply Forall_map, Forall_true. intros k. constructor; cbn; auto; unfold LOGDCT, LOGRAW; lia.
  - destruct (has t UD); [|constructor]. apply Forall_map, Forall_true. intros k. constructor; cbn; auto; unfold LOGDCT, LOGUD; lia.
  - destruct (has t DCT); [|constructor]. apply Forall_map, Forall_true. intros k. constructor; cbn; auto; unfold LOGDCT, LOGUD; lia.
  - apply (node_spec_ok t); [done..|]. intros g k Hg. constructor; cbn; auto; unfold LOGDCT; lia.
  - destruct (_ && _); [|constructor]. constructor; [|constructor]. constructor; cbn; auto; unfold LOGDCT, LOGRC; lia.
  - apply (node_spec_ok t); [done..|]. intros g k Hg. constructor; cbn; auto; [by destruct (srq_receiver t s)|unfold LOGDCT, LOGRC; lia].
  - apply (node_spec_ok t); [done..|]. intros g k Hg. constructor; cbn; auto; unfold LOGDCT, LOGRC; lia.
Qed.

(** The messages of all queue pairs fit the 32-bit totals. *)
Definition fits (t : topology) (s : Z) : Prop :=
  zsum (map send_room (specs t s)) < 2 ^ 32 /\ zsum (map recv_room (specs t s)) < 2 ^ 32.

Definition laid (t : topology) (s : Z) : agent :=
  mkAgent (list_to_map (reverse (lay (specs t s) 0 0))) (zsum (map send_room (specs t s))) (zsum (map recv_room (specs t s))).

Lemma Rdma_new_laid t s th : topology_ok t -> fits t s -> 0 <= th < kMaxThread -> Rdma_new t s th = Done (laid t s).
Proof.
  intros Ht [Hs Hr] Hth. pose proof (to_servers _ Ht) as [Hk _]. unfold Rdma_new.
  rewrite (proj2 (Z.leb_le _ _)), (proj2 (Z.ltb_lt _ _)) by lia. cbn [andb].
  rewrite place_all_lay by (done || lia || by apply specs_ok). cbn [obind app]. by rewrite !Z.add_0_l.
Qed.

Lemma laid_elem t s n e : a_eps (laid t s) !! n = Some e -> (n, e) ∈ lay (specs t s) 0 0.
Proof. cbn. intros H. apply elem_of_list_to_map_2 in H. by rewrite elem_of_reverse in H. Qed.

Lemma lay_names sps : forall ts tr sp, sp ∈ sps -> exists e, (sp_name sp, e) ∈ lay sps ts tr.
Proof.
  induction sps as [|sp0 sps IH]; intros ts tr sp Hin; [by apply elem_of_nil in Hin|]. cbn [lay].
  apply elem_of_cons in Hin as [->|Hin]; [eexists; by left|]. destruct (IH (ts + send_room sp0) (tr + recv_room sp0) sp Hin) as [e He]. exists e. by right.
Qed.

Lemma laid_present t s sp : sp ∈ specs t s -> is_Some (a_eps (laid t s) !! sp_name sp).
Proof.
  intros Hin. destruct (lay_names (specs t s) 0 0 sp Hin) as [e He]. cbn.
  destruct (list_to_map (reverse (lay (specs t s) 0 0)) !! sp_name sp) as [e'|] eqn:E; [done|].
  exfalso. apply not_elem_of_list_to_map_2 in E. apply E. rewrite fmap_reverse, elem_of_reverse. apply list_elem_of_fmap. by exists (sp_name sp, e).
Qed.

(** ** The send region *)

Lemma init_send_slots_done mr off size ss : forall i, Forall (fun x => sg_num x = 0) ss ->
  exists ss', init_send_slots mr off size i ss = Done ss' /\ length ss' = length ss /\
    forall j x, ss' !! j = Some x ->
      sg_list x = {| addr := wrap 64 (rg_addr mr + wrap 32 (off + wrap 32 (size * Z.of_nat (i + j)))); len := size |}.
Proof.
  induction ss as [|x ss IH]; intros i Hss; [by exists []|]. apply Forall_cons in Hss as [Hx Hss]. cbn [init_send_slots].
  unfold init_send_slot, add_sg_to_wr. rewrite decide_True, !obind_done by done.
  destruct (IH (S i) Hss) as (ss' & -> & Hl & H). rewrite obind_done. eexists. split; [reflexivity|]. split; [cbn; lia|].
  intros [|j] y Hy.
  - injection Hy as <-. cbn. by rewrite Nat.add_0_r.
  - rewrite (H j y Hy). by replace (S i + j)%nat with (i + S j)%nat by lia.
Qed.

(** A queue pair as constructed gets its buffers. *)
Lemma init_send_done stale ty q mr off size :
  exists p, init_send_with_one_mr (init_qp stale ty q) mr off size = Done p /\ type p = ty /\
    zlen (slots (rpc_send p)) = kStaticSendBuf /\
    forall i x, zget (slots (rpc_send p)) i = Some x ->
      sg_list x = {| addr := wrap 64 (rg_addr mr + wrap 32 (off + wrap 32 (size * i))); len := size |}.
Proof.
  unfold init_send_with_one_mr.
  destruct (init_send_slots_done mr off size (slots (rpc_send (init_qp stale ty q))) 0) as (ss & -> & Hl & H).
  { cbn [rpc_send init_qp slots init_ring]. by apply Forall_replicate. }
  rewrite obind_done. eexists. split; [reflexivity|]. split; [done|]. cbn [with_ring rpc_send with_slots slots]. split.
  - unfold zlen. rewrite Hl. cbn [rpc_send init_qp slots init_ring]. rewrite length_replicate. done.
  - intros i x Hx. pose proof (zget_Some_range _ _ _ Hx) as Hi. unfold zget in Hx. rewrite decide_True in Hx by lia.
    rewrite (H _ x Hx). by rewrite Nat.add_0_l, Z2Nat.id by lia.
Qed.

Lemma init_sends_done mr ns : NoDup ns -> forall eps : endpoints,
  (forall n, n ∈ ns -> exists e ty, eps !! n = Some e /\ e_qp e = init_qp stale_flags ty (qp_id n)) ->
  exists eps', init_sends mr ns eps = Done eps' /\ (forall n, n ∉ ns -> eps' !! n = eps !! n) /\
    forall n, n ∈ ns -> exists e p, eps !! n = Some e /\
      init_send_with_one_mr (e_qp e) mr (e_send_offset e) (e_send_msg_size e) = Done p /\
      eps' !! n = Some (mkEndpoint (e_send_offset e) (e_send_msg_size e) (e_recv e) p).
Proof.
  induction 1 as [|n ns Hn Hnd IH]; intros eps Hin.
  { exists eps. split; [done|]. split; [done|]. by intros n ?%elem_of_nil. }
  cbn [init_sends]. destruct (Hin n ltac:(by left)) as (e & ty & He & Ety). rewrite He. cbn [of_option].
  destruct (init_send_done stale_flags ty (qp_id n) mr (e_send_offset e) (e_send_msg_size e)) as (p & Ep & _).
  rewrite obind_done, Ety, Ep, obind_done. set (e' := mkEndpoint _ _ _ p).
  assert (Hother : forall m, m <> n -> <[n := e']> eps !! m = eps !! m) by (intros m Hm; by rewrite lookup_insert_ne).
  destruct (IH (<[n := e']> eps)) as (eps' & E & H1 & H2).
  { intros m Hm. rewrite Hother by congruence. apply Hin. by right. }
  exists eps'. split; [done|]. split.
  - intros m [Hne Hm]%not_elem_of_cons. rewrite H1 by done. by apply Hother.
  - intros m [->|Hm]%elem_of_cons.
    + exists e, p. rewrite H1, lookup_insert_eq by done. by rewrite Ety.
    + destruct (H2 m Hm) as (e1 & p1 & He1 & H). rewrite Hother in He1 by congruence. by exists e1, p1.
Qed.

(** The names config_send_region goes through. *)
Lemma NoDup_flat_map {A B} (f : A -> list B) (l : list A) : NoDup l -> (forall x, NoDup (f x)) ->
  (forall x y z, z ∈ f x -> z ∈ f y -> x = y) -> NoDup (flat_map f l).
Proof.
  intros Hl Hf Hinj. induction Hl as [|x l Hx Hl IH]; [constructor|]. cbn [flat_map]. apply NoDup_app. split; [apply Hf|]. split; [|done].
  intros z Hz Hz'. apply list_elem_of_In, in_flat_map in Hz' as (y & Hy & Hzy). apply list_elem_of_In in Hy, Hzy.
  by rewrite (Hinj x y z Hz Hzy) in Hx.
Qed.

Lemma each_spec t valid mk n : n ∈ each t valid mk <->
  exists g k, n = mk g k /\ g ∈ valid /\ 0 <= g < kServerNum t * kMaxThread /\ 0 <= k < kMaxQPNum.
Proof.
  unfold each. rewrite list_elem_of_In, in_flat_map. split.
  - intros (g & Hg%list_elem_of_In%elem_of_seqZ & Hn). destruct (decide (g ∈ valid)) as [Hv|]; [|done].
    apply in_map_iff in Hn as (k & <- & Hk%list_elem_of_In%elem_of_seqZ). exists g, k. repeat split; (done || lia).
  - intros (g & k & -> & Hv & Hg & Hk). exists g. rewrite <- list_elem_of_In, elem_of_seqZ. split; [lia|]. rewrite decide_True by done.
    apply in_map, list_elem_of_In, elem_of_seqZ. lia.
Qed.

Lemma map_seqZ_spec (f : Z -> qp_name) n : n ∈ map f (seqZ 0 kMaxQPNum) <-> exists k, n = f k /\ 0 <= k < kMaxQPNum.
Proof.
  rewrite list_elem_of_In, in_map_iff. split.
  - intros (k & <- & Hk%list_elem_of_In%elem_of_seqZ). exists k. split; [done|lia].
  - intros (k & -> & Hk). exists k. split; [done|]. apply list_elem_of_In, elem_of_seqZ. lia.
Qed.

Lemma NoDup_map_seqZ (f : Z -> qp_name) : (forall x y, f x = f y -> x = y) -> NoDup (map f (seqZ 0 kMaxQPNum)).
Proof. intros Hf. apply NoDup_fmap_2; [exact Hf|apply NoDup_seqZ]. Qed.

Lemma NoDup_each t valid mk : (forall g k g' k', mk g k = mk g' k' -> g = g' /\ k = k') -> NoDup (each t valid mk).
Proof.
  intros Hmk. unfold each. apply NoDup_flat_map; [apply NoDup_seqZ| |].
  - intros g. destruct (decide _); [|constructor]. apply NoDup_map_seqZ. intros x y H. by apply Hmk in H as [_ ?].
  - intros x y z Hx Hy. destruct (decide (x ∈ valid)); [|by apply elem_of_nil in Hx]. destruct (decide (y ∈ valid)); [|by apply elem_of_nil in Hy].
    apply map_seqZ_spec in Hx as (k & -> & _), Hy as (k' & E & _). by apply Hmk in E as [-> _].
Qed.

Definition of_kind (k : nat) (l : list qp_name) : Prop := Forall (fun n => (code n).1 = k) l.

Lemma kind_each t valid (mk : Z -> Z -> qp_name) k : (forall g j, (code (mk g j)).1 = k) -> of_kind k (each t valid mk).
Proof. intros Hk. apply Forall_forall. intros n (g & j & -> & _)%each_spec. apply Hk. Qed.

Lemma kind_map (b : bool) (f : Z -> qp_name) k : (forall j, (code (f j)).1 = k) -> of_kind k (if b then map f (seqZ 0 kMaxQPNum) else []).
Proof. intros Hk. destruct b; [|constructor]. apply Forall_map, Forall_true, Hk. Qed.

Lemma NoDup_cons_kind k (l : list qp_name) (ls : list (nat * list qp_name)) :
  of_kind k l -> NoDup l -> Forall (fun x => of_kind x.1 x.2 /\ k <> x.1) ls -> NoDup (concat (map snd ls)) ->
  NoDup (l ++ concat (map snd ls)).
Proof.
  intros Hk Hl Hls Hd. apply NoDup_app. split; [done|]. split; [|done]. intros n Hn Hn'.
  unfold of_kind in Hk. rewrite Forall_forall in Hk. specialize (Hk n Hn). cbn in Hk. clear Hl Hd Hn. induction Hls as [|[k' l'] ls [Hk' Hne] _ IH]; [by apply elem_of_nil in Hn'|].
  cbn [map concat snd] in Hn'. apply elem_of_app in Hn' as [Hn'|Hn']; [|by apply IH].
  unfold of_kind in Hk'. rewrite Forall_forall in Hk'. specialize (Hk' n Hn'). cbn in Hk', Hne. congruence.
Qed.

Lemma NoDup_kinds (ls : list (nat * list qp_name)) : NoDup (map fst ls) ->
  Forall (fun x => of_kind x.1 x.2 /\ NoDup x.2) ls -> NoDup (concat (map snd ls)).
Proof.
  intros Hk. induction ls as [|[k l] ls IH]; intros Hls; [constructor|]. apply Forall_cons in Hls as [[H1 H2] Hls].
  apply NoDup_cons in Hk as [Hk Hks]. cbn [map concat fst snd] in *. apply (NoDup_cons_kind k); [done|done| |by apply IH].
  apply Forall_forall. intros x Hx. rewrite Forall_forall in Hls. split; [by apply Hls|]. intros ->. apply Hk. apply list_elem_of_fmap. by exists x.
Qed.

Lemma NoDup_if (b : bool) (f : Z -> qp_name) : (forall x y, f x = f y -> x = y) -> NoDup (if b then map f (seqZ 0 kMaxQPNum) else []).
Proof. intros Hf. destruct b; [by apply NoDup_map_seqZ|constructor]. Qed.

Lemma NoDup_send_names t s : NoDup (send_names t s).
Proof.
  assert (E : send_names t s = concat (map snd [(0%nat, each t (rc_valid t s) Rc);
    (1%nat, if has t RAW then map Raw (seqZ 0 kMaxQPNum) else []); (2%nat, if has t UD then map Ud (seqZ 0 kMaxQPNum) else []);
    (4%nat, each t (dct_valid t s) Dci); (6%nat, each t (tsrq_valid t s) TRc); (7%nat, each t (gsrq_send_valid t s) GRc)])).
  { unfold send_names. cbn [map concat snd]. by rewrite app_nil_r. }
  rewrite E. apply NoDup_kinds; [cbn; repeat constructor; set_solver|].
  repeat (apply Forall_cons; split; [cbn [fst snd]; split|]); try apply Forall_nil; try done;
    first [by apply kind_each|by apply kind_map|apply NoDup_each; by intros ???? [= -> ->]|apply NoDup_if; by intros ?? [= ->]].
Qed.

Lemma lay_made sps : forall ts tr n e, (n, e) ∈ lay sps ts tr ->
  exists sp ts' tr', sp ∈ sps /\ n = sp_name sp /\ e = made sp ts' tr'.
Proof.
  induction sps as [|sp sps IH]; intros ts tr n e Hin; [by apply elem_of_nil in Hin|]. cbn [lay] in Hin.
  apply elem_of_cons in Hin as [[= -> ->]|Hin]; [exists sp, ts, tr; split; [by left|done]|].
  destruct (IH _ _ _ _ Hin) as (sp' & ts' & tr' & H1 & H2). exists sp', ts', tr'. split; [by right|done].
Qed.

(** Every name of a region is a queue pair the constructor makes. *)
Lemma send_names_specs t s n : n ∈ send_names t s -> exists sp, sp ∈ specs t s /\ sp_name sp = n.
Proof.
  unfold send_names, specs. rewrite !elem_of_app. intros [H|[H|[H|[H|[H|H]]]]].
  - apply each_spec in H as (g & k & -> & Hv & _ & Hk). eexists. rewrite !elem_of_app. split; [left; apply per_node_spec; by exists g, k|done].
  - destruct (has t RAW); [|by apply elem_of_nil in H]. apply map_seqZ_spec in H as (k & -> & Hk). eexists. rewrite !elem_of_app.
    split; [right; left; apply list_elem_of_fmap; exists k; split; [reflexivity|apply elem_of_seqZ; lia]|done].
  - destruct (has t UD); [|by apply elem_of_nil in H]. apply map_seqZ_spec in H as (k & -> & Hk). eexists. rewrite !elem_of_app.
    split; [do 2 right; left; apply list_elem_of_fmap; exists k; split; [reflexivity|apply elem_of_seqZ; lia]|done].
  - apply each_spec in H as (g & k & -> & Hv & _ & Hk). eexists. rewrite !elem_of_app. split; [do 4 right; left; apply per_node_spec; by exists g, k|done].
  - apply each_spec in H as (g & k & -> & Hv & _ & Hk). eexists. rewrite !elem_of_app. split; [do 6 right; left; apply per_node_spec; by exists g, k|done].
  - apply each_spec in H as (g & k & -> & Hv & _ & Hk). eexists. rewrite !elem_of_app. split; [do 7 right; apply per_node_spec; by exists g, k|done].
Qed.

Lemma laid_made t s n : n ∈ map sp_name (specs t s) -> exists sp ts tr, sp ∈ specs t s /\ n = sp_name sp /\
  a_eps (laid t s) !! n = Some (made sp ts tr) /\ (n, made sp ts tr) ∈ lay (specs t s) 0 0.
Proof.
  intros Hn. apply list_elem_of_fmap in Hn as (sp & -> & Hsp). destruct (laid_present t s sp Hsp) as [e He].
  pose proof (laid_elem t s _ _ He) as Hl. destruct (lay_made _ _ _ _ _ Hl) as (sp' & ts & tr & H1 & H2 & ->). exists sp', ts, tr. done.
Qed.

(** The buffer of slot [i] of a queue pair. *)
Definition send_buffer (a : agent) (n : qp_name) (i : Z) : option ibv_sge :=
  match a_eps a !! n with
  | Some e => match zget (slots (rpc_send (e_qp e))) i with Some x => Some (sg_list x) | None => None end
  | None => None
  end.

Lemma slot_room k i : 0 <= i < kStaticSendBuf -> 0 <= k < 2 ^ 17 -> 0 <= k * i /\ k * i + k <= k * kStaticSendBuf.
Proof. unfold kStaticSendBuf, kMaxSignal. nia. Qed.

Lemma made_size sp ts tr : spec_ok sp -> 0 <= e_send_msg_size (made sp ts tr) < 2 ^ 17.
Proof.
  intros Hok. pose proof Hok as [H1 _ _ _ _]. destruct (header_small send_header_size sp Hok ltac:(by left)) as [_ Ls].
  by apply size_small.
Qed.

(** The send sides are as the constructor left them. *)
Definition sends_as_laid (t : topology) (s : Z) (a : agent) : Prop :=
  total_send_buf_size a = zsum (map send_room (specs t s)) /\
  forall n, n ∈ send_names t s -> exists e e0, a_eps a !! n = Some e /\ a_eps (laid t s) !! n = Some e0 /\
    e_send_offset e = e_send_offset e0 /\ e_send_msg_size e = e_send_msg_size e0 /\ e_qp e = e_qp e0.

Lemma laid_as_laid t s : sends_as_laid t s (laid t s).
Proof.
  split; [done|]. intros n Hn. destruct (send_names_specs t s n Hn) as (sp & Hsp & <-). destruct (laid_present t s sp Hsp) as [e He].
  by exists e, e.
Qed.

(** After config_send_region a queue pair's buffers lie one behind the other from its
    offset on. *)
Lemma config_send_done t s a0 addr key size : topology_ok t -> fits t s -> sends_as_laid t s a0 ->
  zsum (map send_room (specs t s)) <= size -> 0 <= addr -> addr + size < 2 ^ 64 ->
  exists a, config_send_region t s a0 addr key size = Done a /\
    (forall n e, a_eps a0 !! n = Some e -> exists e', a_eps a !! n = Some e' /\ e_recv e' = e_recv e) /\
    forall n, n ∈ send_names t s -> exists sp ts tr e, sp ∈ specs t s /\ n = sp_name sp /\ (n, made sp ts tr) ∈ lay (specs t s) 0 0 /\
      a_eps a !! n = Some e /\ zlen (slots (rpc_send (e_qp e))) = kStaticSendBuf /\
      type (e_qp e) = sp_type sp /\ (sp_type sp < LOGDCT -> QpCredit.fresh_qp (qp_id n) (e_qp e)) /\
      forall i b, send_buffer a n i = Some b -> 0 <= i < kStaticSendBuf /\
        b = {| Qp.addr := addr + ts + send_size sp * i; len := send_size sp |}.
Proof.
  intros Ht Hf [Htot Hlaid] Hsize Ha Haddr. unfold config_send_region. rewrite Htot.
  rewrite (proj2 (Z.leb_le _ _)) by lia. set (mr := {| rg_addr := addr; rg_key := key; rg_size := size |}).
  assert (Hin : forall n, n ∈ send_names t s -> n ∈ map sp_name (specs t s)).
  { intros n Hn. destruct (send_names_specs t s n Hn) as (sp & H & <-). apply list_elem_of_fmap. by exists sp. }
  destruct (init_sends_done mr (send_names t s) (NoDup_send_names t s) (a_eps a0)) as (eps & E & Hout & H).
  { intros n Hn. destruct (laid_made t s n (Hin n Hn)) as (sp & ts & tr & _ & En & He & _). destruct (Hlaid n Hn) as (e & e0 & He1 & He0 & _ & _ & Eq).
    rewrite He in He0. injection He0 as <-. exists e, (sp_type sp). split; [done|]. by rewrite Eq, En. }
  rewrite E, obind_done. eexists. split; [reflexivity|]. split.
  { intros n e He. destruct (decide (n ∈ send_names t s)) as [Hn|Hn]; [|exists e; cbn; by rewrite Hout].
    destruct (H n Hn) as (e1 & p & He1 & _ & Hp). rewrite He in He1. injection He1 as <-. eexists. split; [exact Hp|done]. }
  intros n Hn. destruct (laid_made t s n (Hin n Hn)) as (sp & ts & tr & Hsp & En & He & Hlay). destruct (H n Hn) as (e & p & He' & Ep & Hp).
  destruct (Hlaid n Hn) as (e1 & e0 & He1 & He0 & Eo & Ez & Eq). rewrite He in He0. injection He0 as <-. rewrite He' in He1. injection He1 as <-.
  rewrite Eo, Ez, Eq in Ep. rewrite Eo, Ez in Hp.
  exists sp, ts, tr, (mkEndpoint ts (send_size sp) (e_recv e) p).
  do 3 (split; [done|]). split; [exact Hp|]. cbn [e_qp made e_send_offset e_send_msg_size] in *.
  destruct (init_send_done stale_flags (sp_type sp) (qp_id (sp_name sp)) mr ts (send_size sp)) as (p' & Ep' & Ety & Hl & Hb).
  rewrite Ep' in Ep. injection Ep as <-. split; [exact Hl|]. split; [exact Ety|]. pose proof (specs_ok t s Ht) as Hok. rewrite Forall_forall in Hok. specialize (Hok sp Hsp).
  split.
  - intros Hty. exists stale_flags, (sp_type sp), mr, ts, (send_size sp). split; [|by rewrite En]. destruct Hok as [_ _ Hty' _ _]. lia.
  - intros i b Hbuf. unfold send_buffer in Hbuf. cbn [a_eps] in Hbuf. rewrite Hp in Hbuf. cbn [e_qp] in Hbuf.
    destruct (zget (slots (rpc_send p')) i) as [x|] eqn:Ex; [|done]. injection Hbuf as <-. pose proof (zget_Some_range _ _ _ Ex) as Hi. rewrite Hl in Hi.
    split; [done|]. rewrite (Hb i x Ex). change (rg_addr mr) with addr. f_equal.
    destruct (lay_in _ _ _ _ _ (specs_ok t s Ht) Hlay) as [[L1 L2] _]. pose proof (made_bytes sp ts tr Hok) as [Eb _]. rewrite Eb in L2.
    cbn [e_send_offset made] in L1, L2. pose proof (made_size sp ts tr Hok) as Hs. cbn [e_send_msg_size made] in Hs.
    pose proof (slot_room (send_size sp) i Hi Hs) as [R1 R2]. change (send_room sp) with (send_size sp * kStaticSendBuf) in L2. destruct Hf as [Hf _].
    rewrite (wrap_small 32 (send_size sp * i)) by (unfold in_width; lia).
    rewrite (wrap_small 32 (ts + _)) by (unfold in_width; lia).
    rewrite wrap_small by (unfold in_width; lia). lia.
Qed.

(** Every buffer is in the region and no two overlap. *)
Definition sends_apart (t : topology) (s : Z) (a : agent) (addr size : Z) : Prop :=
  forall n i b, n ∈ send_names t s -> send_buffer a n i = Some b ->
    addr <= Qp.addr b /\ Qp.addr b + len b <= addr + size /\
    forall n' i' b', n' ∈ send_names t s -> send_buffer a n' i' = Some b' -> (n, i) <> (n', i') ->
      apart (Qp.addr b) (len b) (Qp.addr b') (len b').

(** All slots have one, and a queue pair but those of a DCT is as sending expects it. *)
Definition sends_fresh (t : topology) (s : Z) (a : agent) : Prop :=
  forall n, n ∈ send_names t s -> exists e, a_eps a !! n = Some e /\ zlen (slots (rpc_send (e_qp e))) = kStaticSendBuf /\
    (type (e_qp e) < LOGDCT -> QpCredit.fresh_qp (qp_id n) (e_qp e)).

Lemma config_send_apart t s a0 addr key size : topology_ok t -> fits t s -> sends_as_laid t s a0 ->
  zsum (map send_room (specs t s)) <= size -> 0 <= addr -> addr + size < 2 ^ 64 ->
  exists a, config_send_region t s a0 addr key size = Done a /\
    (forall n e, a_eps a0 !! n = Some e -> exists e', a_eps a !! n = Some e' /\ e_recv e' = e_recv e) /\
    sends_fresh t s a /\ sends_apart t s a addr size.
Proof.
  intros Ht Hf H0 Hsize Ha Haddr. destruct (config_send_done t s a0 addr key size Ht Hf H0 Hsize Ha Haddr) as (a & E & Hrecv & H).
  exists a. split; [exact E|]. split; [exact Hrecv|]. pose proof (specs_ok t s Ht) as Hok. split.
  - intros n Hn. destruct (H n Hn) as (sp & ts & tr & e & _ & _ & _ & He & Hl & Ety & Hfr & _). exists e. split; [done|]. split; [done|].
    rewrite Ety. exact Hfr.
  - intros n i b Hn Hb. destruct (H n Hn) as (sp & ts & tr & e & Hsp & En & Hlay & _ & _ & _ & _ & Hbuf). destruct (Hbuf i b Hb) as [Hi ->].
    rewrite Forall_forall in Hok. destruct (lay_in _ _ _ _ _ (specs_ok t s Ht) Hlay) as [[L1 L2] _].
    destruct (made_bytes sp ts tr (Hok sp Hsp)) as [B _]. pose proof (made_size sp ts tr (Hok sp Hsp)) as Hsz.
    cbn [e_send_offset e_send_msg_size made] in L1, L2, Hsz. pose proof (slot_room (send_size sp) i Hi Hsz) as [R1 R2]. rewrite B in L2.
    change (send_room sp) with (send_size sp * kStaticSendBuf) in L2. cbn [Qp.addr len]. split; [lia|]. split; [lia|].
    intros n' i' b' Hn' Hb' Hne. unfold apart. destruct (decide (n = n')) as [<-|Hnn].
    + destruct (Hbuf i' b' Hb') as [Hi' ->]. cbn [Qp.addr len]. assert (i <> i') by congruence. nia.
    + destruct (H n' Hn') as (sp' & ts' & tr' & e' & Hsp' & En' & Hlay' & _ & _ & _ & _ & Hbuf'). destruct (Hbuf' i' b' Hb') as [Hi' ->].
      destruct (made_bytes sp' ts' tr' (Hok sp' Hsp')) as [B' _]. pose proof (made_size sp' ts' tr' (Hok sp' Hsp')) as Hsz'. cbn [e_send_msg_size made] in Hsz'.
      pose proof (slot_room (send_size sp') i' Hi' Hsz') as [R1' R2']. cbn [Qp.addr len].
      destruct (lay_apart _ _ _ _ _ _ _ (specs_ok t s Ht) Hlay Hlay' Hnn) as [Hap _]. unfold apart in Hap. rewrite B, B' in Hap.
      cbn [e_send_offset made] in Hap. change (send_room sp) with (send_size sp * kStaticSendBuf) in Hap. change (send_room sp') with (send_size sp' * kStaticSendBuf) in Hap. lia.
Qed.

(** ** The receive region *)
Section laws.
Context {V : Verbs} {VL : VerbsLaws V}.

Lemma only_recv_refl q d : only_recv q d d.
Proof. by split. Qed.

Lemma post_batch_only q st b st' : post_batch q st b = Done st' -> only_recv q st.2 st'.2.
Proof.
  destruct st as [r d]. unfold post_batch. destruct (of_option _ _) as [x|]; [|done]. rewrite obind_done.
  destruct (ibv_post_recv d q _) as [ret d'] eqn:E. destruct (post_recv_law _ _ _ _ _ E) as (-> & _ & H). intros [= <-]. exact H.
Qed.

Lemma init_batches_only q srq mr off size n : forall st i st', init_batches q srq st i n mr off size = Done st' -> only_recv q st.2 st'.2.
Proof.
  induction n as [|n IH]; intros st i st'; cbn [init_batches]; [intros [= <-]; apply only_recv_refl|].
  intros (st1 & E & H)%obind_inv. apply only_recv_trans with st1.2; [|by eapply IH].
  destruct st as [r d]. unfold init_batch in E. apply obind_inv in E as (b & _ & E). apply obind_inv in E as (b' & _ & E).
  by apply post_batch_only in E.
Qed.

(** The receive side of a queue pair as config_msg_buf leaves it. *)
Definition recv_made (e : endpoint) : Prop :=
  exists qp_len srq offset size,
    e_recv e = (config_msg_buf (construct qp_len srq stale_counts) 0 offset 0 size).1.2 /\ 0 < batch_size qp_len srq < 2 ^ 26.

Definition recv_set (mr : Region) (e e' : endpoint) (q : nat) (d : device) : Prop :=
  recv_ok q (e_recv e', d) [] 0 0 0 /\ kBatchRecv (e_recv e') = kBatchRecv (e_recv e) /\ e_send_offset e' = e_send_offset e /\
  e_send_msg_size e' = e_send_msg_size e /\ e_qp e' = e_qp e /\
  forall x, (x.1 < 64)%nat -> (x.2 < Z.to_nat (kBatchRecv (e_recv e)))%nat ->
    buffer_of (e_recv e') x =
    Some {| Qp.addr := buffer_addr mr (recv_offset (e_recv e)) (recv_msg_size (e_recv e)) (kBatchRecv (e_recv e)) x;
            len := recv_msg_size (e_recv e) |}.

Lemma recv_ok_other q q' r d d' todo N F R : only_recv q' d d' -> q <> q' -> recv_ok q (r, d) todo N F R -> recv_ok q (r, d') todo N F R.
Proof. intros (H & _) Hne [H1 H2 H3 H4 H5 H6 H7 H8 H9]. constructor; try done. cbn [snd] in *. by rewrite H. Qed.

Lemma qp_id_inj n m : qp_id n = qp_id m -> n = m.
Proof. apply encode_nat_inj. Qed.

Lemma init_recvs_done mr ns : NoDup ns -> forall (eps : endpoints) d,
  (forall n, n ∈ ns -> exists e, eps !! n = Some e /\ recv_made e /\ recv_queue d (qp_id n) = []) ->
  exists eps' d', init_recvs mr (map (fun n => (n, false)) ns) eps d = Done (eps', d') /\
    (forall n, n ∉ ns -> eps' !! n = eps !! n /\ recv_queue d' (qp_id n) = recv_queue d (qp_id n)) /\
    forall n, n ∈ ns -> exists e e', eps !! n = Some e /\ eps' !! n = Some e' /\ recv_set mr e e' (qp_id n) d'.
Proof.
  induction 1 as [|n ns Hn Hnd IH]; intros eps d Hin.
  { exists eps, d. split; [done|]. split; [done|]. by intros n ?%elem_of_nil. }
  cbn [init_recvs map]. destruct (Hin n ltac:(by left)) as (e & He & (qp_len & srq & off & size & Er & Hk) & Hq). rewrite He. cbn [of_option]. rewrite obind_done.
  destruct (init_recv_ok (qp_id n) (e_recv e, d) mr) as ([r d1] & E & Hok & Hkb & Hbuf).
  { exists qp_len, srq, stale_counts, off, size. done. }
  pose proof (init_batches_only _ _ _ _ _ _ _ _ _ E) as Honly. cbn [snd] in Honly. rewrite E, obind_done.
  set (e' := mkEndpoint _ _ r (e_qp e)).
  assert (Hid : forall m, m <> n -> qp_id m <> qp_id n) by (intros m Hm Hc; by apply Hm, qp_id_inj).
  destruct (IH (<[n := e']> eps) d1) as (eps' & d' & E' & H1 & H2).
  { intros m Hm. assert (Hmn : m <> n) by congruence. rewrite lookup_insert_ne by done. destruct Honly as (Hrq & _). rewrite Hrq by by apply Hid.
    apply Hin. by right. }
  exists eps', d'. split; [exact E'|]. destruct Honly as (Hrq & Hrest). split.
  - intros m [Hne Hm]%not_elem_of_cons. destruct (H1 m Hm) as [-> ->]. rewrite lookup_insert_ne by done. split; [done|]. apply Hrq. by apply Hid.
  - intros m [->|Hm]%elem_of_cons.
    + exists e, e'. destruct (H1 n Hn) as [H1a H1b]. rewrite H1a, lookup_insert_eq. split; [done|]. split; [done|].
      split; [|split; [exact Hkb|split; [done|split; [done|split; [done|exact Hbuf]]]]]. destruct Hok as [K1 K2 K3 K4 K5 K6 K7 K8 K9]. constructor; try done.
      cbn [snd e_recv e'] in *. by rewrite H1b.
    + destruct (H2 m Hm) as (e1 & e2 & He1 & H). rewrite lookup_insert_ne in He1 by congruence. by exists e1, e2.
Qed.




(** Without shared receive queues in the thread's region. *)
Definition no_srq (t : topology) (s : Z) : Prop :=
  has t DCT = false /\ (has t T_LOCAL_SRQ = true -> srq_receiver t s = false).

Definition own_recv_names (t : topology) (s : Z) : list qp_name :=
  each t (rc_valid t s) Rc ++ (if has t RAW then map Raw (seqZ 0 kMaxQPNum) else []) ++
  (if has t UD then map Ud (seqZ 0 kMaxQPNum) else []) ++ each t (tsrq_valid t s) TRc.

Lemma each_none t mk : each t [] mk = [].
Proof.
  unfold each. induction (seqZ 0 (kServerNum t * kMaxThread)) as [|x l IH]; [done|]. cbn [flat_map]. destruct (decide (x ∈ [])) as [H|]; [by apply elem_of_nil in H|exact IH].
Qed.

Lemma recv_names_own t s : no_srq t s -> recv_names t s = map (fun n => (n, false)) (own_recv_names t s).
Proof.
  intros [H1 H2]. unfold recv_names, own_recv_names. rewrite H1. cbn [app]. rewrite !map_app, <- !app_assoc. do 3 f_equal.
  destruct (has t T_LOCAL_SRQ) eqn:E; [by rewrite H2|]. unfold tsrq_valid. by rewrite E, each_none.
Qed.

Lemma NoDup_own_recv t s : NoDup (own_recv_names t s).
Proof.
  assert (E : own_recv_names t s = concat (map snd [(0%nat, each t (rc_valid t s) Rc);
    (1%nat, if has t RAW then map Raw (seqZ 0 kMaxQPNum) else []); (2%nat, if has t UD then map Ud (seqZ 0 kMaxQPNum) else []);
    (6%nat, each t (tsrq_valid t s) TRc)])).
  { unfold own_recv_names. cbn [map concat snd]. by rewrite app_nil_r. }
  rewrite E. apply NoDup_kinds; [cbn; repeat constructor; set_solver|].
  repeat (apply Forall_cons; split; [cbn [fst snd]; split|]); try apply Forall_nil; try done;
    first [by apply kind_each|by apply kind_map|apply NoDup_each; by intros ???? [= -> ->]|apply NoDup_if; by intros ?? [= ->]].
Qed.

Lemma own_recv_sends t s n : n ∈ own_recv_names t s -> n ∈ send_names t s.
Proof. unfold own_recv_names, send_names. rewrite !elem_of_app. tauto. Qed.

(** Every buffer to receive in is in the region and no two overlap. *)
Definition recv_buffer (a : agent) (n : qp_name) (x : nat * nat) : option ibv_sge :=
  match a_eps a !! n with
  | Some e => if decide ((x.1 < 64)%nat /\ (x.2 < Z.to_nat (kBatchRecv (e_recv e)))%nat) then buffer_of (e_recv e) x else None
  | None => None
  end.

Definition recvs_apart (t : topology) (s : Z) (a : agent) (addr size : Z) : Prop :=
  forall n x b, n ∈ own_recv_names t s -> recv_buffer a n x = Some b ->
    addr <= Qp.addr b /\ Qp.addr b + len b <= addr + size /\
    forall n' x' b', n' ∈ own_recv_names t s -> recv_buffer a n' x' = Some b' -> (n, x) <> (n', x') ->
      apart (Qp.addr b) (len b) (Qp.addr b') (len b').

(** All are posted, in the order the messages will be looked for. *)
Definition recvs_posted (t : topology) (s : Z) (a : agent) (d : device) : Prop :=
  forall n, n ∈ own_recv_names t s -> exists e, a_eps a !! n = Some e /\ recv_ok (qp_id n) (e_recv e, d) [] 0 0 0.

(** The bytes of request [j] of batch [i] among those of a queue pair. *)
Lemma recv_room_slot k m (x : nat * nat) : 0 <= m < 2 ^ 17 -> (x.1 < 64)%nat -> (x.2 < Z.to_nat k)%nat ->
  0 <= Z.of_nat x.1 * k + Z.of_nat x.2 < k * POSTPIPE /\ 0 <= m * (Z.of_nat x.1 * k + Z.of_nat x.2) /\
  m * (Z.of_nat x.1 * k + Z.of_nat x.2) + m <= m * (k * POSTPIPE).
Proof.
  intros Hm H1 H2. unfold POSTPIPE. assert (Hp : 0 <= Z.of_nat x.1 * k + Z.of_nat x.2 < k * 64) by nia.
  split; [done|]. set (p := Z.of_nat x.1 * k + Z.of_nat x.2) in *. nia.
Qed.

Lemma recv_slots_differ k (x y : nat * nat) : (x.2 < Z.to_nat k)%nat -> (y.2 < Z.to_nat k)%nat ->
  Z.of_nat x.1 * k + Z.of_nat x.2 = Z.of_nat y.1 * k + Z.of_nat y.2 -> x = y.
Proof.
  destruct x as [x1 x2], y as [y1 y2]. cbn [fst snd]. intros H1 H2 H. assert (Z.of_nat x1 = Z.of_nat y1) by nia.
  assert (x1 = y1) as -> by lia. f_equal. lia.
Qed.

Lemma made_recv sp ts tr : spec_ok sp -> recv_made (made sp ts tr) /\ recv_msg_size (e_recv (made sp ts tr)) = recv_size sp /\
  recv_offset (e_recv (made sp ts tr)) = tr /\ kBatchRecv (e_recv (made sp ts tr)) = batch_size FLAGS_qp_len (sp_srq sp) /\
  0 <= recv_size sp < 2 ^ 17.
Proof.
  intros Hok. pose proof Hok as [_ H2 _ Hk _]. destruct (header_small recv_header_size sp Hok ltac:(by right)) as [_ Lr].
  pose proof (size_small _ _ H2 Lr) as Sr. fold (recv_size sp) in Sr. split; [by exists FLAGS_qp_len, (sp_srq sp), tr, (sp_recv sp + header recv_header_size sp)|].
  split; [|done]. cbn. fold (recv_size sp). apply wrap_small. unfold in_width. lia.
Qed.

Lemma config_recv_done t s d addr key size : topology_ok t -> fits t s -> no_srq t s ->
  zsum (map recv_room (specs t s)) <= size -> 0 <= addr -> addr + size < 2 ^ 64 ->
  (forall n, n ∈ own_recv_names t s -> recv_queue d (qp_id n) = []) ->
  exists a d', config_recv_region t s (laid t s) d addr key size = Done (a, d') /\ sends_as_laid t s a /\ recvs_posted t s a d' /\
    forall n, n ∈ own_recv_names t s -> exists sp ts tr, sp ∈ specs t s /\ n = sp_name sp /\ (n, made sp ts tr) ∈ lay (specs t s) 0 0 /\
      forall x b, recv_buffer a n x = Some b -> (x.1 < 64)%nat /\ (x.2 < Z.to_nat (batch_size FLAGS_qp_len (sp_srq sp)))%nat /\
        b = {| Qp.addr := addr + tr + recv_size sp * (Z.of_nat x.1 * batch_size FLAGS_qp_len (sp_srq sp) + Z.of_nat x.2); len := recv_size sp |}.
Proof.
  intros Ht Hf Hno Hsize Ha Haddr Hq. unfold config_recv_region. cbn [total_recv_buf_size laid].
  rewrite (proj2 (Z.leb_le _ _)) by lia. set (mr := {| rg_addr := addr; rg_key := key; rg_size := size |}). rewrite recv_names_own by done.
  pose proof (specs_ok t s Ht) as Hoks. rewrite Forall_forall in Hoks.
  assert (Hin : forall n, n ∈ own_recv_names t s -> n ∈ map sp_name (specs t s)).
  { intros n Hn. destruct (send_names_specs t s n (own_recv_sends t s n Hn)) as (sp & H & <-). apply list_elem_of_fmap. by exists sp. }
  destruct (init_recvs_done mr (own_recv_names t s) (NoDup_own_recv t s) (a_eps (laid t s)) d) as (eps & d' & E & Hout & H).
  { intros n Hn. destruct (laid_made t s n (Hin n Hn)) as (sp & ts & tr & Hsp & _ & He & _). exists (made sp ts tr). split; [done|].
    split; [by apply made_recv, Hoks|by apply Hq]. }
  rewrite E, obind_done. eexists _, d'. split; [reflexivity|]. split; [|split].
  - split; [done|]. intros n Hn. destruct (send_names_specs t s n Hn) as (sp & Hsp & En). destruct (laid_present t s sp Hsp) as [e0 He0]. rewrite En in He0.
    destruct (decide (n ∈ own_recv_names t s)) as [Hr|Hr].
    + destruct (H n Hr) as (e & e' & He & He' & Hset). rewrite He0 in He. injection He as <-. exists e', e0.
      destruct Hset as (_ & _ & Ho & Hz & Hqp & _). done.
    + exists e0, e0. destruct (Hout n Hr) as [Ho _]. cbn [a_eps]. rewrite Ho. done.
  - intros n Hn. destruct (H n Hn) as (e & e' & _ & He' & Hset). exists e'. split; [exact He'|]. by destruct Hset.
  - intros n Hn. destruct (laid_made t s n (Hin n Hn)) as (sp & ts & tr & Hsp & En & He & Hlay). exists sp, ts, tr. do 3 (split; [done|]).
    destruct (H n Hn) as (e & e' & He1 & He' & (_ & Hk & _ & _ & _ & Hbuf)). rewrite He in He1. injection He1 as <-.
    destruct (made_recv sp ts tr (Hoks sp Hsp)) as (_ & Es & Eo & Ek & Hs). rewrite Es, Eo, Ek in Hbuf. rewrite Ek in Hk.
    intros x b Hb. unfold recv_buffer in Hb. cbn [a_eps] in Hb. rewrite He', Hk in Hb. destruct (decide _) as [[X1 X2]|]; [|done].
    split; [done|]. split; [done|]. rewrite (Hbuf x X1 X2) in Hb. injection Hb as <-. f_equal. unfold buffer_addr. change (rg_addr mr) with addr.
    set (k := batch_size FLAGS_qp_len (sp_srq sp)) in *.
    destruct (lay_in _ _ _ _ _ (specs_ok t s Ht) Hlay) as [_ [L1 L2]]. destruct (made_bytes sp ts tr (Hoks sp Hsp)) as [_ Eb]. rewrite Eo in L1, L2. rewrite Eb in L2.
    change (recv_room sp) with (recv_size sp * (k * POSTPIPE)) in L2. destruct (recv_room_slot k (recv_size sp) x Hs X1 X2) as (R1 & R2 & R3).
    pose proof (so_batch sp (Hoks sp Hsp)) as Hkb. fold k in Hkb. destruct Hf as [_ Hf].
    rewrite (wrap_small 32 (Z.of_nat x.1 * k + Z.of_nat x.2)) by (unfold in_width, POSTPIPE in *; lia).
    rewrite (wrap_small 32 (recv_size sp * _)) by (unfold in_width; lia).
    rewrite (wrap_small 32 (tr + _)) by (unfold in_width; lia). rewrite wrap_small by (unfold in_width; lia). lia.
Qed.
(** Apart, all of them. *)
Lemma config_recv_apart t s d addr key size : topology_ok t -> fits t s -> no_srq t s ->
  zsum (map recv_room (specs t s)) <= size -> 0 <= addr -> addr + size < 2 ^ 64 ->
  (forall n, n ∈ own_recv_names t s -> recv_queue d (qp_id n) = []) ->
  exists a d', config_recv_region t s (laid t s) d addr key size = Done (a, d') /\
    sends_as_laid t s a /\ recvs_posted t s a d' /\ recvs_apart t s a addr size.
Proof.
  intros Ht Hf Hno Hsize Ha Haddr Hq. destruct (config_recv_done t s d addr key size Ht Hf Hno Hsize Ha Haddr Hq) as (a & d' & E & Hs & Hp & H).
  exists a, d'. do 3 (split; [done|]). pose proof (specs_ok t s Ht) as Hok. rewrite Forall_forall in Hok.
  intros n x b Hn Hb. destruct (H n Hn) as (sp & ts & tr & Hsp & En & Hlay & Hbuf). destruct (Hbuf x b Hb) as (X1 & X2 & ->).
  destruct (lay_in _ _ _ _ _ (specs_ok t s Ht) Hlay) as [_ [L1 L2]]. destruct (made_bytes sp ts tr (Hok sp Hsp)) as [_ B].
  destruct (made_recv sp ts tr (Hok sp Hsp)) as (_ & _ & Eo & _ & Hsz). rewrite Eo in L1, L2. rewrite B in L2.
  change (recv_room sp) with (recv_size sp * (batch_size FLAGS_qp_len (sp_srq sp) * POSTPIPE)) in L2.
  destruct (recv_room_slot _ _ x Hsz X1 X2) as (R1 & R2 & R3). cbn [Qp.addr len]. split; [lia|]. split; [lia|].
  intros n' x' b' Hn' Hb' Hne. unfold apart. destruct (decide (n = n')) as [<-|Hnn].
  - destruct (Hbuf x' b' Hb') as (X1' & X2' & ->). cbn [Qp.addr len].
    assert (Hxx : Z.of_nat x.1 * batch_size FLAGS_qp_len (sp_srq sp) + Z.of_nat x.2 <> Z.of_nat x'.1 * batch_size FLAGS_qp_len (sp_srq sp) + Z.of_nat x'.2).
    { intros Hc. apply Hne. f_equal. by eapply recv_slots_differ. }
    generalize dependent (Z.of_nat x.1 * batch_size FLAGS_qp_len (sp_srq sp) + Z.of_nat x.2). intros p _ _ _ Hp'. nia.
  - destruct (H n' Hn') as (sp' & ts' & tr' & Hsp' & En' & Hlay' & Hbuf'). destruct (Hbuf' x' b' Hb') as (X1' & X2' & ->).
    destruct (made_bytes sp' ts' tr' (Hok sp' Hsp')) as [_ B']. destruct (made_recv sp' ts' tr' (Hok sp' Hsp')) as (_ & _ & Eo' & _ & Hsz').
    destruct (recv_room_slot _ _ x' Hsz' X1' X2') as (R1' & R2' & R3'). cbn [Qp.addr len].
    destruct (lay_apart _ _ _ _ _ _ _ (specs_ok t s Ht) Hlay Hlay' Hnn) as [_ Hap]. unfold apart in Hap. rewrite B, B', Eo, Eo' in Hap.
    change (recv_room sp) with (recv_size sp * (batch_size FLAGS_qp_len (sp_srq sp) * POSTPIPE)) in Hap.
    change (recv_room sp') with (recv_size sp' * (batch_size FLAGS_qp_len (sp_srq sp') * POSTPIPE)) in Hap. lia.
Qed.

(** The receive sides are not changed any more. *)
Lemma recv_kept t s a a' d : recvs_posted t s a d ->
  (forall n e, a_eps a !! n = Some e -> exists e', a_eps a' !! n = Some e' /\ e_recv e' = e_recv e) ->
  recvs_posted t s a' d /\ forall n x, n ∈ own_recv_names t s -> recv_buffer a' n x = recv_buffer a n x.
Proof.
  intros Hp Hk. split.
  - intros n Hn. destruct (Hp n Hn) as (e & He & H). destruct (Hk n e He) as (e' & He' & Er). exists e'. by rewrite Er.
  - intros n x Hn. destruct (Hp n Hn) as (e & He & _). destruct (Hk n e He) as (e' & He' & Er). unfold recv_buffer. by rewrite He, He', Er.
Qed.

(** C0: a thread whose topology fits the arrays, and whose regions are as large as the
    constructor asks, is set up: it is constructed, both of its regions are configured
    with no fault, every buffer it sends from or receives into lies inside its region
    and overlaps no other, all receive requests are posted in the order the messages
    are looked for, and every queue pair is ready to send. *)
Theorem agent_set_up t s th d raddr rkey rsize saddr skey ssize :
  topology_ok t -> fits t s -> no_srq t s -> 0 <= th < kMaxThread ->
  zsum (map recv_room (specs t s)) <= rsize -> 0 <= raddr -> raddr + rsize < 2 ^ 64 ->
  zsum (map send_room (specs t s)) <= ssize -> 0 <= saddr -> saddr + ssize < 2 ^ 64 ->
  (forall n, n ∈ own_recv_names t s -> recv_queue d (qp_id n) = []) ->
  exists a d' a', obind (Rdma_new t s th) (fun a => config_recv_region t s a d raddr rkey rsize) = Done (a, d') /\
    config_send_region t s a saddr skey ssize = Done a' /\
    sends_apart t s a' saddr ssize /\ recvs_apart t s a' raddr rsize /\ sends_fresh t s a' /\ recvs_posted t s a' d'.
Proof.
  intros Ht Hf Hno Hth Hr Hra Hrs Hs Hsa Hss Hq. rewrite Rdma_new_laid, obind_done by done.
  destruct (config_recv_apart t s d raddr rkey rsize Ht Hf Hno Hr Hra Hrs Hq) as (a & d' & E & Hl & Hp & Hap).
  destruct (config_send_apart t s a saddr skey ssize Ht Hf Hl Hs Hsa Hss) as (a' & E' & Hk & Hfr & Hsap).
  exists a, d', a'. do 3 (split; [done|]). destruct (recv_kept t s a a' d' Hp Hk) as [Hp' Hb]. split; [|done].
  intros n x b Hn Hbuf. rewrite Hb in Hbuf by done. destruct (Hap n x b Hn Hbuf) as (H1 & H2 & H3). do 2 (split; [done|]).
  intros n' x' b' Hn' Hbuf'. rewrite Hb in Hbuf' by done. by apply H3.
Qed.
End laws.

(** The asserts: a region smaller than what the constructor added up ends the process. *)
Lemma region_too_small `{V : Verbs} t s a d addr key size :
  (size < total_send_buf_size a -> config_send_region t s a addr key size = Fault ProcessExit) /\
  (size < total_recv_buf_size a -> config_recv_region t s a d addr key size = Fault ProcessExit).
Proof.
  unfold config_send_region, config_recv_region.
  split; intros H; by rewrite (proj2 (Z.leb_gt _ _)) by lia.
Qed.
End agent.

(** ** Two servers of two threads: reliable connections, and one queue pair for datagrams *)
#[local] Existing Instances QpDevice.verbs QpDevice.laws.

Definition sample : topology := {|
  kServerNum := 2; thread_num _ := 2; srq_receiver _ := false; srq_sender _ := false;
  matrix _ _ := true; matrix_TSRQ _ _ := true; matrix_GSRQ _ _ := false; func := 5;
  rc_msg_size := 64; raw_msg_size := 0; ud_msg_size := 64; normal_srq_len := 0 |}.

Lemma sample_ok : topology_ok 2 2 128 sample.
Proof. constructor; cbn; unfold in_width; repeat split; lia. Qed.

Lemma agent_set_up_witness :
  exists a d' a', obind (Rdma_new 2 2 1 128 0 [] sample 0 1) (fun a => config_recv_region 2 1 sample 0 a QpDevice.empty 65536 7 40960) = Done (a, d') /\
    config_send_region 2 1 sample 0 a 131072 8 24576 = Done a' /\
    sends_apart 2 1 sample 0 a' 131072 24576 /\ recvs_apart 2 1 sample 0 a' 65536 40960 /\
    sends_fresh 2 1 sample 0 a' /\ recvs_posted 2 1 sample 0 a' d'.
Proof.
  apply (agent_set_up (V := QpDevice.verbs) 2 2 1 128 0 [] sample 0 1 QpDevice.empty 65536 7 40960 131072 8 24576 sample_ok);
    try lia; try (split; vm_compute; congruence); try (vm_compute; congruence).
Defined.

(** With a shared receive queue in the region as well, as in rpc_example.cc, that queue
    takes its buffers from the first byte of the region and not from its own offset:
    the first request of the connection and that of the queue name the same bytes. *)
Definition sample_srq : topology := {|
  kServerNum := 2; thread_num _ := 1; srq_receiver _ := true; srq_sender _ := true;
  matrix _ _ := true; matrix_TSRQ _ _ := true; matrix_GSRQ _ _ := false; func := 9;
  rc_msg_size := 64; raw_msg_size := 0; ud_msg_size := 64; normal_srq_len := 0 |}.

Definition first_buffers (t : topology) (n n' : qp_name) : outcome (option ibv_sge * option ibv_sge) :=
  let! a := Rdma_new 2 1 1 64 0 (replicate 64 0) t 0 0 in
  let! (a, _) := config_recv_region 1 1 t 0 a QpDevice.empty 65536 7 40960 in
  Done (recv_buffer a n (0%nat, 0%nat), recv_buffer a n' (0%nat, 0%nat)).

Example srq_takes_first_bytes :
  first_buffers sample_srq (Rc 1 0) Tsrq = Done (Some {| addr := 65536; len := 64 |}, Some {| addr := 65536; len := 64 |}).
Proof. vm_compute. reflexivity. Qed.
End Agent.
